(* ===== verification/_CoqProject ===== *)
-Q . S2P
Prelude.v
GoBase.v
Rows.v
Alerting.v
Db.v
Reads.v
Downsample.v
Ingest.v
Ledger.v
ApiKeys.v
Enrollment.v
Transport.v
Spool.v
SpoolProofs.v
Agent.v
AuditTrail.v
Limits.v
Auth.v
AuthProofs.v
Identities.v
Server.v
ServerProofs.v
Admin.v
AdminProofs.v
EndToEnd.v
Collector.v
CollectorProofs.v
Retention.v
Export.v
ExportProofs.v
Config.v
ConfigProofs.v
Fsroot.v
FsrootProofs.v
RenderTLS.v
AgentRun.v
AgentRunProofs.v
Migration.v
Operator.v
OperatorProofs.v
CredStore.v
Windows.v
Startup.v
StartupProofs.v
WindowsProofs.v
Enrolling.v
Schema.v
SchemaProofs.v
Report.v
ReportProofs.v
Hub.v
HubProofs.v
Fleet.v
Dashboard.v
Notify.v
Main.v
MainProofs.v
