(* ===== verification/Prelude.v ===== *)
(** * W-Monitor (Zeus): a verification development

    W-Monitor is one Go binary that runs as an agent, as a hub or as a
    standalone monitor.  An agent polls its host, queues every observation on
    its disk and delivers the queue to a hub over HTTPS; the hub authenticates
    the upload, stores it exactly once under the tenant and server of the
    credential, evaluates alert rules and serves the rows to the dashboard; a
    standalone monitor writes what it polls into its own database.  This
    library models those parts and proves what the program promises about them.

    ** Files, and the code they model

    - [GoBase], [Db]: no file of the program.  Machine integers, instants,
      binary64, strings and [strconv], sorting and map iteration; Go errors and
      the monad [M] in which every statement of a database and every system
      call consults a list of faults (no effect and an error, or an effect whose
      reply is lost).  A theorem over all fault lists covers every failure, and
      a crash is a list that fails from some point on.
    - storage/: [Rows] and [Reads] (db.go, query.go, bounded_reads.go,
      postgres.go, and the paging of server/read_page.go), [Ingest]
      (ingest_contract.go, ingest.go) with its specification [Ledger],
      [ApiKeys] (apikeys.go), [Enrollment] (enrollment.go, enrollment_pg.go),
      [AuditTrail] (audit.go), [Migration] (opaque_tenant.go), [Schema] and
      [SchemaProofs] (the data definition statements of all of them).  Both
      database backends run the same operations over a [Dialect].
    - agent/: [Transport] (transport.go), [Spool] and [SpoolProofs] (spool.go,
      spool_batch.go), [Agent] (agent.go), [AgentRun] and [AgentRunProofs] (its
      constructors, goroutines and the lock of spool_lock_unix.go), [CredStore]
      (credstore.go, credstore_unix.go, the checkpoint writer of
      spool_lock_unix.go), [Windows] and [WindowsProofs] (credstore_windows.go,
      spool_lock_windows.go, and config_trust_windows.go of package main); the
      client of enroll.go is in [Startup].
    - server/: [Limits] (ratelimit.go, quota.go), [Auth] and [AuthProofs]
      (auth.go, session.go, https.go), [Identities] (the typing of what both
      hold), [Server] and [ServerProofs] (server.go, alerts.go), [Admin] and
      [AdminProofs] (enroll.go, audit.go), [Hub] and [HubProofs] (New,
      EnableHubMode, the routes and Handler: all endpoints as one server).
    - alerting/: [Alerting], [Notify]; collector/: [Collector],
      [CollectorProofs]; retention/: [Retention], [Downsample]; export/:
      [Export], [ExportProofs] (export.go), [Report], [ReportProofs]
      (report.go); dashboard/: [Dashboard]; internal/fsroot, internal/
      testisolate and the data directory of db.go: [Fsroot], [FsrootProofs].
    - package main: [Config], [ConfigProofs] (config.go,
      config_trust_unix.go, server_id_flag.go), [RenderTLS]
      (postgres_render_tls.go), [Operator], [OperatorProofs]
      (client_admin.go), [Startup], [StartupProofs] (runtime.go), [Main],
      [MainProofs] (main.go, makeProgram, alerts_setup.go).
    - [EndToEnd]: the agent of [Agent] against any hub that keeps two laws, over
      a network that loses requests and answers; [Fleet]: the whole server of
      [Hub] keeps them; [Enrolling]: the client of [Startup] against the
      endpoint of [Admin] over such a network.

    A definition has the name of the function it models; records have the
    fields of the structs, with a short prefix.  A handler is the whole
    handler, in the order of its statements.  A mutex that is held for a whole
    operation makes it one step; where the code lets others run in between
    (the callback of a drain, the handlers during a shutdown, other agents at
    the hub) the model does, too: an arbitrary computation or a step relation.

    ** How the parts meet

    The hub's state [site] of [Server] contains the ingestion tables of
    [Ingest], the credentials of [ApiKeys] and the trail of [AuditTrail], and
    every handler acts on it through them; [Hub] dispatches requests to the
    handlers, and [hub_db] of [Migration] is the same database next to which
    the operator's commands run.  A request with an uncached key starts a
    goroutine that records the use of the key ([Auth.start_touch]); the state
    lists those that have not run, a history of [HubProofs] runs them whenever
    it likes ([InBackground]), and in [Startup] they are what can outlive the
    store.  The client's theorems are stated against
    what the other end promises: the agent against an honest hub
    ([honest_http]), which [EndToEnd] derives from the laws of an [UploadHub] and
    [Fleet] proves of the whole server; the collector against a [Sink], which the SQLite tables, the guarded store of [Retention] and the
    agent implement; the row types against [Row] and [Tenanted] with their
    laws.

    ** What is shown

    - Delivery: a queued observation is on the agent's disk or committed at
      the hub, whatever else is asked of that hub at any endpoint ([Fleet],
      [SpoolProofs], [Agent]), as long as no write to the queue is cut in the
      middle of a record: what follows such a cut can be lost
      ([SpoolProofs.cut_write_poisons_segment], a finding); a batch is stored whole or not at all and once,
      however often it is sent ([Ingest]), as a refinement of a finite map
      ([Ledger]); the budgets are exact.
    - The hub as a whole ([HubProofs]): its tables, caches and memory stay
      sound and bounded along every history of requests, commands, clean-ups
      and failures; every request is answered; a request with a reading method
      changes no table itself and leaves at most the recording of the use of
      the key it shows; without credentials only public documents are reached
      and nothing is left behind.
    - Isolation: uploads are stored for, and reads, exports and alerts are
      restricted to, the tenant of the credential ([ServerProofs],
      [ExportProofs]); a server without accounts stays on the machine.
    - Documents: what a machine names never becomes a formula of a spreadsheet
      or markup of a report ([ExportProofs], [ReportProofs]); the statistics
      account for every row once; the dashboard is served only if its
      rewriting applied ([Dashboard]).
    - Credentials: tables and caches stay well formed after every history of
      calls and failures; a revocation is final and in force everywhere
      within the cache's bound; a code is not used beyond its limit; a lost
      enrollment reply can be asked for again; secrets are given out only once
      they are on record, over HTTP and on the command line; revoking an agent
      is unambiguous; the tenant migration is an injective renaming or nothing.
    - The agent's start: its credential is the configured or stored one, or
      comes from the configured hub, and is sent nowhere else; redirects keep
      the origin; the credential file is replaced whole, and on Windows what
      guards it and the queue's checkpoints is stated, for lists of plain
      entries ([WindowsProofs], which shows a conditional entry that the check
      misses); the
      configuration file is read only if every directory above it can be
      trusted, and only completes the environment; an enrollment ends with the
      hub's credential on the agent's disk.
    - Programs: the configuration gates everything a command line can lead to
      but stopping; a program is made complete or not at all, and owns its
      queue ([MainProofs], [AgentRunProofs]); databases of any older version
      are completed without losing a value ([SchemaProofs]); a connection
      string is only ever strengthened ([RenderTLS]).
    - Monitoring: alerts fire exactly after a sustained breach; user counts
      and report statistics mean what their names say, and so do rates between
      two polls that could read their counters ([CollectorProofs], which shows
      the spike after one that could not); a full disk
      stops collection without damage; the down-sampling that nothing calls
      would take rows from their owners ([Downsample]).
    - Stopping: whatever runs, the agent's queue and the store are closed once
      and after all that stopping waits for, and stopping can always end; that
      a recording of credential use can still come later is a finding.

    ** Fuel and bounds

    Loops over a list or a string recurse on it.  The others have fuel:
    trimming, splitting a segment into lines, scanning for a pattern and
    draining groups get the length of what they consume, the JSON scan the
    number of tokens, the decimal printer the number of bits, the walk over the
    parents of a path and the PEM loop one more than its length.  Every round
    consumes at least one of them; for the JSON scan, the segments, the drain,
    the walk and the PEM loop it is part of a theorem that the fuel is enough.
    Integers of a fixed width wrap where the code's do; floating point is
    binary64.

    ** Not modelled

    Code outside the repository is a parameter with its documented behaviour
    as laws: encoding/json, encoding/pem, net and net/url, SHA-256, random
    bytes, gopsutil, pgx, the averages of SQLite, the Unicode tables, the order
    of map iteration and of equal elements in a sort.  So is the Windows API
    (DPAPI and security descriptors), whose lists are seen through their text.
    A background recording of credential use runs after the request that
    started it, not between two of its statements; [os.MkdirAll] makes missing
    parents in [AgentRun] and [Report], while [CredStore] and [Windows] see one
    directory only; the machine's [int] has 64 bits.
    Left out are the HTTP library itself but for the matching of paths,
    response headers that carry no decision, log output, and the helpers that
    nothing calls (GenerateAPIKey, rewriteSegment, the DSN helpers at the end
    of config.go). *)

From stdpp Require Export base gmap strings list sorting.
From Stdlib Require Export ZArith Lia.

(** ** Results: a Go [(value, error)] pair of which exactly one is meaningful *)

Inductive result (E A : Type) : Type :=
| Ok (a : A)
| Err (e : E).
Arguments Ok {E A} a.
Arguments Err {E A} e.

Declare Scope wmon_scope.
Delimit Scope wmon_scope with wmon.

Definition result_bind {E A B : Type} (r : result E A) (k : A -> result E B) : result E B :=
  match r with
  | Ok a => k a
  | Err e => Err e
  end.

Notation "'let?' x ':=' r 'in' k" := (result_bind r (fun x => k))
  (at level 10, x pattern, r at level 100, k at level 200) : wmon_scope.

Definition is_ok {E A : Type} (r : result E A) : bool :=
  match r with
  | Ok _ => true
  | Err _ => false
  end.

Definition is_some {A : Type} (o : option A) : bool := match o with Some _ => true | None => false end.

(** [if cond { return err }] *)
Definition guard {E : Type} (bad : bool) (e : E) : result E unit :=
  if bad then Err e else Ok tt.

Open Scope wmon_scope.

(** A sequence of checks passes when each does. *)
Lemma guard_ok {E : Type} (b : bool) (x : E) (u : unit) : guard b x = Ok u -> b = false.
Proof. unfold guard. by destruct b. Qed.

Lemma result_bind_ok {E A B : Type} (r : result E A) (k : A -> result E B) (b : B) :
  result_bind r k = Ok b -> exists a, r = Ok a /\ k a = Ok b.
Proof. destruct r; simpl; [eauto|done]. Qed.

(** ** Tactics *)

(** Split every [match]/[if] on which the hypothesis or the goal is stuck. *)
Ltac crush_match :=
  repeat (case_match; simplify_eq/=; try done).

(** Turn boolean tests on integers and connectives into propositions. *)
Ltac bools :=
  repeat match goal with
  | H : (_ && _)%bool = true |- _ => apply andb_true_iff in H; destruct H
  | H : (_ || _)%bool = false |- _ => apply orb_false_iff in H; destruct H
  | H : (_ && _)%bool = false |- _ => apply andb_false_iff in H
  | H : (_ || _)%bool = true |- _ => apply orb_true_iff in H
  | H : negb _ = true |- _ => apply negb_true_iff in H
  | H : negb _ = false |- _ => apply negb_false_iff in H
  | H : (_ <? _)%Z = true |- _ => apply Z.ltb_lt in H
  | H : (_ <? _)%Z = false |- _ => apply Z.ltb_ge in H
  | H : (_ <=? _)%Z = true |- _ => apply Z.leb_le in H
  | H : (_ <=? _)%Z = false |- _ => apply Z.leb_gt in H
  | H : (_ =? _)%Z = true |- _ => apply Z.eqb_eq in H
  | H : (_ =? _)%Z = false |- _ => apply Z.eqb_neq in H
  | H : bool_decide _ = true |- _ => apply bool_decide_eq_true in H
  | H : bool_decide _ = false |- _ => apply bool_decide_eq_false in H
  | H : String.eqb _ _ = true |- _ => apply String.eqb_eq in H
  | H : String.eqb _ _ = false |- _ => apply String.eqb_neq in H
  end.

(** ** Lemmas on lists shared by the components *)

Create HintDb wmon.

Section lists.
Context {A : Type}.

(** The last [n] elements: the Go slice [s[len(s)-n:]] of a long enough [s]. *)
Definition last_n (n : nat) (l : list A) : list A := drop (length l - n) l.

Lemma last_n_length (n : nat) (l : list A) : length (last_n n l) = Nat.min n (length l).
Proof. unfold last_n. rewrite length_drop. lia. Qed.

Lemma last_n_all (n : nat) (l : list A) : length l <= n -> last_n n l = l.
Proof. intros. unfold last_n. replace (length l - n) with 0 by lia. done. Qed.

Lemma last_n_snoc (n : nat) (l : list A) (x : A) :
  0 < n -> last_n n (last_n n l ++ [x]) = last_n n (l ++ [x]).
Proof.
  intros Hn. destruct (decide (length l <= n)) as [Hl|Hl].
  - by rewrite (last_n_all n l).
  - unfold last_n. rewrite !length_app, length_drop. simpl.
    rewrite !drop_app_le by (rewrite ?length_drop; lia).
    rewrite drop_drop. f_equal. f_equal. lia.
Qed.
End lists.

(** ** Keyset pagination

    A sorted listing read page by page, each page starting strictly after the
    key of the last row of the page before. *)

Section pagination.
Context {A K : Type} (key : A -> K) (lt : K -> K -> Prop).
Context `{!StrictOrder lt} `{!RelDecision lt}.

Definition is_after (after : option K) (a : A) : Prop :=
  match after with
  | None => True
  | Some k => lt k (key a)
  end.
#[export] Instance is_after_dec (after : option K) (a : A) : Decision (is_after after a).
Proof. destruct after; simpl; apply _. Defined.

Definition rows_after (after : option K) (l : list A) : list A := filter (is_after after) l.

Lemma rows_after_none (l : list A) : rows_after None l = l.
Proof. unfold rows_after. induction l as [|a l IH]; [done|]. rewrite filter_cons_True, IH by done. done. Qed.

Lemma rows_after_last (after : option K) (l p rest : list A) (a : A) :
  StronglySorted (fun x y => lt (key x) (key y)) l ->
  rows_after after l = p ++ a :: rest -> rows_after (Some (key a)) l = rest.
Proof.
  intros Hs Hp.
  assert (Ha : is_after after a).
  { assert (Hin : a ∈ rows_after after l) by (rewrite Hp; set_solver).
    by apply list_elem_of_filter in Hin as [? _]. }
  assert (Hsub : rows_after (Some (key a)) l = rows_after (Some (key a)) (rows_after after l)).
  { unfold rows_after. rewrite list_filter_filter. apply list_filter_iff. intros x. simpl.
    split; [|by intros [? _]]. intros Hx. split; [done|].
    destruct after as [k|]; simpl in *; [by trans (key a)|done]. }
  assert (Hs' : StronglySorted (fun x y => lt (key x) (key y)) (p ++ a :: rest)).
  { rewrite <- Hp. unfold rows_after. clear -Hs. induction Hs as [|x l Hs IH Hx]; [constructor|].
    rewrite filter_cons. case_decide; [|done]. constructor; [done|].
    apply Forall_forall. intros y [_ Hy]%list_elem_of_filter. rewrite Forall_forall in Hx. auto. }
  rewrite Hsub, Hp. clear -Hs' StrictOrder0. unfold rows_after.
  induction p as [|x p IH]; simpl in *.
  - inversion Hs' as [|? ? _ Hf]; subst. rewrite filter_cons_False by (apply (StrictOrder_Irreflexive (key a))).
    rewrite Forall_forall in Hf. clear Hs'. induction rest as [|y rest IH]; [done|].
    rewrite filter_cons_True by (simpl; apply Hf; set_solver). f_equal. apply IH. set_solver.
  - inversion Hs' as [|? ? Hs'' Hf]; subst. rewrite filter_cons_False; [auto|]. simpl. intros Hlt.
    rewrite Forall_forall in Hf. assert (lt (key x) (key a)) by (apply Hf; set_solver).
    apply (StrictOrder_Irreflexive (key x)). by trans (key a).
Qed.

End pagination.
