(* ===== verification/GoBase.v ===== *)
(** * The parts of Go and of its standard library that the program uses

    Machine integers, [time.Time]/[time.Duration], [float64], [strings],
    [strconv] and [fmt] verbs.  Nothing in this file models a file of the
    repository; the component files build on it.

    - [float64] is the IEEE 754 binary64 arithmetic of the Standard Library's
      [SpecFloat] (53-bit significand, exponents to 1024, round to nearest
      even), which computes and has NaN, infinities and signed zeros.
    - an instant [time.Time] is its number of nanoseconds since the Unix
      epoch; the zero [Time] is January 1, year 1.  The monotonic reading Go
      may attach to an instant is not represented.
    - strings are byte strings ([String.string]).  The Unicode case tables
      are the interface [Unicode]; every function that consults them first
      takes Go's ASCII fast path, which is modelled. *)

From S2P Require Export Prelude.
From Stdlib Require Export SpecFloat Ascii.
Open Scope string_scope.
Open Scope list_scope.
Open Scope Z_scope.

(** ** Integers *)

Definition max_int64 : Z := 2 ^ 63 - 1.
Definition min_int64 : Z := - 2 ^ 63.
Definition max_uint64 : Z := 2 ^ 64 - 1.

(** Two's complement wrap-around of 64-bit arithmetic. *)
Definition wrap_u64 (z : Z) : Z := z `mod` 2 ^ 64.
Definition wrap_i64 (z : Z) : Z := (z + 2 ^ 63) `mod` 2 ^ 64 - 2 ^ 63.

Definition in_i64 (z : Z) : Prop := min_int64 <= z <= max_int64.
Definition in_u64 (z : Z) : Prop := 0 <= z <= max_uint64.

(** ** Time *)

Definition nanosecond : Z := 1.
Definition second : Z := 10 ^ 9.
Definition millisecond : Z := 10 ^ 6.
Definition microsecond : Z := 10 ^ 3.
Definition minute : Z := 60 * second.
Definition hour : Z := 60 * minute.

(** [time.Time{}]: 62135596800 seconds before the Unix epoch. *)
Definition zero_time : Z := - 62135596800 * second.
Definition IsZero (t : Z) : bool := t =? zero_time.

(** [t.Sub(u)] saturates at the [Duration] range. *)
Definition Sub (t u : Z) : Z := Z.max min_int64 (Z.min max_int64 (t - u)).
Definition After (t u : Z) : bool := u <? t.
Definition Before (t u : Z) : bool := t <? u.
(** [t.Unix()] and [time.Unix(sec, 0)]. *)
Definition Unix (t : Z) : Z := t / second.
Definition of_unix (s : Z) : Z := s * second.
(** The UTC calendar day of an instant.  The text [t.Format("2006-01-02")] is
    represented by this number: both name the day, and the order of the
    texts (for years 0 to 9999) is the order of the numbers. *)
Definition utc_day (t : Z) : Z := Unix t / 86400.

(** ** float64 *)

Definition float64 : Type := spec_float.
Definition f_of_Z (z : Z) : float64 := binary_normalize 53 1024 z 0 false.
Definition fadd : float64 -> float64 -> float64 := SFadd 53 1024.
Definition fsub : float64 -> float64 -> float64 := SFsub 53 1024.
Definition fmul : float64 -> float64 -> float64 := SFmul 53 1024.
Definition fdiv : float64 -> float64 -> float64 := SFdiv 53 1024.
Definition flt (x y : float64) : bool := SFltb x y.
Definition fle (x y : float64) : bool := SFleb x y.
Definition fgt (x y : float64) : bool := SFltb y x.
Definition fge (x y : float64) : bool := SFleb y x.
Definition feq (x y : float64) : bool := SFeqb x y.
Definition f0 : float64 := S754_zero false.
Definition fnan : float64 := S754_nan.
Definition is_nan (x : float64) : bool :=
  match x with S754_nan => true | _ => false end.
Definition is_inf (x : float64) : bool :=
  match x with S754_infinity _ => true | _ => false end.

(** The magnitude of a finite value times [k], as a fraction [(num, den)]. *)
Definition f_scaled (m : positive) (e k : Z) : Z * Z :=
  if 0 <=? e then (Zpos m * 2 ^ e * k, 1) else (Zpos m * k, 2 ^ (- e)).

(** [int64(f)]: truncation toward zero.  A value out of range (the Go
    specification leaves it to the implementation) converts as amd64 does. *)
Definition f_to_int (x : float64) : Z :=
  match x with
  | S754_zero _ => 0
  | S754_finite s m e =>
      let '(n, d) := f_scaled m e 1 in
      let v := if s then - (n / d) else n / d in
      if (min_int64 <=? v) && (v <=? max_int64) then v else min_int64
  | _ => min_int64
  end.

(** [d.Seconds()]. *)
Definition Seconds (d : Z) : float64 :=
  fadd (f_of_Z (d `quot` second)) (fdiv (f_of_Z (d `rem` second)) (f_of_Z second)).

(** ** Strings *)

Definition empty_str : string := EmptyString.
Definition is_empty (s : string) : bool :=
  match s with EmptyString => true | _ => false end.
Lemma is_empty_false (s : string) : is_empty s = false -> s <> EmptyString.
Proof. by intros Hs ->. Qed.
Definition slen (s : string) : Z := Z.of_nat (String.length s).
Definition code (c : ascii) : Z := Z.of_N (N_of_ascii c).
Definition chr (n : N) : ascii := ascii_of_N n.

Fixpoint string_forall (p : ascii -> bool) (s : string) : bool :=
  match s with
  | EmptyString => true
  | String c s' => p c && string_forall p s'
  end.
Definition string_exists (p : ascii -> bool) (s : string) : bool :=
  negb (string_forall (fun c => negb (p c)) s).

Fixpoint string_map (f : ascii -> ascii) (s : string) : string :=
  match s with
  | EmptyString => EmptyString
  | String c s' => String (f c) (string_map f s')
  end.

Fixpoint string_rev_app (s acc : string) : string :=
  match s with
  | EmptyString => acc
  | String c s' => string_rev_app s' (String c acc)
  end.
Definition string_rev (s : string) : string := string_rev_app s EmptyString.

(** [strings.HasPrefix], [HasSuffix], [Contains]. *)
Definition HasPrefix (s p : string) : bool := String.prefix p s.
Definition HasSuffix (s p : string) : bool := String.prefix (string_rev p) (string_rev s).
Fixpoint Contains (s p : string) : bool :=
  String.prefix p s ||
  match s with
  | EmptyString => false
  | String _ s' => Contains s' p
  end.

(** [s[n:]] and [s[:n]] *)
Fixpoint sdrop (n : nat) (s : string) : string :=
  match n, s with
  | O, _ => s
  | S n', String _ s' => sdrop n' s'
  | S _, EmptyString => EmptyString
  end.
Fixpoint stake (n : nat) (s : string) : string :=
  match n, s with
  | S n', String c s' => String c (stake n' s')
  | _, _ => EmptyString
  end.

(** The UTF-8 encodings of the code points [unicode.IsSpace] accepts. *)
Definition bytes (l : list N) : string :=
  fold_right (fun n s => String (chr n) s) EmptyString l.
Definition space_encodings : list string :=
  map bytes
    ([[9]; [10]; [11]; [12]; [13]; [32]; [0xC2; 0x85]; [0xC2; 0xA0]; [0xE1; 0x9A; 0x80];
      [0xE2; 0x80; 0xA8]; [0xE2; 0x80; 0xA9]; [0xE2; 0x80; 0xAF]; [0xE2; 0x81; 0x9F];
      [0xE3; 0x80; 0x80]] ++
     map (fun k => [0xE2; 0x80; k])
       [0x80; 0x81; 0x82; 0x83; 0x84; 0x85; 0x86; 0x87; 0x88; 0x89; 0x8A])%N.

(** Strip any run of the strings of [seps] from the front; the fuel is the
    length of [s], and every step drops at least one byte. *)
Fixpoint trim_front (fuel : nat) (seps : list string) (s : string) : string :=
  match fuel with
  | O => s
  | S fuel' =>
      match List.find (fun p => String.prefix p s) seps with
      | Some p => trim_front fuel' seps (sdrop (String.length p) s)
      | None => s
      end
  end.
Definition TrimLeftSpace (s : string) : string :=
  trim_front (String.length s) space_encodings s.
Definition TrimRightSpace (s : string) : string :=
  string_rev (trim_front (String.length s) (map string_rev space_encodings) (string_rev s)).
(** [strings.TrimSpace] *)
Definition TrimSpace (s : string) : string := TrimRightSpace (TrimLeftSpace s).
(** [strings.TrimRight(s, "/")] for a one-byte cutset *)
Definition TrimRightByte (c : ascii) (s : string) : string :=
  string_rev (trim_front (String.length s) [String c EmptyString] (string_rev s)).

(** [strings.Cut(s, sep)] for a one-byte separator. *)
Fixpoint Cut (s : string) (sep : ascii) : string * string * bool :=
  match s with
  | EmptyString => (EmptyString, EmptyString, false)
  | String c s' =>
      if Ascii.eqb c sep then (EmptyString, s', true)
      else let '(a, b, ok) := Cut s' sep in (String c a, b, ok)
  end.

(** [strings.Split(s, sep)] for a one-byte separator. *)
Fixpoint Split (s : string) (sep : ascii) : list string :=
  match s with
  | EmptyString => [EmptyString]
  | String c s' =>
      if Ascii.eqb c sep then EmptyString :: Split s' sep
      else match Split s' sep with
           | x :: l => String c x :: l
           | [] => [String c EmptyString]
           end
  end.

(** [strings.ReplaceAll(s, sep, "")] for a one-byte [sep]. *)
Fixpoint RemoveByte (sep : ascii) (s : string) : string :=
  match s with
  | EmptyString => EmptyString
  | String c s' => if Ascii.eqb c sep then RemoveByte sep s' else String c (RemoveByte sep s')
  end.

(** ** Case mapping *)

(** What Go's Unicode tables give beyond ASCII. *)
Class Unicode := {
  uc_upper : string -> string;
  uc_lower : string -> string;
  uc_equal_fold : string -> string -> bool
}.

Definition is_ascii_char (c : ascii) : bool := code c <? 128.
Definition is_ascii_str (s : string) : bool := string_forall is_ascii_char s.
Definition upper_char (c : ascii) : ascii :=
  if (97 <=? code c) && (code c <=? 122) then chr (N_of_ascii c - 32)%N else c.
Definition lower_char (c : ascii) : ascii :=
  if (65 <=? code c) && (code c <=? 90) then chr (N_of_ascii c + 32)%N else c.

Section case_mapping.
Context `{Unicode}.

Definition ToUpper (s : string) : string :=
  if is_ascii_str s then string_map upper_char s else uc_upper s.
Definition ToLower (s : string) : string :=
  if is_ascii_str s then string_map lower_char s else uc_lower s.
Definition EqualFold (s t : string) : bool :=
  if is_ascii_str s && is_ascii_str t
  then String.eqb (string_map lower_char s) (string_map lower_char t)
  else uc_equal_fold s t.
End case_mapping.

(** ** strconv *)

Definition is_digit (c : ascii) : bool := (48 <=? code c) && (code c <=? 57).
Definition digit_val (c : ascii) : Z := code c - 48.
Definition digit_char (d : Z) : ascii := chr (Z.to_N (d + 48)).

(** Decimal digits of a non-negative number, most significant first.  The
    number of binary digits plus one is enough fuel. *)
Fixpoint digits_aux (fuel : nat) (n : Z) (acc : string) : string :=
  match fuel with
  | O => acc
  | S fuel' =>
      let acc' := String (digit_char (n `mod` 10)) acc in
      if n <? 10 then acc' else digits_aux fuel' (n / 10) acc'
  end.
Definition digits (n : Z) : string := digits_aux (S (Z.to_nat (Z.log2 n))) n EmptyString.
(** [strconv.Itoa], the verb [%d] *)
Definition Itoa (n : Z) : string :=
  if n <? 0 then String "-" (digits (- n)) else digits n.

Fixpoint parse_digits (s : string) (acc : Z) : option Z :=
  match s with
  | EmptyString => Some acc
  | String c s' => if is_digit c then parse_digits s' (acc * 10 + digit_val c) else None
  end.
(** [strconv.ParseInt(s, 10, 64)] and [strconv.Atoi]; [None] is a syntax or a
    range error. *)
Definition ParseInt (s : string) : option Z :=
  let '(neg, body) :=
    match s with
    | String c s' =>
        if Ascii.eqb c "+" then (false, s') else if Ascii.eqb c "-" then (true, s') else (false, s)
    | EmptyString => (false, s)
    end in
  if is_empty body then None
  else match parse_digits body 0 with
       | None => None
       | Some v =>
           let v := if neg then - v else v in
           if (min_int64 <=? v) && (v <=? max_int64) then Some v else None
       end.

(** [strings.ContainsAny(s, chars)] for ASCII [chars]. *)
Fixpoint mem_char (c : ascii) (s : string) : bool :=
  match s with
  | EmptyString => false
  | String c' s' => Ascii.eqb c c' || mem_char c s'
  end.
Definition ContainsAny (s chars : string) : bool := string_exists (fun c => mem_char c chars) s.

(** The bytes [" \t\r\n"]. *)
Definition blank_chars : string := bytes [32; 9; 13; 10]%N.

(** ** fmt: the verb [%.1f] *)

(** [num / den] to the nearest integer, ties to even. *)
Definition div_half_even (num den : Z) : Z :=
  let q := num / den in
  let r := num `mod` den in
  match Z.compare (2 * r) den with
  | Lt => q
  | Gt => q + 1
  | Eq => if Z.even q then q else q + 1
  end.

Definition format_tenths (neg : bool) (tenths : Z) : string :=
  (if neg then "-" else EmptyString) +:+ Itoa (tenths / 10) +:+ "." +:+ Itoa (tenths `mod` 10).

Definition FormatF1 (x : float64) : string :=
  match x with
  | S754_nan => "NaN"
  | S754_infinity s => if s then "-Inf" else "+Inf"
  | S754_zero s => format_tenths s 0
  | S754_finite s m e =>
      let '(n, d) := f_scaled m e 10 in format_tenths s (div_half_even n d)
  end.

(** The verb [%.nf]. *)
Fixpoint zeros (n : nat) : string := match n with O => EmptyString | S n => String "0" (zeros n) end.
Definition pad_left (n : nat) (s : string) : string := zeros (n - String.length s) +:+ s.
Definition format_fixed (neg : bool) (n : nat) (v : Z) : string :=
  let den := 10 ^ Z.of_nat n in
  (if neg then "-" else EmptyString) +:+ Itoa (v / den) +:+
  (if (n =? 0)%nat then EmptyString else "." +:+ pad_left n (Itoa (v `mod` den))).
Definition FormatF (n : nat) (x : float64) : string :=
  match x with
  | S754_nan => "NaN"
  | S754_infinity s => if s then "-Inf" else "+Inf"
  | S754_zero s => format_fixed s n 0
  | S754_finite s m e =>
      let '(num, den) := f_scaled m e (10 ^ Z.of_nat n) in format_fixed s n (div_half_even num den)
  end.

(** ** Calendar dates *)

(** The proleptic Gregorian date of a day counted from January 1, 1970. *)
Definition civil_date (days : Z) : Z * Z * Z :=
  let z := days + 719468 in
  let era := z / 146097 in
  let doe := z `mod` 146097 in
  let yoe := (doe - doe / 1460 + doe / 36524 - doe / 146096) / 365 in
  let doy := doe - (365 * yoe + yoe / 4 - yoe / 100) in
  let mp := (5 * doy + 2) / 153 in
  let d := doy - (153 * mp + 2) / 5 + 1 in
  let m := if mp <? 10 then mp + 3 else mp - 9 in
  (yoe + era * 400 + (if m <=? 2 then 1 else 0), m, d).
(** [t.UTC().Format("2006-01-02 15:04")] and, with seconds,
    [t.UTC().Format("2006-01-02 15:04:05")], for years 0 to 9999. *)
Definition FormatMinute (t : Z) : string :=
  let '(y, m, d) := civil_date (utc_day t) in
  let s := Unix t `mod` 86400 in
  let two v := pad_left 2 (Itoa v) in
  pad_left 4 (Itoa y) +:+ "-" +:+ two m +:+ "-" +:+ two d +:+ " " +:+ two (s / 3600) +:+ ":" +:+
  two ((s / 60) `mod` 60).
Definition FormatSecond (t : Z) : string :=
  FormatMinute t +:+ ":" +:+ pad_left 2 (Itoa (Unix t `mod` 60)).

(** ** time.ParseDuration *)

(** [leadingInt]: the longest run of digits; [None] when it exceeds 2^63. *)
Fixpoint leadingInt (s : string) (x : Z) : option (Z * string) :=
  match s with
  | String c s' =>
      if is_digit c then
        if 2 ^ 63 / 10 <? x then None
        else let x' := x * 10 + digit_val c in
             if 2 ^ 63 <? x' then None else leadingInt s' x'
      else Some (x, s)
  | EmptyString => Some (x, s)
  end.

(** [leadingFraction]: digits past the precision are skipped. *)
Fixpoint leadingFraction (s : string) (x : Z) (scale : float64) (overflow : bool)
  : Z * float64 * string :=
  match s with
  | String c s' =>
      if is_digit c then
        if overflow then leadingFraction s' x scale true
        else if max_int64 / 10 <? x then leadingFraction s' x scale true
        else let y := x * 10 + digit_val c in
             if 2 ^ 63 <? y then leadingFraction s' x scale true
             else leadingFraction s' y (fmul scale (f_of_Z 10)) false
      else (x, scale, s)
  | EmptyString => (x, scale, s)
  end.

(** The unit text: up to the next digit or dot. *)
Fixpoint take_unit (s : string) : string * string :=
  match s with
  | String c s' =>
      if Ascii.eqb c "." || is_digit c then (EmptyString, s)
      else let '(u, rest) := take_unit s' in (String c u, rest)
  | EmptyString => (EmptyString, EmptyString)
  end.

Definition duration_unit (u : string) : option Z :=
  if String.eqb u "ns" then Some nanosecond
  else if String.eqb u "us" || String.eqb u (bytes [0xC2; 0xB5; 0x73]%N)
          || String.eqb u (bytes [0xCE; 0xBC; 0x73]%N) then Some microsecond
  else if String.eqb u "ms" then Some millisecond
  else if String.eqb u "s" then Some second
  else if String.eqb u "m" then Some minute
  else if String.eqb u "h" then Some hour
  else None.

(** One [value unit] item per unfolding: the fuel is the length of the text,
    and an item consumes at least two bytes. *)
Fixpoint duration_items (fuel : nat) (s : string) (d : Z) : option Z :=
  match fuel with
  | O => Some d
  | S fuel' =>
      if is_empty s then Some d
      else
        match leadingInt s 0 with
        | None => None
        | Some (v, s1) =>
            let pre := negb (slen s1 =? slen s) in
            let '(f, scale, s2, post) :=
              match s1 with
              | String "." s1' =>
                  let '(f, scale, s2) := leadingFraction s1' 0 (f_of_Z 1) false in
                  (f, scale, s2, negb (slen s2 =? slen s1'))
              | _ => (0, f_of_Z 1, s1, false)
              end in
            if negb pre && negb post then None
            else
              let '(u, s3) := take_unit s2 in
              if is_empty u then None
              else match duration_unit u with
                   | None => None
                   | Some unit =>
                       if 2 ^ 63 / unit <? v then None
                       else
                         let v := v * unit in
                         let v := if 0 <? f
                                  then wrap_u64 (v + f_to_int (fmul (f_of_Z f) (fdiv (f_of_Z unit) scale)))
                                  else v in
                         if 2 ^ 63 <? v then None
                         else let d := wrap_u64 (d + v) in
                              if 2 ^ 63 <? d then None else duration_items fuel' s3 d
                   end
        end
  end.

(** [time.ParseDuration]; [None] is any of its errors. *)
Definition ParseDuration (s : string) : option Z :=
  let '(neg, s) :=
    match s with
    | String c s' =>
        if Ascii.eqb c "-" then (true, s') else if Ascii.eqb c "+" then (false, s') else (false, s)
    | EmptyString => (false, s)
    end in
  if String.eqb s "0" then Some 0
  else if is_empty s then None
  else match duration_items (String.length s) s 0 with
       | None => None
       | Some d =>
           if neg then Some (wrap_i64 (- d))
           else if max_int64 <? d then None else Some d
       end.

(** ** Maps *)

(** A Go [range] over a map visits every entry once, in an unspecified
    order. *)
Class MapRange := {
  range : forall {V : Type}, gmap string V -> list (string * V);
  range_perm : forall {V : Type} (m : gmap string V), range m ≡ₚ map_to_list m
}.

(** One possible order, for evaluating the model. *)
Definition canonical_range : MapRange :=
  {| range := fun V m => map_to_list m; range_perm := fun V m => reflexivity _ |}.

(** ** Sorting *)

(** What [sort.Slice] needs of a comparison on the elements of a slice: a
    strict weak order. *)
Definition weak_order {A : Type} (less : A -> A -> bool) (l : list A) : Prop :=
  (forall a b, a ∈ l -> b ∈ l -> less a b = true -> less b a = false) /\
  (forall a b c, a ∈ l -> b ∈ l -> c ∈ l -> less b a = false -> less c b = false -> less c a = false).

(** [sort.Slice] permutes; when the comparison is a strict weak order nothing
    comes after an element it is less than.  The order of equal elements is
    unspecified. *)
Class SortSlice := {
  sort_slice : forall {A : Type}, (A -> A -> bool) -> list A -> list A;
  sort_slice_perm : forall {A : Type} (less : A -> A -> bool) (l : list A), sort_slice less l ≡ₚ l;
  sort_slice_sorted : forall {A : Type} (less : A -> A -> bool) (l : list A),
    weak_order less l -> StronglySorted (fun a b => less b a = false) (sort_slice less l)
}.

(** ** net *)

(** The address parsers and predicates of [net]. *)
Class Net := {
  IP : Type;
  net_ParseIP : string -> option IP;
  ip_equal : IP -> IP -> bool;
  ip_IsLoopback : IP -> bool;
  ip_IsUnspecified : IP -> bool;
  net_ParseCIDR : string -> option (IP -> bool);
  net_SplitHostPort : string -> option string
}.

(** ** Lemmas *)

Lemma code_digit_char (d : Z) : 0 <= d < 10 -> code (digit_char d) = d + 48.
Proof.
  intros Hd. unfold code, digit_char, chr.
  rewrite N_ascii_embedding by lia. lia.
Qed.

Lemma is_digit_digit_char (d : Z) : 0 <= d < 10 -> is_digit (digit_char d) = true.
Proof. intros Hd. unfold is_digit. rewrite code_digit_char by done. lia. Qed.

Lemma digit_val_digit_char (d : Z) : 0 <= d < 10 -> digit_val (digit_char d) = d.
Proof. intros Hd. unfold digit_val. rewrite code_digit_char by done. lia. Qed.

Lemma parse_digits_aux (fuel : nat) : forall (n : Z) (acc : string),
  0 <= n < 2 ^ Z.of_nat fuel ->
  exists k : Z, 0 <= k /\
    forall a : Z, parse_digits (digits_aux fuel n acc) a = parse_digits acc (a * 10 ^ k + n).
Proof.
  induction fuel as [|fuel IH]; intros n acc Hn.
  { exists 0. split; [done|]. intros a. simpl. f_equal. simpl in Hn. lia. }
  rewrite Nat2Z.inj_succ, Z.pow_succ_r in Hn by lia.
  assert (Hm : 0 <= n `mod` 10 < 10) by (apply Z.mod_pos_bound; lia).
  pose proof (Z.div_mod n 10 ltac:(lia)) as Hdm.
  cbn [digits_aux]. destruct (n <? 10) eqn:E; bools.
  - exists 1. split; [lia|]. intros a. simpl. rewrite is_digit_digit_char by done.
    rewrite digit_val_digit_char by done. rewrite Z.mod_small by lia. f_equal; lia.
  - destruct (IH (n / 10) (String (digit_char (n `mod` 10)) acc)) as (k & Hk & IHk).
    { split; [apply Z.div_pos; lia|]. apply Z.div_lt_upper_bound; lia. }
    exists (k + 1). split; [lia|]. intros a. rewrite IHk. simpl.
    rewrite is_digit_digit_char, digit_val_digit_char by done. f_equal;
    rewrite Z.pow_add_r by lia; lia.
Qed.

Lemma log2_fuel (n : Z) : 0 <= n -> n < 2 ^ Z.of_nat (S (Z.to_nat (Z.log2 n))).
Proof.
  intros Hn. destruct (decide (n = 0)) as [->|]; [done|].
  pose proof (Z.log2_spec n ltac:(lia)) as Hs. pose proof (Z.log2_nonneg n).
  replace (Z.of_nat (S (Z.to_nat (Z.log2 n)))) with (Z.succ (Z.log2 n)) by lia. lia.
Qed.

Lemma parse_digits_digits (n : Z) : 0 <= n -> parse_digits (digits n) 0 = Some n.
Proof.
  intros Hn. unfold digits.
  destruct (parse_digits_aux _ n EmptyString (conj Hn (log2_fuel n Hn))) as (k & _ & ->).
  done.
Qed.

Lemma digits_aux_nonempty (fuel : nat) : forall (n : Z) (acc : string),
  acc <> EmptyString -> digits_aux fuel n acc <> EmptyString.
Proof. induction fuel as [|fuel IH]; intros n acc Ha; simpl; [done|]. case_match; eauto. Qed.

Lemma digits_head (n : Z) : 0 <= n ->
  exists (c : ascii) (s : string), digits n = String c s /\ is_digit c = true.
Proof.
  intros Hn. pose proof (parse_digits_digits n Hn) as Hp.
  destruct (digits n) as [|c s] eqn:E.
  - unfold digits in E. simpl in E. case_match; [done|].
    apply digits_aux_nonempty in E; done.
  - exists c, s. split; [done|]. simpl in Hp. by destruct (is_digit c).
Qed.

(** [strconv.ParseInt(strconv.Itoa(n), 10, 64)] returns [n]. *)
Lemma ParseInt_Itoa (n : Z) : in_i64 n -> ParseInt (Itoa n) = Some n.
Proof.
  unfold in_i64, min_int64, max_int64. intros Hn. unfold Itoa.
  destruct (n <? 0) eqn:E; bools.
  - pose proof (parse_digits_digits (- n) ltac:(lia)) as Hp.
    destruct (digits_head (- n) ltac:(lia)) as (c & s & Hd & _).
    unfold ParseInt. simpl. rewrite Hp, Hd. simpl.
    unfold min_int64, max_int64. case_match; bools; [f_equal; lia|lia].
  - pose proof (parse_digits_digits n ltac:(lia)) as Hp.
    destruct (digits_head n ltac:(lia)) as (c & s & Hd & Hc).
    unfold ParseInt. rewrite Hd in *.
    assert (Ascii.eqb c "+" = false) as ->
      by (destruct (Ascii.eqb_spec c "+"); [subst; done|done]).
    assert (Ascii.eqb c "-" = false) as ->
      by (destruct (Ascii.eqb_spec c "-"); [subst; done|done]).
    simpl is_empty. cbv iota. rewrite Hp.
    unfold min_int64, max_int64. case_match; bools; [done|lia].
Qed.

(** Comparisons with NaN are all false. *)
Lemma flt_nan_l (x : float64) : flt fnan x = false.
Proof. done. Qed.
Lemma flt_nan_r (x : float64) : flt x fnan = false.
Proof. by destruct x. Qed.

(** *** Strings of visible ASCII *)

Definition visible (c : ascii) : bool := (33 <=? code c) && (code c <=? 126).

Lemma string_forall_app (p : ascii -> bool) (s t : string) :
  string_forall p (s +:+ t) = string_forall p s && string_forall p t.
Proof. induction s as [|c s IH]; [done|]. simpl. by rewrite IH, andb_assoc. Qed.

Lemma string_forall_mono (p q : ascii -> bool) (s : string) :
  (forall c, p c = true -> q c = true) -> string_forall p s = true -> string_forall q s = true.
Proof. intros Hpq. induction s as [|c s IH]; [done|]. simpl. intros. bools. rewrite Hpq, IH; done. Qed.

Lemma string_rev_app_forall (p : ascii -> bool) (s acc : string) :
  string_forall p (string_rev_app s acc) = string_forall p s && string_forall p acc.
Proof.
  revert acc. induction s as [|c s IH]; intros acc; [done|]. simpl. rewrite IH. simpl.
  destruct (p c), (string_forall p s); done.
Qed.

Lemma string_rev_app_rev (s acc t : string) :
  string_rev_app (string_rev_app s acc) t = string_rev_app acc (s +:+ t).
Proof. revert acc t. induction s as [|c s IH]; intros acc t; [done|]. simpl. by rewrite IH. Qed.

Lemma append_cons (c : ascii) (s t : string) : String c s +:+ t = String c (s +:+ t).
Proof. done. Qed.
Lemma length_append (s t : string) : String.length (s +:+ t) = (String.length s + String.length t)%nat.
Proof. induction s as [|c s IH]; [done|]. rewrite append_cons. cbn [String.length]. lia. Qed.
Lemma append_empty (s : string) : EmptyString +:+ s = s.
Proof. done. Qed.
Lemma append_nil_r (s : string) : s +:+ EmptyString = s.
Proof. induction s as [|c s IH]; [done|]. exact (f_equal (String c) IH). Qed.
Lemma append_assoc (s t u : string) : (s +:+ t) +:+ u = s +:+ t +:+ u.
Proof. induction s as [|c s IH]; [done|]. rewrite !append_cons. by rewrite IH. Qed.

Lemma stake_all (s : string) (n : nat) : (String.length s <= n)%nat -> stake n s = s.
Proof. revert n. induction s as [|c s IH]; intros [|n] Hn; simpl in *; try done; [lia|]. f_equal. apply IH. lia. Qed.
Lemma sdrop_all (s : string) (n : nat) : (String.length s <= n)%nat -> sdrop n s = EmptyString.
Proof. revert n. induction s as [|c s IH]; intros [|n] Hn; simpl in *; try done; [lia|]. apply IH. lia. Qed.

Lemma string_rev_involutive (s : string) : string_rev (string_rev s) = s.
Proof. unfold string_rev. rewrite string_rev_app_rev. exact (append_nil_r s). Qed.

(** Every space encoding starts, in either direction, with a byte outside
    the visible range. *)
Lemma trim_front_visible (fuel : nat) (seps : list string) (s : string) :
  forallb (fun p => match p with String c _ => negb (visible c) | EmptyString => false end) seps = true ->
  string_forall visible s = true -> trim_front fuel seps s = s.
Proof.
  intros Hseps Hs. destruct fuel as [|fuel]; [done|]. simpl.
  assert (List.find (fun p => String.prefix p s) seps = None) as ->; [|done].
  destruct s as [|c s]; simpl in Hs; bools.
  - induction seps as [|p seps IH]; [done|]. simpl in *. bools. destruct p; [done|]. simpl. auto.
  - induction seps as [|p seps IH]; [done|]. simpl in *. bools. destruct p as [|d p]; [done|].
    simpl. destruct (ascii_dec d c) as [->|]; [by bools; congruence|]. auto.
Qed.

Lemma TrimSpace_visible (s : string) : string_forall visible s = true -> TrimSpace s = s.
Proof.
  intros Hs. unfold TrimSpace, TrimLeftSpace, TrimRightSpace.
  rewrite (trim_front_visible _ space_encodings) by (done || vm_compute; done).
  rewrite trim_front_visible; [apply string_rev_involutive|by vm_compute|].
  unfold string_rev. by rewrite string_rev_app_forall, Hs.
Qed.

Lemma Cut_app (a b : string) (sep : ascii) :
  string_forall (fun c => negb (Ascii.eqb c sep)) a = true ->
  Cut (a +:+ String sep b) sep = (a, b, true).
Proof.
  induction a as [|c a IH]; simpl; intros Ha.
  - by rewrite Ascii.eqb_refl.
  - bools. by rewrite H, IH.
Qed.

Lemma digits_aux_forall (p : ascii -> bool) (fuel : nat) : forall (n : Z) (acc : string),
  (forall c, is_digit c = true -> p c = true) -> 0 <= n ->
  string_forall p acc = true -> string_forall p (digits_aux fuel n acc) = true.
Proof.
  induction fuel as [|fuel IH]; intros n acc Hp Hn Ha; [done|]. simpl.
  assert (Hd : p (digit_char (n `mod` 10)) = true).
  { apply Hp, is_digit_digit_char. apply Z.mod_pos_bound. lia. }
  case_match; [|apply IH; [done|by apply Z.div_pos|]]; simpl; by rewrite Hd, Ha.
Qed.

Lemma Itoa_forall (p : ascii -> bool) (n : Z) :
  (forall c, is_digit c = true -> p c = true) -> p "-"%char = true ->
  string_forall p (Itoa n) = true.
Proof.
  intros Hp Hm. unfold Itoa, digits. destruct (n <? 0) eqn:E; bools; cbn [string_forall];
    rewrite ?Hm, ?andb_true_l; apply digits_aux_forall; (done || lia).
Qed.

Lemma is_digit_visible (c : ascii) : is_digit c = true -> visible c = true.
Proof. unfold is_digit, visible. intros. bools. lia. Qed.

Lemma is_digit_not_colon (c : ascii) : is_digit c = true -> negb (Ascii.eqb c ":"%char) = true.
Proof. destruct (Ascii.eqb_spec c ":"%char); [subst; done|done]. Qed.

Lemma Itoa_nonempty (n : Z) : is_empty (Itoa n) = false.
Proof.
  unfold Itoa. destruct (n <? 0) eqn:E; [done|]. bools.
  by destruct (digits_head n E) as (c & s & -> & _).
Qed.

#[export] Hint Resolve is_digit_visible is_digit_not_colon : wmon.

Lemma Itoa_inj (a b : Z) : Itoa a = Itoa b -> a = b.
Proof.
  assert (Hdig : forall x y, 0 <= x -> 0 <= y -> digits x = digits y -> x = y).
  { intros x y Hx Hy He. pose proof (parse_digits_digits x Hx) as H1.
    pose proof (parse_digits_digits y Hy) as H2. rewrite He in H1. congruence. }
  assert (Hmin : forall x s, 0 <= x -> digits x <> String "-" s).
  { intros x s Hx. destruct (digits_head x Hx) as (c & t & -> & Hc). by intros [= ->]. }
  unfold Itoa. destruct (a <? 0) eqn:Ea, (b <? 0) eqn:Eb; bools; intros He.
  - injection He as He. apply Hdig in He; lia.
  - by destruct (Hmin b _ Eb (eq_sym He)).
  - by destruct (Hmin a _ Ea He).
  - by apply Hdig.
Qed.

(** *** The order of float64

    [SFcompare] orders the values other than NaN lexicographically by a
    signed class, exponent and significand. *)

Definition fkey (x : float64) : Z * Z * Z :=
  match x with
  | S754_nan | S754_zero _ => (0, 0, 0)
  | S754_infinity s => (if s then -2 else 2, 0, 0)
  | S754_finite s m e => if s then (-1, - e, Zneg m) else (1, e, Zpos m)
  end.
Definition key3_lt (a b : Z * Z * Z) : Prop :=
  a.1.1 < b.1.1 \/ (a.1.1 = b.1.1 /\ (a.1.2 < b.1.2 \/ (a.1.2 = b.1.2 /\ a.2 < b.2))).

Lemma SFcompare_key (x y : float64) : is_nan x = false -> is_nan y = false ->
  exists c, SFcompare x y = Some c /\
    (c = Lt <-> key3_lt (fkey x) (fkey y)) /\ (c = Eq <-> fkey x = fkey y).
Proof.
  unfold key3_lt. intros Hx Hy.
  destruct x as [sx|sx| |sx mx ex], y as [sy|sy| |sy my ey]; try done; destruct sx, sy; simpl;
    (eexists; split; [reflexivity|]).
  all: try change (Pos.compare_cont Eq mx my) with (Pos.compare mx my).
  all: try (destruct (Z.compare_spec ex ey) as [->| |]; [destruct (Pos.compare_spec mx my) as [->| |]| |]; simpl).
  all: split; split; intros Hc; try discriminate Hc; try done; try (exfalso; simplify_eq; lia).
  all: lia.
Qed.

Lemma flt_key (x y : float64) : is_nan x = false -> is_nan y = false ->
  (flt x y = true <-> key3_lt (fkey x) (fkey y)).
Proof.
  intros Hx Hy. destruct (SFcompare_key x y Hx Hy) as (c & Hc & Hlt & _).
  unfold flt, SFltb. rewrite Hc. rewrite <- Hlt. by destruct c.
Qed.
Lemma feq_key (x y : float64) : is_nan x = false -> is_nan y = false ->
  (feq x y = true <-> fkey x = fkey y).
Proof.
  intros Hx Hy. destruct (SFcompare_key x y Hx Hy) as (c & Hc & _ & Heq).
  unfold feq, SFeqb. rewrite Hc. rewrite <- Heq. by destruct c.
Qed.

(** *** Operations that never give NaN *)

Lemma shr_m_nonneg (mrs : shr_record) (e n : Z) : 0 <= shr_m mrs -> 0 <= shr_m (fst (shr mrs e n)).
Proof.
  intros Hm. unfold shr. destruct n as [|p|p]; try done. simpl.
  assert (H1 : forall r, 0 <= shr_m r -> 0 <= shr_m (shr_1 r)) by (intros [[|[q|q|]|q] r s]; simpl; lia).
  assert (Hi : forall q r, 0 <= shr_m r -> 0 <= shr_m (iter_pos shr_1 q r)).
  { induction q as [q IH|q IH|]; intros r Hr; simpl; auto. }
  by apply Hi.
Qed.

Lemma binary_round_aux_number (prec emax : Z) (s : bool) (m e : Z) (l : location) :
  0 <= m -> is_nan (binary_round_aux prec emax s m e l) = false.
Proof.
  intros Hm. unfold binary_round_aux, shr_fexp.
  destruct (shr (shr_record_of_loc m l) e _) as [r1 e1] eqn:E1.
  assert (H1 : 0 <= shr_m r1).
  { change r1 with (fst (r1, e1)). rewrite <- E1. apply shr_m_nonneg. by destruct l as [|[]]. }
  destruct (shr (shr_record_of_loc (round_nearest_even _ _) loc_Exact) e1 _) as [r2 e2] eqn:E2.
  assert (H2 : 0 <= shr_m r2).
  { change r2 with (fst (r2, e2)). rewrite <- E2. apply shr_m_nonneg. simpl.
    unfold round_nearest_even. repeat case_match; lia. }
  destruct (shr_m r2); [done| |lia]. by case_match.
Qed.

Lemma f_of_Z_number (z : Z) : is_nan (f_of_Z z) = false.
Proof.
  unfold f_of_Z, binary_normalize, binary_round. destruct z as [|p|p]; [done|..];
    destruct (shl_align _ _ _); apply binary_round_aux_number; lia.
Qed.

Lemma fdiv_number (x : float64) (s : bool) (m : positive) (e : Z) :
  is_nan x = false -> is_nan (fdiv x (S754_finite s m e)) = false.
Proof.
  intros Hx. unfold fdiv, SFdiv. destruct x as [| | |sx mx ex]; try done.
  unfold SFdiv_core_binary.
  destruct (Z.div_eucl _ (Zpos m)) as [q r] eqn:E.
  apply binary_round_aux_number.
  match type of E with Z.div_eucl ?a _ = _ =>
    pose proof (Z_div_pos a (Zpos m)) as Hq; unfold Z.div in Hq; rewrite E in Hq end.
  apply Hq; [lia|]. case_match; try lia. apply Z.shiftl_nonneg. lia.
Qed.

(** *** One way to sort: insertion *)

Section insertion.
Context {A : Type} (less : A -> A -> bool).

Fixpoint insert_slice (x : A) (l : list A) : list A :=
  match l with
  | [] => [x]
  | y :: l' => if less y x then y :: insert_slice x l' else x :: l
  end.
Definition insertion_sort (l : list A) : list A := fold_right insert_slice [] l.

Lemma insert_slice_perm (x : A) (l : list A) : insert_slice x l ≡ₚ x :: l.
Proof. induction l as [|y l IH]; [done|]. simpl. case_match; [rewrite IH; apply Permutation_swap|done]. Qed.
Lemma insertion_sort_perm (l : list A) : insertion_sort l ≡ₚ l.
Proof. induction l as [|x l IH]; [done|]. simpl. by rewrite insert_slice_perm, IH. Qed.

Lemma weak_order_incl (l l' : list A) : (forall x, x ∈ l' -> x ∈ l) -> weak_order less l -> weak_order less l'.
Proof. intros Hi [Hr Ht]. split; [eauto|]. intros a b c ???. eapply Ht; eauto. Qed.

Lemma insert_slice_sorted (x : A) (l : list A) :
  weak_order less (x :: l) -> StronglySorted (fun a b => less b a = false) l ->
  StronglySorted (fun a b => less b a = false) (insert_slice x l).
Proof.
  induction l as [|y l IH]; intros Hw Hs; simpl; [repeat constructor|].
  inversion Hs as [|? ? Hs' Hy]; subst. destruct (less y x) eqn:E.
  - constructor; [apply IH; [|done]; eapply weak_order_incl; [|done]; set_solver|].
    rewrite insert_slice_perm. constructor; [|done].
    destruct Hw as [Hr _]. apply (Hr y x); [set_solver..|done].
  - constructor; [done|]. constructor; [done|].
    rewrite Forall_forall in Hy |- *. intros z Hz. destruct Hw as [_ Ht].
    apply (Ht x y z); [set_solver..|done|]. by apply Hy.
Qed.
Lemma insertion_sort_sorted (l : list A) :
  weak_order less l -> StronglySorted (fun a b => less b a = false) (insertion_sort l).
Proof.
  induction l as [|x l IH]; intros Hw; [constructor|]. simpl. apply insert_slice_sorted.
  - eapply weak_order_incl; [|done]. intros z. rewrite !elem_of_cons, insertion_sort_perm. done.
  - apply IH. eapply weak_order_incl; [|done]. set_solver.
Qed.
End insertion.

Definition insertion_slice : SortSlice :=
  {| sort_slice := @insertion_sort; sort_slice_perm := @insertion_sort_perm;
     sort_slice_sorted := @insertion_sort_sorted |}.

Example civil_epoch : FormatSecond 0 = "1970-01-01 00:00:00"%string.
Proof. reflexivity. Qed.
Example civil_leap : FormatSecond (1709210096 * second) = "2024-02-29 12:34:56"%string.
Proof. vm_compute. reflexivity. Qed.
Example format_cents : FormatF 2 (fdiv (f_of_Z 1) (f_of_Z 3)) = "0.33"%string.
Proof. vm_compute. reflexivity. Qed.
Example format_half_even : (FormatF 0 (fdiv (f_of_Z 5) (f_of_Z 2)), FormatF 2 (f_of_Z (-7))) = ("2", "-7.00")%string.
Proof. vm_compute. reflexivity. Qed.
