(* ===== verification/Rows.v ===== *)
(** * Rows and query scoping ([storage/db.go], [storage/query.go])

    The two row types every component exchanges, the tenant guard of the
    customer-facing reads and the row limit. *)

From S2P Require Export GoBase.
Open Scope list_scope.
Open Scope Z_scope.

Record MetricRow := {
  m_ID : Z;
  m_Timestamp : Z;
  m_TenantID : string;
  m_ServerID : string;
  m_Hostname : string;
  m_CPUPct : float64;
  m_MemPct : float64;
  m_DiskFreeGB : float64;
  m_NetSentBytes : Z;
  m_NetRecvBytes : Z;
  m_CPUCores : Z;
  m_MemTotalGB : float64;
  m_DiskTotalGB : float64;
  m_DiskReadOps : Z;
  m_DiskWriteOps : Z;
  m_DiskIOPS : float64;
  m_NetMBps : float64;
  m_ConcurrentUsers : Z;
  m_NetSentExternal : Z;
  m_NetRecvExternal : Z;
  m_NetSentInternal : Z;
  m_NetRecvInternal : Z
}.

Record ProcessRow := {
  p_ID : Z;
  p_Timestamp : Z;
  p_TenantID : string;
  p_ServerID : string;
  p_Hostname : string;
  p_PID : Z;
  p_Name : string;
  p_CPUPct : float64;
  p_MemMB : float64
}.

(** The zero [MetricRow] with an identity and a time, for witnesses. *)
Definition metric_at (ts : Z) (tenant server : string) (cpu : float64) : MetricRow :=
  {| m_ID := 0; m_Timestamp := ts; m_TenantID := tenant; m_ServerID := server;
     m_Hostname := empty_str; m_CPUPct := cpu; m_MemPct := f0; m_DiskFreeGB := f0;
     m_NetSentBytes := 0; m_NetRecvBytes := 0; m_CPUCores := 0; m_MemTotalGB := f0;
     m_DiskTotalGB := f0; m_DiskReadOps := 0; m_DiskWriteOps := 0; m_DiskIOPS := f0;
     m_NetMBps := f0; m_ConcurrentUsers := 0; m_NetSentExternal := 0; m_NetRecvExternal := 0;
     m_NetSentInternal := 0; m_NetRecvInternal := 0 |}.

Definition LocalTenantID : string := "t_local".
Definition DefaultQueryLimit : Z := 100000.

(** [RequireTenant(id) != nil] *)
Definition RequireTenant_fails (id : string) : bool := is_empty (TrimSpace id).

Definition boundedLimit (limit : Z) : Z :=
  if (limit <? 1) || (DefaultQueryLimit <? limit) then DefaultQueryLimit else limit.
Definition queryLimit (limit : Z) : Z := boundedLimit limit.

Definition normalizeInsertTenant (id : string) : string :=
  if is_empty (TrimSpace id) then LocalTenantID else id.

Lemma boundedLimit_bounds (limit : Z) : 1 <= boundedLimit limit <= DefaultQueryLimit.
Proof.
  unfold boundedLimit. destruct (_ || _) eqn:E; bools; unfold DefaultQueryLimit in *; lia.
Qed.

Lemma boundedLimit_id (limit : Z) : 1 <= limit <= DefaultQueryLimit -> boundedLimit limit = limit.
Proof. intros H. unfold boundedLimit. case_match; [bools; lia|done]. Qed.

Lemma normalizeInsertTenant_nonempty (id : string) :
  RequireTenant_fails (normalizeInsertTenant id) = false.
Proof. unfold normalizeInsertTenant, RequireTenant_fails. case_match; done. Qed.
