(* ===== verification/Alerting.v ===== *)
(** * Alerting ([alerting/])

    [Rules] models [rules.go]; the rest models [alert.go], [evaluator.go],
    [json.go] and the fan-out of [notify.go].  An [Evaluator] keeps one state
    machine per (tenant, rule, server) key; [EvaluateOnce] feeds each machine
    the newest sample of its server.  The mutex of the code makes each
    [evaluateRule] an atomic step, so the state is passed explicitly; the
    ticker loop [Run] only calls [EvaluateOnce] and is not modelled. *)

From S2P Require Import GoBase Rows.
Open Scope list_scope.
Open Scope Z_scope.

(** ** Alerts ([alert.go]) *)

Definition SeverityInfo : string := "info".
Definition SeverityWarning : string := "warning".
Definition SeverityCritical : string := "critical".

Inductive State := StateOK | StatePending | StateFiring.
Definition state_text (s : State) : string :=
  match s with StateOK => "ok" | StatePending => "pending" | StateFiring => "firing" end.

Record Alert := {
  a_Rule : string;
  a_ServerID : string;
  a_TenantID : string;
  a_Metric : string;
  a_Severity : string;
  a_State : State;
  a_Value : float64;
  a_Threshold : float64;
  a_Message : string;
  a_FiredAt : Z;
  a_Resolved : bool
}.

Definition nul : string := bytes [0]%N.

Definition alertKey (rule tenantID serverID : string) : string :=
  let tenantID := if is_empty tenantID then LocalTenantID else tenantID in
  tenantID +:+ nul +:+ rule +:+ nul +:+ serverID.

Definition Title `{Unicode} (a : Alert) : string :=
  let verb := if a_Resolved a then "RESOLVED" else "FIRING" in
  let server := if is_empty (a_ServerID a) then "local" else a_ServerID a in
  "[" +:+ verb +:+ "] " +:+ ToUpper (a_Severity a) +:+ " on " +:+ server +:+ ": " +:+ a_Rule a.

(** ** Rules ([rules.go]) *)

Definition GreaterThan : string := ">".
Definition LessThan : string := "<".

Definition MetricCPUPct : string := "cpu_pct".
Definition MetricMemPct : string := "mem_pct".
Definition MetricDiskFreePct : string := "disk_free_pct".
Definition MetricDiskFreeGB : string := "disk_free_gb".
Definition MetricDiskIOPS : string := "disk_iops".
Definition MetricNetMBps : string := "net_mbps".
Definition MetricUsers : string := "concurrent_users".
Definition MetricAgentSilentSec : string := "agent_silent_seconds".

Record Rule := {
  r_Name : string;
  r_Metric : string;
  r_Comparison : string;
  r_Threshold : float64;
  r_For : string;
  r_Severity : string;
  r_Enabled : option bool
}.

Definition ForDuration (r : Rule) : Z :=
  if is_empty (r_For r) then 5 * minute
  else match ParseDuration (r_For r) with
       | None => 5 * minute
       | Some d => if d <? 0 then 5 * minute else d
       end.

Definition IsEnabled (r : Rule) : bool :=
  match r_Enabled r with None => true | Some b => b end.

Definition Breached (r : Rule) (value : float64) : bool :=
  if String.eqb (r_Comparison r) LessThan then flt value (r_Threshold r)
  else fgt value (r_Threshold r).

Inductive rule_error :=
| NeedsName
| UnknownMetric (rule metric : string)
| BadComparison (rule : string)
| InvalidDuration (rule dur : string).

Definition known_metrics : list string :=
  [MetricCPUPct; MetricMemPct; MetricDiskFreePct; MetricDiskFreeGB;
   MetricDiskIOPS; MetricNetMBps; MetricUsers; MetricAgentSilentSec].

Definition Validate (r : Rule) : result rule_error unit :=
  let? _ := guard (is_empty (r_Name r)) NeedsName in
  let? _ := guard (negb (existsb (String.eqb (r_Metric r)) known_metrics))
              (UnknownMetric (r_Name r) (r_Metric r)) in
  let? _ := guard (negb (String.eqb (r_Comparison r) GreaterThan) &&
                   negb (String.eqb (r_Comparison r) LessThan))
              (BadComparison (r_Name r)) in
  guard (negb (is_empty (r_For r)) &&
         match ParseDuration (r_For r) with None => true | Some _ => false end)
    (InvalidDuration (r_Name r) (r_For r)).

Definition mk_rule (name metric cmp : string) (threshold : Z) (for_ sev : string) : Rule :=
  {| r_Name := name; r_Metric := metric; r_Comparison := cmp; r_Threshold := f_of_Z threshold;
     r_For := for_; r_Severity := sev; r_Enabled := None |}.

Definition DefaultRules : list Rule :=
  [mk_rule "High CPU" MetricCPUPct GreaterThan 90 "5m" SeverityWarning;
   mk_rule "High Memory" MetricMemPct GreaterThan 90 "5m" SeverityWarning;
   mk_rule "Low Disk Space" MetricDiskFreePct LessThan 10 "5m" SeverityWarning;
   mk_rule "Critically Low Disk Space" MetricDiskFreePct LessThan 5 "1m" SeverityCritical;
   mk_rule "Agent Not Reporting" MetricAgentSilentSec GreaterThan 35 "1m" SeverityCritical].

Inductive load_error :=
| ReadFailed (path : string)
| ParseFailed (path : string)
| NoRules (path : string)
| InvalidRules (path : string) (e : rule_error).

Fixpoint validate_all (rules : list Rule) : result rule_error unit :=
  match rules with
  | [] => Ok tt
  | r :: rest => let? _ := Validate r in validate_all rest
  end.

(** [read] is the outcome of [os.ReadFile(path)] and [parse] that of
    [json.Unmarshal] on the bytes read. *)
Definition LoadRules (path : string) (read : option string) (parse : string -> option (list Rule))
  : result load_error (list Rule) :=
  if is_empty path then Ok DefaultRules
  else match read with
       | None => Err (ReadFailed path)
       | Some data =>
           match parse data with
           | None => Err (ParseFailed path)
           | Some rules =>
               if bool_decide (rules = []) then Err (NoRules path)
               else match validate_all rules with
                    | Err e => Err (InvalidRules path e)
                    | Ok _ => Ok rules
                    end
           end
       end.

(** ** The evaluator ([evaluator.go]) *)

Definition evalInterval : Z := 30 * second.
Definition lookback : Z := 15 * minute.

Record ruleState := {
  rs_state : State;
  rs_breachingSince : Z;
  rs_healthySince : Z;
  rs_lastAlert : Alert
}.

(** A notification sink ([notify.go]): its name and whether a send fails. *)
Record Notifier := { n_Name : string; n_Send : Alert -> option string }.

Definition LogNotifier : Notifier := {| n_Name := "log"; n_Send := fun _ => None |}.

(** What the evaluator reads of its [storage.Store]: the privileged
    all-tenants read, when the backend has it, and the tenant read. *)
Record alert_store := {
  q_all : option (Z -> Z -> result string (list MetricRow));
  q_tenant : Z -> string -> result string (list MetricRow)
}.

Record Evaluator := {
  e_store : alert_store;
  e_rules : list Rule;
  e_notifiers : list Notifier;
  e_interval : Z;
  e_states : gmap string ruleState;
  e_history : list Alert
}.

Definition New (store : alert_store) (rules : list Rule) (notifiers : list Notifier) : Evaluator :=
  {| e_store := store; e_rules := rules; e_notifiers := LogNotifier :: notifiers;
     e_interval := evalInterval; e_states := ∅; e_history := [] |}.

Definition SetInterval (d : Z) (e : Evaluator) : Evaluator :=
  if 0 <? d
  then {| e_store := e_store e; e_rules := e_rules e; e_notifiers := e_notifiers e;
          e_interval := d; e_states := e_states e; e_history := e_history e |}
  else e.

Definition buildAlert (rule : Rule) (serverID : string) (row : MetricRow) (value : float64)
  (now : Z) (resolved : bool) : Alert :=
  let m := r_Metric rule in
  let unit :=
    if String.eqb m MetricCPUPct || String.eqb m MetricMemPct || String.eqb m MetricDiskFreePct
    then "%"
    else if String.eqb m MetricDiskFreeGB then " GB"
    else if String.eqb m MetricAgentSilentSec then "s"
    else empty_str in
  let msg :=
    if resolved then m +:+ " recovered to " +:+ FormatF1 value +:+ unit
    else m +:+ " is " +:+ FormatF1 value +:+ unit +:+ " (threshold " +:+ r_Comparison rule +:+ " "
           +:+ FormatF1 (r_Threshold rule) +:+ unit +:+ ")" in
  {| a_Rule := r_Name rule; a_ServerID := serverID;
     a_TenantID := if is_empty (m_TenantID row) then LocalTenantID else m_TenantID row;
     a_Metric := m; a_Severity := r_Severity rule;
     a_State := if resolved then StateOK else StateFiring;
     a_Value := value; a_Threshold := r_Threshold rule; a_Message := msg;
     a_FiredAt := now; a_Resolved := resolved |}.

Definition extractMetric (name : string) (row : MetricRow) (now : Z) : option float64 :=
  if String.eqb name MetricCPUPct then Some (m_CPUPct row)
  else if String.eqb name MetricMemPct then Some (m_MemPct row)
  else if String.eqb name MetricDiskFreeGB then Some (m_DiskFreeGB row)
  else if String.eqb name MetricDiskFreePct then
    if fle (m_DiskTotalGB row) f0 then None
    else Some (fmul (fdiv (m_DiskFreeGB row) (m_DiskTotalGB row)) (f_of_Z 100))
  else if String.eqb name MetricDiskIOPS then Some (m_DiskIOPS row)
  else if String.eqb name MetricNetMBps then Some (m_NetMBps row)
  else if String.eqb name MetricUsers then Some (f_of_Z (m_ConcurrentUsers row))
  else if String.eqb name MetricAgentSilentSec then Some (Seconds (Sub now (m_Timestamp row)))
  else None.

(** [Alert{}]: its [State] is the empty text, which no code reads. *)
Definition zero_alert : Alert :=
  {| a_Rule := empty_str; a_ServerID := empty_str; a_TenantID := empty_str; a_Metric := empty_str;
     a_Severity := empty_str; a_State := StateOK; a_Value := f0; a_Threshold := f0;
     a_Message := empty_str; a_FiredAt := zero_time; a_Resolved := false |}.

(** The zero [ruleState] a first evaluation starts from. *)
Definition fresh_state : ruleState :=
  {| rs_state := StateOK; rs_breachingSince := zero_time; rs_healthySince := zero_time;
     rs_lastAlert := zero_alert |}.

(** The [switch] of [evaluateRule]: the next state of one machine and the
    alert to send, if any.  [mk resolved] is the alert that would be built. *)
Definition advance (forD : Z) (breached : bool) (now : Z) (mk : bool -> Alert) (st : ruleState)
  : ruleState * option Alert :=
  match breached, rs_state st with
  | true, StateOK =>
      ({| rs_state := StatePending; rs_breachingSince := now; rs_healthySince := zero_time;
          rs_lastAlert := rs_lastAlert st |}, None)
  | true, StatePending =>
      if forD <=? Sub now (rs_breachingSince st) then
        ({| rs_state := StateFiring; rs_breachingSince := rs_breachingSince st;
            rs_healthySince := rs_healthySince st; rs_lastAlert := mk false |},
         Some (mk false))
      else (st, None)
  | true, StateFiring =>
      ({| rs_state := StateFiring; rs_breachingSince := rs_breachingSince st;
          rs_healthySince := zero_time; rs_lastAlert := rs_lastAlert st |}, None)
  | false, StateOK => (st, None)
  | false, StatePending =>
      ({| rs_state := StateOK; rs_breachingSince := zero_time;
          rs_healthySince := rs_healthySince st; rs_lastAlert := rs_lastAlert st |}, None)
  | false, StateFiring =>
      let h := if IsZero (rs_healthySince st) then now else rs_healthySince st in
      if forD <=? Sub now h then
        ({| rs_state := StateOK; rs_breachingSince := zero_time; rs_healthySince := h;
            rs_lastAlert := mk true |}, Some (mk true))
      else
        ({| rs_state := StateFiring; rs_breachingSince := rs_breachingSince st;
            rs_healthySince := h; rs_lastAlert := rs_lastAlert st |}, None)
  end.

Definition max_history : nat := 500.

(** [e.history = append(e.history, a)], then only the last 500 are kept. *)
Definition push_history (h : list Alert) (a : Alert) : list Alert :=
  let h := h ++ [a] in
  if (max_history <? length h)%nat then last_n max_history h else h.

(** [fanOut]: every notifier is tried; the failures are only logged. *)
Definition fanOut (notifiers : list Notifier) (a : Alert) : list (string * Alert * option string) :=
  map (fun n => (n_Name n, a, n_Send n a)) notifiers.

Definition with_states (e : Evaluator) (states : gmap string ruleState) (h : list Alert) : Evaluator :=
  {| e_store := e_store e; e_rules := e_rules e; e_notifiers := e_notifiers e;
     e_interval := e_interval e; e_states := states; e_history := h |}.

(** The result is the evaluator and the sends that were attempted. *)
Definition evaluateRule (rule : Rule) (serverID : string) (row : MetricRow) (value : float64)
  (now : Z) (e : Evaluator) : Evaluator * list (string * Alert * option string) :=
  let key := alertKey (r_Name rule) (m_TenantID row) serverID in
  let st := default fresh_state (e_states e !! key) in
  let '(st', toSend) :=
    advance (ForDuration rule) (Breached rule value) now
      (buildAlert rule serverID row value now) st in
  let states := <[key := st']> (e_states e) in
  match toSend with
  | None => (with_states e states (e_history e), [])
  | Some a => (with_states e states (push_history (e_history e) a), fanOut (e_notifiers e) a)
  end.

(** The newest sample of each tenant and server. *)
Definition latest_key (row : MetricRow) : string := m_TenantID row +:+ nul +:+ m_ServerID row.
Definition keep_latest (latest : gmap string MetricRow) (row : MetricRow) : gmap string MetricRow :=
  match latest !! latest_key row with
  | Some cur => if After (m_Timestamp row) (m_Timestamp cur) then <[latest_key row := row]> latest else latest
  | None => <[latest_key row := row]> latest
  end.
Definition latest_rows (rows : list MetricRow) : gmap string MetricRow :=
  fold_left keep_latest rows ∅.

Definition sends : Type := list (string * Alert * option string).

(** One rule against one row: the body of the inner loop. *)
Definition evaluate_one (row : MetricRow) (now : Z) (acc : Evaluator * sends) (rule : Rule)
  : Evaluator * sends :=
  let '(e, out) := acc in
  if negb (IsEnabled rule) then (e, out)
  else match extractMetric (r_Metric rule) row now with
       | None => (e, out)
       | Some value =>
           let '(e', out') := evaluateRule rule (m_ServerID row) row value now e in
           (e', out ++ out')
       end.

Definition evaluate_row (rules : list Rule) (now : Z) (acc : Evaluator * sends) (row : MetricRow)
  : Evaluator * sends :=
  fold_left (evaluate_one row now) rules acc.

(** [fmt.Errorf("query metrics: %w", err)] *)
Definition wrap_query {A : Type} (r : result string A) : result string A :=
  match r with
  | Ok a => Ok a
  | Err e => Err ("query metrics: " +:+ e)
  end.

Definition EvaluateOnce `{MapRange} (now : Z) (e : Evaluator) : result string (Evaluator * sends) :=
  let? rows :=
    match q_all (e_store e) with
    | Some q => wrap_query (q (now - lookback) 0)
    | None => wrap_query (q_tenant (e_store e) (now - lookback) LocalTenantID)
    end in
  if bool_decide (rows = []) then Ok (e, [])
  else Ok (fold_left (evaluate_row (e_rules e) now) (map snd (range (latest_rows rows))) (e, [])).

Definition severityRank (s : string) : Z :=
  if String.eqb s SeverityCritical then 3 else if String.eqb s SeverityWarning then 2 else 1.

(** [less] of the [sort.Slice] in [Active]. *)
Definition alert_less (a b : Alert) : bool :=
  if negb (String.eqb (a_Severity a) (a_Severity b))
  then severityRank (a_Severity b) <? severityRank (a_Severity a)
  else After (a_FiredAt a) (a_FiredAt b).

Definition alert_le (a b : Alert) : Prop := alert_less b a = false.
#[export] Instance alert_le_dec (a b : Alert) : Decision (alert_le a b).
Proof. unfold alert_le. apply _. Defined.

Definition firing_alerts (states : list ruleState) : list Alert :=
  omap (fun st => match rs_state st with StateFiring => Some (rs_lastAlert st) | _ => None end) states.

(** The firing alerts, most severe first; alerts [less] does not separate
    come in an unspecified order (here that of [merge_sort]). *)
Definition Active `{MapRange} (e : Evaluator) : list Alert :=
  merge_sort alert_le (firing_alerts (map snd (range (e_states e)))).

Definition History (e : Evaluator) : list Alert := rev (e_history e).

(** ** JSON views ([json.go]) and tenant filtering ([server/alerts.go]) *)

Inductive json_value :=
| JString (s : string)
| JFloat (x : float64)
| JInt (z : Z)
| JBool (b : bool).

Definition alert_json `{Unicode} (a : Alert) : gmap string json_value :=
  list_to_map
    [("rule", JString (a_Rule a)); ("server_id", JString (a_ServerID a));
     ("tenant_id", JString (a_TenantID a)); ("metric", JString (a_Metric a));
     ("severity", JString (a_Severity a)); ("state", JString (state_text (a_State a)));
     ("value", JFloat (a_Value a)); ("threshold", JFloat (a_Threshold a));
     ("message", JString (a_Message a)); ("title", JString (Title a));
     ("fired_at", JInt (Unix (a_FiredAt a))); ("resolved", JBool (a_Resolved a))].

Definition alertsToJSON `{Unicode} (alerts : list Alert) : list (gmap string json_value) :=
  map alert_json alerts.
Definition ActiveJSON `{Unicode} `{MapRange} (e : Evaluator) := alertsToJSON (Active e).
Definition HistoryJSON `{Unicode} (e : Evaluator) := alertsToJSON (History e).

Definition filterByTenant (alerts : list (gmap string json_value)) (tenantID : string)
  : list (gmap string json_value) :=
  if is_empty tenantID then []
  else List.filter (fun a => match a !! "tenant_id" with
                             | Some (JString v) => String.eqb v tenantID
                             | _ => false
                             end) alerts.

(** ** Runs of the evaluator *)

(** One [evaluateRule] call. *)
Record call := { c_rule : Rule; c_row : MetricRow; c_value : float64; c_now : Z }.

Definition call_key (c : call) : string :=
  alertKey (r_Name (c_rule c)) (m_TenantID (c_row c)) (m_ServerID (c_row c)).
Definition call_breached (c : call) : bool := Breached (c_rule c) (c_value c).
Definition call_alert (c : call) : bool -> Alert :=
  buildAlert (c_rule c) (m_ServerID (c_row c)) (c_row c) (c_value c) (c_now c).

Definition do_call (acc : Evaluator * sends) (c : call) : Evaluator * sends :=
  let '(e', out') :=
    evaluateRule (c_rule c) (m_ServerID (c_row c)) (c_row c) (c_value c) (c_now c) acc.1 in
  (e', acc.2 ++ out').
Definition run_calls (acc : Evaluator * sends) (cs : list call) : Evaluator * sends :=
  fold_left do_call cs acc.

(** The machine of one key, run alone, with the alerts it emits. *)
Definition machine_step (acc : ruleState * list Alert) (c : call) : ruleState * list Alert :=
  let '(st', o) := advance (ForDuration (c_rule c)) (call_breached c) (c_now c) (call_alert c) acc.1 in
  (st', acc.2 ++ option_list o).
Definition calls_for (key : string) (cs : list call) : list call :=
  filter (fun c => call_key c = key) cs.
Definition machine (cs : list call) : ruleState * list Alert :=
  fold_left machine_step cs (fresh_state, []).

(** The calls one [EvaluateOnce] makes, in order. *)
Definition rule_call (now : Z) (row : MetricRow) (rule : Rule) : option call :=
  if IsEnabled rule
  then v ← extractMetric (r_Metric rule) row now;
       Some {| c_rule := rule; c_row := row; c_value := v; c_now := now |}
  else None.
Definition calls_of_row (rules : list Rule) (now : Z) (row : MetricRow) : list call :=
  omap (rule_call now row) rules.

(** *** Each key's state is that of its own machine *)

Section runs.
Implicit Types (e : Evaluator) (cs : list call) (out : sends).

Lemma calls_for_snoc (key : string) (cs : list call) (c : call) :
  calls_for key (cs ++ [c]) = calls_for key cs ++ (if decide (call_key c = key) then [c] else []).
Proof. unfold calls_for. rewrite filter_app, filter_cons. by case_decide. Qed.

Lemma machine_snoc (cs : list call) (c : call) :
  machine (cs ++ [c]) = machine_step (machine cs) c.
Proof. unfold machine. by rewrite fold_left_app. Qed.

Lemma run_calls_snoc (acc : Evaluator * sends) (cs : list call) (c : call) :
  run_calls acc (cs ++ [c]) = do_call (run_calls acc cs) c.
Proof. unfold run_calls. by rewrite fold_left_app. Qed.

Lemma do_call_notifiers (acc : Evaluator * sends) (c : call) :
  e_notifiers (do_call acc c).1 = e_notifiers acc.1.
Proof.
  unfold do_call, evaluateRule. destruct (advance _ _ _ _ _) as [st' [a|]]; done.
Qed.

Lemma run_calls_notifiers (acc : Evaluator * sends) (cs : list call) :
  e_notifiers (run_calls acc cs).1 = e_notifiers acc.1.
Proof.
  induction cs as [|c cs IH] using rev_ind; [done|].
  by rewrite run_calls_snoc, do_call_notifiers.
Qed.

Lemma do_call_state (acc : Evaluator * sends) (c : call) (key : string) :
  default fresh_state (e_states (do_call acc c).1 !! key) =
  if decide (call_key c = key)
  then (advance (ForDuration (c_rule c)) (call_breached c) (c_now c) (call_alert c)
          (default fresh_state (e_states acc.1 !! key))).1
  else default fresh_state (e_states acc.1 !! key).
Proof.
  unfold do_call, evaluateRule, call_breached, call_alert, call_key.
  set (k := alertKey _ _ _). destruct (advance _ _ _ _ _) as [st' o] eqn:E.
  destruct o as [a|]; simpl; destruct (decide (k = key)) as [<-|];
    rewrite ?lookup_insert_eq, ?lookup_insert_ne by done; rewrite ?E; done.
Qed.

Lemma run_calls_state (e : Evaluator) (out : sends) (cs : list call) (key : string) :
  e_states e = ∅ ->
  default fresh_state (e_states (run_calls (e, out) cs).1 !! key) = (machine (calls_for key cs)).1.
Proof.
  intros He. induction cs as [|c cs IH] using rev_ind.
  { simpl. by rewrite He. }
  rewrite run_calls_snoc, do_call_state, calls_for_snoc. case_decide as Hk.
  - rewrite machine_snoc. unfold machine_step. rewrite IH.
    by destruct (advance _ _ _ _ _) as [??] eqn:E.
  - by rewrite IH, app_nil_r.
Qed.

(** The alerts emitted by a run, in order. *)
Fixpoint emitted (acc : Evaluator * sends) (cs : list call) : list (string * Alert) :=
  match cs with
  | [] => []
  | c :: cs' =>
      let st := default fresh_state (e_states acc.1 !! call_key c) in
      let o := (advance (ForDuration (c_rule c)) (call_breached c) (c_now c) (call_alert c) st).2 in
      map (pair (call_key c)) (option_list o) ++ emitted (do_call acc c) cs'
  end.

Lemma emitted_snoc (cs : list call) : forall (acc : Evaluator * sends) (c : call),
  emitted acc (cs ++ [c]) = emitted acc cs ++ emitted (run_calls acc cs) [c].
Proof.
  induction cs as [|c0 cs IH]; intros acc c; [done|].
  simpl app. cbn [emitted]. rewrite IH, <- app_assoc. done.
Qed.

(** The alerts of one key are those of its machine. *)
Lemma emitted_machine (e : Evaluator) (out : sends) (cs : list call) (key : string) :
  e_states e = ∅ ->
  map snd (filter (fun p => p.1 = key) (emitted (e, out) cs)) = (machine (calls_for key cs)).2.
Proof.
  intros He. induction cs as [|c cs IH] using rev_ind; [done|].
  rewrite emitted_snoc, filter_app, map_app, IH, calls_for_snoc. cbn [emitted].
  rewrite app_nil_r. destruct (decide (call_key c = key)) as [<-|Hk].
  - rewrite run_calls_state, machine_snoc by done. unfold machine_step.
    destruct (advance _ _ _ _ _) as [st' [a|]]; simpl; [by rewrite filter_cons_True|done].
  - rewrite !app_nil_r. destruct (advance _ _ _ _ _) as [st' [a|]]; simpl;
      [rewrite filter_cons_False by done|]; by rewrite app_nil_r.
Qed.

Lemma push_history_last (h l : list Alert) (a : Alert) :
  h = last_n max_history l -> push_history h a = last_n max_history (l ++ [a]).
Proof.
  intros ->. unfold push_history. case_match eqn:E.
  - apply last_n_snoc. unfold max_history. lia.
  - apply Nat.ltb_ge in E. rewrite length_app, last_n_length in E. cbn [length] in E.
    rewrite (last_n_all max_history l) by lia.
    symmetry. apply last_n_all. rewrite length_app. cbn [length]. lia.
Qed.

Lemma run_calls_history (e : Evaluator) (out : sends) (cs : list call) :
  e_history e = [] ->
  e_history (run_calls (e, out) cs).1 = last_n max_history (map snd (emitted (e, out) cs)) /\
  (run_calls (e, out) cs).2 =
    out ++ flat_map (fun p => fanOut (e_notifiers e) p.2) (emitted (e, out) cs).
Proof.
  intros He. induction cs as [|c cs [IH1 IH2]] using rev_ind.
  { simpl. by rewrite He, app_nil_r. }
  rewrite run_calls_snoc, emitted_snoc, map_app, flat_map_app, app_assoc, <- IH2. cbn [emitted].
  unfold do_call, evaluateRule, call_breached, call_alert, call_key in *.
  pose proof (run_calls_notifiers (e, out) cs) as Hn. simpl in Hn.
  destruct (advance _ _ _ _ _) as [st' [a|]]; simpl; rewrite ?app_nil_r.
  - split; [by apply push_history_last|]. by rewrite Hn.
  - done.
Qed.
End runs.

(** *** Sustained breaches *)

(** [calls] ends with an unbroken run of samples whose breach flag is [b],
    the first of which was taken at [since]. *)
Definition run_since (b : bool) (calls : list call) (since : Z) : Prop :=
  exists before start rest,
    calls = before ++ start :: rest /\ c_now start = since /\
    Forall (fun c => call_breached c = b) (start :: rest).

Lemma run_since_snoc (b : bool) (cs : list call) (since : Z) (c : call) :
  run_since b cs since -> call_breached c = b -> run_since b (cs ++ [c]) since.
Proof.
  intros (bf & s & r & -> & Hs & Hf) Hc. exists bf, s, (r ++ [c]).
  rewrite <- app_assoc. split; [done|]. split; [done|].
  apply (Forall_app_2 _ (s :: r)); [done|by constructor].
Qed.

Lemma run_since_start (cs : list call) (c : call) :
  run_since (call_breached c) (cs ++ [c]) (c_now c).
Proof. exists cs, c, []. repeat constructor. Qed.

#[export] Hint Resolve run_since_snoc run_since_start : wmon.

(** What the timestamps of a machine's state mean for the samples it saw. *)
Definition clock_inv (cs : list call) (st : ruleState) : Prop :=
  match rs_state st with
  | StateOK => True
  | StatePending => run_since true cs (rs_breachingSince st) /\ rs_healthySince st = zero_time
  | StateFiring => rs_healthySince st = zero_time \/ run_since false cs (rs_healthySince st)
  end.

Definition clocks_set (cs : list call) : Prop := Forall (fun c => c_now c <> zero_time) cs.

Lemma IsZero_true (t : Z) : IsZero t = true -> t = zero_time.
Proof. unfold IsZero. intros. by bools. Qed.
Lemma IsZero_false (t : Z) : IsZero t = false -> t <> zero_time.
Proof. unfold IsZero. intros. by bools. Qed.

Lemma machine_clock_inv (cs : list call) : clock_inv cs (machine cs).1.
Proof.
  induction cs as [|c cs IH] using rev_ind; [done|].
  rewrite machine_snoc. unfold machine_step.
  destruct (machine cs) as [st out]. simpl fst in *.
  unfold clock_inv, advance in *.
  pose proof (run_since_start cs c) as Hstart.
  destruct (call_breached c) eqn:Eb, (rs_state st) eqn:Es; simpl in *.
  - done.
  - destruct (ForDuration _ <=? _); simpl; [by left; destruct IH|].
    rewrite Es. destruct IH. eauto with wmon.
  - by left.
  - by rewrite Es.
  - done.
  - destruct (IsZero (rs_healthySince st)) eqn:Ez; destruct (ForDuration _ <=? _); simpl;
      [done|by right|done|].
    apply IsZero_false in Ez. destruct IH as [|IH]; [done|]. right. eauto with wmon.
Qed.

(** The alert of one step was preceded by a sustained run. *)
Lemma machine_alert_sustained (cs : list call) (c : call) (st' : ruleState) (a : Alert) :
  advance (ForDuration (c_rule c)) (call_breached c) (c_now c) (call_alert c) (machine cs).1
    = (st', Some a) ->
  a = call_alert c (negb (call_breached c)) /\
  exists since, run_since (call_breached c) (cs ++ [c]) since /\
                ForDuration (c_rule c) <= Sub (c_now c) since.
Proof.
  intros Ha. pose proof (machine_clock_inv cs) as Hinv.
  destruct (machine cs) as [st out]. simpl fst in *.
  unfold clock_inv, advance in *. pose proof (run_since_start cs c) as Hstart.
  destruct (call_breached c) eqn:Eb, (rs_state st) eqn:Es; simplify_eq/=.
  - destruct (ForDuration _ <=? _) eqn:E; simplify_eq/=; bools. split; [done|].
    exists (rs_breachingSince st). destruct Hinv. eauto with wmon.
  - destruct (IsZero (rs_healthySince st)) eqn:Ez; destruct (ForDuration _ <=? _) eqn:E;
      simplify_eq/=; bools; (split; [done|]); eexists; (split; [|eassumption]); [done|].
    apply IsZero_false in Ez. destruct Hinv as [|Hinv]; [done|]. eauto with wmon.
Qed.

(** *** Alternation *)

Definition is_firing (s : State) : bool :=
  match s with StateFiring => true | _ => false end.

Lemma advance_flips (forD now : Z) (breached : bool) (mk : bool -> Alert) (st : ruleState) :
  let '(st', o) := advance forD breached now mk st in
  match o with
  | None => is_firing (rs_state st') = is_firing (rs_state st)
  | Some a => a = mk (is_firing (rs_state st)) /\
              is_firing (rs_state st') = negb (is_firing (rs_state st))
  end.
Proof.
  unfold advance.
  destruct breached, (rs_state st) eqn:E; try destruct (forD <=? _); simpl; rewrite ?E; done.
Qed.

Lemma odd_snoc {A : Type} (l : list A) (x : A) :
  Nat.odd (length (l ++ [x])) = negb (Nat.odd (length l)).
Proof. rewrite length_app, Nat.add_comm. simpl. by rewrite Nat.odd_succ, <- Nat.negb_odd. Qed.

Lemma machine_alternates (cs : list call) :
  is_firing (rs_state (machine cs).1) = Nat.odd (length (machine cs).2) /\
  forall i a, (machine cs).2 !! i = Some a -> a_Resolved a = Nat.odd i.
Proof.
  induction cs as [|c cs [IH1 IH2]] using rev_ind; [done|].
  rewrite machine_snoc. unfold machine_step.
  pose proof (advance_flips (ForDuration (c_rule c)) (c_now c) (call_breached c) (call_alert c)
                (machine cs).1) as Hf.
  destruct (advance _ _ _ _ _) as [st' [a|]]; simpl.
  - destruct Hf as [-> ->]. rewrite IH1, odd_snoc. split; [done|].
    intros i a [Hi|[Hi1 Hi2]]%lookup_app_Some; [by eauto|].
    apply list_lookup_singleton_Some in Hi2 as [Hi2 <-]. simpl.
    assert (i = length (machine cs).2) as -> by lia. done.
  - rewrite app_nil_r, Hf. done.
Qed.

(** *** Completeness: a sustained breach does fire *)

Lemma machine_breaching_clock (cs : list call) :
  rs_state (machine cs).1 = StatePending ->
  exists c0, c0 ∈ cs /\ rs_breachingSince (machine cs).1 = c_now c0.
Proof.
  intros Hp. pose proof (machine_clock_inv cs) as Hinv. unfold clock_inv in Hinv.
  rewrite Hp in Hinv. destruct Hinv as [(bf & s & r & -> & Hs & _) _].
  exists s. split; [|done]. set_solver.
Qed.

Lemma Sub_mono (t u v : Z) : u <= v -> Sub t v <= Sub t u.
Proof. unfold Sub. lia. Qed.

Definition at_least_pending (since : Z) (st : ruleState) : Prop :=
  rs_state st = StateFiring \/ (rs_state st = StatePending /\ rs_breachingSince st <= since).

Lemma at_least_pending_step (since : Z) (acc : ruleState * list Alert) (c : call) :
  call_breached c = true -> at_least_pending since acc.1 ->
  at_least_pending since (machine_step acc c).1 /\
  (ForDuration (c_rule c) <= Sub (c_now c) since ->
   rs_state (machine_step acc c).1 = StateFiring).
Proof.
  intros Hc [Hs|[Hs Hb]]; unfold machine_step, advance, at_least_pending; rewrite Hc, Hs; simpl.
  - auto.
  - destruct (ForDuration (c_rule c) <=? Sub (c_now c) (rs_breachingSince acc.1)) eqn:E; simpl.
    + auto.
    + split; [auto|]. intros Hd. bools. pose proof (Sub_mono (c_now c) _ _ Hb). lia.
Qed.

Lemma at_least_pending_run (since : Z) (cs : list call) : forall (acc : ruleState * list Alert),
  Forall (fun c => call_breached c = true) cs -> at_least_pending since acc.1 ->
  at_least_pending since (fold_left machine_step cs acc).1.
Proof.
  induction cs as [|c cs IH]; intros acc Hf Ha; [done|]. inversion Hf; subst.
  simpl. apply IH; [done|]. by apply at_least_pending_step.
Qed.

Lemma machine_app (cs ds : list call) : machine (cs ++ ds) = fold_left machine_step ds (machine cs).
Proof. unfold machine. by rewrite fold_left_app. Qed.

Lemma machine_start_pending (before : list call) (start : call) :
  call_breached start = true -> Forall (fun c => c_now c <= c_now start) before ->
  at_least_pending (c_now start) (machine (before ++ [start])).1.
Proof.
  intros Hb Ht. rewrite machine_snoc.
  destruct (rs_state (machine before).1) eqn:Es.
  - right. unfold machine_step, advance. rewrite Hb, Es. simpl. split; [done|lia].
  - apply at_least_pending_step; [done|]. right. split; [done|].
    destruct (machine_breaching_clock before Es) as (c0 & Hin & ->).
    rewrite Forall_forall in Ht. by apply Ht.
  - left. unfold machine_step, advance. by rewrite Hb, Es.
Qed.

(** *** One tick as a sequence of [evaluateRule] calls *)

Lemma evaluate_one_calls (row : MetricRow) (now : Z) (rules : list Rule) :
  forall acc, fold_left (evaluate_one row now) rules acc = run_calls acc (calls_of_row rules now row).
Proof.
  induction rules as [|r rules IH]; intros [e out]; [done|].
  cbn [fold_left calls_of_row omap list_omap]. rewrite IH.
  unfold evaluate_one at 1, rule_call. destruct (IsEnabled r); simpl; [|done].
  destruct (extractMetric _ _ _) as [v|]; simpl; [|done]. unfold do_call. simpl. done.
Qed.

Lemma run_calls_app (acc : Evaluator * sends) (cs ds : list call) :
  run_calls acc (cs ++ ds) = run_calls (run_calls acc cs) ds.
Proof. unfold run_calls. apply fold_left_app. Qed.

Lemma evaluate_rows_calls (rules : list Rule) (now : Z) (rows : list MetricRow) :
  forall acc, fold_left (evaluate_row rules now) rows acc
              = run_calls acc (flat_map (calls_of_row rules now) rows).
Proof.
  induction rows as [|row rows IH]; intros acc; [done|].
  simpl. rewrite run_calls_app, IH. f_equal. unfold evaluate_row. apply evaluate_one_calls.
Qed.

Lemma run_calls_state_gen (cs : list call) (key : string) : forall acc,
  default fresh_state (e_states (run_calls acc cs).1 !! key) =
  (fold_left machine_step (calls_for key cs) (default fresh_state (e_states acc.1 !! key), [])).1.
Proof.
  assert (Hfst : forall l s o o', (fold_left machine_step l (s, o)).1 = (fold_left machine_step l (s, o')).1).
  { induction l as [|c l IH]; intros s o o'; [done|]. simpl. unfold machine_step at 2 4. simpl.
    destruct (advance _ _ _ _ _). apply IH. }
  induction cs as [|c cs IH]; intros acc; [done|]. simpl. rewrite IH, do_call_state.
  unfold calls_for. rewrite filter_cons. case_decide as Hk; [|done].
  cbn [fold_left]. unfold machine_step at 3. simpl. destruct (advance _ _ _ _ _). apply Hfst.
Qed.

(** Names free of the separator keep the keys apart. *)
Fixpoint no_nul (s : string) : bool :=
  match s with
  | EmptyString => true
  | String c s' => negb (Ascii.eqb c (chr 0)) && no_nul s'
  end.

Lemma nul_split (a b x y : string) :
  no_nul a = true -> no_nul b = true -> a +:+ nul +:+ x = b +:+ nul +:+ y -> a = b /\ x = y.
Proof.
  revert b. induction a as [|c a IH]; intros [|d b] Ha Hb Heq; simpl in *; simplify_eq/=; bools;
    try done.
  by destruct (IH b) as [-> ->].
Qed.

Definition plain_row (r : MetricRow) : Prop :=
  is_empty (m_TenantID r) = false /\ no_nul (m_TenantID r) = true.

Lemma alertKey_row_inj (r1 r2 : string) (a b : MetricRow) :
  no_nul r1 = true -> no_nul r2 = true -> plain_row a -> plain_row b ->
  alertKey r1 (m_TenantID a) (m_ServerID a) = alertKey r2 (m_TenantID b) (m_ServerID b) ->
  r1 = r2 /\ latest_key a = latest_key b.
Proof.
  intros H1 H2 [Ha Ha'] [Hb Hb']. unfold alertKey, latest_key. rewrite Ha, Hb. intros Heq.
  apply nul_split in Heq as [Ht Heq]; [|done..].
  apply nul_split in Heq as [Hr Hs]; [|done..]. by rewrite Ht, Hs.
Qed.

Definition keyed (m : gmap string MetricRow) : Prop :=
  map_Forall (fun k r => latest_key r = k) m.

Lemma keep_latest_lookup (m : gmap string MetricRow) (row r : MetricRow) (k : string) :
  keyed m -> keep_latest m row !! k = Some r -> latest_key r = k /\ (r = row \/ m !! k = Some r).
Proof.
  intros Hm. unfold keep_latest.
  destruct (decide (latest_key row = k)) as [<-|Hk]; repeat case_match;
    rewrite ?lookup_insert_eq, ?lookup_insert_ne by done; intros; simplify_eq;
    (split; [done || by apply Hm|auto]).
Qed.

Lemma keep_latest_keyed (m : gmap string MetricRow) (row : MetricRow) :
  keyed m -> keyed (keep_latest m row).
Proof. intros Hm k r Hk. by apply keep_latest_lookup in Hk as [? _]. Qed.

Lemma latest_rows_snoc (rows : list MetricRow) (row : MetricRow) :
  latest_rows (rows ++ [row]) = keep_latest (latest_rows rows) row.
Proof. unfold latest_rows. by rewrite fold_left_app. Qed.

(** The map holds, per tenant and server, a sample of the input none is
    newer than. *)
Lemma latest_rows_spec (rows : list MetricRow) :
  keyed (latest_rows rows) /\
  (forall k r, latest_rows rows !! k = Some r -> r ∈ rows) /\
  (forall r, r ∈ rows -> exists r', latest_rows rows !! latest_key r = Some r' /\
                                    m_Timestamp r <= m_Timestamp r').
Proof.
  induction rows as [|row rows (Hk & Hin & Hmax)] using rev_ind.
  { split; [apply map_Forall_empty|]. split; set_solver. }
  rewrite latest_rows_snoc. split; [by apply keep_latest_keyed|]. split.
  - intros k r Hr. apply keep_latest_lookup in Hr as [_ [->|Hr]]; [set_solver| |done].
    apply Hin in Hr. set_solver.
  - intros r Hr. unfold keep_latest.
    destruct (latest_rows rows !! latest_key row) as [cur|] eqn:E.
    + destruct (After (m_Timestamp row) (m_Timestamp cur)) eqn:Ea; unfold After in Ea; bools;
        apply elem_of_app in Hr as [Hr|Hr%list_elem_of_singleton]; try subst r.
      * destruct (Hmax r Hr) as (r' & Hr' & Ht).
        destruct (decide (latest_key r = latest_key row)) as [He|];
          [rewrite He in *; rewrite lookup_insert_eq; simplify_eq; eexists; split; [done|lia]
          |rewrite lookup_insert_ne by done; eauto].
      * rewrite lookup_insert_eq. eauto with lia.
      * eauto.
      * eauto.
    + apply elem_of_app in Hr as [Hr|Hr%list_elem_of_singleton].
      * destruct (Hmax r Hr) as (r' & Hr' & Ht). rewrite lookup_insert_ne by congruence. eauto.
      * subst. rewrite lookup_insert_eq. eauto with lia.
Qed.

Lemma flat_map_unique {A B : Type} (f : A -> list B) (l l' : list A) :
  l ≡ₚ l' -> NoDup l ->
  (forall a b, a ∈ l -> b ∈ l -> f a <> [] -> f b <> [] -> a = b) ->
  flat_map f l = flat_map f l'.
Proof.
  induction 1 as [|x l l' Hp IH|x y l|l1 l2 l3 H12 IH12 H23 IH23]; intros Hnd Hu; simpl.
  - done.
  - apply NoDup_cons in Hnd as [_ Hnd]. rewrite IH; [done..|]. set_solver.
  - apply NoDup_cons in Hnd as [Hyx _]. destruct (f y) as [|b bs] eqn:Ey; [done|].
    destruct (f x) as [|c cs] eqn:Ex; [done|]. exfalso.
    apply Hyx. rewrite (Hu y x); [|set_solver..|congruence|congruence]. set_solver.
  - rewrite IH12 by done. apply IH23.
    + by rewrite <- H12.
    + intros a b Ha Hb. apply Hu; by rewrite H12.
Qed.

Lemma calls_for_flat_map {A : Type} (key : string) (g : A -> list call) (l : list A) :
  calls_for key (flat_map g l) = flat_map (fun a => calls_for key (g a)) l.
Proof.
  induction l as [|a l IH]; [done|]. simpl. rewrite <- IH. unfold calls_for. apply filter_app.
Qed.

Lemma calls_of_row_key (rules : list Rule) (now : Z) (row : MetricRow) (key : string) :
  calls_for key (calls_of_row rules now row) <> [] ->
  exists rule, rule ∈ rules /\ key = alertKey (r_Name rule) (m_TenantID row) (m_ServerID row).
Proof.
  intros Hne. destruct (calls_for key _) as [|c cs] eqn:E; [done|].
  assert (Hc : c ∈ calls_for key (calls_of_row rules now row)) by (rewrite E; set_solver).
  unfold calls_for in Hc. apply list_elem_of_filter in Hc as [<- Hc].
  apply list_elem_of_omap in Hc as (rule & Hin & Hr). exists rule. split; [done|].
  unfold rule_call in Hr. destruct (IsEnabled rule); [|done].
  destruct (extractMetric _ _ _); simplify_eq/=. done.
Qed.

Lemma keyed_values (m : gmap string MetricRow) (l : list (string * MetricRow)) :
  keyed m -> l ≡ₚ map_to_list m -> map latest_key (map snd l) ≡ₚ (map_to_list m).*1.
Proof.
  intros Hk Hp. rewrite Hp, map_map. apply Permutation_refl'. apply map_ext_in.
  intros [k r] Hin. apply list_elem_of_In, elem_of_map_to_list in Hin. by apply Hk in Hin.
Qed.

Lemma keyed_NoDup (m : gmap string MetricRow) (l : list (string * MetricRow)) :
  keyed m -> l ≡ₚ map_to_list m -> NoDup (map latest_key (map snd l)).
Proof. intros Hk Hp. rewrite keyed_values by done. apply NoDup_fst_map_to_list. Qed.

Lemma run_calls_is_Some (cs : list call) (key : string) : forall acc,
  is_Some (e_states (run_calls acc cs).1 !! key) <->
  is_Some (e_states acc.1 !! key) \/ calls_for key cs <> [].
Proof.
  induction cs as [|c cs IH]; intros acc; simpl; [intuition|].
  rewrite IH. unfold do_call, evaluateRule, calls_for. rewrite filter_cons.
  change (alertKey _ _ _) with (call_key c).
  destruct (advance _ _ _ _ _) as [st' [a|]]; simpl; case_decide as Hk; subst;
    rewrite ?lookup_insert_eq, ?lookup_insert_ne by done; clear IH; naive_solver.
Qed.

Lemma run_calls_same_states (acc : Evaluator * sends) (cs ds : list call) :
  (forall key, calls_for key cs = calls_for key ds) ->
  e_states (run_calls acc cs).1 = e_states (run_calls acc ds).1.
Proof.
  intros Hk. apply map_eq. intros key.
  pose proof (run_calls_state_gen cs key acc) as H1.
  pose proof (run_calls_state_gen ds key acc) as H2.
  pose proof (run_calls_is_Some cs key acc) as S1.
  pose proof (run_calls_is_Some ds key acc) as S2.
  rewrite Hk in H1, S1. rewrite <- H2 in H1. rewrite <- S2 in S1. clear H2 S2.
  destruct (e_states (run_calls acc cs).1 !! key) as [s|],
           (e_states (run_calls acc ds).1 !! key) as [s'|]; simpl in *; subst; try done.
  - by destruct (proj1 S1 ltac:(eauto)).
  - by destruct (proj2 S1 ltac:(eauto)).
Qed.

Definition fetch (now : Z) (e : Evaluator) : result string (list MetricRow) :=
  match q_all (e_store e) with
  | Some q => wrap_query (q (now - lookback) 0)
  | None => wrap_query (q_tenant (e_store e) (now - lookback) LocalTenantID)
  end.

Lemma EvaluateOnce_calls `{MapRange} (now : Z) (e e' : Evaluator) (out : sends) :
  EvaluateOnce now e = Ok (e', out) ->
  exists rows, fetch now e = Ok rows /\
    (e', out) = run_calls (e, [])
      (flat_map (calls_of_row (e_rules e) now) (map snd (range (latest_rows rows)))).
Proof.
  unfold EvaluateOnce. fold (fetch now e). destruct (fetch now e) as [rows|]; [|done]. simpl.
  intros He. exists rows. split; [done|]. case_bool_decide as Hr; simplify_eq/=.
  - unfold latest_rows. simpl.
    assert (range (∅ : gmap string MetricRow) = []) as ->; [|done].
    apply Permutation_nil. symmetry. rewrite range_perm. by rewrite map_to_list_empty.
  - by rewrite evaluate_rows_calls in He.
Qed.

Lemma alert_less_rank (a b : Alert) :
  alert_le a b -> severityRank (a_Severity b) <= severityRank (a_Severity a).
Proof.
  unfold alert_le, alert_less. destruct (String.eqb _ _) eqn:E; simpl; intros; bools.
  - by rewrite E.
  - done.
Qed.

#[export] Instance alert_le_total : Total alert_le.
Proof.
  intros a b. unfold alert_le, alert_less, After. rewrite (String.eqb_sym (a_Severity b)).
  destruct (String.eqb _ _); simpl; rewrite !Z.ltb_ge; lia.
Qed.

Lemma validate_all_ok (rules : list Rule) :
  validate_all rules = Ok tt <-> Forall (fun r => Validate r = Ok tt) rules.
Proof.
  induction rules as [|r rules IH]; simpl; [by split|].
  rewrite Forall_cons, <- IH. destruct (Validate r) as [[]|]; simpl; naive_solver.
Qed.

(** ** Properties *)

Definition new_run (store : alert_store) (rules : list Rule) (ns : list Notifier) (cs : list call)
  : Evaluator * sends := run_calls (New store rules ns, []) cs.

(** Sample data for the witnesses: one CPU rule and one server. *)
Definition cpu_rule : Rule := mk_rule "High CPU" MetricCPUPct GreaterThan 90 "1m" SeverityWarning.
Definition cpu_call (t cpu : Z) : call :=
  {| c_rule := cpu_rule; c_row := metric_at (t * second) "t_a" "web-1" (f_of_Z cpu);
     c_value := f_of_Z cpu; c_now := t * second |}.
Definition failing_notifier : Notifier := {| n_Name := "smtp"; n_Send := fun _ => Some "refused" |}.
Definition row_store (rows : list MetricRow) : alert_store :=
  {| q_all := Some (fun _ _ => Ok rows); q_tenant := fun _ _ => Err "unused" |}.

(** C33. An alert is sent only after a sustained condition: when a call of
    [evaluateRule] on an evaluator reached from [New] sends an alert, the
    samples of that tenant, rule and server end with an unbroken run of
    breached (for FIRING) or healthy (for RESOLVED) samples whose first one is
    at least [ForDuration] older than the current one. *)
Theorem alert_only_when_sustained store rules ns cs c n a err :
  (n, a, err) ∈ (evaluateRule (c_rule c) (m_ServerID (c_row c)) (c_row c) (c_value c) (c_now c)
                   (new_run store rules ns cs).1).2 ->
  a_Resolved a = negb (Breached (c_rule c) (c_value c)) /\
  exists since, run_since (call_breached c) (calls_for (call_key c) cs ++ [c]) since /\
                ForDuration (c_rule c) <= Sub (c_now c) since.
Proof.
  unfold evaluateRule. fold (call_breached c) (call_alert c) (call_key c).
  unfold new_run. rewrite run_calls_state by done.
  destruct (advance _ _ _ _ _) as [st' [a'|]] eqn:E; simpl; [|set_solver].
  apply machine_alert_sustained in E as [-> Hs]. fold (call_breached c).
  intros Hin. split; [|done].
  unfold fanOut in Hin. apply list_elem_of_fmap in Hin as (x & Hx & _). by simplify_eq/=.
Qed.

Lemma alert_only_when_sustained_witness :
  exists since, run_since true [cpu_call 100 95; cpu_call 160 96] since /\
                1 * minute <= Sub (160 * second) since.
Proof.
  apply (alert_only_when_sustained (row_store []) [cpu_rule] [failing_notifier]
           [cpu_call 100 95] (cpu_call 160 96) "log" (call_alert (cpu_call 160 96) false) None).
  vm_compute. left.
Defined.

(** A sustained breach does fire: when the last samples of a machine's key
    are all breached, start no earlier than any sample before them, and the
    newest is at least [ForDuration] younger than the first, the machine is
    firing after it. *)
Lemma sustained_breach_fires store rules ns cs before start rest c :
  calls_for (call_key c) (cs ++ [c]) = before ++ start :: rest ++ [c] ->
  Forall (fun d => call_breached d = true) (start :: rest ++ [c]) ->
  Forall (fun d => c_now d <= c_now start) before ->
  ForDuration (c_rule c) <= Sub (c_now c) (c_now start) ->
  rs_state (default fresh_state
              (e_states (new_run store rules ns (cs ++ [c])).1 !! call_key c)) = StateFiring.
Proof.
  intros Hcs Hb Ht Hd. unfold new_run. rewrite run_calls_state, Hcs by done.
  replace (before ++ start :: rest ++ [c]) with ((before ++ [start]) ++ rest ++ [c])
    by (by rewrite <- app_assoc).
  rewrite machine_app, fold_left_app. simpl.
  apply Forall_cons in Hb as [Hs [Hr [Hc _]%Forall_cons]%Forall_app].
  eapply at_least_pending_step; [done| |done].
  apply at_least_pending_run; [done|]. by apply machine_start_pending.
Qed.

Lemma sustained_breach_fires_witness :
  rs_state (default fresh_state
    (e_states (new_run (row_store []) [cpu_rule] []
                 ([cpu_call 50 10; cpu_call 100 95] ++ [cpu_call 160 96])).1
       !! call_key (cpu_call 160 96))) = StateFiring.
Proof.
  apply (sustained_breach_fires (row_store []) [cpu_rule] [] [cpu_call 50 10; cpu_call 100 95]
           [cpu_call 50 10] (cpu_call 100 95) [] (cpu_call 160 96)).
  - vm_compute. reflexivity.
  - repeat constructor.
  - repeat constructor. vm_compute. discriminate.
  - vm_compute. discriminate.
Defined.

(** The alerts of one tenant, rule and server alternate, starting with a
    FIRING one, and the machine is in state firing exactly when the last one
    sent was FIRING. *)
Lemma alerts_alternate store rules ns cs key :
  let alerts := map snd (filter (fun p => p.1 = key) (emitted (New store rules ns, []) cs)) in
  (forall i a, alerts !! i = Some a -> a_Resolved a = Nat.odd i) /\
  is_firing (rs_state (default fresh_state (e_states (new_run store rules ns cs).1 !! key)))
    = Nat.odd (length alerts).
Proof.
  cbv zeta. unfold new_run. rewrite emitted_machine, run_calls_state by done.
  pose proof (machine_alternates (calls_for key cs)) as [H1 H2]. by split.
Qed.

(** Every alert is delivered to every notifier, the log first, whether or
    not other sends fail, and [History] is the last 500 alerts, newest first. *)
Lemma history_and_fanout store rules ns cs :
  let alerts := map snd (emitted (New store rules ns, []) cs) in
  (new_run store rules ns cs).2 =
    flat_map (fun a => map (fun n => (n_Name n, a, n_Send n a)) (LogNotifier :: ns)) alerts /\
  History (new_run store rules ns cs).1 = rev (last_n 500 alerts).
Proof.
  destruct (run_calls_history (New store rules ns) [] cs eq_refl) as [H1 H2].
  cbv zeta. unfold new_run, History. split.
  - etransitivity; [exact H2|]. rewrite flat_map_concat_map, (flat_map_concat_map _ (map snd _)).
    by rewrite map_map.
  - f_equal. exact H1.
Qed.

(** One tick evaluates every enabled rule exactly once per tenant and
    server, on a sample of the window none of that server's is newer than. *)
Lemma tick_evaluates_newest_samples `{MapRange} now e e' out :
  EvaluateOnce now e = Ok (e', out) ->
  exists rows picked, fetch now e = Ok rows /\
    (e', out) = run_calls (e, []) (flat_map (calls_of_row (e_rules e) now) picked) /\
    NoDup (map latest_key picked) /\
    Forall (fun p => p ∈ rows) picked /\
    Forall (fun r => exists p, p ∈ picked /\ latest_key p = latest_key r /\
                               m_Timestamp r <= m_Timestamp p) rows.
Proof.
  intros (rows & Hf & He)%EvaluateOnce_calls.
  destruct (latest_rows_spec rows) as (Hk & Hin & Hmax).
  exists rows, (map snd (range (latest_rows rows))).
  split; [done|]. split; [done|]. split; [apply (keyed_NoDup _ _ Hk), range_perm|].
  assert (Helem : forall p, p ∈ map snd (range (latest_rows rows)) <->
                            exists k, latest_rows rows !! k = Some p).
  { intros p. setoid_rewrite list_elem_of_fmap. setoid_rewrite range_perm.
    setoid_rewrite <- elem_of_map_to_list. split; [intros ([k q] & -> & ?); eauto|].
    intros [k ?]. by exists (k, p). }
  rewrite !Forall_forall. split.
  - intros p (k & Hp)%Helem. eauto.
  - intros r (p & Hp & Ht)%Hmax. exists p. rewrite Helem.
    split; [eauto|]. by split; [apply Hk in Hp|].
Qed.

Lemma tick_evaluates_newest_samples_witness :
  exists rows picked : list MetricRow,
    fetch second (New (row_store [metric_at 1 "t_a" "s" f0; metric_at 2 "t_a" "s" f0]) [cpu_rule] [])
      = Ok rows /\
    Forall (fun r => exists p, p ∈ picked /\ latest_key p = latest_key r /\
                               m_Timestamp r <= m_Timestamp p) rows.
Proof.
  set (e := New (row_store [metric_at 1 "t_a" "s" f0; metric_at 2 "t_a" "s" f0]) [cpu_rule] []).
  destruct (@EvaluateOnce canonical_range second e) as [[e' out]|err] eqn:E;
    [|vm_compute in E; discriminate].
  destruct (@tick_evaluates_newest_samples canonical_range second e e' out E)
    as (rows & picked & Hf & _ & _ & _ & Hn).
  exists rows, picked. split; assumption.
Defined.

(** The order in which a tick visits the servers (a Go map iteration) does
    not matter: for rule names and tenants free of the separator byte and
    non-empty tenants, any two orders leave every machine in the same state. *)
Lemma tick_order_irrelevant (R1 R2 : MapRange) now e e1 out1 e2 out2 rows :
  fetch now e = Ok rows ->
  Forall (fun r => no_nul (r_Name r) = true) (e_rules e) ->
  Forall plain_row rows ->
  @EvaluateOnce R1 now e = Ok (e1, out1) -> @EvaluateOnce R2 now e = Ok (e2, out2) ->
  e_states e1 = e_states e2.
Proof.
  intros Hf Hnul Hplain H1 H2. rewrite Forall_forall in Hnul. rewrite Forall_forall in Hplain.
  apply EvaluateOnce_calls in H1 as (? & Hf1 & H1). apply EvaluateOnce_calls in H2 as (? & Hf2 & H2).
  rewrite Hf in Hf1, Hf2. injection Hf1 as <-. injection Hf2 as <-. destruct (latest_rows_spec rows) as (Hk & Hin & _).
  apply (f_equal fst) in H1, H2. simpl in H1, H2. rewrite H1, H2.
  apply run_calls_same_states. intros key. rewrite !calls_for_flat_map.
  apply flat_map_unique.
  - apply Permutation_map. etrans; [apply range_perm|symmetry; apply range_perm].
  - exact (NoDup_fmap_1 latest_key _ (keyed_NoDup _ _ Hk (range_perm _))).
  - assert (Hrow : forall x, x ∈ map snd (@range R1 _ (latest_rows rows)) ->
                             latest_rows rows !! latest_key x = Some x).
    { intros x ([k x'] & -> & Hx)%list_elem_of_fmap. rewrite range_perm in Hx.
      apply elem_of_map_to_list in Hx. simpl. by rewrite (Hk _ _ Hx). }
    intros a b Ha%Hrow Hb%Hrow (ra & Hra & ->)%calls_of_row_key (rb & Hrb & He)%calls_of_row_key.
    apply alertKey_row_inj in He as [_ He]; eauto. by rewrite He, Hb in Ha; simplify_eq.
Qed.

(** The entries in the opposite order. *)
Definition reversed_range : MapRange :=
  {| range := fun V m => rev (map_to_list m);
     range_perm := fun V m => symmetry (Permutation_rev (map_to_list m)) |}.

Lemma tick_order_irrelevant_witness :
  match @EvaluateOnce canonical_range second
          (New (row_store [metric_at 1 "t_a" "s" f0; metric_at 2 "t_b" "s" f0]) [cpu_rule] []),
        @EvaluateOnce reversed_range second
          (New (row_store [metric_at 1 "t_a" "s" f0; metric_at 2 "t_b" "s" f0]) [cpu_rule] []) with
  | Ok (e1, _), Ok (e2, _) => e_states e1 = e_states e2
  | _, _ => False
  end.
Proof.
  set (e := New (row_store [metric_at 1 "t_a" "s" f0; metric_at 2 "t_b" "s" f0]) [cpu_rule] []).
  destruct (@EvaluateOnce canonical_range second e) as [[e1 o1]|] eqn:E1;
    [|vm_compute in E1; discriminate].
  destruct (@EvaluateOnce reversed_range second e) as [[e2 o2]|] eqn:E2;
    [|vm_compute in E2; discriminate].
  apply (tick_order_irrelevant canonical_range reversed_range second e e1 o1 e2 o2
           [metric_at 1 "t_a" "s" f0; metric_at 2 "t_b" "s" f0]); try assumption.
  - reflexivity.
  - repeat constructor.
  - repeat constructor.
Defined.

(** The alerts the dashboard shows as active are exactly the last alerts of
    the machines in state firing, the most severe first. *)
Lemma active_alerts_spec `{MapRange} e :
  (forall a, a ∈ Active e <->
     exists key st, e_states e !! key = Some st /\ rs_state st = StateFiring /\
                    rs_lastAlert st = a) /\
  StronglySorted (fun a b => severityRank (a_Severity b) <= severityRank (a_Severity a)) (Active e).
Proof.
  split.
  - intros a. unfold Active. rewrite (merge_sort_Permutation alert_le). unfold firing_alerts.
    rewrite list_elem_of_omap. setoid_rewrite list_elem_of_fmap. setoid_rewrite range_perm. split.
    + intros (st & ([k ?] & -> & Hk%elem_of_map_to_list) & Hst). simpl in *.
      exists k. eexists. split; [done|]. destruct (rs_state _); by simplify_eq.
    + intros (k & st & Hk & Hs & Ha). exists st. rewrite Hs, Ha. split; [|done].
      exists (k, st). by rewrite elem_of_map_to_list.
  - apply Sorted_StronglySorted; [intros ???; lia|].
    assert (Hs : Sorted alert_le (Active e)) by apply (Sorted_merge_sort alert_le).
    induction Hs as [|a l Hs IH Hhd]; constructor; [done|].
    inversion Hhd; subst; constructor. by apply alert_less_rank.
Qed.

(** Tenant filtering: what a tenant sees of the alert feed is exactly the
    JSON of its own alerts, in order; without a tenant it sees nothing. *)
Lemma filterByTenant_spec `{Unicode} alerts tenantID :
  filterByTenant (alertsToJSON alerts) tenantID =
  if is_empty tenantID then []
  else alertsToJSON (filter (fun a => a_TenantID a = tenantID) alerts).
Proof.
  unfold filterByTenant. destruct (is_empty tenantID); [done|].
  induction alerts as [|a alerts IH]; [done|]. simpl. rewrite IH, filter_cons.
  assert (alert_json a !! "tenant_id" = Some (JString (a_TenantID a))) as -> by done.
  destruct (String.eqb_spec (a_TenantID a) tenantID); case_decide; done.
Qed.

(** Loading rules never yields a rule set the evaluator cannot run: the
    result is non-empty and every rule passes [Validate], the built-in set
    included. *)
Lemma LoadRules_valid path read parse rules :
  LoadRules path read parse = Ok rules ->
  rules <> [] /\ Forall (fun r => Validate r = Ok tt) rules.
Proof.
  unfold LoadRules. destruct (is_empty path).
  - intros [= <-]. split; [done|]. apply validate_all_ok. by vm_compute.
  - destruct read as [data|]; [|done]. destruct (parse data) as [rs|]; [|done].
    case_bool_decide; [done|]. destruct (validate_all rs) as [[]|] eqn:E; [|done].
    intros [= <-]. split; [done|]. by apply validate_all_ok.
Qed.

Lemma LoadRules_valid_witness :
  Forall (fun r => Validate r = Ok tt) [cpu_rule].
Proof.
  apply (LoadRules_valid "alerts.json" (Some "[..]") (fun _ => Some [cpu_rule])).
  reflexivity.
Defined.
