(* ===== verification/Db.v ===== *)
(** * Databases, transactions and errors

    Go errors, and the state-and-fault monad in which the storage code is
    written.  A database is a state [S]; every statement consults a list of
    faults, so a theorem quantified over that list covers every way the
    connection can fail:
    - [Fail e]: the statement had no effect and returned the error [e];
    - [Lost e]: the statement took effect but its reply was lost.

    A transaction ([transaction]) is one atomic step, as serialised by the
    single SQLite connection and by the row locks the Postgres code takes. *)

From S2P Require Export Rows.
Open Scope list_scope.
Open Scope Z_scope.

(** ** Errors *)

(** A driver error: its text and, on Postgres, its SQLSTATE. *)
Record dberr := { err_msg : string; err_code : string }.

(** [ERetry] is the agent's [retryableError], with its delay. *)
Inductive error :=
| EMsg (s : string)
| EDb (e : dberr)
| EWrap (s : string) (e : error)
| ERetry (after : Z) (e : error).

#[export] Instance dberr_eq_dec : EqDecision dberr.
Proof. solve_decision. Defined.
#[export] Instance error_eq_dec : EqDecision error.
Proof. solve_decision. Defined.

(** [errors.Is]: the sentinels are distinguished by their texts. *)
Fixpoint Is (e target : error) : bool :=
  bool_decide (e = target) ||
  match e with
  | EWrap _ e' | ERetry _ e' => Is e' target
  | _ => false
  end.

(** [sql.ErrNoRows] / [pgx.ErrNoRows] *)
Definition ErrNoRows : error := EMsg "no rows in result set".

(** The driver error inside, as [errors.As] finds it. *)
Fixpoint as_dberr (e : error) : option dberr :=
  match e with
  | EMsg _ => None
  | EDb d => Some d
  | EWrap _ e' | ERetry _ e' => as_dberr e'
  end.

(** ** The monad *)

Inductive fault :=
| Fail_ (e : dberr)
| Lost (e : dberr).

Definition faults : Type := list (option fault).
Definition M (S A : Type) : Type := S -> faults -> result error A * S * faults.

Section monad.
Context {S A B : Type}.

Definition ret (a : A) : M S A := fun s fs => (Ok a, s, fs).
Definition fail (e : error) : M S A := fun s fs => (Err e, s, fs).
Definition mbind (m : M S A) (k : A -> M S B) : M S B :=
  fun s fs =>
    match m s fs with
    | (Ok a, s', fs') => k a s' fs'
    | (Err e, s', fs') => (Err e, s', fs')
    end.
(** The [(value, err)] pair of a call whose error the code inspects. *)
Definition attempt (m : M S A) : M S (result error A) :=
  fun s fs => match m s fs with (r, s', fs') => (Ok r, s', fs') end.
Definition lift (r : result error A) : M S A :=
  fun s fs => (r, s, fs).

(** One statement.  [f] is its effect: a result and a new state, or an error
    raised by the database itself (a violated constraint). *)
Definition statement (f : S -> result error (A * S)) : M S A :=
  fun s fs =>
    match fs with
    | Some (Fail_ e) :: fs' => (Err (EDb e), s, fs')
    | Some (Lost e) :: fs' =>
        match f s with
        | Ok (_, s') => (Err (EDb e), s', fs')
        | Err e' => (Err e', s, fs')
        end
    | None :: fs' =>
        match f s with Ok (a, s') => (Ok a, s', fs') | Err e => (Err e, s, fs') end
    | [] =>
        match f s with Ok (a, s') => (Ok a, s', []) | Err e => (Err e, s, []) end
    end.
Definition exec (f : S -> A * S) : M S A := statement (fun s => Ok (f s)).
Definition query (f : S -> A) : M S A := statement (fun s => Ok (f s, s)).
(** [QueryRow(...).Scan(...)]: no row is [ErrNoRows]. *)
Definition query_row (f : S -> option A) : M S A :=
  statement (fun s => match f s with Some a => Ok (a, s) | None => Err ErrNoRows end).
(** State changes that cannot fail. *)
Definition modify (f : S -> S) : M S unit := fun s fs => (Ok tt, f s, fs).
(** Read a field of the state in memory. *)
Definition inspect (f : S -> M S A) : M S A := fun s => f s s.
End monad.

(** Run [m] on a part of the state. *)
Definition zoom {S T A : Type} (get : S -> T) (put : T -> S -> S) (m : M T A) : M S A :=
  fun s fs => let '(r, t, fs') := m (get s) fs in (r, put t s, fs').

Definition whenM {S : Type} (c : bool) (m : M S unit) : M S unit := if c then m else ret tt.

Notation "'let*' x ':=' m 'in' k" := (mbind m (fun x => k))
  (at level 10, x pattern, m at level 100, k at level 200) : wmon_scope.

(** [begin]; body; [commit], with [defer tx.rollback]: an error of the body
    or of the commit undoes every statement, except that a commit whose reply
    is lost stays. *)
Definition transaction {S A : Type} (body : M S A) : M S A :=
  fun s fs =>
    match statement (fun s => Ok (tt, s)) s fs with
    | (Err e, s', fs') => (Err e, s', fs')
    | (Ok _, _, fs1) =>
        match body s fs1 with
        | (Err e, _, fs2) => (Err e, s, fs2)
        | (Ok a, s', fs2) =>
            match fs2 with
            | Some (Fail_ e) :: fs3 => (Err (EDb e), s, fs3)
            | Some (Lost e) :: fs3 => (Err (EDb e), s', fs3)
            | None :: fs3 => (Ok a, s', fs3)
            | [] => (Ok a, s', [])
            end
        end
    end.

(** The state and the result of a computation. *)
Definition run_state {S A : Type} (m : M S A) (s : S) (fs : faults) : S := (m s fs).1.2.
Definition run_result {S A : Type} (m : M S A) (s : S) (fs : faults) : result error A := (m s fs).1.1.

(** ** Lemmas *)

Section laws.
Context {S A B : Type}.
Implicit Types (s : S) (fs : faults) (e : error).

(** A property of states every execution preserves. *)
Definition preserves (P : S -> Prop) (m : M S A) : Prop :=
  forall s fs, P s -> P (run_state m s fs).

(** Hoare triple for every outcome that returns a value; the state of a
    failed computation satisfies [E]. *)
Definition triple (P : S -> Prop) (m : M S A) (Q : A -> S -> Prop) (E : S -> Prop) : Prop :=
  forall s fs, P s ->
    match m s fs with
    | (Ok a, s', _) => Q a s'
    | (Err _, s', _) => E s'
    end.

(** Every returned value satisfies [Q] and every state [R s], where [s] is
    the state before. *)
Lemma statement_inv (f : S -> result error (A * S)) s fs r s' fs' :
  statement f s fs = (r, s', fs') ->
  (exists e, r = Err e) /\ s' = s \/
  exists a, f s = Ok (a, s') /\ (r = Ok a \/ exists e, r = Err e).
Proof.
  unfold statement. intros H. repeat case_match; simplify_eq; eauto 8.
Qed.

Lemma statement_ok (f : S -> result error (A * S)) s fs a s' fs' :
  statement f s fs = (Ok a, s', fs') -> f s = Ok (a, s').
Proof. unfold statement. intros H. repeat case_match; by simplify_eq. Qed.

Lemma exec_ok (f : S -> A * S) s fs a s' fs' :
  exec f s fs = (Ok a, s', fs') -> f s = (a, s').
Proof. intros H%statement_ok. by simplify_eq. Qed.

Lemma query_ok (f : S -> A) s fs a s' fs' :
  query f s fs = (Ok a, s', fs') -> a = f s /\ s' = s.
Proof. intros H%statement_ok. by simplify_eq. Qed.

Lemma query_state (f : S -> A) s fs : run_state (query f) s fs = s.
Proof. unfold run_state, query, statement. repeat case_match; by simplify_eq/=. Qed.

Lemma query_row_ok (f : S -> option A) s fs a s' fs' :
  query_row f s fs = (Ok a, s', fs') -> f s = Some a /\ s' = s.
Proof. intros H%statement_ok. case_match; by simplify_eq. Qed.

Lemma query_row_state (f : S -> option A) s fs : run_state (query_row f) s fs = s.
Proof. unfold run_state, query_row, statement. repeat case_match; by simplify_eq/=. Qed.

Lemma mbind_ok (m : M S A) (k : A -> M S B) s fs b s' fs' :
  mbind m k s fs = (Ok b, s', fs') ->
  exists a s1 fs1, m s fs = (Ok a, s1, fs1) /\ k a s1 fs1 = (Ok b, s', fs').
Proof. unfold mbind. destruct (m s fs) as [[[a|e] s1] fs1]; naive_solver. Qed.

Lemma mbind_err (m : M S A) (k : A -> M S B) s fs e s' fs' :
  mbind m k s fs = (Err e, s', fs') ->
  m s fs = (Err e, s', fs') \/
  exists a s1 fs1, m s fs = (Ok a, s1, fs1) /\ k a s1 fs1 = (Err e, s', fs').
Proof. unfold mbind. destruct (m s fs) as [[[a|e'] s1] fs1]; naive_solver. Qed.

Lemma mbind_eq (m : M S A) (k : A -> M S B) s fs a s' fs' :
  m s fs = (Ok a, s', fs') -> mbind m k s fs = k a s' fs'.
Proof. unfold mbind. by intros ->. Qed.

Lemma attempt_eq (m : M S A) s fs r s' fs' : m s fs = (r, s', fs') -> attempt m s fs = (Ok r, s', fs').
Proof. unfold attempt. by intros ->. Qed.

Lemma attempt_inv (m : M S A) s fs r s' fs' :
  attempt m s fs = (r, s', fs') -> exists r', r = Ok r' /\ m s fs = (r', s', fs').
Proof. unfold attempt. destruct (m s fs) as [[r0 s0] fs0]. naive_solver. Qed.

(** A transaction either commits its body or leaves the database alone; an
    error after a commit is the driver's. *)
Lemma transaction_inv (body : M S A) s fs r s' fs' :
  transaction body s fs = (r, s', fs') ->
  (s' = s /\ exists e, r = Err e) \/
  exists a fs1 fs2, body s fs1 = (Ok a, s', fs2) /\ (r = Ok a \/ exists x, r = Err (EDb x)).
Proof.
  unfold transaction, statement.
  intros H. repeat (case_match; simplify_eq/=); eauto 10.
Qed.

Lemma transaction_ok (body : M S A) s fs a s' fs' :
  transaction body s fs = (Ok a, s', fs') ->
  exists fs1 fs2, body s fs1 = (Ok a, s', fs2).
Proof. intros [[_ [e ?]]|(a' & ? & ? & ? & [?|[e ?]])]%transaction_inv; naive_solver. Qed.

Lemma statement_nofault (f : S -> result error (A * S)) s :
  statement f s [] = match f s with Ok (a, s') => (Ok a, s', []) | Err e => (Err e, s, []) end.
Proof. done. Qed.

Lemma transaction_nofault (body : M S A) s r s' :
  body s [] = (r, s', []) ->
  transaction body s [] = match r with Ok a => (Ok a, s', []) | Err e => (Err e, s, []) end.
Proof. intros H. unfold transaction. simpl. rewrite H. by destruct r. Qed.
End laws.

(** *** Invariants of computations *)

Section preservation.
Context {S : Type} (P : S -> Prop).

Lemma preserves_ret {A} (a : A) : preserves P (ret a).
Proof. by intros s fs. Qed.
Lemma preserves_fail {A} (e : error) : preserves P (A := A) (fail e).
Proof. by intros s fs. Qed.
Lemma preserves_lift {A} (r : result error A) : preserves P (lift r).
Proof. by intros s fs. Qed.
Lemma preserves_mbind {A B} (m : M S A) (k : A -> M S B) :
  preserves P m -> (forall a, preserves P (k a)) -> preserves P (mbind m k).
Proof.
  intros Hm Hk s fs Hs. specialize (Hm s fs Hs). unfold run_state, mbind in *.
  destruct (m s fs) as [[[a|e] s'] fs']; [|done]. by apply Hk.
Qed.
Lemma preserves_attempt {A} (m : M S A) : preserves P m -> preserves P (attempt m).
Proof.
  intros Hm s fs Hs. specialize (Hm s fs Hs). unfold run_state, attempt in *.
  by destruct (m s fs) as [[r s'] fs'].
Qed.
Lemma preserves_statement {A} (f : S -> result error (A * S)) :
  (forall s a s', P s -> f s = Ok (a, s') -> P s') -> preserves P (statement f).
Proof.
  intros Hf s fs Hs. unfold run_state, statement. repeat (case_match; simplify_eq/=); eauto.
Qed.
Lemma preserves_exec {A} (f : S -> A * S) :
  (forall s, P s -> P (f s).2) -> preserves P (exec f).
Proof.
  intros Hf. apply preserves_statement. intros s a s' Hs [= He]. specialize (Hf s Hs). by rewrite He in Hf.
Qed.
Lemma preserves_query {A} (f : S -> A) : preserves P (query f).
Proof. intros s fs Hs. by rewrite query_state. Qed.
Lemma preserves_query_row {A} (f : S -> option A) : preserves P (query_row f).
Proof. intros s fs Hs. by rewrite query_row_state. Qed.
Lemma preserves_inspect {A} (f : S -> M S A) : (forall s, P s -> preserves P (f s)) -> preserves P (inspect f).
Proof. intros Hf s fs Hs. by apply (Hf s). Qed.
Lemma preserves_modify (f : S -> S) : (forall s, P s -> P (f s)) -> preserves P (modify f).
Proof. intros Hf s fs Hs. by apply Hf. Qed.
Lemma preserves_if {A} (b : bool) (m1 m2 : M S A) :
  preserves P m1 -> preserves P m2 -> preserves P (if b then m1 else m2).
Proof. by destruct b. Qed.
Lemma preserves_whenM (b : bool) (m : M S unit) : preserves P m -> preserves P (whenM b m).
Proof. intros Hm. unfold whenM. apply preserves_if; [done|apply preserves_ret]. Qed.
Lemma preserves_result {A B} (r : result error A) (k : A -> M S B) (h : error -> M S B) :
  (forall a, preserves P (k a)) -> (forall e, preserves P (h e)) ->
  preserves P (match r with Ok a => k a | Err e => h e end).
Proof. intros. by destruct r. Qed.
Lemma preserves_transaction {A} (body : M S A) : preserves P body -> preserves P (transaction body).
Proof.
  intros Hb s fs Hs. unfold run_state.
  destruct (transaction body s fs) as [[r s'] fs'] eqn:E.
  apply transaction_inv in E as [[-> _]|(a & fs1 & fs2 & Hr & _)]; [done|].
  specialize (Hb s fs1 Hs). unfold run_state in Hb. by rewrite Hr in Hb.
Qed.
End preservation.

#[export] Hint Resolve preserves_ret preserves_fail preserves_lift preserves_mbind preserves_attempt
  preserves_query preserves_query_row preserves_if preserves_whenM preserves_transaction : wmon.

(** Split a computation into its statements; what each statement does to the
    invariant is left. *)
Ltac preserve :=
  repeat first
    [ progress intros
    | apply preserves_ret | apply preserves_fail | apply preserves_lift
    | apply preserves_query | apply preserves_query_row
    | apply preserves_mbind | apply preserves_attempt | apply preserves_whenM
    | apply preserves_transaction | apply preserves_if
    | match goal with
      | |- preserves _ (match ?r with _ => _ end) => destruct r
      end ].

(** Invert a successful computation step by step. *)
Ltac inv_ok :=
  repeat match goal with
  | H : mbind _ _ _ _ = (Ok _, _, _) |- _ => apply mbind_ok in H as (? & ? & ? & ? & H)
  | H : (let (_, _) := ?p in _) _ _ = (Ok _, _, _) |- _ => destruct p eqn:?
  | H : exec _ _ _ = (Ok _, _, _) |- _ => apply exec_ok in H
  | H : query _ _ _ = (Ok _, _, _) |- _ => apply query_ok in H as [? ?]
  | H : query_row _ _ _ = (Ok _, _, _) |- _ => apply query_row_ok in H as [? ?]
  | H : statement _ _ _ = (Ok _, _, _) |- _ => apply statement_ok in H
  | H : transaction _ _ _ = (Ok _, _, _) |- _ => apply transaction_ok in H as (? & ? & H)
  | H : attempt _ _ _ = (_, _, _) |- _ => apply attempt_inv in H as (? & ? & H)
  | H : ret _ _ _ = (_, _, _) |- _ => unfold ret in H
  | H : fail _ _ _ = (_, _, _) |- _ => unfold fail in H
  | H : lift _ _ _ = (_, _, _) |- _ => unfold lift in H
  | H : whenM ?c _ _ _ = (_, _, _) |- _ => unfold whenM in H; destruct c eqn:?
  | H : (if ?c then _ else _) _ _ = (Ok _, _, _) |- _ => destruct c eqn:?
  | H : match ?c with _ => _ end _ _ = (Ok _, _, _) |- _ => destruct c eqn:?
  | _ => progress simplify_eq/=
  end.

(** *** Weakest preconditions

    [wp m Q s]: from [s], whatever the faults, [m] ends in a result and a
    state that satisfy [Q]. *)

Definition wp {S A : Type} (m : M S A) (Q : result error A -> S -> Prop) (s : S) : Prop :=
  forall fs, let '(r, s', _) := m s fs in Q r s'.

Section wp.
Context {S : Type}.
Implicit Types s : S.

Lemma wp_run {A} (m : M S A) Q s fs r s' fs' : wp m Q s -> m s fs = (r, s', fs') -> Q r s'.
Proof. intros Hm He. specialize (Hm fs). by rewrite He in Hm. Qed.
Lemma wp_run_state {A} (m : M S A) (P : S -> Prop) s fs : wp m (fun _ s' => P s') s -> P (run_state m s fs).
Proof. intros Hm. specialize (Hm fs). unfold run_state. by destruct (m s fs) as [[r s'] fs']. Qed.
Lemma wp_mono {A} (m : M S A) (Q Q' : result error A -> S -> Prop) s :
  wp m Q s -> (forall r s', Q r s' -> Q' r s') -> wp m Q' s.
Proof. intros Hm HQ fs. specialize (Hm fs). destruct (m s fs) as [[r s'] fs']. auto. Qed.
Lemma wp_ret {A} (a : A) (Q : result error A -> S -> Prop) s : Q (Ok a) s -> wp (ret a) Q s.
Proof. by intros HQ fs. Qed.
Lemma wp_fail {A} e (Q : result error A -> S -> Prop) s : Q (Err e) s -> wp (fail e) Q s.
Proof. by intros HQ fs. Qed.
Lemma wp_lift {A} (r : result error A) (Q : result error A -> S -> Prop) s : Q r s -> wp (lift r) Q s.
Proof. by intros HQ fs. Qed.
Lemma wp_mbind {A B} (m : M S A) (k : A -> M S B) Q s :
  wp m (fun r s' => match r with Ok a => wp (k a) Q s' | Err e => Q (Err e) s' end) s ->
  wp (mbind m k) Q s.
Proof.
  intros Hm fs. specialize (Hm fs). unfold mbind. destruct (m s fs) as [[[a|e] s'] fs']; [|done]. apply Hm.
Qed.
Lemma wp_attempt {A} (m : M S A) (Q : result error (result error A) -> S -> Prop) s :
  wp m (fun r s' => Q (Ok r) s') s -> wp (attempt m) Q s.
Proof. intros Hm fs. specialize (Hm fs). unfold attempt. by destruct (m s fs) as [[r s'] fs']. Qed.
Lemma wp_statement {A} (f : S -> result error (A * S)) (Q : result error A -> S -> Prop) s :
  (forall e, Q (Err e) s) ->
  (forall a s', f s = Ok (a, s') -> Q (Ok a) s' /\ forall e, Q (Err e) s') ->
  wp (statement f) Q s.
Proof.
  intros He Hf fs. destruct (statement f s fs) as [[r s'] fs'] eqn:E.
  apply statement_inv in E as [[[e ->] ->]|(a & Ha & [->|[e ->]])]; [done| |]; by apply (Hf a).
Qed.
Lemma wp_exec {A} (f : S -> A * S) (Q : result error A -> S -> Prop) s :
  (forall e, Q (Err e) s) -> Q (Ok (f s).1) (f s).2 -> (forall e, Q (Err e) (f s).2) -> wp (exec f) Q s.
Proof. intros He Ho Hl. apply wp_statement; [done|]. intros a s' [= Hf]. rewrite Hf in *. done. Qed.
Lemma wp_query {A} (f : S -> A) (Q : result error A -> S -> Prop) s :
  (forall e, Q (Err e) s) -> Q (Ok (f s)) s -> wp (query f) Q s.
Proof. intros He Ho. apply wp_statement; [done|]. by intros a s' [= <- <-]. Qed.
Lemma wp_modify (f : S -> S) (Q : result error unit -> S -> Prop) s : Q (Ok tt) (f s) -> wp (modify f) Q s.
Proof. by intros HQ fs. Qed.
Lemma wp_inspect {A} (f : S -> M S A) Q s : wp (f s) Q s -> wp (inspect f) Q s.
Proof. done. Qed.
Lemma wp_preserves {A} (P : S -> Prop) (m : M S A) :
  (forall s, P s -> wp m (fun _ s' => P s') s) -> preserves P m.
Proof.
  intros Hm s fs Hs. specialize (Hm s Hs fs). unfold run_state. by destruct (m s fs) as [[r s'] fs'].
Qed.
Lemma wp_preserved {A} (P : S -> Prop) (m : M S A) s : preserves P m -> P s -> wp m (fun _ s' => P s') s.
Proof. intros Hm Hs fs. specialize (Hm s fs Hs). unfold run_state in Hm. by destruct (m s fs) as [[r s'] fs']. Qed.
Lemma wp_conjoin {A} (m : M S A) (Q1 Q2 : result error A -> S -> Prop) s :
  wp m Q1 s -> wp m Q2 s -> wp m (fun r s' => Q1 r s' /\ Q2 r s') s.
Proof. intros Hm1 Hm2 fs. specialize (Hm1 fs). specialize (Hm2 fs). by destruct (m s fs) as [[r s'] fs']. Qed.
Lemma wp_zoom {T A} (get : S -> T) (put : T -> S -> S) (m : M T A) (Q : result error A -> S -> Prop) s :
  wp m (fun r t => Q r (put t s)) (get s) -> wp (zoom get put m) Q s.
Proof. intros Hm fs. specialize (Hm fs). unfold zoom. by destruct (m (get s) fs) as [[r t] fs']. Qed.
Lemma wp_zoom_inv {T A} (get : S -> T) (put : T -> S -> S) (m : M T A) (Q : result error A -> S -> Prop) s :
  wp (zoom get put m) Q s -> wp m (fun r t => Q r (put t s)) (get s).
Proof. intros Hm fs. specialize (Hm fs). unfold zoom in Hm. by destruct (m (get s) fs) as [[r t] fs']. Qed.
Lemma wp_try {A B} (m : M S A) (k : result error A -> M S B) Q s :
  wp m (fun r s' => wp (k r) Q s') s -> wp (mbind (attempt m) k) Q s.
Proof. intros Hm. by apply wp_mbind, wp_attempt. Qed.
End wp.

(** *** Computations that always return a value *)

Definition answers {S A : Type} (m : M S A) : Prop := forall s, wp m (fun r _ => is_ok r = true) s.

Section answering.
Context {S : Type}.

Lemma answers_ret {A} (a : A) : answers (S := S) (ret a).
Proof. intros s. by apply wp_ret. Qed.
Lemma answers_modify (f : S -> S) : answers (modify f).
Proof. intros s. by apply wp_modify. Qed.
Lemma answers_attempt {A} (m : M S A) : answers (attempt m).
Proof. intros s fs. unfold attempt. by destruct (m s fs) as [[r s'] fs']. Qed.
Lemma answers_inspect {A} (f : S -> M S A) : (forall s, answers (f s)) -> answers (inspect f).
Proof. intros Hf s. apply Hf. Qed.
Lemma answers_mbind {A B} (m : M S A) (k : A -> M S B) :
  answers m -> (forall a, answers (k a)) -> answers (mbind m k).
Proof. intros Hm Hk s. apply wp_mbind. eapply wp_mono; [apply Hm|]. intros [a|e] s' He; [apply Hk|done]. Qed.
Lemma answers_zoom {T A} (get : S -> T) (put : T -> S -> S) (m : M T A) : answers m -> answers (zoom get put m).
Proof. intros Hm s. apply wp_zoom, Hm. Qed.
Lemma answers_whenM (b : bool) (m : M S unit) : answers m -> answers (whenM b m).
Proof. intros Hm. destruct b; [exact Hm|apply answers_ret]. Qed.
Lemma wp_answers {A} (m : M S A) (Q : result error A -> S -> Prop) s :
  answers m -> wp m Q s -> wp m (fun r s' => exists a, r = Ok a /\ Q (Ok a) s') s.
Proof.
  intros Ha Hq. eapply wp_mono; [apply wp_conjoin; [apply Ha|exact Hq]|].
  intros [a|e] s' [Hok HQ]; [by exists a|done].
Qed.
End answering.

(** Follow the shape of a computation that always answers. *)
Ltac answering :=
  repeat (cbv zeta;
    lazymatch goal with
    | H : answers ?m |- answers ?m => exact H
    | |- forall _, _ => intro
    | |- answers (ret _) => apply answers_ret
    | |- answers (modify _) => apply answers_modify
    | |- answers (attempt _) => apply answers_attempt
    | |- answers (inspect _) => apply answers_inspect
    | |- answers (mbind _ _) => apply answers_mbind
    | |- answers (zoom _ _ _) => apply answers_zoom
    | |- answers (whenM _ _) => apply answers_whenM
    | |- answers (match ?x with _ => _ end) => destruct x
    end).
