(* ===== verification/Reads.v ===== *)
(** * The metric and process tables and their readers

    [storage/db.go], [storage/postgres.go] and [storage/bounded_reads.go] on
    the storage side; [server/read_page.go] and the paging part of the read
    handlers of [server/server.go] on the HTTP side.

    A table is the list of its rows with the next id; [ORDER BY] is
    [merge_sort].  The SQLite statements write counters unchanged, the
    Postgres ones convert [uint64] to [int64] and back.  On Postgres a
    sequence is not rolled back with its transaction, so the ids of real rows
    may have gaps the model's do not have; nothing depends on their density. *)

From S2P Require Export Db.
From Stdlib Require Import Structures.OrdersEx.
Open Scope list_scope.
Open Scope Z_scope.

(** ** Tables *)

Record rows_db := {
  d_metrics : list MetricRow;
  d_metric_seq : Z;
  d_processes : list ProcessRow;
  d_process_seq : Z
}.
Definition empty_rows : rows_db :=
  {| d_metrics := []; d_metric_seq := 1; d_processes := []; d_process_seq := 1 |}.

Definition set_metric (id : Z) (tenant server : string) (ts : Z) (f : Z -> Z) (m : MetricRow) : MetricRow :=
  {| m_ID := id; m_Timestamp := ts; m_TenantID := tenant; m_ServerID := server;
     m_Hostname := m_Hostname m; m_CPUPct := m_CPUPct m; m_MemPct := m_MemPct m;
     m_DiskFreeGB := m_DiskFreeGB m;
     m_NetSentBytes := f (m_NetSentBytes m); m_NetRecvBytes := f (m_NetRecvBytes m);
     m_CPUCores := m_CPUCores m; m_MemTotalGB := m_MemTotalGB m; m_DiskTotalGB := m_DiskTotalGB m;
     m_DiskReadOps := f (m_DiskReadOps m); m_DiskWriteOps := f (m_DiskWriteOps m);
     m_DiskIOPS := m_DiskIOPS m; m_NetMBps := m_NetMBps m;
     m_ConcurrentUsers := m_ConcurrentUsers m;
     m_NetSentExternal := f (m_NetSentExternal m); m_NetRecvExternal := f (m_NetRecvExternal m);
     m_NetSentInternal := f (m_NetSentInternal m); m_NetRecvInternal := f (m_NetRecvInternal m) |}.

Definition set_process (id : Z) (tenant server : string) (ts : Z) (p : ProcessRow) : ProcessRow :=
  {| p_ID := id; p_Timestamp := ts; p_TenantID := tenant; p_ServerID := server;
     p_Hostname := p_Hostname p; p_PID := p_PID p; p_Name := p_Name p;
     p_CPUPct := p_CPUPct p; p_MemMB := p_MemMB p |}.

Definition counters (m : MetricRow) : list Z :=
  [m_NetSentBytes m; m_NetRecvBytes m; m_DiskReadOps m; m_DiskWriteOps m;
   m_NetSentExternal m; m_NetRecvExternal m; m_NetSentInternal m; m_NetRecvInternal m].

(** [INSERT INTO metrics ... VALUES (m.Timestamp.Unix(), ...)]: the stored
    time has whole seconds. *)
Definition insert_metric_row (tenant server : string) (conv : Z -> Z) (m : MetricRow) (d : rows_db) : rows_db :=
  {| d_metrics := d_metrics d ++
       [set_metric (d_metric_seq d) tenant server (of_unix (Unix (m_Timestamp m))) conv m];
     d_metric_seq := d_metric_seq d + 1;
     d_processes := d_processes d; d_process_seq := d_process_seq d |}.
Definition insert_process_row (tenant server : string) (p : ProcessRow) (d : rows_db) : rows_db :=
  {| d_metrics := d_metrics d; d_metric_seq := d_metric_seq d;
     d_processes := d_processes d ++
       [set_process (d_process_seq d) tenant server (of_unix (Unix (p_Timestamp p))) p];
     d_process_seq := d_process_seq d + 1 |}.

(** ** The SQLite backend ([db.go]) *)

Module SQLite.
(** [database/sql] refuses to bind an unsigned value above [MaxInt64]. *)
Definition errHighBit : error := EMsg "uint64 values with high bit set are not supported".
Definition InsertMetric (m : MetricRow) : M rows_db unit :=
  let tenant := normalizeInsertTenant (m_TenantID m) in
  statement (fun d =>
    if existsb (fun c => max_int64 <? c) (counters m) then Err errHighBit
    else Ok (tt, insert_metric_row tenant (m_ServerID m) (fun c => c) m d)).
Definition InsertProcess (p : ProcessRow) : M rows_db unit :=
  let tenant := normalizeInsertTenant (p_TenantID p) in
  exec (fun d => (tt, insert_process_row tenant (p_ServerID p) p d)).
End SQLite.

(** ** Queries

    The [WHERE] clause both backends assemble from the arguments that are
    present. *)

Class Row (R : Type) := {
  row_time : R -> Z;
  row_id : R -> Z;
  row_tenant : R -> string;
  row_server : R -> string
}.
#[export] Instance metric_Row : Row MetricRow :=
  {| row_time := m_Timestamp; row_id := m_ID; row_tenant := m_TenantID; row_server := m_ServerID |}.
#[export] Instance process_Row : Row ProcessRow :=
  {| row_time := p_Timestamp; row_id := p_ID; row_tenant := p_TenantID; row_server := p_ServerID |}.

Definition row_unix `{Row R} (r : R) : Z := Unix (row_time r).
Definition row_key `{Row R} (r : R) : Z * Z := (row_unix r, row_id r).

(** The keyset order [timestamp, id]. *)
Definition key_lt (a b : Z * Z) : Prop := a.1 < b.1 \/ (a.1 = b.1 /\ a.2 < b.2).
#[export] Instance key_lt_dec : RelDecision key_lt.
Proof. intros a b. unfold key_lt. apply _. Defined.
Definition row_le `{Row R} (a b : R) : Prop := ~ key_lt (row_key b) (row_key a).
#[export] Instance row_le_dec `{Row R} (a b : R) : Decision (row_le a b).
Proof. unfold row_le. apply _. Defined.
(** The order of [ORDER BY timestamp ASC] alone. *)
Definition time_le `{Row R} (a b : R) : Prop := row_unix a <= row_unix b.
#[export] Instance time_le_dec `{Row R} (a b : R) : Decision (time_le a b).
Proof. unfold time_le. apply _. Defined.

Definition where_scope `{Row R} (since until : Z) (tenantID serverID : string) (allTenants : bool) (r : R) : bool :=
  (Unix since <=? row_unix r) &&
  (IsZero until || (row_unix r <=? Unix until)) &&
  (allTenants || String.eqb (row_tenant r) tenantID) &&
  (is_empty serverID || String.eqb (row_server r) serverID).
Definition where_cursor `{Row R} (afterUnix afterID : Z) (r : R) : bool :=
  negb (0 <? afterID) ||
  ((afterUnix <? row_unix r) || ((row_unix r =? afterUnix) && (afterID <? row_id r))).

(** [SELECT ... WHERE ... ORDER BY timestamp ASC, id ASC LIMIT n] *)
Definition select_page `{Row R} (since until : Z) (tenantID serverID : string) (allTenants : bool)
  (afterUnix afterID limit : Z) (table : list R) : list R :=
  take (Z.to_nat limit)
    (merge_sort row_le
       (filter (fun r => where_scope since until tenantID serverID allTenants r &&
                         where_cursor afterUnix afterID r = true) table)).

Record MetricQuery := {
  q_Since : Z;
  q_Until : Z;
  q_TenantID : string;
  q_ServerID : string;
  q_Limit : Z;
  q_AfterUnix : Z;
  q_AfterID : Z
}.

Definition ErrTenantRequired : error := EMsg "storage: tenant scope is required".
Definition RequireTenant (id : string) : result error unit :=
  guard (RequireTenant_fails id) ErrTenantRequired.

Definition scoped_query (since : Z) (tenantID : string) : MetricQuery :=
  {| q_Since := since; q_Until := zero_time; q_TenantID := tenantID; q_ServerID := empty_str;
     q_Limit := 0; q_AfterUnix := 0; q_AfterID := 0 |}.

Section queries.
(** [conv]: how a stored counter is read back. *)
Variable conv : Z -> Z.
Definition scan_metric (m : MetricRow) : MetricRow :=
  set_metric (m_ID m) (m_TenantID m) (m_ServerID m) (m_Timestamp m) conv m.

Definition queryMetrics (since until : Z) (tenantID serverID : string) (limit : Z) (allTenants : bool)
  (afterUnix afterID : Z) : M rows_db (list MetricRow) :=
  query (fun d => map scan_metric
    (select_page since until tenantID serverID allTenants afterUnix afterID limit (d_metrics d))).
Definition QueryMetricsQ (q : MetricQuery) : M rows_db (list MetricRow) :=
  let* _ := lift (RequireTenant (q_TenantID q)) in
  queryMetrics (q_Since q) (q_Until q) (q_TenantID q) (q_ServerID q) (queryLimit (q_Limit q)) false
    (q_AfterUnix q) (q_AfterID q).
Definition QueryMetrics (since : Z) (tenantID : string) : M rows_db (list MetricRow) :=
  QueryMetricsQ (scoped_query since tenantID).
Definition QueryMetricsAllTenants (since limit : Z) : M rows_db (list MetricRow) :=
  queryMetrics since zero_time empty_str empty_str (queryLimit limit) true 0 0.
End queries.

(** [processQuery] and [QueryProcessesQ] of [bounded_reads.go] *)
Definition processQuery (q : MetricQuery) : result error (list ProcessRow -> list ProcessRow) :=
  let? _ := RequireTenant (q_TenantID q) in
  Ok (select_page (q_Since q) (q_Until q) (q_TenantID q) (q_ServerID q) false
        (q_AfterUnix q) (q_AfterID q) (boundedLimit (q_Limit q))).
Definition QueryProcessesQ (q : MetricQuery) : M rows_db (list ProcessRow) :=
  let* select := lift (processQuery q) in
  query (fun d => select (d_processes d)).

(** [ORDER BY timestamp ASC] without a tie break: rows of one second come in
    an unspecified order, here that of the table. *)
Definition select_by_time (since : Z) (tenantID : string) (allTenants : bool) (limit : Z)
  (table : list ProcessRow) : list ProcessRow :=
  take (Z.to_nat limit)
    (merge_sort time_le
       (filter (fun r => where_scope since zero_time tenantID empty_str allTenants r = true) table)).
Definition queryProcesses (since : Z) (tenantID : string) (limit : Z) (allTenants : bool)
  : M rows_db (list ProcessRow) :=
  query (fun d => select_by_time since tenantID allTenants limit (d_processes d)).
Definition QueryProcesses (since : Z) (tenantID : string) : M rows_db (list ProcessRow) :=
  let* _ := lift (RequireTenant tenantID) in
  queryProcesses since tenantID (queryLimit 0) false.

Definition CountMetrics : M rows_db Z := query (fun d => Z.of_nat (length (d_metrics d))).
Definition CountProcesses : M rows_db Z := query (fun d => Z.of_nat (length (d_processes d))).

(** *** Server listing *)

(** The text order of the database.  SQLite compares bytes; a Postgres
    database uses the collation it was created with. *)
Class Collation := {
  coll_lt : string -> string -> Prop;
  coll_lt_dec :: RelDecision coll_lt;
  coll_lt_strict :: StrictOrder coll_lt;
  coll_lt_total : forall a b, coll_lt a b \/ a = b \/ coll_lt b a
}.
Definition coll_le `{Collation} (a b : string) : Prop := ~ coll_lt b a.
#[export] Instance coll_le_dec `{Collation} (a b : string) : Decision (coll_le a b).
Proof. unfold coll_le. apply _. Defined.

(** The byte order. *)
#[global] Instance byte_lt_dec : RelDecision OrdersEx.String_as_OT.lt.
Proof.
  intros a b. pose proof (OrdersEx.String_as_OT.compare_spec a b) as Hc.
  destruct (OrdersEx.String_as_OT.compare a b); [right|left|right].
  - inversion Hc as [He| |]. rewrite He. apply StrictOrder_Irreflexive.
  - by inversion Hc.
  - inversion Hc as [| |Hgt]. intros Hlt. apply (StrictOrder_Irreflexive a). by trans b.
Defined.
Lemma byte_lt_total (a b : string) :
  OrdersEx.String_as_OT.lt a b \/ a = b \/ OrdersEx.String_as_OT.lt b a.
Proof. destruct (OrdersEx.String_as_OT.compare_spec a b); auto. Qed.
Definition byte_collation : Collation :=
  {| coll_lt := OrdersEx.String_as_OT.lt; coll_lt_dec := byte_lt_dec;
     coll_lt_strict := OrdersEx.String_as_OT.lt_strorder; coll_lt_total := byte_lt_total |}.

(** [SELECT DISTINCT server_id ... ORDER BY server_id LIMIT n] *)
Definition select_servers `{Collation} (tenant after : string) (limit : Z) (table : list MetricRow) : list string :=
  take (Z.to_nat limit)
    (merge_sort coll_le
       (remove_dups
          (filter (fun id => is_empty after \/ coll_lt after id)
             (map m_ServerID
                (filter (fun r => m_TenantID r = tenant /\ m_ServerID r <> EmptyString) table))))).
Definition QueryServersPage `{Collation} (tenant : string) (limit : Z) (after : string)
  : M rows_db (list string) :=
  let* _ := lift (RequireTenant tenant) in
  query (fun d => select_servers tenant after (boundedLimit limit) (d_metrics d)).
Definition QueryServersContext `{Collation} (tenant : string) (limit : Z) : M rows_db (list string) :=
  QueryServersPage tenant limit empty_str.
Definition QueryServers `{Collation} (tenantID : string) : M rows_db (list string) :=
  QueryServersContext tenantID DefaultQueryLimit.

(** *** Purge and tenant migration: two statements, not one transaction *)

Definition wrap_err {S A : Type} (msg : string) (m : M S A) : M S A :=
  let* r := attempt m in
  match r with
  | Ok a => ret a
  | Err e => fail (EWrap msg e)
  end.

Definition delete_metrics_before (ts : Z) (d : rows_db) : Z * rows_db :=
  let keep := filter (fun r => ts <= row_unix r) (d_metrics d) in
  (Z.of_nat (length (d_metrics d)) - Z.of_nat (length keep),
   {| d_metrics := keep; d_metric_seq := d_metric_seq d;
      d_processes := d_processes d; d_process_seq := d_process_seq d |}).
Definition delete_processes_before (ts : Z) (d : rows_db) : Z * rows_db :=
  let keep := filter (fun r => ts <= row_unix r) (d_processes d) in
  (Z.of_nat (length (d_processes d)) - Z.of_nat (length keep),
   {| d_metrics := d_metrics d; d_metric_seq := d_metric_seq d;
      d_processes := keep; d_process_seq := d_process_seq d |}).
Definition PurgeOld (cutoff : Z) : M rows_db (Z * Z) :=
  let ts := Unix cutoff in
  let* mDel := wrap_err "purge metrics" (exec (delete_metrics_before ts)) in
  let* pDel := wrap_err "purge processes" (exec (delete_processes_before ts)) in
  ret (mDel, pDel).

Definition retenant (old new cur : string) : string := if String.eqb cur old then new else cur.
Definition retenant_metrics (old new : string) (d : rows_db) : Z * rows_db :=
  (Z.of_nat (length (filter (fun r => m_TenantID r = old) (d_metrics d))),
   {| d_metrics := map (fun m => set_metric (m_ID m) (retenant old new (m_TenantID m)) (m_ServerID m)
                                   (m_Timestamp m) (fun c => c) m) (d_metrics d);
      d_metric_seq := d_metric_seq d; d_processes := d_processes d;
      d_process_seq := d_process_seq d |}).
Definition retenant_processes (old new : string) (d : rows_db) : Z * rows_db :=
  (Z.of_nat (length (filter (fun r => p_TenantID r = old) (d_processes d))),
   {| d_metrics := d_metrics d; d_metric_seq := d_metric_seq d;
      d_processes := map (fun p => set_process (p_ID p) (retenant old new (p_TenantID p)) (p_ServerID p)
                                     (p_Timestamp p) p) (d_processes d);
      d_process_seq := d_process_seq d |}).
Definition MigrateTenantID (oldTenant newTenant : string) : M rows_db Z :=
  let* mAff := wrap_err "migrate metrics tenant" (exec (retenant_metrics oldTenant newTenant)) in
  let* pAff := wrap_err "migrate processes tenant" (exec (retenant_processes oldTenant newTenant)) in
  ret (mAff + pAff).

(** ** The Postgres backend ([postgres.go]) *)

Module Postgres.
Definition InsertMetric (m : MetricRow) : M rows_db unit :=
  let tenant := normalizeInsertTenant (m_TenantID m) in
  exec (fun d => (tt, insert_metric_row tenant (m_ServerID m) wrap_i64 m d)).
Definition InsertProcess (p : ProcessRow) : M rows_db unit :=
  let tenant := normalizeInsertTenant (p_TenantID p) in
  exec (fun d => (tt, insert_process_row tenant (p_ServerID p) p d)).
Definition QueryMetricsQ : MetricQuery -> M rows_db (list MetricRow) := Reads.QueryMetricsQ wrap_u64.
Definition queryMetrics := Reads.queryMetrics wrap_u64.
Definition QueryProcesses (since : Z) (tenantID : string) : M rows_db (list ProcessRow) :=
  let* _ := lift (RequireTenant tenantID) in
  query (fun d => select_by_time since tenantID false DefaultQueryLimit (d_processes d)).
Definition PurgeOld (cutoff : Z) : M rows_db (Z * Z) :=
  let ts := Unix cutoff in
  let* mDel := wrap_err "purge postgres metrics" (exec (delete_metrics_before ts)) in
  let* pDel := wrap_err "purge postgres processes" (exec (delete_processes_before ts)) in
  ret (mDel, pDel).
Definition MigrateTenantID (oldTenant newTenant : string) : M rows_db Z :=
  let* mAff := wrap_err "migrate postgres metrics tenant" (exec (retenant_metrics oldTenant newTenant)) in
  let* pAff := wrap_err "migrate postgres processes tenant" (exec (retenant_processes oldTenant newTenant)) in
  ret (mAff + pAff).
End Postgres.

(** ** HTTP reads ([server/read_page.go], [server/server.go])

    A request is its decoded query parameters; the authentication and the
    rate limit in front of these reads are in the server files. *)

Record readPage := { pg_Limit : Z; pg_AfterUnix : Z; pg_AfterID : Z }.

Definition cursor_err (s : string) : error := EMsg s.
Definition limit_err (n : Z) : error := EMsg ("limit must be 1.." +:+ Itoa n).

Definition parse_limit (raw : string) (dflt cap : Z) : result error Z :=
  let raw := TrimSpace raw in
  if is_empty raw then Ok dflt
  else match ParseInt raw with
       | None => Err (limit_err cap)
       | Some n => if (n <? 1) || (cap <? n) then Err (limit_err cap) else Ok n
       end.

Definition parseReadPage (limit cursor : string) : result error readPage :=
  let? n := parse_limit limit DefaultQueryLimit DefaultQueryLimit in
  let cursor := TrimSpace cursor in
  if is_empty cursor then Ok {| pg_Limit := n; pg_AfterUnix := 0; pg_AfterID := 0 |}
  else
    let '(unixStr, idStr, ok) := Cut cursor ":" in
    if negb ok || is_empty unixStr || is_empty idStr then Err (cursor_err "cursor must be unix:id")
    else match ParseInt unixStr with
         | None => Err (cursor_err "invalid cursor timestamp")
         | Some unix =>
             match ParseInt idStr with
             | None => Err (cursor_err "invalid cursor id")
             | Some id =>
                 if id <? 1 then Err (cursor_err "invalid cursor id")
                 else Ok {| pg_Limit := n; pg_AfterUnix := unix; pg_AfterID := id |}
             end
         end.

Definition nextReadCursor (unix id count limit : Z) : string * bool :=
  let complete := count <? limit in
  if complete || (id <? 1) then (empty_str, complete)
  else (Itoa unix +:+ ":" +:+ Itoa id, false).

Definition defaultServerLimit : Z := 1000.
Record serverPage := { sp_Limit : Z; sp_After : string }.
Definition parseServerPage (limit cursor : string) : result error serverPage :=
  let? n := parse_limit limit defaultServerLimit defaultServerLimit in
  let after := TrimSpace cursor in
  if ContainsAny after blank_chars then Err (EMsg "invalid server cursor")
  else Ok {| sp_Limit := n; sp_After := after |}.

Definition parseRange (value : string) : Z :=
  if String.eqb value "7d" then 7 * 24 * hour
  else if String.eqb value "30d" then 30 * 24 * hour
  else 24 * hour.

(** [queryMetricsPage]: an absent upper bound becomes the present. *)
Definition queryMetricsPage (conv : Z -> Z) (now : Z) (q : MetricQuery) : M rows_db (list MetricRow) :=
  let* _ := lift (RequireTenant (q_TenantID q)) in
  let until := if IsZero (q_Until q) then now else q_Until q in
  QueryMetricsQ conv
    {| q_Since := q_Since q; q_Until := until; q_TenantID := q_TenantID q; q_ServerID := q_ServerID q;
       q_Limit := q_Limit q; q_AfterUnix := q_AfterUnix q; q_AfterID := q_AfterID q |}.

Record page_reply (R : Type) := {
  pr_Data : list R;
  pr_Complete : bool;
  pr_NextCursor : string
}.
Arguments pr_Data {R}.
Arguments pr_Complete {R}.
Arguments pr_NextCursor {R}.
Arguments Build_page_reply {R}.

(** The reply built from the rows of one page. *)
Definition reply_of `{Row R} (limit : Z) (rows : list R) : page_reply R :=
  let '(next, complete) :=
    match last rows with
    | Some r => nextReadCursor (row_unix r) (row_id r) (Z.of_nat (length rows)) limit
    | None => (empty_str, true)
    end in
  {| pr_Data := rows; pr_Complete := complete; pr_NextCursor := next |}.

(** The query [handleMetrics] makes for a tenant at time [now], and its reply. *)
Definition metrics_reply (conv : Z -> Z) (now : Z) (tenant range server limit cursor : string)
  : M rows_db (page_reply MetricRow) :=
  let* page := lift (parseReadPage limit cursor) in
  let* rows := queryMetricsPage conv now
    {| q_Since := now - parseRange range; q_Until := zero_time; q_TenantID := tenant;
       q_ServerID := server; q_Limit := pg_Limit page;
       q_AfterUnix := pg_AfterUnix page; q_AfterID := pg_AfterID page |} in
  ret (reply_of (pg_Limit page) rows).
(** The same for [handleProcesses]. *)
Definition processes_reply (now : Z) (tenant range server limit cursor : string)
  : M rows_db (page_reply ProcessRow) :=
  let* page := lift (parseReadPage limit cursor) in
  let* rows := QueryProcessesQ
    {| q_Since := now - parseRange range; q_Until := now; q_TenantID := tenant;
       q_ServerID := server; q_Limit := pg_Limit page;
       q_AfterUnix := pg_AfterUnix page; q_AfterID := pg_AfterID page |} in
  ret (reply_of (pg_Limit page) rows).
(** The same for [handleServers]. *)
Definition servers_reply `{Collation} (tenant limit cursor : string) : M rows_db (page_reply string) :=
  let* page := lift (parseServerPage limit cursor) in
  let* servers := QueryServersPage tenant (sp_Limit page) (sp_After page) in
  let complete := Z.of_nat (length servers) <? sp_Limit page in
  ret {| pr_Data := servers; pr_Complete := complete;
         pr_NextCursor := if complete then empty_str else default empty_str (last servers) |}.

(** [exportView.QueryMetrics]: the rows of the page, and the last key seen. *)
Definition exportView_QueryMetrics (conv : Z -> Z) (now : Z) (since : Z) (tenant server : string)
  (limit afterUnix afterID : Z) : M rows_db (list MetricRow * (Z * Z)) :=
  let limit := if limit <? 1 then DefaultQueryLimit else limit in
  let* rows := queryMetricsPage conv now
    {| q_Since := since; q_Until := zero_time; q_TenantID := tenant; q_ServerID := server;
       q_Limit := limit; q_AfterUnix := afterUnix; q_AfterID := afterID |} in
  ret (rows, match last rows with Some r => row_key r | None => (0, 0) end).

(** A client that follows the cursors of an unchanged database until the
    reply is complete. *)
Fixpoint follow {R : Type} (fuel : nat) (read : string -> result error (page_reply R)) (cursor : string)
  : option (list R) :=
  match fuel with
  | O => None
  | S fuel' =>
      match read cursor with
      | Err _ => None
      | Ok p =>
          if pr_Complete p then Some (pr_Data p)
          else match follow fuel' read (pr_NextCursor p) with
               | Some rest => Some (pr_Data p ++ rest)
               | None => None
               end
      end
  end.

(** ** Lemmas *)

#[export] Instance key_lt_strict : StrictOrder key_lt.
Proof.
  split.
  - intros a. unfold complement, key_lt. lia.
  - intros a b c. unfold key_lt. lia.
Qed.

Lemma key_lt_total (a b : Z * Z) : key_lt a b \/ a = b \/ key_lt b a.
Proof.
  unfold key_lt. destruct a as [a1 a2], b as [b1 b2]. simpl.
  destruct (Z.lt_trichotomy a1 b1) as [|[->|]]; [auto| |auto].
  destruct (Z.lt_trichotomy a2 b2) as [|[->|]]; auto.
Qed.

Section row_order.
Context `{Row R}.

#[export] Instance row_le_total : Total (row_le (R := R)).
Proof.
  intros a b. unfold row_le. destruct (key_lt_total (row_key a) (row_key b)) as [Hl|[Hl|Hl]].
  - left. intros Hl'. apply (StrictOrder_Irreflexive (row_key a)). by trans (row_key b).
  - left. rewrite Hl. apply StrictOrder_Irreflexive.
  - right. intros Hl'. apply (StrictOrder_Irreflexive (row_key a)). by trans (row_key b).
Qed.

#[export] Instance row_le_trans : Transitive (row_le (R := R)).
Proof.
  intros a b c H1 H2 Hl. unfold row_le in *.
  destruct (key_lt_total (row_key a) (row_key b)) as [Hab|[Hab|Hab]]; [|congruence|done].
  apply H2. by trans (row_key a).
Qed.

(** A table whose ids are distinct has one sorted listing. *)
Definition distinct_ids (l : list R) : Prop := NoDup (map row_id l).

Lemma row_le_lt (a b : R) : row_le a b -> row_id a <> row_id b -> key_lt (row_key a) (row_key b).
Proof.
  unfold row_le. intros Hab Hid.
  destruct (key_lt_total (row_key a) (row_key b)) as [|[Hk|]]; [done| |done].
  exfalso. apply Hid. by injection Hk.
Qed.

Lemma strongly_sorted_lt (l : list R) :
  StronglySorted row_le l -> distinct_ids l ->
  StronglySorted (fun a b => key_lt (row_key a) (row_key b)) l.
Proof.
  unfold distinct_ids. induction 1 as [|a l Hs IH Hf]; intros Hnd; [constructor|].
  simpl in Hnd. apply NoDup_cons in Hnd as [Hna Hnd]. constructor; [auto|].
  rewrite Forall_forall in Hf |- *. intros b Hb. apply row_le_lt; [auto|].
  intros Heq. apply Hna. rewrite Heq. by apply list_elem_of_fmap_2.
Qed.

Lemma distinct_ids_perm (l l' : list R) : l ≡ₚ l' -> distinct_ids l -> distinct_ids l'.
Proof. unfold distinct_ids. intros Hp. by rewrite Hp. Qed.

Lemma distinct_ids_filter (P : R -> Prop) `{!forall r, Decision (P r)} (l : list R) :
  distinct_ids l -> distinct_ids (filter P l).
Proof.
  unfold distinct_ids. intros Hnd. eapply sublist_NoDup; [exact Hnd|].
  apply fmap_sublist, sublist_filter.
Qed.

Lemma sorted_perm_unique (l l' : list R) :
  StronglySorted row_le l -> StronglySorted row_le l' -> distinct_ids l -> l ≡ₚ l' -> l = l'.
Proof.
  intros Hl Hl' Hnd Hp. apply (StronglySorted_unique_strong row_le); [|done..].
  intros a b Ha Hb Hab Hba. destruct (decide (row_id a = row_id b)) as [He|Hne].
  - unfold distinct_ids in Hnd. rewrite <- Hp in Hb.
    apply list_elem_of_lookup in Ha as [i Hi], Hb as [j Hj].
    assert (i = j); [|naive_solver]. eapply (NoDup_lookup (map row_id l)); [done| |].
    + rewrite list_lookup_fmap, Hi. done.
    + rewrite list_lookup_fmap, Hj, He. done.
  - apply row_le_lt in Hab; [|done]. done.
Qed.

Lemma strongly_sorted_filter (P : R -> Prop) `{!forall r, Decision (P r)} (Rel : relation R) (l : list R) :
  StronglySorted Rel l -> StronglySorted Rel (filter P l).
Proof.
  induction 1 as [|a l Hs IH Hf]; [constructor|]. rewrite filter_cons. case_decide; [|done].
  constructor; [done|]. rewrite Forall_forall in Hf |- *. intros b [_ Hb]%list_elem_of_filter. auto.
Qed.

(** Selecting commutes with ordering. *)
Lemma merge_sort_filter (P : R -> Prop) `{!forall r, Decision (P r)} (l : list R) :
  distinct_ids l -> merge_sort row_le (filter P l) = filter P (merge_sort row_le l).
Proof.
  intros Hnd. apply sorted_perm_unique.
  - apply (StronglySorted_merge_sort row_le).
  - apply strongly_sorted_filter, (StronglySorted_merge_sort row_le).
  - eapply distinct_ids_perm; [symmetry; apply merge_sort_Permutation|]. by apply distinct_ids_filter.
  - rewrite (merge_sort_Permutation row_le). by rewrite (merge_sort_Permutation row_le l).
Qed.

(** The cursor of a request: none, or the key of a row. *)
Definition cursor_of (afterUnix afterID : Z) : option (Z * Z) :=
  if 0 <? afterID then Some (afterUnix, afterID) else None.

Lemma where_cursor_after (u i : Z) (r : R) :
  where_cursor u i r = true <-> is_after row_key key_lt (cursor_of u i) r.
Proof.
  unfold where_cursor, cursor_of, is_after, key_lt, row_key. destruct (0 <? i); simpl; [|done].
  rewrite orb_true_iff, andb_true_iff, !Z.ltb_lt, Z.eqb_eq. intuition lia.
Qed.

(** The rows a read selects, in order, when it is not cut into pages. *)
Definition selection (since until : Z) (tenantID serverID : string) (allTenants : bool) (table : list R) : list R :=
  merge_sort row_le
    (filter (fun r => where_scope since until tenantID serverID allTenants r = true) table).

Lemma selection_sorted since until tenantID serverID allTenants (table : list R) :
  distinct_ids table ->
  StronglySorted (fun a b => key_lt (row_key a) (row_key b))
    (selection since until tenantID serverID allTenants table).
Proof.
  intros Hnd. apply strongly_sorted_lt; [apply (StronglySorted_merge_sort row_le)|].
  eapply distinct_ids_perm; [symmetry; apply merge_sort_Permutation|]. by apply distinct_ids_filter.
Qed.

Lemma select_page_selection since until tenantID serverID allTenants u i limit (table : list R) :
  distinct_ids table ->
  select_page since until tenantID serverID allTenants u i limit table =
  take (Z.to_nat limit)
    (rows_after row_key key_lt (cursor_of u i) (selection since until tenantID serverID allTenants table)).
Proof.
  intros Hnd. unfold select_page, selection, rows_after. f_equal.
  rewrite <- merge_sort_filter by (by apply distinct_ids_filter). f_equal.
  rewrite list_filter_filter. apply list_filter_iff. intros r.
  rewrite andb_true_iff, where_cursor_after. intuition.
Qed.
End row_order.

(** *** Following cursors *)

Section following.
Context {A K : Type} (key : A -> K) (lt : K -> K -> Prop).
Context `{!StrictOrder lt} `{!RelDecision lt}.
Variables (n : nat) (l : list A) (text : option K -> string).
Variable read : string -> result error (page_reply A).

(** [read] serves the page after any key of the listing, and names the key
    of its last row as the next cursor. *)
Definition serves_pages : Prop :=
  forall after, (forall k, after = Some k -> exists a, a ∈ l /\ k = key a) ->
  exists p, read (text after) = Ok p /\ pr_Data p = take n (rows_after key lt after l) /\
    pr_Complete p = (length (pr_Data p) <? n)%nat /\
    (forall a, pr_Complete p = false -> last (pr_Data p) = Some a -> pr_NextCursor p = text (Some (key a))).

Lemma follow_all :
  (0 < n)%nat -> StronglySorted (fun x y => lt (key x) (key y)) l -> serves_pages ->
  forall fuel after, (forall k, after = Some k -> exists a, a ∈ l /\ k = key a) ->
  (length (rows_after key lt after l) < fuel)%nat ->
  follow fuel read (text after) = Some (rows_after key lt after l).
Proof.
  intros Hn Hs Hserve. induction fuel as [|fuel IH]; intros after Hafter Hf; [lia|].
  destruct (Hserve after Hafter) as (p & Hp & Hd & Hc & Hnext). simpl. rewrite Hp.
  rewrite Hc. rewrite Hd in *. destruct (length _ <? n)%nat eqn:E.
  - apply Nat.ltb_lt in E. rewrite length_take in E. f_equal. apply take_ge. lia.
  - pose proof E as E'. apply Nat.ltb_ge in E'. rewrite length_take in E'.
    destruct (last (take n (rows_after key lt after l))) as [a|] eqn:El.
    + assert (Hn' : pr_NextCursor p = text (Some (key a))).
      { by apply Hnext. }
      rewrite Hn'. clear Hn' Hnext.
      pose proof (take_drop n (rows_after key lt after l)) as Htd.
      apply last_Some in El as [q Hq]. rewrite Hq in Htd. rewrite <- app_assoc in Htd. simpl in Htd.
      symmetry in Htd. pose proof (rows_after_last key lt after l q _ a Hs Htd) as Hr.
      rewrite IH.
      * rewrite Hr. f_equal. apply take_drop.
      * intros k [= <-]. exists a. split; [|done].
        assert (Ha : a ∈ rows_after key lt after l) by (rewrite Htd; set_solver).
        by apply list_elem_of_filter in Ha as [_ Ha].
      * rewrite Hr, length_drop. lia.
    + apply last_None in El. apply (f_equal length) in El. rewrite length_take in El. simpl in El. lia.
Qed.
End following.

Definition cursor_text (k : option (Z * Z)) : string :=
  match k with
  | None => empty_str
  | Some (u, i) => Itoa u +:+ ":" +:+ Itoa i
  end.

Lemma Itoa_visible (n : Z) : string_forall visible (Itoa n) = true.
Proof. apply Itoa_forall; [apply is_digit_visible|done]. Qed.
Lemma Itoa_no_colon (n : Z) : string_forall (fun c => negb (Ascii.eqb c ":")) (Itoa n) = true.
Proof. apply Itoa_forall; [apply is_digit_not_colon|done]. Qed.

(** The cursor a reply hands out is the cursor the next request is parsed to. *)
Lemma parseReadPage_cursor (limit : string) (n u i : Z) :
  parse_limit limit DefaultQueryLimit DefaultQueryLimit = Ok n ->
  in_i64 u -> in_i64 i -> 1 <= i ->
  parseReadPage limit (cursor_text (Some (u, i)))
    = Ok {| pg_Limit := n; pg_AfterUnix := u; pg_AfterID := i |}.
Proof.
  intros Hl Hu Hi Hi1. unfold parseReadPage. rewrite Hl. cbn [result_bind].
  assert (Hv : string_forall visible (cursor_text (Some (u, i))) = true).
  { unfold cursor_text. rewrite !string_forall_app, !Itoa_visible. done. }
  rewrite (TrimSpace_visible _ Hv). unfold cursor_text.
  change (":" +:+ Itoa i) with (String ":" (Itoa i)). rewrite Cut_app by apply Itoa_no_colon.
  assert (is_empty (Itoa u +:+ String ":" (Itoa i)) = false) as -> by (by destruct (Itoa u)).
  cbn [negb orb]. rewrite !Itoa_nonempty. cbn [orb]. rewrite !ParseInt_Itoa by done.
  destruct (i <? 1) eqn:E; [bools; lia|done].
Qed.

Lemma parse_limit_bounds (raw : string) (dflt cap n : Z) :
  1 <= dflt <= cap -> parse_limit raw dflt cap = Ok n -> 1 <= n <= cap.
Proof.
  intros Hd. unfold parse_limit. repeat case_match; intros; simplify_eq; [done|].
  bools. lia.
Qed.

(** Row keys a cursor can carry. *)
Definition cursor_key_ok `{Row R} (r : R) : Prop :=
  in_i64 (row_unix r) /\ in_i64 (row_id r) /\ 1 <= row_id r.

Lemma serves_pages_reply `{Row R} (limit : string) (n : Z) (l : list R)
  (read : string -> result error (page_reply R)) :
  parse_limit limit DefaultQueryLimit DefaultQueryLimit = Ok n ->
  Forall cursor_key_ok l ->
  (forall c pg, parseReadPage limit c = Ok pg ->
     read c = Ok (reply_of n (take (Z.to_nat n)
       (rows_after row_key key_lt (cursor_of (pg_AfterUnix pg) (pg_AfterID pg)) l)))) ->
  serves_pages row_key key_lt (Z.to_nat n) l cursor_text read.
Proof.
  intros Hl Hok Hread after Hafter.
  assert (Hn : 1 <= n) by (apply parse_limit_bounds in Hl; unfold DefaultQueryLimit; lia).
  assert (Hpg : exists pg, parseReadPage limit (cursor_text after) = Ok pg /\
                           cursor_of (pg_AfterUnix pg) (pg_AfterID pg) = after).
  { destruct after as [[u i]|].
    - destruct (Hafter _ eq_refl) as (a & Ha & Hk). rewrite Forall_forall in Hok.
      destruct (Hok a Ha) as (Hu & Hi & H1). unfold row_key in Hk. simplify_eq.
      rewrite (parseReadPage_cursor limit n) by done. eexists. split; [done|].
      unfold cursor_of. simpl. destruct (0 <? row_id a) eqn:E; [done|bools; lia].
    - unfold parseReadPage. rewrite Hl. simpl. eauto. }
  destruct Hpg as (pg & Hparse & Hcur). rewrite (Hread _ _ Hparse), Hcur.
  set (p := take (Z.to_nat n) _). eexists. split; [done|]. unfold reply_of.
  assert (Hp : Forall cursor_key_ok p).
  { apply Forall_take. apply Forall_forall. intros r [_ Hr]%list_elem_of_filter.
    rewrite Forall_forall in Hok. auto. }
  destruct (last p) as [r|] eqn:E; simpl.
  - assert (Hr : cursor_key_ok r).
    { rewrite Forall_forall in Hp. apply Hp. apply last_Some in E as [q ->]. set_solver. }
    unfold nextReadCursor. destruct Hr as (_ & _ & Hr).
    destruct (row_id r <? 1) eqn:E1; [bools; lia|]. rewrite orb_false_r.
    destruct (Z.of_nat (length p) <? n) eqn:E2; simpl; (split; [done|]); (split; [bools|]).
    + symmetry. apply Nat.ltb_lt. lia.
    + done.
    + symmetry. apply Nat.ltb_ge. lia.
    + intros a _ Ha. rewrite ?E in Ha. by simplify_eq.
  - apply last_None in E. rewrite E. split; [done|]. split; [|done].
    symmetry. apply Nat.ltb_lt. simpl. lia.
Qed.

(** *** Stored counters *)

Lemma wrap_u64_i64 (z : Z) : in_u64 z -> wrap_u64 (wrap_i64 z) = z.
Proof.
  unfold in_u64, wrap_u64, wrap_i64, max_uint64. intros Hz.
  rewrite Zminus_mod_idemp_l. replace (z + 2 ^ 63 - 2 ^ 63) with z by lia. apply Z.mod_small. lia.
Qed.

Lemma set_metric_set (id : Z) (t s : string) (ts : Z) (f g : Z -> Z) (m : MetricRow) :
  Forall (fun c => g (f c) = c) (counters m) ->
  scan_metric g (set_metric id t s ts f m) = set_metric id t s ts (fun c => c) m.
Proof.
  unfold counters. intros Hf. repeat apply Forall_cons in Hf as [? Hf].
  unfold scan_metric, set_metric. simpl. by f_equal.
Qed.

(** *** Server listing *)

Section servers.
Context `{Collation}.

#[export] Instance coll_le_total : Total coll_le.
Proof.
  intros a b. unfold coll_le. pose proof coll_lt_strict.
  destruct (coll_lt_total a b) as [Hl|[->|Hl]].
  - left. intros Hl'. apply (StrictOrder_Irreflexive a). by trans b.
  - left. apply StrictOrder_Irreflexive.
  - right. intros Hl'. apply (StrictOrder_Irreflexive a). by trans b.
Qed.

#[export] Instance coll_le_trans : Transitive coll_le.
Proof.
  intros a b c H1 H2 Hl. unfold coll_le in *. pose proof coll_lt_strict.
  destruct (coll_lt_total a b) as [Hab|[->|Hab]]; [|done|done]. apply H2. by trans a.
Qed.

#[export] Instance coll_le_antisymm : AntiSymm (=) coll_le.
Proof. intros a b H1 H2. unfold coll_le in *. by destruct (coll_lt_total a b) as [|[|]]. Qed.

(** All servers of a tenant, in order. *)
Definition all_servers (tenant : string) (table : list MetricRow) : list string :=
  merge_sort coll_le
    (remove_dups
       (map m_ServerID (filter (fun r => m_TenantID r = tenant /\ m_ServerID r <> EmptyString) table))).

Lemma all_servers_sorted (tenant : string) (table : list MetricRow) :
  StronglySorted coll_lt (all_servers tenant table).
Proof.
  unfold all_servers. set (l := remove_dups _).
  assert (Hnd : NoDup (merge_sort coll_le l)).
  { rewrite merge_sort_Permutation. apply NoDup_remove_dups. }
  pose proof (StronglySorted_merge_sort coll_le l) as Hs.
  induction Hs as [|a k Hs IH Hf]; [constructor|]. apply NoDup_cons in Hnd as [Hna Hnd].
  constructor; [auto|]. rewrite Forall_forall in Hf |- *. intros b Hb.
  destruct (coll_lt_total a b) as [|[->|]]; [done|done|]. by destruct (Hf b Hb).
Qed.

Lemma select_servers_page (tenant after : string) (limit : Z) (table : list MetricRow) :
  select_servers tenant after limit table =
  take (Z.to_nat limit)
    (rows_after (fun s => s) coll_lt (if is_empty after then None else Some after)
       (all_servers tenant table)).
Proof.
  unfold select_servers, all_servers, rows_after. f_equal. pose proof coll_lt_strict.
  set (base := map m_ServerID _).
  apply (StronglySorted_unique coll_le).
  - apply (StronglySorted_merge_sort coll_le).
  - assert (Hs := StronglySorted_merge_sort coll_le (remove_dups base)).
    induction Hs as [|a k Hs IH Hf]; [constructor|]. rewrite filter_cons. case_decide; [|done].
    constructor; [done|]. rewrite Forall_forall in Hf |- *. intros b [_ Hb]%list_elem_of_filter. auto.
  - rewrite (merge_sort_Permutation coll_le), (merge_sort_Permutation coll_le). apply NoDup_Permutation.
    + apply NoDup_remove_dups.
    + apply NoDup_filter, NoDup_remove_dups.
    + intros x. rewrite list_elem_of_filter, !elem_of_remove_dups, list_elem_of_filter.
      destruct after; simpl; intuition.
Qed.

Lemma all_servers_elem (tenant s : string) (table : list MetricRow) :
  s ∈ all_servers tenant table <->
  s <> EmptyString /\ exists r, r ∈ table /\ m_TenantID r = tenant /\ m_ServerID r = s.
Proof.
  unfold all_servers. rewrite (merge_sort_Permutation coll_le), elem_of_remove_dups.
  rewrite list_elem_of_fmap. setoid_rewrite list_elem_of_filter.
  split; [intros (r & -> & [[? ?] ?]); eauto|intros (? & r & ? & ? & <-); eauto].
Qed.
End servers.

(** An identifier that survives the trimming of a cursor. *)
Definition plain_id (s : string) : Prop := string_forall visible s = true.

Lemma plain_id_no_blank (s : string) : plain_id s -> ContainsAny s blank_chars = false.
Proof.
  unfold plain_id, ContainsAny, string_exists. intros Hs. apply negb_false_iff.
  eapply string_forall_mono; [|exact Hs]. intros c Hc. apply negb_true_iff.
  unfold visible in Hc. bools. unfold blank_chars, bytes. cbn [fold_right mem_char].
  repeat (match goal with |- context [Ascii.eqb ?a ?b] => destruct (Ascii.eqb_spec a b); [subst c|] end);
    try done; vm_compute in *; lia || done.
Qed.

Definition server_text (k : option string) : string := default empty_str k.

Lemma take_string_after `{Collation} (tenant : string) (k : option string) (n : Z) (table : list MetricRow) :
  (forall s, k = Some s -> s <> EmptyString) ->
  select_servers tenant (server_text k) n table =
  take (Z.to_nat n) (rows_after (fun s => s) coll_lt k (all_servers tenant table)).
Proof.
  intros Hk. rewrite select_servers_page. destruct k as [[|c s]|]; simpl; [|done|done].
  by destruct (Hk EmptyString).
Qed.

(** What a row of the answer to [q] satisfies. *)
Definition in_scope `{Row R} (q : MetricQuery) (r : R) : Prop :=
  row_tenant r = q_TenantID q /\
  (q_ServerID q <> EmptyString -> row_server r = q_ServerID q) /\
  Unix (q_Since q) <= Unix (row_time r) /\
  (q_Until q <> zero_time -> Unix (row_time r) <= Unix (q_Until q)).

Lemma where_scope_in_scope `{Row R} (q : MetricQuery) (r : R) :
  where_scope (q_Since q) (q_Until q) (q_TenantID q) (q_ServerID q) false r = true -> in_scope q r.
Proof.
  unfold where_scope, in_scope, row_unix, IsZero. cbn [orb].
  rewrite !andb_true_iff, !orb_true_iff, !Z.leb_le, Z.eqb_eq, !String.eqb_eq.
  intros [[[Hs Hu] Ht] Hv]. split_and!; [done| |done|tauto].
  destruct Hv; [|done]. by destruct (q_ServerID q).
Qed.

Lemma select_page_scoped `{Row R} (q : MetricQuery) (table : list R) (limit : Z) :
  1 <= limit <= DefaultQueryLimit ->
  let rows := select_page (q_Since q) (q_Until q) (q_TenantID q) (q_ServerID q) false
                (q_AfterUnix q) (q_AfterID q) limit table in
  Z.of_nat (length rows) <= DefaultQueryLimit /\ Forall (in_scope q) rows.
Proof.
  intros Hl. unfold select_page. split; [rewrite length_take; lia|].
  apply Forall_take, Forall_forall. intros r. rewrite (merge_sort_Permutation row_le).
  intros [Hr _]%list_elem_of_filter. apply where_scope_in_scope. by bools.
Qed.

Lemma select_page_elem `{Row R} since until tenant server all unix id limit (table : list R) (r : R) :
  r ∈ select_page since until tenant server all unix id limit table -> r ∈ table.
Proof.
  intros [i Hi]%list_elem_of_lookup. unfold select_page in Hi. apply lookup_take_Some in Hi as [Hi _].
  apply list_elem_of_lookup_2 in Hi. rewrite (merge_sort_Permutation row_le) in Hi. by apply list_elem_of_filter in Hi as [_ ?].
Qed.
(** A read never changes the database, and needs a tenant. *)
Lemma wp_QueryMetricsQ (conv : Z -> Z) (q : MetricQuery) (d : rows_db) :
  wp (QueryMetricsQ conv q) (fun r d' => d' = d /\ forall rows, r = Ok rows ->
    RequireTenant_fails (q_TenantID q) = false /\ Z.of_nat (length rows) <= DefaultQueryLimit /\
    exists stored, rows = map (scan_metric conv) stored /\ (forall m, m ∈ stored -> m ∈ d_metrics d) /\
      Forall (in_scope q) stored) d.
Proof.
  unfold QueryMetricsQ. apply wp_mbind, wp_lift. unfold RequireTenant, guard.
  destruct (RequireTenant_fails _) eqn:E; [done|]. apply wp_query; [done|]. split; [done|]. intros rows [= <-].
  split; [done|]. destruct (select_page_scoped q (d_metrics d) _ (boundedLimit_bounds (q_Limit q))) as [H1 H2].
  split; [by rewrite length_map|]. eexists. split; [done|]. split; [|done]. intros m Hm. by eapply select_page_elem.
Qed.
Lemma wp_QueryProcessesQ (q : MetricQuery) (d : rows_db) :
  wp (QueryProcessesQ q) (fun r d' => d' = d /\ forall rows, r = Ok rows ->
    RequireTenant_fails (q_TenantID q) = false /\ Z.of_nat (length rows) <= DefaultQueryLimit /\
    (forall m, m ∈ rows -> m ∈ d_processes d) /\ Forall (in_scope q) rows) d.
Proof.
  unfold QueryProcessesQ, processQuery. apply wp_mbind, wp_lift. unfold RequireTenant, guard.
  destruct (RequireTenant_fails _) eqn:E; [done|]. apply wp_query; [done|]. split; [done|]. intros rows [= <-].
  split; [done|]. destruct (select_page_scoped q (d_processes d) _ (boundedLimit_bounds (q_Limit q))) as [H1 H2].
  split; [done|]. split; [|done]. intros m Hm. by eapply select_page_elem.
Qed.

(** ** Properties *)

(** Sample data: three metrics of one tenant, two in the same second. *)
Definition sample_db : rows_db :=
  run_state
    (let* _ := Postgres.InsertMetric (metric_at (10 * second) "t_a" "s2" f0) in
     let* _ := Postgres.InsertMetric (metric_at (9 * second) "t_a" "s1" f0) in
     let* _ := Postgres.InsertMetric (metric_at (10 * second) "t_a" "s1" f0) in
     Postgres.InsertMetric (metric_at (10 * second) "t_b" "s9" f0)) empty_rows [].

(** Tenant scope: whatever the query, a customer-facing read without a
    tenant is an error, and one with a tenant returns only that tenant's rows,
    within the time window and the server asked for, and at most
    [DefaultQueryLimit] of them; a read never changes the database. *)
Lemma reads_are_tenant_scoped (conv : Z -> Z) (q : MetricQuery) (d : rows_db) (fs : faults) :
  (forall rows, run_result (QueryMetricsQ conv q) d fs = Ok rows ->
     RequireTenant_fails (q_TenantID q) = false /\ Z.of_nat (length rows) <= DefaultQueryLimit /\
     Forall (in_scope q) rows) /\
  (forall rows, run_result (QueryProcessesQ q) d fs = Ok rows ->
     RequireTenant_fails (q_TenantID q) = false /\ Z.of_nat (length rows) <= DefaultQueryLimit /\
     Forall (in_scope q) rows) /\
  run_state (QueryMetricsQ conv q) d fs = d /\ run_state (QueryProcessesQ q) d fs = d.
Proof.
  split; [|split; [|split]].
  - intros rows Hr. unfold run_result in Hr. destruct (QueryMetricsQ conv q d fs) as [[r d'] fs'] eqn:E. simpl in Hr. subst r.
    destruct (wp_run _ _ _ _ _ _ _ (wp_QueryMetricsQ conv q d) E) as [_ Hw].
    destruct (Hw rows eq_refl) as (H1 & H2 & stored & -> & _ & H3). split_and!; [done|done|by apply Forall_map].
  - intros rows Hr. unfold run_result in Hr. destruct (QueryProcessesQ q d fs) as [[r d'] fs'] eqn:E. simpl in Hr. subst r.
    destruct (wp_run _ _ _ _ _ _ _ (wp_QueryProcessesQ q d) E) as [_ Hw].
    destruct (Hw rows eq_refl) as (H1 & H2 & _ & H3). done.
  - apply (wp_run_state _ (fun d' => d' = d)). eapply wp_mono; [apply wp_QueryMetricsQ|]. by intros r d' [-> _].
  - apply (wp_run_state _ (fun d' => d' = d)). eapply wp_mono; [apply wp_QueryProcessesQ|]. by intros r d' [-> _].
Qed.

(** C22. Cursor pagination of the metrics endpoint: on an unchanged database, a
    client that follows [next_cursor] until the reply is complete receives
    every row of its selection exactly once, in (time, id) order, whatever the
    page size; and it terminates. *)
Theorem metrics_pagination_complete (conv : Z -> Z) now tenant rng server limit (d : rows_db) n fuel :
  RequireTenant_fails tenant = false ->
  parse_limit limit DefaultQueryLimit DefaultQueryLimit = Ok n ->
  distinct_ids (d_metrics d) -> Forall cursor_key_ok (d_metrics d) ->
  (length (d_metrics d) < fuel)%nat ->
  follow fuel (fun cursor => run_result (metrics_reply conv now tenant rng server limit cursor) d [])
    empty_str =
  Some (map (scan_metric conv)
          (selection (now - parseRange rng) now tenant server false (d_metrics d))).
Proof.
  intros Ht Hl Hids Hkeys Hfuel.
  set (sel := selection _ _ _ _ _ _).
  assert (Hperm : forall r, r ∈ sel -> r ∈ d_metrics d).
  { intros r. unfold sel, selection. rewrite (merge_sort_Permutation row_le).
    by intros [_ Hr]%list_elem_of_filter. }
  assert (Hlen : (length sel <= length (d_metrics d))%nat).
  { unfold sel, selection. rewrite (merge_sort_Permutation row_le). apply length_filter. }
  assert (Hn : 1 <= n <= DefaultQueryLimit)
    by (apply parse_limit_bounds in Hl; unfold DefaultQueryLimit in *; lia).
  assert (Hafter : forall k, rows_after row_key key_lt k (map (scan_metric conv) sel)
                             = map (scan_metric conv) (rows_after row_key key_lt k sel)).
  { intros k. unfold rows_after. clear. induction sel as [|r l IH]; [done|]. simpl.
    rewrite !filter_cons. rewrite IH. case_decide as H1; case_decide as H2;
      first [done|exfalso; by apply H2|exfalso; by apply H1]. }
  etransitivity; [apply (follow_all row_key key_lt (Z.to_nat n) (map (scan_metric conv) sel) cursor_text _ ltac:(lia)) with (after := None)|].
  - pose proof (selection_sorted (now - parseRange rng) now tenant server false _ Hids) as Hs.
    fold sel in Hs. clear -Hs. induction Hs as [|r l Hs IH Hf]; [constructor|].
    simpl. constructor; [done|]. by rewrite Forall_map.
  - apply (serves_pages_reply limit); [done| |].
    + rewrite Forall_map. apply Forall_forall. intros r Hr%Hperm.
      rewrite Forall_forall in Hkeys. exact (Hkeys r Hr).
    + intros c pg Hc. unfold metrics_reply, queryMetricsPage, QueryMetricsQ, RequireTenant, guard.
      unfold run_result, mbind, lift. rewrite Hc.
      cbn -[RequireTenant_fails IsZero queryLimit select_page reply_of Z.sub parseRange].
      rewrite !Ht. cbn -[IsZero queryLimit select_page reply_of Z.sub parseRange]. change (IsZero zero_time) with true. cbv iota.
      assert (pg_Limit pg = n) as ->.
      { unfold parseReadPage in Hc. rewrite Hl in Hc. simpl in Hc. repeat case_match; by simplify_eq/=. }
      unfold queryLimit. rewrite boundedLimit_id by done.
      rewrite select_page_selection by done. fold sel. rewrite <- firstn_map, Hafter. done.
  - done.
  - rewrite rows_after_none, length_map. lia.
  - by rewrite rows_after_none.
Qed.

Lemma metrics_pagination_complete_witness :
  follow 5 (fun cursor => run_result
    (metrics_reply wrap_u64 (20 * second) "t_a" "24h" empty_str "1" cursor) sample_db []) empty_str =
  Some (map (scan_metric wrap_u64)
          (selection (20 * second - parseRange "24h") (20 * second) "t_a" empty_str false
             (d_metrics sample_db))).
Proof.
  apply (metrics_pagination_complete wrap_u64 (20 * second) "t_a" "24h" empty_str "1" sample_db 1 5).
  - reflexivity.
  - reflexivity.
  - apply (bool_decide_unpack _). vm_compute. exact I.
  - repeat constructor; vm_compute; discriminate.
  - vm_compute. lia.
Defined.

(** The server listing has the same property: following its cursors yields
    every named server of the tenant exactly once, in the order of the
    database, as long as the names survive the trimming of a cursor. *)
Lemma servers_pagination_complete `{Collation} tenant limit (d : rows_db) n fuel :
  RequireTenant_fails tenant = false ->
  parse_limit limit defaultServerLimit defaultServerLimit = Ok n ->
  Forall (fun r => plain_id (m_ServerID r)) (d_metrics d) ->
  (length (all_servers tenant (d_metrics d)) < fuel)%nat ->
  follow fuel (fun cursor => run_result (servers_reply tenant limit cursor) d []) empty_str =
    Some (all_servers tenant (d_metrics d)) /\
  StronglySorted coll_lt (all_servers tenant (d_metrics d)) /\
  forall s, s ∈ all_servers tenant (d_metrics d) <->
    s <> EmptyString /\ exists r, r ∈ d_metrics d /\ m_TenantID r = tenant /\ m_ServerID r = s.
Proof.
  intros Ht Hl Hplain Hfuel.
  assert (Hn : 1 <= n <= defaultServerLimit)
    by (apply parse_limit_bounds in Hl; unfold defaultServerLimit in *; lia).
  split; [|split; [apply all_servers_sorted|intros; apply all_servers_elem]].
  pose proof coll_lt_strict as Hstrict.
  etransitivity;
    [apply (follow_all (fun s => s) coll_lt (Z.to_nat n) (all_servers tenant (d_metrics d)) server_text _
              ltac:(lia)) with (after := None)|].
  - apply all_servers_sorted.
  - intros k Hk.
    assert (Hid : forall s, k = Some s -> s <> EmptyString /\ plain_id s).
    { intros s Hs. destruct (Hk s Hs) as (a & Ha & ->).
      apply all_servers_elem in Ha as (Hne & r & Hr & _ & <-). split; [done|].
      rewrite Forall_forall in Hplain. auto. }
    assert (Hv : plain_id (server_text k)) by (destruct k; [by apply Hid|done]).
    eexists. split.
    + unfold servers_reply, run_result, mbind, lift, parseServerPage. rewrite Hl. cbn [result_bind].
      rewrite (TrimSpace_visible _ Hv), plain_id_no_blank by done.
      unfold QueryServersPage, RequireTenant, guard, mbind, lift. rewrite Ht. simpl. reflexivity.
    + simpl. rewrite boundedLimit_id by (unfold defaultServerLimit, DefaultQueryLimit in *; lia).
      rewrite take_string_after by (intros s Hs; by apply Hid).
      split; [done|]. split.
      * apply eq_bool_prop_intro. rewrite !Is_true_true, Z.ltb_lt, Nat.ltb_lt. lia.
      * by intros a -> ->.
  - done.
  - by rewrite rows_after_none.
  - by rewrite rows_after_none.
Qed.

Lemma servers_pagination_complete_witness :
  follow 5 (fun cursor => run_result (@servers_reply byte_collation "t_a" "1" cursor) sample_db [])
    empty_str = Some (@all_servers byte_collation "t_a" (d_metrics sample_db)).
Proof.
  apply (@servers_pagination_complete byte_collation "t_a" "1" sample_db 1 5).
  - reflexivity.
  - reflexivity.
  - repeat constructor.
  - vm_compute. lia.
Defined.

(** Stored samples come back as they were sent, on both backends: the
    counters survive the conversion to signed columns, the time is cut to the
    second and an absent tenant is the local one; SQLite refuses a counter
    above [MaxInt64] and stores nothing. *)
Lemma insert_metric_roundtrip (m : MetricRow) (d : rows_db) :
  Forall in_u64 (counters m) ->
  let stored := set_metric (d_metric_seq d) (normalizeInsertTenant (m_TenantID m)) (m_ServerID m)
                  (of_unix (Unix (m_Timestamp m))) (fun c => c) m in
  (let '(r, d', _) := Postgres.InsertMetric m d [] in
   r = Ok tt /\ exists row, d_metrics d' = d_metrics d ++ [row] /\ scan_metric wrap_u64 row = stored) /\
  (let '(r, d', _) := SQLite.InsertMetric m d [] in
   if forallb (fun c => c <=? max_int64) (counters m)
   then r = Ok tt /\ d_metrics d' = d_metrics d ++ [stored]
   else r = Err SQLite.errHighBit /\ d' = d).
Proof.
  intros Hu stored. split.
  - unfold Postgres.InsertMetric. simpl. split; [done|]. eexists. split; [done|].
    apply set_metric_set. eapply Forall_impl; [exact Hu|]. intros c Hc. by apply wrap_u64_i64.
  - unfold SQLite.InsertMetric, statement.
    assert (Hneg : existsb (fun c => max_int64 <? c) (counters m)
                   = negb (forallb (fun c => c <=? max_int64) (counters m))).
    { clear. induction (counters m) as [|c l IH]; [done|]. cbn [existsb forallb].
      rewrite IH, negb_andb, Z.ltb_antisym. done. }
    rewrite Hneg. destruct (forallb _ _); done.
Qed.

Lemma insert_metric_roundtrip_witness :
  let m := metric_at (10 * second + 5) empty_str "s1" f0 in
  let '(r, d', _) := SQLite.InsertMetric m empty_rows [] in r = Ok tt.
Proof.
  destruct (insert_metric_roundtrip (metric_at (10 * second + 5) empty_str "s1" f0) empty_rows)
    as [_ Hs].
  - repeat constructor; vm_compute; discriminate.
  - exact (proj1 Hs).
Defined.
