(* ===== verification/Downsample.v ===== *)
(** * The down-sampling kept for reference ([retention/retention.go])

    [downsampleMetrics] and [downsampleProcesses] collapse old rows into hourly
    averages.  Nothing calls them: they are contained because they group rows
    by the hour alone.  This file says what they do, and with it why.

    The averages of the database, and the order in which it lists the groups,
    are parameters. *)

From S2P Require Export Reads.
Open Scope list_scope.
Open Scope Z_scope.

Lemma kept_elem {A : Type} (p : A -> bool) (l : list A) (x : A) : x ∈ List.filter p l <-> x ∈ l /\ p x = true.
Proof. rewrite !list_elem_of_In. apply filter_In. Qed.

(** ** One pass over a table

    [K] is what the rows are grouped by, [window] the condition of the
    [DELETE], [made] the inserted row. *)
Section pass.
Context {R K : Type} `{!EqDecision K}.
Context (bucket : R -> K) (window : K -> R -> bool) (old : R -> bool) (made : K -> list R -> Z -> R).
(** The order of the groups. *)
Context (arrange : list K -> list K).

(** A table: its rows and the next number. *)
Record table := { tb_rows : list R; tb_seq : Z }.

Definition group (k : K) (l : list R) : list R := List.filter (fun r => bool_decide (bucket r = k) && old r) l.
(** [GROUP BY ... HAVING COUNT( * ) > 1] over the old rows. *)
Definition crowded (l : list R) : list (K * list R) :=
  List.filter (fun g => 1 <? Z.of_nat (length g.2))
    (map (fun k => (k, group k l)) (arrange (remove_dups (map bucket (List.filter old l))))).
Definition delete_window (k : K) (t : table) : Z * table :=
  let keep := List.filter (fun r => negb (window k r && old r)) (tb_rows t) in
  (Z.of_nat (length (tb_rows t)) - Z.of_nat (length keep), {| tb_rows := keep; tb_seq := tb_seq t |}).
Definition insert_average (k : K) (g : list R) (t : table) : unit * table :=
  (tt, {| tb_rows := tb_rows t ++ [made k g (tb_seq t)]; tb_seq := tb_seq t + 1 |}).
(** The loop over the averages; the result is [collapsed]. *)
Fixpoint collapse (gs : list (K * list R)) (collapsed : Z) : M table Z :=
  match gs with
  | [] => ret collapsed
  | (k, g) :: gs =>
      let* n := exec (delete_window k) in
      let* _ := exec (insert_average k g) in
      collapse gs (collapsed + n)
  end.
Definition downsample : M table Z :=
  transaction (let* gs := query (fun t => crowded (tb_rows t)) in collapse gs 0).

(** *** What a pass does *)

Context (arrange_perm : forall l, arrange l ≡ₚ l).

(** The rows that share their bucket with another old row. *)
Definition shares (l : list R) (r : R) : bool := old r && (1 <? Z.of_nat (length (group (bucket r) l))).

Lemma crowded_spec l k g : (k, g) ∈ crowded l <-> g = group k l /\ 1 < Z.of_nat (length g).
Proof.
  unfold crowded. rewrite kept_elem. cbn [snd]. rewrite Z.ltb_lt. split.
  - intros [(k' & [= -> ->] & _)%list_elem_of_fmap Hl]. done.
  - intros [-> Hl]. split; [|done]. apply list_elem_of_fmap. exists k. split; [done|]. rewrite arrange_perm.
    apply elem_of_remove_dups. destruct (group k l) as [|r g] eqn:Eg; [simpl in Hl; lia|].
    assert (Hr : r ∈ group k l) by (rewrite Eg; by left).
    unfold group in Hr. apply kept_elem in Hr as [Hr Hb]. bools. subst k. apply list_elem_of_fmap_2. by apply kept_elem.
Qed.
Lemma crowded_distinct l : NoDup (map fst (crowded l)).
Proof.
  unfold crowded. assert (Hsub : forall p (gs : list (K * list R)), map fst (List.filter p gs) `sublist_of` map fst gs).
  { intros p gs. induction gs as [|x gs IH]; simpl; [constructor|]. destruct (p x); simpl; by constructor. }
  eapply sublist_NoDup; [|apply Hsub]. rewrite map_map. simpl. rewrite map_id, arrange_perm. apply NoDup_remove_dups.
Qed.

(** Rows and keys for which the window is the bucket. *)
Context (valid : R -> Prop) (valid_key : K -> Prop).
Context (window_bucket : forall k r, valid_key k -> valid r -> window k r && old r = bool_decide (bucket r = k) && old r)
        (made_bucket : forall k g i, valid_key k -> valid (made k g i) /\ bucket (made k g i) = k)
        (bucket_valid : forall r, valid r -> valid_key (bucket r)).

Fixpoint averages (gs : list (K * list R)) (seq : Z) : list R :=
  match gs with
  | [] => []
  | (k, g) :: gs => made k g seq :: averages gs (seq + 1)
  end.
Definition spared (ks : list K) (r : R) : bool := negb (old r && bool_decide (bucket r ∈ ks)).
Lemma filter_and {A : Type} (p q : A -> bool) (l : list A) :
  List.filter p (List.filter q l) = List.filter (fun x => q x && p x) l.
Proof. induction l as [|x l IH]; [done|]. simpl. destruct (q x); simpl; [destruct (p x)|]; by rewrite IH. Qed.
Lemma spared_cons k ks r : valid_key k -> valid r -> negb (window k r && old r) && spared ks r = spared (k :: ks) r.
Proof.
  intros Hk Hv. rewrite (window_bucket k r Hk Hv). unfold spared. destruct (old r); simpl; [|by rewrite andb_false_r].
  rewrite andb_true_r. destruct (decide (bucket r = k)) as [->|Hne].
  - rewrite (bool_decide_eq_true_2 (k = k)), (bool_decide_eq_true_2 (k ∈ k :: ks)) by (done || by left). done.
  - rewrite (bool_decide_eq_false_2 (bucket r = k)) by done. simpl. f_equal. apply bool_decide_ext. rewrite elem_of_cons. tauto.
Qed.
Lemma filter_agree {A : Type} (p q : A -> bool) (l : list A) :
  Forall (fun x => p x = q x) l -> List.filter p l = List.filter q l.
Proof. induction 1 as [|x l Hx _ IH]; [done|]. simpl. by rewrite Hx, IH. Qed.

Lemma wp_collapse gs n t :
  NoDup (map fst gs) -> Forall valid (tb_rows t) -> Forall valid_key (map fst gs) ->
  wp (collapse gs n) (fun r t' => is_ok r = true ->
    tb_rows t' = List.filter (spared (map fst gs)) (tb_rows t) ++ averages gs (tb_seq t)) t.
Proof.
  revert n t. induction gs as [|[k g] gs IH]; intros n t Hnd Hv Hk; simpl.
  - apply wp_ret. intros _. rewrite app_nil_r. rewrite (filter_agree _ (fun _ => true)).
    + induction (tb_rows t) as [|r l IHl]; [done|]. simpl. f_equal. apply IHl. by apply Forall_cons in Hv as [_ ?].
    + apply Forall_forall. intros r _. unfold spared. rewrite bool_decide_eq_false_2 by apply not_elem_of_nil.
      by rewrite andb_false_r.
  - apply NoDup_cons in Hnd as [Hnot Hnd]. apply Forall_cons in Hk as [Hk1 Hk]. apply wp_mbind, wp_exec; try done.
    apply wp_mbind, wp_exec; try done. destruct (made_bucket k g (tb_seq t) Hk1) as [Hmv Hmb].
    eapply wp_mono; [apply IH; [done| |done]|].
    { simpl. apply Forall_app_2; [|by apply Forall_singleton]. apply Forall_forall. intros r [Hr _]%kept_elem.
      rewrite Forall_forall in Hv. by apply Hv. }
    intros r t' Hr Hok. rewrite (Hr Hok). simpl. rewrite List.filter_app, filter_and.
    assert (Hm : List.filter (spared (map fst gs)) [made k g (tb_seq t)] = [made k g (tb_seq t)]).
    { simpl. unfold spared. rewrite Hmb, (bool_decide_eq_false_2 (k ∈ map fst gs)), andb_false_r by done. done. }
    rewrite Hm, <- app_assoc. simpl. f_equal. apply filter_agree. eapply Forall_impl; [exact Hv|]. intros x Hx.
    by apply spared_cons.
Qed.

(** Either nothing happened, or every bucket with more than one old row has
    only its average left, under a new number. *)
Lemma downsample_spec t fs :
  Forall valid (tb_rows t) ->
  let t' := run_state downsample t fs in
  t' = t \/
  tb_rows t' = List.filter (fun r => negb (shares (tb_rows t) r)) (tb_rows t) ++ averages (crowded (tb_rows t)) (tb_seq t).
Proof.
  intros Hv. unfold run_state, downsample. destruct (transaction _ t fs) as [[r t'] fs'] eqn:E. cbn [fst snd].
  apply transaction_inv in E as [[-> _]|(n & fs1 & fs2 & Hb & _)]; [by left|right].
  apply mbind_ok in Hb as (gs & t1 & fs3 & Hq & Hc). apply query_ok in Hq as [-> ->].
  assert (Hkeys : Forall valid_key (map fst (crowded (tb_rows t)))).
  { apply Forall_forall. intros k ([k' g] & -> & [Hg Hl]%crowded_spec)%list_elem_of_fmap. simpl.
    destruct g as [|r0 g]; [simpl in Hl; lia|]. assert (Hr : r0 ∈ group k' (tb_rows t)) by (rewrite <- Hg; by left).
    apply kept_elem in Hr as [Hr Hbk]. bools. subst k'. apply bucket_valid. rewrite Forall_forall in Hv. by apply Hv. }
  pose proof (wp_run _ _ _ _ _ _ _ (wp_collapse _ 0 t (crowded_distinct _) Hv Hkeys) Hc eq_refl) as ->.
  f_equal. apply filter_agree, Forall_forall. intros x Hx. unfold spared, shares. f_equal. destruct (old x) eqn:Eo; [|done]. simpl.
  destruct (Z.ltb_spec 1 (Z.of_nat (length (group (bucket x) (tb_rows t))))).
  - apply bool_decide_eq_true_2, list_elem_of_fmap. exists (bucket x, group (bucket x) (tb_rows t)). split; [done|].
    by apply crowded_spec.
  - apply bool_decide_eq_false_2. intros ([k g] & Hk & [-> Hl]%crowded_spec)%list_elem_of_fmap. simpl in Hk. subst k. lia.
Qed.
End pass.

(** ** The two tables *)

Section tables.
(** [AVG] of floating-point numbers, and [CAST(AVG(...) AS INTEGER)]. *)
Context (avg_f : list float64 -> float64) (avg_i : list Z -> Z).
Context (arrange_hours : list Z -> list Z) (arrange_names : list (Z * string) -> list (Z * string)).

Definition hour_ts (ts : Z) : Z := (ts `quot` 3600) * 3600.
Definition in_hour (hourTS ts : Z) : bool := (hourTS <=? ts) && (ts <? hourTS + 3600).
Definition older {R : Type} `{Row R} (cutoff : Z) (r : R) : bool := row_unix r <? Unix cutoff.

(** The inserted row: the columns it does not name get their defaults. *)
Definition average_metric (hourTS : Z) (g : list MetricRow) (id : Z) : MetricRow :=
  {| m_ID := id; m_Timestamp := of_unix hourTS; m_TenantID := EmptyString; m_ServerID := EmptyString; m_Hostname := EmptyString;
     m_CPUPct := avg_f (map m_CPUPct g); m_MemPct := avg_f (map m_MemPct g); m_DiskFreeGB := avg_f (map m_DiskFreeGB g);
     m_NetSentBytes := avg_i (map m_NetSentBytes g); m_NetRecvBytes := avg_i (map m_NetRecvBytes g); m_CPUCores := 0;
     m_MemTotalGB := f0; m_DiskTotalGB := f0; m_DiskReadOps := 0; m_DiskWriteOps := 0;
     m_DiskIOPS := avg_f (map m_DiskIOPS g); m_NetMBps := avg_f (map m_NetMBps g);
     m_ConcurrentUsers := avg_i (map m_ConcurrentUsers g); m_NetSentExternal := 0; m_NetRecvExternal := 0;
     m_NetSentInternal := 0; m_NetRecvInternal := 0 |}.
Definition average_process (k : Z * string) (g : list ProcessRow) (id : Z) : ProcessRow :=
  {| p_ID := id; p_Timestamp := of_unix k.1; p_TenantID := EmptyString; p_ServerID := EmptyString; p_Hostname := EmptyString;
     p_PID := avg_i (map p_PID g); p_Name := k.2; p_CPUPct := avg_f (map p_CPUPct g); p_MemMB := avg_f (map p_MemMB g) |}.

Definition metric_table (d : rows_db) : table := {| tb_rows := d_metrics d; tb_seq := d_metric_seq d |}.
Definition with_metric_table (t : table) (d : rows_db) : rows_db :=
  {| d_metrics := tb_rows t; d_metric_seq := tb_seq t; d_processes := d_processes d; d_process_seq := d_process_seq d |}.
Definition process_table (d : rows_db) : table := {| tb_rows := d_processes d; tb_seq := d_process_seq d |}.
Definition with_process_table (t : table) (d : rows_db) : rows_db :=
  {| d_metrics := d_metrics d; d_metric_seq := d_metric_seq d; d_processes := tb_rows t; d_process_seq := tb_seq t |}.

Definition metric_hour (r : MetricRow) : Z := hour_ts (row_unix r).
Definition process_hour (r : ProcessRow) : Z * string := (hour_ts (row_unix r), p_Name r).
Definition metric_window (k : Z) (r : MetricRow) : bool := in_hour k (row_unix r).
Definition process_window (k : Z * string) (r : ProcessRow) : bool := in_hour k.1 (row_unix r) && String.eqb (p_Name r) k.2.
(** The number of rows that were collapsed. *)
Definition downsampleMetrics (cutoff : Z) : M rows_db Z :=
  zoom metric_table with_metric_table
    (downsample metric_hour metric_window (older cutoff) average_metric arrange_hours).
Definition downsampleProcesses (cutoff : Z) : M rows_db Z :=
  zoom process_table with_process_table
    (downsample process_hour process_window (older cutoff) average_process arrange_names).

(** ** What they do *)

Context (hours_perm : forall l, arrange_hours l ≡ₚ l) (names_perm : forall l, arrange_names l ≡ₚ l).

Lemma hour_window ts k : 0 <= ts -> k `mod` 3600 = 0 -> in_hour k ts = bool_decide (hour_ts ts = k).
Proof.
  intros Ht Hk. unfold in_hour, hour_ts. rewrite Z.quot_div_nonneg by lia. pose proof (Z.div_mod ts 3600 ltac:(lia)).
  pose proof (Z.mod_pos_bound ts 3600 ltac:(lia)). pose proof (Z.div_mod k 3600 ltac:(lia)).
  destruct (Z.leb_spec k ts), (Z.ltb_spec ts (k + 3600)); simpl; symmetry;
    (apply bool_decide_eq_true_2 || apply bool_decide_eq_false_2); nia.
Qed.
Lemma hour_mod ts : 0 <= ts -> hour_ts ts `mod` 3600 = 0 /\ 0 <= hour_ts ts.
Proof.
  intros Ht. unfold hour_ts. rewrite Z.quot_div_nonneg by lia. split; [apply Z.mod_mul; lia|].
  pose proof (Z.div_pos ts 3600 Ht ltac:(lia)). lia.
Qed.
Definition key_ok (k : Z) : Prop := k `mod` 3600 = 0 /\ 0 <= k.
Lemma hour_of_hour k : key_ok k -> hour_ts k = k.
Proof.
  intros [Hk Hp]. unfold hour_ts. rewrite Z.quot_div_nonneg by lia. pose proof (Z.div_mod k 3600 ltac:(lia)). lia.
Qed.
Lemma unix_of_unix k : Unix (of_unix k) = k.
Proof. unfold Unix, of_unix, second. apply Z.div_mul. lia. Qed.

(** Down-sampling takes rows from their owners.  A run changes nothing, or the
    metrics that shared their hour with any other old metric - of whatever
    tenant and machine - are gone, and in their place is one row per hour that
    belongs to nobody; everything else stays. *)
Lemma downsampling_orphans_metrics cutoff d fs :
  Forall (fun r => 0 <= row_unix r) (d_metrics d) ->
  let d' := run_state (downsampleMetrics cutoff) d fs in
  d_processes d' = d_processes d /\
  (d_metrics d' = d_metrics d \/
   exists made, d_metrics d' = List.filter (fun r => negb (shares metric_hour (older cutoff) (d_metrics d) r)) (d_metrics d) ++ made /\
     Forall (fun r => m_TenantID r = EmptyString /\ m_ServerID r = EmptyString /\ m_Hostname r = EmptyString) made).
Proof.
  intros Hv. pose proof (downsample_spec metric_hour metric_window (older cutoff) average_metric arrange_hours hours_perm
    (fun r => 0 <= row_unix r) key_ok) as Hspec.
  specialize (Hspec ltac:(intros k r [Hk _] Hr; unfold metric_window; by rewrite (hour_window _ k Hr Hk))).
  specialize (Hspec ltac:(intros k g i Hk; unfold metric_hour, row_unix; simpl; rewrite unix_of_unix; split; [apply Hk|by apply hour_of_hour])).
  specialize (Hspec ltac:(intros r Hr; by apply hour_mod)).
  specialize (Hspec (metric_table d) fs Hv). unfold run_state, downsampleMetrics, zoom in *.
  destruct (downsample _ _ _ _ _ (metric_table d) fs) as [[r t] fs']. simpl in *. split; [done|].
  destruct Hspec as [-> | ->]; [by left|right]. eexists. split; [done|].
  generalize (d_metric_seq d). generalize (crowded metric_hour (older cutoff) arrange_hours (d_metrics d)).
  induction l as [|[k g] gs IH]; intros seq; simpl; [constructor|]. by constructor.
Qed.
Lemma downsampling_orphans_processes cutoff d fs :
  Forall (fun r => 0 <= row_unix r) (d_processes d) ->
  let d' := run_state (downsampleProcesses cutoff) d fs in
  d_metrics d' = d_metrics d /\
  (d_processes d' = d_processes d \/
   exists made, d_processes d' = List.filter (fun r => negb (shares process_hour (older cutoff) (d_processes d) r)) (d_processes d) ++ made /\
     Forall (fun r => p_TenantID r = EmptyString /\ p_ServerID r = EmptyString /\ p_Hostname r = EmptyString) made).
Proof.
  intros Hv. pose proof (downsample_spec process_hour process_window (older cutoff) average_process arrange_names names_perm
    (fun r => 0 <= row_unix r) (fun k => key_ok k.1)) as Hspec.
  assert (Hw : forall k r, key_ok k.1 -> 0 <= row_unix r ->
    process_window k r && older cutoff r = bool_decide (process_hour r = k) && older cutoff r).
  { intros [k name] r [Hk _] Hr. unfold process_window, process_hour. cbn [fst snd]. rewrite (hour_window _ k Hr Hk). f_equal.
    destruct (String.eqb_spec (p_Name r) name) as [<-|Hn].
    - rewrite andb_true_r. apply bool_decide_ext. split; [by intros ->|by intros [= ->]].
    - rewrite andb_false_r. symmetry. apply bool_decide_eq_false_2. congruence. }
  specialize (Hspec Hw).
  specialize (Hspec ltac:(intros [k name] g i Hk; unfold process_hour, row_unix; simpl; rewrite unix_of_unix; split; [apply Hk|by rewrite (hour_of_hour k Hk)])).
  specialize (Hspec ltac:(intros r Hr; by apply hour_mod)).
  specialize (Hspec (process_table d) fs Hv). unfold run_state, downsampleProcesses, zoom in *.
  destruct (downsample _ _ _ _ _ (process_table d) fs) as [[r t] fs']. simpl in *. split; [done|].
  destruct Hspec as [-> | ->]; [by left|right]. eexists. split; [done|].
  generalize (d_process_seq d). generalize (crowded process_hour (older cutoff) arrange_names (d_processes d)).
  induction l as [|[k g] gs IH]; intros seq; simpl; [constructor|]. by constructor.
Qed.
End tables.

(** Two tenants lose their only samples to one row of nobody's. *)
Example tenants_are_merged :
  let d := {| d_metrics := [metric_at (3600 * second) "t_a" "s1" (f_of_Z 10); metric_at (3700 * second) "t_b" "s2" (f_of_Z 90)];
              d_metric_seq := 3; d_processes := []; d_process_seq := 1 |} in
  map (fun r => (m_TenantID r, m_ServerID r, row_unix r))
    (d_metrics (run_state (downsampleMetrics (fun _ => f0) (fun _ => 0) (fun l => l) (9000 * second)) d [])) =
  [(empty_str, empty_str, 3600)].
Proof. vm_compute. reflexivity. Qed.
