(* ===== verification/Ingest.v ===== *)
(** * Atomic ingestion ([storage/ingest.go], [storage/ingest_contract.go])

    A batch of events is validated, then one transaction records a receipt
    per event, charges the tenant's and the agent's daily budgets and stores
    the rows.  The JSON encoding of an event and its SHA-256 digest are
    parameters: the code only compares digests.  [DecodeIngest] is modelled
    on the token stream of [encoding/json]. *)

From S2P Require Export Reads.
Open Scope list_scope.
Open Scope Z_scope.

(** ** Contract ([ingest_contract.go]) *)

Definition IngestSchema : string := "zeus.ingest.v1".
Definition MaxBatchEvents : Z := 64.
Definition MaxBatchBytes : Z := Z.shiftl 256 10.
Definition MaxEventAge : Z := 30 * 24 * hour.

Definition ErrEventConflict : error := EMsg "ingest: event identity already has different content".
Definition ErrAcceptedBudget : error := EMsg "ingest: accepted-data budget exhausted".

Record IngestEvent := {
  ev_EventID : string;
  ev_BootID : string;
  ev_Sequence : Z;
  ev_Metric : option MetricRow;
  ev_Process : option ProcessRow
}.
Record IngestBatch := { ib_SchemaVersion : string; ib_Events : list IngestEvent }.
Record IngestOutcome := { io_EventID : string; io_Status : string }.
Record IngestPolicy := {
  ip_DailyRows : Z;
  ip_DailyBytes : Z;
  ip_AgentDailyRows : Z;
  ip_AgentDailyBytes : Z
}.

Definition DefaultIngestPolicy : IngestPolicy :=
  {| ip_DailyRows := 20000000; ip_DailyBytes := Z.shiftl 20 30;
     ip_AgentDailyRows := 250000; ip_AgentDailyBytes := Z.shiftl 256 20 |}.

Definition policy_Validate (p : IngestPolicy) : result error unit :=
  guard ((ip_DailyRows p <? 1) || (ip_DailyBytes p <? MaxBatchBytes) ||
         (ip_AgentDailyRows p <? 1) || (ip_AgentDailyBytes p <? MaxBatchBytes) ||
         (ip_DailyRows p <? ip_AgentDailyRows p) || (ip_DailyBytes p <? ip_AgentDailyBytes p))
    (EMsg "ingest: invalid tenant/agent budget configuration").

(** [^[a-zA-Z0-9_.:-]{1,128}$] *)
Definition identifier_char (c : ascii) : bool :=
  ((97 <=? code c) && (code c <=? 122)) || ((65 <=? code c) && (code c <=? 90)) ||
  is_digit c || mem_char c "_.:-".
Definition eventIdentifier (s : string) : bool :=
  string_forall identifier_char s && (1 <=? slen s) && (slen s <=? 128).

Definition validMeasurement (values : list float64) : bool :=
  forallb (fun v => negb (is_nan v || is_inf v || flt v f0 || fgt v (f_of_Z (10 ^ 15)))) values.

Definition other_owner (claimed own : string) : bool :=
  negb (is_empty claimed) && negb (String.eqb claimed own).

Definition metric_invalid (tenant agent : string) (m : MetricRow) : bool :=
  negb (m_ID m =? 0) || other_owner (m_TenantID m) tenant || other_owner (m_ServerID m) agent ||
  (256 <? slen (m_Hostname m)) ||
  negb (validMeasurement [m_CPUPct m; m_MemPct m; m_DiskFreeGB m; m_MemTotalGB m; m_DiskTotalGB m;
                          m_DiskIOPS m; m_NetMBps m]) ||
  fgt (m_CPUPct m) (f_of_Z 100) || fgt (m_MemPct m) (f_of_Z 100) ||
  (m_CPUCores m <? 0) || (1000000 <? m_CPUCores m) ||
  (m_ConcurrentUsers m <? 0) || (1000000000 <? m_ConcurrentUsers m).
Definition process_invalid (tenant agent : string) (p : ProcessRow) : bool :=
  negb (p_ID p =? 0) || other_owner (p_TenantID p) tenant || other_owner (p_ServerID p) agent ||
  (256 <? slen (p_Hostname p)) || is_empty (p_Name p) || (512 <? slen (p_Name p)) ||
  (p_PID p <? 0) || negb (validMeasurement [p_CPUPct p; p_MemMB p]).

Definition errScope : error := EMsg "ingest: invalid scope, schema or batch cardinality".
Definition errIdentity : error := EMsg "ingest: invalid or repeated event identity".
Definition errMetric : error := EMsg "ingest: invalid metric identity or values".
Definition errCounter : error := EMsg "ingest: counter exceeds signed storage range".
Definition errProcess : error := EMsg "ingest: invalid process identity or values".
Definition errWindow : error := EMsg "ingest: timestamp outside the supported 30-day delivery window".

(** One iteration of the loop: the normalised event. *)
Definition normalize_event (tenant agent : string) (now : Z) (seen : list string) (e : IngestEvent)
  : result error IngestEvent :=
  let? _ := guard (negb (eventIdentifier (ev_EventID e)) || negb (eventIdentifier (ev_BootID e)) ||
                   (ev_Sequence e =? 0) || (max_int64 <? ev_Sequence e) ||
                   existsb (String.eqb (ev_EventID e)) seen ||
                   Bool.eqb (negb (is_some (ev_Metric e))) (negb (is_some (ev_Process e)))) errIdentity in
  let? e' :=
    match ev_Metric e, ev_Process e with
    | Some m, p =>
        let? _ := guard (metric_invalid tenant agent m) errMetric in
        let? _ := guard (existsb (fun c => max_int64 <? c) (counters m)) errCounter in
        Ok (m_Timestamp m,
            {| ev_EventID := ev_EventID e; ev_BootID := ev_BootID e; ev_Sequence := ev_Sequence e;
               ev_Metric := Some (set_metric (m_ID m) tenant agent (m_Timestamp m) (fun c => c) m);
               ev_Process := p |})
    | None, Some p =>
        let? _ := guard (process_invalid tenant agent p) errProcess in
        Ok (p_Timestamp p,
            {| ev_EventID := ev_EventID e; ev_BootID := ev_BootID e; ev_Sequence := ev_Sequence e;
               ev_Metric := None;
               ev_Process := Some (set_process (p_ID p) tenant agent (p_Timestamp p) p) |})
    | None, None => Err errIdentity
    end in
  let '(timestamp, e') := e' in
  let? _ := guard (IsZero timestamp || After timestamp (now + minute) ||
                   Before timestamp (now - MaxEventAge)) errWindow in
  Ok e'.

Fixpoint normalize_events (tenant agent : string) (now : Z) (seen : list string) (es : list IngestEvent)
  : result error (list IngestEvent) :=
  match es with
  | [] => Ok []
  | e :: es' =>
      let? e' := normalize_event tenant agent now seen e in
      let? rest := normalize_events tenant agent now (ev_EventID e :: seen) es' in
      Ok (e' :: rest)
  end.

Definition NormalizeIngest (batch : IngestBatch) (tenant agent : string) (now : Z)
  : result error (list IngestEvent) :=
  let? _ := guard (RequireTenant_fails tenant || is_empty agent || (256 <? slen agent) ||
                   negb (String.eqb (ib_SchemaVersion batch) IngestSchema) ||
                   bool_decide (ib_Events batch = []) ||
                   (MaxBatchEvents <? Z.of_nat (length (ib_Events batch)))) errScope in
  normalize_events tenant agent now [] (ib_Events batch).

(** ** Decoding ([DecodeIngest]) *)

(** The tokens of [encoding/json] with [UseNumber]; a syntax error ends the
    stream with [TBad]. *)
Inductive token :=
| TDelim (open : bool) (array : bool)
| TStr (s : string)
| TScalar
| TBad.

Definition errDepth : error := EMsg "ingest: JSON nesting limit exceeded".
Definition errKey : error := EMsg "ingest: duplicate or invalid object key".
Definition errDelim : error := EMsg "ingest: unexpected JSON delimiter".
Definition errSyntax : error := EMsg "json: syntax error".
Definition errEOF : error := EMsg "EOF".

(** [dec.Token()] and [dec.More()] *)
Definition Token (ts : list token) : result error (token * list token) :=
  match ts with
  | [] => Err errEOF
  | TBad :: _ => Err errSyntax
  | t :: ts' => Ok (t, ts')
  end.
Definition More (ts : list token) : bool :=
  match ts with
  | [] => false
  | TDelim false _ :: _ => false
  | _ => true
  end.

(** The fuel is the number of tokens: every value reads at least one. *)
Fixpoint inspectJSONValue (fuel : nat) (ts : list token) (depth : Z) : result error (list token) :=
  match fuel with
  | O => Err errEOF
  | S fuel' =>
      let? _ := guard (16 <? depth) errDepth in
      let? tk := Token ts in
      match tk with
      | (TDelim true true, ts1) =>
          (fix elements (n : nat) (ts : list token) : result error (list token) :=
             match n with
             | O => Err errEOF
             | S n' =>
                 if More ts then
                   let? ts' := inspectJSONValue fuel' ts (depth + 1) in elements n' ts'
                 else let? tk := Token ts in Ok tk.2
             end) fuel' ts1
      | (TDelim true false, ts1) =>
          (fix members (n : nat) (seen : list string) (ts : list token) : result error (list token) :=
             match n with
             | O => Err errEOF
             | S n' =>
                 if More ts then
                   let? tk := Token ts in
                   match tk with
                   | (TStr name, ts') =>
                       let? _ := guard (existsb (String.eqb name) seen) errKey in
                       let? ts'' := inspectJSONValue fuel' ts' (depth + 1) in
                       members n' (name :: seen) ts''
                   | _ => Err errKey
                   end
                 else let? tk := Token ts in Ok tk.2
             end) fuel' [] ts1
      | (TDelim false _, _) => Err errDelim
      | (_, ts1) => Ok ts1
      end
  end.

(** [tokenize] is the decoder's token stream and [decode] its typed decoding
    with [DisallowUnknownFields]. *)
Definition DecodeIngest {T : Type} (tokenize : string -> list token) (decode : string -> result error T)
  (body : string) : result error T :=
  let? _ := guard ((slen body =? 0) || (MaxBatchBytes <? slen body)) (EMsg "ingest: invalid body size") in
  let ts := tokenize body in
  let? rest := inspectJSONValue (S (length ts)) ts 0 in
  let? _ := guard (match Token rest with
                   | Err e => negb (bool_decide (e = errEOF))
                   | Ok _ => true
                   end) (EMsg "ingest: trailing JSON") in
  decode body.

(** ** The transaction ([ingest.go]) *)

Record receipt := {
  rc_tenant : string;
  rc_agent : string;
  rc_event : string;
  rc_boot : string;
  rc_seq : Z;
  rc_hash : string;
  rc_received : Z;
  rc_bytes : Z
}.
Record ingest_db := {
  i_rows : rows_db;
  i_receipts : list receipt;
  i_budgets : gmap (string * string * Z) (Z * Z)
}.
Definition empty_ingest : ingest_db := {| i_rows := empty_rows; i_receipts := []; i_budgets := ∅ |}.

Definition with_rows (f : rows_db -> rows_db) (d : ingest_db) : ingest_db :=
  {| i_rows := f (i_rows d); i_receipts := i_receipts d; i_budgets := i_budgets d |}.
Definition with_budgets (b : gmap (string * string * Z) (Z * Z)) (d : ingest_db) : ingest_db :=
  {| i_rows := i_rows d; i_receipts := i_receipts d; i_budgets := b |}.

Definition same_event (tenant agent event : string) (r : receipt) : bool :=
  String.eqb (rc_tenant r) tenant && String.eqb (rc_agent r) agent && String.eqb (rc_event r) event.
Definition same_slot (tenant agent boot : string) (seq : Z) (r : receipt) : bool :=
  String.eqb (rc_tenant r) tenant && String.eqb (rc_agent r) agent && String.eqb (rc_boot r) boot &&
  (rc_seq r =? seq).

(** [INSERT ... ON CONFLICT DO NOTHING] under both unique constraints; the
    number of rows inserted. *)
Definition insert_receipt (r : receipt) (d : ingest_db) : Z * ingest_db :=
  if existsb (fun r' => same_event (rc_tenant r) (rc_agent r) (rc_event r) r' ||
                        same_slot (rc_tenant r) (rc_agent r) (rc_boot r) (rc_seq r) r') (i_receipts d)
  then (0, d)
  else (1, {| i_rows := i_rows d; i_receipts := i_receipts d ++ [r]; i_budgets := i_budgets d |}).

Definition ensure_budget (k : string * string * Z) (d : ingest_db) : unit * ingest_db :=
  (tt, match i_budgets d !! k with
       | Some _ => d
       | None => with_budgets (<[k := (0, 0)]> (i_budgets d)) d
       end).
(** The conditional [UPDATE]; the number of rows updated. *)
Definition charge_budget (k : string * string * Z) (len rows bytes : Z) (d : ingest_db) : Z * ingest_db :=
  match i_budgets d !! k with
  | Some (r, b) =>
      if (r <? rows) && (b <=? bytes - len)
      then (1, with_budgets (<[k := (r + 1, b + len)]> (i_budgets d)) d)
      else (0, d)
  | None => (0, d)
  end.

Definition accepted (id : string) : IngestOutcome := {| io_EventID := id; io_Status := "accepted" |}.
Definition duplicate (id : string) : IngestOutcome := {| io_EventID := id; io_Status := "duplicate" |}.

Section ingest.
Variable marshal : IngestEvent -> result error string.
Variable sha256hex : string -> string.

Definition charge (tenant actor : string) (day len rows bytes : Z) : M ingest_db unit :=
  let* _ := exec (ensure_budget (tenant, actor, day)) in
  let* n := exec (charge_budget (tenant, actor, day) len rows bytes) in
  if n =? 1 then ret tt else fail ErrAcceptedBudget.

Definition insert_event (tenant agent : string) (e : IngestEvent) (d : rows_db) : rows_db :=
  match ev_Metric e, ev_Process e with
  | Some m, _ => insert_metric_row tenant agent wrap_i64 m d
  | None, Some p => insert_process_row tenant agent p d
  | None, None => d
  end.

(** The body of the loop over the events. *)
Definition accept_event (tenant agent : string) (policy : IngestPolicy) (now : Z) (e : IngestEvent)
  : M ingest_db IngestOutcome :=
  let* body := lift (marshal e) in
  let contentHash := sha256hex body in
  let len := slen body in
  let day := utc_day now in
  let* n := exec (insert_receipt
    {| rc_tenant := tenant; rc_agent := agent; rc_event := ev_EventID e; rc_boot := ev_BootID e;
       rc_seq := wrap_i64 (ev_Sequence e); rc_hash := contentHash; rc_received := Unix now;
       rc_bytes := len |}) in
  if n =? 0 then
    let* existing := attempt (query_row (fun d =>
      rc_hash <$> List.find (same_event tenant agent (ev_EventID e)) (i_receipts d))) in
    match existing with
    | Ok h => if String.eqb h contentHash then ret (duplicate (ev_EventID e)) else fail ErrEventConflict
    | Err _ => fail ErrEventConflict
    end
  else
    let* _ := charge tenant empty_str day len (ip_DailyRows policy) (ip_DailyBytes policy) in
    let* _ := charge tenant agent day len (ip_AgentDailyRows policy) (ip_AgentDailyBytes policy) in
    let* _ := wrap_err "ingest: insert failed" (exec (fun d => (tt, with_rows (insert_event tenant agent e) d))) in
    ret (accepted (ev_EventID e)).

Fixpoint accept_events (tenant agent : string) (policy : IngestPolicy) (now : Z) (es : list IngestEvent)
  : M ingest_db (list IngestOutcome) :=
  match es with
  | [] => ret []
  | e :: es' =>
      let* o := accept_event tenant agent policy now e in
      let* out := accept_events tenant agent policy now es' in
      ret (o :: out)
  end.

Definition acceptIngest (tenant agent : string) (events : list IngestEvent) (policy : IngestPolicy) (now : Z)
  : M ingest_db (list IngestOutcome) :=
  transaction (accept_events tenant agent policy now events).

Definition AcceptIngest (tenant agent : string) (batch : IngestBatch) (policy : IngestPolicy) (now : Z)
  : M ingest_db (list IngestOutcome) :=
  let* events := lift (NormalizeIngest batch tenant agent now) in
  let* _ := lift (policy_Validate policy) in
  acceptIngest tenant agent events policy now.
End ingest.

(** [cleanupIngest]: two statements, not one transaction. *)
Definition cleanupIngest (now : Z) : M ingest_db unit :=
  let cutoff := now - MaxEventAge - 48 * hour in
  let* _ := exec (fun d => (tt, {| i_rows := i_rows d;
    i_receipts := filter (fun r => Unix cutoff <= rc_received r) (i_receipts d);
    i_budgets := i_budgets d |})) in
  exec (fun d => (tt, with_budgets (filter (fun kv => utc_day cutoff <= kv.1.2) (i_budgets d)) d)).

(** ** Lemmas on decoding *)

Inductive json :=
| JStr (s : string)
| JScalar
| JArray (l : list json)
| JObject (l : list (string * json)).

Section json_induction.
Variable P : json -> Prop.
Hypothesis Hstr : forall s, P (JStr s).
Hypothesis Hscalar : P JScalar.
Hypothesis Harray : forall l, Forall P l -> P (JArray l).
Hypothesis Hobject : forall l, Forall (fun kv => P kv.2) l -> P (JObject l).
Fixpoint json_nested_ind (v : json) : P v.
Proof.
  destruct v as [s| |l|l]; [apply Hstr|apply Hscalar|apply Harray|apply Hobject];
    induction l as [|x l IH]; constructor; (exact IH || apply json_nested_ind).
Defined.
End json_induction.

(** The token stream of a well-formed document. *)
Fixpoint tokens (v : json) : list token :=
  match v with
  | JStr s => [TStr s]
  | JScalar => [TScalar]
  | JArray l => TDelim true true :: flat_map tokens l ++ [TDelim false true]
  | JObject l => TDelim true false :: flat_map (fun kv => TStr kv.1 :: tokens kv.2) l ++ [TDelim false false]
  end.

(** No deeper than 16 levels below the root, and no key twice in an object. *)
Fixpoint fresh_keys (seen : list string) (l : list string) : bool :=
  match l with
  | [] => true
  | k :: l' => negb (existsb (String.eqb k) seen) && fresh_keys (k :: seen) l'
  end.
Fixpoint fits (depth : Z) (v : json) : bool :=
  (depth <=? 16) &&
  match v with
  | JStr _ | JScalar => true
  | JArray l => forallb (fits (depth + 1)) l
  | JObject l => fresh_keys [] (map fst l) && forallb (fun kv => fits (depth + 1) kv.2) l
  end.

Lemma tokens_head (v : json) : exists t ts, tokens v = t :: ts /\ More (tokens v) = true /\
  forall rest, More (t :: ts ++ rest) = true /\ Token (t :: ts ++ rest) = Ok (t, ts ++ rest).
Proof. destruct v; simpl; eexists _, _; split_and!; done. Qed.

Lemma More_tokens (v : json) (rest : list token) : More (tokens v ++ rest) = true.
Proof. destruct (tokens_head v) as (t & ts & -> & _ & H). by destruct (H rest). Qed.

Definition accepts (r : result error (list token)) (ok : bool) (rest : list token) : Prop :=
  if ok then r = Ok rest else exists e, r = Err e.

Definition inspects (v : json) : Prop :=
  forall fuel depth rest, (length (tokens v) <= fuel)%nat ->
  accepts (inspectJSONValue fuel (tokens v ++ rest) depth) (fits depth v) rest.

Lemma inspect_elements (l : list json) (fuel : nat) (depth : Z) (rest : list token) :
  Forall inspects l -> (length (flat_map tokens l) <= fuel)%nat ->
  forall n, (length (flat_map tokens l) < n)%nat ->
  accepts ((fix elements (n : nat) (ts : list token) : result error (list token) :=
             match n with
             | O => Err errEOF
             | S n' =>
                 if More ts then
                   let? ts' := inspectJSONValue fuel ts depth in elements n' ts'
                 else let? tk := Token ts in Ok tk.2
             end) n ((flat_map tokens l ++ [TDelim false true]) ++ rest))
    (forallb (fits depth) l) rest.
Proof.
  intros Hl. induction Hl as [|v l Hv Hl IH]; intros Hf n Hn; (destruct n as [|n]; [simpl in Hn; lia|]).
  - done.
  - simpl flat_map in *. rewrite length_app in Hf, Hn. rewrite <- !app_assoc, More_tokens.
    specialize (Hv fuel depth (flat_map tokens l ++ [TDelim false true] ++ rest) ltac:(lia)).
    unfold accepts in Hv. simpl forallb. destruct (fits depth v); cbn [andb].
    + rewrite Hv. cbn [result_bind]. rewrite (app_assoc (flat_map tokens l)). apply IH; [lia|].
      destruct (tokens_head v) as (t & ts & Ht & _). rewrite Ht in Hn. simpl in Hn. lia.
    + destruct Hv as [e ->]. by exists e.
Qed.

Lemma inspect_members (l : list (string * json)) (fuel : nat) (depth : Z) (rest : list token) :
  Forall (fun kv => inspects kv.2) l ->
  (length (flat_map (fun kv => TStr kv.1 :: tokens kv.2) l) <= fuel)%nat ->
  forall n seen, (length (flat_map (fun kv => TStr kv.1 :: tokens kv.2) l) < n)%nat ->
  accepts ((fix members (n : nat) (seen : list string) (ts : list token) : result error (list token) :=
             match n with
             | O => Err errEOF
             | S n' =>
                 if More ts then
                   let? tk := Token ts in
                   match tk with
                   | (TStr name, ts') =>
                       let? _ := guard (existsb (String.eqb name) seen) errKey in
                       let? ts'' := inspectJSONValue fuel ts' depth in
                       members n' (name :: seen) ts''
                   | _ => Err errKey
                   end
                 else let? tk := Token ts in Ok tk.2
             end) n seen
           ((flat_map (fun kv => TStr kv.1 :: tokens kv.2) l ++ [TDelim false false]) ++ rest))
    (fresh_keys seen (map fst l) && forallb (fun kv => fits depth kv.2) l) rest.
Proof.
  intros Hl. induction Hl as [|[k v] l Hv Hl IH]; intros Hf n seen Hn;
    (destruct n as [|n]; [simpl in Hn; lia|]).
  - done.
  - cbn [flat_map app] in *. cbn [More Token result_bind length] in *. rewrite length_app in Hf, Hn.
    unfold guard. cbn [map fst fresh_keys forallb]. simpl snd in *.
    destruct (existsb (String.eqb k) seen); simpl; [by eexists|].
    specialize (Hv fuel depth
      (flat_map (fun kv => TStr kv.1 :: tokens kv.2) l ++ [TDelim false false] ++ rest) ltac:(simpl; lia)).
    rewrite <- !app_assoc. simpl snd in Hv. unfold accepts in Hv.
    destruct (fits depth v); simpl.
    + cbn [app] in Hv. rewrite Hv. cbn [result_bind].
      change (?l ++ TDelim false false :: rest) with (l ++ [TDelim false false] ++ rest).
      rewrite app_assoc. apply IH; lia.
    + cbn [app] in Hv. destruct Hv as [e ->]. rewrite andb_false_r. by eexists.
Qed.

Lemma inspect_value (v : json) : inspects v.
Proof.
  induction v as [s| |l Hl|l Hl] using json_nested_ind; intros fuel depth rest Hf;
    (destruct fuel as [|fuel]; [simpl in Hf; lia|]);
    unfold accepts; cbn [inspectJSONValue fits tokens app]; unfold guard;
    rewrite (Z.leb_antisym 16 depth); destruct (16 <? depth); cbn [negb andb result_bind Token];
    try (by eexists); try done.
  - simpl in Hf. rewrite length_app in Hf. simpl in Hf.
    apply (inspect_elements l fuel (depth + 1) rest); [done|lia..].
  - simpl in Hf. rewrite length_app in Hf. simpl in Hf.
    apply (inspect_members l fuel (depth + 1) rest); [done|lia..].
Qed.

(** ** Lemmas on the transaction *)

Definition spent (b : gmap (string * string * Z) (Z * Z)) (k : string * string * Z) : Z * Z :=
  default (0, 0) (b !! k).
Definition charged (k : string * string * Z) (len : Z) (b : gmap (string * string * Z) (Z * Z))
  : gmap (string * string * Z) (Z * Z) :=
  <[k := ((spent b k).1 + 1, (spent b k).2 + len)]> b.

Section ingest_lemmas.
Variable marshal : IngestEvent -> result error string.
Variable sha256hex : string -> string.

Definition mk_receipt (tenant agent : string) (now : Z) (e : IngestEvent) (body : string) : receipt :=
  {| rc_tenant := tenant; rc_agent := agent; rc_event := ev_EventID e; rc_boot := ev_BootID e;
     rc_seq := wrap_i64 (ev_Sequence e); rc_hash := sha256hex body; rc_received := Unix now;
     rc_bytes := slen body |}.

Definition clashes (r r' : receipt) : bool :=
  same_event (rc_tenant r) (rc_agent r) (rc_event r) r' ||
  same_slot (rc_tenant r) (rc_agent r) (rc_boot r) (rc_seq r) r'.

Lemma charge_ok tenant actor day len rows bytes d fs u d' fs' :
  charge tenant actor day len rows bytes d fs = (Ok u, d', fs') ->
  (spent (i_budgets d) (tenant, actor, day)).1 < rows /\
  (spent (i_budgets d) (tenant, actor, day)).2 + len <= bytes /\
  d' = with_budgets (charged (tenant, actor, day) len (i_budgets d)) d.
Proof.
  unfold charge. intros H. inv_ok. bools. subst.
  unfold ensure_budget in *. unfold charge_budget in *. unfold charged, spent.
  destruct (i_budgets d !! (tenant, actor, day)) as [[r b]|] eqn:E; simplify_eq/=.
  - rewrite E in *. case_match eqn:Ec; simplify_eq. bools. split_and!; [done|lia|done].
  - rewrite lookup_insert_eq in *. case_match eqn:Ec; simplify_eq. bools.
    split_and!; [done|lia|]. unfold with_budgets. simpl. f_equal. by rewrite insert_insert_eq.
Qed.

(** What one event does to the database, when it does not abort the batch. *)
Definition event_effect (tenant agent : string) (policy : IngestPolicy) (now : Z) (e : IngestEvent)
  (d : ingest_db) (o : IngestOutcome) (d' : ingest_db) : Prop :=
  exists body, marshal e = Ok body /\
  let r := mk_receipt tenant agent now e body in
  let kt := (tenant, empty_str, utc_day now) in
  let ka := (tenant, agent, utc_day now) in
  (o = duplicate (ev_EventID e) /\ d' = d /\
   exists r', List.find (same_event tenant agent (ev_EventID e)) (i_receipts d) = Some r' /\
              rc_hash r' = rc_hash r) \/
  (o = accepted (ev_EventID e) /\ existsb (clashes r) (i_receipts d) = false /\
   (spent (i_budgets d) kt).1 < ip_DailyRows policy /\
   (spent (i_budgets d) kt).2 + slen body <= ip_DailyBytes policy /\
   let b := charged kt (slen body) (i_budgets d) in
   (spent b ka).1 < ip_AgentDailyRows policy /\
   (spent b ka).2 + slen body <= ip_AgentDailyBytes policy /\
   d' = {| i_rows := insert_event tenant agent e (i_rows d); i_receipts := i_receipts d ++ [r];
           i_budgets := charged ka (slen body) b |}).

Lemma accept_event_ok tenant agent policy now e d fs o d' fs' :
  accept_event marshal sha256hex tenant agent policy now e d fs = (Ok o, d', fs') ->
  event_effect tenant agent policy now e d o d'.
Proof.
  unfold accept_event. intros H. apply mbind_ok in H as (body & s1 & fs1 & Hm & H).
  unfold lift in Hm. simplify_eq. exists body. split; [done|]. cbv zeta.
  fold (mk_receipt tenant agent now e body) in H.
  apply mbind_ok in H as (n & s2 & fs2 & Hi & H). apply exec_ok in Hi. unfold insert_receipt in Hi.
  fold (clashes (mk_receipt tenant agent now e body)) in Hi.
  destruct (existsb (clashes _) _) eqn:Ec; simplify_eq/=.
  - left. apply mbind_ok in H as (ex & s3 & fs3 & Hq & H). apply attempt_inv in Hq as (r & [= ->] & Hq).
    destruct r as [h|]; [|done]. apply query_row_ok in Hq as [Hq ->].
    apply fmap_Some in Hq as (r' & Hf & ->).
    destruct (String.eqb _ _) eqn:Eh; [|done]. unfold ret in H. bools. simplify_eq. eauto.
  - right. apply mbind_ok in H as (? & s3 & fs3 & Ht & H). apply charge_ok in Ht as (? & ? & ->).
    apply mbind_ok in H as (? & s4 & fs4 & Ha & H). apply charge_ok in Ha as (? & ? & ->).
    apply mbind_ok in H as (? & s5 & fs5 & Hw & H). unfold wrap_err in Hw.
    apply mbind_ok in Hw as (rr & s6 & fs6 & Hw & Hr). apply attempt_inv in Hw as (r0 & [= ->] & Hw).
    destruct r0; [|done]. apply exec_ok in Hw. unfold ret in *. by simplify_eq.
Qed.

Inductive events_effect (tenant agent : string) (policy : IngestPolicy) (now : Z)
  : list IngestEvent -> ingest_db -> list IngestOutcome -> ingest_db -> Prop :=
| events_nil d : events_effect tenant agent policy now [] d [] d
| events_cons e es d o d1 out d2 :
    event_effect tenant agent policy now e d o d1 ->
    events_effect tenant agent policy now es d1 out d2 ->
    events_effect tenant agent policy now (e :: es) d (o :: out) d2.

Lemma accept_events_ok tenant agent policy now es : forall d fs out d' fs',
  accept_events marshal sha256hex tenant agent policy now es d fs = (Ok out, d', fs') ->
  events_effect tenant agent policy now es d out d'.
Proof.
  induction es as [|e es IH]; simpl; intros d fs out d' fs' H.
  - unfold ret in H. simplify_eq. constructor.
  - apply mbind_ok in H as (o & d1 & fs1 & H1%accept_event_ok & H).
    apply mbind_ok in H as (out' & d2 & fs2 & H2%IH & H). unfold ret in H. simplify_eq.
    econstructor; eauto.
Qed.

(** A call of [AcceptIngest] leaves the database alone or applies the whole
    batch; a batch it reports as applied is applied. *)
Lemma AcceptIngest_inv tenant agent batch policy now d fs r d' fs' :
  AcceptIngest marshal sha256hex tenant agent batch policy now d fs = (r, d', fs') ->
  (d' = d /\ exists e, r = Err e) \/
  exists events out, NormalizeIngest batch tenant agent now = Ok events /\
    policy_Validate policy = Ok tt /\
    events_effect tenant agent policy now events d out d' /\ (r = Ok out \/ exists e, r = Err (EDb e)).
Proof.
  unfold AcceptIngest, mbind, lift. intros H.
  destruct (NormalizeIngest _ _ _ _) as [events|] eqn:En; [|simplify_eq; eauto].
  destruct (policy_Validate policy) as [[]|] eqn:Ep; [|simplify_eq; eauto].
  unfold acceptIngest in H. apply transaction_inv in H as [[-> [e ->]]|(out & fs1 & fs2 & Hb & Hr)].
  - eauto.
  - right. exists events, out. split_and!; [done|done|by eapply accept_events_ok|done].
Qed.

End ingest_lemmas.

(** *** The receipts *)

(** The two unique constraints. *)
Definition event_key (r : receipt) : string * string * string := (rc_tenant r, rc_agent r, rc_event r).
Definition slot_key (r : receipt) : string * string * string * Z :=
  (rc_tenant r, rc_agent r, rc_boot r, rc_seq r).
Definition receipts_unique (rs : list receipt) : Prop :=
  NoDup (map event_key rs) /\ NoDup (map slot_key rs).

Lemma same_event_key (tenant agent event : string) (r : receipt) :
  same_event tenant agent event r = true <-> event_key r = (tenant, agent, event).
Proof. unfold same_event, event_key. rewrite !andb_true_iff, !String.eqb_eq. naive_solver. Qed.

Lemma clashes_keys (r r' : receipt) :
  clashes r r' = true <-> event_key r' = event_key r \/ slot_key r' = slot_key r.
Proof.
  unfold clashes. rewrite orb_true_iff, same_event_key. unfold same_slot, slot_key.
  rewrite !andb_true_iff, !String.eqb_eq, Z.eqb_eq.
  split; (intros [?|Hs]; [by left|right]).
  - destruct Hs as [[[-> ->] ->] ->]. done.
  - injection Hs as -> -> -> ->. done.
Qed.

Lemma receipts_unique_snoc (rs : list receipt) (r : receipt) :
  receipts_unique rs -> existsb (clashes r) rs = false -> receipts_unique (rs ++ [r]).
Proof.
  intros [He Hs] Hc.
  assert (Hno : forall x, x ∈ rs -> ~ clashes r x = true).
  { intros x Hx Hx'. assert (existsb (clashes r) rs = true); [|congruence].
    apply existsb_exists. exists x. by rewrite <- list_elem_of_In. }
  split; rewrite map_app; apply NoDup_app; (split; [done|]); (split; [|apply NoDup_singleton]);
    intros k (x & -> & Hx)%list_elem_of_fmap Hk%list_elem_of_singleton;
    apply (Hno x Hx), clashes_keys; auto.
Qed.

Lemma receipts_unique_sublist (rs rs' : list receipt) :
  rs' `sublist_of` rs -> receipts_unique rs -> receipts_unique rs'.
Proof.
  intros Hsub [He Hs].
  split; (eapply sublist_NoDup; [|by apply fmap_sublist]); done.
Qed.

Lemma find_receipt (rs : list receipt) (tenant agent event : string) (r : receipt) :
  receipts_unique rs -> r ∈ rs -> same_event tenant agent event r = true ->
  List.find (same_event tenant agent event) rs = Some r.
Proof.
  intros [Hu _] Hr Hs. destruct (List.find _ rs) as [r'|] eqn:E.
  - apply find_some in E as [Hin Hs']. rewrite <- list_elem_of_In in Hin.
    apply list_elem_of_lookup in Hr as [i Hi], Hin as [j Hj].
    assert (i = j); [|by simplify_eq].
    apply same_event_key in Hs, Hs'.
    eapply (NoDup_lookup (map event_key rs)); [done|..]; rewrite list_lookup_fmap.
    + by rewrite Hi.
    + rewrite Hj. simpl. congruence.
  - eapply find_none in E; [|by apply list_elem_of_In]. congruence.
Qed.

Lemma same_event_clashes (tenant agent event : string) (r r' : receipt) :
  same_event tenant agent event r = true -> same_event tenant agent event r' = true ->
  clashes r r' = true.
Proof. rewrite !same_event_key, clashes_keys. left. congruence. Qed.

Lemma find_receipt_Some (rs : list receipt) (tenant agent event : string) (r : receipt) :
  List.find (same_event tenant agent event) rs = Some r -> r ∈ rs /\ same_event tenant agent event r = true.
Proof. intros [Hin Hs]%find_some. by rewrite list_elem_of_In. Qed.

Section receipted.
Variable marshal : IngestEvent -> result error string.
Variable sha256hex : string -> string.

(** Every event of an applied batch has a receipt with its digest. *)
Definition receipted (tenant agent : string) (d : ingest_db) (e : IngestEvent) : Prop :=
  exists body r, marshal e = Ok body /\ r ∈ i_receipts d /\
    same_event tenant agent (ev_EventID e) r = true /\ rc_hash r = sha256hex body.

Lemma same_event_refl tenant agent now e body :
  same_event tenant agent (ev_EventID e) (mk_receipt sha256hex tenant agent now e body) = true.
Proof. unfold same_event. simpl. by rewrite !String.eqb_refl. Qed.

Lemma event_effect_receipts tenant agent policy now e d o d' :
  event_effect marshal sha256hex tenant agent policy now e d o d' ->
  receipted tenant agent d' e /\ (forall r, r ∈ i_receipts d -> r ∈ i_receipts d') /\
  (receipts_unique (i_receipts d) -> receipts_unique (i_receipts d')).
Proof.
  intros (body & Hm & [(_ & -> & r' & Hf & Hh)|(_ & Hc & _ & _ & _ & _ & ->)]).
  - apply find_receipt_Some in Hf as [? ?]. split_and!; [|done..]. by exists body, r'.
  - simpl. split_and!.
    + exists body, (mk_receipt sha256hex tenant agent now e body).
      split_and!; [done|set_solver|apply same_event_refl|done].
    + set_solver.
    + intros. by apply receipts_unique_snoc.
Qed.

Lemma events_effect_receipts tenant agent policy now es d out d' :
  events_effect marshal sha256hex tenant agent policy now es d out d' ->
  Forall (receipted tenant agent d') es /\ (forall r, r ∈ i_receipts d -> r ∈ i_receipts d') /\
  (receipts_unique (i_receipts d) -> receipts_unique (i_receipts d')).
Proof.
  induction 1 as [|e es d o d1 out d2 He _ (IH1 & IH2 & IH3)]; [done|].
  apply event_effect_receipts in He as ((body & r & Hb & Hr & Hs & Hh) & Hsub & Hu).
  split_and!; [|naive_solver..]. constructor; [|done]. exists body, r. auto.
Qed.
End receipted.

(** ** Normalised batches *)

Definition event_time (e : IngestEvent) : Z :=
  match ev_Metric e, ev_Process e with
  | Some m, _ => m_Timestamp m
  | None, Some p => p_Timestamp p
  | None, None => zero_time
  end.

Definition in_window (now t : Z) : Prop := now - MaxEventAge <= t <= now + minute.

(** Exactly one payload, owned by the principal. *)
Definition event_owned (tenant agent : string) (e : IngestEvent) : Prop :=
  match ev_Metric e, ev_Process e with
  | Some m, None => m_TenantID m = tenant /\ m_ServerID m = agent /\
                    metric_invalid tenant agent m = false /\
                    Forall (fun c => c <= max_int64) (counters m)
  | None, Some p => p_TenantID p = tenant /\ p_ServerID p = agent /\
                    process_invalid tenant agent p = false
  | _, _ => False
  end.

Definition event_ok (tenant agent : string) (now : Z) (e : IngestEvent) : Prop :=
  event_owned tenant agent e /\ in_window now (event_time e) /\
  eventIdentifier (ev_EventID e) = true /\ eventIdentifier (ev_BootID e) = true /\
  ev_Sequence e <> 0 /\ ev_Sequence e <= max_int64.

Ltac inv_result :=
  repeat match goal with
  | H : result_bind _ _ = Ok _ |- _ => apply result_bind_ok in H as (? & ? & H)
  | H : guard _ _ = Ok _ |- _ => apply guard_ok in H
  | H : (let '(_, _) := ?p in _) = Ok _ |- _ => destruct p eqn:?
  | _ => progress simplify_eq/=
  end.

(** What normalisation does to one event does not depend on the clock. *)
Definition normal_event (tenant agent : string) (e : IngestEvent) : IngestEvent :=
  {| ev_EventID := ev_EventID e; ev_BootID := ev_BootID e; ev_Sequence := ev_Sequence e;
     ev_Metric := match ev_Metric e with
                  | Some m => Some (set_metric (m_ID m) tenant agent (m_Timestamp m) (fun c => c) m)
                  | None => None
                  end;
     ev_Process := match ev_Metric e, ev_Process e with
                   | None, Some p => Some (set_process (p_ID p) tenant agent (p_Timestamp p) p)
                   | _, p => p
                   end |}.

Lemma other_owner_self (s : string) : other_owner s s = false.
Proof. unfold other_owner. by rewrite String.eqb_refl, andb_false_r. Qed.

Lemma counters_set id t sv ts (m : MetricRow) :
  counters (set_metric id t sv ts (fun c => c) m) = counters m.
Proof. done. Qed.

Lemma window_guard (now t : Z) :
  IsZero t || After t (now + minute) || Before t (now - MaxEventAge) = false -> in_window now t.
Proof. unfold in_window, After, Before. intros. bools. lia. Qed.

Lemma metric_invalid_owned tenant agent ts m :
  metric_invalid tenant agent m = false ->
  metric_invalid tenant agent (set_metric (m_ID m) tenant agent ts (fun c => c) m) = false.
Proof.
  unfold metric_invalid. simpl. rewrite !other_owner_self, !orb_false_iff. tauto.
Qed.
Lemma process_invalid_owned tenant agent ts p :
  process_invalid tenant agent p = false ->
  process_invalid tenant agent (set_process (p_ID p) tenant agent ts p) = false.
Proof.
  unfold process_invalid. simpl. rewrite !other_owner_self, !orb_false_iff. tauto.
Qed.

Lemma counters_bounded (l : list Z) :
  existsb (fun c => max_int64 <? c) l = false -> Forall (fun c => c <= max_int64) l.
Proof.
  induction l as [|c l IH]; cbn [existsb]; intros; [constructor|]. bools. constructor; [done|auto].
Qed.

Lemma not_seen (x : string) (seen : list string) : existsb (String.eqb x) seen = false -> x ∉ seen.
Proof.
  intros He Hin. assert (existsb (String.eqb x) seen = true); [|congruence].
  apply existsb_exists. exists x. rewrite <- list_elem_of_In. by rewrite String.eqb_refl.
Qed.

Lemma normalize_event_ok tenant agent now seen e e' :
  normalize_event tenant agent now seen e = Ok e' ->
  e' = normal_event tenant agent e /\ event_ok tenant agent now e' /\ ev_EventID e ∉ seen.
Proof.
  unfold normalize_event. intros H. inv_result.
  match goal with H : negb _ || _ || _ || _ || _ || _ = false |- _ => rename H into Hid end.
  rewrite !orb_false_iff in Hid. destruct Hid as [[[[[Hev Hboot] Hz] Hmax] Hseen] Hxor].
  apply not_seen in Hseen. apply negb_false_iff in Hev, Hboot. apply Z.eqb_neq in Hz.
  apply Z.ltb_ge in Hmax.
  match goal with H : IsZero _ || _ || _ = false |- _ => apply window_guard in H end.
  unfold normal_event, event_ok, event_owned, event_time.
  destruct (ev_Metric e) as [m|] eqn:Em; [|destruct (ev_Process e) as [p|] eqn:Ep; [|done]]; inv_result.
  - destruct (ev_Process e) as [p|] eqn:Ep; [done|].
    split_and!; try done; [by apply metric_invalid_owned|by apply (counters_bounded (counters m))].
  - split_and!; try done. by apply process_invalid_owned.
Qed.

Lemma normalize_events_ok tenant agent now es : forall seen es',
  normalize_events tenant agent now seen es = Ok es' ->
  es' = map (normal_event tenant agent) es /\ Forall (event_ok tenant agent now) es' /\
  NoDup (map ev_EventID es') /\ Forall (fun e => ev_EventID e ∉ seen) es'.
Proof.
  induction es as [|e es IH]; intros seen es' H; simpl in H; inv_result.
  - split_and!; try done; constructor.
  - match goal with H : normalize_event _ _ _ _ _ = _ |- _ =>
      apply normalize_event_ok in H as (-> & Hok & Hs) end.
    match goal with H : normalize_events _ _ _ _ _ = _ |- _ =>
      apply IH in H as (-> & Hoks & Hnd & Hseen) end.
    split_and!; [done|by constructor| |].
    + simpl. constructor; [|done]. intros (e' & He & Hin)%list_elem_of_fmap.
      rewrite Forall_forall in Hseen. apply (Hseen e' Hin). rewrite <- He. set_solver.
    + constructor; [done|]. eapply Forall_impl; [exact Hseen|]. set_solver.
Qed.

Lemma NormalizeIngest_ok batch tenant agent now es :
  NormalizeIngest batch tenant agent now = Ok es ->
  es = map (normal_event tenant agent) (ib_Events batch) /\ Forall (event_ok tenant agent now) es /\
  NoDup (map ev_EventID es) /\ (1 <= length es <= 64)%nat /\
  RequireTenant_fails tenant = false /\ is_empty agent = false.
Proof.
  unfold NormalizeIngest. intros H. inv_result.
  match goal with H : _ || _ || _ || _ || _ || _ = false |- _ => rename H into Hs end.
  rewrite !orb_false_iff in Hs. destruct Hs as [[[[[Ht Ha] _] _] Hne] Hlen].
  apply normalize_events_ok in H as (-> & Hok & Hnd & _). split_and!; try done.
  - rewrite length_map. apply bool_decide_eq_false in Hne. destruct (ib_Events batch); [done|]. simpl. lia.
  - rewrite length_map. unfold MaxBatchEvents in Hlen. bools. lia.
Qed.

(** ** Sequences of deliveries and cleanups *)

Inductive op :=
| Deliver (tenant agent : string) (batch : IngestBatch) (policy : IngestPolicy) (now : Z) (fs : faults)
| Cleanup (now : Z) (fs : faults).

Definition cleanup_cutoff (now : Z) : Z := Unix (now - MaxEventAge - 48 * hour).

(** Cleanups run no later than [t]. *)
Definition cleanups_before (t : Z) (ops : list op) : Prop :=
  Forall (fun o => match o with Cleanup now _ => now <= t | _ => True end) ops.
Definition deliveries_only (policy : IngestPolicy) (ops : list op) : Prop :=
  Forall (fun o => match o with Deliver _ _ _ p _ _ => p = policy | _ => False end) ops.

Section runs.
Variable marshal : IngestEvent -> result error string.
Variable sha256hex : string -> string.

Definition apply_op (d : ingest_db) (o : op) : ingest_db :=
  match o with
  | Deliver tenant agent batch policy now fs =>
      run_state (AcceptIngest marshal sha256hex tenant agent batch policy now) d fs
  | Cleanup now fs => run_state (cleanupIngest now) d fs
  end.
Definition run_ops (ops : list op) (d : ingest_db) : ingest_db := fold_left apply_op ops d.

Lemma AcceptIngest_state tenant agent batch policy now d fs :
  let d' := run_state (AcceptIngest marshal sha256hex tenant agent batch policy now) d fs in
  d' = d \/ exists events out, NormalizeIngest batch tenant agent now = Ok events /\
    events_effect marshal sha256hex tenant agent policy now events d out d'.
Proof.
  unfold run_state. destruct (AcceptIngest _ _ _ _ _ _ _ d fs) as [[r d'] fs'] eqn:E. simpl.
  apply AcceptIngest_inv in E as [[-> _]|(es & out & Hn & _ & He & _)]; eauto.
Qed.

Lemma cleanupIngest_receipts now d fs :
  let rs := i_receipts (run_state (cleanupIngest now) d fs) in
  rs = i_receipts d \/ rs = filter (fun r => cleanup_cutoff now <= rc_received r) (i_receipts d).
Proof.
  unfold run_state, cleanupIngest, mbind, exec, statement.
  repeat (case_match; simplify_eq/=; auto).
Qed.

(** A receipt remembers an event that was fresh when it was received. *)
Definition aged_receipt (r : receipt) : Prop :=
  exists e body now, marshal e = Ok body /\ rc_hash r = sha256hex body /\ rc_received r = Unix now /\
                     event_time e <= now + minute.
Definition ingest_inv (d : ingest_db) : Prop :=
  receipts_unique (i_receipts d) /\ Forall aged_receipt (i_receipts d).

Lemma events_effect_aged tenant agent policy now es d out d' :
  events_effect marshal sha256hex tenant agent policy now es d out d' ->
  Forall (event_ok tenant agent now) es -> Forall aged_receipt (i_receipts d) ->
  Forall aged_receipt (i_receipts d').
Proof.
  induction 1 as [|e es d o d1 out d2 He _ IH]; [done|]. intros [Hok Hoks]%Forall_cons Hd.
  apply IH; [done|]. destruct He as (body & Hm & [(_ & -> & _)|(_ & _ & _ & _ & _ & _ & ->)]); [done|].
  simpl. apply Forall_app_2; [done|]. apply Forall_singleton. exists e, body, now.
  destruct Hok as (_ & [_ Hw] & _). done.
Qed.

Lemma apply_op_inv d o : ingest_inv d -> ingest_inv (apply_op d o).
Proof.
  intros [Hu Ha]. destruct o as [tenant agent batch policy now fs|now fs]; simpl.
  - destruct (AcceptIngest_state tenant agent batch policy now d fs) as [->|(es & out & Hn & He)]; [done|].
    apply NormalizeIngest_ok in Hn as (_ & Hok & _). split.
    + eapply events_effect_receipts; eauto.
    + by eapply events_effect_aged.
  - unfold ingest_inv. destruct (cleanupIngest_receipts now d fs) as [->| ->]; [done|]. split.
    + eapply receipts_unique_sublist; [apply sublist_filter|done].
    + apply Forall_forall. intros r [_ Hr]%list_elem_of_filter. rewrite Forall_forall in Ha. auto.
Qed.

Lemma run_ops_inv ops : forall d, ingest_inv d -> ingest_inv (run_ops ops d).
Proof.
  induction ops as [|o ops IH]; intros d Hd; [done|]. simpl. by apply IH, apply_op_inv.
Qed.

Lemma empty_inv : ingest_inv empty_ingest.
Proof. split; [split; constructor|constructor]. Qed.

Lemma run_ops_keeps ops t r : forall d,
  cleanups_before t ops -> cleanup_cutoff t <= rc_received r ->
  r ∈ i_receipts d -> r ∈ i_receipts (run_ops ops d).
Proof.
  induction ops as [|o ops IH]; intros d Hc Hr Hd; [done|].
  apply Forall_cons in Hc as [Ho Hc]. simpl. apply IH; [done..|].
  destruct o as [tenant agent batch policy now fs|now fs]; simpl.
  - destruct (AcceptIngest_state tenant agent batch policy now d fs) as [->|(es & out & Hn & He)]; [done|].
    eapply events_effect_receipts; eauto.
  - destruct (cleanupIngest_receipts now d fs) as [->| ->]; [done|].
    apply list_elem_of_filter. split; [|done]. trans (cleanup_cutoff t); [|done].
    unfold cleanup_cutoff, Unix. apply Z.div_le_mono; [unfold second; lia|]. lia.
Qed.

(** Replaying receipted events changes nothing. *)
Lemma accept_events_replay tenant agent policy now es d :
  receipts_unique (i_receipts d) -> Forall (receipted marshal sha256hex tenant agent d) es ->
  accept_events marshal sha256hex tenant agent policy now es d [] =
  (Ok (map (fun e => duplicate (ev_EventID e)) es), d, []).
Proof.
  intros Hu. induction 1 as [|e es (body & r & Hm & Hr & Hs & Hh) Hes IH]; [done|].
  simpl. unfold mbind at 1. unfold accept_event. unfold mbind at 1. unfold lift. rewrite Hm.
  unfold mbind at 1. unfold exec at 1, statement.
  fold (mk_receipt sha256hex tenant agent now e body). unfold insert_receipt.
  fold (clashes (mk_receipt sha256hex tenant agent now e body)).
  assert (existsb (clashes (mk_receipt sha256hex tenant agent now e body)) (i_receipts d) = true) as ->.
  { apply existsb_exists. exists r. rewrite <- list_elem_of_In. split; [done|].
    apply (same_event_clashes tenant agent (ev_EventID e)); [apply same_event_refl|done]. }
  change (0 =? 0) with true. cbv iota. unfold mbind at 1, attempt, query_row, statement.
  rewrite (find_receipt _ tenant agent (ev_EventID e) r) by done.
  cbn -[accept_events]. rewrite Hh, String.eqb_refl. cbn -[accept_events].
  unfold mbind. rewrite IH. done.
Qed.
End runs.

(** *** Accounting *)

Definition rows_total (d : ingest_db) : nat :=
  length (d_metrics (i_rows d)) + length (d_processes (i_rows d)).
Definition count_status (status : string) (out : list IngestOutcome) : nat :=
  length (filter (fun o => io_Status o = status) out).

(** What the receipts say an actor has spent on a day; the empty actor is the
    whole tenant. *)
Definition charged_to (k : string * string * Z) (r : receipt) : bool :=
  let '(tenant, actor, day) := k in
  String.eqb (rc_tenant r) tenant && (is_empty actor || String.eqb (rc_agent r) actor) &&
  (rc_received r / 86400 =? day).
Definition ledger (k : string * string * Z) (rs : list receipt) : Z * Z :=
  fold_right (fun r acc => if charged_to k r then (acc.1 + 1, acc.2 + rc_bytes r) else acc) (0, 0) rs.

Definition accounts (policy : IngestPolicy) (d : ingest_db) : Prop :=
  (forall k, spent (i_budgets d) k = ledger k (i_receipts d)) /\
  (forall tenant actor day,
     let s := spent (i_budgets d) (tenant, actor, day) in
     s.1 <= (if is_empty actor then ip_DailyRows policy else ip_AgentDailyRows policy) /\
     s.2 <= (if is_empty actor then ip_DailyBytes policy else ip_AgentDailyBytes policy)) /\
  rows_total d = length (i_receipts d).

Lemma ledger_snoc k rs r :
  ledger k (rs ++ [r]) =
  if charged_to k r then ((ledger k rs).1 + 1, (ledger k rs).2 + rc_bytes r) else ledger k rs.
Proof.
  induction rs as [|x rs IH]; simpl; [by destruct (charged_to k r)|].
  rewrite IH. destruct (charged_to k r), (charged_to k x); simpl; try done. f_equal; lia.
Qed.

Lemma spent_charged k len b k' :
  spent (charged k len b) k' =
  if decide (k = k') then ((spent b k).1 + 1, (spent b k).2 + len) else spent b k'.
Proof.
  unfold spent at 1, charged. case_decide as Hk; [subst; by rewrite lookup_insert_eq|].
  by rewrite lookup_insert_ne.
Qed.

Section accounting.
Variable marshal : IngestEvent -> result error string.
Variable sha256hex : string -> string.

Lemma event_effect_accounts tenant agent policy now e d o d' :
  is_empty agent = false -> event_owned tenant agent e ->
  event_effect marshal sha256hex tenant agent policy now e d o d' ->
  accounts policy d -> accounts policy d'.
Proof.
  intros Hag Hown (body & _ & [(_ & -> & _)|(_ & _ & H1 & H2 & H3 & H4 & ->)]) (Hled & Hcap & Hrows); [done|].
  set (kt := (tenant, empty_str, utc_day now)) in *. set (ka := (tenant, agent, utc_day now)) in *.
  assert (Hne : kt <> ka) by (intros He%(f_equal (fun k => k.1.2)); simpl in He; subst agent; done).
  rewrite spent_charged, decide_False in H3, H4 by done.
  assert (Hb : forall k, spent (charged ka (slen body) (charged kt (slen body) (i_budgets d))) k =
    if decide (kt = k \/ ka = k) then ((spent (i_budgets d) k).1 + 1, (spent (i_budgets d) k).2 + slen body)
    else spent (i_budgets d) k).
  { intros k. rewrite !spent_charged, (decide_False (P := kt = ka)) by done.
    destruct (decide (ka = k)) as [E1|E1], (decide (kt = k)) as [E2|E2].
    - destruct Hne. congruence.
    - by rewrite decide_True, E1 by auto.
    - by rewrite decide_True, E2 by auto.
    - by rewrite decide_False by tauto. }
  split_and!.
  - intros k. simpl. rewrite Hb, ledger_snoc, Hled.
    assert (Hc : charged_to k (mk_receipt sha256hex tenant agent now e body) = true <-> (kt = k \/ ka = k)).
    { destruct k as [[t a] day]. unfold charged_to, mk_receipt, kt, ka, utc_day. simpl.
      rewrite !andb_true_iff, orb_true_iff, !String.eqb_eq, Z.eqb_eq.
      split; [intros [[-> [Ha| ->]] <-]; [left; by destruct a|by right]|].
      intros [[=]|[=]]; subst; split_and!; auto. }
    case_decide as Hd; [by rewrite (proj2 Hc Hd)|].
    destruct (charged_to k _) eqn:E; [|done]. by destruct Hd; apply Hc.
  - intros t a day. simpl. rewrite Hb. specialize (Hcap t a day).
    case_decide as Hd; [|done]. simpl. destruct Hd as [[= <- <- <-]|[= <- <- <-]].
    + simpl. fold kt. lia.
    + rewrite Hag. fold ka. lia.
  - unfold rows_total, insert_event in *. simpl. rewrite length_app. simpl.
    unfold event_owned in Hown. destruct (ev_Metric e), (ev_Process e); simpl; try done;
      rewrite length_app; simpl; lia.
Qed.

Lemma events_effect_accounts tenant agent policy now es d out d' :
  is_empty agent = false -> Forall (event_owned tenant agent) es ->
  events_effect marshal sha256hex tenant agent policy now es d out d' ->
  accounts policy d -> accounts policy d'.
Proof.
  intros Hag Hown He. induction He as [|e es d o d1 out d2 He _ IH]; [done|].
  apply Forall_cons in Hown as [Ho Hown]. intros Hd. apply IH; [done|].
  by eapply event_effect_accounts.
Qed.

Lemma events_effect_counts tenant agent policy now es d out d' :
  Forall (event_owned tenant agent) es ->
  events_effect marshal sha256hex tenant agent policy now es d out d' ->
  rows_total d' = (rows_total d + count_status "accepted" out)%nat /\
  Forall2 (fun e o => io_EventID o = ev_EventID e /\ (io_Status o = "accepted" \/ io_Status o = "duplicate"))
    es out.
Proof.
  intros Hown He. induction He as [|e es d o d1 out d2 He _ IH]; [split; [by rewrite Nat.add_0_r|constructor]|].
  apply Forall_cons in Hown as [Ho Hown]. destruct (IH Hown) as [-> HF].
  destruct He as (body & _ & [(-> & -> & _)|(-> & _ & _ & _ & _ & _ & ->)]).
  - split; [|constructor; auto]. done.
  - split; [|constructor; auto]. unfold count_status. rewrite filter_cons_True by done.
    cbn [length]. set (n := length _). unfold rows_total, insert_event. simpl. unfold event_owned in Ho.
    destruct (ev_Metric e), (ev_Process e); simpl; try done; rewrite length_app; simpl; lia.
Qed.
End accounting.

(** *** The whole batch *)

Section whole.
Variable marshal : IngestEvent -> result error string.
Variable sha256hex : string -> string.
Variables (tenant agent : string) (now : Z).

(** The event has a receipt. *)
Definition received (d : ingest_db) (e : IngestEvent) : bool :=
  existsb (same_event tenant agent (ev_EventID e)) (i_receipts d).
Definition outcome_of (d : ingest_db) (e : IngestEvent) : IngestOutcome :=
  if received d e then duplicate (ev_EventID e) else accepted (ev_EventID e).
(** All that storing one event adds: its row, its receipt and what it costs
    the tenant and the agent. *)
Definition store_event (d : ingest_db) (e : IngestEvent) : ingest_db :=
  let body := match marshal e with Ok body => body | Err _ => EmptyString end in
  let day := utc_day now in
  {| i_rows := insert_event tenant agent e (i_rows d);
     i_receipts := i_receipts d ++ [mk_receipt sha256hex tenant agent now e body];
     i_budgets := charged (tenant, agent, day) (slen body) (charged (tenant, empty_str, day) (slen body) (i_budgets d)) |}.
Definition unseen (d : ingest_db) (es : list IngestEvent) : list IngestEvent :=
  List.filter (fun e => negb (received d e)) es.

Lemma received_other d e e' : ev_EventID e' <> ev_EventID e -> received (store_event d e) e' = received d e'.
Proof.
  intros Hne. unfold received, store_event. cbn [i_receipts]. rewrite existsb_app. simpl. rewrite orb_false_r.
  assert (same_event tenant agent (ev_EventID e') (mk_receipt sha256hex tenant agent now e
    match marshal e with Ok body => body | Err _ => EmptyString end) = false) as ->; [|by rewrite orb_false_r].
  apply not_true_iff_false. intros Hs%same_event_key. unfold event_key, mk_receipt in Hs. simpl in Hs. congruence.
Qed.
Lemma unseen_others d e es : ev_EventID e ∉ map ev_EventID es ->
  unseen (store_event d e) es = unseen d es /\ map (outcome_of (store_event d e)) es = map (outcome_of d) es.
Proof.
  induction es as [|e' es IH]; intros Hn; [done|]. simpl in Hn. apply not_elem_of_cons in Hn as [Hne Hn].
  destruct (IH Hn) as [IH1 IH2]. unfold unseen in *. simpl. rewrite IH2, IH1. unfold outcome_of at 1.
  rewrite !received_other by done. done.
Qed.
Lemma event_effect_exact policy e d o d' :
  event_effect marshal sha256hex tenant agent policy now e d o d' ->
  is_ok (marshal e) = true /\ o = outcome_of d e /\ d' = if received d e then d else store_event d e.
Proof.
  intros (body & Hb & He). unfold outcome_of, store_event. rewrite Hb. split; [done|].
  destruct He as [(-> & -> & r' & Hf & _)|(-> & Hc & _ & _ & _ & _ & ->)].
  - apply find_some in Hf. assert (received d e = true) as ->; [|done]. apply existsb_exists. by exists r'.
  - assert (received d e = false) as ->; [|done]. apply not_true_iff_false. intros (r' & Hr & Hs)%existsb_exists.
    apply not_true_iff_false in Hc. apply Hc, existsb_exists. exists r'. split; [done|].
    unfold clashes. simpl. by rewrite Hs.
Qed.
Lemma events_effect_exact policy es d out d' :
  NoDup (map ev_EventID es) ->
  events_effect marshal sha256hex tenant agent policy now es d out d' ->
  Forall (fun e => is_ok (marshal e) = true) es /\ out = map (outcome_of d) es /\
  d' = fold_left store_event (unseen d es) d.
Proof.
  intros Hnd He. induction He as [|e es d o d1 out d2 He _ IH]; [done|]. simpl in Hnd. apply NoDup_cons in Hnd as [Hn Hnd].
  destruct (IH Hnd) as (I1 & -> & ->). apply event_effect_exact in He as (E1 & -> & ->).
  split; [by constructor|]. cbn [unseen List.filter map]. fold (unseen d es).
  destruct (received d e) eqn:Er; cbn [negb fold_left]; [done|].
  by destruct (unseen_others d e es Hn) as [-> ->].
Qed.
Lemma stored_rows es d :
  Forall (event_owned tenant agent) es -> rows_total (fold_left store_event es d) = (rows_total d + length es)%nat.
Proof.
  intros Hes. revert d. induction Hes as [|e es He _ IH]; intros d; simpl; [lia|]. rewrite IH.
  unfold rows_total at 1, store_event, insert_event. unfold event_owned in He. simpl.
  destruct (ev_Metric e), (ev_Process e); simpl; try done; unfold rows_total; rewrite length_app; simpl; lia.
Qed.
End whole.

(** The digest of an event determines its time stamp. *)
Definition digest_time (marshal : IngestEvent -> result error string) (sha256hex : string -> string) : Prop :=
  forall e1 e2 b1 b2, marshal e1 = Ok b1 -> marshal e2 = Ok b2 ->
  sha256hex b1 = sha256hex b2 -> event_time e1 = event_time e2.

Lemma receipted_survives marshal sha256hex tenant agent ops now d e :
  digest_time marshal sha256hex -> ingest_inv marshal sha256hex d ->
  receipted marshal sha256hex tenant agent d e -> in_window now (event_time e) ->
  cleanups_before now ops ->
  receipted marshal sha256hex tenant agent (run_ops marshal sha256hex ops d) e.
Proof.
  intros Hdig [_ Ha] (body & r & Hm & Hr & Hs & Hh) [Hw _] Hops.
  exists body, r. split_and!; [done| |done|done]. eapply run_ops_keeps; [done| |done].
  rewrite Forall_forall in Ha. destruct (Ha r Hr) as (e' & body' & now' & Hm' & Hh' & Hrec & Ht).
  assert (event_time e' = event_time e) as He by (eapply Hdig; [done|done|congruence]).
  unfold cleanup_cutoff. rewrite Hrec. unfold Unix. apply Z.div_le_mono; [unfold second; lia|].
  assert (minute <= 48 * hour) by (vm_compute; discriminate). lia.
Qed.

(** Sample data for the witnesses: one metric event, and an encoding that
    keeps only the time stamp. *)
Definition sample_time : Z := 1000000 * second.
Definition sample_event : IngestEvent :=
  {| ev_EventID := "e1"; ev_BootID := "b1"; ev_Sequence := 1;
     ev_Metric := Some (metric_at sample_time empty_str empty_str f0); ev_Process := None |}.
Definition sample_batch : IngestBatch :=
  {| ib_SchemaVersion := IngestSchema; ib_Events := [sample_event] |}.
Definition sample_marshal (e : IngestEvent) : result error string := Ok (Itoa (event_time e)).
Definition sample_digest (s : string) : string := s.

Lemma sample_digest_time : digest_time sample_marshal sample_digest.
Proof. intros e1 e2 b1 b2 [= <-] [= <-] He. by apply Itoa_inj. Qed.

(** ** Properties *)

Section properties.
Variable marshal : IngestEvent -> result error string.
Variable sha256hex : string -> string.

(** C4. Exactly-once ingestion.  Once a batch has been applied, whether its
    caller saw the reply or lost it at the commit, every later delivery of the
    same batch inside the delivery window answers "duplicate" for each event
    and leaves the database unchanged, whatever deliveries, failures and
    cleanups happened in between. *)
Theorem redelivery_is_duplicate before tenant agent batch policy now fs r d1 fs' between policy2 now2 :
  digest_time marshal sha256hex ->
  let d0 := run_ops marshal sha256hex before empty_ingest in
  AcceptIngest marshal sha256hex tenant agent batch policy now d0 fs = (r, d1, fs') ->
  is_ok r = true \/ d1 <> d0 ->
  cleanups_before now2 between ->
  is_ok (NormalizeIngest batch tenant agent now2) = true ->
  policy_Validate policy2 = Ok tt ->
  let d2 := run_ops marshal sha256hex between d1 in
  AcceptIngest marshal sha256hex tenant agent batch policy2 now2 d2 [] =
    (Ok (map (fun e => duplicate (ev_EventID e)) (ib_Events batch)), d2, []).
Proof.
  intros Hdig d0 Hacc Happlied Hclean Hok2 Hpol d2.
  assert (Hinv0 : ingest_inv marshal sha256hex d0) by apply run_ops_inv, empty_inv.
  assert (Hinv1 : ingest_inv marshal sha256hex d1).
  { pose proof (apply_op_inv marshal sha256hex d0 (Deliver tenant agent batch policy now fs) Hinv0) as Hi.
    simpl in Hi. unfold run_state in Hi. by rewrite Hacc in Hi. }
  assert (Hinv2 : ingest_inv marshal sha256hex d2) by by apply run_ops_inv.
  destruct (NormalizeIngest batch tenant agent now2) as [es|] eqn:En2; [|done].
  pose proof (NormalizeIngest_ok _ _ _ _ _ En2) as (-> & Hes2 & _).
  apply AcceptIngest_inv in Hacc as [[-> [e ->]]|(es & out & En & _ & Heff & _)];
    [destruct Happlied; done|].
  apply NormalizeIngest_ok in En as (-> & _).
  apply events_effect_receipts in Heff as (Hrec & _ & _).
  assert (Hrec2 : Forall (receipted marshal sha256hex tenant agent d2)
                    (map (normal_event tenant agent) (ib_Events batch))).
  { rewrite Forall_forall in Hrec, Hes2 |- *. intros e He.
    eapply receipted_survives; eauto. by destruct (Hes2 e He) as (_ & ? & _). }
  unfold AcceptIngest, mbind, lift. rewrite En2, Hpol. unfold acceptIngest.
  erewrite transaction_nofault by (apply accept_events_replay; [apply Hinv2|exact Hrec2]).
  by rewrite map_map.
Qed.

(** C7. Atomicity.  A delivery either returns an error and leaves the database
    unchanged, or the whole normalised batch is in it: every event that had no
    receipt before has its row, its receipt and its cost in both budgets, in
    the order of the batch, and nothing else has changed; the outcomes are
    "duplicate" for an event that had a receipt and "accepted" for one that had
    none.  The only error that can follow the second is one of the database,
    which lost the reply to the commit.  So nothing is ever left of a batch
    that fails validation, a budget or any statement in its middle. *)
Theorem delivery_is_atomic tenant agent batch policy now d fs r d' fs' :
  AcceptIngest marshal sha256hex tenant agent batch policy now d fs = (r, d', fs') ->
  (d' = d /\ is_ok r = false) \/
  exists events, NormalizeIngest batch tenant agent now = Ok events /\
    map ev_EventID events = map ev_EventID (ib_Events batch) /\
    Forall (fun e => is_ok (marshal e) = true) events /\
    let new := List.filter (fun e => negb (received tenant agent d e)) events in
    d' = fold_left (store_event marshal sha256hex tenant agent now) new d /\
    rows_total d' = (rows_total d + length new)%nat /\
    Forall (receipted marshal sha256hex tenant agent d') events /\
    (r = Ok (map (outcome_of tenant agent d) events) \/ exists e, r = Err (EDb e)).
Proof.
  intros [[-> [e ->]]|(es & out & Hn & _ & He & Hr)]%AcceptIngest_inv; [by left|right].
  exists es. split; [done|]. apply NormalizeIngest_ok in Hn as (-> & Hok & Hnd & _).
  destruct (events_effect_receipts _ _ _ _ _ _ _ _ _ _ He) as [Hrec _].
  destruct (events_effect_exact _ _ _ _ _ _ _ _ _ _ Hnd He) as (Hm & -> & ->).
  split; [by rewrite map_map|]. split; [done|]. cbv zeta. split; [done|]. split; [|done].
  apply stored_rows. apply List.Forall_forall. intros e [Hin _]%List.filter_In.
  rewrite List.Forall_forall in Hok. by destruct (Hok e Hin).
Qed.

(** C13. Budgets.  Under one policy, after any sequence of deliveries and
    failures, the recorded spending of a tenant and of each of its agents on a
    day is exactly the number and the bytes of the events accepted from them
    that day, it never exceeds the daily caps, and the number of stored rows
    is the number of receipts. *)
Theorem budgets_are_exact_and_bounded policy ops :
  policy_Validate policy = Ok tt -> deliveries_only policy ops ->
  accounts policy (run_ops marshal sha256hex ops empty_ingest).
Proof.
  intros Hp Hops.
  assert (Hgen : forall d, accounts policy d -> accounts policy (run_ops marshal sha256hex ops d)).
  { clear Hp. induction Hops as [|o ops Ho _ IH]; intros d Hd; [done|]. simpl. apply IH.
    destruct o as [tenant agent batch p now fs|]; [|done]. subst p. simpl.
    destruct (AcceptIngest_state marshal sha256hex tenant agent batch policy now d fs)
      as [->|(es & out & Hn & He)]; [done|].
    apply NormalizeIngest_ok in Hn as (_ & Hok & _ & _ & _ & Hag).
    eapply events_effect_accounts; [done| |done|done].
    eapply Forall_impl; [exact Hok|]. by intros e [? _]. }
  apply Hgen. unfold policy_Validate, guard in Hp. case_match eqn:Ep; [done|].
  bools. unfold MaxBatchBytes in *. assert (0 <= Z.shiftl 256 10) by done.
  split_and!; [done| |done]. intros t a day. cbv zeta.
  assert (spent (i_budgets empty_ingest) (t, a, day) = (0, 0)) as -> by done. simpl.
  destruct (is_empty a); lia.
Qed.
End properties.

Lemma redelivery_is_duplicate_witness :
  let d1 := run_state (AcceptIngest sample_marshal sample_digest "t_a" "a_1" sample_batch
                         DefaultIngestPolicy sample_time) empty_ingest
                      [None; None; None; None; None; None; None;
                       Some (Lost {| err_msg := "reset"; err_code := "08006" |})] in
  let d2 := run_ops sample_marshal sample_digest [Cleanup (sample_time + hour) []] d1 in
  AcceptIngest sample_marshal sample_digest "t_a" "a_1" sample_batch DefaultIngestPolicy
    (sample_time + 2 * hour) d2 [] = (Ok [duplicate "e1"], d2, []).
Proof.
  apply (redelivery_is_duplicate sample_marshal sample_digest [] "t_a" "a_1" sample_batch
           DefaultIngestPolicy sample_time
           [None; None; None; None; None; None; None;
            Some (Lost {| err_msg := "reset"; err_code := "08006" |})]
           (Err (EDb {| err_msg := "reset"; err_code := "08006" |})) _ []
           [Cleanup (sample_time + hour) []] DefaultIngestPolicy (sample_time + 2 * hour)).
  - exact sample_digest_time.
  - vm_compute. reflexivity.
  - right. intros Heq. apply (f_equal (fun d => length (i_receipts d))) in Heq.
    vm_compute in Heq. discriminate.
  - constructor; [vm_compute; discriminate|constructor].
  - vm_compute. reflexivity.
  - reflexivity.
Defined.

(** The same delivery, once answered and once with the reply of its commit
    lost: both leave the batch. *)
Lemma delivery_is_atomic_witness :
  let deliver := AcceptIngest sample_marshal sample_digest "t_a" "a_1" sample_batch DefaultIngestPolicy sample_time empty_ingest in
  rows_total (deliver []).1.2 = 1%nat /\
  let lost := deliver [None; None; None; None; None; None; None; Some (Lost {| err_msg := "reset"; err_code := "08006" |})] in
  is_ok lost.1.1 = false /\ exists events, NormalizeIngest sample_batch "t_a" "a_1" sample_time = Ok events /\
    lost.1.2 = fold_left (store_event sample_marshal sample_digest "t_a" "a_1" sample_time) events empty_ingest.
Proof.
  cbv zeta. split; [vm_compute; reflexivity|]. split; [vm_compute; reflexivity|].
  destruct (AcceptIngest sample_marshal sample_digest "t_a" "a_1" sample_batch DefaultIngestPolicy sample_time empty_ingest
    [None; None; None; None; None; None; None; Some (Lost {| err_msg := "reset"; err_code := "08006" |})])
    as [[r d'] fs'] eqn:E.
  destruct (delivery_is_atomic sample_marshal sample_digest "t_a" "a_1" sample_batch
              DefaultIngestPolicy sample_time empty_ingest _ r d' fs' E)
    as [[-> _]|(events & Hn & _ & _ & Hd & _)].
  - exfalso. apply (f_equal (fun x => length (i_receipts x.1.2))) in E. vm_compute in E. discriminate.
  - exists events. split; [exact Hn|]. cbn [fst snd]. rewrite Hd. f_equal.
    vm_compute in Hn. injection Hn as <-. vm_compute. reflexivity.
Defined.

Lemma budgets_are_exact_and_bounded_witness :
  accounts DefaultIngestPolicy
    (run_ops sample_marshal sample_digest
       [Deliver "t_a" "a_1" sample_batch DefaultIngestPolicy sample_time []] empty_ingest).
Proof.
  apply budgets_are_exact_and_bounded; [reflexivity|]. constructor; [reflexivity|constructor].
Defined.

(** Validation.  A normalised batch has 1 to 64 events with distinct ids,
    each with exactly one payload that belongs to the authenticated tenant and
    agent, and a time stamp between 30 days ago and a minute ahead; what it
    contains does not depend on when it is validated. *)
Lemma normalized_batch_ok batch tenant agent now es :
  NormalizeIngest batch tenant agent now = Ok es ->
  RequireTenant_fails tenant = false /\ is_empty agent = false /\
  (1 <= length es <= 64)%nat /\ NoDup (map ev_EventID es) /\
  Forall (event_ok tenant agent now) es /\
  (forall now' es', NormalizeIngest batch tenant agent now' = Ok es' -> es' = es).
Proof.
  intros (-> & ? & ? & ? & ? & ?)%NormalizeIngest_ok. split_and!; try done; try lia.
  by intros now' es' (-> & _)%NormalizeIngest_ok.
Qed.

Lemma normalized_batch_ok_witness :
  Forall (event_ok "t_a" "a_1" sample_time) [normal_event "t_a" "a_1" sample_event].
Proof.
  apply (normalized_batch_ok sample_batch "t_a" "a_1" sample_time). vm_compute. reflexivity.
Defined.

(** Decoding.  Of a well-formed JSON document, the token scan accepts
    exactly those nested at most 16 levels deep in which no object has a
    repeated key, and it consumes exactly the document. *)
Lemma inspect_accepts_exactly (v : json) (rest : list token) :
  inspectJSONValue (S (length (tokens v ++ rest))) (tokens v ++ rest) 0 = Ok rest <-> fits 0 v = true.
Proof.
  assert (Hlen : (length (tokens v) <= S (length (tokens v ++ rest)))%nat)
    by (rewrite length_app; lia).
  pose proof (inspect_value v _ 0 rest Hlen) as Hi. unfold accepts in Hi. destruct (fits 0 v).
  - by rewrite Hi.
  - destruct Hi as [e ->]. done.
Qed.
