(* ===== verification/Ledger.v ===== *)
(** * The ledger: what ingestion promises

    The abstract view of the ingestion tables is a finite map from the identity
    of an event (tenant, agent, event id) to its content.  A batch is entered
    whole or not at all; an entry is never overwritten; old entries may be
    forgotten.  The transaction of [Ingest], with its two unique constraints,
    budgets, lost replies and clean-ups, refines this specification. *)

From S2P Require Export Ingest.
Open Scope list_scope.
Open Scope Z_scope.

Notation ledger := (gmap (string * string * string) string).

(** Entering the events of one agent, in order: the outcome of each, or nothing
    when one contradicts its entry. *)
Fixpoint enter (tenant agent : string) (es : list (string * string)) (L : ledger)
  : option (list IngestOutcome * ledger) :=
  match es with
  | [] => Some ([], L)
  | (id, content) :: es' =>
      match L !! (tenant, agent, id) with
      | None =>
          match enter tenant agent es' (<[(tenant, agent, id) := content]> L) with
          | Some (out, L') => Some (accepted id :: out, L')
          | None => None
          end
      | Some content' =>
          if String.eqb content' content then
            match enter tenant agent es' L with
            | Some (out, L') => Some (duplicate id :: out, L')
            | None => None
            end
          else None
      end
  end.

(** What happens to a ledger. *)
Inductive ledger_move :=
| Enter (tenant agent : string) (es : list (string * string)) (out : list IngestOutcome)
| Refuse
| Forget.
Inductive moves : ledger_move -> ledger -> ledger -> Prop :=
| MEnter tenant agent es out L L' : enter tenant agent es L = Some (out, L') -> moves (Enter tenant agent es out) L L'
| MRefuse L : moves Refuse L L
| MForget L L' : L' ⊆ L -> moves Forget L L'.
Inductive history : list ledger_move -> ledger -> ledger -> Prop :=
| HNil L : history [] L L
| HCons m ms L L1 L2 : moves m L L1 -> history ms L1 L2 -> history (m :: ms) L L2.

(** ** Laws of the specification *)

Lemma enter_grows tenant agent es L out L' : enter tenant agent es L = Some (out, L') -> L ⊆ L'.
Proof.
  revert L out L'. induction es as [|[id c] es IH]; intros L out L' He; simpl in He; [by simplify_eq|].
  destruct (L !! _) as [c'|] eqn:El.
  - destruct (String.eqb c' c); [|done]. destruct (enter _ _ es L) as [[o1 L1]|] eqn:E; [|done]. simplify_eq. by eapply IH.
  - destruct (enter _ _ es _) as [[o1 L1]|] eqn:E; [|done]. simplify_eq.
    transitivity (<[(tenant, agent, id):=c]> L); [by apply insert_subseteq|by eapply IH].
Qed.
(** Every event entered is in the ledger, with its content. *)
Lemma enter_holds tenant agent es L out L' :
  enter tenant agent es L = Some (out, L') -> Forall (fun e => L' !! (tenant, agent, e.1) = Some e.2) es.
Proof.
  revert L out L'. induction es as [|[id c] es IH]; intros L out L' He; simpl in He; [constructor|].
  destruct (L !! _) as [c'|] eqn:El.
  - destruct (String.eqb_spec c' c) as [->|]; [|done]. destruct (enter _ _ es L) as [[o1 L1]|] eqn:E; [|done]. simplify_eq.
    constructor; [|by eapply IH]. simpl. eapply lookup_weaken; [exact El|by eapply enter_grows].
  - destruct (enter _ _ es _) as [[o1 L1]|] eqn:E; [|done]. simplify_eq. constructor; [|by eapply IH]. simpl.
    eapply lookup_weaken; [|by eapply enter_grows]. apply lookup_insert_eq.
Qed.
(** Entering them again changes nothing. *)
Lemma enter_again tenant agent es L :
  Forall (fun e => L !! (tenant, agent, e.1) = Some e.2) es ->
  enter tenant agent es L = Some (map (fun e => duplicate e.1) es, L).
Proof.
  induction 1 as [|[id c] es He _ IH]; [done|]. simpl in *. by rewrite He, String.eqb_refl, IH.
Qed.

(** ** The refinement *)

Section refinement.
Variable marshal : IngestEvent -> result error string.
Variable sha256hex : string -> string.

Definition ledger_of (d : ingest_db) : ledger := list_to_map (map (fun r => (event_key r, rc_hash r)) (i_receipts d)).
Definition content (e : IngestEvent) : string :=
  match marshal e with Ok body => sha256hex body | Err _ => EmptyString end.
Definition entries (es : list IngestEvent) : list (string * string) := map (fun e => (ev_EventID e, content e)) es.

Lemma ledger_of_Some d k h :
  receipts_unique (i_receipts d) ->
  ledger_of d !! k = Some h <-> exists r, r ∈ i_receipts d /\ event_key r = k /\ rc_hash r = h.
Proof.
  intros [Hu _]. etransitivity; [symmetry; apply (elem_of_list_to_map (M := gmap (string * string * string)))|].
  - rewrite <- list_fmap_compose. exact Hu.
  - rewrite list_elem_of_fmap. split.
    + intros (r & [= -> ->] & Hr). by exists r.
    + intros (r & Hr & <- & <-). by exists r.
Qed.
Lemma event_effect_enters tenant agent policy now e d o d' :
  receipts_unique (i_receipts d) ->
  event_effect marshal sha256hex tenant agent policy now e d o d' ->
  let k := (tenant, agent, ev_EventID e) in
  match ledger_of d !! k with
  | Some c => c = content e /\ o = duplicate (ev_EventID e) /\ d' = d
  | None => o = accepted (ev_EventID e) /\ ledger_of d' = <[k := content e]> (ledger_of d)
  end.
Proof.
  intros Hu (body & Hm & Heff). cbv zeta. unfold content. rewrite Hm.
  destruct Heff as [(-> & -> & r & Hf & Hh)|(-> & Hc & _ & _ & _ & _ & ->)].
  - apply find_receipt_Some in Hf as [Hr Hs]. apply same_event_key in Hs.
    rewrite (proj2 (ledger_of_Some d _ (rc_hash r) Hu)) by (by exists r). by rewrite Hh.
  - destruct (ledger_of d !! _) as [c|] eqn:El.
    { apply ledger_of_Some in El as (r & Hr & Hk & _); [|done]. exfalso.
      assert (existsb (clashes (mk_receipt sha256hex tenant agent now e body)) (i_receipts d) = true); [|congruence].
      apply existsb_exists. exists r. rewrite <- list_elem_of_In. split; [done|]. apply clashes_keys. by left. }
    split; [done|]. unfold ledger_of. simpl. rewrite map_app, list_to_map_app. simpl.
    fold (ledger_of d). rewrite <- insert_union_r by exact El. by rewrite map_union_empty.
Qed.
Lemma events_effect_enters tenant agent policy now es d out d' :
  events_effect marshal sha256hex tenant agent policy now es d out d' -> receipts_unique (i_receipts d) ->
  enter tenant agent (entries es) (ledger_of d) = Some (out, ledger_of d').
Proof.
  induction 1 as [|e es d o d1 out d2 He _ IH]; intros Hu; [done|].
  pose proof (event_effect_enters _ _ _ _ _ _ _ _ Hu He) as Hstep. cbv zeta in Hstep.
  apply event_effect_receipts in He as (_ & _ & Hu1). specialize (IH (Hu1 Hu)). simpl.
  destruct (ledger_of d !! _) as [c|].
  - destruct Hstep as (-> & -> & ->). by rewrite String.eqb_refl, IH.
  - destruct Hstep as (-> & <-). by rewrite IH.
Qed.

(** What the client of an operation is told. *)
Definition reply_of (d : ingest_db) (o : op) : result error (list IngestOutcome) :=
  match o with
  | Deliver tenant agent batch policy now fs =>
      run_result (AcceptIngest marshal sha256hex tenant agent batch policy now) d fs
  | Cleanup _ _ => Ok []
  end.
(** The move behind an operation: a delivery that reports outcomes has entered
    exactly the batch with those outcomes; one that reports an error may have
    entered it too, its reply being lost. *)
Definition explains (d : ingest_db) (o : op) (m : ledger_move) : Prop :=
  match o, m with
  | Deliver tenant agent batch _ now _, Enter t a es out =>
      t = tenant /\ a = agent /\ es = entries (map (normal_event tenant agent) (ib_Events batch)) /\
      (reply_of d o = Ok out \/ exists e, reply_of d o = Err e)
  | Deliver _ _ _ _ _ _, Refuse => exists e, reply_of d o = Err e
  | Cleanup _ _, Forget => True
  | _, _ => False
  end.
Fixpoint explained (d : ingest_db) (ops : list op) (ms : list ledger_move) : Prop :=
  match ops, ms with
  | [], [] => True
  | o :: ops', m :: ms' => explains d o m /\ explained (apply_op marshal sha256hex d o) ops' ms'
  | _, _ => False
  end.

Lemma apply_op_moves d o :
  ingest_inv marshal sha256hex d ->
  exists m, explains d o m /\ moves m (ledger_of d) (ledger_of (apply_op marshal sha256hex d o)).
Proof.
  intros Hinv. pose proof Hinv as [Hu _]. destruct o as [tenant agent batch policy now fs|now fs]; simpl.
  - unfold run_state, run_result. destruct (AcceptIngest _ _ _ _ _ _ _ d fs) as [[r d'] fs'] eqn:E. simpl.
    apply AcceptIngest_inv in E as [[-> [e ->]]|(es & out & Hn & _ & Heff & Hr)].
    + exists Refuse. split; [by eexists|constructor].
    + exists (Enter tenant agent (entries es) out). apply NormalizeIngest_ok in Hn as (-> & _). split.
      * split_and!; [done..|]. destruct Hr as [->|[e ->]]; eauto.
      * constructor. by eapply events_effect_enters.
  - exists Forget. split; [done|]. constructor. apply map_subseteq_spec. intros k h.
    assert (Hsub : i_receipts (run_state (cleanupIngest now) d fs) `sublist_of` i_receipts d).
    { destruct (cleanupIngest_receipts now d fs) as [->| ->]; [done|apply sublist_filter]. }
    assert (Hu' : receipts_unique (i_receipts (run_state (cleanupIngest now) d fs)))
      by by eapply receipts_unique_sublist.
    rewrite !ledger_of_Some by done. intros (r & Hr & ?). exists r. split; [|done].
    by eapply elem_of_sublist.
Qed.

(** C5. Ingestion refines the ledger.  Whatever deliveries and clean-ups run,
    with whatever failures and lost replies, the receipts are at every moment
    those of a ledger that entered some of the batches whole, in order, and
    forgot some entries; every reply with outcomes is the ledger's own. *)
Theorem ingestion_refines_ledger ops d :
  ingest_inv marshal sha256hex d ->
  exists ms, explained d ops ms /\ history ms (ledger_of d) (ledger_of (run_ops marshal sha256hex ops d)).
Proof.
  revert d. induction ops as [|o ops IH]; intros d Hd; [exists []; split; [done|constructor]|].
  destruct (apply_op_moves d o Hd) as (m & Hm & Hmove).
  destruct (IH _ (apply_op_inv marshal sha256hex d o Hd)) as (ms & Hms & Hhist).
  exists (m :: ms). split; [done|]. by econstructor.
Qed.
End refinement.

Lemma ingestion_refines_ledger_witness :
  exists ms, explained sample_marshal sample_digest empty_ingest
    [Deliver "t_a" "a_1" sample_batch DefaultIngestPolicy sample_time []; Cleanup (sample_time + hour) []] ms /\
    history ms ∅ (ledger_of (run_ops sample_marshal sample_digest
      [Deliver "t_a" "a_1" sample_batch DefaultIngestPolicy sample_time []; Cleanup (sample_time + hour) []] empty_ingest)).
Proof.
  apply (ingestion_refines_ledger sample_marshal sample_digest
    [Deliver "t_a" "a_1" sample_batch DefaultIngestPolicy sample_time []; Cleanup (sample_time + hour) []] empty_ingest).
  exact (empty_inv sample_marshal sample_digest).
Defined.
