(* ===== verification/ApiKeys.v ===== *)
(** * Credentials ([storage/apikeys.go])

    The table of hashed credentials with its two unique constraints (the key
    hash, and one active agent per tenant and server), the enrollment
    handshakes and the shared revocation counter [auth_epoch].

    The SQLite and the Postgres methods run the same statements; they differ
    in how they recognise "no row" and a violated unique constraint.  A
    [Dialect] carries these differences, the operations are written over it,
    and the modules [SQLite] and [Postgres] instantiate them.  The digest
    SHA-256 and the random bytes are parameters.  Tables are created once per
    connection before any of this ([ensureAPIKeys]); [time.Now] is an
    argument. *)

From S2P Require Export Db.
Open Scope list_scope.
Open Scope Z_scope.

(** ** Names *)

Definition ErrAPIKeyNotFound : error := EMsg "storage: api key not found".
Definition ErrAPIKeyRevoked : error := EMsg "storage: api key revoked".
Definition ErrMissingCredentialFields : error := EMsg "storage: api key record needs Kind and Scope".
Definition ErrAmbiguousClientName : error := EMsg "storage: client display name is ambiguous".

Definition KindEnroll : string := "enroll".
Definition KindAgent : string := "agent".
Definition KindRead : string := "read".
Definition KindAdmin : string := "admin".
Definition KindLegacy : string := "legacy".
Definition ScopeIngest : string := "ingest".
Definition ScopeRead : string := "read".
Definition ScopeAdmin : string := "admin".
Definition ScopeAll : string := "all".
Definition ScopeEnroll : string := "enroll".
Definition PrefixAgent : string := "wma_".
Definition PrefixRead : string := "wmr_".
Definition PrefixAdmin : string := "wmk_".
Definition PrefixEnroll : string := "wme_".

Record APIKeyRecord := {
  rec_ID : Z;
  rec_TenantID : string;
  rec_ClientName : string;
  rec_KeyHash : string;
  rec_KeyPrefix : string;
  rec_Kind : string;
  rec_Scope : string;
  rec_ExpiresAt : Z;
  rec_MaxUses : Z;
  rec_Uses : Z;
  rec_ServerID : string;
  rec_IssuedBy : string;
  rec_CreatedAt : Z;
  rec_LastSeenAt : Z;
  rec_Revoked : bool
}.

(** ** Tokens and codes *)

Definition crockfordAlphabet : string := "0123456789ABCDEFGHJKMNPQRSTVWXYZ".

(** [GenerateToken]: [encoded] is the base64url text of 32 random bytes. *)
Definition GenerateToken (kind encoded : string) : string :=
  if String.eqb kind KindAgent then PrefixAgent +:+ encoded
  else if String.eqb kind KindRead then PrefixRead +:+ encoded
  else if String.eqb kind KindAdmin then PrefixAdmin +:+ encoded
  else if String.eqb kind KindEnroll then PrefixEnroll +:+ encoded
  else encoded.

Definition crockford (b : Z) : ascii :=
  default "0"%char (String.get (Z.to_nat (b `mod` 32)) crockfordAlphabet).
Fixpoint crockford_string (bytes : list Z) : string :=
  match bytes with
  | [] => EmptyString
  | b :: bs => String (crockford b) (crockford_string bs)
  end.
(** [WM-XXXX-XXXX-XXXX] *)
Definition format_code (chars : string) : string :=
  "WM-" +:+ stake 4 chars +:+ "-" +:+ stake 4 (sdrop 4 chars) +:+ "-" +:+ stake 4 (sdrop 8 chars).
(** [GenerateEnrollCode] from its 12 random bytes. *)
Definition GenerateEnrollCode (bytes : list Z) : string := format_code (crockford_string bytes).

Section codes.
Context `{Unicode}.

Definition NormalizeEnrollCode (code : string) : string :=
  let code := TrimSpace code in
  if HasPrefix code PrefixEnroll then code
  else
    let cleaned := ToUpper (RemoveByte " " (RemoveByte "-" code)) in
    if HasPrefix cleaned "WM" && (slen cleaned =? 14) then format_code (sdrop 2 cleaned)
    else cleaned.

Definition ExtractKeyPrefix (token : string) : string :=
  let token := TrimSpace token in
  if (4 <=? slen token) && match String.get 3 token with Some c => Ascii.eqb c "_" | None => false end
  then stake 4 token
  else if HasPrefix (ToUpper token) "WM-" then "wme_"
  else if 8 <? slen token then stake 8 token
  else empty_str.

Variable sha256hex : string -> string.
Definition HashAPIKey (key : string) : string := sha256hex (TrimSpace key).
Definition HashEnrollCode (code : string) : string := HashAPIKey (NormalizeEnrollCode code).

(** [UniqueTenantForClientName] *)
Definition UniqueTenantForClientName (keys : list APIKeyRecord) (name : string) : result error string :=
  let name := TrimSpace name in
  if is_empty name then Err (EMsg "storage: client name is required")
  else
    let matching := List.filter (fun k => EqualFold (rec_ClientName k) name && negb (is_empty (rec_TenantID k))) keys in
    match remove_dups (map rec_TenantID matching) with
    | [] => Ok empty_str
    | [id] => Ok id
    | _ => Err ErrAmbiguousClientName
    end.
End codes.

Definition is_hex (c : ascii) : bool :=
  is_digit c || ((97 <=? code c) && (code c <=? 102)) || ((65 <=? code c) && (code c <=? 70)).
Definition IsOpaqueTenantID (tenantID : string) : bool :=
  if is_empty tenantID || String.eqb tenantID "admin" then true
  else if negb (HasPrefix tenantID "t_") then false
  else let hexPart := sdrop 2 tenantID in
       if slen hexPart <? 16 then false else string_forall is_hex hexPart.
(** [NewTenantID] from the hex text of its 16 random bytes. *)
Definition NewTenantID (hex : string) : string := "t_" +:+ hex.

(** ** The tables *)

Record key_row := {
  k_id : Z;
  k_key_hash : string;
  k_tenant_id : string;
  k_client_name : string;
  k_kind : string;
  k_scope : string;
  k_key_prefix : string;
  k_expires_at : Z;
  k_max_uses : Z;
  k_uses : Z;
  k_server_id : string;
  k_issued_by : string;
  k_created_at : Z;
  k_last_seen_at : Z;
  k_revoked_at : Z
}.
Record handshake := {
  h_code_hash : string;
  h_server_id : string;
  h_tenant_id : string;
  h_token : string;
  h_key_hash : string;
  h_created_at : Z;
  h_expires_at : Z
}.
Record auth_db := {
  t_keys : list key_row;
  t_next_id : Z;
  t_handshakes : list handshake;
  t_epoch : Z;
  t_epoch_at : Z
}.
Definition empty_auth : auth_db :=
  {| t_keys := []; t_next_id := 1; t_handshakes := []; t_epoch := 0; t_epoch_at := 0 |}.

Definition with_keys (ks : list key_row) (d : auth_db) : auth_db :=
  {| t_keys := ks; t_next_id := t_next_id d; t_handshakes := t_handshakes d;
     t_epoch := t_epoch d; t_epoch_at := t_epoch_at d |}.
Definition with_handshakes (hs : list handshake) (d : auth_db) : auth_db :=
  {| t_keys := t_keys d; t_next_id := t_next_id d; t_handshakes := hs;
     t_epoch := t_epoch d; t_epoch_at := t_epoch_at d |}.

Definition set_uses (n : Z) (k : key_row) : key_row :=
  {| k_id := k_id k; k_key_hash := k_key_hash k; k_tenant_id := k_tenant_id k;
     k_client_name := k_client_name k; k_kind := k_kind k; k_scope := k_scope k;
     k_key_prefix := k_key_prefix k; k_expires_at := k_expires_at k; k_max_uses := k_max_uses k;
     k_uses := n; k_server_id := k_server_id k; k_issued_by := k_issued_by k;
     k_created_at := k_created_at k; k_last_seen_at := k_last_seen_at k; k_revoked_at := k_revoked_at k |}.
Definition set_last_seen (t : Z) (k : key_row) : key_row :=
  {| k_id := k_id k; k_key_hash := k_key_hash k; k_tenant_id := k_tenant_id k;
     k_client_name := k_client_name k; k_kind := k_kind k; k_scope := k_scope k;
     k_key_prefix := k_key_prefix k; k_expires_at := k_expires_at k; k_max_uses := k_max_uses k;
     k_uses := k_uses k; k_server_id := k_server_id k; k_issued_by := k_issued_by k;
     k_created_at := k_created_at k; k_last_seen_at := t; k_revoked_at := k_revoked_at k |}.
Definition set_revoked (t : Z) (k : key_row) : key_row :=
  {| k_id := k_id k; k_key_hash := k_key_hash k; k_tenant_id := k_tenant_id k;
     k_client_name := k_client_name k; k_kind := k_kind k; k_scope := k_scope k;
     k_key_prefix := k_key_prefix k; k_expires_at := k_expires_at k; k_max_uses := k_max_uses k;
     k_uses := k_uses k; k_server_id := k_server_id k; k_issued_by := k_issued_by k;
     k_created_at := k_created_at k; k_last_seen_at := k_last_seen_at k; k_revoked_at := t |}.
(** [DO UPDATE SET ... = excluded....]: identity, use count, creation and
    revocation are kept. *)
Definition overwrite (new old : key_row) : key_row :=
  {| k_id := k_id old; k_key_hash := k_key_hash old; k_tenant_id := k_tenant_id new;
     k_client_name := k_client_name new; k_kind := k_kind new; k_scope := k_scope new;
     k_key_prefix := k_key_prefix new; k_expires_at := k_expires_at new; k_max_uses := k_max_uses new;
     k_uses := k_uses old; k_server_id := k_server_id new; k_issued_by := k_issued_by new;
     k_created_at := k_created_at old; k_last_seen_at := k_last_seen_at old;
     k_revoked_at := k_revoked_at old |}.

(** [rows.Scan] into an [APIKeyRecord] *)
Definition scanAPIKey (k : key_row) : APIKeyRecord :=
  {| rec_ID := k_id k; rec_TenantID := k_tenant_id k; rec_ClientName := k_client_name k;
     rec_KeyHash := k_key_hash k; rec_KeyPrefix := k_key_prefix k; rec_Kind := k_kind k;
     rec_Scope := k_scope k; rec_ExpiresAt := of_unix (k_expires_at k); rec_MaxUses := k_max_uses k;
     rec_Uses := k_uses k; rec_ServerID := k_server_id k; rec_IssuedBy := k_issued_by k;
     rec_CreatedAt := of_unix (k_created_at k); rec_LastSeenAt := of_unix (k_last_seen_at k);
     rec_Revoked := negb (k_revoked_at k =? 0) |}.

(** [UPDATE api_keys SET ... WHERE ...]: the number of rows and the table. *)
Definition update_keys (p : key_row -> bool) (f : key_row -> key_row) (d : auth_db) : Z * auth_db :=
  (Z.of_nat (length (List.filter p (t_keys d))),
   with_keys (map (fun k => if p k then f k else k) (t_keys d)) d).
Definition find_key (hash : string) (ks : list key_row) : option key_row :=
  List.find (fun k => String.eqb (k_key_hash k) hash) ks.

(** The partial unique index [idx_api_keys_one_active_agent]. *)
Definition active_agent (k : key_row) : bool :=
  String.eqb (k_kind k) KindAgent && (k_revoked_at k =? 0) && negb (is_empty (k_server_id k)).
Definition active_at (tenant server : string) (k : key_row) : bool :=
  String.eqb (k_tenant_id k) tenant && String.eqb (k_server_id k) server &&
  String.eqb (k_kind k) KindAgent && (k_revoked_at k =? 0).
Definition agent_clash (new k : key_row) : bool :=
  active_agent new && active_agent k &&
  String.eqb (k_tenant_id k) (k_tenant_id new) && String.eqb (k_server_id k) (k_server_id new).

(** How a backend reports the two situations the code distinguishes. *)
Class Dialect := {
  unique_violation : dberr;
  is_unique : error -> bool;
  is_no_rows : error -> bool;
  is_unique_ok : is_unique (EDb unique_violation) = true;
  is_no_rows_ok : is_no_rows ErrNoRows = true
}.

Section operations.
Context `{Dialect}.

(** [INSERT INTO api_keys ... VALUES ...] *)
Definition insert_key (k : key_row) (d : auth_db) : result error (unit * auth_db) :=
  if existsb (fun k' => String.eqb (k_key_hash k') (k_key_hash k) || agent_clash k k') (t_keys d)
  then Err (EDb unique_violation)
  else Ok (tt, {| t_keys := t_keys d ++
                    [{| k_id := t_next_id d; k_key_hash := k_key_hash k; k_tenant_id := k_tenant_id k;
                        k_client_name := k_client_name k; k_kind := k_kind k; k_scope := k_scope k;
                        k_key_prefix := k_key_prefix k; k_expires_at := k_expires_at k;
                        k_max_uses := k_max_uses k; k_uses := k_uses k; k_server_id := k_server_id k;
                        k_issued_by := k_issued_by k; k_created_at := k_created_at k;
                        k_last_seen_at := k_last_seen_at k; k_revoked_at := k_revoked_at k |}];
                  t_next_id := t_next_id d + 1; t_handshakes := t_handshakes d;
                  t_epoch := t_epoch d; t_epoch_at := t_epoch_at d |}).
(** [... ON CONFLICT(key_hash) DO UPDATE SET ...] *)
Definition upsert_key (k : key_row) (d : auth_db) : result error (unit * auth_db) :=
  match find_key (k_key_hash k) (t_keys d) with
  | None => insert_key k d
  | Some old =>
      let new := overwrite k old in
      if existsb (fun k' => negb (String.eqb (k_key_hash k') (k_key_hash k)) && agent_clash new k') (t_keys d)
      then Err (EDb unique_violation)
      else Ok (tt, (update_keys (fun k' => String.eqb (k_key_hash k') (k_key_hash k)) (overwrite k) d).2)
  end.

(** [if errors.Is(err, sql.ErrNoRows) { ... }; if err != nil { ... }] *)
Definition no_rows_is {S A : Type} (e : error) (m : M S A) : M S A :=
  let* r := attempt m in
  match r with
  | Ok a => ret a
  | Err err => fail (if is_no_rows err then e else err)
  end.

Definition ResolveAPIKey (keyHash : string) (now : Z) : M auth_db APIKeyRecord :=
  let* k := no_rows_is ErrAPIKeyNotFound (query_row (fun d => find_key keyHash (t_keys d))) in
  let rec := scanAPIKey k in
  if String.eqb (rec_Kind rec) KindEnroll then fail ErrAPIKeyNotFound
  else if rec_Revoked rec then fail ErrAPIKeyNotFound
  else if (0 <? k_expires_at k) && (k_expires_at k <=? Unix now) then fail ErrAPIKeyNotFound
  else if (0 <? rec_MaxUses rec) && (rec_MaxUses rec <=? rec_Uses rec) then fail ErrAPIKeyNotFound
  else ret rec.

(** The record comes with [ErrAPIKeyRevoked] when the row is revoked. *)
Definition LookupAPIKey (keyHash : string) : M auth_db (APIKeyRecord * option error) :=
  let* k := no_rows_is ErrAPIKeyNotFound (query_row (fun d => find_key keyHash (t_keys d))) in
  let rec := scanAPIKey k in
  if rec_Revoked rec then ret (rec, Some ErrAPIKeyRevoked) else ret (rec, None).

Definition code_usable (codeHash : string) (now : Z) (k : key_row) : bool :=
  String.eqb (k_key_hash k) codeHash && (k_revoked_at k =? 0) && String.eqb (k_kind k) KindEnroll &&
  ((k_expires_at k =? 0) || (now <? k_expires_at k)) &&
  ((k_max_uses k =? 0) || (k_uses k <? k_max_uses k)).
Definition use_code (k : key_row) : key_row := set_uses (k_uses k + 1) k.

(** [UPDATE ... RETURNING]: no row matches, or the updated one is returned. *)
Definition consume_code (codeHash : string) (now : Z) (d : auth_db) : result error (key_row * auth_db) :=
  let d' := (update_keys (code_usable codeHash now) use_code d).2 in
  match List.find (code_usable codeHash now) (t_keys d) with
  | Some k => Ok (use_code k, d')
  | None => Err ErrNoRows
  end.
Definition ConsumeEnrollCode (codeHash : string) (now : Z) : M auth_db APIKeyRecord :=
  let* k := no_rows_is ErrAPIKeyNotFound (statement (consume_code codeHash (Unix now))) in
  ret {| rec_ID := k_id k; rec_TenantID := k_tenant_id k; rec_ClientName := k_client_name k;
         rec_KeyHash := k_key_hash k; rec_KeyPrefix := k_key_prefix k; rec_Kind := k_kind k;
         rec_Scope := k_scope k; rec_ExpiresAt := of_unix (k_expires_at k);
         rec_MaxUses := k_max_uses k; rec_Uses := k_uses k; rec_ServerID := k_server_id k;
         rec_IssuedBy := k_issued_by k; rec_CreatedAt := of_unix (k_created_at k);
         rec_LastSeenAt := of_unix (k_last_seen_at k); rec_Revoked := false |}.

Definition drop_handshakes (keyHash : string) (d : auth_db) : unit * auth_db :=
  (tt, with_handshakes (List.filter (fun h => negb (String.eqb (h_key_hash h) keyHash)) (t_handshakes d)) d).
Definition TouchAPIKey (keyHash : string) (now : Z) : M auth_db unit :=
  let* _ := exec (update_keys (fun k => String.eqb (k_key_hash k) keyHash) (set_last_seen (Unix now))) in
  exec (drop_handshakes keyHash).

Definition UpsertAPIKey (rec : APIKeyRecord) (now : Z) : M auth_db unit :=
  if is_empty (rec_KeyHash rec) || is_empty (rec_TenantID rec)
  then fail (EMsg "storage: api key record needs KeyHash and TenantID")
  else if is_empty (rec_Kind rec) || is_empty (rec_Scope rec) then fail ErrMissingCredentialFields
  else
    let created := if IsZero (rec_CreatedAt rec) then now else rec_CreatedAt rec in
    let expiresAt := if IsZero (rec_ExpiresAt rec) then 0 else Unix (rec_ExpiresAt rec) in
    statement (upsert_key
      {| k_id := 0; k_key_hash := rec_KeyHash rec; k_tenant_id := rec_TenantID rec;
         k_client_name := rec_ClientName rec; k_kind := rec_Kind rec; k_scope := rec_Scope rec;
         k_key_prefix := rec_KeyPrefix rec; k_expires_at := expiresAt; k_max_uses := rec_MaxUses rec;
         k_uses := rec_Uses rec; k_server_id := rec_ServerID rec; k_issued_by := rec_IssuedBy rec;
         k_created_at := Unix created; k_last_seen_at := 0; k_revoked_at := 0 |}).

Definition bumpAuthEpoch (now : Z) (d : auth_db) : unit * auth_db :=
  (tt, {| t_keys := t_keys d; t_next_id := t_next_id d; t_handshakes := t_handshakes d;
          t_epoch := t_epoch d + 1; t_epoch_at := now |}).

(** The common shape of the three revocations: two statements, no
    transaction. *)
Definition revoke_where (p : key_row -> bool) (now : Z) : M auth_db Z :=
  let* n := exec (update_keys p (set_revoked (Unix now))) in
  let* _ := whenM (0 <? n) (exec (bumpAuthEpoch (Unix now))) in
  ret n.
Definition RevokeAPIKey (clientName : string) (now : Z) : M auth_db Z :=
  revoke_where (fun k => String.eqb (k_client_name k) clientName && (k_revoked_at k =? 0)) now.
Definition RevokeKeyHash (keyHash : string) (now : Z) : M auth_db Z :=
  if is_empty keyHash then fail (EMsg "storage: key hash is required")
  else revoke_where (fun k => String.eqb (k_key_hash k) keyHash && (k_revoked_at k =? 0)) now.
Definition RevokeAgent (tenantID serverID : string) (now : Z) : M auth_db Z :=
  revoke_where (active_at tenantID serverID) now.

(** Rows that compare equal come in an unspecified order. *)
Definition seen_le (a b : key_row) : Prop :=
  k_last_seen_at b < k_last_seen_at a \/
  (k_last_seen_at b = k_last_seen_at a /\ k_created_at b <= k_created_at a).
#[export] Instance seen_le_dec (a b : key_row) : Decision (seen_le a b).
Proof. unfold seen_le. apply _. Defined.
Definition ListAgents (tenantID : string) : M auth_db (list APIKeyRecord) :=
  query (fun d => map scanAPIKey (merge_sort seen_le
    (List.filter (fun k => String.eqb (k_kind k) KindAgent &&
                           (is_empty tenantID || String.eqb (k_tenant_id k) tenantID)) (t_keys d)))).

(** [ORDER BY client_name, created_at] in the text order [le]. *)
Definition ListAPIKeys (le : key_row -> key_row -> Prop) `{!forall a b, Decision (le a b)}
  : M auth_db (list APIKeyRecord) :=
  query (fun d => map scanAPIKey (merge_sort le (t_keys d))).
End operations.

(** ** Enrollment codes *)

(** What the normalisation needs of a code character. *)
Definition plain_code_char (c : ascii) : bool :=
  negb (Ascii.eqb c "-") && negb (Ascii.eqb c " ") && Ascii.eqb (upper_char c) c &&
  Ascii.eqb (upper_char (lower_char c)) c && is_ascii_char c && is_ascii_char (lower_char c) &&
  visible c && visible (lower_char c) && negb (Ascii.eqb (lower_char c) "-") &&
  negb (Ascii.eqb (lower_char c) " ") && negb (Ascii.eqb c "_") && negb (Ascii.eqb (lower_char c) "_").

Lemma crockford_plain (b : Z) : plain_code_char (crockford b) = true.
Proof.
  assert (Hall : forallb (fun n => plain_code_char (default "0"%char (String.get n crockfordAlphabet)))
                   (List.seq 0 32) = true) by by vm_compute.
  rewrite forallb_forall in Hall. apply Hall, in_seq.
  pose proof (Z.mod_pos_bound b 32 ltac:(lia)). lia.
Qed.

Lemma plain_code_char_spec (c : ascii) : plain_code_char c = true ->
  Ascii.eqb c "-" = false /\ Ascii.eqb c " " = false /\ upper_char c = c /\
  upper_char (lower_char c) = c /\ is_ascii_char c = true /\ is_ascii_char (lower_char c) = true /\
  visible c = true /\ visible (lower_char c) = true /\ Ascii.eqb (lower_char c) "-" = false /\
  Ascii.eqb (lower_char c) " " = false /\ Ascii.eqb c "_" = false /\ Ascii.eqb (lower_char c) "_" = false.
Proof. unfold plain_code_char. rewrite !andb_true_iff, !negb_true_iff, !Ascii.eqb_eq. tauto. Qed.

(** A code as a person may type it: any letter case. *)
Definition typed (upper : bool) (c : ascii) : ascii := if upper then c else lower_char c.

Lemma typed_facts (u : bool) (c : ascii) : plain_code_char c = true ->
  Ascii.eqb (typed u c) "-" = false /\ Ascii.eqb (typed u c) " " = false /\
  upper_char (typed u c) = c /\ is_ascii_char (typed u c) = true /\ visible (typed u c) = true /\
  Ascii.eqb (typed u c) "_" = false.
Proof. intros Hc%plain_code_char_spec. destruct u; simpl; tauto. Qed.

Fixpoint typed_string (us : list bool) (s : string) : string :=
  match us, s with
  | u :: us', String c s' => String (typed u c) (typed_string us' s')
  | _, _ => s
  end.

Lemma length_12 {A : Type} (l : list A) : length l = 12%nat ->
  exists a b c d e f g h i j k m, l = [a; b; c; d; e; f; g; h; i; j; k; m].
Proof. intros Hl. do 12 (destruct l as [|? l]; [done|]). destruct l; [|done]. eauto 20. Qed.

Lemma prefix_cons (a c : ascii) (p s : string) :
  String.prefix (String a p) (String c s) = Ascii.eqb a c && String.prefix p s.
Proof.
  cbn [String.prefix]. destruct (Ascii.eqb_spec a c), (ascii_dec a c); done.
Qed.

Lemma typed_plain (us : list bool) (cs : string) :
  string_forall plain_code_char cs = true ->
  is_ascii_str (typed_string us cs) = true /\
  (length us = String.length cs -> string_map upper_char (typed_string us cs) = cs).
Proof.
  revert cs. induction us as [|u us IH]; intros [|c cs] Hc; [done| |done|].
  - split; [|done]. apply (string_forall_mono plain_code_char); [|done].
    intros x Hx%plain_code_char_spec. tauto.
  - cbn [string_forall] in Hc. bools. destruct (IH cs ltac:(done)) as [H1 H2].
    destruct (typed_facts u c ltac:(done)) as (_ & _ & T3 & T4 & _).
    unfold is_ascii_str in *. cbn [typed_string string_forall string_map].
    rewrite T3, T4, H1. split; [done|]. intros Hlen. simpl in Hlen. by rewrite H2 by lia.
Qed.

Lemma prefix_RemoveByte (x : ascii) (p s : string) :
  string_forall (fun c => negb (Ascii.eqb c x)) p = true ->
  String.prefix p s = true -> String.prefix p (RemoveByte x s) = true.
Proof.
  revert s. induction p as [|a p IH]; intros [|c s] Hp Hs; [by destruct (RemoveByte x _)|by destruct (RemoveByte x _)|done|]. cbn [RemoveByte].
  rewrite prefix_cons in Hs. cbn [string_forall] in Hp. apply andb_true_iff in Hs as [->%Ascii.eqb_eq Hs].
  apply andb_true_iff in Hp as [Hc%negb_true_iff Hp].
  rewrite Hc, prefix_cons, Ascii.eqb_refl. by apply IH.
Qed.

Lemma typed_length (us : list bool) (cs : string) : String.length (typed_string us cs) = String.length cs.
Proof. revert cs. induction us as [|u us IH]; intros [|c cs]; simpl; by rewrite ?IH. Qed.

Lemma crockford_string_spec (bytes : list Z) :
  String.length (crockford_string bytes) = length bytes /\
  string_forall plain_code_char (crockford_string bytes) = true.
Proof.
  induction bytes as [|b bs [IH1 IH2]]; [done|]. cbn [crockford_string String.length string_forall length].
  by rewrite IH1, crockford_plain, IH2.
Qed.

(** A code is recognised when, the blanks around it and the dashes and spaces
    in it apart, it is written in any letter case. *)
Lemma Normalize_typed `{Unicode} (us : list bool) (cs s : string) :
  length us = 14%nat -> String.length cs = 12%nat -> string_forall plain_code_char cs = true ->
  RemoveByte " " (RemoveByte "-" (TrimSpace s)) = typed_string us (String "W" (String "M" cs)) ->
  NormalizeEnrollCode s = format_code cs.
Proof.
  intros Hus Hcs Hall Hstrip. unfold NormalizeEnrollCode.
  assert (HWM : string_forall plain_code_char (String "W" (String "M" cs)) = true) by done.
  destruct (typed_plain us (String "W" (String "M" cs)) HWM) as [H4 H5].
  assert (Hlen : length us = String.length (String "W" (String "M" cs))).
  { cbn [String.length]. lia. }
  specialize (H5 Hlen).
  assert (HasPrefix (TrimSpace s) PrefixEnroll = false) as ->.
  { destruct (HasPrefix (TrimSpace s) PrefixEnroll) eqn:E; [|done]. exfalso.
    unfold HasPrefix in E. apply (prefix_RemoveByte "-") in E; [|done].
    apply (prefix_RemoveByte " ") in E; [|done]. rewrite Hstrip in E.
    destruct us as [|u1 [|u2 [|u3 [|u4 us]]]]; [simpl in Hus; lia..|].
    destruct cs as [|c [|c' cs]]; [simpl in Hcs; lia..|].
    cbn [typed_string] in *. unfold PrefixEnroll in E.
    rewrite !prefix_cons in E. cbn [string_forall] in Hall. bools.
    match goal with Hc : plain_code_char c' = true |- _ =>
      destruct (typed_facts u4 c' Hc) as (_ & _ & _ & _ & _ & T) end.
    rewrite (Ascii.eqb_sym "_") in *. congruence. }
  rewrite Hstrip. unfold ToUpper. rewrite H4, H5. unfold slen, HasPrefix.
  cbn [String.length]. rewrite Hcs, !prefix_cons. destruct cs; done.
Qed.

Lemma RemoveByte_plain (x c : ascii) (s : string) :
  x = "-"%char \/ x = " "%char -> plain_code_char c = true ->
  RemoveByte x (String c s) = String c (RemoveByte x s).
Proof. intros [-> | ->] (E1 & E2 & _)%plain_code_char_spec; cbn [RemoveByte]; by rewrite ?E1, ?E2. Qed.
Lemma RemoveByte_dash (s : string) : RemoveByte "-" (String "-" s) = RemoveByte "-" s.
Proof. done. Qed.
Lemma plain_visible (c : ascii) : plain_code_char c = true -> visible c = true.
Proof. intros Hc%plain_code_char_spec. tauto. Qed.

(** Enrollment codes survive human hands.  A generated code is its own
    normal form, and any way of typing it (blanks around it, dashes or spaces
    anywhere or nowhere, any letter case) normalises to it, so it hashes to the
    stored row. *)
Lemma typed_code_is_recognised `{Unicode} (sha256hex : string -> string) bytes (us : list bool) s :
  length bytes = 12%nat -> length us = 14%nat ->
  RemoveByte " " (RemoveByte "-" (TrimSpace s)) = typed_string us ("WM" +:+ crockford_string bytes) ->
  NormalizeEnrollCode s = GenerateEnrollCode bytes /\
  NormalizeEnrollCode (GenerateEnrollCode bytes) = GenerateEnrollCode bytes /\
  HashEnrollCode sha256hex s = HashEnrollCode sha256hex (GenerateEnrollCode bytes).
Proof.
  intros Hb Hus Hs. destruct (crockford_string_spec bytes) as [Hl Hp]. rewrite Hb in Hl.
  assert (Hn : NormalizeEnrollCode (GenerateEnrollCode bytes) = GenerateEnrollCode bytes).
  { unfold GenerateEnrollCode. destruct (length_12 bytes Hb) as (b1&b2&b3&b4&b5&b6&b7&b8&b9&b10&b11&b12& ->).
    apply (Normalize_typed (replicate 14 true)); [done..|].
    cbn [crockford_string] in *. cbn [string_forall] in Hp. bools.
    unfold format_code. cbn [stake sdrop]. rewrite !append_cons, !append_empty, TrimSpace_visible.
    - repeat first [rewrite RemoveByte_plain by (done || auto) | rewrite RemoveByte_dash]. done.
    - cbn [string_forall]. rewrite !andb_true_iff.
      split_and!; first [by apply plain_visible | done]. }
  assert (Hs' : NormalizeEnrollCode s = GenerateEnrollCode bytes) by (by eapply Normalize_typed).
  split_and!; [done..|]. unfold HashEnrollCode. by rewrite Hs', Hn.
Qed.

Lemma typed_code_is_recognised_witness :
  let ascii_only := {| uc_upper := fun s => s; uc_lower := fun s => s; uc_equal_fold := String.eqb |} in
  @NormalizeEnrollCode ascii_only " wm 4f2K-9qx7tr31 " = "WM-4F2K-9QX7-TR31".
Proof.
  pose (bytes := [4; 15; 2; 19; 9; 23; 29; 7; 26; 24; 3; 1]).
  pose (us := [false; false; false; false; false; true; false; false; false; false; false; false; false; false]).
  exact (proj1 (@typed_code_is_recognised _ (fun s => s) bytes us " wm 4f2K-9qx7tr31 "
                  eq_refl eq_refl ltac:(vm_compute; reflexivity))).
Defined.
