(* ===== verification/Enrollment.v ===== *)
(** * Enrollment ([storage/enrollment.go], [storage/enrollment_pg.go])

    Consuming an enrollment code and issuing an agent token in one
    transaction, the recovery of a lost reply, operator replacement, the
    revocation counter, and the two backends' instances of [ApiKeys]. *)

From S2P Require Export ApiKeys.
Open Scope list_scope.
Open Scope Z_scope.

(** ** The two dialects *)

(** [err.Error()] *)
Fixpoint error_text (e : error) : string :=
  match e with
  | EMsg s => s
  | EDb d => err_msg d
  | EWrap s e' => s +:+ ": " +:+ error_text e'
  | ERetry _ e' => error_text e'
  end.

Definition isUniqueConstraint (e : error) : bool :=
  let msg := error_text e in
  Contains msg "UNIQUE constraint failed" || Contains msg "unique constraint" ||
  Contains msg "SQLSTATE 23505".
Definition isPGUnique (e : error) : bool :=
  match as_dberr e with
  | Some d => String.eqb (err_code d) "23505"
  | None => false
  end.

Definition sqlite_unique : dberr :=
  {| err_msg := "constraint failed: UNIQUE constraint failed: api_keys.key_hash (2067)"; err_code := empty_str |}.
Definition pg_unique : dberr :=
  {| err_msg := "ERROR: duplicate key value violates unique constraint (SQLSTATE 23505)"; err_code := "23505" |}.

Definition sqlite : Dialect.
Proof.
  refine {| unique_violation := sqlite_unique; is_unique := isUniqueConstraint;
            is_no_rows := fun e => Is e ErrNoRows |}; by vm_compute.
Defined.
Definition postgres : Dialect.
Proof.
  refine {| unique_violation := pg_unique; is_unique := isPGUnique;
            is_no_rows := fun e => Is e ErrNoRows || String.eqb (error_text e) "no rows in result set" |};
    by vm_compute.
Defined.

(** ** Requests and results *)

Definition HandshakeTTL : Z := 5 * minute.
Definition ErrRotationRequiresProof : error :=
  EMsg "storage: replacement requires current token or operator approval".
Definition ErrEnrollmentConflict : error := EMsg "storage: enrollment conflict".

Record EnrollmentRequest := {
  rq_CodeHash : string;
  rq_ServerID : string;
  rq_CurrentTokenHash : string;
  rq_OperatorApproved : bool;
  rq_Token : string;
  rq_TokenHash : string;
  rq_TokenPrefix : string
}.
Record EnrollmentResult := {
  rs_TenantID : string;
  rs_ClientName : string;
  rs_ServerID : string;
  rs_Token : string;
  rs_TokenHash : string;
  rs_Recovered : bool;
  rs_RevokedHashes : list string
}.

Definition replacementAllowed (active : list string) (currentHash : string) (operator : bool) : bool :=
  if operator then true
  else if is_empty currentHash then false
  else existsb (fun h => String.eqb h currentHash) active.

Definition active_hashes (tenantID serverID : string) (d : auth_db) : list string :=
  map k_key_hash (List.filter (active_at tenantID serverID) (t_keys d)).
Definition ActiveAgentHashes (tenantID serverID : string) : M auth_db (list string) :=
  query (active_hashes tenantID serverID).
(** [auth_epoch] always has its one row. *)
Definition AuthEpoch : M auth_db Z := query t_epoch.
Definition ExpireEnrollmentHandshakes : M auth_db unit :=
  exec (fun d => (tt, with_handshakes
    (map (fun h => {| h_code_hash := h_code_hash h; h_server_id := h_server_id h;
                      h_tenant_id := h_tenant_id h; h_token := h_token h; h_key_hash := h_key_hash h;
                      h_created_at := h_created_at h; h_expires_at := 1 |}) (t_handshakes d)) d)).

(** The join of the recovery query. *)
Definition find_handshake (codeHash serverID : string) (now : Z) (d : auth_db) : option (handshake * string) :=
  h ← List.find (fun h => String.eqb (h_code_hash h) codeHash && String.eqb (h_server_id h) serverID &&
                          (now <? h_expires_at h)) (t_handshakes d);
  k ← find_key codeHash (t_keys d);
  Some (h, k_client_name k).

Definition find_code (codeHash : string) (d : auth_db) : option key_row :=
  k ← find_key codeHash (t_keys d);
  if String.eqb (k_kind k) KindEnroll then Some k else None.

(** [INSERT ... ON CONFLICT(code_hash, server_id) DO UPDATE] *)
Definition put_handshake (h : handshake) (d : auth_db) : unit * auth_db :=
  let same h' := String.eqb (h_code_hash h') (h_code_hash h) && String.eqb (h_server_id h') (h_server_id h) in
  (tt, with_handshakes
    (if existsb same (t_handshakes d)
     then map (fun h' => if same h' then h else h') (t_handshakes d)
     else t_handshakes d ++ [h]) d).

Definition agent_row (hash tenant client prefix server issued : string) (now : Z) : key_row :=
  {| k_id := 0; k_key_hash := hash; k_tenant_id := tenant; k_client_name := client;
     k_kind := KindAgent; k_scope := ScopeIngest; k_key_prefix := prefix; k_expires_at := 0;
     k_max_uses := 0; k_uses := 0; k_server_id := server; k_issued_by := issued;
     k_created_at := now; k_last_seen_at := 0; k_revoked_at := 0 |}.

Section enrollment.
Context `{Dialect}.

(** [if isUnique(err) { return ErrEnrollmentConflict }; return err] *)
Definition conflict_is {S A : Type} (m : M S A) : M S A :=
  let* r := attempt m in
  match r with
  | Ok a => ret a
  | Err err => fail (if is_unique err then ErrEnrollmentConflict else err)
  end.

(** The body after the recovery query found nothing. *)
Definition issue_token (req : EnrollmentRequest) (now : Z) : M auth_db EnrollmentResult :=
  let* rec := no_rows_is ErrAPIKeyNotFound (query_row (find_code (rq_CodeHash req))) in
  if negb (k_revoked_at rec =? 0) || ((0 <? k_expires_at rec) && (k_expires_at rec <? now)) ||
     ((0 <? k_max_uses rec) && (k_max_uses rec <=? k_uses rec))
  then fail ErrAPIKeyNotFound
  else
    let tenant := k_tenant_id rec in
    let server := rq_ServerID req in
    let* active := query (active_hashes tenant server) in
    if negb (bool_decide (active = [])) &&
       negb (replacementAllowed active (rq_CurrentTokenHash req) (rq_OperatorApproved req))
    then fail ErrRotationRequiresProof
    else
      let* n := exec (update_keys (code_usable (rq_CodeHash req) now) use_code) in
      if negb (n =? 1) then fail ErrAPIKeyNotFound
      else
        let* _ := whenM (negb (bool_decide (active = [])))
          (let* _ := exec (update_keys (active_at tenant server) (set_revoked now)) in ret tt) in
        let* _ := conflict_is (statement (insert_key
          (agent_row (rq_TokenHash req) tenant (k_client_name rec) (rq_TokenPrefix req) server
             ("enroll:" +:+ k_client_name rec) now))) in
        let* _ := exec (put_handshake
          {| h_code_hash := rq_CodeHash req; h_server_id := server; h_tenant_id := tenant;
             h_token := rq_Token req; h_key_hash := rq_TokenHash req; h_created_at := now;
             h_expires_at := now + HandshakeTTL / second |}) in
        let* _ := exec (bumpAuthEpoch now) in
        ret {| rs_TenantID := tenant; rs_ClientName := k_client_name rec; rs_ServerID := server;
               rs_Token := rq_Token req; rs_TokenHash := rq_TokenHash req; rs_Recovered := false;
               rs_RevokedHashes := active |}.

(** The transaction body: the locking statement, the recovery query, then
    either the recovered token or a new one. *)
Definition enroll_tx (req : EnrollmentRequest) (now : Z) : M auth_db EnrollmentResult :=
  let* _ := query (fun _ => tt) in
  let* hs := attempt (query_row (find_handshake (rq_CodeHash req) (rq_ServerID req) now)) in
  match hs with
  | Ok (h, client) =>
      ret {| rs_TenantID := h_tenant_id h; rs_ClientName := client; rs_ServerID := rq_ServerID req;
             rs_Token := h_token h; rs_TokenHash := h_key_hash h; rs_Recovered := true;
             rs_RevokedHashes := [] |}
  | Err err => if negb (Is err ErrNoRows) then fail err else issue_token req now
  end.

Definition CompleteEnrollment (req : EnrollmentRequest) (now : Z) : M auth_db EnrollmentResult :=
  if is_empty (rq_CodeHash req) || is_empty (rq_ServerID req)
  then fail (EMsg "storage: enrollment needs code and server_id")
  else if is_empty (rq_Token req) || is_empty (rq_TokenHash req)
  then fail (EMsg "storage: enrollment needs issued token")
  else transaction (enroll_tx req (Unix now)).

Definition replace_tx (tenantID serverID token tokenHash prefix : string) (now : Z)
  : M auth_db EnrollmentResult :=
  let* _ := query (fun _ => tt) in
  let* active := query (active_hashes tenantID serverID) in
  if bool_decide (active = []) then fail ErrAPIKeyNotFound
  else
    let* client := attempt (query_row (fun d =>
      k_client_name <$> List.find (fun k => String.eqb (k_tenant_id k) tenantID &&
        String.eqb (k_server_id k) serverID && String.eqb (k_kind k) KindAgent) (t_keys d))) in
    let clientName := match client with Ok c => c | Err _ => empty_str end in
    let* _ := exec (update_keys (active_at tenantID serverID) (set_revoked now)) in
    let* _ := conflict_is (statement (insert_key
      (agent_row tokenHash tenantID clientName prefix serverID "operator-replace" now))) in
    let* _ := exec (bumpAuthEpoch now) in
    ret {| rs_TenantID := tenantID; rs_ClientName := clientName; rs_ServerID := serverID;
           rs_Token := token; rs_TokenHash := tokenHash; rs_Recovered := false;
           rs_RevokedHashes := active |}.

Definition ReplaceAgent (tenantID serverID token tokenHash prefix : string) (now : Z)
  : M auth_db EnrollmentResult :=
  if is_empty tenantID || is_empty serverID || is_empty token || is_empty tokenHash
  then fail (EMsg "storage: replace agent needs tenant, server and token")
  else transaction (replace_tx tenantID serverID token tokenHash prefix (Unix now)).

(** Every call that writes to these tables. *)
Inductive auth_op :=
| OpConsume (codeHash : string) (now : Z)
| OpTouch (keyHash : string) (now : Z)
| OpUpsert (rec : APIKeyRecord) (now : Z)
| OpRevokeKey (clientName : string) (now : Z)
| OpRevokeHash (keyHash : string) (now : Z)
| OpRevokeAgent (tenantID serverID : string) (now : Z)
| OpExpire
| OpEnroll (req : EnrollmentRequest) (now : Z)
| OpReplace (tenantID serverID token tokenHash prefix : string) (now : Z).

Definition forget {S A : Type} (m : M S A) : M S unit := let* _ := m in ret tt.
Definition do_op (o : auth_op) : M auth_db unit :=
  match o with
  | OpConsume c now => forget (ConsumeEnrollCode c now)
  | OpTouch h now => TouchAPIKey h now
  | OpUpsert r now => UpsertAPIKey r now
  | OpRevokeKey c now => forget (RevokeAPIKey c now)
  | OpRevokeHash h now => forget (RevokeKeyHash h now)
  | OpRevokeAgent t s now => forget (RevokeAgent t s now)
  | OpExpire => ExpireEnrollmentHandshakes
  | OpEnroll r now => forget (CompleteEnrollment r now)
  | OpReplace t s tok h p now => forget (ReplaceAgent t s tok h p now)
  end.
(** A history: each call with the faults it meets. *)
Definition run_auth (ops : list (auth_op * faults)) (d : auth_db) : auth_db :=
  fold_left (fun d o => run_state (do_op o.1) d o.2) ops d.
End enrollment.

Module SQLite.
Definition ResolveAPIKey := @ApiKeys.ResolveAPIKey sqlite.
Definition LookupAPIKey := @ApiKeys.LookupAPIKey sqlite.
Definition ConsumeEnrollCode := @ApiKeys.ConsumeEnrollCode sqlite.
Definition UpsertAPIKey := @ApiKeys.UpsertAPIKey sqlite.
Definition CompleteEnrollment := @Enrollment.CompleteEnrollment sqlite.
Definition ReplaceAgent := @Enrollment.ReplaceAgent sqlite.
End SQLite.

Module Postgres.
Definition ResolveAPIKey := @ApiKeys.ResolveAPIKey postgres.
Definition LookupAPIKey := @ApiKeys.LookupAPIKey postgres.
Definition ConsumeEnrollCode := @ApiKeys.ConsumeEnrollCode postgres.
Definition TouchAPIKey := ApiKeys.TouchAPIKey.
Definition UpsertAPIKey := @ApiKeys.UpsertAPIKey postgres.
Definition RevokeAPIKey := ApiKeys.RevokeAPIKey.
Definition RevokeKeyHash := ApiKeys.RevokeKeyHash.
Definition RevokeAgent := ApiKeys.RevokeAgent.
Definition ListAgents := ApiKeys.ListAgents.
Definition ListAPIKeys := ApiKeys.ListAPIKeys.
Definition AuthEpoch := Enrollment.AuthEpoch.
Definition ActiveAgentHashes := Enrollment.ActiveAgentHashes.
Definition CompleteEnrollment := @Enrollment.CompleteEnrollment postgres.
Definition ReplaceAgent := @Enrollment.ReplaceAgent postgres.
End Postgres.

(** ** The constraints of the tables *)

Definition hashes_unique (ks : list key_row) : Prop := NoDup (map k_key_hash ks).
Definition at_most_one_agent (ks : list key_row) : Prop :=
  forall tenant server, server <> EmptyString ->
  (length (List.filter (active_at tenant server) ks) <= 1)%nat.
Definition auth_ok (d : auth_db) : Prop := hashes_unique (t_keys d) /\ at_most_one_agent (t_keys d).

Lemma filter_map_le (p : key_row -> bool) (f : key_row -> key_row) (ks : list key_row) :
  (forall k, k ∈ ks -> p (f k) = true -> p k = true) ->
  (length (List.filter p (map f ks)) <= length (List.filter p ks))%nat.
Proof.
  induction ks as [|k ks IH]; intros Hp; [done|]. simpl.
  assert (IH' := IH ltac:(intros; apply Hp; [set_solver|done])).
  destruct (p (f k)) eqn:E.
  - rewrite (Hp k) by (done || set_solver). simpl. lia.
  - destruct (p k); simpl; lia.
Qed.

Lemma map_hash_same (f : key_row -> key_row) (ks : list key_row) :
  (forall k, k ∈ ks -> k_key_hash (f k) = k_key_hash k) -> map k_key_hash (map f ks) = map k_key_hash ks.
Proof.
  intros Hf. rewrite map_map. apply map_ext_in. intros k Hk. apply Hf. by apply list_elem_of_In.
Qed.

Lemma update_keys_ok (p : key_row -> bool) (f : key_row -> key_row) (d : auth_db) :
  (forall k, k_key_hash (f k) = k_key_hash k) ->
  (forall t s k, active_at t s (f k) = true -> active_at t s k = true) ->
  auth_ok d -> auth_ok (update_keys p f d).2.
Proof.
  intros Hh Ha [Hu Ho]. split.
  - unfold hashes_unique. simpl. rewrite map_hash_same; [done|]. intros k _. by destruct (p k).
  - intros t s Hs. simpl. etransitivity; [apply filter_map_le|by apply Ho].
    intros k _. destruct (p k); [apply Ha|done].
Qed.

Lemma active_at_set_revoked t s now k :
  active_at t s (set_revoked now k) = true -> k_revoked_at k = 0 -> active_at t s k = true.
Proof. unfold active_at. simpl. intros H ->. bools. rewrite !andb_true_iff, !String.eqb_eq. done. Qed.

Lemma revoke_keys_ok (p : key_row -> bool) (now : Z) (d : auth_db) :
  (forall k, p k = true -> k_revoked_at k = 0) ->
  auth_ok d -> auth_ok (update_keys p (set_revoked now) d).2.
Proof.
  intros Hp [Hu Ho]. split.
  - unfold hashes_unique. simpl. rewrite map_hash_same; [done|]. intros k _. by destruct (p k).
  - intros t s Hs. simpl. etransitivity; [apply filter_map_le|by apply Ho].
    intros k _. destruct (p k) eqn:E; [|done]. intros H. eapply active_at_set_revoked; eauto.
Qed.

Lemma active_at_agent t s k :
  s <> EmptyString -> active_at t s k = true ->
  active_agent k = true /\ k_tenant_id k = t /\ k_server_id k = s.
Proof.
  unfold active_at, active_agent. intros Hs H. bools. subst.
  rewrite !andb_true_iff, String.eqb_eq, Z.eqb_eq, negb_true_iff. split_and!; try done.
  by destruct (k_server_id k).
Qed.

Lemma agent_clash_at t s new k :
  s <> EmptyString -> active_at t s new = true -> active_at t s k = true -> agent_clash new k = true.
Proof.
  intros Hs Hn Hk. apply active_at_agent in Hn as (Hn & <- & <-); [|done].
  apply active_at_agent in Hk as (Hk & Ht & Hv); [|done].
  unfold agent_clash. by rewrite Hn, Hk, Ht, Hv, !String.eqb_refl.
Qed.

Lemma filter_none (p : key_row -> bool) (ks : list key_row) :
  (forall k, k ∈ ks -> p k = false) -> List.filter p ks = [].
Proof.
  induction ks as [|k ks IH]; intros Hp; [done|]. simpl. rewrite Hp by set_solver. apply IH. set_solver.
Qed.

Lemma existsb_false (p : key_row -> bool) (ks : list key_row) :
  existsb p ks = false <-> forall k, k ∈ ks -> p k = false.
Proof.
  induction ks as [|k ks IH]; simpl; [set_solver|]. rewrite orb_false_iff, IH. split.
  - intros [Hk Hks] k' [->|?]%elem_of_cons; auto.
  - intros Hk. split; [|intros]; apply Hk; set_solver.
Qed.

Lemma find_key_Some (hash : string) (ks : list key_row) (k : key_row) :
  find_key hash ks = Some k -> k ∈ ks /\ k_key_hash k = hash.
Proof. intros [Hin Hh]%find_some. rewrite list_elem_of_In. by bools. Qed.

Lemma find_key_None (hash : string) (ks : list key_row) :
  find_key hash ks = None -> forall k, k ∈ ks -> k_key_hash k <> hash.
Proof. intros Hf k Hk He. eapply find_none in Hf; [|by apply list_elem_of_In]. by bools. Qed.

Lemma unique_hash (ks : list key_row) (k k' : key_row) :
  hashes_unique ks -> k ∈ ks -> k' ∈ ks -> k_key_hash k = k_key_hash k' -> k = k'.
Proof.
  intros Hu [i Hi]%list_elem_of_lookup [j Hj]%list_elem_of_lookup He.
  assert (i = j); [|by simplify_eq].
  eapply (NoDup_lookup (map k_key_hash ks)); [done|..]; rewrite list_lookup_fmap.
  - by rewrite Hi.
  - rewrite Hj. simpl. congruence.
Qed.

Lemma find_key_elem (hash : string) (ks : list key_row) (k : key_row) :
  hashes_unique ks -> k ∈ ks -> k_key_hash k = hash -> find_key hash ks = Some k.
Proof.
  intros Hu Hk He. destruct (find_key hash ks) as [k'|] eqn:E.
  - apply find_key_Some in E as [Hin He']. f_equal. symmetry. eapply unique_hash; eauto. congruence.
  - by destruct (find_key_None _ _ E k Hk).
Qed.

(** Rows that share one hash are at most one row. *)
Lemma same_hash_le_1 (hash : string) (ks : list key_row) :
  hashes_unique ks -> (forall k, k ∈ ks -> k_key_hash k = hash) -> (length ks <= 1)%nat.
Proof.
  unfold hashes_unique. intros Hu Hh. destruct ks as [|a [|b ks]]; simpl; [lia|lia|]. exfalso.
  simpl in Hu. apply NoDup_cons in Hu as [Hn _]. apply Hn.
  rewrite (Hh a), (Hh b) by set_solver. set_solver.
Qed.

Lemma filter_sublist (p : key_row -> bool) (ks : list key_row) : List.filter p ks `sublist_of` ks.
Proof. induction ks as [|k ks IH]; simpl; [done|]. destruct (p k); by constructor. Qed.

Lemma hashes_unique_filter (p : key_row -> bool) (ks : list key_row) :
  hashes_unique ks -> hashes_unique (List.filter p ks).
Proof. intros Hu. eapply sublist_NoDup; [exact Hu|]. apply fmap_sublist, filter_sublist. Qed.

Lemma filter_elem (p : key_row -> bool) (ks : list key_row) (k : key_row) :
  k ∈ List.filter p ks <-> k ∈ ks /\ p k = true.
Proof. rewrite !list_elem_of_In. apply filter_In. Qed.

Section invariants.
Context `{Dialect}.

Lemma insert_key_ok (k : key_row) (d : auth_db) u d' :
  insert_key k d = Ok (u, d') -> auth_ok d -> auth_ok d'.
Proof.
  unfold insert_key. destruct (existsb _ _) eqn:E; [done|]. intros [= _ <-] [Hu Ho].
  rewrite existsb_false in E. split.
  - unfold hashes_unique. simpl. rewrite map_app. apply NoDup_app.
    split; [done|]. split; [|apply NoDup_singleton].
    intros h (k' & -> & Hk')%list_elem_of_fmap Hin%list_elem_of_singleton. simpl in Hin.
    specialize (E k' Hk'). bools. done.
  - intros t s Hs. simpl. rewrite List.filter_app, length_app. simpl.
    set (new := Build_key_row _ _ _ _ _ _ _ _ _ _ _ _ _ _ _).
    destruct (active_at t s new) eqn:En; simpl; [|specialize (Ho t s Hs); lia].
    rewrite filter_none; [simpl; lia|]. intros k' Hk'. specialize (E k' Hk'). bools.
    destruct (active_at t s k') eqn:Ek; [|done].
    assert (active_at t s k = true) as En' by exact En.
    rewrite (agent_clash_at t s) in *; done.
Qed.

Lemma upsert_key_ok (k : key_row) (d : auth_db) u d' :
  upsert_key k d = Ok (u, d') -> auth_ok d -> auth_ok d'.
Proof.
  unfold upsert_key. destruct (find_key _ _) as [old|] eqn:Ef; [|apply insert_key_ok].
  destruct (existsb _ _) eqn:E; [done|]. intros [= _ <-] [Hu Ho].
  apply find_key_Some in Ef as [Hold Hh].
  set (g := fun k' => if String.eqb (k_key_hash k') (k_key_hash k) then overwrite k k' else k').
  assert (Hhash : forall k', k_key_hash (g k') = k_key_hash k').
  { intros k'. unfold g. by destruct (String.eqb _ _). }
  assert (Hu' : hashes_unique (map g (t_keys d))).
  { unfold hashes_unique. by rewrite map_hash_same. }
  split; [exact Hu'|]. intros t s Hs. simpl. fold g.
  assert (Hg : forall k', k' ∈ t_keys d -> k_key_hash k' = k_key_hash k -> g k' = overwrite k old).
  { intros k' Hk' He. unfold g. rewrite He, String.eqb_refl.
    assert (k' = old) as -> by (apply (unique_hash (t_keys d)); [done..|congruence]). done. }
  destruct (active_at t s (overwrite k old)) eqn:En.
  - apply (same_hash_le_1 (k_key_hash k)); [by apply hashes_unique_filter|].
    intros k' [Hk' Ha]%filter_elem. apply list_elem_of_fmap in Hk' as (k0 & -> & Hk0).
    rewrite Hhash. destruct (decide (k_key_hash k0 = k_key_hash k)) as [|Hne]; [done|].
    rewrite existsb_false in E. specialize (E k0 Hk0).
    assert (Hg0 : g k0 = k0) by (unfold g; by rewrite (proj2 (String.eqb_neq _ _) Hne)).
    rewrite Hg0 in Ha. rewrite (agent_clash_at t s), andb_true_r in E by done. bools. done.
  - etransitivity; [apply filter_map_le|by apply Ho]. intros k' Hk' Ha.
    destruct (decide (k_key_hash k' = k_key_hash k)) as [He|Hne].
    + rewrite (Hg k' Hk' He) in Ha. congruence.
    + unfold g in Ha. by rewrite (proj2 (String.eqb_neq _ _) Hne) in Ha.
Qed.

Lemma with_handshakes_ok hs d : auth_ok d -> auth_ok (with_handshakes hs d).
Proof. done. Qed.

Lemma active_at_unrevoked t s k : active_at t s k = true -> k_revoked_at k = 0.
Proof. unfold active_at. intros. by bools. Qed.

(** The hash of the credential a call may register. *)
Definition op_issues (o : auth_op) : option string :=
  match o with
  | OpUpsert rec _ => Some (rec_KeyHash rec)
  | OpEnroll req _ => Some (rq_TokenHash req)
  | OpReplace _ _ _ hash _ _ => Some hash
  | _ => None
  end.
(** What an invariant of the tables has to survive: one field per kind of
    statement, registration ([UpsertAPIKey]) aside.  The tokens that are issued
    have a [fresh] hash. *)
Record stable_for (fresh : string -> Prop) (P : auth_db -> Prop) : Prop := {
  st_use : forall c now d, P d -> P (update_keys (code_usable c now) use_code d).2;
  st_seen : forall p t d, P d -> P (update_keys p (set_last_seen t) d).2;
  st_revoke : forall p now d, (forall k, p k = true -> k_revoked_at k = 0) ->
                P d -> P (update_keys p (set_revoked now) d).2;
  st_insert : forall hash tenant client prefix server issued now d d', fresh hash ->
                insert_key (agent_row hash tenant client prefix server issued now) d = Ok (tt, d') ->
                P d -> P d';
  st_handshakes : forall hs d, P d -> P (with_handshakes hs d);
  st_bump : forall now d, P d -> P (bumpAuthEpoch now d).2
}.
Definition stable : (auth_db -> Prop) -> Prop := stable_for (fun _ => True).

Lemma do_op_preserves_for fresh (P : auth_db -> Prop) (o : auth_op) :
  stable_for fresh P -> (forall hash, op_issues o = Some hash -> fresh hash) ->
  (forall rec now, o = OpUpsert rec now -> preserves P (UpsertAPIKey rec now)) ->
  preserves P (do_op o).
Proof.
  intros [Huse Hseen Hrevoke Hinsert Hhs Hbump] Hfresh Hup.
  destruct o; simpl; unfold forget.
  - preserve. apply preserves_statement. intros d a d' Hd Hc. unfold consume_code in Hc.
    destruct (List.find _ _); [|done]. simplify_eq. by apply Huse.
  - preserve; apply preserves_exec; intros d Hd; [by apply Hseen|by apply Hhs].
  - by eapply Hup.
  - preserve; apply preserves_exec; intros d Hd; [apply Hrevoke; [intros; by bools|done]|by apply Hbump].
  - preserve; apply preserves_exec; intros d Hd; [apply Hrevoke; [intros; by bools|done]|by apply Hbump].
  - preserve; apply preserves_exec; intros d Hd;
      [apply Hrevoke; [intros k; apply active_at_unrevoked|done]|by apply Hbump].
  - apply preserves_exec. intros d Hd. by apply Hhs.
  - preserve; try (apply preserves_exec; intros d0 Hd).
    + by apply Huse.
    + apply Hrevoke; [intros k; apply active_at_unrevoked|done].
    + apply preserves_statement. intros d0 [] d' Hd Hi. eapply Hinsert; [by apply Hfresh|done..].
    + by apply Hhs.
    + by apply Hbump.
  - preserve; try (apply preserves_exec; intros d0 Hd).
    + apply Hrevoke; [intros k; apply active_at_unrevoked|done].
    + apply preserves_statement. intros d0 [] d' Hd Hi. eapply Hinsert; [by apply Hfresh|done..].
    + by apply Hbump.
Qed.
Lemma do_op_preserves (P : auth_db -> Prop) (o : auth_op) :
  stable P -> (forall rec now, o = OpUpsert rec now -> preserves P (UpsertAPIKey rec now)) ->
  preserves P (do_op o).
Proof. intros Hst. by apply do_op_preserves_for with (fresh := fun _ => True). Qed.

Lemma auth_ok_stable : stable auth_ok.
Proof.
  split; [..|done|done].
  - intros. by apply update_keys_ok.
  - intros. by apply update_keys_ok.
  - intros. by apply revoke_keys_ok.
  - intros. eapply insert_key_ok; eassumption.
Qed.

Lemma do_op_ok (o : auth_op) : preserves auth_ok (do_op o).
Proof.
  apply do_op_preserves; [apply auth_ok_stable|]. intros rec now _. unfold UpsertAPIKey. preserve.
  apply preserves_statement. intros d [] d' Hd Hi. eapply upsert_key_ok; eassumption.
Qed.

(** A credential that has been revoked. *)
Definition is_revoked (hash : string) (d : auth_db) : Prop :=
  exists k, k ∈ t_keys d /\ k_key_hash k = hash /\ k_revoked_at k <> 0.

Lemma update_keys_revoked hash p f d :
  (forall k, k_key_hash (f k) = k_key_hash k) ->
  (forall k, p k = true -> k_revoked_at k <> 0 -> k_revoked_at (f k) <> 0) ->
  is_revoked hash d -> is_revoked hash (update_keys p f d).2.
Proof.
  intros Hh Hr (k & Hk & He & Hn). exists (if p k then f k else k).
  split; [simpl; by apply (list_elem_of_fmap_2 (fun k => if p k then f k else k))|].
  destruct (p k) eqn:E; [|done]. rewrite Hh. auto.
Qed.

Lemma insert_key_revoked hash k d u d' :
  insert_key k d = Ok (u, d') -> is_revoked hash d -> is_revoked hash d'.
Proof.
  unfold insert_key. destruct (existsb _ _); [done|]. intros [= _ <-] (k' & Hk & He & Hn).
  exists k'. split; [simpl; set_solver|done].
Qed.

Lemma is_revoked_stable hash : stable (is_revoked hash).
Proof.
  split; [..|done|done].
  - intros. by apply update_keys_revoked.
  - intros. by apply update_keys_revoked.
  - intros p now d Hp. apply update_keys_revoked; [done|]. intros k Hk. by rewrite (Hp k Hk).
  - intros. eapply insert_key_revoked; eassumption.
Qed.

Lemma do_op_revoked hash o : preserves (is_revoked hash) (do_op o).
Proof.
  apply do_op_preserves; [apply is_revoked_stable|]. intros rec now _. unfold UpsertAPIKey. preserve.
  apply preserves_statement. intros d [] d' Hd Hi. unfold upsert_key in Hi.
  destruct (find_key _ _); [|by eapply insert_key_revoked]. destruct (existsb _ _); [done|].
  simplify_eq. by apply update_keys_revoked.
Qed.

(** No enrollment code is used more often than it allows. *)
Definition uses_bounded (d : auth_db) : Prop :=
  forall k, k ∈ t_keys d -> 0 < k_max_uses k -> k_uses k <= k_max_uses k.

Lemma uses_bounded_stable : stable uses_bounded.
Proof.
  split; [..|done|done].
  - intros c now d Hd k (k0 & -> & Hk)%list_elem_of_fmap Hm.
    destruct (code_usable c now k0) eqn:E; simpl in *; [|by apply Hd].
    unfold code_usable in E. apply andb_true_iff in E as [_ E]. bools.
    destruct E; bools; lia.
  - intros p t d Hd k (k0 & -> & Hk)%list_elem_of_fmap. destruct (p k0); simpl; by apply Hd.
  - intros p now d _ Hd k (k0 & -> & Hk)%list_elem_of_fmap. destruct (p k0); simpl; by apply Hd.
  - intros hash tenant client prefix server issued now d d' _ Hi Hd k. unfold insert_key in Hi.
    destruct (existsb _ _); [done|]. simplify_eq. simpl.
    intros [Hk|Hk%list_elem_of_singleton]%elem_of_app; [by apply Hd|]. subst k. done.
Qed.

Definition is_upsert (o : auth_op) : bool :=
  match o with OpUpsert _ _ => true | _ => false end.

Lemma do_op_uses o : is_upsert o = false -> preserves uses_bounded (do_op o).
Proof.
  intros Ho. apply do_op_preserves; [apply uses_bounded_stable|]. by intros rec now ->.
Qed.

Lemma run_auth_preserves (P : auth_db -> Prop) (ops : list (auth_op * faults)) :
  Forall (fun o => preserves P (do_op o.1)) ops -> forall d, P d -> P (run_auth ops d).
Proof.
  induction 1 as [|[o fs] ops Ho _ IH]; intros d Hd; [done|]. simpl. apply IH. by apply Ho.
Qed.
End invariants.

(** ** The effect of issuing a token *)

Definition issued_row (req : EnrollmentRequest) (rec : key_row) (now : Z) : key_row :=
  agent_row (rq_TokenHash req) (k_tenant_id rec) (k_client_name rec) (rq_TokenPrefix req)
    (rq_ServerID req) ("enroll:" +:+ k_client_name rec) now.
Definition issued_handshake (req : EnrollmentRequest) (rec : key_row) (now : Z) : handshake :=
  {| h_code_hash := rq_CodeHash req; h_server_id := rq_ServerID req; h_tenant_id := k_tenant_id rec;
     h_token := rq_Token req; h_key_hash := rq_TokenHash req; h_created_at := now;
     h_expires_at := now + HandshakeTTL / second |}.
Definition code_valid (rec : key_row) (now : Z) : Prop :=
  k_kind rec = KindEnroll /\ k_revoked_at rec = 0 /\
  (k_expires_at rec = 0 \/ now < k_expires_at rec) /\
  (k_max_uses rec = 0 \/ k_uses rec < k_max_uses rec).

Section effects.
Context `{Dialect}.

(** The four steps of a committed issue, one after the other. *)
Definition issues (req : EnrollmentRequest) (now : Z) (d : auth_db) (r : EnrollmentResult) (d' : auth_db) : Prop :=
  exists rec d3,
    let tenant := k_tenant_id rec in
    let active := active_hashes tenant (rq_ServerID req) d in
    let d1 := (update_keys (code_usable (rq_CodeHash req) now) use_code d).2 in
    let d2 := if bool_decide (active = []) then d1
              else (update_keys (active_at tenant (rq_ServerID req)) (set_revoked now) d1).2 in
    find_code (rq_CodeHash req) d = Some rec /\
    length (List.filter (code_usable (rq_CodeHash req) now) (t_keys d)) = 1%nat /\
    (active = [] \/ replacementAllowed active (rq_CurrentTokenHash req) (rq_OperatorApproved req) = true) /\
    insert_key (issued_row req rec now) d2 = Ok (tt, d3) /\
    d' = (bumpAuthEpoch now (put_handshake (issued_handshake req rec now) d3).2).2 /\
    r = {| rs_TenantID := tenant; rs_ClientName := k_client_name rec; rs_ServerID := rq_ServerID req;
           rs_Token := rq_Token req; rs_TokenHash := rq_TokenHash req; rs_Recovered := false;
           rs_RevokedHashes := active |}.

Lemma no_rows_is_ok {S A} (e : error) (m : M S A) s fs a s' fs' :
  no_rows_is e m s fs = (Ok a, s', fs') -> m s fs = (Ok a, s', fs').
Proof.
  unfold no_rows_is. intros (r & s1 & fs1 & Hr & Hk)%mbind_ok.
  apply attempt_inv in Hr as (r' & [= ->] & Hr). destruct r'; [|done]. unfold ret in Hk. by simplify_eq.
Qed.
Lemma conflict_is_ok {S A} (m : M S A) s fs a s' fs' :
  conflict_is m s fs = (Ok a, s', fs') -> m s fs = (Ok a, s', fs').
Proof.
  unfold conflict_is. intros (r & s1 & fs1 & Hr & Hk)%mbind_ok.
  apply attempt_inv in Hr as (r' & [= ->] & Hr). destruct r'; [|done]. unfold ret in Hk. by simplify_eq.
Qed.

Lemma issue_token_ok req now d fs r d' fs' :
  issue_token req now d fs = (Ok r, d', fs') -> issues req now d r d'.
Proof.
  unfold issue_token. intros (rec & d0 & fs0 & Hrec & Hk)%mbind_ok.
  apply no_rows_is_ok, query_row_ok in Hrec as [Hrec ->].
  destruct (_ || _ || _); [done|].
  apply mbind_ok in Hk as (active & d1 & fs1 & [-> ->]%query_ok & Hk).
  destruct (_ && _) eqn:Ea; [done|].
  apply mbind_ok in Hk as (n & d1 & fs2 & Hn%exec_ok & Hk). unfold update_keys in Hn. simplify_eq/=.
  destruct (negb (Z.of_nat _ =? 1)) eqn:En; [done|]. bools.
  apply mbind_ok in Hk as ([] & d2 & fs3 & Hw & Hk).
  apply mbind_ok in Hk as ([] & d3 & fs4 & Hi%conflict_is_ok%statement_ok & Hk).
  apply mbind_ok in Hk as ([] & d4 & fs5 & Hh%exec_ok & Hk).
  apply mbind_ok in Hk as ([] & d5 & fs6 & Hb%exec_ok & Hk). unfold ret in Hk. simplify_eq.
  exists rec, d3. cbv zeta. split_and!; [done|lia| | | |done].
  - destruct Ea as [Ea|Ea]; bools; auto.
  - unfold whenM in Hw. case_bool_decide; simpl in Hw.
    + unfold ret in Hw. by simplify_eq.
    + apply mbind_ok in Hw as (n & d6 & fs7 & Hu%exec_ok & Hw). unfold ret in Hw.
      unfold update_keys in Hu. by simplify_eq.
  - unfold issued_handshake. rewrite Hh. cbn [snd]. by rewrite Hb.
Qed.

(** A call either leaves the tables alone, recovers a token, or issues one. *)
Lemma CompleteEnrollment_inv req now d fs r d' fs' :
  CompleteEnrollment req now d fs = (r, d', fs') ->
  (d' = d /\ is_ok r = false) \/
  (d' = d /\ exists h client, find_handshake (rq_CodeHash req) (rq_ServerID req) (Unix now) d = Some (h, client) /\
     forall res, r = Ok res ->
       rs_Recovered res = true /\ rs_Token res = h_token h /\ rs_TenantID res = h_tenant_id h) \/
  (rq_ServerID req <> EmptyString /\ rq_TokenHash req <> EmptyString /\
   exists res, issues req (Unix now) d res d' /\ (r = Ok res \/ is_ok r = false)).
Proof.
  unfold CompleteEnrollment. destruct (_ || _) eqn:E1; [unfold fail; intros; simplify_eq; auto|].
  destruct (is_empty (rq_Token req) || _) eqn:E2; [unfold fail; intros; simplify_eq; auto|].
  intros [[-> [e ->]]|(res & fs1 & fs2 & Hb & Hr)]%transaction_inv; [auto|].
  unfold enroll_tx in Hb. apply mbind_ok in Hb as ([] & d0 & fs0 & [_ ->]%query_ok & Hb).
  apply mbind_ok in Hb as (hs & d0 & fs3 & Hq & Hb). apply attempt_inv in Hq as (hs' & [= ->] & Hq).
  destruct hs' as [[h client]|err].
  - apply query_row_ok in Hq as [Hq ->]. unfold ret in Hb. simplify_eq. right. left.
    split; [done|]. exists h, client. split; [done|]. intros res' Hr'.
    destruct Hr as [->|[e ->]]; by simplify_eq.
  - pose proof (query_row_state (find_handshake (rq_CodeHash req) (rq_ServerID req) (Unix now)) d fs0) as Hs.
    unfold run_state in Hs. rewrite Hq in Hs. simpl in Hs. subst d0.
    destruct (negb _); [done|]. apply issue_token_ok in Hb. right. right.
    bools. split; [by destruct (rq_ServerID req)|]. split; [by destruct (rq_TokenHash req)|]. exists res. destruct Hr as [->|[e ->]]; auto.
Qed.

(** *** Rows after an issue *)

Lemma find_code_Some code d rec :
  find_code code d = Some rec -> rec ∈ t_keys d /\ k_key_hash rec = code /\ k_kind rec = KindEnroll.
Proof.
  unfold find_code. intros (k & Hk%find_key_Some & He)%bind_Some. destruct (String.eqb _ _) eqn:E; [|done].
  simplify_eq. bools. tauto.
Qed.

Lemma usable_rec code now d rec :
  hashes_unique (t_keys d) -> find_code code d = Some rec ->
  length (List.filter (code_usable code now) (t_keys d)) = 1%nat ->
  code_usable code now rec = true /\ code_valid rec now.
Proof.
  intros Hu (Hin & Hh & Hk)%find_code_Some Hlen.
  destruct (List.filter _ _) as [|k [|]] eqn:E; [done| |done].
  assert (Hk' : k ∈ List.filter (code_usable code now) (t_keys d)) by (rewrite E; set_solver).
  apply filter_elem in Hk' as [Hk' Hus].
  assert (k_key_hash k = code) by (unfold code_usable in Hus; by bools).
  assert (k = rec) as -> by (eapply unique_hash; eauto; congruence).
  split; [done|]. unfold code_usable in Hus. unfold code_valid. bools. split_and!; try done.
  - destruct H3; bools; auto.
  - destruct H2; bools; auto.
Qed.

(** What an issue does to one existing row. *)
Definition issue_row (code tenant server : string) (now : Z) (k : key_row) : key_row :=
  if active_at tenant server k then set_revoked now k
  else if code_usable code now k then use_code k
  else k.
Definition with_id (id : Z) (k : key_row) : key_row :=
  {| k_id := id; k_key_hash := k_key_hash k; k_tenant_id := k_tenant_id k;
     k_client_name := k_client_name k; k_kind := k_kind k; k_scope := k_scope k;
     k_key_prefix := k_key_prefix k; k_expires_at := k_expires_at k; k_max_uses := k_max_uses k;
     k_uses := k_uses k; k_server_id := k_server_id k; k_issued_by := k_issued_by k;
     k_created_at := k_created_at k; k_last_seen_at := k_last_seen_at k; k_revoked_at := k_revoked_at k |}.

Lemma usable_not_active code now tenant server k :
  code_usable code now k = true -> active_at tenant server k = false.
Proof.
  unfold code_usable, active_at. intros Hk. bools.
  destruct (String.eqb_spec (k_kind k) KindAgent) as [He|]; [rewrite He in *; done|].
  by rewrite andb_false_r.
Qed.

Lemma active_hashes_nil tenant server d :
  active_hashes tenant server d = [] -> forall k, k ∈ t_keys d -> active_at tenant server k = false.
Proof.
  unfold active_hashes. intros Hn%map_eq_nil k Hk. destruct (active_at tenant server k) eqn:E; [|done].
  assert (k ∈ List.filter (active_at tenant server) (t_keys d)) by by apply filter_elem.
  rewrite Hn in *. set_solver.
Qed.

Lemma issue_rows (req : EnrollmentRequest) (rec : key_row) now d :
  let tenant := k_tenant_id rec in
  let active := active_hashes tenant (rq_ServerID req) d in
  let d1 := (update_keys (code_usable (rq_CodeHash req) now) use_code d).2 in
  let d2 := if bool_decide (active = []) then d1
            else (update_keys (active_at tenant (rq_ServerID req)) (set_revoked now) d1).2 in
  t_keys d2 = map (issue_row (rq_CodeHash req) tenant (rq_ServerID req) now) (t_keys d) /\
  t_epoch d2 = t_epoch d /\ t_handshakes d2 = t_handshakes d /\ t_next_id d2 = t_next_id d.
Proof.
  cbv zeta. case_bool_decide as Ha; simpl; (split; [|done]).
  - apply map_ext_in. intros k Hk. unfold issue_row.
    rewrite (active_hashes_nil _ _ _ Ha) by (by apply list_elem_of_In). done.
  - rewrite map_map. apply map_ext_in. intros k _. unfold issue_row.
    destruct (code_usable _ _ k) eqn:E.
    + rewrite (usable_not_active _ _ _ _ _ E).
      assert (active_at (k_tenant_id rec) (rq_ServerID req) (use_code k)
              = active_at (k_tenant_id rec) (rq_ServerID req) k) as -> by done.
      by rewrite (usable_not_active _ _ _ _ _ E).
    + done.
Qed.

Lemma issues_spec (req : EnrollmentRequest) now d r d' :
  issues req now d r d' -> exists rec,
    find_code (rq_CodeHash req) d = Some rec /\
    length (List.filter (code_usable (rq_CodeHash req) now) (t_keys d)) = 1%nat /\
    (let active := active_hashes (k_tenant_id rec) (rq_ServerID req) d in
     active = [] \/ replacementAllowed active (rq_CurrentTokenHash req) (rq_OperatorApproved req) = true) /\
    t_keys d' = map (issue_row (rq_CodeHash req) (k_tenant_id rec) (rq_ServerID req) now) (t_keys d)
                ++ [with_id (t_next_id d) (issued_row req rec now)] /\
    t_epoch d' = t_epoch d + 1 /\
    t_handshakes d' = t_handshakes (put_handshake (issued_handshake req rec now) d).2 /\
    ~ rq_TokenHash req ∈ map k_key_hash (t_keys d).
Proof.
  intros (rec & d3 & Hrec & Hlen & Hrep & Hins & -> & ->). exists rec.
  pose proof (issue_rows req rec now d) as (Hk & He & Hh & Hid). cbv zeta in *.
  revert Hins Hk He Hh Hid. generalize (if bool_decide (active_hashes (k_tenant_id rec) (rq_ServerID req) d = [])
    then (update_keys (code_usable (rq_CodeHash req) now) use_code d).2
    else (update_keys (active_at (k_tenant_id rec) (rq_ServerID req)) (set_revoked now)
            (update_keys (code_usable (rq_CodeHash req) now) use_code d).2).2).
  intros d2 Hins Hk He Hh Hid.
  unfold insert_key in Hins. destruct (existsb _ _) eqn:Ex; [done|].
  injection Hins as <-. split_and!; [done..| | | |].
  - cbn [bumpAuthEpoch snd t_keys put_handshake with_handshakes]. by rewrite Hk, Hid.
  - cbn [bumpAuthEpoch snd t_epoch put_handshake with_handshakes]. by rewrite He.
  - cbn [bumpAuthEpoch snd t_handshakes put_handshake with_handshakes]. by rewrite Hh.
  - rewrite existsb_false in Ex. intros (k & Hkh & Hin)%list_elem_of_fmap.
    rewrite Hk in Ex. specialize (Ex (issue_row (rq_CodeHash req) (k_tenant_id rec) (rq_ServerID req) now k)
      ltac:(by apply list_elem_of_fmap_2)). bools.
    assert (k_key_hash (issue_row (rq_CodeHash req) (k_tenant_id rec) (rq_ServerID req) now k) = k_key_hash k)
      by (unfold issue_row; by repeat case_match).
    simpl in *. congruence.
Qed.

Lemma active_at_revoked tenant server now k :
  now <> 0 -> active_at tenant server (set_revoked now k) = false.
Proof. intros Hn. unfold active_at. simpl. destruct (Z.eqb_spec now 0); [done|]. by rewrite andb_false_r. Qed.

(** After an issue, the new token is the identity's only active agent. *)
Lemma issues_active (req : EnrollmentRequest) now d r d' rec :
  now <> 0 ->
  t_keys d' = map (issue_row (rq_CodeHash req) (k_tenant_id rec) (rq_ServerID req) now) (t_keys d)
              ++ [with_id (t_next_id d) (issued_row req rec now)] ->
  r = rq_TokenHash req ->
  active_hashes (k_tenant_id rec) (rq_ServerID req) d' = [r].
Proof.
  intros Hn Hk ->. unfold active_hashes. rewrite Hk, List.filter_app, map_app, filter_none.
  - unfold active_at. simpl. rewrite !String.eqb_refl. done.
  - intros k' (k & -> & _)%list_elem_of_fmap. unfold issue_row.
    destruct (active_at _ _ k) eqn:E; [by apply active_at_revoked|].
    destruct (code_usable _ _ k) eqn:Eu; [|done]. by eapply usable_not_active in Eu.
Qed.

(** A replacement that commits: the active tokens are revoked, the new one is
    added. *)
Lemma replace_tx_ok tenant server token hash prefix now d fs res d' fs' :
  replace_tx tenant server token hash prefix now d fs = (Ok res, d', fs') ->
  active_hashes tenant server d <> [] /\ t_epoch d' = t_epoch d + 1 /\
  exists client,
    t_keys d' = map (fun k => if active_at tenant server k then set_revoked now k else k) (t_keys d)
                ++ [with_id (t_next_id d) (agent_row hash tenant client prefix server "operator-replace" now)] /\
    res = {| rs_TenantID := tenant; rs_ClientName := client; rs_ServerID := server; rs_Token := token;
             rs_TokenHash := hash; rs_Recovered := false; rs_RevokedHashes := active_hashes tenant server d |}.
Proof.
  unfold replace_tx. intros (u & d0 & f0 & Hq & Hk)%mbind_ok. apply query_ok in Hq as [_ ->].
  apply mbind_ok in Hk as (active & d0 & f1 & Hq & Hk). apply query_ok in Hq as [-> ->].
  case_bool_decide as Hne; [done|]. split; [done|].
  apply mbind_ok in Hk as (client & d0 & f2 & Hq & Hk). apply attempt_inv in Hq as (r' & _ & Hq).
  assert (d0 = d) as ->.
  { pose proof (query_row_state (fun d => k_client_name <$> List.find (fun k => String.eqb (k_tenant_id k) tenant &&
      String.eqb (k_server_id k) server && String.eqb (k_kind k) KindAgent) (t_keys d)) d f1) as Hs.
    unfold run_state in Hs. by rewrite Hq in Hs. }
  apply mbind_ok in Hk as (n & d1 & f3 & Hu & Hk). apply exec_ok in Hu. unfold update_keys in Hu.
  apply mbind_ok in Hk as (u1 & d2 & f4 & Hi & Hk). apply conflict_is_ok, statement_ok in Hi.
  apply mbind_ok in Hk as (u2 & d3 & f5 & Hbump & Hk). apply exec_ok in Hbump.
  unfold ret in Hk. unfold bumpAuthEpoch in Hbump. simplify_eq.
  unfold insert_key in Hi. destruct (existsb _ _); [done|]. simplify_eq. split; [done|]. by eexists.
Qed.

Lemma put_handshake_find h d :
  List.find (fun h' => String.eqb (h_code_hash h') (h_code_hash h) && String.eqb (h_server_id h') (h_server_id h))
    (t_handshakes (put_handshake h d).2) = Some h.
Proof.
  pose (same := fun h' => String.eqb (h_code_hash h') (h_code_hash h) && String.eqb (h_server_id h') (h_server_id h)).
  change (List.find same (if existsb same (t_handshakes d)
    then map (fun h' => if same h' then h else h') (t_handshakes d) else t_handshakes d ++ [h]) = Some h).
  assert (Hsame : same h = true) by (unfold same; by rewrite !String.eqb_refl).
  clearbody same. generalize (t_handshakes d). intros l. destruct (existsb same l) eqn:E.
  - induction l as [|x l IH]; [done|]. cbn [map List.find existsb] in *.
    destruct (same x) eqn:Ex; [by rewrite Hsame|]. rewrite Ex. by apply IH.
  - induction l as [|x l IH]; cbn [app List.find existsb] in *; [by rewrite Hsame|].
    apply orb_false_iff in E as [-> E]. by apply IH.
Qed.
End effects.

(** A search that finds its first match also finds it under a stronger test it
    passes. *)
Lemma find_weaken {A : Type} (p q : A -> bool) (l : list A) (a : A) :
  List.find p l = Some a -> q a = true -> (forall x, q x = true -> p x = true) -> List.find q l = Some a.
Proof.
  intros Hp Hq Hpq. induction l as [|x l IH]; [done|]. simpl in *.
  destruct (p x) eqn:Ep; [simplify_eq; by rewrite Hq|].
  destruct (q x) eqn:Eq; [rewrite Hpq in Ep; done|]. by apply IH.
Qed.

Lemma run_auth_ok `{Dialect} (ops : list (auth_op * faults)) : auth_ok (run_auth ops empty_auth).
Proof.
  apply run_auth_preserves; [|split; [constructor|intros t s _; simpl; lia]].
  apply Forall_forall. intros o _. apply do_op_ok.
Qed.

(** ** Properties *)

(** C19. One active agent.  Whatever registrations, enrollments, replacements,
    revocations and failures happened, key hashes are unique and no tenant has
    two active agent tokens for the same server. *)
Theorem one_active_agent `{Dialect} (ops : list (auth_op * faults)) :
  let d := run_auth ops empty_auth in
  NoDup (map k_key_hash (t_keys d)) /\
  forall tenant server, server <> EmptyString -> (length (active_hashes tenant server d) <= 1)%nat.
Proof.
  destruct (run_auth_ok ops) as [Hu Ho]. split; [done|]. intros t s Hs. unfold active_hashes. rewrite length_map. auto.
Qed.

(** C20. What an enrollment does.  A call that changes the tables consumed one
    use of a valid code, was a first enrollment or proved the right to replace,
    revoked exactly the tokens active before, left the new token as the only
    active one of that server, moved the revocation counter and touched no
    other row; any other call either fails or only recovers a token. *)
Theorem enrollment_effect `{Dialect} req now d fs r d' fs' :
  auth_ok d -> 0 < Unix now -> CompleteEnrollment req now d fs = (r, d', fs') ->
  (d' = d /\ forall res, r = Ok res -> rs_Recovered res = true) \/
  exists rec,
    let active := active_hashes (k_tenant_id rec) (rq_ServerID req) d in
    find_code (rq_CodeHash req) d = Some rec /\ code_valid rec (Unix now) /\
    (active = [] \/ rq_OperatorApproved req = true \/ rq_CurrentTokenHash req ∈ active) /\
    (r = Ok {| rs_TenantID := k_tenant_id rec; rs_ClientName := k_client_name rec;
               rs_ServerID := rq_ServerID req; rs_Token := rq_Token req;
               rs_TokenHash := rq_TokenHash req; rs_Recovered := false; rs_RevokedHashes := active |}
     \/ is_ok r = false) /\
    find_key (rq_CodeHash req) (t_keys d') = Some (use_code rec) /\
    active_hashes (k_tenant_id rec) (rq_ServerID req) d' = [rq_TokenHash req] /\
    (forall h, h ∈ active -> is_revoked h d') /\
    t_epoch d' = t_epoch d + 1 /\
    (forall k, k ∈ t_keys d -> k_key_hash k <> rq_CodeHash req -> ~ k_key_hash k ∈ active -> k ∈ t_keys d').
Proof.
  intros Hok Hnow Hc.
  apply CompleteEnrollment_inv in Hc as [[-> Hr]|[(-> & h & client & _ & Hr)|(Hsrv & _ & res & Hi & Hr)]].
  - left. split; [done|]. by intros res ->.
  - left. split; [done|]. intros res Hres. by apply Hr.
  - right. assert (Hok' : auth_ok d').
    { pose proof Hi as (rec0 & d3 & _ & _ & _ & Hins & -> & _).
      apply (st_bump _ _ auth_ok_stable). unfold put_handshake. cbn [snd].
      apply (st_handshakes _ _ auth_ok_stable).
      eapply st_insert; [apply auth_ok_stable|done|exact Hins|]. case_bool_decide.
      - by apply update_keys_ok.
      - apply revoke_keys_ok; [intros k; apply active_at_unrevoked|]. by apply update_keys_ok. }
    pose proof Hi as (rec0 & d3 & Hrec0 & _ & _ & _ & _ & Hres).
    apply issues_spec in Hi as (rec & Hrec & Hlen & Hrep & Hkeys & Hep & _ & _).
    simplify_eq. exists rec. cbv zeta.
    destruct (usable_rec _ _ _ _ (proj1 Hok) Hrec Hlen) as [Hus Hval].
    pose proof (find_code_Some _ _ _ Hrec) as (Hin & Hh & Hkind).
    assert (Hmem : forall k, k ∈ t_keys d ->
      issue_row (rq_CodeHash req) (k_tenant_id rec) (rq_ServerID req) (Unix now) k ∈ t_keys d').
    { intros k Hk. rewrite Hkeys. apply elem_of_app. left. by apply list_elem_of_fmap_2. }
    split_and!; try done.
    + destruct Hrep as [->|Hrep]; [auto|right]. unfold replacementAllowed in Hrep.
      destruct (rq_OperatorApproved req); [auto|right]. destruct (is_empty _); [done|].
      apply existsb_exists in Hrep as (h & Hh' & He%String.eqb_eq). subst h.
      by apply list_elem_of_In.
    + apply find_key_elem; [apply Hok'| |done]. specialize (Hmem rec Hin). unfold issue_row in Hmem.
      by rewrite (usable_not_active _ _ _ _ _ Hus), Hus in Hmem.
    + eapply (issues_active req (Unix now)); [lia|exact Hkeys|done].
    + intros h (k & -> & [Hk Ha]%filter_elem)%list_elem_of_fmap. specialize (Hmem k Hk).
      unfold issue_row in Hmem. rewrite Ha in Hmem. eexists. split; [exact Hmem|]. simpl.
      split; [done|lia].
    + intros k Hk Hne Hna. specialize (Hmem k Hk). unfold issue_row in Hmem.
      destruct (active_at _ _ k) eqn:Ea.
      { destruct Hna. apply list_elem_of_fmap. exists k. by rewrite filter_elem. }
      destruct (code_usable _ _ k) eqn:Eu; [|done]. unfold code_usable in Eu. by bools.
Qed.

(** Lost replies.  When an enrollment has been committed but its reply did
    not arrive, a retry with the same code and server within the handshake
    window gets the same token, and changes nothing: no further use of the code
    is consumed. *)
Lemma lost_reply_is_recovered `{Dialect} req now d fs r d' fs' retry now2 :
  auth_ok d -> CompleteEnrollment req now d fs = (r, d', fs') -> d' <> d ->
  rq_CodeHash retry = rq_CodeHash req -> rq_ServerID retry = rq_ServerID req ->
  rq_CodeHash req <> EmptyString -> rq_Token retry <> EmptyString -> rq_TokenHash retry <> EmptyString ->
  Unix now <= Unix now2 < Unix now + 300 ->
  exists res, CompleteEnrollment retry now2 d' [] = (Ok res, d', []) /\
    rs_Token res = rq_Token req /\ rs_TokenHash res = rq_TokenHash req /\ rs_Recovered res = true.
Proof.
  intros Hok Hc Hne Hcode Hserver Hc1 Ht1 Ht2 Hnow.
  apply CompleteEnrollment_inv in Hc as [[? _]|[[? _]|(Hsrv & _ & res & Hi & _)]]; [done..|].
  apply issues_spec in Hi as (rec & Hrec & Hlen & _ & Hkeys & _ & Hhs & _).
  destruct (usable_rec _ _ _ _ (proj1 Hok) Hrec Hlen) as [Hus _].
  pose proof (find_code_Some _ _ _ Hrec) as (Hin & Hh & _).
  assert (Hfind : exists client, find_handshake (rq_CodeHash req) (rq_ServerID req) (Unix now2) d'
                    = Some (issued_handshake req rec (Unix now), client)).
  { assert (Hk : exists k, find_key (rq_CodeHash req) (t_keys d') = Some k).
    { destruct (find_key _ (t_keys d')) as [k|] eqn:E; [eauto|].
      destruct (find_key_None _ _ E (use_code rec)); [|done].
      rewrite Hkeys. apply elem_of_app. left. apply list_elem_of_fmap. exists rec. split; [|done].
      unfold issue_row. by rewrite (usable_not_active _ _ _ _ _ Hus), Hus. }
    destruct Hk as [k Hk]. exists (k_client_name k). unfold find_handshake. rewrite Hhs.
    pose proof (put_handshake_find (issued_handshake req rec (Unix now)) d) as Hp.
    apply (find_weaken _ (fun h => String.eqb (h_code_hash h) (rq_CodeHash req) &&
      String.eqb (h_server_id h) (rq_ServerID req) && (Unix now2 <? h_expires_at h))) in Hp.
    - rewrite Hp. simpl. by rewrite Hk.
    - simpl. rewrite !String.eqb_refl. apply Z.ltb_lt. simpl.
      assert (HandshakeTTL / second = 300) as -> by done. lia.
    - intros h Hh'. simpl in Hh'. bools. simpl. by rewrite !andb_true_iff, !String.eqb_eq. }
  destruct Hfind as [client Hfind]. unfold CompleteEnrollment.
  rewrite Hcode, Hserver. destruct (rq_CodeHash req) eqn:Ec; [done|]. destruct (rq_ServerID req) eqn:Es; [done|].
  destruct (rq_Token retry) eqn:Et; [done|]. destruct (rq_TokenHash retry) eqn:Eth; [done|]. simpl.
  eexists. split.
  - erewrite transaction_nofault.
    2: { unfold enroll_tx, mbind, attempt, query_row, query, statement. rewrite Hcode, Hserver, Hfind.
         reflexivity. }
    reflexivity.
  - done.
Qed.

(** Revocation is for ever.  Once a credential is revoked, whatever calls
    and failures follow, it is never again resolved as a valid key, and a lookup
    that reaches the table reports it revoked. *)
Lemma revoked_forever `{Dialect} hash ops d :
  auth_ok d -> is_revoked hash d ->
  let d' := run_auth ops d in
  (forall now fs, is_ok (run_result (ResolveAPIKey hash now) d' fs) = false) /\
  (forall fs rec e, run_result (LookupAPIKey hash) d' fs = Ok (rec, e) -> e = Some ErrAPIKeyRevoked) /\
  (exists rec, run_result (LookupAPIKey hash) d' [] = Ok (rec, Some ErrAPIKeyRevoked)).
Proof.
  intros Hok Hrev d'.
  assert (Hok' : auth_ok d') by (apply run_auth_preserves; [|done]; apply Forall_true; intros; apply do_op_ok).
  assert (Hrev' : is_revoked hash d')
    by (apply run_auth_preserves; [|done]; apply Forall_true; intros; apply do_op_revoked).
  clearbody d'. destruct Hrev' as (k & Hk & Hh & Hr).
  assert (Hf : find_key hash (t_keys d') = Some k) by (apply find_key_elem; [apply Hok'|done..]).
  assert (Hrk : rec_Revoked (scanAPIKey k) = true) by (simpl; by apply negb_true_iff, Z.eqb_neq).
  split_and!.
  - intros now fs. unfold run_result. destruct (ResolveAPIKey hash now d' fs) as [[[rec|e] d2] fs2] eqn:E; [|done].
    exfalso. unfold ResolveAPIKey in E. apply mbind_ok in E as (k' & d1 & fs1 & E1 & E2).
    apply no_rows_is_ok, query_row_ok in E1 as [E1 ->]. rewrite Hf in E1. simplify_eq.
    cbv zeta in E2. rewrite Hrk in E2. by destruct (String.eqb _ _).
  - intros fs rec e. unfold run_result. destruct (LookupAPIKey hash d' fs) as [[r d2] fs2] eqn:E.
    simpl. intros ->. unfold LookupAPIKey in E. apply mbind_ok in E as (k' & d1 & fs1 & E1 & E2).
    apply no_rows_is_ok, query_row_ok in E1 as [E1 ->]. rewrite Hf in E1. simplify_eq.
    cbv zeta in E2. rewrite Hrk in E2. unfold ret in E2. by simplify_eq.
  - exists (scanAPIKey k). unfold run_result, LookupAPIKey, no_rows_is, query_row, statement, attempt, mbind, ret.
    rewrite Hf. cbv zeta. by rewrite Hrk.
Qed.

(** Codes are not overused.  Starting from tables in which no credential
    has more uses than its maximum, no history of redemptions, enrollments,
    retries and failures takes one beyond it. *)
Lemma code_uses_bounded `{Dialect} ops d :
  Forall (fun o => is_upsert o.1 = false) ops -> uses_bounded d -> uses_bounded (run_auth ops d).
Proof.
  intros Hops Hd. apply run_auth_preserves; [|done].
  eapply Forall_impl; [exact Hops|]. intros o. apply do_op_uses.
Qed.

(** Revoking an agent.  A reported revocation leaves no active token of
    that identity, counted exactly the tokens it revoked, and moved the shared
    counter exactly when there was one. *)
Lemma revoke_takes_effect tenant server now d fs n d' fs' :
  0 < Unix now -> RevokeAgent tenant server now d fs = (Ok n, d', fs') ->
  active_hashes tenant server d' = [] /\
  n = Z.of_nat (length (active_hashes tenant server d)) /\
  (forall h, h ∈ active_hashes tenant server d -> is_revoked h d') /\
  t_epoch d' = t_epoch d + (if 0 <? n then 1 else 0) /\
  map k_key_hash (t_keys d') = map k_key_hash (t_keys d).
Proof.
  intros Hnow Hr.
  assert (t_keys d' = map (fun k => if active_at tenant server k then set_revoked (Unix now) k else k) (t_keys d) /\
          n = Z.of_nat (length (active_hashes tenant server d)) /\
          t_epoch d' = t_epoch d + (if 0 <? n then 1 else 0)) as (Hk & Hn & He).
  { unfold RevokeAgent, revoke_where in Hr. unfold active_hashes. rewrite length_map.
    inv_ok; unfold update_keys, bumpAuthEpoch in *; simplify_eq/=; split_and!; try done;
      match goal with E : (0 <? _) = _ |- _ => rewrite E end; lia. }
  split_and!; [| done | | done | ].
  - unfold active_hashes. rewrite Hk, filter_none; [done|].
    intros k (k0 & -> & _)%list_elem_of_fmap. destruct (active_at tenant server k0) eqn:E; [|done].
    apply active_at_revoked. lia.
  - intros h (k & -> & [Hin Ha]%filter_elem)%list_elem_of_fmap. exists (set_revoked (Unix now) k).
    split; [|split; [done|simpl; lia]]. rewrite Hk. apply list_elem_of_fmap. exists k. by rewrite Ha.
  - rewrite Hk. apply map_hash_same. intros k _. by destruct (active_at _ _ k).
Qed.

(** A revocation whose second statement fails is never announced: the tokens
    are revoked, the counter stands still, and repeating the call finds nothing
    left to revoke, so it does not move the counter either. *)
Lemma revoke_without_epoch tenant server now now2 d e :
  0 < Unix now -> active_hashes tenant server d <> [] ->
  let d' := run_state (RevokeAgent tenant server now) d [None; Some (Fail_ e)] in
  run_result (RevokeAgent tenant server now) d [None; Some (Fail_ e)] = Err (EDb e) /\
  active_hashes tenant server d' = [] /\ t_epoch d' = t_epoch d /\
  run_result (RevokeAgent tenant server now2) d' [] = Ok 0 /\
  t_epoch (run_state (RevokeAgent tenant server now2) d' []) = t_epoch d.
Proof.
  intros Hnow Ha.
  assert (Hpos : (0 <? Z.of_nat (length (List.filter (active_at tenant server) (t_keys d)))) = true).
  { unfold active_hashes in Ha. destruct (List.filter _ _); [done|]. apply Z.ltb_lt. simpl. lia. }
  assert (Hnone : List.filter (active_at tenant server)
            (map (fun k => if active_at tenant server k then set_revoked (Unix now) k else k) (t_keys d)) = []).
  { apply filter_none. intros k (k0 & -> & _)%list_elem_of_fmap.
    destruct (active_at tenant server k0) eqn:E; [|done]. apply active_at_revoked. lia. }
  unfold run_state, run_result, RevokeAgent, revoke_where, exec, statement, mbind, whenM, ret, active_hashes.
  unfold update_keys at 1 2 3 4. simpl. rewrite Hpos. simpl. rewrite Hnone. done.
Qed.

(** ** Witnesses: one code with two uses, one server *)

Definition sample_code : APIKeyRecord :=
  {| rec_ID := 0; rec_TenantID := "t_acme"; rec_ClientName := "Acme"; rec_KeyHash := "code";
     rec_KeyPrefix := PrefixEnroll; rec_Kind := KindEnroll; rec_Scope := ScopeEnroll;
     rec_ExpiresAt := 5000 * second; rec_MaxUses := 2; rec_Uses := 0; rec_ServerID := empty_str;
     rec_IssuedBy := "ops"; rec_CreatedAt := 100 * second; rec_LastSeenAt := 0; rec_Revoked := false |}.
Definition sample_request (token : string) : EnrollmentRequest :=
  {| rq_CodeHash := "code"; rq_ServerID := "srv"; rq_CurrentTokenHash := empty_str;
     rq_OperatorApproved := false; rq_Token := token; rq_TokenHash := "#" +:+ token;
     rq_TokenPrefix := PrefixAgent |}.
Definition sample_db : auth_db :=
  @run_auth sqlite [(OpUpsert sample_code (100 * second), [])] empty_auth.
Definition enrolled_db : auth_db :=
  run_state (@CompleteEnrollment sqlite (sample_request "one") (200 * second)) sample_db [].

Lemma enrollment_effect_witness :
  let run := @CompleteEnrollment sqlite (sample_request "one") (200 * second) sample_db [] in
  t_epoch run.1.2 = 1 /\ active_hashes "t_acme" "srv" run.1.2 = ["#one"].
Proof.
  cbv zeta.
  destruct (@enrollment_effect sqlite (sample_request "one") (200 * second) sample_db []
    (run_result (@CompleteEnrollment sqlite (sample_request "one") (200 * second)) sample_db []) enrolled_db []
    (@run_auth_ok sqlite _) eq_refl ltac:(vm_compute; reflexivity)) as [[Hd _]|(rec & Hrec & _ & _ & _ & _ & Ha & _ & He & _)].
  - exfalso. apply (f_equal t_epoch) in Hd. vm_compute in Hd. discriminate Hd.
  - vm_compute in Hrec. injection Hrec as <-. split; [exact He|exact Ha].
Defined.

Lemma lost_reply_is_recovered_witness :
  exists res, @CompleteEnrollment sqlite (sample_request "two") (300 * second) enrolled_db [] = (Ok res, enrolled_db, [])
    /\ rs_Token res = "one".
Proof.
  destruct (@lost_reply_is_recovered sqlite (sample_request "one") (200 * second) sample_db
    [None; None; None; None; None; None; None; None; None; Some (Lost sqlite_unique)] (Err (EDb sqlite_unique)) enrolled_db []
    (sample_request "two") (300 * second)) as (res & Hres & Ht & _).
  - apply run_auth_ok.
  - vm_compute. reflexivity.
  - intros Hd. apply (f_equal t_epoch) in Hd. vm_compute in Hd. discriminate Hd.
  - reflexivity.
  - reflexivity.
  - discriminate.
  - discriminate.
  - discriminate.
  - vm_compute. split; [discriminate|reflexivity].
  - exists res. split; [exact Hres|exact Ht].
Defined.

Definition sample_history : list (auth_op * faults) :=
  [(OpUpsert sample_code (100 * second), []); (OpEnroll (sample_request "one") (200 * second), []);
   (OpRevokeAgent "t_acme" "srv" (300 * second), [])].
Definition revoked_db : auth_db := Eval vm_compute in @run_auth sqlite sample_history empty_auth.

Lemma revoked_forever_witness :
  is_ok (run_result (@ResolveAPIKey sqlite "#one" (400 * second))
    (@run_auth sqlite [(OpUpsert sample_code (350 * second), [])] revoked_db) []) = false.
Proof.
  apply (@revoked_forever sqlite "#one").
  - assert (@run_auth sqlite sample_history empty_auth = revoked_db) as <- by (vm_compute; reflexivity).
    apply run_auth_ok.
  - eexists. split; [unfold revoked_db; cbn [t_keys]; apply list_elem_of_further, list_elem_of_here|].
    split; [reflexivity|discriminate].
Defined.

Lemma code_uses_bounded_witness :
  uses_bounded (@run_auth sqlite [(OpConsume "code" (300 * second), []); (OpConsume "code" (301 * second), []);
                                  (OpConsume "code" (302 * second), [])] sample_db).
Proof.
  apply (@code_uses_bounded sqlite).
  - repeat constructor.
  - intros k Hk _. apply list_elem_of_In in Hk. destruct Hk as [<-|[]]. vm_compute. discriminate.
Defined.

Lemma revoke_takes_effect_witness :
  active_hashes "t_acme" "srv" (run_state (RevokeAgent "t_acme" "srv" (300 * second)) enrolled_db []) = [].
Proof.
  apply (revoke_takes_effect "t_acme" "srv" (300 * second) enrolled_db [] 1
    (run_state (RevokeAgent "t_acme" "srv" (300 * second)) enrolled_db []) []);
  vm_compute; reflexivity.
Defined.

(** A retry within the handshake's five minutes gets the same token although
    it has been revoked in between: the recovery query does not look at the
    token's own row. *)
Lemma recovery_returns_revoked_token :
  let d := run_state (RevokeAgent "t_acme" "srv" (210 * second)) enrolled_db [] in
  is_revoked "#one" d /\
  exists res, run_result (@CompleteEnrollment sqlite (sample_request "two") (220 * second)) d [] = Ok res /\
    rs_Token res = "one" /\ rs_Recovered res = true.
Proof.
  cbv zeta. split.
  - destruct (t_keys (run_state (RevokeAgent "t_acme" "srv" (210 * second)) enrolled_db [])) as [|k1 [|k2 [|]]] eqn:E;
      try (vm_compute in E; discriminate E).
    exists k2. rewrite E. vm_compute in E. injection E as _ <-. split; [right; left|]. split; [done|discriminate].
  - eexists. split; [vm_compute; reflexivity|done].
Qed.
