(* ===== verification/Transport.v ===== *)
(** * Where an agent may send its credential ([agent/transport.go])

    Origin comparison, the HTTPS requirement and the redirect policy of the
    agent's HTTP client.  [net/url]'s parser is a parameter. *)

From S2P Require Export Db.
Open Scope list_scope.
Open Scope Z_scope.

(** The parts of a [url.URL] the code reads. *)
Record URL := { u_Scheme : string; u_Host : string; u_Hostname : string }.
#[export] Instance URL_eq_dec : EqDecision URL.
Proof. solve_decision. Defined.

(** [url.Parse]; [None] is an error. *)
Class URLParser := url_Parse : string -> option URL.

Definition ErrInsecureHub : error := EMsg "agent: hub URL must be https".
Definition ErrHubRedirect : error := EMsg "agent: refusing redirect that would move credentials".

Definition CanonicalHubURL (raw : string) : string := TrimRightByte "/" (TrimSpace raw).

Section transport.
Context `{Unicode} `{URLParser}.

Definition isLoopbackHost (host : string) : bool :=
  let h := ToLower host in
  String.eqb h "localhost" || String.eqb h "127.0.0.1" || String.eqb h "::1".

Definition parsed_host (raw : string) : option URL :=
  match url_Parse (CanonicalHubURL raw) with
  | Some u => if is_empty (u_Host u) then None else Some u
  | None => None
  end.
Definition SameHubOrigin (a b : string) : bool :=
  match parsed_host a with
  | None => String.eqb (CanonicalHubURL a) (CanonicalHubURL b)
  | Some ua =>
      match parsed_host b with
      | None => false
      | Some ub => EqualFold (u_Scheme ua) (u_Scheme ub) && EqualFold (u_Host ua) (u_Host ub)
      end
  end.

(** [None] is success; the text of a refusal ends with the scheme or the
    quoted URL, which is left out. *)
Definition RequireHTTPSHub (raw : string) : option error :=
  match url_Parse (CanonicalHubURL raw) with
  | None => Some ErrInsecureHub
  | Some u =>
      if is_empty (u_Scheme u) then Some ErrInsecureHub
      else if EqualFold (u_Scheme u) "https" then None
      else
        let host := ToLower (u_Hostname u) in
        if String.eqb host "localhost" || HasPrefix host "127." || String.eqb host "::1" then None
        else Some ErrInsecureHub
  end.

(** [via] are the requests already made, oldest first. *)
Definition noCredentialRedirect (req : URL) (via : list URL) : option error :=
  match last via with
  | None => None
  | Some prev =>
      if negb (String.eqb (u_Scheme req) "https") && negb (isLoopbackHost (u_Hostname req))
      then Some ErrHubRedirect
      else if negb (EqualFold (u_Host req) (u_Host prev)) || negb (EqualFold (u_Scheme req) (u_Scheme prev))
      then Some ErrHubRedirect
      else None
  end.

(** The requests the HTTP client makes for a chain of redirect targets: it
    asks the policy before each one and stops at the first refusal. *)
Fixpoint follow (via targets : list URL) : list URL :=
  match targets with
  | [] => via
  | t :: rest =>
      match noCredentialRedirect t via with
      | None => follow (via ++ [t]) rest
      | Some _ => via
      end
  end.

(** ** Case-insensitive equality on ASCII text *)

Lemma EqualFold_refl (s : string) : is_ascii_str s = true -> EqualFold s s = true.
Proof. intros Hs. unfold EqualFold. rewrite Hs. simpl. apply String.eqb_refl. Qed.
Lemma EqualFold_trans (s t u : string) :
  is_ascii_str s = true -> is_ascii_str t = true -> is_ascii_str u = true ->
  EqualFold s t = true -> EqualFold t u = true -> EqualFold s u = true.
Proof.
  unfold EqualFold. intros -> -> ->. simpl. rewrite !String.eqb_eq. congruence.
Qed.
Lemma EqualFold_sym (s t : string) :
  is_ascii_str s = true -> is_ascii_str t = true -> EqualFold s t = true -> EqualFold t s = true.
Proof. unfold EqualFold. intros -> ->. simpl. rewrite !String.eqb_eq. done. Qed.

Definition ascii_url (u : URL) : Prop :=
  is_ascii_str (u_Scheme u) = true /\ is_ascii_str (u_Host u) = true.
Definition same_origin (u v : URL) : Prop :=
  EqualFold (u_Scheme u) (u_Scheme v) = true /\ EqualFold (u_Host u) (u_Host v) = true.

Lemma noCredentialRedirect_None (t prev : URL) (via : list URL) :
  noCredentialRedirect t (via ++ [prev]) = None ->
  same_origin t prev /\ (u_Scheme t = "https" \/ isLoopbackHost (u_Hostname t) = true).
Proof.
  unfold noCredentialRedirect. rewrite last_snoc. intros Hc.
  destruct (negb (String.eqb _ _) && _) eqn:E1; [done|].
  destruct (negb _ || _) eqn:E2; [done|]. bools. split; [split; done|].
  destruct E1 as [?|?]; bools; auto.
Qed.

(** C32. Credentials stay where they were sent.  Whatever redirects a server
    answers with, every request the client makes goes to the scheme and host
    (with its port) of the first one, and every redirected one is HTTPS or
    addressed to this machine. *)
Theorem redirects_keep_origin (first : URL) (targets : list URL) :
  ascii_url first -> Forall ascii_url targets ->
  Forall (fun u => same_origin u first) (follow [first] targets) /\
  Forall (fun u => u_Scheme u = "https" \/ isLoopbackHost (u_Hostname u) = true)
    (tail (follow [first] targets)).
Proof.
  intros Hf Ht. apply (proj1 (and_comm _ _)).
  assert (Hgen : forall via prev,
    ascii_url prev -> same_origin prev first -> Forall (fun u => same_origin u first) (via ++ [prev]) ->
    (via = [] \/ exists v vs, via = v :: vs) ->
    Forall (fun u => u_Scheme u = "https" \/ isLoopbackHost (u_Hostname u) = true) (tail (via ++ [prev])) ->
    Forall (fun u => u_Scheme u = "https" \/ isLoopbackHost (u_Hostname u) = true)
      (tail (follow (via ++ [prev]) targets)) /\
    Forall (fun u => same_origin u first) (follow (via ++ [prev]) targets)).
  { induction Ht as [|t rest Hta _ IH]; intros via prev Hp Hsame Hall Hvia Hsec; [done|]. cbn [follow].
    destruct (noCredentialRedirect t (via ++ [prev])) eqn:E; [done|].
    apply noCredentialRedirect_None in E as [[E1 E2] E3].
    destruct Hta as [Ha1 Ha2], Hp as [Hp1 Hp2], Hf as [Hf1 Hf2], Hsame as [Hs1 Hs2].
    assert (same_origin t first) by (split; eapply EqualFold_trans; [| | |exact E1|exact Hs1| | | |exact E2|exact Hs2]; done).
    apply IH; [done|done| | |].
    - apply Forall_app_2; [done|by constructor].
    - right. destruct via; simpl; eauto.
    - destruct Hvia as [->|(v & vs & ->)]; simpl in *; [by constructor|].
      apply Forall_app_2; [done|by constructor]. }
  apply (Hgen [] first); [done| | |by left|by simpl; constructor].
  - destruct Hf. split; by apply EqualFold_refl.
  - destruct Hf. constructor; [split; by apply EqualFold_refl|done].
Qed.
End transport.

(** ** Witnesses *)

Definition ascii_only : Unicode :=
  {| uc_upper := fun s => s; uc_lower := fun s => s; uc_equal_fold := String.eqb |}.
Definition https_url (host : string) : URL := {| u_Scheme := "https"; u_Host := host; u_Hostname := host |}.

Lemma redirects_keep_origin_witness :
  Forall (fun u => @same_origin ascii_only u (https_url "hub.example"))
    (@follow ascii_only [https_url "hub.example"] [https_url "HUB.example"; https_url "evil.example"]).
Proof.
  apply (@redirects_keep_origin ascii_only (https_url "hub.example")).
  - split; vm_compute; reflexivity.
  - repeat constructor; vm_compute; reflexivity.
Defined.

(** [RequireHTTPSHub] takes any name that starts with "127." for loopback, so
    it lets a credential travel in clear text to another machine. *)
Lemma plain_http_to_a_127_name `{Unicode} :
  let parse s := Some {| u_Scheme := "http"; u_Host := "127.hub.example"; u_Hostname := "127.hub.example" |} in
  @RequireHTTPSHub _ parse "http://127.hub.example" = None /\ isLoopbackHost "127.hub.example" = false.
Proof. split; reflexivity. Qed.
