(* ===== verification/Spool.v ===== *)
(** * The agent's durable queue ([agent/spool.go], [agent/spool_batch.go])

    A directory of append-only segments with a checkpoint file beside each, a
    quarantine, a destination binding and a loss counter.  Every file-system
    call is a statement of the monad of [Db] and may fail before or after it
    took effect; a write may also be cut short.  The JSON encodings are
    parameters; the names [os.CreateTemp] chooses and the clock are arguments.

    [mu] is held for each of the short operations, so they are atomic here;
    the delivery callback of a drain runs without it, and is therefore an
    arbitrary computation on the spool and on the outside world. *)

From S2P Require Export Transport Ingest.
Open Scope list_scope.
Open Scope Z_scope.

Definition maxSpoolBytes : Z := 104857600.
Definition maxSegmentBytes : Z := 8388608.
Definition maxRecordBytes : Z := 1048576.
Definition ErrSpoolFull : error := EMsg "spool: disk budget exhausted; sample not queued".
Definition ErrClosed : error := EMsg "file already closed".

Record spoolBinding := { sb_Origin : string; sb_TenantID : string; sb_ServerID : string }.
Record spoolEntry := { se_PayloadType : string; se_Body : string; se_QueuedAt : Z }.
#[export] Instance spoolEntry_eq_dec : EqDecision spoolEntry.
Proof. solve_decision. Defined.

(** The files of the spool directory.  A segment's checkpoint is the file
    [<segment>.ack]; both maps are keyed by the segment's name. *)
Record disk := {
  d_segs : list (string * string);
  d_acks : gmap string string;
  d_quar : list (string * string);
  d_qacks : gmap string string;
  d_bind : option string;
  d_loss : option string
}.
(** [sp_current] is the open segment with the offset of its next write. *)
Record Spool := {
  sp_disk : disk;
  sp_current : option (string * nat);
  sp_curSize : Z;
  sp_closed : bool
}.

(** The JSON of the three kinds of files. *)
Class SpoolJSON := {
  entry_marshal : spoolEntry -> option string;
  entry_unmarshal : string -> option spoolEntry;
  body_valid : string -> bool;
  bind_marshal : spoolBinding -> string;
  bind_unmarshal : string -> option spoolBinding;
  loss_marshal : gmap string Z -> string;
  loss_unmarshal : string -> option (gmap string Z);
  compact : string -> string
}.

(** What [encoding/json] does with a record: [Marshal] writes one line of an
    object, with the body compacted, and [Unmarshal] reads it back. *)
Definition stored `{SpoolJSON} (e : spoolEntry) : spoolEntry :=
  {| se_PayloadType := se_PayloadType e; se_Body := compact (se_Body e); se_QueuedAt := se_QueuedAt e |}.
Class SpoolJSONLaws `{SpoolJSON} := {
  marshal_unmarshal : forall e text, entry_marshal e = Some text ->
    entry_unmarshal (text +:+ String "010" EmptyString) = Some (stored e);
  marshal_body : forall e text, entry_marshal e = Some text -> body_valid (compact (se_Body e)) = true;
  marshal_no_newline : forall e text, entry_marshal e = Some text ->
    string_forall (fun c => negb (Ascii.eqb c "010")) text = true;
  marshal_not_blank : forall e text, entry_marshal e = Some text ->
    is_empty (TrimSpace (text +:+ String "010" EmptyString)) = false
}.

Definition with_segs (l : list (string * string)) (d : disk) : disk :=
  {| d_segs := l; d_acks := d_acks d; d_quar := d_quar d; d_qacks := d_qacks d;
     d_bind := d_bind d; d_loss := d_loss d |}.
Definition with_acks (m : gmap string string) (d : disk) : disk :=
  {| d_segs := d_segs d; d_acks := m; d_quar := d_quar d; d_qacks := d_qacks d;
     d_bind := d_bind d; d_loss := d_loss d |}.
Definition with_quar (l : list (string * string)) (m : gmap string string) (d : disk) : disk :=
  {| d_segs := d_segs d; d_acks := d_acks d; d_quar := l; d_qacks := m;
     d_bind := d_bind d; d_loss := d_loss d |}.
Definition with_bind (b : option string) (d : disk) : disk :=
  {| d_segs := d_segs d; d_acks := d_acks d; d_quar := d_quar d; d_qacks := d_qacks d;
     d_bind := b; d_loss := d_loss d |}.
Definition with_loss (b : option string) (d : disk) : disk :=
  {| d_segs := d_segs d; d_acks := d_acks d; d_quar := d_quar d; d_qacks := d_qacks d;
     d_bind := d_bind d; d_loss := b |}.
Definition on_disk (f : disk -> disk) (s : Spool) : Spool :=
  {| sp_disk := f (sp_disk s); sp_current := sp_current s; sp_curSize := sp_curSize s; sp_closed := sp_closed s |}.
Definition with_current (c : option (string * nat)) (n : Z) (s : Spool) : Spool :=
  {| sp_disk := sp_disk s; sp_current := c; sp_curSize := n; sp_closed := sp_closed s |}.
Definition with_closed (s : Spool) : Spool :=
  {| sp_disk := sp_disk s; sp_current := sp_current s; sp_curSize := sp_curSize s; sp_closed := true |}.

(** ** Files *)

Definition seg_content (name : string) (d : disk) : option string :=
  snd <$> List.find (fun p => String.eqb (fst p) name) (d_segs d).
Definition set_seg (name content : string) (d : disk) : disk :=
  with_segs (map (fun p => if String.eqb (fst p) name then (name, content) else p) (d_segs d)) d.
Definition remove_seg (name : string) (d : disk) : disk :=
  with_segs (List.filter (fun p => negb (String.eqb (fst p) name)) (d_segs d)) d.
(** The directory lists its files by name. *)
Fixpoint insert_seg (name : string) (l : list (string * string)) : list (string * string) :=
  match l with
  | [] => [(name, EmptyString)]
  | p :: l' => if String.ltb name (fst p) then (name, EmptyString) :: l else p :: insert_seg name l'
  end.

Definition nul : ascii := Ascii.zero.
Fixpoint nuls (n : nat) : string :=
  match n with
  | O => EmptyString
  | S n' => String nul (nuls n')
  end.
(** [pwrite]: a write beyond the end of the file leaves a hole of zeros. *)
Definition write_at (off : nat) (data content : string) : string :=
  stake off content +:+ nuls (off - String.length content) +:+ data +:+
  sdrop (off + String.length data) content.
(** [ftruncate] *)
Definition truncate_to (n : nat) (content : string) : string :=
  stake n content +:+ nuls (n - String.length content).

Definition sum_sizes (l : list string) : Z := fold_right (fun s n => slen s + n) 0 l.
Definition opt_size (o : option string) : Z := match o with Some s => slen s | None => 0 end.
(** The walk over the directory; [owner.lock] is empty. *)
Definition disk_bytes (d : disk) : Z :=
  sum_sizes (map snd (d_segs d)) + sum_sizes (map snd (map_to_list (d_acks d))) +
  sum_sizes (map snd (d_quar d)) + sum_sizes (map snd (map_to_list (d_qacks d))) +
  opt_size (d_bind d) + opt_size (d_loss d).

(** ** Reading a segment *)

Definition newline : ascii := "010"%char.
(** [bufio.Reader.ReadBytes('\n')] until the end: the complete lines, each
    with its newline, and what follows the last one. *)
Fixpoint read_lines (acc s : string) : list string * string :=
  match s with
  | EmptyString => ([], acc)
  | String c s' =>
      if Ascii.eqb c newline
      then let '(ls, rest) := read_lines EmptyString s' in ((acc +:+ String c EmptyString) :: ls, rest)
      else read_lines (acc +:+ String c EmptyString) s'
  end.

Section spool.
Context `{Unicode} `{URLParser} `{SpoolJSON}.

(** One line: skipped when blank, else a record or an error. *)
Definition read_record (line : string) : option (list spoolEntry) :=
  if maxRecordBytes <? slen line then None
  else if is_empty (TrimSpace line) then Some []
  else
    match entry_unmarshal line with
    | Some e => if is_empty (se_PayloadType e) || negb (body_valid (se_Body e)) then None else Some [e]
    | None => None
    end.
Fixpoint read_records (lines : list string) : option (list spoolEntry) :=
  match lines with
  | [] => Some []
  | line :: lines' => a ← read_record line; b ← read_records lines'; Some (a ++ b)
  end.
(** [readSegment]; [None] is any of its errors about the content. *)
Definition readSegment (content : string) : option (list spoolEntry) :=
  if maxSegmentBytes + 1048576 <? slen content then None
  else
    let '(lines, rest) := read_lines EmptyString content in
    if is_empty rest then read_records lines else None.

(** ** Short operations *)

Definition file_op (f : disk -> disk) : M Spool unit := exec (fun s => (tt, on_disk f s)).
Definition sync_op : M Spool unit := query (fun _ => tt).
Definition read_disk {A : Type} (f : disk -> A) : M Spool A := query (fun s => f (sp_disk s)).

Definition sealLocked : M Spool unit :=
  inspect (fun s =>
    match sp_current s with
    | None => ret tt
    | Some _ =>
        let* _ := sync_op in
        let* r := attempt sync_op in
        let* _ := modify (with_current None 0) in
        lift r
    end).

Definition segmentsLocked : M Spool (list string) := read_disk (fun d => map fst (d_segs d)).

Definition readBindLocked : M Spool (option spoolBinding) :=
  let* data := read_disk d_bind in
  match data with
  | None => ret None
  | Some s =>
      match bind_unmarshal s with
      | Some b => ret (Some b)
      | None => fail (EMsg "spool: invalid destination binding; operator review required")
      end
  end.
Definition writeBindLocked (b : spoolBinding) : M Spool unit :=
  file_op (with_bind (Some (bind_marshal b))).

(** [os.Rename] of the segment, then of its checkpoint, which may be
    missing. *)
Definition no_file : error := EMsg "no such file or directory".
Definition on_seg (name : string) (f : string -> disk -> disk) : M Spool unit :=
  statement (fun s => match seg_content name (sp_disk s) with
                      | Some c => Ok (tt, on_disk (f c) s)
                      | None => Err no_file
                      end).
Definition quar_seg (name content : string) (d : disk) : disk :=
  remove_seg name
    (with_quar ((name, content) :: List.filter (fun p => negb (String.eqb (fst p) name)) (d_quar d)) (d_qacks d) d).
Definition quar_ack (name : string) (d : disk) : disk :=
  match d_acks d !! name with
  | Some a => with_acks (delete name (d_acks d)) (with_quar (d_quar d) (<[name := a]> (d_qacks d)) d)
  | None => d
  end.
Definition quarantinePathLocked (name : string) : M Spool unit :=
  let* _ := sync_op in
  let* _ := on_seg name (quar_seg name) in
  let* _ := file_op (quar_ack name) in
  sync_op.
Fixpoint quarantine_all (names : list string) : M Spool unit :=
  match names with
  | [] => ret tt
  | n :: ns => let* _ := quarantinePathLocked n in quarantine_all ns
  end.
Definition quarantineLocked : M Spool unit :=
  let* _ := sealLocked in
  let* names := segmentsLocked in
  quarantine_all names.

Definition max_u64 : Z := 2 ^ 64 - 1.
Definition loss_reason (reason : string) : bool :=
  String.eqb reason "overflow" || String.eqb reason "corrupt_segment" || String.eqb reason "permanent_rejection".
Definition recordLossLocked (reason : string) : M Spool unit :=
  if negb (loss_reason reason) then fail (EMsg "spool: unsupported loss reason")
  else
    let* data := read_disk d_loss in
    let* counts := match data with
                   | None => ret ∅
                   | Some s => match loss_unmarshal s with
                               | Some m => ret m
                               | None => fail (EMsg "invalid character")
                               end
                   end in
    let n := default 0 (counts !! reason) in
    let counts := if negb (n =? max_u64) then <[reason := n + 1]> counts else counts in
    file_op (with_loss (Some (loss_marshal counts))).

Definition BindDestination (origin tenantID serverID : string) : M Spool unit :=
  inspect (fun s =>
  if sp_closed s then fail ErrClosed
  else
    let origin := CanonicalHubURL origin in
    if is_empty origin then fail (EMsg "spool: canonical destination is required")
    else
      let* existing := readBindLocked in
      let mismatch :=
        match existing with
        | None => false
        | Some b =>
            (negb (is_empty (sb_Origin b)) && negb (SameHubOrigin (sb_Origin b) origin)) ||
            (negb (is_empty (sb_TenantID b)) && negb (is_empty tenantID) && negb (String.eqb (sb_TenantID b) tenantID)) ||
            (negb (is_empty (sb_ServerID b)) && negb (is_empty serverID) && negb (String.eqb (sb_ServerID b) serverID))
        end in
      let* _ := whenM mismatch quarantineLocked in
      let existing := if mismatch then None else existing in
      writeBindLocked
        match existing with
        | None => {| sb_Origin := origin; sb_TenantID := tenantID; sb_ServerID := serverID |}
        | Some b =>
            {| sb_Origin := origin;
               sb_TenantID := if is_empty tenantID then sb_TenantID b else tenantID;
               sb_ServerID := if is_empty serverID then sb_ServerID b else serverID |}
        end).

(** ** Append *)

Definition evictIfFullLocked (incoming : Z) : M Spool unit :=
  let* total := read_disk disk_bytes in
  if (maxSpoolBytes <? incoming) || (maxSpoolBytes - incoming <? total) then
    let* r := attempt (recordLossLocked "overflow") in
    match r with
    | Err _ => fail (EWrap "loss counter persistence failed" ErrSpoolFull)
    | Ok _ => fail ErrSpoolFull
    end
  else ret tt.

(** [os.CreateTemp] never reuses a name. *)
Definition create_temp (name : string) (s : Spool) : result error (unit * Spool) :=
  match seg_content name (sp_disk s) with
  | Some _ => Err (EMsg "file exists")
  | None => Ok (tt, on_disk (fun d => with_segs (insert_seg name (d_segs d)) d) s)
  end.
Definition ensureSegmentLocked (incoming : Z) (name : string) : M Spool unit :=
  inspect (fun s =>
    if match sp_current s with Some _ => sp_curSize s + incoming <=? maxSegmentBytes | None => false end
    then ret tt
    else
      let* _ := sealLocked in
      let* _ := statement (create_temp name) in
      let* _ := sync_op in
      let* _ := sync_op in
      modify (with_current (Some (name, O)) 0)).

(** [Write] puts the first [n] bytes of [line] at the offset of the file and
    moves the offset behind them. *)
Definition write_current (n : nat) (line : string) (s : Spool) : Spool :=
  match sp_current s with
  | None => s
  | Some (name, off) =>
      let data := stake n line in
      let content := default EmptyString (seg_content name (sp_disk s)) in
      with_current (Some (name, (off + String.length data)%nat)) (sp_curSize s)
        (on_disk (set_seg name (write_at off data content)) s)
  end.
Definition truncate_current (s : Spool) : unit * Spool :=
  (tt, match sp_current s with
       | None => s
       | Some (name, off) =>
           let content := default EmptyString (seg_content name (sp_disk s)) in
           on_disk (set_seg name (truncate_to (Z.to_nat (sp_curSize s)) content)) s
       end).
Definition grow (n : Z) (s : Spool) : Spool := with_current (sp_current s) (sp_curSize s + n) s.

(** [cut] is the number of bytes that reach the file when the write fails. *)
Definition append_line (line : string) (name : string) (cut : option nat) : M Spool unit :=
  inspect (fun s =>
  if sp_closed s then fail ErrClosed
  else
    let* _ := evictIfFullLocked (slen line) in
    let* _ := ensureSegmentLocked (slen line) name in
    match cut with
    | Some n =>
        let* _ := modify (write_current n line) in
        let* r := attempt (exec truncate_current) in
        match r with
        | Err e => fail (EWrap "spool: partial write could not be rolled back" e)
        | Ok _ => fail (EMsg "short write")
        end
    | None =>
        let* _ := modify (write_current (String.length line) line) in
        let* _ := modify (grow (slen line)) in
        sync_op
    end).
Definition Append (payloadType body : string) (now : Z) (name : string) (cut : option nat) : M Spool unit :=
  match entry_marshal {| se_PayloadType := payloadType; se_Body := body; se_QueuedAt := Unix now |} with
  | None => fail (EMsg "json: error calling MarshalJSON")
  | Some text =>
      let line := text +:+ String newline EmptyString in
      if maxRecordBytes <? slen line then fail (EMsg "spool: entry exceeds 1 MiB")
      else append_line line name cut
  end.

(** ** Checkpoints *)

Definition parse_checkpoint (ack : option string) (maximum : Z) : option Z :=
  match ack with
  | None => Some 0
  | Some data =>
      match ParseInt data with
      | Some n => if (n <? 0) || (maximum <? n) then None else Some n
      | None => None
      end
  end.
Definition checkpoint_error : error := EMsg "spool: invalid checkpoint; operator review required".
Definition checkpoint (name : string) (maximum : Z) : M Spool Z :=
  let* ack := read_disk (fun d => d_acks d !! name) in
  match parse_checkpoint ack maximum with
  | Some n => ret n
  | None => fail checkpoint_error
  end.
Definition set_ack (name : string) (n : Z) : disk -> disk :=
  fun d => with_acks (<[name := Itoa n]> (d_acks d)) d.

Fixpoint depth_of (names : list string) (count : Z) : M Spool Z :=
  match names with
  | [] => ret count
  | name :: rest =>
      let* content := read_disk (seg_content name) in
      match content with
      | None => depth_of rest count
      | Some c =>
          match readSegment c with
          | None => fail (EMsg "spool: invalid record")
          | Some entries =>
              let* n := checkpoint name (Z.of_nat (length entries)) in
              depth_of rest (count + (Z.of_nat (length entries) - n))
          end
      end
  end.
Definition Depth : M Spool Z := let* names := segmentsLocked in depth_of names 0.
Definition SizeBytes : M Spool Z := read_disk (fun d => sum_sizes (map snd (d_segs d))).

Definition Close : M Spool unit :=
  inspect (fun s => if sp_closed s then ret tt else let* _ := modify with_closed in sealLocked).
(** The process dies, or closes, and the next one opens the directory. *)
Definition NewSpool (d : disk) : Spool :=
  {| sp_disk := d; sp_current := None; sp_curSize := 0; sp_closed := false |}.

(** ** Draining *)

(** The world of a drain: the spool and the other end. *)
Section drain.
Context {W : Type}.

Definition on_spool {A : Type} (m : M Spool A) : M (Spool * W) A :=
  fun w fs => let '(r, s, fs') := m w.1 fs in (r, (s, w.2), fs').

Definition corrupt (name : string) (delivered : Z) (msg : string) : M (Spool * W) (Z * option error) :=
  let* r := attempt (on_spool (recordLossLocked "corrupt_segment")) in
  let* r := match r with
            | Err e => ret (Err e)
            | Ok _ => attempt (on_spool (quarantinePathLocked name))
            end in
  match r with
  | Err e => ret (delivered, Some e)
  | Ok _ => ret (delivered, Some (EMsg msg))
  end.
Definition remove_segment (name : string) : M Spool unit :=
  let* _ := on_seg name (fun _ => remove_seg name) in
  let* _ := sync_op in
  file_op (fun d => with_acks (delete name (d_acks d)) d).

(** Deliver [entries] from [next] on, one at a time ([Drain]).  The fuel is
    the number of entries. *)
Fixpoint drain_each (deliver : string -> string -> M (Spool * W) unit)
    (name : string) (todo : list spoolEntry) (i delivered : Z) : M (Spool * W) (Z * option error) :=
  match todo with
  | [] => ret (delivered, None)
  | e :: todo' =>
      let* r := attempt (deliver (se_PayloadType e) (se_Body e)) in
      match r with
      | Err err => ret (delivered, Some err)
      | Ok _ =>
          let* r := attempt (on_spool (file_op (set_ack name (i + 1)))) in
          match r with
          | Err err => ret (delivered, Some err)
          | Ok _ => drain_each deliver name todo' (i + 1) (delivered + 1)
          end
      end
  end.

(** How many entries the next group takes. *)
Fixpoint group_size (entries : list spoolEntry) (room : nat) (size : Z) : result error nat :=
  match entries, room with
  | e :: entries', S room' =>
      match entry_marshal e with
      | None => Err (EMsg "json: error calling MarshalJSON")
      | Some text =>
          let cost := slen text * 2 + 1024 in
          if MaxBatchBytes <? size + cost then Ok O
          else let? n := group_size entries' room' (size + cost) in Ok (S n)
      end
  | _, _ => Ok O
  end.

(** Deliver groups of at most [maximum] entries ([DrainBatches]); [cancelled]
    reads the context. *)
Fixpoint drain_groups (fuel : nat) (cancelled : M (Spool * W) unit) (maximum : nat)
    (deliver : list spoolEntry -> M (Spool * W) unit) (name : string)
    (todo : list spoolEntry) (next delivered : Z) : M (Spool * W) (Z * option error) :=
  match fuel, todo with
  | _, [] => ret (delivered, None)
  | O, _ => ret (delivered, Some (EMsg "unreachable"))
  | S fuel', _ =>
      let* r := attempt cancelled in
      match r with
      | Err err => ret (delivered, Some err)
      | Ok _ =>
          match group_size todo maximum 1024 with
          | Err err => ret (delivered, Some err)
          | Ok O => ret (delivered, Some (EMsg "spool: individual event exceeds transport budget; operator review required"))
          | Ok n =>
              let* r := attempt (deliver (take n todo)) in
              match r with
              | Err err => ret (delivered, Some err)
              | Ok _ =>
                  let stop := next + Z.of_nat n in
                  let* r := attempt (on_spool (file_op (set_ack name stop))) in
                  match r with
                  | Err err => ret (delivered, Some err)
                  | Ok _ => drain_groups fuel' cancelled maximum deliver name (drop n todo) stop (delivered + Z.of_nat n)
                  end
              end
          end
      end
  end.

(** The loop over the segments; [step] delivers the entries of one. *)
Fixpoint drain_paths (cancelled : M (Spool * W) unit) (msg : string)
    (step : string -> list spoolEntry -> Z -> Z -> M (Spool * W) (Z * option error))
    (names : list string) (delivered : Z) : M (Spool * W) (Z * option error) :=
  match names with
  | [] => ret (delivered, None)
  | name :: rest =>
      let* r := attempt cancelled in
      match r with
      | Err err => ret (delivered, Some err)
      | Ok _ =>
          let* c := attempt (on_spool (read_disk (seg_content name))) in
          match match c with Ok (Some content) => readSegment content | _ => None end with
          | None => corrupt name delivered msg
          | Some entries =>
              let* n := attempt (on_spool (checkpoint name (Z.of_nat (length entries)))) in
              match n with
              | Err err => ret (delivered, Some err)
              | Ok n =>
                  let* (delivered, err) := step name (drop (Z.to_nat n) entries) n delivered in
                  match err with
                  | Some err => ret (delivered, Some err)
                  | None =>
                      let* r := attempt (on_spool (remove_segment name)) in
                      match r with
                      | Err err => ret (delivered, Some err)
                      | Ok _ => drain_paths cancelled msg step rest delivered
                      end
                  end
              end
          end
      end
  end.

(** Seal and list under [mu]; the [(delivered, err)] of the caller. *)
Definition drain_start : M (Spool * W) (list string) :=
  on_spool (inspect (fun s => if sp_closed s then fail ErrClosed
                              else let* _ := sealLocked in segmentsLocked)).

Definition Drain (deliver : string -> string -> M (Spool * W) unit) : M (Spool * W) (Z * option error) :=
  let* names := attempt drain_start in
  match names with
  | Err e => ret (0, Some e)
  | Ok names =>
      drain_paths (ret tt) "spool: corrupt segment retained in quarantine; operator review required"
        (drain_each deliver) names 0
  end.

Definition DrainBatches (cancelled : M (Spool * W) unit) (maximum : Z)
    (deliver : list spoolEntry -> M (Spool * W) unit) : M (Spool * W) (Z * option error) :=
  if (maximum <? 1) || (MaxBatchEvents <? maximum) then ret (0, Some (EMsg "spool: invalid batch size"))
  else
    let* names := attempt drain_start in
    match names with
    | Err e => ret (0, Some e)
    | Ok names =>
        drain_paths cancelled "spool: corrupt evidence retained in quarantine"
          (fun name todo next delivered =>
             drain_groups (length todo) cancelled (Z.to_nat maximum) deliver name todo next delivered)
          names 0
    end.
End drain.
End spool.
