(* ===== verification/SpoolProofs.v ===== *)
(** * The durable queue loses nothing

    Reading back what was appended, the invariant of the spool directory, and
    the conservation of queued entries under appends, drains, rebinding,
    restarts and failures. *)

From S2P Require Export Spool.
Open Scope list_scope.
Open Scope Z_scope.

(** ** Strings and lines *)

(** A write at the end of a file appends. *)
Lemma write_at_end (c data : string) : write_at (String.length c) data c = c +:+ data.
Proof.
  unfold write_at. rewrite stake_all, sdrop_all, Nat.sub_diag by lia. simpl. by rewrite append_nil_r.
Qed.
Lemma truncate_to_end (c : string) : truncate_to (String.length c) c = c.
Proof. unfold truncate_to. rewrite stake_all, Nat.sub_diag by lia. apply append_nil_r. Qed.
Lemma stake_0 (s : string) : stake 0 s = EmptyString.
Proof. by destruct s. Qed.

Lemma read_lines_app (acc s t : string) :
  read_lines acc (s +:+ t) =
    ((read_lines acc s).1 ++ (read_lines (read_lines acc s).2 t).1, (read_lines (read_lines acc s).2 t).2).
Proof.
  revert acc. induction s as [|c s IH]; intros acc; [rewrite append_empty; simpl; by destruct (read_lines acc t)|].
  rewrite append_cons. cbn [read_lines]. destruct (Ascii.eqb c newline).
  - rewrite IH. by destruct (read_lines EmptyString s).
  - apply IH.
Qed.
Lemma read_lines_no_newline (acc s : string) :
  string_forall (fun c => negb (Ascii.eqb c newline)) s = true -> read_lines acc s = ([], acc +:+ s).
Proof.
  revert acc. induction s as [|c s IH]; intros acc Hs; [by rewrite append_nil_r|].
  cbn [string_forall] in Hs. bools. cbn [read_lines]. rewrite H, IH, append_assoc by done. done.
Qed.

Section reading.
Context `{Unicode} `{SpoolJSONLaws}.

Lemma read_records_app (l1 l2 : list string) (a b : list spoolEntry) :
  read_records l1 = Some a -> read_records l2 = Some b -> read_records (l1 ++ l2) = Some (a ++ b).
Proof.
  revert a. induction l1 as [|x l1 IH]; intros a Ha Hb; simpl in *; [by simplify_eq|].
  destruct (read_record x) as [y|]; [|done]. simpl in *. destruct (read_records l1) as [z|]; [|done].
  simpl in *. simplify_eq. rewrite (IH z) by done. simpl. by rewrite app_assoc.
Qed.

(** A line as [Append] writes it. *)
Definition is_line (e : spoolEntry) (line : string) : Prop :=
  exists text, entry_marshal e = Some text /\ line = text +:+ String newline EmptyString /\
    slen line <= maxRecordBytes /\ se_PayloadType e <> EmptyString.

Lemma read_record_line (e : spoolEntry) (line : string) : is_line e line -> read_record line = Some [stored e].
Proof.
  intros (text & Hm & -> & Hl & Ht). unfold read_record.
  destruct (Z.ltb_spec maxRecordBytes (slen (text +:+ String newline EmptyString))); [lia|].
  unfold newline. rewrite (marshal_not_blank _ _ Hm), (marshal_unmarshal _ _ Hm). simpl.
  rewrite (marshal_body _ _ Hm). by destruct (se_PayloadType e).
Qed.

Lemma read_lines_line (e : spoolEntry) (line : string) :
  is_line e line -> read_lines EmptyString line = ([line], EmptyString).
Proof.
  intros (text & Hm & -> & _). rewrite read_lines_app, (read_lines_no_newline EmptyString text)
    by (by eapply marshal_no_newline). done.
Qed.

Lemma readSegment_empty : readSegment EmptyString = Some [].
Proof. done. Qed.

(** Appending a line appends its record. *)
Lemma readSegment_append (c line : string) (es : list spoolEntry) (e : spoolEntry) :
  readSegment c = Some es -> is_line e line -> slen c + slen line <= maxSegmentBytes + 1048576 ->
  readSegment (c +:+ line) = Some (es ++ [stored e]).
Proof.
  intros Hc Hl Hsize. unfold readSegment in *.
  destruct (_ <? slen c); [done|].
  destruct (Z.ltb_spec (maxSegmentBytes + 1048576) (slen (c +:+ line))) as [Hlt|_].
  { unfold slen in *. rewrite length_append in Hlt. lia. }
  destruct (read_lines EmptyString c) as [ls rest] eqn:E. destruct rest; [|done]. simpl in Hc.
  rewrite read_lines_app, E. cbn [fst snd]. rewrite (read_lines_line e line Hl). cbn [fst snd is_empty].
  eapply read_records_app; [done|]. cbn [read_records]. by rewrite (read_record_line e).
Qed.
End reading.

(** ** The directory *)

Section directory.
Context `{Unicode} `{SpoolJSON}.
Implicit Types (d : disk) (s : Spool) (name : string).

Definition names_of (l : list (string * string)) : list string := map fst l.

Lemma find_seg (l : list (string * string)) name c :
  NoDup (names_of l) -> (name, c) ∈ l -> List.find (fun p => String.eqb (fst p) name) l = Some (name, c).
Proof.
  induction l as [|[n c'] l IH]; intros Hnd Hin; [by apply not_elem_of_nil in Hin|].
  apply NoDup_cons in Hnd as [Hni Hnd]. simpl. destruct (String.eqb_spec n name) as [->|Hne].
  - apply elem_of_cons in Hin as [[= <-]|Hin]; [done|]. destruct Hni. by apply (list_elem_of_fmap_2 fst) in Hin.
  - apply elem_of_cons in Hin as [[= -> _]|Hin]; [done|]. by apply IH.
Qed.
Lemma seg_content_Some d name c : seg_content name d = Some c -> (name, c) ∈ d_segs d.
Proof.
  unfold seg_content. destruct (List.find _ _) as [[n c']|] eqn:E; [|done]. intros [= <-].
  apply find_some in E as [Hin He]. simpl in *. bools. subst. by apply list_elem_of_In.
Qed.
Lemma seg_content_elem d name c :
  NoDup (names_of (d_segs d)) -> (name, c) ∈ d_segs d -> seg_content name d = Some c.
Proof. intros Hnd Hin. unfold seg_content. by rewrite (find_seg _ _ c). Qed.
Lemma seg_content_None d name : seg_content name d = None <-> ~ name ∈ names_of (d_segs d).
Proof.
  unfold seg_content. destruct (List.find _ _) as [[n c]|] eqn:E; simpl.
  - split; [done|]. intros []. apply find_some in E as [Hin He]. simpl in He. bools. subst.
    apply list_elem_of_In in Hin. by apply (list_elem_of_fmap_2 fst) in Hin.
  - split; [|done]. intros _ ([n c] & -> & Hin)%list_elem_of_fmap.
    pose proof (find_none _ _ E (n, c) ltac:(by apply list_elem_of_In)) as Hf. simpl in Hf. bools. done.
Qed.

Lemma set_seg_names d name c : names_of (d_segs (set_seg name c d)) = names_of (d_segs d).
Proof.
  unfold names_of, set_seg. simpl. rewrite map_map. apply map_ext. intros [n c']. simpl.
  by destruct (String.eqb_spec n name) as [->|].
Qed.
Lemma set_seg_same d name c c' : seg_content name d = Some c' -> seg_content name (set_seg name c d) = Some c.
Proof.
  unfold seg_content, set_seg. simpl. induction (d_segs d) as [|[n x] l IH]; [done|]. simpl.
  destruct (String.eqb_spec n name) as [->|Hne]; simpl.
  - by rewrite String.eqb_refl.
  - destruct (String.eqb_spec n name); [done|]. apply IH.
Qed.
Lemma set_seg_other d name name' c : name' <> name -> seg_content name' (set_seg name c d) = seg_content name' d.
Proof.
  intros Hne. unfold seg_content, set_seg. simpl. induction (d_segs d) as [|[n x] l IH]; [done|]. simpl.
  destruct (String.eqb_spec n name) as [->|Hn]; simpl.
  - destruct (String.eqb_spec name name'); [congruence|]. apply IH.
  - destruct (String.eqb n name'); [done|apply IH].
Qed.
(** Writing what is already there changes nothing. *)
Lemma set_seg_id d name c :
  NoDup (names_of (d_segs d)) -> seg_content name d = Some c -> set_seg name c d = d.
Proof.
  intros Hnd Hc%seg_content_Some. destruct d as [segs acks quar qacks bind loss].
  unfold set_seg, with_segs. simpl in *. f_equal. rewrite <- (map_id segs) at 2. apply map_ext_in.
  intros [n x] Hin%list_elem_of_In. simpl. destruct (String.eqb_spec n name) as [->|]; [|done].
  f_equal. pose proof (find_seg _ _ _ Hnd Hc) as E1. pose proof (find_seg _ _ _ Hnd Hin) as E2. congruence.
Qed.

Lemma insert_seg_Permutation name l : insert_seg name l ≡ₚ (name, EmptyString) :: l.
Proof.
  induction l as [|p l IH]; [done|]. simpl. destruct (String.ltb _ _); [done|]. rewrite IH. constructor.
Qed.

(** The entries of a segment not yet acknowledged. *)
Definition pending_seg (acks : gmap string string) (p : string * string) : list spoolEntry :=
  match readSegment p.2 with
  | Some es => drop (Z.to_nat (default 0 (parse_checkpoint (acks !! p.1) (Z.of_nat (length es))))) es
  | None => []
  end.
Definition pending s : list spoolEntry :=
  flat_map (pending_seg (d_acks (sp_disk s))) (d_segs (sp_disk s)).
Definition quarantined s : list spoolEntry :=
  flat_map (fun p => default [] (readSegment p.2)) (d_quar (sp_disk s)).

(** A segment that reads back, with a checkpoint inside it. *)
Definition seg_ok (acks : gmap string string) (p : string * string) : Prop :=
  exists es, readSegment p.2 = Some es /\
    is_Some (parse_checkpoint (acks !! p.1) (Z.of_nat (length es))).
(** The open segment ends where the next write goes, within its limit. *)
Definition current_ok s : Prop :=
  forall name off, sp_current s = Some (name, off) ->
    exists c, seg_content name (sp_disk s) = Some c /\ off = String.length c /\ sp_curSize s = slen c.
Record spool_ok s : Prop := {
  ok_names : NoDup (names_of (d_segs (sp_disk s)));
  ok_segs : Forall (seg_ok (d_acks (sp_disk s))) (d_segs (sp_disk s));
  ok_fresh : Forall (fun p => p.1 ∉ names_of (d_quar (sp_disk s))) (d_segs (sp_disk s));
  ok_current : current_ok s
}.
End directory.

(** ** Appending *)

Section append.
Context `{Unicode} `{URLParser} `{SpoolJSONLaws}.
Implicit Types (d : disk) (s : Spool) (name : string) (e : spoolEntry).

Lemma elem_of_pending e s :
  e ∈ pending s <-> exists p, p ∈ d_segs (sp_disk s) /\ e ∈ pending_seg (d_acks (sp_disk s)) p.
Proof.
  unfold pending. rewrite list_elem_of_In, in_flat_map.
  split; intros (p & Hp & He); exists p; by rewrite !list_elem_of_In in *.
Qed.

(** A segment no later write can touch. *)
Definition sealed s name c : Prop :=
  seg_content name (sp_disk s) = Some c /\ forall off, sp_current s <> Some (name, off).
(** What appends do to the rest of the spool. *)
Record grows s s' : Prop := {
  g_sealed : forall name c, sealed s name c -> sealed s' name c;
  g_acks : d_acks (sp_disk s') = d_acks (sp_disk s);
  g_quar : d_quar (sp_disk s') = d_quar (sp_disk s);
  g_pending : forall e, e ∈ pending s -> e ∈ pending s'
}.
#[export] Instance grows_preorder : PreOrder grows.
Proof.
  split.
  - intros s. by split.
  - intros s1 s2 s3 [A1 A2 A3 A4] [B1 B2 B3 B4]. split; [eauto|congruence|congruence|eauto].
Qed.

(** Files that play no part in delivery. *)
Definition same_queue s s' : Prop :=
  d_segs (sp_disk s') = d_segs (sp_disk s) /\ d_acks (sp_disk s') = d_acks (sp_disk s) /\
  d_quar (sp_disk s') = d_quar (sp_disk s).
Lemma same_queue_pending s s' : same_queue s s' -> pending s' = pending s.
Proof. intros (E1 & E2 & _). unfold pending. by rewrite E1, E2. Qed.
Lemma same_queue_seg s s' name : same_queue s s' -> seg_content name (sp_disk s') = seg_content name (sp_disk s).
Proof. intros (E1 & _). unfold seg_content. by rewrite E1. Qed.
Lemma same_queue_ok s s' : same_queue s s' -> current_ok s' -> spool_ok s -> spool_ok s'.
Proof. intros (E1 & E2 & E3) Hc [O1 O2 O3 _]. split; rewrite ?E1, ?E2, ?E3; done. Qed.
Lemma same_queue_grows s s' :
  same_queue s s' -> (sp_current s' = sp_current s \/ sp_current s' = None) -> grows s s'.
Proof.
  intros Hq Hc. split.
  - intros name c [Hs Hn]. split; [by rewrite (same_queue_seg _ _ _ Hq)|].
    intros off. destruct Hc as [->| ->]; [apply Hn|done].
  - apply Hq.
  - apply Hq.
  - intros e. by rewrite (same_queue_pending _ _ Hq).
Qed.

Lemma wp_sync (Q : result error unit -> Spool -> Prop) s :
  Q (Ok tt) s -> (forall err, Q (Err err) s) -> wp sync_op Q s.
Proof. intros. by apply wp_query. Qed.

Lemma wp_recordLoss reason s :
  wp (recordLossLocked reason) (fun _ s' => exists x, s' = on_disk (with_loss x) s) s.
Proof.
  assert (Hid : exists x, s = on_disk (with_loss x) s) by (exists (d_loss (sp_disk s)); by destruct s as [[]]).
  unfold recordLossLocked. destruct (negb _); [by apply wp_fail|].
  apply wp_mbind, wp_query; [done|]. apply wp_mbind.
  assert (Hput : forall counts : gmap string Z, wp
    (let n := default 0 (counts !! reason) in
     let counts := if negb (n =? max_u64) then <[reason := n + 1]> counts else counts in
     file_op (with_loss (Some (loss_marshal counts)))) (fun _ s' => exists x, s' = on_disk (with_loss x) s) s).
  { intros counts. cbv zeta. apply wp_exec; simpl; eauto. }
  destruct (d_loss (sp_disk s)) as [t|]; [|apply wp_ret, Hput].
  destruct (loss_unmarshal t); [apply wp_ret, Hput|by apply wp_fail].
Qed.

Lemma wp_seal s :
  wp sealLocked (fun r s' => (s' = s \/ s' = with_current None 0 s) /\ (r = Ok tt -> sp_current s' = None)) s.
Proof.
  apply wp_inspect. destruct (sp_current s) as [[name off]|] eqn:E.
  - apply wp_mbind, wp_sync; [|by split; auto]. apply wp_mbind, wp_attempt, wp_sync; [|intros err];
      apply wp_mbind, wp_modify, wp_lift; auto.
  - apply wp_ret. auto.
Qed.
Lemma closed_current_ok n s : spool_ok s -> spool_ok (with_current None n s).
Proof. intros Hok. apply (same_queue_ok s); [by split_and!| |done]. by intros name off. Qed.

(** A name [os.CreateTemp] may choose: never used in this directory. *)
Definition fresh_name name s : Prop :=
  name ∉ names_of (d_segs (sp_disk s)) /\ name ∉ names_of (d_quar (sp_disk s)) /\
  d_acks (sp_disk s) !! name = None.

Definition new_segment name s : Spool :=
  on_disk (fun d => with_segs (insert_seg name (d_segs d)) d) s.
Lemma new_segment_spec name s :
  fresh_name name s -> spool_ok s -> sp_current s = None ->
  spool_ok (new_segment name s) /\ grows s (new_segment name s) /\
  seg_content name (sp_disk (new_segment name s)) = Some EmptyString.
Proof.
  intros (F1 & F2 & F3) [O1 O2 O3 _] Hc.
  pose proof (insert_seg_Permutation name (d_segs (sp_disk s))) as Hp.
  assert (Hnd : NoDup (names_of (d_segs (sp_disk (new_segment name s))))).
  { unfold names_of. simpl. rewrite Hp. simpl. by constructor. }
  assert (Hseg : forall n c, (n, c) ∈ d_segs (sp_disk s) -> seg_content n (sp_disk (new_segment name s)) = Some c).
  { intros n c Hin. apply seg_content_elem; [done|]. simpl. rewrite Hp. set_solver. }
  split_and!.
  - split; simpl; [done| | |].
    + rewrite Hp. constructor; [|done]. exists []. simpl. by rewrite F3.
    + rewrite Hp. by constructor.
    + intros n off Hn. simpl in Hn. congruence.
  - split; [|done..|].
    + intros n c [Hs%seg_content_Some Hn]. split; [by apply Hseg|]. simpl. by rewrite Hc.
    + intros e (p & Hin & He)%elem_of_pending. apply elem_of_pending. exists p. split; [|done].
      simpl. rewrite Hp. by constructor.
  - apply seg_content_elem; [done|]. simpl. rewrite Hp. set_solver.
Qed.

Lemma new_segment_pending name s : pending (new_segment name s) ≡ₚ pending s.
Proof.
  unfold pending. simpl. rewrite (insert_seg_Permutation name). simpl.
  unfold pending_seg at 1. simpl. by rewrite drop_nil.
Qed.

Lemma set_seg_split d name c c' :
  NoDup (names_of (d_segs d)) -> seg_content name d = Some c ->
  exists l1 l2, d_segs d = l1 ++ (name, c) :: l2 /\ d_segs (set_seg name c' d) = l1 ++ (name, c') :: l2.
Proof.
  intros Hnd Hc%seg_content_Some. apply list_elem_of_split in Hc as (l1 & l2 & Hl). exists l1, l2. split; [done|].
  unfold set_seg, names_of in *. simpl. rewrite Hl in *. rewrite map_app in Hnd. simpl in Hnd.
  apply NoDup_app in Hnd as (_ & Hd1 & [Hd2 _]%NoDup_cons).
  assert (Hid : forall l : list (string * string), name ∉ map fst l ->
    map (fun p => if String.eqb (fst p) name then (name, c') else p) l = l).
  { induction l as [|[n x] l IH]; intros Hn; [done|]. simpl in *. apply not_elem_of_cons in Hn as [Hne Hn].
    destruct (String.eqb_spec n name); [congruence|]. by rewrite IH. }
  rewrite map_app. simpl. rewrite String.eqb_refl, !Hid; [done..|done|].
  intros Hin. apply (Hd1 name Hin). constructor.
Qed.

(** Writing one whole line at the end of the open segment queues its entry. *)
Definition written line s : Spool := write_current (String.length line) line s.
Lemma written_spec e line s name off :
  spool_ok s -> sp_current s = Some (name, off) -> is_line e line ->
  sp_curSize s + slen line <= maxSegmentBytes + 1048576 ->
  spool_ok (grow (slen line) (written line s)) /\ grows s (written line s) /\
  grows s (grow (slen line) (written line s)) /\
  pending (grow (slen line) (written line s)) ≡ₚ stored e :: pending s.
Proof.
  intros [O1 O2 O3 O4] Hcur Hline Hsize. destruct (O4 _ _ Hcur) as (c & Hc & -> & Hcs).
  unfold written, write_current. rewrite Hcur, Hc. change (default EmptyString (Some c)) with c.
  rewrite stake_all, write_at_end by lia.
  pose proof (seg_content_Some _ _ _ Hc) as Hin.
  rewrite Forall_forall in O2. destruct (O2 _ Hin) as (es & Hes & [n Hn]). simpl in Hes, Hn.
  assert (Hes' : readSegment (c +:+ line) = Some (es ++ [stored e])).
  { eapply readSegment_append; [done..|]. rewrite Hcs in Hsize. done. }
  destruct (set_seg_split _ _ _ (c +:+ line) O1 Hc) as (l1 & l2 & E1 & E2).
  assert (Hck : parse_checkpoint (d_acks (sp_disk s) !! name) (Z.of_nat (length (es ++ [stored e]))) = Some n
                /\ 0 <= n <= Z.of_nat (length es)).
  { unfold parse_checkpoint in *. rewrite length_app. simpl. destruct (d_acks (sp_disk s) !! name); simplify_eq; [|split; [done|lia]].
    destruct (ParseInt s0); [|done]. destruct (_ || _) eqn:Eb; [done|]. simplify_eq. bools.
    assert ((n <? 0) || (Z.of_nat (length es + 1) <? n) = false) as -> by (apply orb_false_iff; split; apply Z.ltb_ge; lia).
    split; [done|lia]. }
  destruct Hck as [Hck Hle].
  assert (Hseg : pending_seg (d_acks (sp_disk s)) (name, c +:+ line) = pending_seg (d_acks (sp_disk s)) (name, c) ++ [stored e]).
  { unfold pending_seg. simpl. rewrite Hes, Hes', Hck, Hn. simpl. rewrite drop_app_le by lia. done. }
  assert (Hpend : pending (on_disk (set_seg name (c +:+ line)) s) ≡ₚ stored e :: pending s).
  { unfold pending. cbn [on_disk sp_disk]. rewrite E2, E1. cbn [set_seg with_segs d_acks].
    rewrite !flat_map_app. cbn [flat_map]. rewrite Hseg. solve_Permutation. }
  assert (Hgrow : grows s (on_disk (set_seg name (c +:+ line)) s)).
  { split; [|done|done|].
    - intros n' c' [Hs Hn']. split; [|done]. cbn [on_disk sp_disk]. rewrite set_seg_other; [done|].
      intros ->. by eapply Hn'.
    - intros e' He'. rewrite Hpend. by constructor. }
  split_and!.
  - split; cbn [grow with_current on_disk sp_disk].
    + by rewrite set_seg_names.
    + rewrite E2. rewrite E1 in O2. apply Forall_forall. intros p Hp.
      apply elem_of_app in Hp as [Hp|[->|Hp]%elem_of_cons]; [apply O2; set_solver| |apply O2; set_solver].
      exists (es ++ [stored e]). simpl. by rewrite Hck.
    + rewrite E2. rewrite E1 in O3. rewrite Forall_app, Forall_cons in *. done.
    + intros n' off' [= <- <-]. simpl. eexists. split; [by apply (set_seg_same _ _ _ c)|].
      rewrite length_append. split; [done|]. unfold slen in *. rewrite length_append, Hcs. lia.
  - destruct Hgrow as [G1 G2 G3 G4]. split; [|done..]. intros n' c' [Hs Hn']%G1. split; [done|].
    intros off'. simpl. intros [= <- <-]. by eapply Hn'.
  - destruct Hgrow as [G1 G2 G3 G4]. split; [|done..]. intros n' c' [Hs Hn']%G1. split; [done|].
    intros off'. simpl. intros [= <- <-]. by eapply Hn'.
  - done.
Qed.

Lemma write_nothing line s : spool_ok s -> write_current 0 line s = s /\ truncate_current s = (tt, s).
Proof.
  intros [O1 _ _ O4]. unfold write_current, truncate_current.
  destruct (sp_current s) as [[name off]|] eqn:E; [|done].
  destruct (O4 _ _ E) as (c & Hc & -> & Hs). rewrite Hc. change (default EmptyString (Some c)) with c.
  rewrite stake_0, write_at_end, append_nil_r, Hs. unfold slen.
  rewrite Nat2Z.id, truncate_to_end. unfold on_disk. rewrite set_seg_id by done.
  destruct s as [d cur n cl]. simpl in *. rewrite E, Hs, Nat.add_0_r. done.
Qed.

Definition queued s s' (l : list spoolEntry) : Prop :=
  spool_ok s' /\ grows s s' /\ pending s' ≡ₚ l ++ pending s.
Lemma queued_refl s : spool_ok s -> queued s s [].
Proof. done. Qed.
Lemma queued_trans s1 s2 s3 l l' : queued s1 s2 l -> queued s2 s3 l' -> queued s1 s3 (l' ++ l).
Proof.
  intros (A1 & A2 & A3) (B1 & B2 & B3). split; [done|]. split; [by trans s2|].
  rewrite B3, A3, app_assoc. done.
Qed.
Lemma same_queue_queued s s' :
  same_queue s s' -> (sp_current s' = sp_current s /\ sp_curSize s' = sp_curSize s \/ sp_current s' = None) ->
  spool_ok s -> queued s s' [].
Proof.
  intros Hq Hc Hok. split; [|split].
  - apply (same_queue_ok s); [done| |done]. intros name off Hn. destruct Hc as [[E1 E2]|E]; [|congruence].
    rewrite E1 in Hn. destruct (ok_current _ Hok _ _ Hn) as (c & Hc & ?).
    exists c. by rewrite (same_queue_seg _ _ _ Hq), E2.
  - apply same_queue_grows; [done|]. tauto.
  - by rewrite (same_queue_pending _ _ Hq).
Qed.

Lemma wp_seal_queued s : spool_ok s ->
  wp sealLocked (fun r s' => queued s s' [] /\ same_queue s s' /\ (r = Ok tt -> sp_current s' = None)) s.
Proof.
  intros Hok. eapply wp_mono; [apply wp_seal|]. intros r s' [[-> | ->] Hr].
  - split; [by apply queued_refl|]. done.
  - split; [|done]. apply same_queue_queued; [done|by right|done].
Qed.
Lemma wp_evict_queued n s : spool_ok s ->
  wp (evictIfFullLocked n) (fun r s' => queued s s' [] /\ same_queue s s') s.
Proof.
  intros Hok. assert (Hrefl : queued s s [] /\ same_queue s s) by by split; [apply queued_refl|].
  apply wp_mbind, wp_query; [done|]. destruct (_ || _); [|by apply wp_ret].
  apply wp_mbind, wp_attempt. eapply wp_mono; [apply wp_recordLoss|]. intros r s' [x ->].
  assert (queued s (on_disk (with_loss x) s) [] /\ same_queue s (on_disk (with_loss x) s)).
  { split; [|done]. apply same_queue_queued; [done|by left|done]. }
  by destruct r; apply wp_fail.
Qed.
Lemma same_queue_fresh name s s' : same_queue s s' -> fresh_name name s -> fresh_name name s'.
Proof. intros (E1 & E2 & E3). unfold fresh_name. by rewrite E1, E2, E3. Qed.

Lemma wp_ensure_queued n name s :
  spool_ok s -> fresh_name name s -> n <= maxRecordBytes ->
  wp (ensureSegmentLocked n name) (fun r s' => queued s s' [] /\
    (r = Ok tt -> exists p, sp_current s' = Some p /\ sp_curSize s' + n <= maxSegmentBytes + 1048576)) s.
Proof.
  intros Hok Hf Hn. apply wp_inspect. destruct (match sp_current s with Some _ => _ | None => _ end) eqn:E.
  - apply wp_ret. split; [by apply queued_refl|]. intros _. destruct (sp_current s) as [p|]; [|done].
    exists p. split; [done|]. bools. unfold maxSegmentBytes in *. lia.
  - apply wp_mbind. eapply wp_mono; [by apply wp_seal_queued|]. intros r s1 (Hq & Hs & Hc).
    destruct r as [[]|err]; [|by split]. specialize (Hc eq_refl).
    pose proof (same_queue_fresh _ _ _ Hs Hf) as Hf1.
    destruct (new_segment_spec name s1 Hf1 (proj1 Hq) Hc) as (N1 & N2 & N3).
    pose proof (new_segment_pending name s1) as Hp.
    assert (Hq2 : queued s (new_segment name s1) []) by (apply (queued_trans _ s1 _ [] []); [done|]; by split_and!).
    apply wp_mbind, wp_statement; [by split|]. intros [] s2 Ht.
    assert (s2 = new_segment name s1) as ->.
    { unfold create_temp in Ht. rewrite (proj2 (seg_content_None _ _)) in Ht by apply Hf1. by simplify_eq. }
    split; [|by split].
    apply wp_mbind, wp_sync; [|by split]. apply wp_mbind, wp_sync; [|by split].
    apply wp_modify. split; [|intros _; exists (name, O); simpl; unfold maxRecordBytes, maxSegmentBytes in *; split; [done|lia]].
    apply (queued_trans _ s1 _ [] []); [done|]. split; [|split; [|done]].
    + apply (same_queue_ok (new_segment name s1)); [done| |done]. intros nm off [= <- <-].
      exists EmptyString. by rewrite <- N3.
    + destruct N2 as [G1 G2 G3 G4]. split; [|done..]. intros nm c Hnm.
      split; [by apply G1|]. intros off [= <- _]. destruct Hnm as [Hnm _].
      rewrite (proj2 (seg_content_None _ _)) in Hnm by apply Hf1. done.
Qed.

(** The write faults under which the queue stays readable: none, or one that
    stops before the first byte. *)
Definition clean_cut (cut : option nat) : Prop := cut = None \/ cut = Some O.

Lemma wp_append_line e line name cut s :
  spool_ok s -> fresh_name name s -> is_line e line -> clean_cut cut ->
  wp (append_line line name cut) (fun r s' =>
    (queued s s' [] /\ is_ok r = false) \/ queued s s' [stored e]) s.
Proof.
  intros Hok Hf Hl Hcut. apply wp_inspect.
  destruct (sp_closed s); [apply wp_fail; left; by split; [apply queued_refl|]|].
  apply wp_mbind. eapply wp_mono; [by apply wp_evict_queued|]. intros r s1 [Hq1 Hs1].
  destruct r as [[]|err]; [|by left].
  apply wp_mbind. eapply wp_mono.
  { apply (wp_ensure_queued (slen line) name s1); [apply Hq1|by eapply same_queue_fresh|]. by destruct Hl as (? & ? & ? & ? & ?). }
  intros r s2 [Hq2 Hcur]. assert (Hq : queued s s2 []) by by apply (queued_trans _ s1 _ [] []).
  destruct r as [[]|err]; [|by left]. destruct (Hcur eq_refl) as ([nm off] & Hc & Hsize).
  destruct Hcut as [-> | ->].
  - destruct (written_spec e line s2 nm off) as (W1 & W2 & W3 & W4); [apply Hq|done..|].
    assert (Hq3 : queued s (grow (slen line) (written line s2)) [stored e])
      by (apply (queued_trans _ s2 _ [] [stored e]); [done|by split_and!]).
    apply wp_mbind, wp_modify, wp_mbind, wp_modify, wp_sync; by right.
  - destruct (write_nothing line s2 (proj1 Hq)) as [Hw Ht].
    apply wp_mbind, wp_modify. rewrite Hw. apply wp_mbind, wp_attempt, wp_exec; rewrite ?Ht;
      intros; apply wp_fail; by left.
Qed.

(** A payload [Append] can take. *)
Lemma wp_Append payloadType body now name cut s :
  spool_ok s -> fresh_name name s -> payloadType <> EmptyString -> clean_cut cut ->
  wp (Append payloadType body now name cut) (fun r s' =>
    (queued s s' [] /\ is_ok r = false) \/
    queued s s' [stored {| se_PayloadType := payloadType; se_Body := body; se_QueuedAt := Unix now |}]) s.
Proof.
  intros Hok Hf Ht Hcut. unfold Append. destruct (entry_marshal _) as [text|] eqn:Em;
    [|apply wp_fail; left; by split; [apply queued_refl|]].
  destruct (Z.ltb_spec maxRecordBytes (slen (text +:+ String newline EmptyString)));
    [apply wp_fail; left; by split; [apply queued_refl|]|].
  apply wp_append_line; [done..| |done]. exists text. done.
Qed.
End append.

(** ** Quarantine, checkpoints, removal *)

Section changes.
Context `{Unicode} `{URLParser} `{SpoolJSONLaws}.
Implicit Types (d : disk) (s : Spool) (name : string) (e : spoolEntry).

(** On disk: pending or in quarantine. *)
Definition on_hand s e : Prop := e ∈ pending s \/ e ∈ quarantined s.

Lemma grows_on_hand s s' e : grows s s' -> on_hand s e -> on_hand s' e.
Proof. intros [_ _ G3 G4] [Hp|Hq]; [left; auto|right]. unfold quarantined in *. by rewrite G3. Qed.

Lemma elem_of_quarantined e s :
  e ∈ quarantined s <-> exists p, p ∈ d_quar (sp_disk s) /\ e ∈ default [] (readSegment p.2).
Proof.
  unfold quarantined. rewrite list_elem_of_In, in_flat_map.
  split; intros (p & Hp & He); exists p; by rewrite !list_elem_of_In in *.
Qed.

Definition not_current name s : Prop := forall off, sp_current s <> Some (name, off).

Lemma remove_seg_elem name d p :
  p ∈ d_segs (remove_seg name d) <-> p ∈ d_segs d /\ p.1 <> name.
Proof.
  unfold remove_seg. simpl. rewrite !list_elem_of_In, filter_In.
  destruct (String.eqb_spec (fst p) name); simpl; intuition congruence.
Qed.
Lemma remove_seg_names name d : NoDup (names_of (d_segs d)) -> NoDup (names_of (d_segs (remove_seg name d))).
Proof.
  unfold remove_seg, names_of. simpl. induction (d_segs d) as [|[n c] l IH]; [done|]. simpl.
  intros [Hn Hnd]%NoDup_cons. destruct (negb _); simpl; [|by apply IH].
  constructor; [|by apply IH]. intros ([n' c'] & -> & Hin)%list_elem_of_fmap. apply Hn.
  apply list_elem_of_In, filter_In in Hin as [Hin _]. apply list_elem_of_In in Hin.
  by apply (list_elem_of_fmap_2 fst) in Hin.
Qed.
Lemma remove_seg_content name name' d : name' <> name -> seg_content name' (remove_seg name d) = seg_content name' d.
Proof.
  intros Hne. unfold seg_content, remove_seg. simpl. induction (d_segs d) as [|[n c] l IH]; [done|]. simpl.
  destruct (String.eqb_spec n name) as [->|]; simpl.
  - destruct (String.eqb_spec name name'); [congruence|]. apply IH.
  - destruct (String.eqb n name'); [done|apply IH].
Qed.

(** The same disk after [name] has left the queue and, maybe, its checkpoint
    with it. *)
Definition without name s d' : Prop :=
  d_segs d' = d_segs (remove_seg name (sp_disk s)) /\
  (forall n, n <> name -> d_acks d' !! n = d_acks (sp_disk s) !! n).

Lemma without_spec name s d' :
  spool_ok s -> not_current name s -> without name s d' ->
  (forall p, p ∈ d_segs d' -> p.1 ∉ names_of (d_quar d')) ->
  let s' := {| sp_disk := d'; sp_current := sp_current s; sp_curSize := sp_curSize s; sp_closed := sp_closed s |} in
  spool_ok s' /\ (forall n c, n <> name -> sealed s n c -> sealed s' n c) /\
  (forall e p, p ∈ d_segs (sp_disk s) -> p.1 <> name -> e ∈ pending_seg (d_acks (sp_disk s)) p -> e ∈ pending s').
Proof.
  intros [O1 O2 O3 O4] Hcur [E1 E2] Hq s'.
  assert (Hin : forall p, p ∈ d_segs d' <-> p ∈ d_segs (sp_disk s) /\ p.1 <> name)
    by (intros p; rewrite E1; apply remove_seg_elem).
  assert (Hcontent : forall n, n <> name -> seg_content n d' = seg_content n (sp_disk s)).
  { intros n Hn. rewrite <- (remove_seg_content name n (sp_disk s)) by done. unfold seg_content. by rewrite E1. }
  split_and!.
  - split; simpl.
    + unfold names_of. rewrite E1. by apply remove_seg_names.
    + apply Forall_forall. intros p [Hp Hn]%Hin. rewrite Forall_forall in O2. destruct (O2 p Hp) as (es & Hes & Hck).
      exists es. by rewrite E2.
    + by apply Forall_forall.
    + intros n off Hn. simpl in Hn. destruct (O4 _ _ Hn) as (c & Hc & ?). exists c. simpl.
      rewrite Hcontent; [done|]. intros ->. by eapply Hcur.
  - intros n c Hn [Hs Hc]. split; [|done]. simpl. by rewrite Hcontent.
  - intros e p Hp Hn He. apply elem_of_pending. exists p. simpl. split; [by apply Hin|].
    unfold pending_seg in *. by rewrite E2.
Qed.

Lemma quar_names name c d :
  NoDup (names_of (d_segs d)) -> Forall (fun p => p.1 ∉ names_of (d_quar d)) (d_segs d) ->
  forall p, p ∈ d_segs (quar_seg name c d) -> p.1 ∉ names_of (d_quar (quar_seg name c d)).
Proof.
  intros _ Hf p Hp%remove_seg_elem. destruct Hp as [Hp Hn]. simpl in *. rewrite Forall_forall in Hf.
  intros [?|Hin]%elem_of_cons; [done|]. apply (Hf p Hp). apply list_elem_of_fmap in Hin as (q & -> & Hin).
  apply list_elem_of_fmap_2. rewrite list_elem_of_In, filter_In in Hin. apply list_elem_of_In. tauto.
Qed.

(** Moving a segment to quarantine keeps every entry. *)
Definition keeps s s' : Prop :=
  spool_ok s' /\ sp_current s' = sp_current s /\ forall e, on_hand s e -> on_hand s' e.

Lemma quar_seg_keeps name c s :
  spool_ok s -> not_current name s -> seg_content name (sp_disk s) = Some c ->
  keeps s (on_disk (quar_seg name c) s) /\
  (forall n c', n <> name -> sealed s n c' -> sealed (on_disk (quar_seg name c) s) n c').
Proof.
  intros Hok Hcur Hc. pose proof Hok as [O1 O2 O3 O4].
  destruct (without_spec name s (quar_seg name c (sp_disk s)) Hok Hcur) as (W1 & W2 & W3).
  - by split.
  - by apply quar_names.
  - split; [|done]. split; [done|]. split; [done|]. intros e [(p & Hp & He)%elem_of_pending|(p & Hp & He)%elem_of_quarantined].
    + destruct (decide (p.1 = name)) as [Hn|Hn]; [|left; by eapply W3].
      right. apply elem_of_quarantined. exists (name, c). split; [simpl; by constructor|]. simpl.
      destruct p as [n c']. simpl in *. subst n. rewrite (seg_content_elem _ _ _ O1 Hp) in Hc. injection Hc as ->.
      unfold pending_seg in He. simpl in He. destruct (readSegment c); [|by apply not_elem_of_nil in He].
      simpl. eapply elem_of_submseteq; [exact He|]. apply sublist_submseteq, sublist_drop.
    + right. apply elem_of_quarantined. exists p. split; [|done]. simpl. apply elem_of_cons. right.
      rewrite list_elem_of_In, filter_In. split; [by apply list_elem_of_In|].
      apply negb_true_iff, String.eqb_neq. intros Hn.
      rewrite Forall_forall in O3. apply (O3 (name, c) (seg_content_Some _ _ _ Hc)). simpl. rewrite <- Hn.
      by apply list_elem_of_fmap_2.
Qed.

Lemma remove_seg_none name d : name ∉ names_of (d_segs d) -> d_segs (remove_seg name d) = d_segs d.
Proof.
  unfold remove_seg, names_of. simpl. induction (d_segs d) as [|[n c] l IH]; [done|]. simpl.
  intros [Hn Hl]%not_elem_of_cons. destruct (String.eqb_spec n name); [congruence|]. simpl. by rewrite IH.
Qed.
Lemma keeps_trans s1 s2 s3 : keeps s1 s2 -> keeps s2 s3 -> keeps s1 s3.
Proof. intros (A1 & A2 & A3) (B1 & B2 & B3). split; [done|]. split; [congruence|auto]. Qed.
Lemma keeps_refl s : spool_ok s -> keeps s s.
Proof. by split. Qed.
Definition others_sealed name s s' : Prop := forall n c, n <> name -> sealed s n c -> sealed s' n c.

(** The checkpoint of a segment that is gone may change. *)
Lemma stale_ack_keeps name s d' :
  spool_ok s -> not_current name s -> name ∉ names_of (d_segs (sp_disk s)) ->
  d_segs d' = d_segs (sp_disk s) -> d_quar d' = d_quar (sp_disk s) ->
  (forall n, n <> name -> d_acks d' !! n = d_acks (sp_disk s) !! n) ->
  let s' := {| sp_disk := d'; sp_current := sp_current s; sp_curSize := sp_curSize s; sp_closed := sp_closed s |} in
  keeps s s' /\ others_sealed name s s'.
Proof.
  intros Hok Hcur Hn E1 E2 E3 s'.
  destruct (without_spec name s d' Hok Hcur) as (W1 & W2 & W3).
  - split; [by rewrite remove_seg_none|done].
  - rewrite E1, E2. apply Forall_forall, Hok.
  - split; [|exact W2]. split; [done|]. split; [done|]. intros e [(p & Hp & He)%elem_of_pending|He].
    + left. apply (W3 e p Hp); [|done]. intros <-. by apply Hn, list_elem_of_fmap_2.
    + right. unfold quarantined in *. simpl. by rewrite E2.
Qed.

Lemma wp_quarantinePath name s :
  spool_ok s -> not_current name s ->
  wp (quarantinePathLocked name) (fun _ s' => keeps s s' /\ others_sealed name s s') s.
Proof.
  intros Hok Hcur. assert (Hrefl : keeps s s /\ others_sealed name s s) by (split; [by apply keeps_refl|by intros ???]).
  apply wp_mbind, wp_sync; [|done]. apply wp_mbind, wp_statement; [done|].
  intros [] s1 Hs1. destruct (seg_content name (sp_disk s)) as [c|] eqn:Hc; [|done].
  injection Hs1 as <-. pose proof (quar_seg_keeps _ _ _ Hok Hcur Hc) as [Hk1 Ho1].
  split; [|done]. destruct (stale_ack_keeps name (on_disk (quar_seg name c) s)
    (quar_ack name (sp_disk (on_disk (quar_seg name c) s)))) as [Hk2 Ho2].
  - apply Hk1.
  - done.
  - intros (p & -> & Hp)%list_elem_of_fmap. destruct (proj1 (remove_seg_elem _ _ _) Hp) as [_ Hne]. by destruct Hne.
  - unfold quar_ack. by destruct (d_acks _ !! name).
  - unfold quar_ack. by destruct (d_acks _ !! name).
  - intros n Hn. unfold quar_ack. destruct (d_acks _ !! name); [|done]. simpl. by rewrite lookup_delete_ne.
  - assert (keeps s (on_disk (quar_ack name) (on_disk (quar_seg name c) s)) /\
            others_sealed name s (on_disk (quar_ack name) (on_disk (quar_seg name c) s))).
    { split; [by eapply keeps_trans|]. intros n c' Hn Hs. by apply Ho2, Ho1. }
    apply wp_mbind, wp_exec; [done| |done]. by apply wp_sync.
Qed.

Lemma quarantine_all_keeps names s :
  spool_ok s -> sp_current s = None -> wp (quarantine_all names) (fun _ s' => keeps s s') s.
Proof.
  revert s. induction names as [|n ns IH]; intros s Hok Hcur; [by apply wp_ret, keeps_refl|].
  simpl. apply wp_mbind. eapply wp_mono; [apply wp_quarantinePath; [done|]|].
  { intros off. by rewrite Hcur. }
  intros r s1 [Hk _]. destruct r as [[]|err]; [|done].
  eapply wp_mono; [apply IH; [apply Hk|]|].
  - destruct Hk as (_ & -> & _). done.
  - intros r s2 Hk2. by eapply keeps_trans.
Qed.

(** Every operation but a write that is cut short keeps what is on hand. *)
Definition retains s s' : Prop := spool_ok s' /\ forall e, on_hand s e -> on_hand s' e.
Lemma queued_retains s s' l : queued s s' l -> retains s s'.
Proof. intros (Q1 & Q2 & _). split; [done|]. intros e. by apply grows_on_hand. Qed.
Lemma retains_trans s1 s2 s3 : retains s1 s2 -> retains s2 s3 -> retains s1 s3.
Proof. intros [A1 A2] [B1 B2]. split; auto. Qed.
Lemma retains_refl s : spool_ok s -> retains s s.
Proof. by split. Qed.
#[local] Hint Resolve retains_refl : core.

Lemma retains_file_op (f : disk -> disk) s :
  (forall d, d_segs (f d) = d_segs d /\ d_acks (f d) = d_acks d /\ d_quar (f d) = d_quar d) ->
  spool_ok s -> wp (file_op f) (fun _ s' => retains s s') s.
Proof.
  intros Hf Hok. assert (retains s (on_disk f s)).
  { apply (queued_retains _ _ []), same_queue_queued; [apply Hf|by left|done]. }
  apply wp_exec; auto.
Qed.

Lemma retains_Bind origin tenant server s :
  spool_ok s -> wp (BindDestination origin tenant server) (fun _ s' => retains s s') s.
Proof.
  intros Hok. apply wp_inspect. destruct (sp_closed s); [by apply wp_fail; auto|]. cbv zeta.
  destruct (is_empty _); [by apply wp_fail; auto|].
  apply wp_mbind. unfold readBindLocked. apply wp_mbind, wp_query; [auto|].
  assert (Hrest : forall mismatch b, wp (let* _ := whenM mismatch quarantineLocked in writeBindLocked b)
            (fun _ s' => retains s s') s).
  { intros mismatch b. apply wp_mbind. apply (wp_mono _ (fun _ s' => retains s s')).
    - destruct mismatch; [|by apply wp_ret; auto].
      apply wp_mbind. eapply wp_mono; [by apply wp_seal_queued|]. intros r s1 (Hq & _ & Hc).
      destruct r as [[]|err]; [|by eapply queued_retains]. specialize (Hc eq_refl).
      apply wp_mbind, wp_query; [intros; by eapply queued_retains|].
      eapply wp_mono; [apply quarantine_all_keeps; [apply Hq|done]|].
      intros r s2 (K1 & _ & K3). eapply retains_trans; [by eapply queued_retains|]. by split.
    - intros r s1 Hr. destruct r as [[]|err]; [|done].
      eapply wp_mono; [apply retains_file_op; [done|apply Hr]|]. intros. by eapply retains_trans. }
  destruct (d_bind (sp_disk s)) as [t|].
  - destruct (bind_unmarshal t) as [b|]; [|by apply wp_fail; auto]. apply wp_ret.
    apply Hrest.
  - apply wp_ret, Hrest.
Qed.
End changes.

(** ** Draining *)

Lemma read_lines_count (acc s : string) : (length (read_lines acc s).1 <= String.length s)%nat.
Proof.
  revert acc. induction s as [|c s IH]; intros acc; [done|]. cbn [read_lines].
  destruct (Ascii.eqb c newline).
  - specialize (IH EmptyString). destruct (read_lines EmptyString s). simpl in *. lia.
  - specialize (IH (acc +:+ String c EmptyString)). simpl. lia.
Qed.

Section draining.
Context `{Unicode} `{URLParser} `{SpoolJSONLaws}.
(** The other end: its invariant, and what it has received. *)
Context {W : Type} (inv : W -> Prop) (received : W -> string * string -> Prop).
Implicit Types (s : Spool) (w : W) (p : Spool * W) (name : string) (e : spoolEntry).

Lemma readSegment_count c es : readSegment c = Some es -> Z.of_nat (length es) <= maxSegmentBytes + 1048576.
Proof.
  unfold readSegment. destruct (Z.ltb_spec (maxSegmentBytes + 1048576) (slen c)) as [|Hle]; [done|].
  pose proof (read_lines_count EmptyString c) as Hn. destruct (read_lines EmptyString c) as [ls rest].
  destruct (is_empty rest); [|done]. intros Hr. cbn [fst] in Hn.
  assert (length es <= length ls)%nat.
  { clear -Hr. revert es Hr. induction ls as [|l ls IH]; intros es Hr; simpl in Hr; [by simplify_eq|].
    unfold read_record in Hr. destruct (_ <? _); [done|]. simpl in Hr.
    assert (Hx : forall a, (a = [] \/ exists x, a = [x]) -> (b ← read_records ls; Some (a ++ b)) = Some es ->
      (length es <= S (length ls))%nat).
    { intros a Ha Hb. destruct (read_records ls) as [b|]; [|done]. simpl in Hb. simplify_eq.
      specialize (IH b eq_refl). destruct Ha as [->|[x ->]]; simpl; lia. }
    destruct (is_empty _); [apply (Hx []); auto|]. destruct (entry_unmarshal l); [|done].
    destruct (_ || _); [done|]. apply (Hx [s]); eauto. }
  unfold slen in *. lia.
Qed.

(** What the other end receives of an entry. *)
Definition payload e : string * string := (se_PayloadType e, se_Body e).
(** What runs beside a drain: other threads append to the spool, and the other
    end only gains entries. *)
Definition beside p p' : Prop :=
  (spool_ok p.1 -> spool_ok p'.1 /\ grows p.1 p'.1) /\ (inv p.2 -> inv p'.2) /\
  (forall x, received p.2 x -> received p'.2 x).
(** A delivery that reports success has reached the other end. *)
Definition delivers (deliver : list spoolEntry -> M (Spool * W) unit) : Prop :=
  forall g p, inv p.2 ->
    wp (deliver g) (fun r p' => beside p p' /\ (r = Ok tt -> forall e, e ∈ g -> received p'.2 (payload e))) p.
Definition delivers_each (deliver : string -> string -> M (Spool * W) unit) : Prop :=
  forall e p, inv p.2 ->
    wp (deliver (se_PayloadType e) (se_Body e)) (fun r p' => beside p p' /\ (r = Ok tt -> received p'.2 (payload e))) p.
Definition only_beside (m : M (Spool * W) unit) : Prop := forall p, inv p.2 -> wp m (fun _ p' => beside p p') p.

(** An entry is safe: on disk or at the other end. *)
Definition safe p e : Prop := on_hand p.1 e \/ received p.2 (payload e).
Definition secure p e : Prop := inv p.2 /\ safe p e.

Lemma wp_on_spool {A} (m : M Spool A) (Q : result error A -> Spool * W -> Prop) p :
  wp m (fun r s' => Q r (s', p.2)) p.1 -> wp (on_spool m) Q p.
Proof. intros Hm fs. specialize (Hm fs). unfold on_spool. by destruct (m p.1 fs) as [[r s'] fs']. Qed.

(** The state while the entries of [name] are being delivered: those before
    [n] are acknowledged, and the segments still to come are sealed. *)
Record working (x : spoolEntry) (name c : string) (es : list spoolEntry) (n : nat) (rest : list string) p : Prop := {
  wk_ok : spool_ok p.1;
  wk_sealed : sealed p.1 name c;
  wk_read : readSegment c = Some es;
  wk_ack : parse_checkpoint (d_acks (sp_disk p.1) !! name) (Z.of_nat (length es)) = Some (Z.of_nat n);
  wk_le : (n <= length es)%nat;
  wk_rest : NoDup (name :: rest) /\ forall m, m ∈ rest -> exists c', sealed p.1 m c';
  wk_safe : secure p x
}.

Lemma beside_safe p p' e : spool_ok p.1 -> beside p p' -> secure p e -> secure p' e.
Proof.
  intros Hok (Hs & Hi & Hl) [Hinv [Hd|Hw]]; (split; [auto|]); [left|right; auto].
  eapply grows_on_hand; [by apply Hs|done].
Qed.
Lemma beside_working x name c es n rest p p' :
  beside p p' -> working x name c es n rest p -> working x name c es n rest p'.
Proof.
  intros Hb [W1 W2 W3 W4 W5 [W6 W7] W8]. destruct (proj1 Hb W1) as [Hok [G1 G2 G3 G4]].
  split; [done|by apply G1|done|by rewrite G2|done| |by apply (beside_safe p)].
  split; [done|]. intros m Hm. destruct (W7 m Hm) as [c' ?]. exists c'. by apply G1.
Qed.

Lemma pending_seg_at acks name c es n :
  readSegment c = Some es -> parse_checkpoint (acks !! name) (Z.of_nat (length es)) = Some (Z.of_nat n) ->
  pending_seg acks (name, c) = drop n es.
Proof. intros Hc Ha. unfold pending_seg. cbn [fst snd]. rewrite Hc, Ha. simpl. by rewrite Nat2Z.id. Qed.

Lemma set_ack_working x name c es n k rest p :
  working x name c es n rest p -> (n + k <= length es)%nat ->
  (forall e, e ∈ take k (drop n es) -> received p.2 (payload e)) ->
  working x name c es (n + k) rest (on_disk (set_ack name (Z.of_nat (n + k))) p.1, p.2).
Proof.
  intros [W1 W2 W3 W4 W5 W6 W8] Hk Hlog.
  pose proof (readSegment_count _ _ W3) as Hcount. unfold maxSegmentBytes in Hcount.
  assert (Hparse : parse_checkpoint (d_acks (sp_disk (on_disk (set_ack name (Z.of_nat (n + k))) p.1)) !! name)
                     (Z.of_nat (length es)) = Some (Z.of_nat (n + k))).
  { simpl. rewrite lookup_insert_eq. unfold parse_checkpoint.
    rewrite ParseInt_Itoa by (unfold in_i64, min_int64, max_int64; lia).
    destruct ((_ <? 0) || _) eqn:E; [|done]. bools. destruct E; bools; lia. }
  destruct W2 as [Hseg Hcur]. pose proof W1 as [O1 O2 O3 O4].
  pose proof (seg_content_Some _ _ _ Hseg) as Hin.
  assert (Hacks : forall q, q ∈ d_segs (sp_disk p.1) -> q = (name, c) \/
    d_acks (sp_disk (on_disk (set_ack name (Z.of_nat (n + k))) p.1)) !! q.1 = d_acks (sp_disk p.1) !! q.1).
  { intros [m c'] Hq. simpl. destruct (decide (m = name)) as [->|Hne]; [left|right; by rewrite lookup_insert_ne].
    pose proof (seg_content_elem _ _ _ O1 Hq). congruence. }
  split; try done.
  - split; try done. apply Forall_forall. intros q Hq. destruct (Hacks q Hq) as [->|Heq].
    + exists es. split; [done|]. cbn [fst]. by rewrite Hparse.
    + rewrite Forall_forall in O2. destruct (O2 q Hq) as (es' & ? & ?). exists es'.
      cbn [fst snd] in Heq |- *. by rewrite Heq.
  - destruct W8 as [Hi W8]. split; [exact Hi|].
    destruct W8 as [[(q & Hq & He)%elem_of_pending|Hqu]|Hl]; [|by left; right|by right].
    destruct (Hacks q Hq) as [->|Heq].
    + rewrite (pending_seg_at _ _ _ _ _ W3 W4), <- (take_drop k (drop n es)), drop_drop in He.
      apply elem_of_app in He as [He|He]; [right; by apply Hlog|].
      left. left. apply elem_of_pending. exists (name, c). split; [done|].
      cbn [fst]. by rewrite (pending_seg_at _ _ _ _ _ W3 Hparse).
    + left. left. apply elem_of_pending. exists q. split; [done|].
      unfold pending_seg in *. cbn [fst]. by rewrite Heq.
Qed.

(** Outcome of delivering one segment. *)
Definition delivered_ok x name c es rest (r : result error (Z * option error)) p : Prop :=
  match r with
  | Ok (_, None) => working x name c es (length es) rest p
  | _ => spool_ok p.1 /\ secure p x
  end.
Lemma working_stop x name c es n rest p : working x name c es n rest p -> spool_ok p.1 /\ secure p x.
Proof. by intros [W1 _ _ _ _ _ W8]. Qed.

(** Acknowledge [k] more entries. *)
Lemma wp_ack x name c es n k rest p (Q : result error (Z * option error) -> Spool * W -> Prop)
    (d : Z) (m : M (Spool * W) (Z * option error)) :
  working x name c es n rest p -> (n + k <= length es)%nat ->
  (forall e, e ∈ take k (drop n es) -> received p.2 (payload e)) ->
  (forall err p', spool_ok p'.1 /\ secure p' x -> Q (Ok (d, Some err)) p') ->
  (forall p', working x name c es (n + k) rest p' -> wp m Q p') ->
  wp (let* r := attempt (on_spool (file_op (set_ack name (Z.of_nat n + Z.of_nat k)))) in
      match r with Err err => ret (d, Some err) | Ok _ => m end) Q p.
Proof.
  intros Hw Hk Hlog Herr Hok. rewrite <- Nat2Z.inj_add.
  pose proof (set_ack_working _ _ _ _ _ _ _ _ Hw Hk Hlog) as Hw'.
  apply wp_mbind, wp_attempt, wp_on_spool, wp_exec.
  - intros err. apply wp_ret, Herr. destruct p. by eapply working_stop.
  - by apply Hok.
  - intros err. apply wp_ret, Herr. by eapply working_stop.
Qed.

Lemma group_size_le entries room size n : group_size entries room size = Ok n -> (n <= length entries)%nat.
Proof.
  revert room size n. induction entries as [|e es IH]; intros [|room] size n; simpl; try (intros [= <-]; lia).
  destruct (entry_marshal e) as [text|]; [|done]. destruct (_ <? _); [intros [= <-]; lia|].
  destruct (group_size es room _) as [k|] eqn:E; [|done]. intros [= <-]. apply IH in E. lia.
Qed.

Lemma wp_drain_groups x name c es rest cancelled maximum deliver fuel n dv p :
  only_beside cancelled -> delivers deliver ->
  (length es - n <= fuel)%nat -> working x name c es n rest p ->
  wp (drain_groups fuel cancelled maximum deliver name (drop n es) (Z.of_nat n) dv)
     (delivered_ok x name c es rest) p.
Proof.
  intros Hcan Hdel. revert n dv p. induction fuel as [|fuel IH]; intros n dv p Hfuel Hw.
  - assert (n = length es) as -> by (pose proof (wk_le _ _ _ _ _ _ _ Hw); lia).
    rewrite drop_all. by apply wp_ret.
  - cbn [drain_groups]. destruct (drop n es) as [|e todo] eqn:Etodo.
    { assert (n = length es) as ->.
      { pose proof (wk_le _ _ _ _ _ _ _ Hw). apply (f_equal length) in Etodo. rewrite length_drop in Etodo. simpl in *. lia. }
      by apply wp_ret. }
    rewrite <- Etodo. apply wp_mbind, wp_attempt. eapply wp_mono; [apply Hcan, (wk_safe _ _ _ _ _ _ _ Hw)|]. intros r p1 Hb1.
    pose proof (beside_working _ _ _ _ _ _ _ _ Hb1 Hw) as Hw1.
    destruct r as [[]|err]; [|apply wp_ret; by eapply working_stop].
    destruct (group_size (drop n es) maximum 1024) as [[|k]|err] eqn:Eg;
      [apply wp_ret; by eapply working_stop| |apply wp_ret; by eapply working_stop].
    apply group_size_le in Eg. rewrite length_drop in Eg.
    apply wp_mbind, wp_attempt. eapply wp_mono; [apply Hdel, (wk_safe _ _ _ _ _ _ _ Hw1)|]. intros r p2 [Hb2 Hlog].
    pose proof (beside_working _ _ _ _ _ _ _ _ Hb2 Hw1) as Hw2.
    destruct r as [[]|err]; [|apply wp_ret; by eapply working_stop]. cbv zeta.
    eapply wp_ack; [exact Hw2|lia|by apply Hlog| |].
    + intros err p' Hp'. exact Hp'.
    + intros p' Hw'. rewrite drop_drop, <- Nat2Z.inj_add. apply IH; [lia|done].
Qed.

Lemma wp_drain_each x name c es rest deliver n dv p :
  delivers_each deliver ->
  working x name c es n rest p ->
  wp (drain_each deliver name (drop n es) (Z.of_nat n) dv) (delivered_ok x name c es rest) p.
Proof.
  intros Hdel. remember (length es - n)%nat as m eqn:Hm. revert n dv p Hm. induction m as [|m IH]; intros n dv p Hm Hw;
    destruct (drop n es) as [|e todo] eqn:Etodo; try (
      assert (n = length es) as -> by (pose proof (wk_le _ _ _ _ _ _ _ Hw); apply (f_equal length) in Etodo;
        rewrite length_drop in Etodo; simpl in *; lia); by apply wp_ret).
  - apply (f_equal length) in Etodo. rewrite length_drop in Etodo. simpl in *. lia.
  - cbn [drain_each]. apply wp_mbind, wp_attempt. eapply wp_mono; [apply (Hdel e), (wk_safe _ _ _ _ _ _ _ Hw)|]. intros r p1 [Hb Hlog].
    pose proof (beside_working _ _ _ _ _ _ _ _ Hb Hw) as Hw1.
    destruct r as [[]|err]; [|apply wp_ret; by eapply working_stop].
    apply (wp_ack x name c es n 1 rest); [done|lia| | |].
    + intros e'. rewrite Etodo. simpl. intros ->%list_elem_of_singleton. by apply Hlog.
    + intros err p' Hp'. exact Hp'.
    + intros p' Hw'. replace todo with (drop (n + 1) es).
      * replace (Z.of_nat n + 1) with (Z.of_nat (n + 1)) by lia. apply IH; [lia|done].
      * by rewrite <- drop_drop, Etodo.
Qed.

Definition live (rest : list string) p : Prop := forall m, m ∈ rest -> exists c, sealed p.1 m c.
Definition good x p : Prop := spool_ok p.1 /\ secure p x.

Lemma retains_good x s' p : retains p.1 s' -> good x p -> good x (s', p.2).
Proof. intros [R1 R2] [_ [Hi [Hh|Hl]]]; (split; [done|]); (split; [exact Hi|]); [left; by apply R2|by right]. Qed.

Lemma wp_remove x name c es rest p :
  working x name c es (length es) rest p ->
  wp (on_spool (remove_segment name)) (fun r p' => good x p' /\ (r = Ok tt -> live rest p')) p.
Proof.
  intros Hw. pose proof Hw as [W1 [W2 Wc] W3 W4 W5 [W6 W7] W8].
  assert (Hgood : good x p) by by eapply working_stop.
  apply wp_on_spool, wp_mbind, wp_statement; [by split; destruct p|].
  intros [] s1 Hs1. rewrite W2 in Hs1. injection Hs1 as <-.
  destruct (without_spec name p.1 (remove_seg name (sp_disk p.1)) W1 Wc) as (O1 & O2 & O3).
  { by split. }
  { intros q [Hq _]%remove_seg_elem. pose proof (ok_fresh _ W1) as Hf. rewrite Forall_forall in Hf. by apply Hf. }
  assert (Hgood1 : good x (on_disk (remove_seg name) p.1, p.2)).
  { split; [done|]. destruct W8 as [Hi W8]. split; [exact Hi|]. destruct W8 as [[(q & Hq & He)%elem_of_pending|Hqu]|Hl]; [|by left; right|by right].
    left. left. apply (O3 x q Hq); [|done]. intros Hn. destruct q as [n c']. simpl in Hn. subst n.
    rewrite (seg_content_elem _ _ _ (ok_names _ W1) Hq) in W2. injection W2 as ->.
    rewrite (pending_seg_at _ _ _ _ _ W3 W4), drop_all in He. by apply not_elem_of_nil in He. }
  assert (Hlive1 : live rest (on_disk (remove_seg name) p.1, p.2)).
  { intros m Hm. destruct (W7 m Hm) as [c' Hc']. exists c'. apply O2; [|done]. intros ->.
    apply NoDup_cons in W6 as [? _]. done. }
  split; [|by split].
  apply wp_mbind, wp_sync; [|by split].
  destruct (stale_ack_keeps name (on_disk (remove_seg name) p.1)
    (with_acks (delete name (d_acks (sp_disk p.1))) (remove_seg name (sp_disk p.1)))) as [Hk2 Ho2]; try done.
  { intros (q & Hqn & Hq)%list_elem_of_fmap. by apply remove_seg_elem in Hq as [_ ?]. }
  { intros n Hn. simpl. by rewrite lookup_delete_ne. }
  assert (Hgood2 : good x (on_disk (fun d => with_acks (delete name (d_acks d)) d) (on_disk (remove_seg name) p.1), p.2)).
  { apply (retains_good x _ (on_disk (remove_seg name) p.1, p.2)); [|done]. split; apply Hk2. }
  apply wp_exec; [by split| |by split]. split; [done|]. intros _ m Hm.
  destruct (Hlive1 m Hm) as [c' Hc']. exists c'. apply Ho2; [|done]. intros ->.
  apply NoDup_cons in W6 as [? _]. done.
Qed.

Lemma wp_corrupt x name c dv msg p :
  good x p -> sealed p.1 name c -> wp (corrupt name dv msg) (fun _ p' => good x p') p.
Proof.
  intros Hg [Hs Hc]. apply wp_mbind, wp_attempt, wp_on_spool. eapply wp_mono; [apply wp_recordLoss|].
  intros r s1 [t ->]. assert (Hg1 : good x (on_disk (with_loss t) p.1, p.2)).
  { apply (retains_good x _ p); [|done]. apply (queued_retains _ _ []), same_queue_queued; [done|by left|apply Hg]. }
  apply wp_mbind. destruct r as [[]|err]; [|by apply wp_ret, wp_ret].
  apply wp_attempt, wp_on_spool. eapply wp_mono; [apply wp_quarantinePath; [apply Hg1|]|].
  - exact Hc.
  - intros r s2 [(K1 & _ & K3) _]. assert (good x (s2, p.2)).
    { apply (retains_good x _ (on_disk (with_loss t) p.1, p.2)); [by split|done]. }
    by destruct r; apply wp_ret.
Qed.

Lemma wp_drain_paths x cancelled msg step names dv p :
  only_beside cancelled ->
  (forall name c es n rest dv p, working x name c es n rest p ->
     wp (step name (drop n es) (Z.of_nat n) dv) (delivered_ok x name c es rest) p) ->
  good x p -> NoDup names -> live names p ->
  wp (drain_paths cancelled msg step names dv) (fun _ p' => good x p') p.
Proof.
  intros Hcan Hstep. revert dv p. induction names as [|name rest IH]; intros dv p Hg Hnd Hlive; [by apply wp_ret|].
  cbn [drain_paths]. apply wp_mbind, wp_attempt. eapply wp_mono; [apply Hcan, Hg|]. intros r p1 Hb.
  assert (Hg1 : good x p1) by (destruct Hg; split; [by apply Hb|by apply (beside_safe p)]).
  assert (Hlive1 : live (name :: rest) p1).
  { intros m Hm. destruct (Hlive m Hm) as [c' ?]. exists c'. destruct (proj1 Hb (proj1 Hg)) as [_ [G1 _ _ _]]. by apply G1. }
  destruct r as [[]|err]; [|by apply wp_ret].
  destruct (Hlive1 name ltac:(by constructor)) as [c Hseal].
  assert (Hp1 : (p1.1, p1.2) = p1) by by destruct p1.
  apply wp_mbind, wp_attempt, wp_on_spool, wp_query; [intros; rewrite Hp1; by eapply wp_corrupt|].
  rewrite Hp1, (proj1 Hseal). cbn [snd].
  pose proof (ok_segs _ (proj1 Hg1)) as Hsegs. rewrite Forall_forall in Hsegs.
  destruct (Hsegs _ (seg_content_Some _ _ _ (proj1 Hseal))) as (es & Hes & [n Hn]). simpl in Hes, Hn. rewrite Hes.
  apply wp_mbind, wp_attempt, wp_on_spool. unfold checkpoint.
  apply wp_mbind, wp_query; [intros; rewrite Hp1; by apply wp_ret|]. rewrite Hn. apply wp_ret. rewrite Hp1.
  assert (Hrange : 0 <= n <= Z.of_nat (length es)).
  { unfold parse_checkpoint in Hn. destruct (d_acks _ !! name); [|simplify_eq; lia].
    destruct (ParseInt s); [|done]. destruct (_ || _) eqn:E; [done|]. simplify_eq. bools. lia. }
  assert (Hw : working x name c es (Z.to_nat n) rest p1).
  { split; [apply Hg1|done|done|by rewrite Z2Nat.id by lia|lia| |apply Hg1].
    split; [done|]. intros m Hm. apply Hlive1. by constructor. }
  apply wp_mbind. rewrite <- (Z2Nat.id n) at 2 by lia.
  eapply wp_mono; [by apply (Hstep name c es _ rest)|]. intros r p2 Hr. destruct r as [[dv' [err|]]|err]; simpl in Hr.
  - by apply wp_ret.
  - apply wp_mbind, wp_attempt. eapply wp_mono; [by eapply wp_remove|]. intros r p3 [Hg3 Hl3].
    destruct r as [[]|err]; [|by apply wp_ret]. apply IH; [done| |by apply Hl3]. by apply NoDup_cons in Hnd as [_ ?].
  - done.
Qed.

Lemma wp_drain_start x p :
  good x p -> wp drain_start (fun r p' => good x p' /\
    forall names, r = Ok names -> NoDup names /\ live names p') p.
Proof.
  intros Hg. apply wp_on_spool, wp_inspect. assert (Hp : (p.1, p.2) = p) by by destruct p.
  destruct (sp_closed p.1); [apply wp_fail; by rewrite Hp|].
  apply wp_mbind. eapply wp_mono; [apply wp_seal_queued, Hg|]. intros r s1 (Hq & _ & Hc).
  assert (Hg1 : good x (s1, p.2)) by (apply (retains_good x _ p); [by eapply queued_retains|done]).
  destruct r as [[]|err]; [|by split]. specialize (Hc eq_refl).
  apply wp_query; [by split|]. split; [done|]. intros names [= <-].
  split; [apply (proj1 Hg1)|]. intros m ([n c] & -> & Hm)%list_elem_of_fmap. exists c.
  split; [|intros off; cbn [fst]; by rewrite Hc]. apply seg_content_elem; [apply (proj1 Hg1)|done].
Qed.

Lemma wp_DrainBatches x cancelled maximum deliver p :
  only_beside cancelled -> delivers deliver -> good x p ->
  wp (DrainBatches cancelled maximum deliver) (fun _ p' => good x p') p.
Proof.
  intros Hcan Hdel Hg. unfold DrainBatches. destruct (_ || _); [by apply wp_ret|].
  apply wp_mbind, wp_attempt. eapply wp_mono; [by apply (wp_drain_start x)|]. intros r p1 [Hg1 Hn].
  destruct r as [names|err]; [|by apply wp_ret]. destruct (Hn names eq_refl) as [Hnd Hlive].
  apply wp_drain_paths; [done| |done..]. intros name c es n rest dv p2 Hw.
  apply (wp_drain_groups x name c es rest); [done..| |done]. rewrite length_drop. lia.
Qed.
Lemma wp_Drain x deliver p :
  delivers_each deliver -> good x p -> wp (Drain deliver) (fun _ p' => good x p') p.
Proof.
  intros Hdel Hg. unfold Drain. apply wp_mbind, wp_attempt. eapply wp_mono; [by apply (wp_drain_start x)|].
  intros r p1 [Hg1 Hn]. destruct r as [names|err]; [|by apply wp_ret]. destruct (Hn names eq_refl) as [Hnd Hlive].
  apply wp_drain_paths; [|by intros; apply wp_drain_each|done..].
  intros p2 _. apply wp_ret. split; [done|by split].
Qed.
End draining.

(** ** Histories *)

Inductive spool_op :=
| OpAppend (payloadType body : string) (now : Z) (name : string) (cut : option nat)
| OpDrain
| OpDrainBatches (maximum : Z)
| OpBind (origin tenantID serverID : string)
| OpLoss (reason : string)
| OpClose
| OpRestart.

Section histories.
Context `{Unicode} `{URLParser} `{SpoolJSONLaws}.
(** The other end: its invariant, and what it has received. *)
Context {W : Type} (inv : W -> Prop) (received : W -> string * string -> Prop).
Context (cancelled : M (Spool * W) unit) (deliver : list spoolEntry -> M (Spool * W) unit)
        (deliver1 : string -> string -> M (Spool * W) unit).

Definition do_spool (o : spool_op) : M (Spool * W) unit :=
  match o with
  | OpAppend t b now name cut => on_spool (Append t b now name cut)
  | OpDrain => let* _ := Drain deliver1 in ret tt
  | OpDrainBatches maximum => let* _ := DrainBatches cancelled maximum deliver in ret tt
  | OpBind o t v => on_spool (BindDestination o t v)
  | OpLoss r => on_spool (recordLossLocked r)
  | OpClose => on_spool Close
  | OpRestart => on_spool (modify (fun s => NewSpool (sp_disk s)))
  end.
Fixpoint run_spool (ops : list (spool_op * faults)) (p : Spool * W) : Spool * W :=
  match ops with
  | [] => p
  | (o, fs) :: ops' => run_spool ops' (run_state (do_spool o) p fs)
  end.
(** The entries whose [Append] reported success. *)
Fixpoint accepted_entries (ops : list (spool_op * faults)) (p : Spool * W) : list spoolEntry :=
  match ops with
  | [] => []
  | (o, fs) :: ops' =>
      match o with
      | OpAppend t b now _ _ =>
          if is_ok (run_result (do_spool o) p fs)
          then [stored {| se_PayloadType := t; se_Body := b; se_QueuedAt := Unix now |}] else []
      | _ => []
      end ++ accepted_entries ops' (run_state (do_spool o) p fs)
  end.
(** [os.CreateTemp] picks unused names, no write is cut in its middle, and
    payloads have a type.  The second is a condition on the history and not a
    guarantee of the code: see [cut_write_poisons_segment]. *)
Fixpoint admissible (ops : list (spool_op * faults)) (p : Spool * W) : Prop :=
  match ops with
  | [] => True
  | (o, fs) :: ops' =>
      match o with
      | OpAppend t _ _ name cut => t <> EmptyString /\ fresh_name name p.1 /\ clean_cut cut
      | _ => True
      end /\ admissible ops' (run_state (do_spool o) p fs)
  end.

Context (Hcancelled : only_beside inv received cancelled) (Hdeliver : delivers inv received deliver)
        (Hdeliver1 : delivers_each inv received deliver1).

Lemma good_forget {A} (m : M (Spool * W) A) x p :
  wp m (fun _ p' => good inv received x p') p -> wp (let* _ := m in ret tt) (fun _ p' => good inv received x p') p.
Proof. intros Hm. apply wp_mbind. eapply wp_mono; [exact Hm|]. by intros [a|e] p'; [intros; apply wp_ret|]. Qed.

Lemma current_none_ok s d : spool_ok s -> d = sp_disk s -> spool_ok (NewSpool d).
Proof. intros [O1 O2 O3 _] ->. by split. Qed.

Lemma do_spool_good o x p :
  match o with
  | OpAppend t _ _ name cut => t <> EmptyString /\ fresh_name name p.1 /\ clean_cut cut
  | _ => True
  end ->
  good inv received x p -> wp (do_spool o) (fun _ p' => good inv received x p') p.
Proof.
  intros Ha Hg. pose proof Hg as [Hok _]. destruct o; simpl.
  - destruct Ha as (Ht & Hf & Hc). apply wp_on_spool. eapply wp_mono; [by apply wp_Append|].
    intros r s' [[Hq _]|Hq]; apply (retains_good inv received x _ p); [by eapply queued_retains|done..|by eapply queued_retains|done].
  - by apply good_forget, wp_Drain.
  - by apply good_forget, wp_DrainBatches.
  - apply wp_on_spool. eapply wp_mono; [by apply retains_Bind|]. intros r s' Hr. by apply (retains_good inv received x _ p).
  - apply wp_on_spool. eapply wp_mono; [apply wp_recordLoss|]. intros r s' [t ->].
    apply (retains_good inv received x _ p); [|done].
    apply (queued_retains _ _ []), same_queue_queued; [done|by left|done].
  - apply wp_on_spool, wp_inspect. assert (Hp : (p.1, p.2) = p) by by destruct p.
    destruct (sp_closed p.1); [apply wp_ret; by rewrite Hp|].
    apply wp_mbind, wp_modify.
    assert (Hr : retains p.1 (with_closed p.1)).
    { apply (queued_retains _ _ []), same_queue_queued; [done|by left|done]. }
    eapply wp_mono; [apply wp_seal_queued, Hr|]. intros r s' (Hq & _).
    apply (retains_good inv received x _ p); [|done]. eapply retains_trans; [exact Hr|by eapply queued_retains].
  - apply wp_on_spool, wp_modify. apply (retains_good inv received x _ p); [|done].
    split; [by apply (current_none_ok p.1)|]. by intros e.
Qed.

End histories.

Section conservation.
Context `{Unicode} `{URLParser} `{SpoolJSONLaws}.
(** The other end: its invariant, and what it has received. *)
Context {W : Type} (inv : W -> Prop) (received : W -> string * string -> Prop).
Context (cancelled : M (Spool * W) unit) (deliver : list spoolEntry -> M (Spool * W) unit)
        (deliver1 : string -> string -> M (Spool * W) unit).

(** As if one more entry had been received. *)
Lemma beside_cons x p p' : beside inv received p p' -> beside inv (fun w y => y = payload x \/ received w y) p p'.
Proof. intros (Hs & Hi & Hl). split; [done|]. split; [done|]. intros e [?|?]; [by left|right; auto]. Qed.

Lemma do_spool_ok o p fs :
  only_beside inv received cancelled -> delivers inv received deliver -> delivers_each inv received deliver1 ->
  match o with
  | OpAppend t _ _ name cut => t <> EmptyString /\ fresh_name name p.1 /\ clean_cut cut
  | _ => True
  end ->
  spool_ok p.1 -> inv p.2 ->
  spool_ok (run_state (do_spool cancelled deliver deliver1 o) p fs).1 /\
  inv (run_state (do_spool cancelled deliver deliver1 o) p fs).2.
Proof.
  intros Hc Hd Hd1 Ha Hok Hi.
  pose (x := {| se_PayloadType := EmptyString; se_Body := EmptyString; se_QueuedAt := 0 |}).
  assert (Hw : wp (do_spool cancelled deliver deliver1 o) (fun _ p' => good inv (fun w y => y = payload x \/ received w y) x p') p).
  { apply do_spool_good; [| | |done|].
    - intros q Hq. eapply wp_mono; [by apply Hc|]. intros r q' Hb. by apply beside_cons.
    - intros g q Hq. eapply wp_mono; [by apply Hd|]. intros r q' [Hb Hr]. split; [by apply beside_cons|].
      intros Hrr e He. right. by apply Hr.
    - intros e q Hq. eapply wp_mono; [by apply Hd1|]. intros r q' [Hb Hr]. split; [by apply beside_cons|].
      intros Hrr. right. by apply Hr.
    - split; [done|]. split; [done|]. right. by left. }
  unfold run_state. destruct (do_spool _ _ _ o p fs) as [[r p'] fs'] eqn:E.
  destruct (wp_run _ _ _ _ _ _ _ Hw E) as [Hok' [Hi' _]]. by split.
Qed.

Lemma append_accepted t b now name cut p fs :
  t <> EmptyString -> fresh_name name p.1 -> clean_cut cut -> spool_ok p.1 ->
  is_ok (run_result (do_spool cancelled deliver deliver1 (OpAppend t b now name cut)) p fs) = true ->
  safe received (run_state (do_spool cancelled deliver deliver1 (OpAppend t b now name cut)) p fs)
    (stored {| se_PayloadType := t; se_Body := b; se_QueuedAt := Unix now |}).
Proof.
  intros Ht Hf Hc Hok. pose proof (wp_Append t b now name cut p.1 Hok Hf Ht Hc) as Hw.
  specialize (Hw fs). unfold run_result, run_state. simpl. unfold on_spool.
  destruct (Append t b now name cut p.1 fs) as [[r s'] fs']. simpl. intros Hr.
  destruct Hw as [[_ Hw]|(_ & _ & Hw)]; [congruence|]. left. left. simpl. rewrite Hw. constructor.
Qed.

Lemma run_spool_safe ops p e :
  only_beside inv received cancelled -> delivers inv received deliver -> delivers_each inv received deliver1 ->
  inv p.2 -> spool_ok p.1 -> admissible cancelled deliver deliver1 ops p ->
  safe received p e \/ e ∈ accepted_entries cancelled deliver deliver1 ops p ->
  safe received (run_spool cancelled deliver deliver1 ops p) e.
Proof.
  intros Hc Hd Hd1. revert p. induction ops as [|[o fs] ops IH]; intros p Hinv Hok Hadm He; simpl in *.
  - destruct He as [?|He]; [done|]. by apply not_elem_of_nil in He.
  - destruct Hadm as [Ha Hadm]. destruct (do_spool_ok o p fs Hc Hd Hd1 Ha Hok Hinv) as [Hok' Hinv'].
    apply IH; [done|done|done|].
    destruct He as [He|He]; [left|].
    + pose proof (do_spool_good inv received cancelled deliver deliver1 Hc Hd Hd1 o e p Ha (conj Hok (conj Hinv He))) as Hw.
      unfold run_state. destruct (do_spool _ _ _ o p fs) as [[r p'] fs'] eqn:E.
      by destruct (wp_run _ _ _ _ _ _ _ Hw E) as [_ [_ ?]].
    + apply elem_of_app in He as [He|He]; [left|by right]. destruct o; try by apply not_elem_of_nil in He.
      destruct (is_ok _) eqn:Eo; [|by apply not_elem_of_nil in He]. apply list_elem_of_singleton in He as ->.
      destruct Ha as (? & ? & ?). by apply append_accepted.
Qed.

(** C21. Nothing is lost as long as no write is cut in its middle.  Take any
    history of appends, drains (which other threads append beside), rebindings,
    failures, restarts and shutdowns that is [admissible]: every payload that is
    appended has a type, every segment name that [os.CreateTemp] picks is
    unused, and a write of a record that fails has written nothing of it
    ([clean_cut]); a restart finds what was written.  Then an entry whose append
    reported success stays in the queue or in quarantine until the other end
    has confirmed it.  The condition on the writes is needed: after a write that
    stopped in the middle of a record, later appends report success and leave a
    segment that cannot be read, [cut_write_poisons_segment]. *)
Theorem nothing_lost ops p e :
  only_beside inv received cancelled -> delivers inv received deliver -> delivers_each inv received deliver1 ->
  inv p.2 -> spool_ok p.1 -> admissible cancelled deliver deliver1 ops p ->
  safe received p e \/ e ∈ accepted_entries cancelled deliver deliver1 ops p ->
  safe received (run_spool cancelled deliver deliver1 ops p) e.
Proof. apply run_spool_safe. Qed.
End conservation.

(** ** A drain that meets no failure *)

Section clean_drain.
Context `{Unicode} `{URLParser} `{SpoolJSONLaws}.
Context {W : Type} (log : W -> list spoolEntry) (send : list spoolEntry -> W -> W).
Context (cancelled : M (Spool * W) unit) (deliver : list spoolEntry -> M (Spool * W) unit).
Context (Hcancelled : forall p, cancelled p [] = (Ok tt, p, []))
        (Hdeliver : forall g p, deliver g p [] = (Ok tt, (p.1, send g p.2), []))
        (Hsend : forall g w, log (send g w) = log w ++ g).
Implicit Types (s : Spool) (w : W) (p : Spool * W) (name : string) (e : spoolEntry).

(** Small enough to travel in a batch of its own. *)
Definition fits e : Prop :=
  exists text, entry_marshal e = Some text /\ slen text * 2 + 2048 <= MaxBatchBytes.

Lemma group_size_fits entries room size :
  Forall fits entries -> exists k, group_size entries room size = Ok k /\ (k <= length entries)%nat.
Proof.
  revert room size. induction entries as [|e es IH]; intros [|room] size Hf; simpl; eauto with lia.
  apply Forall_cons in Hf as [(text & Ht & _) Hf]. rewrite Ht. destruct (_ <? _); [eauto with lia|].
  destruct (IH room (size + (slen text * 2 + 1024)) Hf) as (k & -> & Hk). exists (S k). simpl. split; [done|lia].
Qed.
Lemma group_size_progress e es room :
  Forall fits (e :: es) ->
  exists k, group_size (e :: es) (S room) 1024 = Ok (S k) /\ (S k <= length (e :: es))%nat.
Proof.
  intros [(text & Ht & Hs) Hf]%Forall_cons. simpl. rewrite Ht.
  destruct (Z.ltb_spec MaxBatchBytes (1024 + (slen text * 2 + 1024))); [lia|].
  destruct (group_size_fits es room (1024 + (slen text * 2 + 1024)) Hf) as (k & -> & Hk).
  exists k. simpl. split; [done|lia].
Qed.

(** The spool after some checkpoints of [name] were written. *)
Definition acked name s s' : Prop :=
  d_segs (sp_disk s') = d_segs (sp_disk s) /\
  forall n, n <> name -> d_acks (sp_disk s') !! n = d_acks (sp_disk s) !! n.

Lemma clean_groups name es maximum fuel n dv p :
  Forall fits es -> (0 < maximum)%nat -> (n <= length es)%nat -> (length es - n <= fuel)%nat ->
  exists s' w', drain_groups fuel cancelled maximum deliver name (drop n es) (Z.of_nat n) dv p [] =
      (Ok (dv + Z.of_nat (length es - n), None), (s', w'), []) /\
    acked name p.1 s' /\ log w' = log p.2 ++ drop n es.
Proof.
  intros Hf Hm. revert n dv p. induction fuel as [|fuel IH]; intros n dv p Hn Hfuel.
  - assert (n = length es) as -> by lia. rewrite drop_all, Nat.sub_diag, Z.add_0_r, app_nil_r.
    exists p.1, p.2. by destruct p.
  - assert (Hfd : Forall fits (drop n es)) by by apply Forall_drop.
    cbn [drain_groups]. destruct (drop n es) as [|e todo] eqn:Etodo.
    { apply (f_equal length) in Etodo. rewrite length_drop in Etodo. simpl in Etodo.
      assert (length es - n = 0)%nat as -> by lia. exists p.1, p.2. rewrite Z.add_0_r, app_nil_r. by destruct p. }
    destruct maximum as [|room]; [lia|].
    destruct (group_size_progress e todo room Hfd) as (k & Hg & Hk). rewrite Hg, <- Etodo in *.
    rewrite length_drop in Hk. unfold mbind, attempt. rewrite Hcancelled, Hdeliver. cbn [on_spool].
    set (p1 := (on_disk (set_ack name (Z.of_nat n + Z.of_nat (S k))) p.1, send (take (S k) (drop n es)) p.2)).
    destruct (IH (n + S k)%nat (dv + Z.of_nat (S k)) p1 ltac:(lia) ltac:(lia)) as (s' & w' & Hrun & [A1 A2] & Hl).
    exists s', w'. rewrite drop_drop. rewrite Nat2Z.inj_add in Hrun.
    split; [|split].
    + replace (dv + Z.of_nat (length es - n)) with (dv + Z.of_nat (S k) + Z.of_nat (length es - (n + S k))) by lia.
      exact Hrun.
    + split; [done|]. intros m Hne. rewrite A2 by done. simpl. by rewrite lookup_insert_ne.
    + rewrite Hl. simpl. rewrite Hsend, <- app_assoc. f_equal.
      rewrite <- (take_drop (S k) (drop n es)) at 2. by rewrite drop_drop.
Qed.

Lemma remove_head name c l : name ∉ names_of l -> List.filter (fun q : string * string => negb (String.eqb (fst q) name)) ((name, c) :: l) = l.
Proof.
  intros Hn. simpl. rewrite String.eqb_refl. simpl. unfold names_of in Hn. induction l as [|[n x] l IH]; [done|].
  simpl in *. apply not_elem_of_cons in Hn as [Hne Hn]. destruct (String.eqb_spec n name); [congruence|].
  simpl. by rewrite IH.
Qed.

Lemma clean_paths msg maximum segs dv p :
  (0 < maximum)%nat -> d_segs (sp_disk p.1) = segs -> NoDup (names_of segs) ->
  Forall (seg_ok (d_acks (sp_disk p.1))) segs ->
  Forall (fun q => Forall fits (default [] (readSegment q.2))) segs ->
  exists s' w', drain_paths cancelled msg
      (fun name todo next delivered => drain_groups (length todo) cancelled maximum deliver name todo next delivered)
      (names_of segs) dv p [] =
      (Ok (dv + Z.of_nat (length (flat_map (pending_seg (d_acks (sp_disk p.1))) segs)), None), (s', w'), []) /\
    d_segs (sp_disk s') = [] /\ log w' = log p.2 ++ flat_map (pending_seg (d_acks (sp_disk p.1))) segs.
Proof.
  intros Hm. revert dv p. induction segs as [|[name c] segs IH]; intros dv p Hs Hnd Hok Hfit.
  - exists p.1, p.2. simpl. rewrite Z.add_0_r, app_nil_r. by destruct p.
  - apply Forall_cons in Hok as [(es & Hes & [n Hn]) Hok]. apply Forall_cons in Hfit as [Hfe Hfit].
    apply NoDup_cons in Hnd as [Hni Hnd]. simpl in Hes, Hn, Hfe. rewrite Hes in Hfe. simpl in Hfe.
    assert (Hrange : 0 <= n <= Z.of_nat (length es)).
    { unfold parse_checkpoint in Hn. destruct (d_acks _ !! name); [|simplify_eq; lia].
      destruct (ParseInt s); [|done]. destruct (_ || _) eqn:E; [done|]. simplify_eq. bools. lia. }
    assert (Hc : seg_content name (sp_disk p.1) = Some c)
      by (unfold seg_content; rewrite Hs; simpl; by rewrite String.eqb_refl).
    assert (Hpend : pending_seg (d_acks (sp_disk p.1)) (name, c) = drop (Z.to_nat n) es).
    { apply pending_seg_at; [done|]. by rewrite Z2Nat.id by lia. }
    destruct (clean_groups name es maximum (length (drop (Z.to_nat n) es)) (Z.to_nat n) dv p) as (s1 & w1 & Hrun & [A1 A2] & Hl);
      [done|done|lia|by rewrite length_drop|].
    rewrite Z2Nat.id in Hrun by lia.
    assert (Hc1 : seg_content name (sp_disk s1) = Some c) by (unfold seg_content in *; by rewrite A1).
    pose (p2 := (on_disk (fun d => with_acks (delete name (d_acks d)) d) (on_disk (remove_seg name) s1), w1)).
    assert (Hacks : forall m, m ∈ names_of segs -> d_acks (sp_disk p2.1) !! m = d_acks (sp_disk p.1) !! m).
    { intros m Hm'. simpl. assert (m <> name) by (by intros ->). by rewrite lookup_delete_ne, A2. }
    assert (Hsame : forall q, q ∈ segs -> d_acks (sp_disk p2.1) !! q.1 = d_acks (sp_disk p.1) !! q.1).
    { intros q Hq. apply Hacks. by apply list_elem_of_fmap_2. }
    assert (Hflat : flat_map (pending_seg (d_acks (sp_disk p2.1))) segs = flat_map (pending_seg (d_acks (sp_disk p.1))) segs).
    { rewrite !flat_map_concat_map. f_equal. apply map_ext_in. intros q Hq%list_elem_of_In.
      unfold pending_seg. by rewrite Hsame. }
    destruct (IH (dv + Z.of_nat (length es - Z.to_nat n)) p2) as (s' & w' & Hrun2 & Hs2 & Hl2).
    + simpl. rewrite A1, Hs. by apply remove_head.
    + done.
    + eapply Forall_impl; [apply Forall_and; split; [exact Hok|apply Forall_forall, Hsame]|].
      intros q [(es' & ? & ?) Heq]. exists es'. by rewrite Heq.
    + done.
    + exists s', w'. split; [|split; [done|]].
      * cbn [names_of map fst drain_paths]. destruct p as [s w].
        rewrite (mbind_eq _ _ _ _ _ _ _ (attempt_eq _ _ _ _ _ _ (Hcancelled (s, w)))).
        rewrite (mbind_eq _ _ (s, w) [] (Ok (Some c)) (s, w) [])
          by (unfold attempt, on_spool, read_disk, query, statement; cbn [fst snd] in *; by rewrite Hc).
        rewrite Hes.
        rewrite (mbind_eq _ _ (s, w) [] (Ok n) (s, w) [])
          by (unfold attempt, on_spool, checkpoint, mbind, read_disk, query, statement; cbn [fst snd] in *; by rewrite Hn).
        rewrite (mbind_eq _ _ _ _ _ _ _ Hrun). cbn [fst snd].
        rewrite (mbind_eq _ _ (s1, w1) [] (Ok tt) p2 [])
          by (unfold attempt, on_spool, remove_segment, on_seg, mbind, statement; cbn [fst snd]; by rewrite Hc1).
        etransitivity; [exact Hrun2|]. rewrite Hflat. cbn [flat_map].
        cbn [fst snd] in *. rewrite Hpend, length_app, length_drop. do 4 f_equal. lia.
      * rewrite Hl2, Hflat. cbn [flat_map]. rewrite Hpend. simpl. by rewrite Hl, app_assoc.
Qed.

(** C23. A healthy drain empties the queue.  When nothing fails, every queued
    entry is delivered exactly once, in the order of the queue, the queue ends
    empty and the call reports their number. *)
Theorem drain_delivers_in_order maximum p :
  spool_ok p.1 -> sp_closed p.1 = false -> 1 <= maximum <= MaxBatchEvents ->
  Forall (fun q => Forall fits (default [] (readSegment q.2))) (d_segs (sp_disk p.1)) ->
  exists s' w', DrainBatches cancelled maximum deliver p [] =
      (Ok (Z.of_nat (length (pending p.1)), None), (s', w'), []) /\
    pending s' = [] /\ log w' = log p.2 ++ pending p.1.
Proof.
  intros Hok Hcl Hmax Hfit. destruct p as [s w]. cbn [fst snd] in *.
  assert (Hseal : exists s1, sp_disk s1 = sp_disk s /\ drain_start (s, w) [] = (Ok (map fst (d_segs (sp_disk s))), (s1, w), [])).
  { unfold drain_start, on_spool, inspect. cbn [fst snd]. rewrite Hcl.
    unfold sealLocked, inspect, mbind. destruct (sp_current s); eexists; (split; [|reflexivity]); done. }
  destruct Hseal as (s1 & Hd & Hstart). unfold DrainBatches.
  assert ((maximum <? 1) || (MaxBatchEvents <? maximum) = false) as ->.
  { apply orb_false_iff. split; apply Z.ltb_ge; lia. }
  rewrite (mbind_eq _ _ _ _ _ _ _ (attempt_eq _ _ _ _ _ _ Hstart)).
  destruct (clean_paths "spool: corrupt evidence retained in quarantine" (Z.to_nat maximum) (d_segs (sp_disk s)) 0 (s1, w))
    as (s' & w' & Hrun & Hs' & Hl'); simpl; rewrite ?Hd; [lia|done|apply Hok|apply Hok|done|].
  exists s', w'. split; [|split].
  - etransitivity; [exact Hrun|]. simpl. by rewrite Hd.
  - unfold pending. by rewrite Hs'.
  - rewrite Hl'. simpl. by rewrite Hd.
Qed.
End clean_drain.

(** ** Witnesses *)

Module Sample.
Definition entry (body : string) : spoolEntry :=
  {| se_PayloadType := "event"; se_Body := body; se_QueuedAt := 7 |}.
(** An encoding of two entries. *)
#[global] Instance json : SpoolJSON :=
  {| entry_marshal e := if bool_decide (e = entry "1") then Some "a"
                        else if bool_decide (e = entry "2") then Some "b" else None;
     entry_unmarshal s := if String.eqb s ("a" +:+ String "010" EmptyString) then Some (entry "1")
                          else if String.eqb s ("b" +:+ String "010" EmptyString) then Some (entry "2") else None;
     body_valid _ := true;
     bind_marshal b := sb_Origin b; bind_unmarshal s := Some {| sb_Origin := s; sb_TenantID := EmptyString; sb_ServerID := EmptyString |};
     loss_marshal _ := "{}"; loss_unmarshal _ := Some ∅;
     compact s := s |}.
#[global] Instance json_laws : SpoolJSONLaws.
Proof.
  split; intros e text; simpl; repeat case_bool_decide; intros [= <-]; subst; vm_compute; reflexivity.
Qed.
#[global] Instance no_url : URLParser := fun _ => None.
#[global] Instance unicode : Unicode := ascii_only.
Definition World : Type := list spoolEntry.
Definition deliver (g : list spoolEntry) : M (Spool * World) unit := modify (fun p => (p.1, p.2 ++ g)).
Definition deliver1 (t b : string) : M (Spool * World) unit :=
  deliver [{| se_PayloadType := t; se_Body := b; se_QueuedAt := 7 |}].
(** This end takes whatever it is given. *)
Definition log (w : World) : list (string * string) := map payload w.
Definition empty : Spool :=
  NewSpool {| d_segs := []; d_acks := ∅; d_quar := []; d_qacks := ∅; d_bind := None; d_loss := None |}.
Definition append (body name : string) (cut : option nat) : M Spool unit :=
  Append "event" body (7 * second) name cut.
Definition history : list (spool_op * faults) :=
  [(OpAppend "event" "1" (7 * second) "seg-1.ndjson" None, []);
   (OpAppend "event" "2" (7 * second) "seg-2.ndjson" (Some O), []);
   (OpDrainBatches 64, [None; None; None; Some (Fail_ {| err_msg := "io"; err_code := empty_str |})]);
   (OpRestart, [])].
(** Two entries in one segment, the first already delivered. *)
Definition two : Spool :=
  NewSpool {| d_segs := [("seg-1.ndjson", "a" +:+ String "010" ("b" +:+ String "010" EmptyString))];
              d_acks := {["seg-1.ndjson" := "1"]}; d_quar := []; d_qacks := ∅; d_bind := None; d_loss := None |}.
End Sample.

Lemma nothing_lost_witness :
  safe (fun w x => x ∈ Sample.log w)
    (run_spool (ret tt) Sample.deliver Sample.deliver1 Sample.history (Sample.empty, [])) (Sample.entry "1").
Proof.
  assert (Hb : forall g p, beside (fun _ => True) (fun w x => x ∈ Sample.log w) p (p.1, p.2 ++ g)).
  { intros g p. split; [intros Hok; split; [exact Hok|reflexivity]|]. split; [auto|].
    intros x Hx. unfold Sample.log. cbn [snd]. rewrite map_app. apply elem_of_app. left. exact Hx. }
  apply (nothing_lost (fun _ => True)).
  - intros p _. apply wp_ret. split; [intros Hok; split; [exact Hok|reflexivity]|auto].
  - intros g p _. apply wp_modify. split; [apply Hb|]. intros _ e He. unfold Sample.log. cbn [snd]. rewrite map_app. apply elem_of_app. right.
    apply list_elem_of_fmap_2. exact He.
  - intros e p _. apply wp_modify. split; [apply Hb|]. intros _. unfold Sample.log. cbn [snd]. rewrite map_app. apply elem_of_app. right. left.
  - exact I.
  - split; [constructor|constructor|constructor|]. intros name off. discriminate.
  - split; [|split; [|split; [exact I|split; [exact I|exact I]]]].
    + split; [discriminate|]. split; [|left; reflexivity]. split; [|split]; [apply not_elem_of_nil..|reflexivity].
    + split; [discriminate|]. split; [|right; reflexivity]. split; [|split].
      * vm_compute. intros Hin. apply list_elem_of_singleton in Hin. discriminate Hin.
      * apply not_elem_of_nil.
      * reflexivity.
  - right. vm_compute. left.
Defined.

Lemma drain_delivers_in_order_witness :
  exists s' w', DrainBatches (ret tt) 64 Sample.deliver (Sample.two, []) [] = (Ok (1, None), (s', w'), []) /\
    w' = [Sample.entry "2"].
Proof.
  destruct (drain_delivers_in_order (fun w : Sample.World => w) (fun g w => w ++ g) (ret tt) Sample.deliver
    ltac:(reflexivity) ltac:(reflexivity) ltac:(reflexivity) 64 (Sample.two, [])) as (s' & w' & Hrun & _ & Hl).
  - split; [vm_compute; repeat constructor; apply not_elem_of_nil| | |intros name off; discriminate].
    + constructor; [|constructor]. eexists. split; [vm_compute; reflexivity|]. vm_compute. eexists. reflexivity.
    + constructor; [apply not_elem_of_nil|constructor].
  - reflexivity.
  - vm_compute. split; discriminate.
  - constructor; [|constructor]. cbn [snd].
    assert (readSegment ("a" +:+ String "010" ("b" +:+ String "010" EmptyString))
            = Some [Sample.entry "1"; Sample.entry "2"]) as -> by (vm_compute; reflexivity).
    constructor; [exists "a"|constructor; [exists "b"|constructor]]; (split; [reflexivity|vm_compute; discriminate]).
  - exists s', w'. split; [rewrite Hrun; reflexivity|rewrite Hl; reflexivity].
Defined.

(** The one fault that breaks the queue.  A write cut short after its first
    byte is truncated away, but the file offset stays behind the hole: the next
    append reports success and leaves a segment that no longer reads back, so
    neither it nor the entries before it are delivered. *)
Lemma cut_write_poisons_segment :
  let s1 := run_state (Sample.append "1" "seg-1.ndjson" None) Sample.empty [] in
  let s2 := run_state (Sample.append "2" "seg-2.ndjson" (Some 1%nat)) s1 [] in
  let r := Sample.append "2" "seg-3.ndjson" None s2 [] in
  run_result (Sample.append "2" "seg-2.ndjson" (Some 1%nat)) s1 [] = Err (EMsg "short write") /\
  pending s2 = [Sample.entry "1"] /\ r.1.1 = Ok tt /\
  pending r.1.2 = [] /\
  (run_state (DrainBatches (ret tt) 64 Sample.deliver) (r.1.2, []) []).2 = [].
Proof. vm_compute. repeat split; reflexivity. Qed.
