(* ===== verification/Agent.v ===== *)
(** * The agent ([agent/agent.go])

    Queueing an observation durably, delivering a group of queued records to
    the hub and judging its answer, and the retry schedule of the drain loop.
    The HTTP client, the encodings, the digest and the random bytes are
    parameters; the goroutine that runs [drainLoop] only alternates
    [Spool.DrainBatches] with the waits of [next_wait]. *)

From S2P Require Export SpoolProofs.
Open Scope list_scope.
Open Scope Z_scope.

Definition minBackoff : Z := second.
Definition maxBackoff : Z := 5 * minute.

(** [errors.As(err, &re)] for [*retryableError] *)
Fixpoint as_retryable (e : error) : option Z :=
  match e with
  | ERetry after _ => Some after
  | EWrap _ e' => as_retryable e'
  | _ => None
  end.
Definition isRetryable (e : error) : bool := is_some (as_retryable e).

(** ** Waiting *)

Section waiting.
(** [http.ParseTime] *)
Context (http_ParseTime : string -> option Z).

Definition retryAfterDelay (raw : string) (now : Z) : Z :=
  let date := match http_ParseTime raw with
              | Some deadline => if After deadline now then Sub deadline now else minBackoff
              | None => minBackoff
              end in
  match ParseInt raw with
  | Some seconds => if (0 <? seconds) && (seconds <=? max_int64 / second) then seconds * second else date
  | None => date
  end.
End waiting.

(** One round of [drainLoop]: the new backoff and the time to wait; [jitter]
    is below a second. *)
Definition next_wait (backoff : Z) (err : option error) (jitter : Z) : Z * Z :=
  match err with
  | None => (minBackoff, 250 * millisecond)
  | Some e =>
      let backoff := Z.min (backoff * 2) maxBackoff in
      let wait := match as_retryable e with
                  | Some after => if backoff <? after then after else backoff
                  | None => backoff
                  end in
      (backoff, wait + jitter)
  end.

(** ** Delivery *)

Record response := { rp_StatusCode : Z; rp_Body : option string; rp_RetryAfter : string }.
Record ack := { ack_Status : string; ack_Outcomes : list IngestOutcome }.

(** The encodings the agent uses. *)
Class AgentJSON := {
  event_marshal : IngestEvent -> option string;
  event_decode : string -> option IngestEvent;
  metric_decode : string -> option MetricRow;
  process_decode : string -> option ProcessRow;
  batch_marshal : IngestBatch -> option string;
  batch_unmarshal : string -> option IngestBatch;
  ack_decode : string -> option ack;
  rfc3339nano : Z -> string;
  sha256_hex : string -> string;
  sha256_u64 : string -> Z
}.
(** [Unmarshal] of a marshalled batch has the same events. *)
Class AgentJSONLaws `{AgentJSON} := {
  batch_roundtrip : forall b text, batch_marshal b = Some text ->
    exists b', batch_unmarshal text = Some b' /\ map ev_EventID (ib_Events b') = map ev_EventID (ib_Events b)
}.

Definition no_tenant_metric (m : MetricRow) : MetricRow :=
  set_metric (m_ID m) EmptyString (m_ServerID m) (m_Timestamp m) (fun c => c) m.
Definition no_tenant_process (p : ProcessRow) : ProcessRow :=
  set_process (p_ID p) EmptyString (p_ServerID p) (p_Timestamp p) p.

Section delivery.
Context `{URLParser} `{AgentJSON} {W : Type}.
(** [POST path key body]; [None] is a transport failure. *)
Context (http : string -> string -> string -> M W (option response)).
Context (hubURL : string) (key : W -> string) (reauth : option (M W unit)).
Context (http_ParseTime : string -> option Z) (now : Z).

Definition ack_matches (sent : list IngestEvent) (outcomes : list IngestOutcome) : bool :=
  forallb (fun p => String.eqb (io_EventID p.2) (ev_EventID p.1) &&
                    (String.eqb (io_Status p.2) "accepted" || String.eqb (io_Status p.2) "duplicate"))
    (combine sent outcomes).

(** The verdict on an accepted batch. *)
Definition check_ack (body responseBody : string) : result error unit :=
  match batch_unmarshal body, ack_decode responseBody with
  | Some sent, Some a =>
      if negb (String.eqb (ack_Status a) "accepted") ||
         negb (Nat.eqb (length (ack_Outcomes a)) (length (ib_Events sent)))
      then Err (ERetry 0 (EMsg "agent: invalid acknowledgement"))
      else if ack_matches (ib_Events sent) (ack_Outcomes a) then Ok tt
      else Err (ERetry 0 (EMsg "agent: acknowledgement identity mismatch"))
  | _, _ => Err (ERetry 0 (EMsg "agent: invalid acknowledgement"))
  end.

Definition deliver_path (payloadType : string) : string :=
  if String.eqb payloadType "batch" then "/api/v1/ingest/batches" else "/api/ingest?type=" +:+ payloadType.

(** [attempts] counts the requests still allowed; the first has two. *)
Fixpoint deliver_loop (attempts : nat) (payloadType body : string) : M W unit :=
  match attempts with
  | O => fail (EMsg "agent: authentication retry limit reached")
  | S rest =>
      let path := hubURL +:+ deliver_path payloadType in
      if negb (is_some (url_Parse path)) then fail (EMsg "agent: invalid destination")
      else
        let* resp := inspect (fun w => http path (key w) body) in
        match resp with
        | None => fail (ERetry 0 (EMsg "agent: transport failed"))
        | Some r =>
            match rp_Body r with
            | None => fail (ERetry 0 (EMsg "agent: incomplete or oversized acknowledgement"))
            | Some text =>
                if MaxBatchBytes <? slen text then fail (ERetry 0 (EMsg "agent: incomplete or oversized acknowledgement"))
                else if (rp_StatusCode r =? 202) || (rp_StatusCode r =? 200) then
                  if negb (String.eqb payloadType "batch") then ret tt else lift (check_ack body text)
                else if rp_StatusCode r =? 401 then
                  match rest, reauth with
                  | S _, Some again =>
                      let* ok := attempt again in
                      match ok with
                      | Ok _ => deliver_loop rest payloadType body
                      | Err _ => fail (EMsg "agent: credential rejected; queued evidence retained")
                      end
                  | _, _ => fail (EMsg "agent: credential rejected; queued evidence retained")
                  end
                else if rp_StatusCode r =? 429 then
                  fail (ERetry (retryAfterDelay http_ParseTime (rp_RetryAfter r) now)
                          (EMsg "agent: rate or accepted-data budget exceeded"))
                else if 500 <=? rp_StatusCode r then fail (ERetry 0 (EMsg "agent: hub returned HTTP error"))
                else fail (EMsg "agent: hub rejected event; operator review required")
            end
        end
  end.
Definition deliver (payloadType body : string) : M W unit := deliver_loop 2 payloadType body.

(** The record kept for fixtures: a permanent refusal is dropped. *)
Definition deliverOrDrop (payloadType body : string) : M W unit :=
  let* r := attempt (deliver payloadType body) in
  match r with
  | Ok _ => ret tt
  | Err e => if isRetryable e then fail e else ret tt
  end.

(** The identity an old record gets. *)
Definition legacy_event (identity : string) (m : option MetricRow) (p : option ProcessRow) : IngestEvent :=
  {| ev_EventID := "legacy-" +:+ sha256_hex identity; ev_BootID := "legacy";
     ev_Sequence := Z.lor (Z.land (sha256_u64 identity) (Z.shiftl 1 63 - 1)) 1;
     ev_Metric := m; ev_Process := p |}.
Definition event_of (e : spoolEntry) : result error IngestEvent :=
  if String.eqb (se_PayloadType e) "event" then
    match event_decode (se_Body e) with
    | Some ev => Ok ev
    | None => Err (EMsg "agent: invalid spooled event")
    end
  else if String.eqb (se_PayloadType e) "metric" then
    match metric_decode (se_Body e) with
    | Some m => let m := no_tenant_metric m in
                Ok (legacy_event ("metric:" +:+ rfc3339nano (m_Timestamp m)) (Some m) None)
    | None => Err (EMsg "json: invalid metric")
    end
  else if String.eqb (se_PayloadType e) "process" then
    match process_decode (se_Body e) with
    | Some p => let p := no_tenant_process p in
                Ok (legacy_event ("process:" +:+ rfc3339nano (p_Timestamp p) +:+ ":" +:+ Itoa (p_PID p)) None (Some p))
    | None => Err (EMsg "json: invalid process")
    end
  else Err (EMsg "agent: unsupported spooled event").
Fixpoint events_of (entries : list spoolEntry) : result error (list IngestEvent) :=
  match entries with
  | [] => Ok []
  | e :: rest => let? ev := event_of e in let? evs := events_of rest in Ok (ev :: evs)
  end.

Definition deliverBatch (entries : list spoolEntry) : M W unit :=
  match events_of entries with
  | Err e => fail e
  | Ok events =>
      match batch_marshal {| ib_SchemaVersion := IngestSchema; ib_Events := events |} with
      | None => fail (EMsg "json: error calling MarshalJSON")
      | Some body =>
          if MaxBatchBytes <? slen body then fail (EMsg "agent: batch exceeds byte limit")
          else deliver "batch" body
      end
  end.
End delivery.

(** ** Queueing *)

Record Agent := {
  ag_hubURL : string;
  ag_apiKey : string;
  ag_spool : option Spool;
  ag_initErr : option error;
  ag_closed : bool;
  ag_bound : bool;
  ag_bootID : string;
  ag_sequence : Z;
  ag_wake : bool
}.
(** The first sequence number, from 8 random bytes. *)
Definition initial_sequence (seed : Z) : Z := Z.land seed (Z.shiftl 1 62 - 1).

Definition with_spool (sp : Spool) (a : Agent) : Agent :=
  {| ag_hubURL := ag_hubURL a; ag_apiKey := ag_apiKey a; ag_spool := Some sp; ag_initErr := ag_initErr a;
     ag_closed := ag_closed a; ag_bound := ag_bound a; ag_bootID := ag_bootID a;
     ag_sequence := ag_sequence a; ag_wake := ag_wake a |}.
Definition set_bound (a : Agent) : Agent :=
  {| ag_hubURL := ag_hubURL a; ag_apiKey := ag_apiKey a; ag_spool := ag_spool a; ag_initErr := ag_initErr a;
     ag_closed := ag_closed a; ag_bound := true; ag_bootID := ag_bootID a;
     ag_sequence := ag_sequence a; ag_wake := ag_wake a |}.
Definition set_initErr (e : error) (a : Agent) : Agent :=
  {| ag_hubURL := ag_hubURL a; ag_apiKey := ag_apiKey a; ag_spool := ag_spool a; ag_initErr := Some e;
     ag_closed := ag_closed a; ag_bound := ag_bound a; ag_bootID := ag_bootID a;
     ag_sequence := ag_sequence a; ag_wake := ag_wake a |}.
Definition set_sequence (n : Z) (a : Agent) : Agent :=
  {| ag_hubURL := ag_hubURL a; ag_apiKey := ag_apiKey a; ag_spool := ag_spool a; ag_initErr := ag_initErr a;
     ag_closed := ag_closed a; ag_bound := ag_bound a; ag_bootID := ag_bootID a;
     ag_sequence := n; ag_wake := ag_wake a |}.
Definition set_wake (a : Agent) : Agent :=
  {| ag_hubURL := ag_hubURL a; ag_apiKey := ag_apiKey a; ag_spool := ag_spool a; ag_initErr := ag_initErr a;
     ag_closed := ag_closed a; ag_bound := ag_bound a; ag_bootID := ag_bootID a;
     ag_sequence := ag_sequence a; ag_wake := true |}.

Section queueing.
Context `{Unicode} `{URLParser} `{SpoolJSON} `{AgentJSON}.

Definition on_queue {A : Type} (m : M Spool A) : M Agent A :=
  fun a fs =>
    match ag_spool a with
    | Some sp => let '(r, sp', fs') := m sp fs in (r, with_spool sp' a, fs')
    | None => (Err (EMsg "agent: no spool"), a, fs)
    end.

Definition BindIdentity (tenant server : string) : M Agent unit :=
  inspect (fun a =>
    if negb (is_some (ag_spool a)) || is_empty tenant || is_empty server
    then modify (set_initErr (EMsg "agent: complete spool identity is required"))
    else
      let* r := attempt (on_queue (BindDestination (ag_hubURL a) tenant server)) in
      match r with
      | Err e => modify (set_initErr e)
      | Ok _ => modify set_bound
      end).

Definition max_sequence : Z := Z.shiftl 1 63 - 1.
(** [id] is the hex text of 16 random bytes, [None] when there are none;
    [clock] and [name] are what [Spool.Append] is given. *)
Definition enqueue_row (server : string) (metric : option MetricRow) (process : option ProcessRow)
    (id : option string) (clock : Z) (name : string) (cut : option nat) : M Agent unit :=
  inspect (fun a =>
  if ag_closed a then fail (EMsg "agent: closed")
  else match ag_initErr a with
  | Some e => fail e
  | None =>
    let* _ := (if ag_bound a then ret tt
               else if negb (is_some (ag_spool a)) || is_empty server
               then fail (EMsg "agent: spool and stable server identity required")
               else let* _ := on_queue (BindDestination (ag_hubURL a) ("credential:" +:+ sha256_hex (ag_apiKey a)) server) in
                    modify set_bound) in
    if max_sequence <=? ag_sequence a then fail (EMsg "agent: sequence exhausted")
    else
      let sequence := ag_sequence a + 1 in
      let* _ := modify (set_sequence sequence) in
      match id with
      | None => fail (EMsg "crypto/rand: unavailable")
      | Some eventID =>
          match event_marshal {| ev_EventID := eventID; ev_BootID := ag_bootID a; ev_Sequence := sequence;
                                 ev_Metric := metric; ev_Process := process |} with
          | None => fail (EMsg "json: unsupported value")
          | Some body =>
              let* _ := on_queue (Append "event" body clock name cut) in
              modify set_wake
          end
      end
  end).
Definition InsertMetric (m : MetricRow) (id : option string) (clock : Z) (name : string) (cut : option nat) : M Agent unit :=
  let m := no_tenant_metric m in
  enqueue_row (m_ServerID m) (Some m) None id clock name cut.
Definition InsertProcess (p : ProcessRow) (id : option string) (clock : Z) (name : string) (cut : option nat) : M Agent unit :=
  let p := no_tenant_process p in
  enqueue_row (p_ServerID p) None (Some p) id clock name cut.
Definition SpoolDepth (a : Agent) (fs : faults) : Z :=
  match ag_spool a with
  | None => 0
  | Some sp => match run_result Depth sp fs with Ok n => n | Err _ => -1 end
  end.
End queueing.

(** ** Properties *)

(** The retry schedule.  The backoff stays between one second and five
    minutes, doubles with every failure and starts again after a success; a
    failed round never waits less than its backoff nor less than the server
    asked, and at most a second more. *)
Lemma retry_schedule backoff err jitter :
  minBackoff <= backoff <= maxBackoff -> 0 <= jitter < second ->
  let '(backoff', wait) := next_wait backoff err jitter in
  minBackoff <= backoff' <= maxBackoff /\
  match err with
  | None => backoff' = minBackoff /\ wait = 250 * millisecond
  | Some e =>
      backoff' = Z.min (2 * backoff) maxBackoff /\ backoff' <= wait /\
      (forall after, as_retryable e = Some after -> after <= wait < Z.max backoff' after + second) /\
      (as_retryable e = None -> wait < backoff' + second)
  end.
Proof.
  unfold minBackoff, maxBackoff, minute, second. intros Hb Hj. unfold next_wait, minBackoff, maxBackoff, minute, second.
  destruct err as [e|]; [|split; [lia|done]].
  destruct (as_retryable e) as [after|].
  - destruct (Z.ltb_spec (Z.min (backoff * 2) (5 * (60 * 10 ^ 9))) after);
      split_and!; try lia; intros; simplify_eq; lia.
  - split_and!; try lia; intros; simplify_eq; lia.
Qed.
Lemma retry_schedule_witness :
  let '(backoff', wait) := next_wait (4 * second) (Some (ERetry (60 * second) (EMsg "x"))) 7 in
  backoff' = 8 * second /\ 60 * second <= wait.
Proof.
  destruct (retry_schedule (4 * second) (Some (ERetry (60 * second) (EMsg "x"))) 7
    ltac:(vm_compute; split; discriminate) ltac:(vm_compute; split; [discriminate|reflexivity]))
    as (_ & Hb & _ & Hw & _).
  split; [exact Hb|exact (proj1 (Hw _ eq_refl))].
Defined.

(** Consecutive failures from a fresh start: 2, 4, 8, ... seconds up to five
    minutes. *)
Lemma backoff_after (n : nat) (e : error) (jitter : Z) :
  Nat.iter n (fun b => (next_wait b (Some e) jitter).1) minBackoff = Z.min (2 ^ Z.of_nat n * second) maxBackoff.
Proof.
  induction n as [|n IH]; [done|]. rewrite Nat.iter_succ, IH. unfold next_wait. cbn [fst].
  rewrite Nat2Z.inj_succ, Z.pow_succ_r by lia.
  assert (0 < 2 ^ Z.of_nat n * second) by (unfold second; lia).
  unfold maxBackoff, minute, second in *. lia.
Qed.

(** Requested delays.  A number of seconds or a date in the future is
    waited out exactly, anything else is a second, and never less. *)
Lemma retry_after_is_respected http_ParseTime raw now :
  let d := retryAfterDelay http_ParseTime raw now in
  0 < d /\
  (forall n, ParseInt raw = Some n -> 0 < n <= 9223372036 -> d = n * second) /\
  (forall t, ParseInt raw = None -> http_ParseTime raw = Some t -> now < t <= now + max_int64 -> now + d = t) /\
  (ParseInt raw = None -> http_ParseTime raw = None -> d = minBackoff).
Proof.
  assert (Hmax : max_int64 / second = 9223372036) by done.
  unfold retryAfterDelay. rewrite Hmax. split_and!.
  - assert (0 < match http_ParseTime raw with Some t => if After t now then Sub t now else minBackoff | None => minBackoff end).
    { destruct (http_ParseTime raw) as [t|]; [|done]. unfold After, Sub, minBackoff, max_int64, min_int64, second.
      destruct (Z.ltb_spec now t); lia. }
    destruct (ParseInt raw) as [n|]; [|done]. destruct ((0 <? n) && _) eqn:E; [|done]. bools. unfold second. lia.
  - intros n -> Hn. assert ((0 <? n) && (n <=? 9223372036) = true) as -> by (apply andb_true_iff; lia). done.
  - intros t -> -> Ht. unfold After, Sub, max_int64, min_int64 in *. destruct (Z.ltb_spec now t); lia.
  - by intros -> ->.
Qed.

Section confirmed.
Context `{URLParser} `{AgentJSONLaws} {W : Type}.
Context (http : string -> string -> string -> M W (option response)).
Context (hubURL : string) (key : W -> string) (reauth : option (M W unit)).
Context (http_ParseTime : string -> option Z) (now : Z).
(** The hub's invariant, and the events it has stored. *)
Context (inv : W -> Prop) (held : W -> string -> Prop).

(** The hub stays sound and loses nothing. *)
Definition keeps (w w' : W) : Prop := inv w' /\ forall id, held w id -> held w' id.
Lemma hub_keeps_refl w : inv w -> keeps w w.
Proof. by split. Qed.
Lemma hub_keeps_trans w1 w2 w3 : keeps w1 w2 -> keeps w2 w3 -> keeps w1 w3.
Proof. intros [_ Hk1] [Hi2 Hk2]. split; auto. Qed.

(** The hub keeps what it has stored, and a positive acknowledgement of a
    batch names stored events. *)
Definition honest_http : Prop := forall path body w, inv w ->
  wp (http path (key w) body) (fun r w' => keeps w w' /\
    forall resp text a o, r = Ok (Some resp) -> rp_Body resp = Some text -> ack_decode text = Some a ->
      rp_StatusCode resp = 202 \/ rp_StatusCode resp = 200 ->
      ack_Status a = "accepted" -> o ∈ ack_Outcomes a ->
      io_Status o = "accepted" \/ io_Status o = "duplicate" -> held w' (io_EventID o)) w.
Definition honest_reauth : Prop := forall again, reauth = Some again ->
  forall w, inv w -> wp again (fun _ w' => keeps w w') w.

Lemma ack_matches_ids sent outcomes :
  length outcomes = length sent -> ack_matches sent outcomes = true ->
  map io_EventID outcomes = map ev_EventID sent /\
  Forall (fun o => io_Status o = "accepted" \/ io_Status o = "duplicate") outcomes.
Proof.
  revert sent. induction outcomes as [|o os IH]; intros [|e es] Hl Hm; try done.
  unfold ack_matches in Hm. simpl in Hm. apply andb_true_iff in Hm as [[Hid Hst]%andb_true_iff Hm].
  destruct (IH es) as [IH1 IH2]; [simpl in Hl; lia|done|]. apply String.eqb_eq in Hid.
  simpl. rewrite IH1, Hid. split; [done|]. constructor; [|done].
  apply orb_true_iff in Hst as [?%String.eqb_eq|?%String.eqb_eq]; auto.
Qed.

Lemma check_ack_ok body text b :
  check_ack body text = Ok tt -> batch_unmarshal body = Some b ->
  exists a, ack_decode text = Some a /\ ack_Status a = "accepted" /\
    map io_EventID (ack_Outcomes a) = map ev_EventID (ib_Events b) /\
    Forall (fun o => io_Status o = "accepted" \/ io_Status o = "duplicate") (ack_Outcomes a).
Proof.
  unfold check_ack. intros Hc Hb. rewrite Hb in Hc. destruct (ack_decode text) as [a|]; [|done].
  destruct (_ || _) eqn:E; [done|]. destruct (ack_matches _ _) eqn:Em; [|done].
  apply orb_false_iff in E as [E1%negb_false_iff%String.eqb_eq E2%negb_false_iff%Nat.eqb_eq].
  exists a. split; [done|]. split; [done|]. by apply ack_matches_ids.
Qed.

Lemma deliver_loop_confirmed attempts body b w :
  honest_http -> honest_reauth -> inv w -> batch_unmarshal body = Some b ->
  wp (deliver_loop http hubURL key reauth http_ParseTime now attempts "batch" body)
    (fun r w' => keeps w w' /\ (r = Ok tt -> forall id, id ∈ map ev_EventID (ib_Events b) -> held w' id)) w.
Proof.
  intros Hh Hre Hw Hb. revert w Hw. induction attempts as [|rest IH]; intros w Hw; pose proof (hub_keeps_refl w Hw);
    cbn [deliver_loop]; [by apply wp_fail|].
  cbv zeta. destruct (negb _); [by apply wp_fail|].
  apply wp_mbind, wp_inspect. eapply wp_mono; [by apply Hh|]. intros r w1 [Hmono Hack].
  destruct r as [[resp|]|e]; [|by apply wp_fail|done].
  destruct (rp_Body resp) as [text|] eqn:Et; [|by apply wp_fail]. destruct (_ <? _); [by apply wp_fail|].
  destruct ((rp_StatusCode resp =? 202) || _) eqn:Ec.
  { apply wp_lift. split; [done|]. intros Hc id Hid. destruct (check_ack_ok _ _ _ Hc Hb) as (a & Ha & Hs & Hids & Hall).
    rewrite <- Hids in Hid. apply list_elem_of_fmap in Hid as (o & -> & Ho). rewrite Forall_forall in Hall.
    apply (Hack resp text a o); try done; [|by apply Hall].
    apply orb_true_iff in Ec as [?%Z.eqb_eq|?%Z.eqb_eq]; auto. }
  destruct (_ =? 401).
  { destruct rest as [|rest]; [by apply wp_fail|]. destruct reauth as [again|] eqn:Er; [|by apply wp_fail].
    apply wp_mbind, wp_attempt. eapply wp_mono; [apply (Hre again Er), Hmono|]. intros ok w2 Hm2.
    pose proof (hub_keeps_trans _ _ _ Hmono Hm2) as Hm. destruct ok; [|by apply wp_fail].
    eapply wp_mono; [apply IH, Hm|]. intros r w3 [Hm3 Hok]. split; [by eapply hub_keeps_trans|done]. }
  destruct (_ =? 429); [by apply wp_fail|]. destruct (_ <=? _); by apply wp_fail.
Qed.

Lemma wp_deliverBatch entries w :
  honest_http -> honest_reauth -> inv w ->
  wp (deliverBatch http hubURL key reauth http_ParseTime now entries)
    (fun r w' => keeps w w' /\
       (r = Ok tt -> exists events, events_of entries = Ok events /\ length events = length entries /\
          forall id, id ∈ map ev_EventID events -> held w' id)) w.
Proof.
  intros Hh Hre Hw. pose proof (hub_keeps_refl w Hw). unfold deliverBatch. destruct (events_of entries) as [events|e] eqn:Ee; [|by apply wp_fail].
  destruct (batch_marshal _) as [body|] eqn:Em; [|by apply wp_fail]. destruct (_ <? _); [by apply wp_fail|].
  destruct (batch_roundtrip _ _ Em) as (b & Hb & Hids). simpl in Hids.
  eapply wp_mono; [by apply (deliver_loop_confirmed _ _ b)|]. intros r w' [Hm Hr]. split; [done|].
  intros Hok. exists events. split; [done|]. split; [|by rewrite <- Hids; apply Hr].
  clear -Ee. revert events Ee. induction entries as [|x xs IH]; intros events Ee; simpl in Ee; [by simplify_eq|].
  destruct (event_of x); [|done]. simpl in Ee. destruct (events_of xs) as [evs|]; [|done]. simpl in Ee. simplify_eq.
  simpl. f_equal. by apply IH.
Qed.

(** A delivery is confirmed.  When the hub's positive acknowledgements
    are true, a group whose delivery reports success is stored there, every
    event of it; the drain may then acknowledge it. *)
Lemma confirmed_delivery entries w :
  honest_http -> honest_reauth -> inv w ->
  wp (deliverBatch http hubURL key reauth http_ParseTime now entries)
    (fun r w' => keeps w w' /\
       (r = Ok tt -> exists events, events_of entries = Ok events /\ length events = length entries /\
          forall id, id ∈ map ev_EventID events -> held w' id)) w.
Proof. apply wp_deliverBatch. Qed.
End confirmed.

(** Queueing is durable.  An observation reported as queued is in the
    spool, under a sequence number above all earlier ones and within the range
    the hub accepts. *)
Lemma enqueue_is_durable `{Unicode} `{URLParser} `{SpoolJSONLaws} `{AgentJSON}
    server metric process id clock name cut a sp fs a' fs' :
  ag_spool a = Some sp -> ag_bound a = true -> 0 <= ag_sequence a ->
  spool_ok sp -> fresh_name name sp -> clean_cut cut ->
  enqueue_row server metric process (Some id) clock name cut a fs = (Ok tt, a', fs') ->
  exists sp' ev body, ag_spool a' = Some sp' /\ spool_ok sp' /\
    event_marshal ev = Some body /\ ev_EventID ev = id /\ ev_Metric ev = metric /\ ev_Process ev = process /\
    ag_sequence a < ev_Sequence ev <= max_int64 /\ ev_Sequence ev = ag_sequence a' /\
    pending sp' ≡ₚ stored {| se_PayloadType := "event"; se_Body := body; se_QueuedAt := Unix clock |} :: pending sp.
Proof.
  intros Hsp Hbound Hseq Hok Hf Hcut He. unfold enqueue_row, inspect in He.
  destruct (ag_closed a); [done|]. destruct (ag_initErr a); [done|]. rewrite Hbound in He.
  apply mbind_ok in He as (u & a1 & fs1 & Hr & He). unfold ret in Hr. simplify_eq.
  destruct (Z.leb_spec max_sequence (ag_sequence a1)); [done|]. cbv zeta in He.
  apply mbind_ok in He as (u1 & a2 & fs2 & Hr & He). unfold modify in Hr. simplify_eq.
  destruct (event_marshal _) as [body|] eqn:Em; [|done].
  apply mbind_ok in He as (u2 & a3 & fs3 & Hr & He). unfold modify in He. simplify_eq.
  unfold on_queue in Hr. cbn [set_sequence ag_spool] in Hr. rewrite Hsp in Hr.
  destruct (Append "event" body clock name cut sp fs2) as [[r sp'] fs4] eqn:Ea. simplify_eq.
  pose proof (wp_run _ _ _ _ _ _ _ (wp_Append "event" body clock name cut sp Hok Hf ltac:(done) Hcut) Ea) as Hq.
  destruct Hq as [[_ ?]|(Q1 & _ & Q3)]; [done|].
  eexists sp', _, body. split; [done|]. split; [done|]. split; [exact Em|]. simpl.
  unfold max_sequence in *. assert (Z.shiftl 1 63 - 1 = max_int64) as Hmx by done. rewrite Hmx in *.
  split_and!; try done; lia.
Qed.

(** ** Witnesses *)

Module SampleAgent.
Definition event (id : string) : IngestEvent :=
  {| ev_EventID := id; ev_BootID := "boot-1"; ev_Sequence := 1; ev_Metric := None; ev_Process := None |}.
(** An event travels as its identity, a batch as the identity of its only
    event. *)
Definition json : AgentJSON :=
  {| event_marshal e := Some (if String.eqb (ev_EventID e) "e1" then "1" else "2");
     event_decode s := Some (event s);
     metric_decode _ := None; process_decode _ := None;
     batch_marshal b := match ib_Events b with [e] => Some (ev_EventID e) | _ => None end;
     batch_unmarshal s := Some {| ib_SchemaVersion := IngestSchema; ib_Events := [event s] |};
     ack_decode s := Some {| ack_Status := "accepted"; ack_Outcomes := [{| io_EventID := s; io_Status := "duplicate" |}] |};
     rfc3339nano _ := "t"; sha256_hex s := s; sha256_u64 _ := 0 |}.
Definition json_laws : @AgentJSONLaws json.
Proof.
  split. intros b text. simpl. destruct (ib_Events b) as [|e [|]]; [discriminate| |discriminate].
  intros [= <-]. eexists. split; reflexivity.
Defined.
Definition any_url : URLParser := fun _ => Some {| u_Scheme := "https"; u_Host := "hub"; u_Hostname := "hub" |}.
(** A hub that stores what it gets and answers with it. *)
Definition hub (path key body : string) : M (list string) (option response) :=
  fun w fs => (Ok (Some {| rp_StatusCode := 200; rp_Body := Some body; rp_RetryAfter := empty_str |}), body :: w, fs).
Definition agent : Agent :=
  {| ag_hubURL := "https://hub"; ag_apiKey := "k"; ag_spool := Some Sample.empty; ag_initErr := None;
     ag_closed := false; ag_bound := true; ag_bootID := "boot-1"; ag_sequence := 41; ag_wake := false |}.
End SampleAgent.

Lemma confirmed_delivery_witness :
  "e1" ∈ run_state (@deliverBatch SampleAgent.any_url SampleAgent.json _ SampleAgent.hub "https://hub" (fun _ => "k") None
    (fun _ => None) 0 [{| se_PayloadType := "event"; se_Body := "e1"; se_QueuedAt := 0 |}]) [] [].
Proof.
  destruct (@confirmed_delivery SampleAgent.any_url SampleAgent.json SampleAgent.json_laws (list string)
    SampleAgent.hub "https://hub" (fun _ => "k") None (fun _ => None) 0 (fun _ => True) (fun w id => id ∈ w)
    [{| se_PayloadType := "event"; se_Body := "e1"; se_QueuedAt := 0 |}] []) with (fs := @nil (option fault)) as [_ Hok].
  - intros path body w _ fs. split; [split; [exact I|intros id Hid; right; exact Hid]|].
    intros resp text a o [= <-] [= <-] [= <-] _ _ Ho _. apply list_elem_of_singleton in Ho as ->. left.
  - intros again [=].
  - exact I.
  - destruct (Hok eq_refl) as (events & [= <-] & _ & Hin). apply Hin. left.
Defined.

Lemma enqueue_is_durable_witness :
  exists a', @enqueue_row _ _ _ SampleAgent.json "srv" None None (Some "e1") (7 * second) "seg-1.ndjson" None
               SampleAgent.agent [] = (Ok tt, a', []) /\ ag_sequence a' = 42.
Proof.
  eexists. split; [vm_compute; reflexivity|].
  destruct (@enqueue_is_durable _ _ _ _ SampleAgent.json "srv" None None "e1" (7 * second) "seg-1.ndjson" None
    SampleAgent.agent Sample.empty []
    (run_state (@enqueue_row _ _ _ SampleAgent.json "srv" None None (Some "e1") (7 * second) "seg-1.ndjson" None) SampleAgent.agent []) [])
    as (sp' & ev & body & _ & _ & _ & _ & _ & _ & _ & Hseq & _).
  - reflexivity.
  - reflexivity.
  - discriminate.
  - split; [constructor|constructor|constructor|]. intros name off. discriminate.
  - split; [|split]; [apply not_elem_of_nil..|reflexivity].
  - left. reflexivity.
  - vm_compute. reflexivity.
  - reflexivity.
Defined.
