(* ===== verification/AuditTrail.v ===== *)
(** * The audit trail ([storage/audit.go])

    The append-only table of security events, its validation and its tenant
    listing; both backends run the same two statements. *)

From S2P Require Export Reads.
Open Scope list_scope.
Open Scope Z_scope.

Definition maxAuditRows : Z := 1000.

Record AuditEvent := {
  au_At : Z;
  au_TenantID : string;
  au_ActorKind : string;
  au_ActorPrefix : string;
  au_Action : string;
  au_TargetType : string;
  au_TargetID : string
}.

Definition allowedAuditActions : list string :=
  ["session.login"; "session.logout"; "enroll.code_issued"; "client.created"; "agent.revoked";
   "agent.rotated"; "enroll.completed"; "admin.token_issued"; "tenants.migrated"].

Definition audit_validate (e : AuditEvent) : result error unit :=
  let? _ := RequireTenant (au_TenantID e) in
  let? _ := guard (negb (existsb (String.eqb (au_Action e)) allowedAuditActions)) (EMsg "audit: unsupported action") in
  let? _ := guard ((32 <? slen (au_ActorKind e)) || (16 <? slen (au_ActorPrefix e)) ||
                   (32 <? slen (au_TargetType e)) || (128 <? slen (au_TargetID e)))
                  (EMsg "audit: field too long") in
  guard (ContainsAny (au_ActorPrefix e) blank_chars) (EMsg "audit: invalid actor prefix").

(** Rows are numbered in the order of their insertion; the column [ts] has
    whole seconds. *)
Record audit_row := { ar_id : Z; ar_event : AuditEvent }.
Record audit_db := { au_rows : list audit_row; au_next : Z }.
Definition empty_audit : audit_db := {| au_rows := []; au_next := 1 |}.

Definition at_time (t : Z) (e : AuditEvent) : AuditEvent :=
  {| au_At := t; au_TenantID := au_TenantID e; au_ActorKind := au_ActorKind e;
     au_ActorPrefix := au_ActorPrefix e; au_Action := au_Action e;
     au_TargetType := au_TargetType e; au_TargetID := au_TargetID e |}.
Definition insert_audit (e : AuditEvent) (d : audit_db) : unit * audit_db :=
  (tt, {| au_rows := au_rows d ++ [{| ar_id := au_next d; ar_event := e |}]; au_next := au_next d + 1 |}).
Definition AppendAudit (ev : AuditEvent) (now : Z) : M audit_db unit :=
  let* _ := lift (audit_validate ev) in
  let t := if IsZero (au_At ev) then now else au_At ev in
  exec (insert_audit (at_time (of_unix (Unix t)) ev)).

(** [ORDER BY ts DESC, id DESC] *)
Definition audit_le (a b : audit_row) : Prop :=
  au_At (ar_event b) < au_At (ar_event a) \/
  (au_At (ar_event b) = au_At (ar_event a) /\ ar_id b <= ar_id a).
#[export] Instance audit_le_dec (a b : audit_row) : Decision (audit_le a b).
Proof. unfold audit_le. apply _. Defined.
#[export] Instance audit_le_trans : Transitive audit_le.
Proof. intros a b c. unfold audit_le. lia. Qed.
#[export] Instance audit_le_total : Total audit_le.
Proof. intros a b. unfold audit_le. lia. Qed.

Definition ListAudit (tenantID : string) (limit : Z) : M audit_db (list AuditEvent) :=
  let* _ := lift (RequireTenant tenantID) in
  let limit := if (limit <? 1) || (maxAuditRows <? limit) then maxAuditRows else limit in
  query (fun d => map ar_event (take (Z.to_nat limit) (merge_sort audit_le
    (List.filter (fun r => String.eqb (au_TenantID (ar_event r)) tenantID) (au_rows d))))).

(** ** Properties *)

Lemma RequireTenant_ok (t : string) : RequireTenant t = Ok tt -> RequireTenant_fails t = false.
Proof. unfold RequireTenant, guard. by destruct (RequireTenant_fails t). Qed.

Lemma strongly_sorted_take {A : Type} (R : A -> A -> Prop) (n : nat) (l : list A) :
  StronglySorted R l -> StronglySorted R (take n l) /\ forall a b, a ∈ take n l -> b ∈ drop n l -> R a b.
Proof.
  intros Hs. revert n. induction Hs as [|x l Hs IH Hx]; intros [|n]; simpl.
  - split; [constructor|set_solver].
  - split; [constructor|set_solver].
  - split; [constructor|set_solver].
  - destruct (IH n) as [IH1 IH2]. split.
    + constructor; [done|]. by apply Forall_take.
    + intros a b [->|Ha]%elem_of_cons Hb; [|auto]. rewrite Forall_forall in Hx. apply Hx.
      rewrite <- (take_drop n l). set_solver.
Qed.

(** The audit listing.  A listing that succeeds needs a tenant, returns
    only its events, at most a thousand, each of them in the table, newest
    first, and leaves out only events that are not newer than those it shows;
    reading changes nothing. *)
Lemma audit_listing tenantID limit d fs evs d' fs' :
  ListAudit tenantID limit d fs = (Ok evs, d', fs') ->
  d' = d /\ RequireTenant_fails tenantID = false /\ (length evs <= 1000)%nat /\
  exists rows rest, evs = map ar_event rows /\ StronglySorted audit_le rows /\
    rows ++ rest ≡ₚ List.filter (fun r => String.eqb (au_TenantID (ar_event r)) tenantID) (au_rows d) /\
    (forall a b, a ∈ rows -> b ∈ rest -> audit_le a b) /\
    (rest = [] \/ length rows = Z.to_nat (if (limit <? 1) || (maxAuditRows <? limit) then maxAuditRows else limit)).
Proof.
  unfold ListAudit. intros (u & d0 & fs0 & Hu & Hq)%mbind_ok. unfold lift in Hu. destruct u. simplify_eq.
  pose proof (RequireTenant_ok tenantID ltac:(congruence)) as Ht. cbv zeta in Hq.
  apply query_ok in Hq as [-> ->]. pose (n := if (limit <? 1) || (maxAuditRows <? limit) then maxAuditRows else limit).
  fold n. assert (Hn : 1 <= n <= 1000).
  { unfold n, maxAuditRows in *. destruct (_ || _) eqn:E; [lia|]. bools. lia. }
  clearbody n. set (l := merge_sort audit_le _).
  assert (Hl : l ≡ₚ List.filter (fun r => String.eqb (au_TenantID (ar_event r)) tenantID) (au_rows d0))
    by apply merge_sort_Permutation.
  assert (Hs : StronglySorted audit_le l) by apply (StronglySorted_merge_sort audit_le). clearbody l.
  destruct (strongly_sorted_take audit_le (Z.to_nat n) l Hs) as [Hs1 Hs2].
  split; [done|]. split; [done|]. split; [rewrite length_map, length_take; lia|].
  exists (take (Z.to_nat n) l), (drop (Z.to_nat n) l). split; [done|]. split; [done|].
  split; [by rewrite take_drop|]. split; [done|].
  rewrite length_take. destruct (decide (length l <= Z.to_nat n)%nat); [left; by apply drop_ge|right; lia].
Qed.

Definition audit_sample : AuditEvent :=
  {| au_At := zero_time; au_TenantID := "t_acme"; au_ActorKind := "read"; au_ActorPrefix := "wmr_";
     au_Action := "session.login"; au_TargetType := "session"; au_TargetID := "browser" |}.
Lemma audit_listing_witness :
  let d := run_state (AppendAudit audit_sample (90 * second)) empty_audit [] in
  run_state (ListAudit "t_acme" 256) d [] = d /\
  run_result (ListAudit "t_acme" 256) d [] = Ok [at_time (90 * second) audit_sample].
Proof.
  split; [|vm_compute; reflexivity].
  apply (audit_listing "t_acme" 256 (run_state (AppendAudit audit_sample (90 * second)) empty_audit []) []
    [at_time (90 * second) audit_sample] _ []).
  vm_compute. reflexivity.
Defined.

(** The action of the command line's client revocation is not in the list, so
    recording it always fails. *)
Lemma client_revoked_is_refused ev now d fs :
  au_Action ev = "client.revoked" -> is_ok (run_result (AppendAudit ev now) d fs) = false.
Proof.
  intros Ha. unfold run_result, AppendAudit, mbind, lift, audit_validate, RequireTenant.
  destruct (guard (RequireTenant_fails _) _); [|done]. simpl. rewrite Ha. done.
Qed.
