(* ===== verification/Limits.v ===== *)
(** * Abuse control ([server/ratelimit.go], [server/quota.go])

    Token buckets per key, in binary64 arithmetic, and the daily row quota
    kept for fixtures.  [time.Now] is an argument. *)

From S2P Require Export Reads.
Open Scope list_scope.
Open Scope Z_scope.

(** ** Token buckets *)

Definition defaultRatePerSecond : float64 := f_of_Z 20.
Definition defaultBurst : float64 := f_of_Z 60.
Definition maxRateBuckets : Z := 10000.

Record tokenBucket := { tb_tokens : float64; tb_last : Z }.
Record rateLimiter := {
  rl_buckets : gmap string tokenBucket;
  rl_rate : float64;
  rl_burst : float64;
  rl_lastSweep : Z
}.

Definition newRateLimiter (rate burst : float64) (now : Z) : rateLimiter :=
  {| rl_buckets := ∅;
     rl_rate := if fle rate f0 then defaultRatePerSecond else rate;
     rl_burst := if fle burst f0 then defaultBurst else burst;
     rl_lastSweep := now |}.
Definition with_buckets (m : gmap string tokenBucket) (rl : rateLimiter) : rateLimiter :=
  {| rl_buckets := m; rl_rate := rl_rate rl; rl_burst := rl_burst rl; rl_lastSweep := rl_lastSweep rl |}.

Definition sweepLocked (now : Z) (rl : rateLimiter) : rateLimiter :=
  if Sub now (rl_lastSweep rl) <? minute then rl
  else
    let idle := wrap_i64 (f_to_int (fmul (fdiv (rl_burst rl) (rl_rate rl)) (f_of_Z second)) + minute) in
    {| rl_buckets := filter (fun p => negb (idle <? Sub now (tb_last p.2)) = true) (rl_buckets rl);
       rl_rate := rl_rate rl; rl_burst := rl_burst rl; rl_lastSweep := now |}.

(** The refill of an existing bucket. *)
Definition refill (rate burst : float64) (now : Z) (b : tokenBucket) : tokenBucket :=
  let elapsed := Seconds (Sub now (tb_last b)) in
  if fgt elapsed f0 then
    let tokens := fadd (tb_tokens b) (fmul elapsed rate) in
    {| tb_tokens := if fgt tokens burst then burst else tokens; tb_last := now |}
  else b.

Definition allow (key : string) (now : Z) (rl : rateLimiter) : bool * rateLimiter :=
  let key := if is_empty key then "anonymous" else key in
  let rl := sweepLocked now rl in
  let shared := HasPrefix key "preauth:" in
  let rate := if shared then fmul (rl_rate rl) (f_of_Z 100) else rl_rate rl in
  let burst := if shared then fmul (rl_burst rl) (f_of_Z 100) else rl_burst rl in
  match rl_buckets rl !! key with
  | None =>
      if maxRateBuckets <=? Z.of_nat (size (rl_buckets rl)) then (false, rl)
      else (true, with_buckets (<[key := {| tb_tokens := fsub burst (f_of_Z 1); tb_last := now |}]> (rl_buckets rl)) rl)
  | Some b =>
      let b := refill rate burst now b in
      if flt (tb_tokens b) (f_of_Z 1) then (false, with_buckets (<[key := b]> (rl_buckets rl)) rl)
      else (true, with_buckets (<[key := {| tb_tokens := fsub (tb_tokens b) (f_of_Z 1); tb_last := tb_last b |}]>
                                 (rl_buckets rl)) rl)
  end.

Definition limiter_retryAfter (rl : rateLimiter) : Z :=
  if fle (rl_rate rl) f0 then second
  else
    let wait := f_to_int (fdiv (f_of_Z second) (rl_rate rl)) in
    if wait <? second then second else wait.

(** ** Daily rows *)

Definition defaultDailyRowQuota : Z := 20000000.
Record dailyQuotaEntry := { dq_day : Z; dq_rows : Z }.
Record dailyQuota := { dq_entries : gmap string dailyQuotaEntry; dq_limit : Z }.
Definition newDailyQuota (limit : Z) : dailyQuota :=
  {| dq_entries := ∅; dq_limit := if limit <=? 0 then defaultDailyRowQuota else limit |}.
(** [env] is the value of WMONITOR_DAILY_ROW_QUOTA. *)
Definition dailyQuotaFromEnv (env : string) : dailyQuota :=
  newDailyQuota (match ParseInt env with
                 | Some value => if 0 <? value then value else defaultDailyRowQuota
                 | None => defaultDailyRowQuota
                 end).
Definition quota_allow (tenant : string) (rows now : Z) (q : dailyQuota) : bool * dailyQuota :=
  let rows := if rows <? 1 then 1 else rows in
  let day := utc_day now in
  let entries := filter (fun p => dq_day p.2 = day) (dq_entries q) in
  let entry := match entries !! tenant with Some e => e | None => {| dq_day := day; dq_rows := 0 |} end in
  let keep := {| dq_entries := entries; dq_limit := dq_limit q |} in
  if (dq_limit q <? rows) || (dq_limit q - rows <? dq_rows entry) then (false, keep)
  else (true, {| dq_entries := <[tenant := {| dq_day := day; dq_rows := dq_rows entry + rows |}]> entries;
                 dq_limit := dq_limit q |}).
(** Whole seconds until the next UTC midnight. *)
Definition quota_retryAfter (now : Z) : Z :=
  let seconds := ((utc_day now + 1) * 86400 * second - now) `quot` second in
  if seconds <? 1 then 1 else seconds.

(** ** Properties *)

(** A history of requests, each with its key and its instant. *)
Fixpoint serve (reqs : list (string * Z)) (rl : rateLimiter) : list bool * rateLimiter :=
  match reqs with
  | [] => ([], rl)
  | (key, now) :: reqs' =>
      let '(ok, rl') := allow key now rl in
      let '(oks, rl'') := serve reqs' rl' in (ok :: oks, rl'')
  end.

Lemma sweep_size now rl : (size (rl_buckets (sweepLocked now rl)) <= size (rl_buckets rl))%nat.
Proof.
  unfold sweepLocked. destruct (_ <? _); [done|]. simpl. apply map_subseteq_size, map_filter_subseteq.
Qed.
Lemma sweep_static now rl : rl_rate (sweepLocked now rl) = rl_rate rl /\ rl_burst (sweepLocked now rl) = rl_burst rl.
Proof. unfold sweepLocked. by destruct (_ <? _). Qed.

Lemma insert_present_size (m : gmap string tokenBucket) key b b' :
  m !! key = Some b -> size (<[key := b']> m) = size m.
Proof. intros Hb. rewrite map_size_insert. by rewrite Hb. Qed.

Lemma allow_size key now rl :
  Z.of_nat (size (rl_buckets rl)) <= maxRateBuckets ->
  Z.of_nat (size (rl_buckets (allow key now rl).2)) <= maxRateBuckets.
Proof.
  intros Hs. pose proof (sweep_size now rl) as Hsw. unfold allow. cbv zeta.
  generalize (if is_empty key then "anonymous" else key). intros k.
  revert Hsw. generalize (sweepLocked now rl). intros rl1 Hsw.
  destruct (rl_buckets rl1 !! k) as [b|] eqn:E.
  - destruct (flt _ _); simpl; erewrite insert_present_size by exact E; lia.
  - destruct (Z.leb_spec maxRateBuckets (Z.of_nat (size (rl_buckets rl1)))); [simpl; lia|].
    simpl. rewrite map_size_insert_None by done. lia.
Qed.

(** Bounded memory.  However many keys attackers invent, the limiter never
    holds more than ten thousand buckets. *)
Lemma limiter_memory_bounded rate burst start reqs :
  Z.of_nat (size (rl_buckets (serve reqs (newRateLimiter rate burst start)).2)) <= maxRateBuckets.
Proof.
  assert (H0 : Z.of_nat (size (rl_buckets (newRateLimiter rate burst start))) <= maxRateBuckets)
    by (simpl; rewrite map_size_empty; done).
  revert H0. generalize (newRateLimiter rate burst start). induction reqs as [|[key now] reqs IH]; intros rl Hs; [done|].
  simpl. pose proof (allow_size key now rl Hs) as Ha. destruct (allow key now rl) as [ok rl']. simpl in Ha.
  specialize (IH rl' Ha). by destruct (serve reqs rl') as [oks rl''].
Qed.

(** Integers below six thousand subtract exactly. *)
Lemma fsub_one (k : Z) : 1 <= k <= 6000 ->
  fsub (f_of_Z k) (f_of_Z 1) = f_of_Z (k - 1) /\ flt (f_of_Z k) (f_of_Z 1) = false.
Proof.
  intros Hk.
  assert (Hall : forallb (fun n => let k := Z.of_nat n + 1 in
    match fsub (f_of_Z k) (f_of_Z 1), f_of_Z (k - 1) with
    | S754_zero s, S754_zero s' => Bool.eqb s s'
    | S754_finite s m e, S754_finite s' m' e' => Bool.eqb s s' && Pos.eqb m m' && Z.eqb e e'
    | _, _ => false
    end && negb (flt (f_of_Z k) (f_of_Z 1))) (List.seq 0 (Z.to_nat 6000)) = true) by (vm_compute; reflexivity).
  rewrite forallb_forall in Hall. specialize (Hall (Z.to_nat (k - 1)) ltac:(apply in_seq; lia)). cbv zeta in Hall.
  replace (Z.of_nat (Z.to_nat (k - 1)) + 1) with k in Hall by lia. bools. split; [|done].
  destruct (fsub (f_of_Z k) (f_of_Z 1)), (f_of_Z (k - 1)); try done; bools.
  - apply Bool.eqb_prop in H. by subst.
  - apply Bool.eqb_prop in H. apply Pos.eqb_eq in H2. by subst.
Qed.

(** At one instant a bucket is only drained. *)
Lemma allow_again key now rl k :
  Sub now (rl_lastSweep rl) < minute -> 0 <= k <= 5999 -> is_empty key = false ->
  rl_buckets rl !! key = Some {| tb_tokens := f_of_Z k; tb_last := now |} ->
  (allow key now rl).1 = (0 <? k) /\
  Sub now (rl_lastSweep (allow key now rl).2) < minute /\
  rl_buckets (allow key now rl).2 !! key = Some {| tb_tokens := f_of_Z (Z.max 0 (k - 1)); tb_last := now |}.
Proof.
  intros Hsw Hk Hkey Hb. unfold allow. rewrite Hkey. unfold sweepLocked.
  destruct (Z.ltb_spec (Sub now (rl_lastSweep rl)) minute); [|lia]. cbv zeta. rewrite Hb.
  assert (Hs : Sub now now = 0) by (unfold Sub, min_int64, max_int64; lia).
  unfold refill. cbn [tb_last tb_tokens]. rewrite Hs.
  assert (fgt (Seconds 0) f0 = false) as -> by done. cbn [tb_last tb_tokens].
  destruct (decide (k = 0)) as [->|Hne].
  - assert (flt (f_of_Z 0) (f_of_Z 1) = true) as -> by done. cbn [fst snd with_buckets rl_buckets rl_lastSweep].
    by rewrite lookup_insert_eq.
  - destruct (fsub_one k ltac:(lia)) as [-> ->]. cbn [fst snd with_buckets rl_buckets rl_lastSweep].
    rewrite lookup_insert_eq. split; [symmetry; apply Z.ltb_lt; lia|]. split; [done|]. do 3 f_equal. lia.
Qed.

Lemma drain_bucket key now rl k n :
  Sub now (rl_lastSweep rl) < minute -> 0 <= k <= 5999 -> is_empty key = false ->
  rl_buckets rl !! key = Some {| tb_tokens := f_of_Z k; tb_last := now |} ->
  (serve (replicate n (key, now)) rl).1 = replicate (Nat.min n (Z.to_nat k)) true ++ replicate (n - Z.to_nat k) false.
Proof.
  revert k rl. induction n as [|n IH]; intros k rl Hsw Hk Hkey Hb; [done|].
  destruct (allow_again key now rl k Hsw Hk Hkey Hb) as (A1 & A2 & A3). cbn [replicate serve].
  destruct (allow key now rl) as [ok rl']. cbn [fst snd] in *. subst ok.
  specialize (IH (Z.max 0 (k - 1)) rl' A2 ltac:(lia) Hkey A3).
  destruct (serve (replicate n (key, now)) rl') as [oks rl'']. cbn [fst] in *. subst oks.
  destruct (Z.ltb_spec 0 k) as [Hpos|Hzero].
  - replace (Z.to_nat k) with (S (Z.to_nat (Z.max 0 (k - 1)))) by lia. done.
  - replace (Z.to_nat (Z.max 0 (k - 1))) with O by lia. replace (Z.to_nat k) with O by lia.
    rewrite Nat.min_0_r, Nat.sub_0_r. done.
Qed.

(** The burst is exact.  Of any number of requests one key makes at one
    instant, a fresh limiter with the server's settings lets through the first
    sixty, or the first six thousand of a peer that is not yet authenticated,
    and no other. *)
Lemma limiter_burst_is_exact key now n :
  is_empty key = false ->
  let burst := if HasPrefix key "preauth:" then Z.to_nat 6000 else 60%nat in
  (serve (replicate n (key, now)) (newRateLimiter defaultRatePerSecond defaultBurst now)).1 =
  replicate (Nat.min n burst) true ++ replicate (n - burst) false.
Proof.
  intros Hkey burst. destruct n as [|n]; [done|]. cbn [replicate serve].
  pose (b := if HasPrefix key "preauth:" then 6000 else 60).
  assert (Hb : burst = S (Z.to_nat (b - 1))) by (unfold burst, b; by destruct (HasPrefix key _)).
  assert (Hs : Sub now now = 0) by (unfold Sub, min_int64, max_int64; lia).
  assert (Ha : exists rl, allow key now (newRateLimiter defaultRatePerSecond defaultBurst now) = (true, rl) /\
    rl_lastSweep rl = now /\ rl_buckets rl !! key = Some {| tb_tokens := f_of_Z (b - 1); tb_last := now |}).
  { unfold allow. rewrite Hkey. unfold sweepLocked. cbn [newRateLimiter rl_lastSweep]. rewrite Hs.
    assert (0 <? minute = true) as -> by done. cbn [newRateLimiter rl_buckets]. rewrite lookup_empty, map_size_empty.
    cbv zeta. change (maxRateBuckets <=? Z.of_nat 0) with false. cbv iota.
    eexists. split; [reflexivity|]. split; [done|]. cbn [with_buckets rl_buckets]. rewrite lookup_insert_eq.
    do 2 f_equal. unfold b. by destruct (HasPrefix key _). }
  destruct Ha as (rl & -> & Hl & Hbk).
  pose proof (drain_bucket key now rl (b - 1) n) as Hd.
  destruct (serve (replicate n (key, now)) rl) as [oks rl']. cbn [fst] in *.
  rewrite Hd; [by rewrite Hb| | |done|done].
  - rewrite Hl, Hs. done.
  - unfold b. destruct (HasPrefix key _); lia.
Qed.
Lemma limiter_burst_is_exact_witness :
  (serve (replicate 62 ("tenant:a", 5)) (newRateLimiter defaultRatePerSecond defaultBurst 5)).1 =
  replicate 60 true ++ [false; false].
Proof. exact (limiter_burst_is_exact "tenant:a" 5 62 eq_refl). Defined.
