(* ===== verification/Auth.v ===== *)
(** * Authentication at the hub ([server/auth.go], [server/session.go],
      [server/https.go])

    Who a request is: API keys through a cache that is checked against the
    shared revocation counter, browser sessions that are resolved again on
    every request, and the origin and transport checks that protect them.

    A request is its method, headers and peer; the parsers of [net] and
    [net/url] are parameters.  Each handler reads the clock once here.

    A request with a key that is not in the cache starts a goroutine that
    records the use of the key.  The hub keeps the list of those that were
    started and have not run ([hb_touches]); [run_touch] is the whole of one of
    them, and a history runs them in any order and as late as it likes.  That
    one runs between two statements of a handler, the one that started it
    included, is not modelled. *)

From S2P Require Export Enrollment AuditTrail Limits.
Open Scope list_scope.
Open Scope Z_scope.

(** ** Requests *)

(** What [url.Parse] finds in an Origin header. *)
Record OriginURL := {
  ou_Scheme : string;
  ou_Host : string;
  ou_bare : bool (* no user, path, query, fragment or opaque part *)
}.
Class OriginParser := origin_Parse : string -> option OriginURL.

Record request := {
  hr_Method : string;
  hr_TLS : bool;
  hr_ForwardedProto : string;
  hr_RemoteAddr : string;
  hr_Host : string;
  hr_Origin : string;
  hr_QueryKey : string;
  hr_XAPIKey : string;
  hr_Cookie : option string
}.

(** [strings.Trim(s, "[]")] *)
Definition trim_brackets (s : string) : string :=
  let seps := ["["; "]"]%string in
  string_rev (trim_front (String.length s) seps (string_rev (trim_front (String.length s) seps s))).

Section requests.
Context `{Unicode} `{Net} `{OriginParser}.
(** WMONITOR_TRUSTED_PROXIES *)
Context (trusted_proxies : string).

Definition clientIP (r : request) : string := default (hr_RemoteAddr r) (net_SplitHostPort (hr_RemoteAddr r)).

Definition proxy_matches (ip : IP) (part : string) : bool :=
  let part := TrimSpace part in
  if is_empty part then false
  else if Contains part "/" then match net_ParseCIDR part with Some n => n ip | None => false end
  else match net_ParseIP part with Some p => ip_equal p ip | None => false end.
Definition trustedProxyPeer (r : request) : bool :=
  let raw := TrimSpace trusted_proxies in
  if is_empty raw then false
  else match net_ParseIP (clientIP r) with
       | None => false
       | Some ip => existsb (proxy_matches ip) (Split raw ",")
       end.
Definition requestIsHTTPS (r : request) : bool :=
  if hr_TLS r then true
  else if negb (EqualFold (TrimSpace (hr_ForwardedProto r)) "https") then false
  else trustedProxyPeer r.
Definition loopbackSessionRequest (r : request) : bool :=
  let host := trim_brackets (default (hr_Host r) (net_SplitHostPort (hr_Host r))) in
  match net_ParseIP (clientIP r) with
  | None => false
  | Some peer =>
      ip_IsLoopback peer &&
      (String.eqb host "localhost" || match net_ParseIP host with Some ip => ip_IsLoopback ip | None => false end) &&
      negb (trustedProxyPeer r)
  end.
Definition originOK (r : request) : bool :=
  match origin_Parse (hr_Origin r) with
  | None => false
  | Some u =>
      if is_empty (ou_Host u) || negb (ou_bare u) then false
      else
        let scheme := if requestIsHTTPS r then "https" else "http" in
        String.eqb (ou_Scheme u) scheme && EqualFold (ou_Host u) (hr_Host r)
  end.
End requests.

(** ** Principals and their permissions *)

Definition authCacheTTL : Z := 60 * second.
Definition authNegativeTTL : Z := 10 * second.
Definition AuthRevocationMaxDelay : Z := 5 * second.

Record Principal := {
  pr_TenantID : string;
  pr_AgentID : string;
  pr_CredentialID : string;
  pr_Kind : string;
  pr_Permissions : string;
  pr_ExpiresAt : Z
}.
Definition zero_principal : Principal :=
  {| pr_TenantID := EmptyString; pr_AgentID := EmptyString; pr_CredentialID := EmptyString;
     pr_Kind := EmptyString; pr_Permissions := EmptyString; pr_ExpiresAt := zero_time |}.

Definition principalFromRecord (rec : APIKeyRecord) : Principal :=
  {| pr_TenantID := rec_TenantID rec; pr_AgentID := rec_ServerID rec; pr_CredentialID := rec_KeyHash rec;
     pr_Kind := rec_Kind rec; pr_Permissions := rec_Scope rec; pr_ExpiresAt := rec_ExpiresAt rec |}.

Definition credentialPermits (kind granted required : string) : bool :=
  if String.eqb kind KindEnroll || String.eqb granted ScopeEnroll then false
  else if String.eqb required ScopeAdmin then String.eqb kind KindAdmin && String.eqb granted ScopeAdmin
  else if String.eqb granted ScopeAdmin && String.eqb kind KindAdmin then true
  else if String.eqb required ScopeRead then String.eqb granted ScopeRead || String.eqb granted ScopeAll
  else if String.eqb required ScopeIngest then String.eqb granted ScopeIngest || String.eqb granted ScopeAll
  else String.eqb granted required.
Definition permits (p : Principal) (required : string) : bool :=
  credentialPermits (pr_Kind p) (pr_Permissions p) required.

Definition credentialExpiryUnix (t : Z) : Z := if IsZero t then 0 else Unix t.
Definition cacheDeadline (now credExpiry : Z) : Z :=
  let deadline := now + authCacheTTL in
  if (0 <? credentialExpiryUnix credExpiry) && Before credExpiry deadline then credExpiry else deadline.
Definition expired (expiry now : Z) : bool := (0 <? credentialExpiryUnix expiry) && negb (Before now expiry).

(** ** The cache *)

Record authCacheEntry := { ce_principal : Principal; ce_valid : bool; ce_expires : Z; ce_epoch : Z }.
Definition authCache : Type := gmap string authCacheEntry.

Definition cache_get (hash : string) (epoch now : Z) (c : authCache) : option authCacheEntry * authCache :=
  match c !! hash with
  | None => (None, c)
  | Some e =>
      if After now (ce_expires e) then (None, c)
      else if ce_epoch e <? epoch then (None, delete hash c)
      else if expired (pr_ExpiresAt (ce_principal e)) now then (None, delete hash c)
      else (Some e, c)
  end.
Definition cache_put (hash : string) (e : authCacheEntry) (c : authCache) : authCache :=
  let c := if 10000 <? Z.of_nat (size c) then ∅ else c in <[hash := e]> c.

(** ** Sessions *)

Definition sessionTTL : Z := 7 * 24 * hour.
Definition sessionIDPrefix : string := "wms_".
Definition maxSessions : Z := 4096.
Definition maxCredentialSessions : Z := 5.

Record sessionEntry := { se_credHash : string; se_principal : Principal; se_clientName : string; se_expires : Z }.
Definition sessionStore : Type := gmap string sessionEntry.

(** The session of a credential that expires first, in the order of the
    map's iteration. *)
Fixpoint oldest_session (l : list (string * sessionEntry)) (best : option (string * sessionEntry))
  : option (string * sessionEntry) :=
  match l with
  | [] => best
  | p :: l' =>
      oldest_session l'
        match best with
        | None => Some p
        | Some b => if Before (se_expires p.2) (se_expires b.2) then Some p else best
        end
  end.
Definition session_live (now : Z) (p : string * sessionEntry) : Prop := now < se_expires p.2.
Definition same_credential (hash : string) (p : string * sessionEntry) : Prop := se_credHash p.2 = hash.
#[export] Instance session_live_dec now p : Decision (session_live now p).
Proof. unfold session_live. apply _. Defined.
#[export] Instance same_credential_dec hash p : Decision (same_credential hash p).
Proof. unfold same_credential. apply _. Defined.

Definition session_put (id : string) (ent : sessionEntry) (now : Z) (m : sessionStore) : bool * sessionStore :=
  let m := filter (session_live now) m in
  let own := filter (same_credential (se_credHash ent)) (map_to_list m) in
  let m := if maxCredentialSessions <=? Z.of_nat (length own)
           then match oldest_session own None with Some p => delete p.1 m | None => m end
           else m in
  if maxSessions <=? Z.of_nat (size m) then (false, m) else (true, <[id := ent]> m).
Definition session_get (id : string) (now : Z) (m : sessionStore) : option sessionEntry * sessionStore :=
  match m !! id with
  | Some e => if Before now (se_expires e) then (Some e, m) else (None, delete id m)
  | None => (None, delete id m)
  end.
(** [newSessionID] from the hex text of its 32 random bytes. *)
Definition newSessionID (hex : string) : string := sessionIDPrefix +:+ hex.

(** ** The hub *)

Record hub := {
  hb_hubMode : bool;
  hb_hasKeys : bool;
  hb_cache : authCache;
  hb_epoch : Z;
  hb_refreshed : Z;
  hb_interval : Z;
  hb_sessions : sessionStore;
  hb_login : rateLimiter;
  hb_touches : list string (* goroutines of [authPrincipal] that have still to run, by their key hash *)
}.
(** A started server, with its key store or without. *)
Definition New (hubMode hasKeys : bool) (now : Z) : hub :=
  {| hb_hubMode := hubMode; hb_hasKeys := hasKeys; hb_cache := ∅; hb_epoch := 0; hb_refreshed := zero_time;
     hb_interval := AuthRevocationMaxDelay; hb_sessions := ∅; hb_login := newRateLimiter (f_of_Z 1) (f_of_Z 5) now;
     hb_touches := [] |}.
Record world := { w_hub : hub; w_auth : auth_db; w_audit : audit_db }.

Definition set_hub (f : hub -> hub) (w : world) : world :=
  {| w_hub := f (w_hub w); w_auth := w_auth w; w_audit := w_audit w |}.
Definition set_cache (c : authCache) (h : hub) : hub :=
  {| hb_hubMode := hb_hubMode h; hb_hasKeys := hb_hasKeys h; hb_cache := c; hb_epoch := hb_epoch h;
     hb_refreshed := hb_refreshed h; hb_interval := hb_interval h; hb_sessions := hb_sessions h; hb_login := hb_login h;
     hb_touches := hb_touches h |}.
Definition set_epoch (e now : Z) (h : hub) : hub :=
  {| hb_hubMode := hb_hubMode h; hb_hasKeys := hb_hasKeys h; hb_cache := hb_cache h; hb_epoch := e;
     hb_refreshed := now; hb_interval := hb_interval h; hb_sessions := hb_sessions h; hb_login := hb_login h;
     hb_touches := hb_touches h |}.
Definition set_sessions (m : sessionStore) (h : hub) : hub :=
  {| hb_hubMode := hb_hubMode h; hb_hasKeys := hb_hasKeys h; hb_cache := hb_cache h; hb_epoch := hb_epoch h;
     hb_refreshed := hb_refreshed h; hb_interval := hb_interval h; hb_sessions := m; hb_login := hb_login h;
     hb_touches := hb_touches h |}.
Definition set_login (l : rateLimiter) (h : hub) : hub :=
  {| hb_hubMode := hb_hubMode h; hb_hasKeys := hb_hasKeys h; hb_cache := hb_cache h; hb_epoch := hb_epoch h;
     hb_refreshed := hb_refreshed h; hb_interval := hb_interval h; hb_sessions := hb_sessions h; hb_login := l;
     hb_touches := hb_touches h |}.
Definition set_touches (l : list string) (h : hub) : hub :=
  {| hb_hubMode := hb_hubMode h; hb_hasKeys := hb_hasKeys h; hb_cache := hb_cache h; hb_epoch := hb_epoch h;
     hb_refreshed := hb_refreshed h; hb_interval := hb_interval h; hb_sessions := hb_sessions h; hb_login := hb_login h;
     hb_touches := l |}.

Definition on_keys {A : Type} (m : M auth_db A) : M world A :=
  fun w fs => let '(r, d, fs') := m (w_auth w) fs in
              (r, {| w_hub := w_hub w; w_auth := d; w_audit := w_audit w |}, fs').
Definition on_audit {A : Type} (m : M audit_db A) : M world A :=
  fun w fs => let '(r, d, fs') := m (w_audit w) fs in
              (r, {| w_hub := w_hub w; w_auth := w_auth w; w_audit := d |}, fs').
(** Run a pure operation of the hub and keep its result. *)
Definition on_hub {A : Type} (f : hub -> A * hub) : M world A :=
  inspect (fun w => let* _ := modify (set_hub (fun h => (f h).2)) in ret (f (w_hub w)).1).

(** An error answer: its status and its text. *)
Inductive reply := Reply (status : Z) (message : string).

Section hub_operations.
Context `{Unicode} `{Net} `{OriginParser} `{Dialect}.
Context (trusted_proxies : string) (sha256hex : string -> string).

Definition syncAuthEpoch (now : Z) : M world unit :=
  inspect (fun w =>
    if hb_hasKeys (w_hub w) then
      let* r := attempt (on_keys AuthEpoch) in
      match r with
      | Ok ep => modify (set_hub (set_epoch ep now))
      | Err _ => ret tt
      end
    else ret tt).
Definition currentAuthEpoch (now : Z) : M world Z :=
  inspect (fun w =>
    let h := w_hub w in
    let* _ := whenM ((hb_interval h =? 0) || IsZero (hb_refreshed h) || (hb_interval h <=? Sub now (hb_refreshed h)))
                (syncAuthEpoch now) in
    inspect (fun w => ret (hb_epoch (w_hub w)))).
Definition invalidate (hash : string) : M world unit :=
  modify (set_hub (fun h => set_cache (delete hash (hb_cache h)) h)).
Fixpoint invalidate_all (hashes : list string) : M world unit :=
  match hashes with
  | [] => ret tt
  | h :: hs => let* _ := invalidate h in invalidate_all hs
  end.
Definition invalidateHashes (hashes : list string) (now : Z) : M world unit :=
  let* _ := invalidate_all hashes in syncAuthEpoch now.

(** The credential a session was made from still stands. *)
Definition session_stands (ent : sessionEntry) (rec : APIKeyRecord) (now : Z) : bool :=
  negb (rec_Revoked rec) && String.eqb (rec_TenantID rec) (pr_TenantID (se_principal ent)) &&
  negb (String.eqb (rec_Kind rec) KindAgent) && credentialPermits (rec_Kind rec) (rec_Scope rec) ScopeRead &&
  negb (expired (rec_ExpiresAt rec) now).
Definition session_id_ok (id : string) : bool :=
  (slen id =? slen sessionIDPrefix + 64) && HasPrefix id sessionIDPrefix.
Definition lookupSession (r : request) (now : Z) : M world (option sessionEntry) :=
  inspect (fun w =>
    match hr_Cookie r with
    | None => ret None
    | Some id =>
        if negb (session_id_ok id) || negb (hb_hasKeys (w_hub w)) then ret None
        else
          let* got := on_hub (fun h => let '(e, m) := session_get id now (hb_sessions h) in (e, set_sessions m h)) in
          match got with
          | None => ret None
          | Some ent =>
              let* rec := attempt (on_keys (ResolveAPIKey (se_credHash ent) now)) in
              match rec with
              | Ok rec =>
                  if session_stands ent rec now
                  then ret (Some {| se_credHash := se_credHash ent; se_principal := principalFromRecord rec;
                                    se_clientName := rec_ClientName rec; se_expires := se_expires ent |})
                  else
                    let* _ := modify (set_hub (fun h => set_sessions (delete id (hb_sessions h)) h)) in ret None
              | Err _ =>
                  let* _ := modify (set_hub (fun h => set_sessions (delete id (hb_sessions h)) h)) in ret None
              end
          end
    end).

Definition mutating (method : string) : bool :=
  existsb (String.eqb method) ["POST"; "PUT"; "PATCH"; "DELETE"].
Definition local_principal : Principal :=
  {| pr_TenantID := LocalTenantID; pr_AgentID := EmptyString; pr_CredentialID := EmptyString;
     pr_Kind := KindRead; pr_Permissions := ScopeAll; pr_ExpiresAt := zero_time |}.
Definition forbidden : reply := Reply 403 "insufficient credential scope".
(** [enforceDailyIngestQuota] is switched off: every tenant is let through. *)
Definition enforceDailyIngestQuota (tenant : string) : bool := true.
Definition authorizeTenant (tenant : string) : option string :=
  if negb (enforceDailyIngestQuota tenant) then None else Some tenant.
Definition with_scope (p : Principal) (scope : string) : result reply Principal :=
  if permits p scope then
    match authorizeTenant (pr_TenantID p) with Some _ => Ok p | None => Err (Reply 429 EmptyString) end
  else Err forbidden.

(** [go func() { s.keys.TouchAPIKey(hash) }()]: nothing waits for it. *)
Definition start_touch (hash : string) : M world unit :=
  modify (set_hub (fun h => set_touches (hb_touches h ++ [hash]) h)).
(** The body of one of these goroutines, whichever the scheduler picks; its
    error is only logged. *)
Definition run_touch (i : nat) (now : Z) : M world unit :=
  inspect (fun w =>
    match hb_touches (w_hub w) !! i with
    | None => ret tt
    | Some hash =>
        let* _ := modify (set_hub (fun h => set_touches (take i (hb_touches h) ++ drop (S i) (hb_touches h)) h)) in
        let* _ := attempt (on_keys (TouchAPIKey hash now)) in
        ret tt
    end).

(** The API-key branch of [authPrincipal], once the epoch is known. *)
Definition auth_hash (hash scope : string) (epoch now : Z) : M world (result reply Principal) :=
  let* cached := on_hub (fun h => let '(e, c) := cache_get hash epoch now (hb_cache h) in (e, set_cache c h)) in
  match cached with
  | Some entry =>
      if ce_valid entry then ret (with_scope (ce_principal entry) scope)
      else ret (Err (Reply 401 "invalid API key"))
  | None =>
      let put entry := modify (set_hub (fun h => set_cache (cache_put hash entry (hb_cache h)) h)) in
      let* rec := attempt (on_keys (ResolveAPIKey hash now)) in
      match rec with
      | Err err =>
          if Is err ErrAPIKeyNotFound then
            let* _ := put {| ce_principal := zero_principal; ce_valid := false;
                             ce_expires := now + authNegativeTTL; ce_epoch := epoch |} in
            ret (Err (Reply 401 "invalid API key"))
          else ret (Err (Reply 503 "authentication temporarily unavailable"))
      | Ok rec =>
          let p := principalFromRecord rec in
          let* _ := put {| ce_principal := p; ce_valid := true;
                           ce_expires := cacheDeadline now (pr_ExpiresAt p); ce_epoch := epoch |} in
          let* _ := whenM (permits p scope) (start_touch hash) in
          ret (with_scope p scope)
      end
  end.
Definition auth_key (presented scope : string) (now : Z) : M world (result reply Principal) :=
  let hash := HashAPIKey sha256hex presented in
  let* epoch := currentAuthEpoch now in
  auth_hash hash scope epoch now.

Definition authPrincipal (r : request) (scope : string) (now : Z) : M world (result reply Principal) :=
  inspect (fun w =>
  if negb (hb_hubMode (w_hub w)) then ret (Ok local_principal)
  else if negb (is_empty (hr_QueryKey r)) then ret (Err (Reply 401 "api_key query parameter is not accepted; send the key in the X-API-Key header or session cookie"))
  else if is_empty (hr_XAPIKey r) && is_some (hr_Cookie r) && mutating (hr_Method r) && negb (originOK trusted_proxies r)
  then ret (Err (Reply 403 "cross-site request rejected"))
  else
    let no_key := Err (Reply 401 "X-API-Key header or session cookie required") in
    if is_empty (hr_XAPIKey r) then
      let* ent := lookupSession r now in
      match ent with
      | Some ent => ret (with_scope (se_principal ent) scope)
      | None => ret no_key
      end
    else if negb (hb_hasKeys (w_hub w)) then ret (Err (Reply 503 "authentication unavailable"))
    else auth_key (hr_XAPIKey r) scope now).

Definition authTenantScope (r : request) (scope : string) (now : Z) : M world (result reply string) :=
  let* p := authPrincipal r scope now in ret (let? p := p in Ok (pr_TenantID p)).
Definition authTenant (r : request) (now : Z) : M world (result reply string) := authTenantScope r ScopeRead now.

(** *** [/api/session] *)

Definition recordAudit (ev : AuditEvent) (now : Z) : M world unit := on_audit (AppendAudit ev now).
Definition session_event (tenant kind prefix action : string) : AuditEvent :=
  {| au_At := zero_time; au_TenantID := tenant; au_ActorKind := kind; au_ActorPrefix := prefix;
     au_Action := action; au_TargetType := "session"; au_TargetID := "browser" |}.
Definition actorPrefix (kind credHash : string) (now : Z) : M world string :=
  inspect (fun w =>
    if negb (hb_hasKeys (w_hub w)) || is_empty credHash then ret kind
    else
      let* rec := attempt (on_keys (ResolveAPIKey credHash now)) in
      match rec with
      | Ok rec => ret (if is_empty (rec_KeyPrefix rec) then kind else rec_KeyPrefix rec)
      | Err _ => ret kind
      end).

(** A credential whose issue could not be audited is revoked again. *)
Definition revokeUnauditedHash (hash : string) (now : Z) : M world unit :=
  inspect (fun w =>
    if negb (hb_hasKeys (w_hub w)) || is_empty hash then ret tt
    else
      let* _ := attempt (on_keys (RevokeKeyHash hash now)) in
      invalidateHashes [hash] now).

Record cookie := { ck_Value : string; ck_MaxAge : Z; ck_HttpOnly : bool; ck_Secure : bool; ck_SameSiteStrict : bool }.
Definition setSessionCookie (r : request) (value : string) (maxAge : Z) : cookie :=
  {| ck_Value := value; ck_MaxAge := maxAge; ck_HttpOnly := true;
     ck_Secure := negb (loopbackSessionRequest trusted_proxies r) || requestIsHTTPS trusted_proxies r;
     ck_SameSiteStrict := true |}.

(** The cookies an answer sets, and its body. *)
Record answer (A : Type) := { an_cookies : list cookie; an_body : result reply A }.
Arguments an_cookies {A}. Arguments an_body {A}.
Definition reject {A : Type} (status : Z) (message : string) : M world (answer A) :=
  ret {| an_cookies := []; an_body := Err (Reply status message) |}.
Record sessionResponse := { sr_ClientName : string; sr_TenantID : string }.
(** The login body: not the request object, an object with something after
    it, or a request with its read token. *)
Inductive login_body := NotARequest | TrailingContent | ReadToken (token : string).
Definition drop_session (id : string) : M world unit :=
  modify (set_hub (fun h => set_sessions (delete id (hb_sessions h)) h)).

(** The session of a login: it ends with its credential. *)
Definition login_expires (rec : APIKeyRecord) (now : Z) : Z :=
  let expires := now + sessionTTL in
  if (0 <? credentialExpiryUnix (rec_ExpiresAt rec)) && Before (rec_ExpiresAt rec) expires
  then rec_ExpiresAt rec else expires.
Definition login_session (hash : string) (rec : APIKeyRecord) (now : Z) : sessionEntry :=
  {| se_credHash := hash; se_principal := principalFromRecord rec; se_clientName := rec_ClientName rec;
     se_expires := login_expires rec now |}.
(** Once the read token is resolved. *)
Definition session_create (r : request) (hash : string) (rec : APIKeyRecord) (hex : option string) (now : Z)
  : M world (answer sessionResponse) :=
  match hex with
  | None => reject 500 "failed to create session"
  | Some hex =>
      let id := newSessionID hex in
      let ent := login_session hash rec now in
      let* stored := on_hub (fun h => let '(ok, m) := session_put id ent now (hb_sessions h) in (ok, set_sessions m h)) in
      if negb stored then reject 503 "browser session capacity reached"
      else
        let* _ := match hr_Cookie r with Some old => drop_session old | None => ret tt end in
        let set := setSessionCookie r id (Z.max 1 (Sub (se_expires ent) now `quot` second)) in
        let* audited := attempt (recordAudit
          (session_event (rec_TenantID rec) (rec_Kind rec) (rec_KeyPrefix rec) "session.login") now) in
        match audited with
        | Err _ =>
            let* _ := drop_session id in
            ret {| an_cookies := [set; setSessionCookie r EmptyString (-1)];
                   an_body := Err (Reply 503 "audit unavailable") |}
        | Ok _ => ret {| an_cookies := [set];
                         an_body := Ok {| sr_ClientName := rec_ClientName rec; sr_TenantID := rec_TenantID rec |} |}
        end
  end.
(** [POST].  [hex] is the random part of the session id, [None] when the
    system has no randomness. *)
Definition session_login (r : request) (body : login_body) (hex : option string) (now : Z)
  : M world (answer sessionResponse) :=
  if negb (originOK trusted_proxies r) then reject 403 "cross-site request rejected"
  else
    let* allowed := on_hub (fun h => let '(ok, l) := allow ("login:" +:+ clientIP r) now (hb_login h) in (ok, set_login l h)) in
    if negb allowed then reject 429 "too many login attempts"
    else if negb (requestIsHTTPS trusted_proxies r) && negb (loopbackSessionRequest trusted_proxies r)
    then reject 403 "HTTPS is required for browser login"
    else match body with
    | NotARequest => reject 400 "invalid login request"
    | TrailingContent => reject 400 "exactly one JSON object is required"
    | ReadToken token =>
        if is_empty token || (1024 <? slen token) then reject 400 "read_token is required"
        else inspect (fun w =>
          if negb (hb_hasKeys (w_hub w)) then reject 503 "authentication unavailable"
          else
            let hash := HashAPIKey sha256hex token in
            let* rec := attempt (on_keys (ResolveAPIKey hash now)) in
            match rec with
            | Err _ => reject 401 "invalid read token"
            | Ok rec =>
                if rec_Revoked rec || expired (rec_ExpiresAt rec) now then reject 401 "invalid read token"
                else if negb (credentialPermits (rec_Kind rec) (rec_Scope rec) ScopeRead) ||
                        String.eqb (rec_Kind rec) KindAgent
                then reject 403 "token lacks browser read scope"
                else session_create r hash rec hex now
            end)
    end.

(** [DELETE] *)
Definition session_logout (r : request) (now : Z) : M world (answer unit) :=
  let done := ret {| an_cookies := [setSessionCookie r EmptyString (-1)]; an_body := Ok tt |} in
  if negb (originOK trusted_proxies r) then reject 403 "cross-site request rejected"
  else match hr_Cookie r with
  | None => done
  | Some id =>
      let* got := on_hub (fun h => let '(e, m) := session_get id now (hb_sessions h) in (e, set_sessions m h)) in
      match got with
      | None => let* _ := drop_session id in done
      | Some ent =>
          let p := se_principal ent in
          let* prefix := actorPrefix (pr_Kind p) (se_credHash ent) now in
          let* audited := attempt (recordAudit
            (session_event (pr_TenantID p) (pr_Kind p) prefix "session.logout") now) in
          match audited with
          | Err _ => reject 503 "audit unavailable"
          | Ok _ => let* _ := drop_session id in done
          end
      end
  end.
(** [GET] *)
Definition session_show (r : request) (now : Z) : M world (answer sessionResponse) :=
  let* ent := lookupSession r now in
  match ent with
  | None => reject 401 "no session"
  | Some ent => ret {| an_cookies := []; an_body := Ok {| sr_ClientName := se_clientName ent;
                                                          sr_TenantID := pr_TenantID (se_principal ent) |} |}
  end.
Definition with_body {A B : Type} (f : A -> B) (a : answer A) : answer B :=
  {| an_cookies := an_cookies a; an_body := let? x := an_body a in Ok (f x) |}.
(** A logout answers with no identity. *)
Definition handleSession (r : request) (body : login_body) (hex : option string) (now : Z)
  : M world (answer (option sessionResponse)) :=
  if String.eqb (hr_Method r) "GET" then let* a := session_show r now in ret (with_body Some a)
  else if String.eqb (hr_Method r) "POST" then let* a := session_login r body hex now in ret (with_body Some a)
  else if String.eqb (hr_Method r) "DELETE" then let* a := session_logout r now in ret (with_body (fun _ => None) a)
  else reject 405 "method not allowed".
End hub_operations.
Arguments an_cookies {A}.
Arguments an_body {A}.
