(* ===== verification/AuthProofs.v ===== *)
(** * Authentication is sound and revocations are prompt

    What an authorised request proves about the credential behind it, how a
    revocation anywhere reaches this hub's cache, and the capacity rules of
    browser sessions. *)

From S2P Require Export Auth.
Open Scope list_scope.
Open Scope Z_scope.

(** ** Announced revocations *)

(** Newly revoked credentials come with a move of the counter. *)
Definition announces (d d' : auth_db) : Prop :=
  t_epoch d <= t_epoch d' /\ forall hash, is_revoked hash d' -> is_revoked hash d \/ t_epoch d < t_epoch d'.
Definition quiet (d d' : auth_db) : Prop :=
  t_epoch d' = t_epoch d /\ forall hash, is_revoked hash d' -> is_revoked hash d.
Lemma quiet_announces d d' : quiet d d' -> announces d d'.
Proof. intros [He Hr]. split; [lia|]. intros h Hh. left. auto. Qed.
Lemma quiet_refl d : quiet d d.
Proof. by split. Qed.

Lemma update_quiet p f d :
  (forall k, k_key_hash (f k) = k_key_hash k) ->
  (forall k, k_revoked_at (f k) <> 0 -> k_revoked_at k <> 0) -> quiet d (update_keys p f d).2.
Proof.
  intros Hh Hr. split; [done|]. intros hash (k & Hk & He & Hn). simpl in Hk.
  apply list_elem_of_fmap in Hk as (k0 & -> & Hk0). exists k0. destruct (p k0); [|done].
  rewrite Hh in He. split; [done|]. split; [done|by apply Hr].
Qed.
Lemma insert_quiet `{Dialect} k d u d' : insert_key k d = Ok (u, d') -> k_revoked_at k = 0 -> quiet d d'.
Proof.
  unfold insert_key. destruct (existsb _ _); [done|]. intros [= _ <-] Hk. split; [done|].
  intros hash (k' & Hin & He & Hn). simpl in Hin. apply elem_of_app in Hin as [Hin|Hin%list_elem_of_singleton].
  - by exists k'.
  - subst k'. done.
Qed.


Definition is_revocation (o : auth_op) : bool :=
  match o with OpRevokeKey _ _ | OpRevokeHash _ _ | OpRevokeAgent _ _ _ => true | _ => false end.

Section announced.
Context `{Dialect}.

Lemma consume_quiet c now d k d' : consume_code c now d = Ok (k, d') -> quiet d d'.
Proof.
  unfold consume_code. destruct (List.find _ _); [|done]. intros [= _ <-]. by apply update_quiet.
Qed.
Lemma upsert_quiet k d u d' : upsert_key k d = Ok (u, d') -> k_revoked_at k = 0 -> quiet d d'.
Proof.
  unfold upsert_key. destruct (find_key _ _); [|by apply insert_quiet].
  destruct (existsb _ _); [done|]. intros [= _ <-] _. by apply update_quiet.
Qed.

(** A revocation that reports success was announced, and so is every
    credential another operation retires, even when its reply is lost. *)
Lemma revoke_where_announces p now d fs n d' fs' :
  revoke_where p now d fs = (Ok n, d', fs') -> announces d d'.
Proof.
  unfold revoke_where. intros Hr. inv_ok; unfold update_keys, bumpAuthEpoch in *; simplify_eq/=; bools.
  - split; simpl; [lia|]. intros hash _. right. lia.
  - apply quiet_announces. split; [done|]. intros hash (k & Hk & He & Hn). simpl in Hk.
    assert (Hnil : List.filter p (t_keys d) = []) by (destruct (List.filter p (t_keys d)); [done|simpl in *; lia]).
    apply list_elem_of_fmap in Hk as (k0 & -> & Hk0). exists k0.
    assert (Hp : p k0 = false).
    { destruct (p k0) eqn:E; [|done]. assert (k0 ∈ List.filter p (t_keys d)) as Hin by by apply filter_elem.
      rewrite Hnil in Hin. by apply not_elem_of_nil in Hin. }
    by rewrite Hp in *.
Qed.

Lemma issues_announces req now d r d' : issues req now d r d' -> announces d d'.
Proof.
  intros Hi%issues_spec. destruct Hi as (rec & _ & _ & _ & _ & He & _). split; [lia|]. intros hash _. right. lia.
Qed.

Lemma replace_announces tenant server token hash prefix now d fs r d' fs' :
  replace_tx tenant server token hash prefix now d fs = (Ok r, d', fs') -> announces d d'.
Proof.
  intros (_ & He & _)%replace_tx_ok. split; [lia|]. intros hash' _. right. lia.
Qed.

Lemma statement_quiet {A} (f : auth_db -> result error (A * auth_db)) d :
  (forall a d', f d = Ok (a, d') -> quiet d d') -> wp (statement f) (fun _ d' => quiet d d') d.
Proof. intros Hf. apply wp_statement; [intros; apply quiet_refl|]. intros a d' Ha. by split; [|intros]; eapply Hf. Qed.
Lemma quiet_trans d1 d2 d3 : quiet d1 d2 -> quiet d2 d3 -> quiet d1 d3.
Proof. intros [A1 A2] [B1 B2]. split; [lia|auto]. Qed.

Lemma wp_quiet_forget {A} (m : M auth_db A) d :
  wp m (fun _ d' => quiet d d') d -> wp (forget m) (fun _ d' => quiet d d') d.
Proof. intros Hm. apply wp_mbind. eapply wp_mono; [exact Hm|]. by intros [a|e] d' Hq; [apply wp_ret|]. Qed.

Lemma forget_inv {S A} (m : M S A) s fs r s' fs' :
  forget m s fs = (r, s', fs') -> exists r0, m s fs = (r0, s', fs') /\ is_ok r0 = is_ok r.
Proof.
  unfold forget, mbind, ret. destruct (m s fs) as [[[a|e] s1] fs1]; intros [= <- <- <-]; eauto.
Qed.

Lemma do_op_announces o d fs r d' fs' :
  do_op o d fs = (r, d', fs') -> (is_revocation o = true -> is_ok r = true) -> announces d d'.
Proof.
  intros Hrun Hok. assert (Hquiet : wp (do_op o) (fun _ d' => quiet d d') d -> announces d d').
  { intros Hw. apply quiet_announces, (wp_run _ _ _ _ _ _ _ Hw Hrun). }
  destruct o; simpl in *.
  - apply Hquiet, wp_quiet_forget. unfold ConsumeEnrollCode, no_rows_is.
    apply wp_mbind, wp_try. eapply wp_mono; [apply statement_quiet; intros k d1; apply consume_quiet|].
    intros [k|e] d1 Hq; [by apply wp_ret, wp_ret|by apply wp_fail].
  - apply Hquiet. unfold TouchAPIKey. apply wp_mbind. eapply wp_mono.
    { apply statement_quiet. intros n d1 [= _ <-]. by apply update_quiet. }
    intros [n|e] d1 Hq; [|done]. eapply wp_mono; [apply (statement_quiet _ d1)|].
    + intros u d2 [= _ <-]. by split.
    + intros u d2 Hq2. by eapply quiet_trans.
  - apply Hquiet. unfold UpsertAPIKey. destruct (_ || _); [apply wp_fail, quiet_refl|].
    destruct (_ || _); [apply wp_fail, quiet_refl|]. apply statement_quiet. intros u d1 Hu. by eapply upsert_quiet.
  - apply forget_inv in Hrun as (r0 & Hrun & Heq). rewrite <- Heq in Hok. specialize (Hok eq_refl).
    destruct r0; [|done]. by eapply revoke_where_announces.
  - apply forget_inv in Hrun as (r0 & Hrun & Heq). rewrite <- Heq in Hok. specialize (Hok eq_refl).
    destruct r0; [|done]. unfold RevokeKeyHash in Hrun. destruct (is_empty _); [done|]. by eapply revoke_where_announces.
  - apply forget_inv in Hrun as (r0 & Hrun & Heq). rewrite <- Heq in Hok. specialize (Hok eq_refl).
    destruct r0; [|done]. by eapply revoke_where_announces.
  - apply Hquiet, statement_quiet. intros u d1 [= _ <-]. by split.
  - apply forget_inv in Hrun as (r0 & Hrun & _). apply CompleteEnrollment_inv in Hrun as [[-> _]|[[-> _]|(_ & _ & res & Hi & _)]];
      [apply quiet_announces, quiet_refl..|]. by eapply issues_announces.
  - apply forget_inv in Hrun as (r0 & Hrun & _). unfold ReplaceAgent in Hrun. destruct (_ || _).
    { unfold fail in Hrun. simplify_eq. apply quiet_announces, quiet_refl. }
    apply transaction_inv in Hrun as [[-> _]|(a & fs1 & fs2 & Hrun & _)]; [apply quiet_announces, quiet_refl|].
    by eapply replace_announces.
Qed.
End announced.

(** ** Requests *)

(** What a successful [ResolveAPIKey] says of the table. *)
Definition resolves (hash : string) (now : Z) (d : auth_db) (rec : APIKeyRecord) : Prop :=
  exists k, find_key hash (t_keys d) = Some k /\ rec = scanAPIKey k /\ k_kind k <> KindEnroll /\
    k_revoked_at k = 0 /\ (k_expires_at k <= 0 \/ Unix now < k_expires_at k).

Lemma resolves_not_revoked hash now d rec : auth_ok d -> resolves hash now d rec -> ~ is_revoked hash d.
Proof.
  intros [Hu _] (k & Hf & _ & _ & Hr & _) (k' & Hin & Hh & Hn).
  apply find_key_Some in Hf as [Hk He]. assert (k = k') as <-; [|done].
  eapply unique_hash; eauto. congruence.
Qed.

(** No cache entry is ahead of the counter, and every cached acceptance of a
    credential revoked since is behind it. *)
Definition cache_sound (c : authCache) (d : auth_db) : Prop :=
  forall hash e, c !! hash = Some e ->
    ce_epoch e <= t_epoch d /\ (ce_valid e = true -> is_revoked hash d -> ce_epoch e < t_epoch d).
Record hub_ok (w : world) : Prop := {
  ho_auth : auth_ok (w_auth w);
  ho_cache : cache_sound (hb_cache (w_hub w)) (w_auth w);
  ho_epoch : hb_epoch (w_hub w) <= t_epoch (w_auth w)
}.

Section requests_proofs.
Context `{Unicode} `{Net} `{OriginParser} `{Dialect}.
Context (trusted_proxies : string) (sha256hex : string -> string).

Lemma wp_on_keys {A} (m : M auth_db A) (Q : result error A -> world -> Prop) w :
  wp m (fun r d => Q r {| w_hub := w_hub w; w_auth := d; w_audit := w_audit w |}) (w_auth w) -> wp (on_keys m) Q w.
Proof. intros Hm fs. specialize (Hm fs). unfold on_keys. by destruct (m (w_auth w) fs) as [[r d] fs']. Qed.
Lemma wp_on_hub {A} (f : hub -> A * hub) (Q : result error A -> world -> Prop) w :
  Q (Ok (f (w_hub w)).1) (set_hub (fun _ => (f (w_hub w)).2) w) -> wp (on_hub f) Q w.
Proof. intros HQ. apply wp_inspect, wp_mbind, wp_modify, wp_ret, HQ. Qed.
Lemma same_world w : {| w_hub := w_hub w; w_auth := w_auth w; w_audit := w_audit w |} = w.
Proof. by destruct w. Qed.

Lemma wp_Resolve hash now d :
  wp (ResolveAPIKey hash now) (fun r d' => d' = d /\ forall rec, r = Ok rec -> resolves hash now d rec) d.
Proof.
  unfold ResolveAPIKey, no_rows_is. apply wp_mbind, wp_try, wp_statement; [intros; by apply wp_fail|].
  intros k d' Hf. destruct (find_key hash (t_keys d)) as [k0|] eqn:E; [|done]. simplify_eq.
  split; [|intros; by apply wp_fail]. apply wp_ret. cbv zeta.
  destruct (String.eqb _ _) eqn:E1; [by apply wp_fail|]. destruct (rec_Revoked _) eqn:E2; [by apply wp_fail|].
  destruct ((0 <? _) && _) eqn:E3; [by apply wp_fail|]. destruct ((0 <? _) && (_ <=? rec_Uses _)); [by apply wp_fail|].
  apply wp_ret. split; [done|]. intros rec [= <-]. exists k. simpl in *. bools.
  split; [done|]. split; [done|]. split; [done|]. split; [done|]. destruct E3; bools; auto.
Qed.
Lemma wp_on_resolve hash now w (Q : result error APIKeyRecord -> world -> Prop) :
  (forall r, (forall rec, r = Ok rec -> resolves hash now (w_auth w) rec) -> Q r w) ->
  wp (on_keys (ResolveAPIKey hash now)) Q w.
Proof.
  intros HQ. apply wp_on_keys. eapply wp_mono; [apply wp_Resolve|]. intros r d [-> Hr].
  rewrite same_world. by apply HQ.
Qed.

(** Only browser sessions differ. *)
Definition same_keys (w w' : world) : Prop :=
  w_auth w' = w_auth w /\ hb_cache (w_hub w') = hb_cache (w_hub w) /\ hb_epoch (w_hub w') = hb_epoch (w_hub w).

(** The session a request carries: a live entry whose credential still
    stands, with the identity that credential has now. *)
Definition session_of (r : request) (now : Z) (w : world) (p : Principal) : Prop :=
  exists id e rec, hr_Cookie r = Some id /\ session_id_ok id = true /\
    hb_sessions (w_hub w) !! id = Some e /\ now < se_expires e /\
    resolves (se_credHash e) now (w_auth w) rec /\ session_stands e rec now = true /\
    p = principalFromRecord rec.

Lemma wp_lookupSession r now w :
  wp (lookupSession r now) (fun res w' => same_keys w w' /\
    forall ent, res = Ok (Some ent) -> session_of r now w (se_principal ent)) w.
Proof.
  assert (Hrefl : same_keys w w) by done.
  apply wp_inspect. destruct (hr_Cookie r) as [id|] eqn:Ec; [|by apply wp_ret].
  destruct (negb (session_id_ok id) || _) eqn:Eid; [by apply wp_ret|]. bools.
  apply wp_mbind, wp_on_hub. unfold session_get.
  destruct (hb_sessions (w_hub w) !! id) as [e|] eqn:Es; [|by apply wp_ret].
  destruct (Before now (se_expires e)) eqn:Eb; [|by apply wp_ret]. cbn [fst snd].
  apply wp_try, wp_on_resolve. intros [rec|err] Hrec; [|by apply wp_mbind, wp_modify, wp_ret].
  destruct (session_stands e rec now) eqn:Est; [|by apply wp_mbind, wp_modify, wp_ret].
  apply wp_ret. split; [done|]. intros ent [= <-]. unfold Before in Eb. bools.
  exists id, e, rec. split_and!; try done. by apply Hrec.
Qed.

Definition due (h : hub) (now : Z) : bool :=
  (hb_interval h =? 0) || IsZero (hb_refreshed h) || (hb_interval h <=? Sub now (hb_refreshed h)).

Lemma wp_currentAuthEpoch now w :
  wp (currentAuthEpoch now) (fun r w' => w_auth w' = w_auth w /\ hb_cache (w_hub w') = hb_cache (w_hub w) /\
    (hb_epoch (w_hub w) <= t_epoch (w_auth w) -> hb_epoch (w_hub w) <= hb_epoch (w_hub w')) /\
    forall ep, r = Ok ep -> ep = hb_epoch (w_hub w')) w.
Proof.
  apply wp_inspect. cbv zeta. apply wp_mbind.
  apply (wp_mono _ (fun _ w' => w_auth w' = w_auth w /\ hb_cache (w_hub w') = hb_cache (w_hub w) /\
    (hb_epoch (w_hub w) <= t_epoch (w_auth w) -> hb_epoch (w_hub w) <= hb_epoch (w_hub w')))).
  - unfold whenM. destruct (_ || _); [|by apply wp_ret].
    apply wp_inspect. destruct (hb_hasKeys (w_hub w)); [|by apply wp_ret].
    apply wp_try, wp_on_keys, wp_query; rewrite same_world; [intros; by apply wp_ret|].
    by apply wp_modify.
  - intros [u|err] w1 (Ha & Hc & Hle); [|done]. apply wp_inspect, wp_ret. split_and!; try done. by intros ep [= <-].
Qed.

(** A fresh cache entry, not older than [epoch]. *)
Definition cached_as (hash : string) (now epoch : Z) (c : authCache) (p : Principal) : Prop :=
  exists e, c !! hash = Some e /\ ce_valid e = true /\ p = ce_principal e /\
    now <= ce_expires e /\ expired (pr_ExpiresAt p) now = false /\ epoch <= ce_epoch e.
(** What stands behind an accepted key. *)
Definition key_of (hash : string) (now epoch : Z) (w : world) (p : Principal) : Prop :=
  cached_as hash now epoch (hb_cache (w_hub w)) p \/
  exists rec, resolves hash now (w_auth w) rec /\ p = principalFromRecord rec.

Lemma cache_put_sound hash e c d :
  cache_sound c d -> ce_epoch e <= t_epoch d -> (ce_valid e = true -> ~ is_revoked hash d) ->
  cache_sound (cache_put hash e c) d.
Proof.
  intros Hc Hle He hash' e'. unfold cache_put. destruct (_ <? _); intros [[<- <-]|[Hne Hl]]%lookup_insert_Some.
  - split; [done|]. intros Hv Hr. by destruct (He Hv).
  - by apply lookup_empty_Some in Hl.
  - split; [done|]. intros Hv Hr. by destruct (He Hv).
  - by eapply Hc.
Qed.
Lemma cache_delete_sound hash c d : cache_sound c d -> cache_sound (delete hash c) d.
Proof. intros Hc hash' e [_ Hl]%lookup_delete_Some. by apply Hc. Qed.

Lemma with_scope_ok p scope q : with_scope p scope = Ok q -> q = p /\ permits p scope = true.
Proof. unfold with_scope. destruct (permits p scope); [|done]. by intros [= <-]. Qed.

Lemma wp_auth_hash hash scope epoch now w :
  wp (auth_hash hash scope epoch now) (fun r w' => w_auth w' = w_auth w /\
    forall p, r = Ok (Ok p) -> permits p scope = true /\ key_of hash now epoch w p) w.
Proof.
  unfold auth_hash. cbv zeta. apply wp_mbind, wp_on_hub.
  destruct (cache_get hash epoch now (hb_cache (w_hub w))) as [[e|] c] eqn:E; cbn [fst snd].
  - destruct (ce_valid e) eqn:Ev; apply wp_ret; (split; [done|]); [|done].
    intros p [= Hp]. apply with_scope_ok in Hp as [-> Hp]. split; [done|]. left.
    unfold cache_get in E. repeat case_match; simplify_eq. unfold After in *. bools.
    eexists. split_and!; try done; lia.
  - apply wp_try, wp_on_resolve. intros [rec|err] Hrec.
    + specialize (Hrec rec eq_refl). apply wp_mbind, wp_modify, wp_mbind. unfold whenM, start_touch.
      destruct (permits (principalFromRecord rec) scope); [apply wp_modify|apply wp_ret]; apply wp_ret; (split; [done|]);
        intros p [= [-> Hp]%with_scope_ok]; (split; [done|]); right; by exists rec.
    + destruct (Is err ErrAPIKeyNotFound); [by apply wp_mbind, wp_modify, wp_ret|by apply wp_ret].
Qed.

Definition key_of_request (r : request) (now : Z) (w : world) (p : Principal) : Prop :=
  exists epoch, hb_epoch (w_hub w) <= epoch /\ key_of (HashAPIKey sha256hex (hr_XAPIKey r)) now epoch w p.

Lemma wp_auth_key presented scope now w : hb_epoch (w_hub w) <= t_epoch (w_auth w) ->
  wp (auth_key sha256hex presented scope now) (fun r w' => w_auth w' = w_auth w /\
    forall p, r = Ok (Ok p) -> permits p scope = true /\
      exists epoch, hb_epoch (w_hub w) <= epoch /\ key_of (HashAPIKey sha256hex presented) now epoch w p) w.
Proof.
  intros Hw. unfold auth_key. cbv zeta. apply wp_mbind. eapply wp_mono; [apply wp_currentAuthEpoch|].
  intros [epoch|err] w1 (Ha1 & Hc1 & Hle & Hep); [|done]. rewrite (Hep _ eq_refl).
  eapply wp_mono; [apply wp_auth_hash|]. intros r w2 (Ha2 & Hp). split; [congruence|].
  intros p Hr. destruct (Hp p Hr) as [Hs Hk]. split; [done|]. exists (hb_epoch (w_hub w1)). split; [auto|].
  unfold key_of in *. by rewrite Hc1, Ha1 in Hk.
Qed.

Lemma wp_authPrincipal r scope now w :
  hb_epoch (w_hub w) <= t_epoch (w_auth w) -> hb_hubMode (w_hub w) = true ->
  wp (authPrincipal trusted_proxies sha256hex r scope now) (fun res w' => w_auth w' = w_auth w /\
    forall p, res = Ok (Ok p) -> permits p scope = true /\ hr_QueryKey r = EmptyString /\
      ((hr_XAPIKey r <> EmptyString /\ key_of_request r now w p) \/
       (hr_XAPIKey r = EmptyString /\ (mutating (hr_Method r) = true -> originOK trusted_proxies r = true) /\
        session_of r now w p))) w.
Proof.
  intros Hw Hmode. apply wp_inspect. rewrite Hmode. cbn [negb].
  destruct (is_empty (hr_QueryKey r)) eqn:Eq; [|by apply wp_ret]. cbn [negb].
  assert (hr_QueryKey r = EmptyString) as Hq by by destruct (hr_QueryKey r).
  destruct (_ && _ && _ && _) eqn:Ecsrf; [by apply wp_ret|]. cbv zeta.
  destruct (is_empty (hr_XAPIKey r)) eqn:Ek.
  - assert (hr_XAPIKey r = EmptyString) as Hk by by destruct (hr_XAPIKey r).
    apply wp_mbind. eapply wp_mono; [apply wp_lookupSession|]. intros [[ent|]|err] w1 [Hsame Hent].
    + apply wp_ret. split; [apply Hsame|]. intros p [= Hp].
      apply with_scope_ok in Hp as [-> Hp]. split; [done|]. split; [done|]. right. split; [done|].
      specialize (Hent ent eq_refl). split; [|done]. intros Hm. destruct Hent as (id & e & rec & Hc & _).
      rewrite Hc, Hm in Ecsrf. simpl in Ecsrf. by apply negb_false_iff in Ecsrf.
    + apply wp_ret. split; [apply Hsame|done].
    + split; [apply Hsame|done].
  - destruct (negb (hb_hasKeys (w_hub w))); [by apply wp_ret|].
    eapply wp_mono; [by apply wp_auth_key|]. intros res w1 (Ha1 & Hp). split; [done|].
    intros p Hres. destruct (Hp p Hres) as [Hs Hk]. split; [done|]. split; [done|]. left. split; [|done].
    intros Hx. by rewrite Hx in Ek.
Qed.

(** ** Steps

    Everything the authentication code does to the hub's state is a sequence
    of these steps at one instant.  [K] are the hashes of the credentials it
    may leave a [TouchAPIKey] running for. *)

Inductive hub_step (K : string -> Prop) (now : Z) : world -> world -> Prop :=
| HsSessions m w : m ⊆ hb_sessions (w_hub w) -> hub_step K now w (set_hub (set_sessions m) w)
| HsDrop hash w : hub_step K now w (set_hub (fun h => set_cache (delete hash (hb_cache h)) h) w)
| HsPut hash e w :
    ce_epoch e = hb_epoch (w_hub w) -> ce_expires e <= now + authCacheTTL ->
    (ce_valid e = true -> exists rec, resolves hash now (w_auth w) rec /\ ce_principal e = principalFromRecord rec) ->
    hub_step K now w (set_hub (fun h => set_cache (cache_put hash e (hb_cache h)) h) w)
| HsRefresh w : hub_step K now w (set_hub (set_epoch (t_epoch (w_auth w)) now) w)
| HsTouch hash w : K hash -> hub_step K now w (set_hub (fun h => set_touches (hb_touches h ++ [hash]) h) w).
Definition steps (K : string -> Prop) (now : Z) : world -> world -> Prop := rtc (hub_step K now).

(** Whatever a step may leave running. *)
Definition any_touch : string -> Prop := fun _ => True.
(** The credential that the header of a request names. *)
Definition own_key (r : request) (hash : string) : Prop :=
  hr_XAPIKey r <> EmptyString /\ hash = HashAPIKey sha256hex (hr_XAPIKey r).
(** From any world, [m] takes such steps. *)
Definition stepwise {A} (K : string -> Prop) (now : Z) (m : M world A) : Prop := forall w, wp m (fun _ w' => steps K now w w') w.

Section any_steps.
Context (K : string -> Prop).

Lemma stepwise_ret {A} now (a : A) : stepwise K now (ret a).
Proof. intros w. by apply wp_ret. Qed.
Lemma stepwise_mbind {A B} now (m : M world A) (k : A -> M world B) :
  stepwise K now m -> (forall a, stepwise K now (k a)) -> stepwise K now (mbind m k).
Proof.
  intros Hm Hk w. apply wp_mbind. eapply wp_mono; [apply Hm|]. intros [a|e] w1 Hs; [|done].
  eapply wp_mono; [apply Hk|]. intros r w2 Hs2. by transitivity w1.
Qed.
Lemma stepwise_inspect {A} now (f : world -> M world A) : (forall w, stepwise K now (f w)) -> stepwise K now (inspect f).
Proof. intros Hf w. apply Hf. Qed.
Lemma stepwise_attempt {A} now (m : M world A) : stepwise K now m -> stepwise K now (attempt m).
Proof. intros Hm w. apply wp_attempt, Hm. Qed.
Lemma stepwise_modify now f : (forall w, hub_step K now w (f w)) -> stepwise K now (modify f).
Proof. intros Hf w. apply wp_modify, rtc_once, Hf. Qed.
Lemma stepwise_on_hub {A} now (f : hub -> A * hub) :
  (forall w, hub_step K now w (set_hub (fun h => (f h).2) w)) -> stepwise K now (on_hub f).
Proof. intros Hf w. apply wp_on_hub. apply rtc_once, Hf. Qed.
Lemma stepwise_resolve now hash now' : stepwise K now (on_keys (ResolveAPIKey hash now')).
Proof. intros w. apply wp_on_resolve. intros r _. apply rtc_refl. Qed.
Lemma HsSession_of now id w :
  hub_step K now w (set_hub (fun h => set_sessions (delete id (hb_sessions h)) h) w).
Proof. apply (HsSessions K now (delete id (hb_sessions (w_hub w)))), delete_subseteq. Qed.
Lemma session_get_subseteq id now m : (session_get id now m).2 ⊆ m.
Proof. unfold session_get. destruct (m !! id); [destruct (Before _ _); [done|]|]; apply delete_subseteq. Qed.
Lemma session_get_step now id now' w :
  hub_step K now w (set_hub (fun h => set_sessions (session_get id now' (hb_sessions h)).2 h) w).
Proof. apply (HsSessions K now (session_get id now' (hb_sessions (w_hub w))).2), session_get_subseteq. Qed.

Lemma sync_steps now : stepwise K now (syncAuthEpoch now).
Proof.
  intros w. apply wp_inspect. destruct (hb_hasKeys (w_hub w)); [|by apply wp_ret].
  apply wp_try, wp_on_keys, wp_query; rewrite same_world; [intros; by apply wp_ret|].
  apply wp_modify, rtc_once, HsRefresh.
Qed.
Lemma currentAuthEpoch_steps now : stepwise K now (currentAuthEpoch now).
Proof.
  apply stepwise_inspect. intros w. cbv zeta. apply stepwise_mbind.
  - unfold whenM. destruct (_ || _); [apply sync_steps|apply stepwise_ret].
  - intros _. apply stepwise_inspect. intros w'. apply stepwise_ret.
Qed.
Lemma invalidateHashes_steps now hashes : stepwise K now (invalidateHashes hashes now).
Proof.
  apply stepwise_mbind; [|intros _; apply sync_steps]. induction hashes as [|h hs IH]; [apply stepwise_ret|].
  apply stepwise_mbind; [|by intros _]. apply stepwise_modify. intros w. apply HsDrop.
Qed.
Lemma lookupSession_steps r now : stepwise K now (lookupSession r now).
Proof.
  apply stepwise_inspect. intros w. destruct (hr_Cookie r) as [id|]; [|apply stepwise_ret].
  destruct (_ || _); [apply stepwise_ret|]. apply stepwise_mbind.
  { apply stepwise_on_hub. intros w'. pose proof (session_get_step now id now w') as Hstep. unfold set_hub in *.
    by destruct (session_get _ _ _). }
  intros [ent|]; [|apply stepwise_ret]. apply stepwise_mbind; [apply stepwise_attempt, stepwise_resolve|].
  assert (Hdrop : stepwise K now (let* _ := modify (set_hub (fun h => set_sessions (delete id (hb_sessions h)) h)) in
    ret (None : option sessionEntry))).
  { apply stepwise_mbind; [|intros; apply stepwise_ret]. apply stepwise_modify. intros w'. apply HsSession_of. }
  intros [rec|err]; [|done]. destruct (session_stands _ _ _); [apply stepwise_ret|done].
Qed.
Lemma cacheDeadline_bound now t : cacheDeadline now t <= now + authCacheTTL.
Proof. unfold cacheDeadline, Before. destruct (_ && _) eqn:E; bools; lia. Qed.
Lemma cache_get_step now hash epoch w :
  steps K now w (set_hub (fun h => set_cache (cache_get hash epoch now (hb_cache h)).2 h) w) .
Proof.
  assert (Hsame : set_hub (fun h => set_cache (hb_cache h) h) w = w) by by destruct w as [[] ? ?].
  destruct (cache_get hash epoch now (hb_cache (w_hub w))) as [o c] eqn:E.
  unfold set_hub in *. rewrite E. cbn [snd] in *.
  unfold cache_get in E. repeat case_match; simplify_eq; try (rewrite Hsame; apply rtc_refl);
    apply rtc_once, HsDrop.
Qed.
Lemma wp_started now w0 hash (b : bool) {A} (a : A) w :
  K hash -> steps K now w0 w ->
  wp (let* _ := whenM b (start_touch hash) in ret a) (fun _ w' => steps K now w0 w') w.
Proof.
  intros HK Hw. apply wp_mbind. destruct b; [apply wp_modify|apply wp_ret]; apply wp_ret; [|done].
  eapply rtc_r; [exact Hw|]. by apply HsTouch.
Qed.
Lemma auth_hash_steps hash scope now w : K hash ->
  wp (auth_hash hash scope (hb_epoch (w_hub w)) now) (fun _ w' => steps K now w w') w.
Proof.
  intros HK. unfold auth_hash. cbv zeta. apply wp_mbind, wp_on_hub.
  pose proof (cache_get_step now hash (hb_epoch (w_hub w)) w) as Hget. revert Hget. unfold set_hub.
  destruct (cache_get _ _ _ _) as [[e|] c]; cbn [fst snd]; intros Hget.
  - destruct (ce_valid e); by apply wp_ret.
  - apply wp_try, wp_on_resolve. cbn [w_auth]. intros [rec|err] Hrec.
    + apply wp_mbind, wp_modify, wp_started; [done|]. eapply rtc_r; [exact Hget|].
      apply HsPut; [done|apply cacheDeadline_bound|]. intros _. exists rec. split; [by apply Hrec|done].
    + destruct (Is err ErrAPIKeyNotFound); [|by apply wp_ret].
      apply wp_mbind, wp_modify, wp_ret. eapply rtc_r; [exact Hget|]. apply HsPut; [done| |done].
      simpl. unfold authNegativeTTL, authCacheTTL, second. lia.
Qed.
Lemma authPrincipal_steps r scope now : (forall hash, own_key r hash -> K hash) ->
  stepwise K now (authPrincipal trusted_proxies sha256hex r scope now).
Proof.
  intros HK. apply stepwise_inspect. intros w. destruct (negb (hb_hubMode _)); [apply stepwise_ret|].
  destruct (negb (is_empty _)); [apply stepwise_ret|]. destruct (_ && _ && _ && _); [apply stepwise_ret|].
  cbv zeta. destruct (is_empty (hr_XAPIKey r)) eqn:Ek.
  - apply stepwise_mbind; [apply lookupSession_steps|]. intros [ent|]; apply stepwise_ret.
  - destruct (negb _); [apply stepwise_ret|]. intros w'. unfold auth_key. cbv zeta. apply wp_mbind.
    eapply wp_mono; [apply wp_conjoin; [apply currentAuthEpoch_steps|apply wp_currentAuthEpoch]|].
    intros [ep|err] w1 [Hs (_ & _ & _ & Hep)]; [|done]. rewrite (Hep _ eq_refl).
    eapply wp_mono; [apply auth_hash_steps|].
    { apply HK. split; [|done]. intros E. by rewrite E in Ek. }
    intros res w2 Hs2. by transitivity w1.
Qed.
End any_steps.

(** *** What a request leaves running *)

(** [w'] has the goroutines of [w] and new ones, for credentials in [K]. *)
Definition leaves (K : string -> Prop) (w w' : world) : Prop :=
  exists l, hb_touches (w_hub w') = hb_touches (w_hub w) ++ l /\ Forall K l.
Lemma leaves_same K w w' : hb_touches (w_hub w') = hb_touches (w_hub w) -> leaves K w w'.
Proof. intros E. exists []. by rewrite app_nil_r. Qed.
Lemma leaves_trans K w1 w2 w3 : leaves K w1 w2 -> leaves K w2 w3 -> leaves K w1 w3.
Proof.
  intros (l1 & E1 & H1') (l2 & E2 & H2'). exists (l1 ++ l2). rewrite E2, E1, <- app_assoc. by split; [|apply Forall_app].
Qed.
Lemma steps_leave K now w w' : steps K now w w' -> leaves K w w'.
Proof.
  induction 1 as [|w1 w2 w3 H12 _ IH]; [by apply leaves_same|]. eapply leaves_trans; [|exact IH].
  destruct H12; try by apply leaves_same. eexists [_]. split; [done|by constructor].
Qed.

(** The usage record of one credential, all that a touch may change: when its
    row was last used, and whether its handshakes are still there. *)
Record usage_only (hash : string) (d d' : auth_db) : Prop := {
  us_keys : Forall2 (fun k k' => k' = k \/ k_key_hash k = hash /\ exists t, k' = set_last_seen t k) (t_keys d) (t_keys d');
  us_handshakes : t_handshakes d' = t_handshakes d \/
    t_handshakes d' = List.filter (fun h => negb (String.eqb (h_key_hash h) hash)) (t_handshakes d);
  us_rest : t_next_id d' = t_next_id d /\ t_epoch d' = t_epoch d /\ t_epoch_at d' = t_epoch_at d
}.
Lemma usage_refl hash d : usage_only hash d d.
Proof. split; [|by left|done]. induction (t_keys d); constructor; auto. Qed.
Lemma wp_TouchAPIKey hash now d : wp (TouchAPIKey hash now) (fun _ d' => usage_only hash d d') d.
Proof.
  set (d1 := (update_keys (fun k => String.eqb (k_key_hash k) hash) (set_last_seen (Unix now)) d).2).
  assert (Hkeys : Forall2 (fun k k' => k' = k \/ k_key_hash k = hash /\ exists t, k' = set_last_seen t k) (t_keys d) (t_keys d1)).
  { subst d1. simpl. induction (t_keys d) as [|k ks IH]; constructor; [|exact IH].
    destruct (String.eqb_spec (k_key_hash k) hash); [right|left]; eauto. }
  unfold TouchAPIKey. apply wp_mbind, wp_exec; [intros; apply usage_refl| |intros; split; auto].
  apply wp_exec; [intros| |intros]; split; auto.
Qed.
Lemma wp_run_touch i now w :
  wp (run_touch i now) (fun res w' => res = Ok tt /\
    match hb_touches (w_hub w) !! i with
    | None => w' = w
    | Some hash => w_hub w' = set_touches (take i (hb_touches (w_hub w)) ++ drop (S i) (hb_touches (w_hub w))) (w_hub w) /\
        w_audit w' = w_audit w /\ usage_only hash (w_auth w) (w_auth w')
    end) w.
Proof.
  apply wp_inspect. destruct (hb_touches (w_hub w) !! i) as [hash|]; [|by apply wp_ret].
  apply wp_mbind, wp_modify, wp_try, wp_on_keys. eapply wp_mono; [apply wp_TouchAPIKey|].
  intros [[]|e] d Hd; by apply wp_ret.
Qed.

(** *** Authentication always answers *)

Lemma lookupSession_answers r now : answers (lookupSession r now).
Proof. unfold lookupSession, on_hub. answering. Qed.
Lemma authPrincipal_answers r scope now : answers (authPrincipal trusted_proxies sha256hex r scope now).
Proof.
  pose proof (lookupSession_answers r now).
  unfold authPrincipal, auth_key, auth_hash, start_touch, currentAuthEpoch, syncAuthEpoch, on_hub. answering.
Qed.
End requests_proofs.

(** ** Properties *)

(** C14. Who a request is.  At a hub, a request is accepted for a scope only
    when its credential permits that scope and no key came in the query; its
    identity is that of the key in its header, resolved now or cached within
    its deadline and its credential's lifetime, or, without a key, that of a
    live session whose credential still stands, and then a mutating request
    came from the hub's own origin. *)
Theorem authenticated_requests `{Unicode} `{Net} `{OriginParser} `{Dialect}
    trusted_proxies sha256hex r scope now w fs p w' fs' :
  hub_ok w -> hb_hubMode (w_hub w) = true ->
  authPrincipal trusted_proxies sha256hex r scope now w fs = (Ok (Ok p), w', fs') ->
  credentialPermits (pr_Kind p) (pr_Permissions p) scope = true /\ pr_Kind p <> KindEnroll /\
  (scope = ScopeAdmin -> pr_Kind p = KindAdmin) /\
  hr_QueryKey r = EmptyString /\
  ((hr_XAPIKey r <> EmptyString /\ key_of_request sha256hex r now w p) \/
   (hr_XAPIKey r = EmptyString /\ (mutating (hr_Method r) = true -> originOK trusted_proxies r = true) /\
    session_of r now w p)).
Proof.
  intros Hok Hmode Hrun.
  destruct (wp_run _ _ _ _ _ _ _ (wp_authPrincipal trusted_proxies sha256hex r scope now w (ho_epoch _ Hok) Hmode) Hrun)
    as (_ & Hp). destruct (Hp p eq_refl) as (Hs & Hq & Hid). split; [exact Hs|].
  unfold permits, credentialPermits in Hs.
  destruct (String.eqb_spec (pr_Kind p) KindEnroll); [done|]. split; [done|].
  destruct (String.eqb_spec (pr_Permissions p) ScopeEnroll); [done|]. split; [|done].
  intros ->. simpl in Hs. by apply andb_true_iff in Hs as [?%String.eqb_eq _].
Qed.

(** What happens around a hub: its requests, the changes anyone makes to the
    credential table, and the invalidations its own handlers make. *)
Inductive hub_event :=
| EvRequest (r : request) (scope : string) (now : Z)
| EvChange (o : auth_op)
| EvInvalidate (hashes : list string) (now : Z).

Section hub_history.
Context `{Unicode} `{Net} `{OriginParser} `{Dialect}.
Context (trusted_proxies : string) (sha256hex : string -> string).

Definition do_event (e : hub_event) : M world unit :=
  match e with
  | EvRequest r scope now => let* _ := authPrincipal trusted_proxies sha256hex r scope now in ret tt
  | EvChange o => on_keys (do_op o)
  | EvInvalidate hashes now => invalidateHashes hashes now
  end.
Fixpoint run_hub (es : list (hub_event * faults)) (w : world) : world :=
  match es with
  | [] => w
  | (e, fs) :: es' => run_hub es' (run_state (do_event e) w fs)
  end.
(** The history ran at admissible times with admissible outcomes of the
    operations on the table. *)
Fixpoint allowed (time_ok : Z -> Prop) (op_ok : auth_op -> result error unit -> Prop)
    (es : list (hub_event * faults)) (w : world) : Prop :=
  match es with
  | [] => True
  | (e, fs) :: es' =>
      match e with
      | EvRequest _ _ now | EvInvalidate _ now => time_ok now
      | EvChange o => op_ok o (run_result (do_event e) w fs)
      end /\ allowed time_ok op_ok es' (run_state (do_event e) w fs)
  end.
(** The hub ran until [T], and every revocation reported success. *)
Definition ran_until (T : Z) : list (hub_event * faults) -> world -> Prop :=
  allowed (fun now => now <= T) (fun o r => is_revocation o = true -> is_ok r = true).

Lemma announces_sound c d d' : announces d d' -> cache_sound c d -> cache_sound c d'.
Proof.
  intros [Hle Hr] Hc hash e Hl. destruct (Hc hash e Hl) as [Hb Hv]. split; [lia|]. intros Hval Hrev.
  destruct (Hr _ Hrev) as [Hold|Hlt]; [specialize (Hv Hval Hold)|]; lia.
Qed.

(** *** Invariants along a history *)

Definition with_auth (d : auth_db) (w : world) : world :=
  {| w_hub := w_hub w; w_auth := d; w_audit := w_audit w |}.

(** What an invariant of the hub has to survive. *)
Lemma run_hub_inv (P : world -> Prop) time_ok op_ok es w :
  (forall now w w', time_ok now -> hub_step any_touch now w w' -> P w -> P w') ->
  (forall o w fs r d' fs', do_op o (w_auth w) fs = (r, d', fs') -> op_ok o r -> P w -> P (with_auth d' w)) ->
  allowed time_ok op_ok es w -> P w -> P (run_hub es w).
Proof.
  intros Hstep Hop. revert w. induction es as [|[e fs] es IH]; intros w; [done|]. intros [Hok Hrest] Hw.
  apply IH; [exact Hrest|]. clear Hrest IH.
  assert (Hsteps : forall now w', time_ok now -> steps any_touch now w w' -> P w').
  { intros now w' Hn Hs. revert Hw. clear Hok. induction Hs as [w0|w0 w1 w2 H01 _ IHs]; eauto. }
  destruct e as [r scope now|o|hashes now]; simpl in Hok |- *.
  - apply (Hsteps now); [done|]. apply (wp_run_state _ (steps any_touch now w)).
    apply stepwise_mbind; [by apply authPrincipal_steps|intros _; apply stepwise_ret].
  - unfold run_state, run_result, on_keys in *.
    destruct (do_op o (w_auth w) fs) as [[r d'] fs'] eqn:E. by eapply Hop.
  - apply (Hsteps now); [done|]. apply (wp_run_state _ (steps any_touch now w)), invalidateHashes_steps.
Qed.

Lemma hub_step_auth K now w w' : hub_step K now w w' -> w_auth w' = w_auth w.
Proof. by destruct 1. Qed.

(** The settings of a hub do not change. *)
Definition config (w : world) : bool * bool * Z :=
  (hb_hubMode (w_hub w), hb_hasKeys (w_hub w), hb_interval (w_hub w)).
Lemma run_hub_config time_ok op_ok es w : allowed time_ok op_ok es w -> config (run_hub es w) = config w.
Proof.
  intros Ha. apply (run_hub_inv (fun w' => config w' = config w) time_ok op_ok es w); [|done|done|done].
  intros now w1 w2 _ Hs <-. by destruct Hs.
Qed.

(** Nothing the hub holds comes from after [T]. *)
Record until (T : Z) (w : world) : Prop := {
  un_ok : hub_ok w;
  un_refreshed : hb_refreshed (w_hub w) <= T;
  un_cached : forall hash e, hb_cache (w_hub w) !! hash = Some e -> ce_expires e <= T + authCacheTTL
}.
Lemma cache_put_lookup hash e c hash' e' :
  cache_put hash e c !! hash' = Some e' -> hash' = hash /\ e' = e \/ c !! hash' = Some e'.
Proof.
  unfold cache_put. destruct (_ <? _); intros [[<- <-]|[_ Hl]]%lookup_insert_Some; auto.
  by apply lookup_empty_Some in Hl.
Qed.
Lemma hub_step_ok K now w w' : hub_step K now w w' -> hub_ok w -> hub_ok w'.
Proof.
  intros Hs [O1 O2 O3]. destruct Hs as [m w Hm|hash w|hash e w He Hx Hv|w|hash w HK]; split; simpl; try done.
  - by apply cache_delete_sound.
  - apply cache_put_sound; [done|by rewrite He|]. intros (rec & Hrec & _)%Hv. by eapply resolves_not_revoked.
Qed.
Lemma run_until T es w : ran_until T es w -> until T w -> until T (run_hub es w).
Proof.
  intros Hran. refine (run_hub_inv _ _ _ es w _ _ Hran).
  - intros now w1 w2 Hnow Hs [U1 U2 U3]. split; [by eapply hub_step_ok| |].
    + destruct Hs; simpl in *; lia.
    + destruct Hs as [m w1 Hm|hash w1|hash e w1 He Hx Hv|w1|hash w1 HK]; simpl; [exact U3| | |exact U3|exact U3]; intros hash' e'.
      * intros [_ Hl]%lookup_delete_Some. by eapply U3.
      * intros [[-> ->]|Hl]%cache_put_lookup; [lia|by eapply U3].
  - intros o w1 fs r d' fs' Hop Hok [[O1 O2 O3] U2 U3]. split; [|done|done].
    pose proof (do_op_announces o _ _ _ _ _ Hop Hok) as Han. split; simpl.
    + pose proof (do_op_ok o (w_auth w1) fs O1) as Hok'. unfold run_state in Hok'. by rewrite Hop in Hok'.
    + by eapply announces_sound.
    + destruct Han. lia.
Qed.

(** A credential revoked by [T], when the counter stood at [E]. *)
Record dead (hash : string) (T E : Z) (w : world) : Prop := {
  de_ok : auth_ok (w_auth w);
  de_revoked : is_revoked hash (w_auth w);
  de_epoch : E <= t_epoch (w_auth w);
  de_cached : forall e, hb_cache (w_hub w) !! hash = Some e -> ce_valid e = true ->
                ce_epoch e < E /\ ce_expires e <= T + authCacheTTL;
  de_refreshed : hb_refreshed (w_hub w) <= T \/ E <= hb_epoch (w_hub w)
}.
Lemma epoch_stable E : stable (fun d => E <= t_epoch d).
Proof.
  split; try done.
  - intros ???????? d' _ Hi Hd. unfold insert_key in Hi. destruct (existsb _ _); [done|]. by simplify_eq.
  - intros now d Hd. simpl. lia.
Qed.
Lemma do_op_epoch E o : preserves (fun d => E <= t_epoch d) (do_op o).
Proof.
  apply do_op_preserves; [apply epoch_stable|]. intros rec now _. unfold UpsertAPIKey. preserve.
  apply preserves_statement. intros d [] d' Hd Hi. unfold upsert_key, insert_key in Hi.
  repeat case_match; by simplify_eq.
Qed.
Lemma run_dead hash T E es w :
  allowed (fun _ => True) (fun _ _ => True) es w -> dead hash T E w -> dead hash T E (run_hub es w).
Proof.
  intros Ha. refine (run_hub_inv _ _ _ es w _ _ Ha).
  - intros now w1 w2 _ Hs [D1 D2 D3 D4 D5]. pose proof (hub_step_auth _ _ _ _ Hs) as Heq.
    split; rewrite ?Heq; [done|done|done| |].
    + destruct Hs as [m w1 Hm|hash' w1|hash' e w1 He Hx Hv|w1|hash' w1 HK]; simpl in *; [exact D4| | |exact D4|exact D4]; intros e'.
      * intros [_ Hl]%lookup_delete_Some. by apply D4.
      * intros [[-> ->]|Hl]%cache_put_lookup; [|by apply D4]. intros (rec & Hrec & _)%Hv.
        by destruct (resolves_not_revoked _ _ _ _ D1 Hrec).
    + destruct Hs; simpl in *; try done. by right.
  - intros o w1 fs r d' fs' Hop _ [D1 D2 D3 D4 D5].
    assert (Hpres : forall P : auth_db -> Prop, preserves P (do_op o) -> P (w_auth w1) -> P d').
    { intros P HP Hw1. specialize (HP _ fs Hw1). unfold run_state in HP. by rewrite Hop in HP. }
    split; simpl; [| | |done|done].
    + apply (Hpres _ (do_op_ok o) D1).
    + apply (Hpres _ (do_op_revoked hash o) D2).
    + apply (Hpres _ (do_op_epoch E o) D3).
Qed.
Lemma any_history es w : allowed (fun _ => True) (fun _ _ => True) es w.
Proof. revert w. induction es as [|[e fs] es IH]; intros w; [done|]. split; [by destruct e|apply IH]. Qed.

(** A dead credential is not accepted once its cached acceptances are behind
    the counter or past their deadline. *)
Lemma dead_refused hash T E epoch now w p :
  dead hash T E w -> E <= epoch \/ T + authCacheTTL < now -> ~ key_of hash now epoch w p.
Proof.
  intros [D1 D2 D3 D4 D5] Hor [(e & Hl & Hv & _ & Hx & _ & Hep)|(rec & Hrec & _)].
  - destruct (D4 e Hl Hv). lia.
  - by destruct (resolves_not_revoked _ _ _ _ D1 Hrec).
Qed.

(** A due refresh that the store answers brings the counter up to date. *)
Lemma fresh_epoch E now w :
  hb_hasKeys (w_hub w) = true -> E <= t_epoch (w_auth w) ->
  due (w_hub w) now = true \/ E <= hb_epoch (w_hub w) ->
  exists ep w', currentAuthEpoch now w [] = (Ok ep, w', []) /\ E <= ep.
Proof.
  intros Hk HE Hdue. unfold currentAuthEpoch, inspect. fold (due (w_hub w) now). unfold mbind, whenM.
  destruct (due (w_hub w) now).
  - unfold syncAuthEpoch, inspect. rewrite Hk. do 2 eexists. split; [reflexivity|exact HE].
  - destruct Hdue as [?|Hdue]; [done|]. do 2 eexists. split; [reflexivity|exact Hdue].
Qed.

(** An accepted key in a header, and the counter it was checked against. *)
Lemma accepted_key r scope now w fs p w' fs' :
  hb_hubMode (w_hub w) = true -> hr_XAPIKey r <> EmptyString ->
  authPrincipal trusted_proxies sha256hex r scope now w fs = (Ok (Ok p), w', fs') ->
  hb_hasKeys (w_hub w) = true /\ exists ep w1 fs1, currentAuthEpoch now w fs = (Ok ep, w1, fs1) /\
    key_of (HashAPIKey sha256hex (hr_XAPIKey r)) now ep w p.
Proof.
  intros Hmode Hkey. assert (is_empty (hr_XAPIKey r) = false) as Hne by by destruct (hr_XAPIKey r).
  unfold authPrincipal, inspect. rewrite Hmode, Hne. cbn [negb andb].
  destruct (is_empty (hr_QueryKey r)); [|done]. destruct (hb_hasKeys (w_hub w)); [|done]. cbn [negb]. cbv zeta.
  intros (ep & w1 & fs1 & He & Hh)%mbind_ok. split; [done|]. exists ep, w1, fs1. split; [done|].
  destruct (wp_run _ _ _ _ _ _ _ (wp_currentAuthEpoch now w) He) as (Ha & Hc & _).
  destruct (wp_run _ _ _ _ _ _ _ (wp_auth_hash _ scope ep now w1) Hh) as (_ & Hp).
  destruct (Hp p eq_refl) as [_ Hk]. unfold key_of in *. by rewrite Ha, Hc in Hk.
Qed.
End hub_history.

(** C15. Revocations are prompt.  Take a hub that ran until [T], any sequence
    of requests, invalidations and changes of the credential table by anyone,
    every revocation among them reporting success; let a credential stand
    revoked then, and let anything happen afterwards.  From [T] plus the refresh
    interval on, a request with that credential's key is refused if the store
    answers; and from [T] plus the cache's sixty seconds on it is refused
    whatever the store does. *)
Theorem revocation_is_prompt `{Unicode} `{Net} `{OriginParser} `{Dialect}
    trusted_proxies sha256hex r scope hash T now w0 es1 es2 fs p w' fs' :
  until T w0 -> ran_until trusted_proxies sha256hex T es1 w0 ->
  let w1 := run_hub trusted_proxies sha256hex es1 w0 in
  let w2 := run_hub trusted_proxies sha256hex es2 w1 in
  is_revoked hash (w_auth w1) -> hb_hubMode (w_hub w0) = true ->
  hr_XAPIKey r <> EmptyString -> HashAPIKey sha256hex (hr_XAPIKey r) = hash ->
  hb_interval (w_hub w0) <= max_int64 ->
  T + hb_interval (w_hub w0) <= now /\ fs = [] \/ T + authCacheTTL < now ->
  authPrincipal trusted_proxies sha256hex r scope now w2 fs <> (Ok (Ok p), w', fs').
Proof.
  intros Hu Hran w1 w2 Hrev Hmode Hkey Hhash Hint Hwhen Hrun.
  pose proof (run_until _ _ T es1 w0 Hran Hu) as [[U1 U2 U3] U4 U5]. fold w1 in U1, U2, U3, U4, U5.
  assert (Hdead : dead hash T (t_epoch (w_auth w1)) w2).
  { apply run_dead; [apply any_history|]. split; [done|done|done| |by left].
    intros e Hl Hv. split; [by apply (U2 hash e)|by eapply U5]. }
  assert (Hcfg : config w2 = config w0).
  { unfold w2. rewrite (run_hub_config _ _ _ _ _ _ (any_history _ _ _ _)). by eapply run_hub_config. }
  unfold config in Hcfg. simplify_eq. rewrite <- H3 in *.
  destruct (accepted_key _ _ r scope now w2 fs p w' fs' ltac:(congruence) Hkey Hrun) as (Hk & ep & w3 & fs3 & Hep & Hacc).
  revert Hacc. apply (dead_refused _ T (t_epoch (w_auth w1))); [done|].
  destruct Hwhen as [[Hnow ->]|Hnow]; [left|by right].
  destruct (fresh_epoch (t_epoch (w_auth w1)) now w2 Hk ltac:(apply Hdead)) as (ep' & w4 & Hep' & Hle).
  - destruct Hdead as [_ _ _ _ [Hr|He]]; [left|by right]. unfold due. apply orb_true_iff. right.
    apply Z.leb_le. unfold Sub, min_int64, max_int64 in *. lia.
  - congruence.
Qed.

(** ** Browser sessions *)

Definition sessions_of (hash : string) (m : gmap string sessionEntry) : gmap string sessionEntry := filter (same_credential hash) m.
(** The capacity rules of the store. *)
Definition store_ok (m : gmap string sessionEntry) : Prop :=
  Z.of_nat (size m) <= maxSessions /\ forall hash, Z.of_nat (size (sessions_of hash m)) <= maxCredentialSessions.

Lemma oldest_session_spec l best p :
  oldest_session l best = Some p ->
  (p ∈ l \/ best = Some p) /\
  (forall q, q ∈ l \/ best = Some q -> se_expires p.2 <= se_expires q.2).
Proof.
  revert best. induction l as [|x l IH]; intros best; simpl.
  - intros ->. split; [by right|]. intros q [Hq|[= <-]]; [by apply not_elem_of_nil in Hq|lia].
  - intros [Hp Hle]%IH. destruct best as [b|].
    + unfold Before in *. destruct (Z.ltb_spec (se_expires x.2) (se_expires b.2)).
      * split; [destruct Hp as [?|[= <-]]; [left; set_solver|left; set_solver]|].
        pose proof (Hle x (or_intror eq_refl)). intros q [[->|Hq]%elem_of_cons|[= <-]]; [lia|auto|lia].
      * split; [destruct Hp as [?|?]; [left; set_solver|by right]|].
        pose proof (Hle b (or_intror eq_refl)). intros q [[->|Hq]%elem_of_cons|[= <-]]; [lia|auto|lia].
    + split; [destruct Hp as [?|[= <-]]; left; set_solver|].
      intros q [[->|Hq]%elem_of_cons|?]; [apply (Hle x); by right|apply Hle; by left|done].
Qed.
Lemma oldest_session_None l best : oldest_session l best = None -> l = [] /\ best = None.
Proof.
  revert best. induction l as [|x l IH]; intros best; simpl; [done|]. intros [-> Hb]%IH.
  destruct best as [b|]; [by destruct (Before _ _)|done].
Qed.

Section session_store.
Implicit Types m : gmap string sessionEntry.

Lemma sessions_of_list hash m :
  map_to_list (sessions_of hash m) ≡ₚ filter (same_credential hash) (map_to_list m).
Proof.
  apply NoDup_Permutation.
  - apply NoDup_map_to_list.
  - apply NoDup_filter, NoDup_map_to_list.
  - intros [i e]. rewrite list_elem_of_filter, !elem_of_map_to_list. unfold sessions_of.
    rewrite map_lookup_filter_Some. tauto.
Qed.
Lemma sessions_of_length hash m :
  length (filter (same_credential hash) (map_to_list m)) = size (sessions_of hash m).
Proof. by rewrite <- length_map_to_list, sessions_of_list. Qed.

Lemma sessions_of_subseteq hash m m' : m' ⊆ m -> (size (sessions_of hash m') <= size (sessions_of hash m))%nat.
Proof.
  intros Hs. apply map_subseteq_size, map_subseteq_spec. intros i e [Hl Hc]%map_lookup_filter_Some.
  apply map_lookup_filter_Some. split; [by eapply map_subseteq_spec in Hl|done].
Qed.
Lemma store_ok_subseteq m m' : m' ⊆ m -> store_ok m -> store_ok m'.
Proof.
  intros Hs [Hm Hc]. pose proof (map_subseteq_size _ _ Hs). split; [lia|]. intros hash. specialize (Hc hash).
  pose proof (sessions_of_subseteq hash _ _ Hs). lia.
Qed.
Lemma sessions_of_insert hash id ent m :
  (size (sessions_of hash (<[id := ent]> m)) <=
   size (sessions_of hash m) + (if decide (se_credHash ent = hash) then 1 else 0))%nat.
Proof.
  unfold sessions_of. rewrite map_filter_insert. unfold same_credential at 1 2. cbn [snd].
  destruct (decide (se_credHash ent = hash)).
  - rewrite map_size_insert. destruct (filter _ m !! id); unfold Datatypes.id; lia.
  - rewrite map_filter_delete, Nat.add_0_r. apply map_subseteq_size, delete_subseteq.
Qed.
Lemma sessions_of_delete hash id e m :
  m !! id = Some e -> se_credHash e = hash ->
  S (size (sessions_of hash (delete id m))) = size (sessions_of hash m).
Proof.
  intros Hl He. assert (Hin : sessions_of hash m !! id = Some e) by by apply map_lookup_filter_Some.
  unfold sessions_of in *. rewrite map_filter_delete, map_size_delete, Hin.
  assert (size (filter (same_credential hash) m) <> 0%nat); [|lia].
  intros Hz%map_size_empty_inv. by rewrite Hz, lookup_empty in Hin.
Qed.

(** The session that makes room for a new one of its credential. *)
Definition evict (hash : string) (m : gmap string sessionEntry) : gmap string sessionEntry :=
  let own := filter (same_credential hash) (map_to_list m) in
  if maxCredentialSessions <=? Z.of_nat (length own)
  then match oldest_session own None with Some p => delete p.1 m | None => m end
  else m.
Lemma evict_subseteq hash m : evict hash m ⊆ m.
Proof. unfold evict. cbv zeta. destruct (_ <=? _); [|done]. destruct (oldest_session _ _); [apply delete_subseteq|done]. Qed.
Lemma evict_room hash m :
  Z.of_nat (size (sessions_of hash m)) <= maxCredentialSessions ->
  Z.of_nat (size (sessions_of hash (evict hash m))) < maxCredentialSessions.
Proof.
  intros Hm. unfold evict. cbv zeta. rewrite sessions_of_length.
  destruct (Z.leb_spec maxCredentialSessions (Z.of_nat (size (sessions_of hash m)))); [|done].
  destruct (oldest_session _ None) as [[i e]|] eqn:E.
  - apply oldest_session_spec in E as [[[Hc Hin]%list_elem_of_filter|?] _]; [|done].
    apply elem_of_map_to_list in Hin. pose proof (sessions_of_delete hash i e m Hin Hc). cbn [fst]. lia.
  - apply oldest_session_None in E as [E _]. rewrite <- sessions_of_length, E in *. simpl in *.
    unfold maxCredentialSessions in *. lia.
Qed.
(** Whatever is evicted belongs to the credential and expires no later than
    any other session of it. *)
Lemma evict_lost hash m i e :
  m !! i = Some e -> evict hash m !! i = None ->
  se_credHash e = hash /\ (forall j e', m !! j = Some e' -> se_credHash e' = hash -> se_expires e <= se_expires e') /\
  evict hash m = delete i m /\ maxCredentialSessions <= Z.of_nat (size (sessions_of hash m)).
Proof.
  unfold evict. cbv zeta. rewrite sessions_of_length. intros Hl.
  destruct (Z.leb_spec maxCredentialSessions (Z.of_nat (size (sessions_of hash m)))); [|congruence].
  destruct (oldest_session _ None) as [[i0 e0]|] eqn:E; [|congruence]. cbn [fst].
  apply oldest_session_spec in E as [[[Hc Hin]%list_elem_of_filter|?] Hmin]; [|done].
  apply elem_of_map_to_list in Hin. intros [->|?]%lookup_delete_None; [|congruence]. simplify_eq.
  split; [done|]. split; [|done]. intros j e' Hj He'.
  apply (Hmin (j, e')). left. by rewrite list_elem_of_filter, elem_of_map_to_list.
Qed.

Lemma session_put_eq id ent now m :
  let live := filter (session_live now) m in
  let m1 := evict (se_credHash ent) live in
  session_put id ent now m =
  if maxSessions <=? Z.of_nat (size m1) then (false, m1) else (true, <[id := ent]> m1).
Proof. done. Qed.
Lemma live_lookup now m i e : filter (session_live now) m !! i = Some e <-> m !! i = Some e /\ now < se_expires e.
Proof. by rewrite map_lookup_filter_Some. Qed.
Lemma store_ok_insert id ent m :
  Z.of_nat (size m) < maxSessions -> store_ok m ->
  Z.of_nat (size (sessions_of (se_credHash ent) m)) < maxCredentialSessions -> store_ok (<[id := ent]> m).
Proof.
  intros Hm [_ Hc] Hroom. split.
  - rewrite map_size_insert. destruct (m !! id); unfold Datatypes.id; lia.
  - intros hash. pose proof (sessions_of_insert hash id ent m). specialize (Hc hash).
    destruct (decide (se_credHash ent = hash)) as [<-|]; lia.
Qed.
End session_store.

(** C26. Browser sessions have bounded numbers and fair eviction.  Storing a
    session keeps the store within 4096 sessions, five for a credential; a live
    session is lost only to a sixth one of its own credential, and then it is
    the one among them that expires first and no other is lost; storing fails
    only when the store is full of live sessions, and then none is lost. *)
Theorem sessions_bounded_and_fair id ent now (m m' : gmap string sessionEntry) ok :
  store_ok m -> session_put id ent now m = (ok, m') ->
  let live := filter (session_live now) m in
  store_ok m' /\
  (if ok then m' !! id = Some ent else m' = live /\ Z.of_nat (size live) = maxSessions) /\
  (forall i e, i <> id -> m' !! i = Some e -> live !! i = Some e) /\
  (forall i e, i <> id -> live !! i = Some e -> m' !! i = None ->
    ok = true /\ se_credHash e = se_credHash ent /\
    Z.of_nat (size (sessions_of (se_credHash ent) live)) = maxCredentialSessions /\
    forall j e', j <> i -> live !! j = Some e' ->
      (se_credHash e' = se_credHash ent -> se_expires e <= se_expires e') /\ (j = id \/ m' !! j = Some e')).
Proof.
  intros Hok Hput live. pose proof (session_put_eq id ent now m) as Heq. cbv zeta in Heq. rewrite Heq in Hput.
  fold live in Hput. clear Heq.
  assert (Hlive : store_ok live) by (eapply store_ok_subseteq; [apply map_filter_subseteq|done]).
  pose proof (evict_subseteq (se_credHash ent) live) as Hsub. pose proof (store_ok_subseteq _ _ Hsub Hlive) as Hev.
  pose proof (evict_room (se_credHash ent) live (proj2 Hlive _)) as Hroom.
  pose proof (evict_lost (se_credHash ent) live) as Hlost.
  assert (Hkept : forall i e, evict (se_credHash ent) live !! i = Some e -> live !! i = Some e)
    by (intros i e Hi; by eapply map_subseteq_spec in Hi).
  revert Hput. destruct (Z.leb_spec maxSessions (Z.of_nat (size (evict (se_credHash ent) live)))); intros [= <- <-].
  - assert (Hsame : evict (se_credHash ent) live = live).
    { apply map_eq. intros i. destruct (evict _ live !! i) as [e|] eqn:Ei; [symmetry; by apply Hkept|].
      destruct (live !! i) as [e|] eqn:El; [|done]. exfalso.
      destruct (Hlost i e El Ei) as (_ & _ & Hd & _). rewrite Hd, map_size_delete, El in H.
      destruct Hlive as [Hl _]. assert (size live <> 0%nat); [|lia].
      intros Hz%map_size_empty_inv. by rewrite Hz, lookup_empty in El. }
    rewrite Hsame in *. destruct Hlive as [Hl Hc]. split; [done|]. split; [split; [done|lia]|].
    split; [auto|]. intros i e _ Hi Hn. congruence.
  - split; [by apply store_ok_insert|]. split; [by rewrite lookup_insert_eq|]. split.
    + intros i e Hne. rewrite lookup_insert_ne by done. apply Hkept.
    + intros i e Hne Hi. rewrite lookup_insert_ne by done. intros Hn.
      destruct (Hlost i e Hi Hn) as (Hc & Hmin & Hd & Hsz). split; [done|]. split; [done|].
      split; [pose proof (proj2 Hlive (se_credHash ent)); lia|].
      intros j e' Hj Hl. split; [intros; by eapply Hmin|]. destruct (decide (j = id)); [by left|right].
      rewrite lookup_insert_ne, Hd, lookup_delete_ne by done. done.
Qed.

(** ** Logins *)

Section logins.
Context `{Unicode} `{Net} `{OriginParser} `{Dialect}.
Context (trusted_proxies : string) (sha256hex : string -> string).

(** The audit row of an event recorded at [now]. *)
Definition recorded (ev : AuditEvent) (now : Z) (d d' : audit_db) : Prop :=
  au_rows d' = au_rows d ++ [{| ar_id := au_next d; ar_event := at_time (of_unix (Unix now)) ev |}].
Lemma AppendAudit_recorded ev now d fs u d' fs' :
  au_At ev = zero_time -> AppendAudit ev now d fs = (Ok u, d', fs') -> recorded ev now d d'.
Proof.
  intros Hat E. unfold AppendAudit in E. apply mbind_ok in E as (u0 & d0 & fs0 & Hv & E).
  unfold lift in Hv. simplify_eq. rewrite Hat in E. apply exec_ok in E. unfold insert_audit in E. by simplify_eq.
Qed.
Lemma wp_recordAudit ev now w (Q : result error unit -> world -> Prop) :
  au_At ev = zero_time ->
  (forall r d, (r = Ok tt -> recorded ev now (w_audit w) d) ->
     Q r {| w_hub := w_hub w; w_auth := w_auth w; w_audit := d |}) ->
  wp (recordAudit ev now) Q w.
Proof.
  intros Hat HQ fs. unfold recordAudit, on_audit. destruct (AppendAudit ev now (w_audit w) fs) as [[r d] fs'] eqn:E.
  apply HQ. intros ->. by eapply AppendAudit_recorded.
Qed.

(** No session appears, and the credentials stay. *)
Definition no_session (w w' : world) : Prop :=
  w_auth w' = w_auth w /\ forall i e, hb_sessions (w_hub w') !! i = Some e -> hb_sessions (w_hub w) !! i = Some e.
(** The login succeeded with [resp]. *)
Definition logged_in (r : request) (hash : string) (now : Z) (w w' : world) (cs : list cookie)
    (resp : sessionResponse) : Prop :=
  exists rec hex, resolves hash now (w_auth w) rec /\ w_auth w' = w_auth w /\
    credentialPermits (rec_Kind rec) (rec_Scope rec) ScopeRead = true /\ rec_Kind rec <> KindAgent /\
    resp = {| sr_ClientName := rec_ClientName rec; sr_TenantID := rec_TenantID rec |} /\
    let id := newSessionID hex in
    (exists maxAge, 1 <= maxAge /\ cs = [setSessionCookie trusted_proxies r id maxAge]) /\
    (hr_Cookie r <> Some id -> hb_sessions (w_hub w') !! id = Some (login_session hash rec now)) /\
    recorded (session_event (rec_TenantID rec) (rec_Kind rec) (rec_KeyPrefix rec) "session.login") now (w_audit w) (w_audit w').
Definition login_post (r : request) (hash : string) (now : Z) (w : world)
    (res : result error (answer sessionResponse)) (w' : world) : Prop :=
  exists a, res = Ok a /\
    match an_body a with Ok resp => logged_in r hash now w w' (an_cookies a) resp | Err _ => no_session w w' end.

Lemma login_reject r hash now w w' status msg :
  no_session w w' -> wp (reject status msg) (login_post r hash now w) w'.
Proof. intros Hn. apply wp_ret. eexists. split; [done|]. exact Hn. Qed.

Lemma session_put_sub id ent now (m : gmap string sessionEntry) i e :
  (session_put id ent now m).2 !! i = Some e -> i <> id -> m !! i = Some e.
Proof.
  pose proof (session_put_eq id ent now m) as ->. cbv zeta. intros Hl Hne.
  assert (evict (se_credHash ent) (filter (session_live now) m) !! i = Some e) as Hi.
  { destruct (_ <=? _); cbn [snd] in Hl; [exact Hl|]. by apply lookup_insert_Some in Hl as [[? _]|[_ Hl]]. }
  eapply map_subseteq_spec in Hi; [|apply evict_subseteq]. by apply live_lookup in Hi as [Hi _].
Qed.

Lemma wp_session_create r hash rec hex now w w0 :
  resolves hash now (w_auth w) rec -> credentialPermits (rec_Kind rec) (rec_Scope rec) ScopeRead = true ->
  rec_Kind rec <> KindAgent -> w_auth w0 = w_auth w -> w_audit w0 = w_audit w ->
  hb_sessions (w_hub w0) = hb_sessions (w_hub w) ->
  wp (session_create trusted_proxies r hash rec hex now) (login_post r hash now w) w0.
Proof.
  intros Hres Hperm Hkind Ha Hau Hse. unfold session_create.
  destruct hex as [hex|]; [|apply login_reject; split; [done|by rewrite Hse]]. cbv zeta.
  set (id := newSessionID hex). set (ent := login_session hash rec now). apply wp_mbind, wp_on_hub. rewrite Hse.
  pose proof (session_put_sub id ent now (hb_sessions (w_hub w))) as Hsub.
  pose proof (session_put_eq id ent now (hb_sessions (w_hub w))) as Heq. cbv zeta in Heq.
  destruct (session_put id ent now (hb_sessions (w_hub w))) as [stored m] eqn:Em. cbn [fst snd] in Hsub |- *.
  destruct stored; cbn [negb].
  2:{ apply login_reject. split; [done|]. simpl. intros i e Hi.
      destruct (_ <=? _) in Heq; simplify_eq. eapply map_subseteq_spec in Hi; [|apply evict_subseteq].
      by apply live_lookup in Hi as [Hi _]. }
  assert (Hstored : m !! id = Some ent) by (destruct (_ <=? _) in Heq; simplify_eq; apply lookup_insert_Some; by left).
  apply wp_mbind.
  apply (wp_mono _ (fun res w1 => res = Ok tt /\ w_auth w1 = w_auth w /\ w_audit w1 = w_audit w /\
    (forall i e, hb_sessions (w_hub w1) !! i = Some e -> m !! i = Some e) /\
    (hr_Cookie r <> Some id -> hb_sessions (w_hub w1) !! id = Some ent))).
  { destruct (hr_Cookie r) as [old|]; [|by apply wp_ret]. apply wp_modify. split_and!; try done; simpl.
    - by intros i e [_ Hi]%lookup_delete_Some.
    - intros Hne. apply lookup_delete_Some. split; [congruence|done]. }
  intros [[]|err] w1 (Hr & Ha1 & Hau1 & Hsub1 & Hid); [|done].
  apply wp_try, wp_recordAudit; [done|]. intros [[]|err] d Hrec.
  - apply wp_ret. eexists. split; [done|]. exists rec, hex. rewrite Hau1 in Hrec.
    specialize (Hrec eq_refl). do 5 (split; [done|]). cbv zeta.
    split; [eexists; split; [apply Z.le_max_l|done]|]. by split.
  - apply wp_mbind, wp_modify, wp_ret. eexists. split; [done|]. split; [done|]. simpl.
    intros i e [Hne Hi]%lookup_delete_Some. by apply Hsub; [apply Hsub1|].
Qed.

Lemma wp_session_login r body hex now w :
  wp (session_login trusted_proxies sha256hex r body hex now) (fun res w' => exists a, res = Ok a /\
    match an_body a with
    | Ok resp => originOK trusted_proxies r = true /\
        (requestIsHTTPS trusted_proxies r = true \/ loopbackSessionRequest trusted_proxies r = true) /\
        exists token, body = ReadToken token /\ logged_in r (HashAPIKey sha256hex token) now w w' (an_cookies a) resp
    | Err _ => no_session w w'
    end) w.
Proof.
  assert (Hrej : forall w' status msg, no_session w w' -> wp (reject status msg) (fun res w' =>
    exists a : answer sessionResponse, res = Ok a /\
    match an_body a with
    | Ok resp => originOK trusted_proxies r = true /\
        (requestIsHTTPS trusted_proxies r = true \/ loopbackSessionRequest trusted_proxies r = true) /\
        exists token, body = ReadToken token /\ logged_in r (HashAPIKey sha256hex token) now w w' (an_cookies a) resp
    | Err _ => no_session w w'
    end) w').
  { intros w' status msg Hn. apply wp_ret. eexists. split; [done|]. exact Hn. }
  unfold session_login. destruct (originOK trusted_proxies r) eqn:Eo; [|by apply Hrej]. cbn [negb].
  apply wp_mbind, wp_on_hub. destruct (allow _ _ _) as [ok l]. cbn [fst snd].
  destruct ok; [|by apply Hrej]. cbn [negb].
  destruct (negb (requestIsHTTPS trusted_proxies r) && _) eqn:Eh; [by apply Hrej|].
  destruct body as [| |token]; [by apply Hrej|by apply Hrej|]. destruct (_ || _); [by apply Hrej|].
  apply wp_inspect. destruct (negb (hb_hasKeys _)); [by apply Hrej|]. cbv zeta. apply wp_try, wp_on_resolve.
  intros [rec|err] Hrec; [|by apply Hrej]. destruct (rec_Revoked _ || _); [by apply Hrej|].
  destruct (negb (credentialPermits _ _ _) || _) eqn:Ep; [by apply Hrej|]. bools.
  eapply wp_mono; [apply (wp_session_create r _ rec hex now w); try done; by apply Hrec|].
  intros res w' (a & -> & Ha). exists a. split; [done|]. destruct (an_body a); [|done].
  split; [done|]. split; [|by exists token]. destruct Eh; bools; auto.
Qed.
End logins.

(** C25. Browser logins.  A login succeeds only for a same-origin request over
    HTTPS, or on the machine itself, with a read token that resolves now, may
    read and is not an agent's; it then stores a session that lasts no longer
    than a week nor than its credential, names it in one cookie that scripts
    cannot read, and has been audited.  A login that is refused leaves no new
    session behind, also when the audit trail failed; neither changes the
    credentials. *)
Theorem browser_login `{Unicode} `{Net} `{OriginParser} `{Dialect} trusted_proxies sha256hex r body hex now w fs res w' fs' :
  session_login trusted_proxies sha256hex r body hex now w fs = (res, w', fs') ->
  exists a, res = Ok a /\ w_auth w' = w_auth w /\
  match an_body a with
  | Err _ => forall i e, hb_sessions (w_hub w') !! i = Some e -> hb_sessions (w_hub w) !! i = Some e
  | Ok resp =>
      originOK trusted_proxies r = true /\
      (requestIsHTTPS trusted_proxies r = true \/ loopbackSessionRequest trusted_proxies r = true) /\
      exists token rec hex' c,
        body = ReadToken token /\ resolves (HashAPIKey sha256hex token) now (w_auth w) rec /\
        credentialPermits (rec_Kind rec) (rec_Scope rec) ScopeRead = true /\ rec_Kind rec <> KindAgent /\
        sr_TenantID resp = rec_TenantID rec /\
        an_cookies a = [c] /\ ck_Value c = newSessionID hex' /\ ck_HttpOnly c = true /\ 1 <= ck_MaxAge c /\
        (loopbackSessionRequest trusted_proxies r = false -> ck_Secure c = true) /\
        (hr_Cookie r <> Some (ck_Value c) ->
           hb_sessions (w_hub w') !! ck_Value c = Some (login_session (HashAPIKey sha256hex token) rec now)) /\
        login_expires rec now <= now + sessionTTL /\
        (0 < credentialExpiryUnix (rec_ExpiresAt rec) -> login_expires rec now <= rec_ExpiresAt rec) /\
        recorded (session_event (rec_TenantID rec) (rec_Kind rec) (rec_KeyPrefix rec) "session.login") now
          (w_audit w) (w_audit w')
  end.
Proof.
  intros Hrun. destruct (wp_run _ _ _ _ _ _ _ (wp_session_login trusted_proxies sha256hex r body hex now w) Hrun)
    as (a & -> & Ha). exists a. split; [done|]. destruct (an_body a) as [resp|]; [|exact Ha].
  destruct Ha as (Ho & Hh & token & Hb & rec & hex' & Hres & Hau & Hperm & Hk & -> & (age & Hage & Hcs) & Hst & Hrec).
  split; [done|]. split; [done|]. split; [done|]. exists token, rec, hex', (setSessionCookie trusted_proxies r (newSessionID hex') age).
  split_and!; try done.
  - simpl. by intros ->.
  - unfold login_expires, Before. cbv zeta. destruct (_ && _) eqn:E; [|lia]. bools. lia.
  - intros Hx. unfold login_expires, Before. cbv zeta.
    destruct (Z.ltb_spec 0 (credentialExpiryUnix (rec_ExpiresAt rec))); [|lia]. cbn [andb].
    destruct (Z.ltb_spec (rec_ExpiresAt rec) (now + sessionTTL)); lia.
Qed.

(** A hub as it starts. *)
Lemma started_until hubMode hasKeys now d a T :
  auth_ok d -> 0 <= t_epoch d -> zero_time <= T ->
  until T {| w_hub := New hubMode hasKeys now; w_auth := d; w_audit := a |}.
Proof.
  intros Hd He HT. split; [split; [exact Hd| |exact He]|exact HT|]; intros hash e Hl;
    exfalso; revert Hl; change ((∅ : gmap string authCacheEntry) !! hash = Some e -> False); by rewrite lookup_empty.
Qed.

(** ** Witnesses: a hub with one read key *)

Module Sample.
Definition unicode : Unicode := {| uc_upper := fun s => s; uc_lower := fun s => s; uc_equal_fold := String.eqb |}.
Definition net : Net :=
  {| IP := string; net_ParseIP := fun s => if is_empty s then None else Some s; ip_equal := String.eqb;
     ip_IsLoopback := fun s => HasPrefix s "127.";
     ip_IsUnspecified := fun s => String.eqb s "0.0.0.0"; net_ParseCIDR := fun _ => None; net_SplitHostPort := fun _ => None |}.
Definition origins : OriginParser := fun _ => None.
Definition sha (s : string) : string := "#" +:+ s.
Definition key : APIKeyRecord :=
  {| rec_ID := 0; rec_TenantID := "t_acme"; rec_ClientName := "Acme"; rec_KeyHash := "#wmr_one";
     rec_KeyPrefix := PrefixRead; rec_Kind := KindRead; rec_Scope := ScopeRead;
     rec_ExpiresAt := 0; rec_MaxUses := 0; rec_Uses := 0; rec_ServerID := empty_str;
     rec_IssuedBy := "ops"; rec_CreatedAt := 100 * second; rec_LastSeenAt := 0; rec_Revoked := false |}.
Definition start : world :=
  {| w_hub := New true true 0;
     w_auth := @run_auth sqlite [(OpUpsert key (100 * second), [])] empty_auth; w_audit := empty_audit |}.
Definition get : request :=
  {| hr_Method := "GET"; hr_TLS := false; hr_ForwardedProto := empty_str; hr_RemoteAddr := "10.0.0.1"; hr_Host := "hub";
     hr_Origin := empty_str; hr_QueryKey := empty_str; hr_XAPIKey := "wmr_one"; hr_Cookie := None |}.
Definition ask (now : Z) : M world (result reply Principal) :=
  @authPrincipal unicode net origins sqlite empty_str sha get ScopeRead now.
Lemma start_until T : zero_time <= T -> until T start.
Proof. intros HT. apply started_until; [apply run_auth_ok|discriminate|exact HT]. Qed.
End Sample.

Lemma authenticated_requests_witness :
  credentialPermits KindRead ScopeRead ScopeRead = true /\
  exists p, run_result (Sample.ask (200 * second)) Sample.start [] = Ok (Ok p) /\ pr_TenantID p = "t_acme".
Proof.
  destruct (run_result (Sample.ask (200 * second)) Sample.start []) as [[p|]|] eqn:E;
    [|vm_compute in E; discriminate E..].
  assert (Hp : pr_Kind p = KindRead /\ pr_Permissions p = ScopeRead /\ pr_TenantID p = "t_acme")
    by (vm_compute in E; injection E as <-; split_and!; reflexivity).
  destruct Hp as (Hk & Hs & Ht). split; [|by exists p].
  destruct (Sample.ask (200 * second) Sample.start []) as [[r w'] fs'] eqn:Er.
  assert (r = Ok (Ok p)) as -> by (rewrite <- E; unfold run_result; by rewrite Er).
  destruct (@authenticated_requests Sample.unicode Sample.net Sample.origins sqlite empty_str Sample.sha Sample.get
    ScopeRead (200 * second) Sample.start [] p w' fs') as [Hc _].
  - apply (Sample.start_until 0). discriminate.
  - reflexivity.
  - exact Er.
  - by rewrite Hk, Hs in Hc.
Defined.

(** The key is used, revoked by someone else, and refused five seconds later,
    though its acceptance is still cached. *)
Lemma revocation_is_prompt_witness :
  let before := [(EvRequest Sample.get ScopeRead (200 * second), []); (EvChange (OpRevokeHash "#wmr_one" (201 * second)), [])] in
  let after := [(EvRequest Sample.get ScopeRead (202 * second), [])] in
  let run es w := @run_hub Sample.unicode Sample.net Sample.origins sqlite empty_str Sample.sha es w in
  let w := run after (run before Sample.start) in
  is_ok (run_result (Sample.ask (204 * second)) w []) = true /\
  forallb (fun r => match r with Ok (Ok _) => false | _ => true end) [run_result (Sample.ask (206 * second)) w []] = true.
Proof.
  intros before after run w. split; [vm_compute; reflexivity|].
  cbn [forallb]. destruct (run_result (Sample.ask (206 * second)) w []) as [[p|]|] eqn:E; [exfalso|reflexivity..].
  destruct (Sample.ask (206 * second) w []) as [[r w'] fs'] eqn:Er.
  assert (r = Ok (Ok p)) as -> by (rewrite <- E; unfold run_result; by rewrite Er).
  revert Er. apply (@revocation_is_prompt Sample.unicode Sample.net Sample.origins sqlite empty_str Sample.sha Sample.get
    ScopeRead "#wmr_one" (201 * second) (206 * second) Sample.start before after [] p w' fs').
  - apply Sample.start_until. vm_compute. discriminate.
  - split; [vm_compute; discriminate|]. split; [|exact I]. intros _. vm_compute. reflexivity.
  - match goal with |- is_revoked _ ?d => let d' := eval vm_compute in d in change (is_revoked "#wmr_one" d') end.
    eexists. split; [apply list_elem_of_here|]. split; [reflexivity|discriminate].
  - reflexivity.
  - discriminate.
  - reflexivity.
  - vm_compute. discriminate.
  - left. split; [vm_compute; discriminate|reflexivity].
Defined.

Definition sample_session (hash : string) (expires : Z) : sessionEntry :=
  {| se_credHash := hash; se_principal := zero_principal; se_clientName := "Acme"; se_expires := expires |}.
Definition five_sessions : gmap string sessionEntry :=
  list_to_map (map (fun p => (p.1, sample_session "h" p.2))
                 [("a", 10); ("b", 9); ("c", 7); ("d", 8); ("e", 11)]).
Lemma sessions_bounded_and_fair_witness :
  let '(ok, m') := session_put "f" (sample_session "h" 12) 5 five_sessions in
  ok = true /\ store_ok m' /\ m' !! "f" = Some (sample_session "h" 12).
Proof.
  assert (Hok : store_ok five_sessions).
  { split; [vm_compute; discriminate|]. intros hash.
    pose proof (map_size_filter (same_credential hash) five_sessions).
    assert (size five_sessions = 5%nat) by (vm_compute; reflexivity).
    unfold sessions_of, maxCredentialSessions. lia. }
  destruct (session_put "f" (sample_session "h" 12) 5 five_sessions) as [ok m'] eqn:E.
  pose proof (sessions_bounded_and_fair "f" (sample_session "h" 12) 5 five_sessions m' ok Hok E) as (Hs & Hstored & _).
  assert (ok = true) as -> by (apply (f_equal fst) in E; vm_compute in E; symmetry; exact E).
  split; [reflexivity|]. split; [exact Hs|exact Hstored].
Defined.

Definition loopback_login : request :=
  {| hr_Method := "POST"; hr_TLS := false; hr_ForwardedProto := empty_str; hr_RemoteAddr := "127.0.0.1"; hr_Host := "localhost";
     hr_Origin := "http://localhost"; hr_QueryKey := empty_str; hr_XAPIKey := empty_str; hr_Cookie := None |}.
Definition same_host : OriginParser := fun _ => Some {| ou_Scheme := "http"; ou_Host := "localhost"; ou_bare := true |}.
Lemma browser_login_witness :
  let run := @session_login Sample.unicode Sample.net same_host sqlite empty_str Sample.sha loopback_login
    (ReadToken "wmr_one") (Some "00ff") (200 * second) Sample.start [] in
  exists a resp, run.1.1 = Ok a /\ an_body a = Ok resp /\ sr_TenantID resp = "t_acme" /\
    w_auth run.1.2 = w_auth Sample.start.
Proof.
  cbv zeta. destruct (@session_login Sample.unicode Sample.net same_host sqlite empty_str Sample.sha loopback_login
    (ReadToken "wmr_one") (Some "00ff") (200 * second) Sample.start []) as [[res w'] fs'] eqn:E.
  destruct (@browser_login Sample.unicode Sample.net same_host sqlite empty_str Sample.sha loopback_login
    (ReadToken "wmr_one") (Some "00ff") (200 * second) Sample.start [] res w' fs' E) as (a & -> & Ha & _).
  exists a. assert (Hb : an_body a = Ok {| sr_ClientName := "Acme"; sr_TenantID := "t_acme" |}).
  { apply (f_equal (fun p => p.1.1)) in E. vm_compute in E. injection E as <-. reflexivity. }
  eexists. split; [reflexivity|]. split; [exact Hb|]. split; [reflexivity|exact Ha].
Defined.
