(* ===== verification/Identities.v ===== *)
(** * Well-formed identities

    What the tables and the hub's caches may hold: every credential names its
    tenant, its kind and its rights, so every principal the hub ever accepts
    belongs to a tenant, and the empty tenant, which some statements read as
    "all tenants", is nobody's. *)

From S2P Require Export AuthProofs.
Open Scope list_scope.
Open Scope Z_scope.

(** ** Credentials *)

Record row_typed (k : key_row) : Prop := {
  rt_hash : k_key_hash k <> EmptyString;
  rt_tenant : k_tenant_id k <> EmptyString;
  rt_kind : k_kind k <> EmptyString;
  rt_scope : k_scope k <> EmptyString
}.
Definition typed (d : auth_db) : Prop := forall k, k ∈ t_keys d -> row_typed k.

Lemma typed_update p f d :
  (forall k, p k = true -> row_typed k -> row_typed (f k)) -> typed d -> typed (update_keys p f d).2.
Proof.
  intros Hf Hd k (k0 & -> & Hk)%list_elem_of_fmap. specialize (Hd k0 Hk). destruct (p k0) eqn:E; auto.
Qed.
Lemma typed_snoc (d d' : auth_db) (f : key_row -> key_row) (k : key_row) :
  t_keys d' = map f (t_keys d) ++ [k] -> (forall k, row_typed k -> row_typed (f k)) -> row_typed k -> typed d -> typed d'.
Proof.
  intros Hk Hf Hnew Hd x. rewrite Hk. intros [(y & -> & Hy)%list_elem_of_fmap|Hx%list_elem_of_singleton]%elem_of_app; [auto|].
  by subst x.
Qed.
Lemma same_rights_typed (f : key_row -> key_row) :
  (forall k, k_key_hash (f k) = k_key_hash k /\ k_tenant_id (f k) = k_tenant_id k /\ k_kind (f k) = k_kind k /\
             k_scope (f k) = k_scope k) -> forall k, row_typed k -> row_typed (f k).
Proof. intros Hf k [R1 R2 R3 R4]. destruct (Hf k) as (E1 & E2 & E3 & E4). split; congruence. Qed.
Lemma agent_row_typed id hash tenant client prefix server issued now :
  hash <> EmptyString -> tenant <> EmptyString -> row_typed (with_id id (agent_row hash tenant client prefix server issued now)).
Proof. by split. Qed.

Section operations.
Context `{Dialect}.

Lemma upsert_typed k d u d' : row_typed k -> upsert_key k d = Ok (u, d') -> typed d -> typed d'.
Proof.
  intros Hk Hu Hd. unfold upsert_key in Hu. destruct (find_key _ _) as [old|].
  - destruct (existsb _ _); [done|]. injection Hu as <- <-. apply typed_update; [|done].
    intros k0 _ [R1 _ _ _]. destruct Hk as [_ R2 R3 R4]. by split.
  - unfold insert_key in Hu. destruct (existsb _ _); [done|]. injection Hu as <- <-.
    apply (typed_snoc d _ id (with_id (t_next_id d) k)); [by rewrite map_id|done| |done].
    destruct Hk as [R1 R2 R3 R4]. by split.
Qed.
Lemma CompleteEnrollment_typed req now : preserves typed (CompleteEnrollment req now).
Proof.
  intros d fs Hd. unfold run_state. destruct (CompleteEnrollment req now d fs) as [[r d'] fs'] eqn:E. simpl.
  apply CompleteEnrollment_inv in E as [[-> _]|[[-> _]|(_ & Hh & res & Hi & _)]]; [done..|].
  apply issues_spec in Hi as (rec & Hrec & _ & _ & Hkeys & _). apply find_code_Some in Hrec as (Hin & _).
  eapply typed_snoc; [exact Hkeys| | |exact Hd].
  - apply same_rights_typed. intros k. unfold issue_row. by repeat case_match.
  - apply agent_row_typed; [done|]. by apply Hd.
Qed.
Lemma ReplaceAgent_typed tenant server token hash prefix now : preserves typed (ReplaceAgent tenant server token hash prefix now).
Proof.
  intros d fs Hd. unfold run_state, ReplaceAgent. destruct (_ || _) eqn:Ee; [done|].
  destruct (transaction _ d fs) as [[r d'] fs'] eqn:E. simpl.
  apply transaction_inv in E as [[-> _]|(res & fs1 & fs2 & Hb & _)]; [done|].
  apply replace_tx_ok in Hb as (_ & _ & client & Hkeys & _).
  eapply typed_snoc; [exact Hkeys| | |exact Hd].
  - apply same_rights_typed. intros k. by destruct (active_at _ _ k).
  - bools. apply agent_row_typed; by apply is_empty_false.
Qed.
Lemma UpsertAPIKey_typed rec now : preserves typed (UpsertAPIKey rec now).
Proof.
  unfold UpsertAPIKey. destruct (is_empty (rec_KeyHash rec) || _) eqn:E1; [apply preserves_fail|].
  destruct (is_empty (rec_Kind rec) || _) eqn:E2; [apply preserves_fail|].
  cbv zeta. apply preserves_statement. intros d [] d' Hd Hu. eapply upsert_typed; [|exact Hu|exact Hd].
  bools. split; by apply is_empty_false.
Qed.

Lemma do_op_typed o : preserves typed (do_op o).
Proof.
  assert (Hrev : forall p now, preserves typed (revoke_where p now)).
  { intros p now. unfold revoke_where. preserve; apply preserves_exec; intros d Hd; [|exact Hd].
    apply typed_update; [|done]. intros k _. by apply same_rights_typed. }
  destruct o; simpl; unfold forget.
  - preserve. apply preserves_statement. intros d a d' Hd Hc. unfold consume_code in Hc.
    destruct (List.find _ _); [|done]. simplify_eq. apply typed_update; [|done]. intros k0 _. by apply same_rights_typed.
  - preserve; apply preserves_exec; intros d Hd; [|exact Hd].
    apply typed_update; [|done]. intros k _. by apply same_rights_typed.
  - apply UpsertAPIKey_typed.
  - apply preserves_mbind; [apply Hrev|intros; apply preserves_ret].
  - apply preserves_mbind; [|intros; apply preserves_ret]. unfold RevokeKeyHash.
    apply preserves_if; [apply preserves_fail|apply Hrev].
  - apply preserves_mbind; [apply Hrev|intros; apply preserves_ret].
  - apply preserves_exec. intros d Hd. exact Hd.
  - apply preserves_mbind; [apply CompleteEnrollment_typed|intros; apply preserves_ret].
  - apply preserves_mbind; [apply ReplaceAgent_typed|intros; apply preserves_ret].
Qed.
End operations.

(** ** Principals *)

(** Every principal the hub remembers belongs to a tenant. *)
Record tenanted (w : world) : Prop := {
  tn_epoch : hb_epoch (w_hub w) <= t_epoch (w_auth w);
  tn_rows : typed (w_auth w);
  tn_cache : forall hash e, hb_cache (w_hub w) !! hash = Some e -> ce_valid e = true -> pr_TenantID (ce_principal e) <> EmptyString
}.
Lemma resolves_tenant hash now d rec : typed d -> resolves hash now d rec -> pr_TenantID (principalFromRecord rec) <> EmptyString.
Proof. intros Hd (k & Hf & -> & _). apply find_key_Some in Hf as [Hk _]. apply (rt_tenant _ (Hd k Hk)). Qed.
Lemma step_tenanted K now w w' : hub_step K now w w' -> tenanted w -> tenanted w'.
Proof.
  intros Hs [T1 T2 T3]. destruct Hs as [m w Hm|hash w|hash e w He Hx Hv|w|hash w HK]; split; simpl; try done; intros hash' e'.
  - intros [_ Hl]%lookup_delete_Some. by eapply T3.
  - intros [[-> ->]|Hl]%cache_put_lookup Hval; [|by eapply T3]. destruct (Hv Hval) as (rec & Hrec & ->).
    by eapply resolves_tenant.
Qed.

Section hub.
Context `{Unicode} `{Net} `{OriginParser} `{Dialect}.
Context (trusted_proxies : string) (sha256hex : string -> string).

Lemma run_tenanted es w : tenanted w -> tenanted (run_hub trusted_proxies sha256hex es w).
Proof.
  intros Hw. refine (run_hub_inv trusted_proxies sha256hex tenanted (fun _ => True) (fun _ _ => True) es w _ _ _ Hw).
  - intros now w1 w2 _. apply step_tenanted.
  - intros o w1 fs r d' fs' Hop _ [T1 T2 T3]. pose proof (do_op_typed o _ fs T2) as Ht.
    pose proof (do_op_epoch (hb_epoch (w_hub w1)) o _ fs T1) as He. unfold run_state in Ht, He. rewrite Hop in Ht, He.
    by split.
  - apply any_history.
Qed.
Lemma accepted_tenant r scope now w fs p w' fs' :
  tenanted w -> authPrincipal trusted_proxies sha256hex r scope now w fs = (Ok (Ok p), w', fs') -> pr_TenantID p <> EmptyString.
Proof.
  intros [T1 T2 T3] Hrun. destruct (hb_hubMode (w_hub w)) eqn:Hm.
  - destruct (wp_run _ _ _ _ _ _ _ (wp_authPrincipal trusted_proxies sha256hex r scope now w T1 Hm) Hrun) as (_ & Hp).
    destruct (Hp p eq_refl) as (_ & _ & [(_ & ep & _ & Hk)|(_ & _ & (id & e & rec & _ & _ & _ & _ & Hrec & _ & ->))]).
    + destruct Hk as [(e & Hl & Hv & -> & _)|(rec & Hrec & ->)]; [by eapply T3|by eapply resolves_tenant].
    + by eapply resolves_tenant.
  - unfold authPrincipal, inspect in Hrun. rewrite Hm in Hrun. unfold ret in Hrun. by injection Hrun as <- _ _.
Qed.
End hub.

(** C17. Identities are well formed.  Whatever happens to a hub that started
    with an empty credential table and empty caches - requests, registrations,
    enrollments, replacements, revocations, failures - every stored credential
    has a hash, a tenant, a kind and rights, and every principal a request is
    accepted as belongs to a tenant. *)
Theorem identities_are_typed `{Unicode} `{Net} `{OriginParser} `{Dialect} trusted_proxies sha256hex
    hubMode hasKeys start es r scope now fs p w' fs' :
  let w := run_hub trusted_proxies sha256hex es
             {| w_hub := New hubMode hasKeys start; w_auth := empty_auth; w_audit := empty_audit |} in
  (forall k, k ∈ t_keys (w_auth w) -> row_typed k) /\
  (authPrincipal trusted_proxies sha256hex r scope now w fs = (Ok (Ok p), w', fs') -> pr_TenantID p <> EmptyString).
Proof.
  intros w. assert (Hw : tenanted w).
  { apply run_tenanted. split; [done|by intros k Hk%not_elem_of_nil|]. intros hash e Hl. exfalso. revert Hl.
    change ((∅ : gmap string authCacheEntry) !! hash = Some e -> False). by rewrite lookup_empty. }
  split; [apply (tn_rows _ Hw)|]. by apply accepted_tenant.
Qed.

Lemma identities_are_typed_witness :
  let es := [(EvChange (OpUpsert Sample.key (100 * second)), [])] in
  let w := @run_hub Sample.unicode Sample.net Sample.origins sqlite empty_str Sample.sha es
             {| w_hub := New true true 0; w_auth := empty_auth; w_audit := empty_audit |} in
  exists p, run_result (Sample.ask (200 * second)) w [] = Ok (Ok p) /\ pr_TenantID p <> EmptyString.
Proof.
  intros es w. destruct (Sample.ask (200 * second) w []) as [[[[p|]|] w'] fs'] eqn:E.
  - exists p. unfold run_result. rewrite E. split; [reflexivity|].
    destruct (@identities_are_typed Sample.unicode Sample.net Sample.origins sqlite empty_str Sample.sha true true 0 es
      Sample.get ScopeRead (200 * second) [] p w' fs') as [_ Ht]. exact (Ht E).
  - exfalso. apply (f_equal (fun x => match x.1.1 with Ok (Ok _) => true | _ => false end)) in E. vm_compute in E. discriminate E.
  - exfalso. apply (f_equal (fun x => match x.1.1 with Ok (Ok _) => true | _ => false end)) in E. vm_compute in E. discriminate E.
Defined.
