(* ===== verification/Server.v ===== *)
(** * The hub's HTTP handlers ([server/server.go], [server/alerts.go])

    A request passes the rate limit of its peer, is authenticated, and passes
    the limit of its tenant or agent before a handler reads or writes.  A
    handler answers with a status, the header Retry-After where it sets it, and
    a body or an error text; headers that carry no decision are left out, and
    each handler reads the clock once.  The decoders, the encoder and the
    digests of the standard library are parameters. *)

From S2P Require Import Alerting.
From S2P Require Export Agent AuthProofs.
Open Scope list_scope.
Open Scope Z_scope.

(** The encodings of the ingestion endpoints. *)
Class HubJSON := {
  hj_tokens : string -> list token;
  hj_batch : string -> result error IngestBatch;
  hj_metric : string -> result error MetricRow;
  hj_process : string -> result error ProcessRow;
  hj_marshal : IngestEvent -> result error string;
  hj_rfc3339nano : Z -> string;
  hj_sha256hex : string -> string;
  hj_sha256_u64 : string -> Z
}.

(** ** State *)

Record health := { he_CheckedAt : Z; he_Err : option error }.
Record site := {
  st_world : world;
  st_limiter : rateLimiter;
  st_ingest : ingest_db;
  st_policy : IngestPolicy;
  st_ingestion : bool (* the ingestion backend is set *);
  st_ingestionErr : option error;
  st_pressure : bool (* the retention status reports disk pressure *);
  st_viewers : gmap string Z;
  st_health : health;
  st_startedAt : Z
}.
Definition with_world (x : world) (s : site) : site :=
  {| st_world := x; st_limiter := st_limiter s; st_ingest := st_ingest s; st_policy := st_policy s;
     st_ingestion := st_ingestion s; st_ingestionErr := st_ingestionErr s; st_pressure := st_pressure s;
     st_viewers := st_viewers s; st_health := st_health s; st_startedAt := st_startedAt s |}.
Definition with_limiter (x : rateLimiter) (s : site) : site :=
  {| st_world := st_world s; st_limiter := x; st_ingest := st_ingest s; st_policy := st_policy s;
     st_ingestion := st_ingestion s; st_ingestionErr := st_ingestionErr s; st_pressure := st_pressure s;
     st_viewers := st_viewers s; st_health := st_health s; st_startedAt := st_startedAt s |}.
Definition with_ingest (x : ingest_db) (s : site) : site :=
  {| st_world := st_world s; st_limiter := st_limiter s; st_ingest := x; st_policy := st_policy s;
     st_ingestion := st_ingestion s; st_ingestionErr := st_ingestionErr s; st_pressure := st_pressure s;
     st_viewers := st_viewers s; st_health := st_health s; st_startedAt := st_startedAt s |}.
Definition with_viewers (x : gmap string Z) (s : site) : site :=
  {| st_world := st_world s; st_limiter := st_limiter s; st_ingest := st_ingest s; st_policy := st_policy s;
     st_ingestion := st_ingestion s; st_ingestionErr := st_ingestionErr s; st_pressure := st_pressure s;
     st_viewers := x; st_health := st_health s; st_startedAt := st_startedAt s |}.
Definition with_health (x : health) (s : site) : site :=
  {| st_world := st_world s; st_limiter := st_limiter s; st_ingest := st_ingest s; st_policy := st_policy s;
     st_ingestion := st_ingestion s; st_ingestionErr := st_ingestionErr s; st_pressure := st_pressure s;
     st_viewers := st_viewers s; st_health := x; st_startedAt := st_startedAt s |}.
Definition with_backend (policy : IngestPolicy) (set : bool) (e : option error) (s : site) : site :=
  {| st_world := st_world s; st_limiter := st_limiter s; st_ingest := st_ingest s; st_policy := policy;
     st_ingestion := set; st_ingestionErr := e; st_pressure := st_pressure s;
     st_viewers := st_viewers s; st_health := st_health s; st_startedAt := st_startedAt s |}.
Definition on_world {A : Type} : M world A -> M site A := zoom st_world with_world.
Definition on_ingest {A : Type} : M ingest_db A -> M site A := zoom st_ingest with_ingest.
Definition on_rows {A : Type} (m : M rows_db A) : M site A :=
  on_ingest (zoom i_rows (fun d => with_rows (fun _ => d)) m).
Definition limited (key : string) (now : Z) : M site bool :=
  inspect (fun s => let '(ok, l) := allow key now (st_limiter s) in
                    let* _ := modify (with_limiter l) in ret ok).

(** An answer of a handler. *)
Record hub_reply (A : Type) := { hr_RetryAfter : option Z; hr_Result : result reply A }.
Arguments hr_RetryAfter {A}.
Arguments hr_Result {A}.
Arguments Build_hub_reply {A}.
Definition refuse {A : Type} (status : Z) (message : string) : M site (hub_reply A) :=
  ret (Build_hub_reply None (Err (Reply status message))).
Definition refuse_for {A : Type} (seconds status : Z) (message : string) : M site (hub_reply A) :=
  ret (Build_hub_reply (Some seconds) (Err (Reply status message))).
Definition answer_with {A : Type} (a : A) : M site (hub_reply A) := ret (Build_hub_reply None (Ok a)).
(** An answer of the authentication is passed on. *)
Definition refuse_as {A : Type} (r : reply) : M site (hub_reply A) := ret (Build_hub_reply None (Err r)).

(** ** Start-up *)

(** One budget setting: its value, and whether it is valid. *)
Definition budget_setting (raw : string) (dflt : Z) : Z * bool :=
  if is_empty raw then (dflt, true)
  else match ParseInt raw with
       | Some v => if v <? 1 then (dflt, false) else (v, true)
       | None => (dflt, false)
       end.
(** The policy of [New] from the four settings, and its [ingestionErr]. *)
Definition New_policy (rows bytes agentRows agentBytes : string) : IngestPolicy * option error :=
  let d := DefaultIngestPolicy in
  let r := budget_setting rows (ip_DailyRows d) in
  let b := budget_setting bytes (ip_DailyBytes d) in
  let ar := budget_setting agentRows (ip_AgentDailyRows d) in
  let ab := budget_setting agentBytes (ip_AgentDailyBytes d) in
  let policy := {| ip_DailyRows := r.1; ip_DailyBytes := b.1; ip_AgentDailyRows := ar.1; ip_AgentDailyBytes := ab.1 |} in
  (policy, match policy_Validate policy with
           | Err e => Some e
           | Ok _ => if r.2 && b.2 && ar.2 && ab.2 then None
                     else Some (EMsg "invalid ingest budget configuration")
           end).
(** [EnableHubMode] on the ingestion side: [backend] says whether the store
    has ingestion, [init] whether its initialisation succeeds. *)
Definition ingest_setup (e : option error) (hasKeys backend init : bool) : bool * option error :=
  let '(set, e) :=
    match e with
    | Some e => (false, Some e)
    | None => if backend then if init then (true, None) else (false, Some (EMsg "ingest initialization failed"))
              else (false, Some (EMsg "storage lacks atomic ingestion"))
    end in
  (set, if hasKeys then e else Some (EMsg "authentication unavailable")).

Section listening.
Context `{Net}.
(** The address [Start] listens on. *)
Definition listen_address (hubMode : bool) (ingestionErr : option error) (configured port : string)
  : result error (string * Z) :=
  match hubMode, ingestionErr with
  | true, Some e => Err e
  | _, _ =>
      let? host :=
        if is_empty configured then Ok (if hubMode then "0.0.0.0" else "127.0.0.1")
        else match net_ParseIP configured with
             | Some ip => if negb hubMode && negb (ip_IsLoopback ip)
                          then Err (EMsg "invalid or unauthenticated non-loopback listen host") else Ok configured
             | None => Err (EMsg "invalid or unauthenticated non-loopback listen host")
             end in
      match ParseInt port with
      | Some n => if (n <? 1) || (65535 <? n) then Err (EMsg "invalid HTTP port") else Ok (host, n)
      | None => Err (EMsg "invalid HTTP port")
      end
  end.
End listening.

(** ** Origins *)

Definition parseAllowedOrigins (raw : string) : list string :=
  List.filter (fun o => negb (is_empty o) && negb (String.eqb o "*")) (map TrimSpace (Split raw ",")).
(** The origin [writeCORS] allows. *)
Definition writeCORS `{Unicode} (allowedOrigins : list string) (origin : string) : option string :=
  if existsb (fun allowed => negb (is_empty origin) && negb (String.eqb allowed "*") && EqualFold allowed origin)
       allowedOrigins
  then Some origin else None.

(** ** Viewers of the dashboard *)

Definition drop_idle (now : Z) (m : gmap string Z) : gmap string Z :=
  filter (fun p => negb (minute <? Sub now p.2) = true) m.
Definition track (ip : string) (now : Z) (m : gmap string Z) : gmap string Z :=
  let m := drop_idle now m in if Z.of_nat (size m) <? 4096 then <[ip := now]> m else m.
Definition trackViewer `{Net} (r : request) (now : Z) : M site unit :=
  modify (fun s => with_viewers (track (clientIP r) now (st_viewers s)) s).
Definition DashboardViewers (now : Z) : M site Z :=
  inspect (fun s => let m := drop_idle now (st_viewers s) in
                    let* _ := modify (with_viewers m) in ret (Z.of_nat (size m))).

(** ** Handlers *)

Definition maxIngestBody : Z := MaxBatchBytes.
(** Whole seconds to the next UTC midnight, plus one. *)
Definition seconds_to_midnight (now : Z) : Z := ((utc_day now + 1) * 86400 * second - now) `quot` second + 1.

(** The data of a metric and of a process that leave the hub. *)
Record metricDataPoint := {
  dp_Timestamp : Z; dp_ServerID : string; dp_Hostname : string;
  dp_CPUPct : float64; dp_MemPct : float64; dp_DiskFreeGB : float64;
  dp_NetSentBytes : Z; dp_NetRecvBytes : Z; dp_CPUCores : Z;
  dp_MemTotalGB : float64; dp_DiskTotalGB : float64; dp_DiskReadOps : Z; dp_DiskWriteOps : Z;
  dp_DiskIOPS : float64; dp_NetMBps : float64; dp_ConcurrentUsers : Z;
  dp_NetSentExternal : Z; dp_NetRecvExternal : Z; dp_NetSentInternal : Z; dp_NetRecvInternal : Z
}.
Definition metric_point (r : MetricRow) : metricDataPoint :=
  {| dp_Timestamp := Unix (m_Timestamp r); dp_ServerID := m_ServerID r; dp_Hostname := m_Hostname r;
     dp_CPUPct := m_CPUPct r; dp_MemPct := m_MemPct r; dp_DiskFreeGB := m_DiskFreeGB r;
     dp_NetSentBytes := m_NetSentBytes r; dp_NetRecvBytes := m_NetRecvBytes r; dp_CPUCores := m_CPUCores r;
     dp_MemTotalGB := m_MemTotalGB r; dp_DiskTotalGB := m_DiskTotalGB r; dp_DiskReadOps := m_DiskReadOps r;
     dp_DiskWriteOps := m_DiskWriteOps r; dp_DiskIOPS := m_DiskIOPS r; dp_NetMBps := m_NetMBps r;
     dp_ConcurrentUsers := m_ConcurrentUsers r; dp_NetSentExternal := m_NetSentExternal r;
     dp_NetRecvExternal := m_NetRecvExternal r; dp_NetSentInternal := m_NetSentInternal r;
     dp_NetRecvInternal := m_NetRecvInternal r |}.
Record processDataPoint := {
  pp_Timestamp : Z; pp_ServerID : string; pp_PID : Z; pp_Name : string; pp_CPUPct : float64; pp_MemMB : float64
}.
Definition process_point (r : ProcessRow) : processDataPoint :=
  {| pp_Timestamp := Unix (p_Timestamp r); pp_ServerID := p_ServerID r; pp_PID := p_PID r; pp_Name := p_Name r;
     pp_CPUPct := p_CPUPct r; pp_MemMB := p_MemMB r |}.
Record read_reply (P : Type) := {
  rr_Range : string; rr_Count : Z; rr_Complete : bool; rr_NextCursor : string; rr_Data : list P; rr_Limit : Z
}.
Arguments rr_Data {P}.
Arguments Build_read_reply {P}.

(** The query parameters a read endpoint looks at. *)
Record read_query := { rq_range : string; rq_server : string; rq_limit : string; rq_cursor : string }.

Section handlers.
Context `{Unicode} `{Net} `{OriginParser} `{Dialect} `{HubJSON} `{Collation}.
Context (trusted_proxies : string).
(** The digest of credentials, and how the backend reads counters back. *)
Context (sha256hex : string -> string) (conv : Z -> Z).

Definition authorize (r : request) (scope : string) (now : Z) : M site (result reply Principal) :=
  on_world (authPrincipal trusted_proxies sha256hex r scope now).
Definition enforceRate (r : request) (tenant : string) (now : Z) : M site bool :=
  limited ("tenant:" +:+ (if is_empty tenant then "ip:" +:+ clientIP r else tenant)) now.

(** [Handler]: liveness answers at once, everything else passes the limit of
    its peer first. *)
Definition Handler {A : Type} (r : request) (path : string) (health_page served : M site (hub_reply A)) (now : Z)
  : M site (hub_reply A) :=
  if String.eqb path "/api/health" then health_page
  else
    let* ok := limited ("preauth:" +:+ clientIP r) now in
    if negb ok then refuse_for 1 429 "request rate exceeded"
    else
      let* _ := whenM (String.eqb path "/" || String.eqb path "/index.html") (trackViewer r now) in
      served.

(** *** Ingestion *)

(** The batch of one row that an old agent posts. *)
Definition legacy_identity (m : option MetricRow) (p : option ProcessRow) : string :=
  match m, p with
  | Some m, _ => "metric:" +:+ hj_rfc3339nano (m_Timestamp m)
  | None, Some p => "process:" +:+ hj_rfc3339nano (p_Timestamp p) +:+ ":" +:+ Itoa (p_PID p)
  | None, None => EmptyString
  end.
Definition legacy_batch (m : option MetricRow) (p : option ProcessRow) : IngestBatch :=
  let identity := legacy_identity m p in
  {| ib_SchemaVersion := IngestSchema;
     ib_Events := [{| ev_EventID := "legacy-" +:+ hj_sha256hex identity; ev_BootID := "legacy";
                      ev_Sequence := Z.lor (Z.land (hj_sha256_u64 identity) (Z.shiftl 1 63 - 1)) 1;
                      ev_Metric := m; ev_Process := p |}] |}.
Definition decode_body (legacy : bool) (type body : string) : result string IngestBatch :=
  if legacy then
    let invalid := Err "invalid legacy event" in
    if String.eqb type "metric" then
      match DecodeIngest hj_tokens hj_metric body with
      | Ok m => Ok (legacy_batch (Some m) None)
      | Err _ => invalid
      end
    else if String.eqb type "process" then
      match DecodeIngest hj_tokens hj_process body with
      | Ok p => Ok (legacy_batch None (Some p))
      | Err _ => invalid
      end
    else invalid
  else match DecodeIngest hj_tokens hj_batch body with
       | Ok b => Ok b
       | Err _ => Err "invalid batch JSON"
       end.

(** The body once the machine is known; [None] is a body that broke off. *)
Definition store_batch (p : Principal) (legacy : bool) (type : string) (body : option string) (now : Z)
  : M site (hub_reply (list IngestOutcome)) :=
  inspect (fun s =>
  if negb (st_ingestion s) || is_some (st_ingestionErr s) then refuse 503 "atomic ingestion unavailable"
  else if st_pressure s then refuse_for 60 503 "storage disk budget exhausted"
  else match body with
  | None => refuse 413 "body exceeds limit"
  | Some body =>
      if maxIngestBody <? slen body then refuse 413 "body exceeds limit"
      else match decode_body legacy type body with
      | Err msg => refuse 400 msg
      | Ok batch =>
          match NormalizeIngest batch (pr_TenantID p) (pr_AgentID p) now with
          | Err _ => refuse 400 "invalid event identity, timestamp or value"
          | Ok events =>
              let batch := {| ib_SchemaVersion := ib_SchemaVersion batch; ib_Events := events |} in
              let* r := attempt (on_ingest (AcceptIngest hj_marshal hj_sha256hex (pr_TenantID p) (pr_AgentID p)
                                              batch (st_policy s) now)) in
              match r with
              | Ok outcomes => answer_with outcomes
              | Err e =>
                  if Is e ErrEventConflict then refuse 409 "event content conflicts with its accepted identity"
                  else if Is e ErrAcceptedBudget then
                    refuse_for (seconds_to_midnight now) 429 "accepted-data budget exhausted"
                  else refuse 503 "ingest transaction did not complete"
              end
          end
      end
  end).
(** A success has status 202. *)
Definition receiveBatch (r : request) (legacy : bool) (type : string) (body : option string) (now : Z)
  : M site (hub_reply (list IngestOutcome)) :=
  if negb (String.eqb (hr_Method r) "POST") then refuse 405 "method not allowed"
  else
    let* auth := authorize r ScopeIngest now in
    match auth with
    | Err e => refuse_as e
    | Ok p =>
        if negb (String.eqb (pr_Kind p) KindAgent) || is_empty (pr_AgentID p)
        then refuse 403 "a bound machine credential is required"
        else
          let* ok := limited ("agent:" +:+ pr_TenantID p +:+ ":" +:+ pr_AgentID p) now in
          if negb ok then refuse_for 1 429 "agent request rate exceeded"
          else store_batch p legacy type body now
    end.
Definition handleBatch (r : request) (body : option string) (now : Z) := receiveBatch r false EmptyString body now.
Definition handleIngest (r : request) (type : string) (body : option string) (now : Z) :=
  receiveBatch r true type body now.

(** *** Reads *)

Definition readOnly (r : request) : bool := String.eqb (hr_Method r) "GET" || String.eqb (hr_Method r) "HEAD".
(** What every tenant-scoped read starts with. *)
Definition for_tenant {A : Type} (r : request) (now : Z) (k : string -> M site (hub_reply A)) : M site (hub_reply A) :=
  if negb (readOnly r) then refuse 405 "method not allowed"
  else
    let* tenant := on_world (authTenant trusted_proxies sha256hex r now) in
    match tenant with
    | Err e => refuse_as e
    | Ok tenant =>
        let* ok := enforceRate r tenant now in
        if negb ok then refuse_for 1 429 "rate limit exceeded" else k tenant
    end.
Definition page_of {R P : Type} (range : string) (limit : Z) (point : R -> P) (reply : page_reply R) : read_reply P :=
  {| rr_Range := range; rr_Count := Z.of_nat (length (pr_Data reply)); rr_Complete := pr_Complete reply;
     rr_NextCursor := pr_NextCursor reply; rr_Data := map point (pr_Data reply); rr_Limit := limit |}.
Definition range_of (q : read_query) : string := if is_empty (rq_range q) then "24h" else rq_range q.
Definition handleMetrics (r : request) (q : read_query) (now : Z) : M site (hub_reply (read_reply metricDataPoint)) :=
  for_tenant r now (fun tenant =>
    match parseReadPage (rq_limit q) (rq_cursor q) with
    | Err e => refuse 400 (error_text e)
    | Ok page =>
        let* rows := attempt (on_rows (metrics_reply conv now tenant (range_of q) (rq_server q) (rq_limit q) (rq_cursor q))) in
        match rows with
        | Err _ => refuse 503 "metric query unavailable"
        | Ok reply => answer_with (page_of (range_of q) (pg_Limit page) metric_point reply)
        end
    end).
Definition handleProcesses (r : request) (q : read_query) (now : Z) : M site (hub_reply (read_reply processDataPoint)) :=
  for_tenant r now (fun tenant =>
    match parseReadPage (rq_limit q) (rq_cursor q) with
    | Err e => refuse 400 (error_text e)
    | Ok page =>
        let* rows := attempt (on_rows (processes_reply now tenant (range_of q) (rq_server q) (rq_limit q) (rq_cursor q))) in
        match rows with
        | Err _ => refuse 503 "process query unavailable"
        | Ok reply => answer_with (page_of (range_of q) (pg_Limit page) process_point reply)
        end
    end).
Definition handleServers (r : request) (q : read_query) (now : Z) : M site (hub_reply (page_reply string)) :=
  for_tenant r now (fun tenant =>
    match parseServerPage (rq_limit q) (rq_cursor q) with
    | Err e => refuse 400 (error_text e)
    | Ok _ =>
        let* reply := attempt (on_rows (servers_reply tenant (rq_limit q) (rq_cursor q))) in
        match reply with
        | Err _ => refuse 503 "server query unavailable"
        | Ok reply => answer_with reply
        end
    end).
(** [source] is what the alert evaluator reports as active and as history;
    [None] is a hub without alerting. *)
Definition handleAlerts (r : request)
    (source : option (list (gmap string json_value) * list (gmap string json_value))) (now : Z)
  : M site (hub_reply (list (gmap string json_value) * Z * list (gmap string json_value))) :=
  let* tenant := on_world (authTenant trusted_proxies sha256hex r now) in
  match tenant with
  | Err e => refuse_as e
  | Ok tenant =>
      let* ok := enforceRate r tenant now in
      if negb ok then refuse_for 1 429 "rate limit exceeded"
      else match source with
      | None => refuse 503 "alerting is not enabled"
      | Some (active, history) =>
          let active := filterByTenant active tenant in
          answer_with (active, Z.of_nat (length active), filterByTenant history tenant)
      end
  end.

(** *** Health *)

(** [ping] is the store's answer, [None] when it cannot be pinged. *)
Definition healthSnapshot (ping : option (result error unit)) (now : Z) : M site (option error) :=
  inspect (fun s =>
    if negb (IsZero (he_CheckedAt (st_health s))) && (Sub now (he_CheckedAt (st_health s)) <? 10 * second)
    then ret (he_Err (st_health s))
    else
      let ready := match ping with
                   | Some (Ok _) => None
                   | Some (Err e) => Some e
                   | None => Some (EMsg "storage readiness check unavailable")
                   end in
      let err := match hb_hubMode (w_hub (st_world s)), st_ingestionErr s with
                 | true, Some e => Some e
                 | _, _ => ready
                 end in
      let* _ := modify (with_health {| he_CheckedAt := now; he_Err := err |}) in ret err).
Definition handleReady (r : request) (ping : option (result error unit)) (now : Z) : M site (hub_reply string) :=
  if negb (readOnly r) then refuse 405 "method not allowed"
  else
    let* err := healthSnapshot ping now in
    match err with
    | Some _ => refuse 503 "not ready"
    | None => answer_with "ready"
    end.
(** The gauges [wmonitor_up] and [wmonitor_uptime_seconds]. *)
Definition handlePrometheus (r : request) (ping : option (result error unit)) (now : Z) : M site (hub_reply (Z * Z)) :=
  if negb (readOnly r) then refuse 405 "method not allowed"
  else inspect (fun s =>
    let* ok := (if hb_hubMode (w_hub (st_world s))
                then on_world (authTenantScope trusted_proxies sha256hex r ScopeAdmin now)
                else ret (Ok EmptyString)) in
    match ok with
    | Err e => refuse_as e
    | Ok _ =>
        let* err := healthSnapshot ping now in
        answer_with (if is_some err then 0 else 1, Sub now (st_startedAt s) `quot` second)
    end).
End handlers.
