(* ===== verification/ServerProofs.v ===== *)
(** * What the HTTP handlers guarantee

    Every handler acts for the principal of its request and for no one else:
    an upload is stored under the authenticated tenant and agent or not at all,
    a read returns rows of the authenticated tenant, and without accounts the
    server does not leave the machine. *)

From S2P Require Import Alerting.
From S2P Require Export Server.
Open Scope list_scope.
Open Scope Z_scope.

(** ** What a batch adds *)

(** [d'] is [d] with rows and receipts of one tenant and agent added. *)
Record adds_for (tenant agent : string) (d d' : ingest_db) : Prop := {
  ad_metrics : exists ms, d_metrics (i_rows d') = d_metrics (i_rows d) ++ ms /\
                 Forall (fun m => m_TenantID m = tenant /\ m_ServerID m = agent) ms;
  ad_processes : exists ps, d_processes (i_rows d') = d_processes (i_rows d) ++ ps /\
                   Forall (fun p => p_TenantID p = tenant /\ p_ServerID p = agent) ps;
  ad_receipts : exists rs, i_receipts d' = i_receipts d ++ rs /\
                  Forall (fun r => rc_tenant r = tenant /\ rc_agent r = agent) rs
}.

Lemma adds_for_refl tenant agent d : adds_for tenant agent d d.
Proof. split; exists []; by rewrite app_nil_r. Qed.
Lemma adds_for_trans tenant agent d1 d2 d3 :
  adds_for tenant agent d1 d2 -> adds_for tenant agent d2 d3 -> adds_for tenant agent d1 d3.
Proof.
  intros [(ms & Em & Hm) (ps & Ep & Hp) (rs & Er & Hr)] [(ms' & Em' & Hm') (ps' & Ep' & Hp') (rs' & Er' & Hr')].
  rewrite Em in Em'. rewrite Ep in Ep'. rewrite Er in Er'. rewrite <- app_assoc in Em', Ep', Er'.
  split; eexists; (split; [eassumption|by apply Forall_app]).
Qed.

Section effects.
Context (marshal : IngestEvent -> result error string) (sha256hex : string -> string).

Lemma insert_event_adds tenant agent e d b rs :
  Forall (fun r => rc_tenant r = tenant /\ rc_agent r = agent) rs ->
  adds_for tenant agent d
    {| i_rows := insert_event tenant agent e (i_rows d); i_receipts := i_receipts d ++ rs; i_budgets := b |}.
Proof.
  intros Hrs. unfold insert_event. split; simpl; [| |by exists rs].
  - destruct (ev_Metric e); [eexists [_]; split; [done|by repeat constructor]|].
    exists []. destruct (ev_Process e); by rewrite app_nil_r.
  - destruct (ev_Metric e); [exists []; by rewrite app_nil_r|].
    destruct (ev_Process e); [eexists [_]; split; [done|by repeat constructor]|].
    exists []. by rewrite app_nil_r.
Qed.
Lemma events_effect_adds tenant agent policy now es d out d' :
  events_effect marshal sha256hex tenant agent policy now es d out d' -> adds_for tenant agent d d'.
Proof.
  induction 1 as [|e es d o d1 out d2 He _ IH]; [apply adds_for_refl|].
  eapply adds_for_trans; [|exact IH]. destruct He as (body & _ & [(_ & -> & _)|(_ & _ & _ & _ & _ & _ & ->)]);
    [apply adds_for_refl|]. apply insert_event_adds; by repeat constructor.
Qed.
Lemma events_effect_ids tenant agent policy now es d out d' :
  events_effect marshal sha256hex tenant agent policy now es d out d' -> map io_EventID out = map ev_EventID es.
Proof.
  induction 1 as [|e es d o d1 out d2 He _ IH]; [done|]. simpl. rewrite IH. f_equal.
  by destruct He as (body & _ & [(-> & _)|(-> & _)]).
Qed.
End effects.

(** ** Requests move the hub by steps *)

Definition worldly {A : Type} (K : string -> Prop) (now : Z) (m : M site A) : Prop :=
  forall s, wp m (fun _ s' => steps K now (st_world s) (st_world s')) s.

Section worldly.
Context (K : string -> Prop) (now : Z).
Lemma worldly_ret {A} (a : A) : worldly K now (ret a).
Proof. intros s. by apply wp_ret, rtc_refl. Qed.
Lemma worldly_mbind {A B} (m : M site A) (k : A -> M site B) :
  worldly K now m -> (forall a, worldly K now (k a)) -> worldly K now (mbind m k).
Proof.
  intros Hm Hk s. apply wp_mbind. eapply wp_mono; [apply Hm|]. intros [a|e] s1 Hs; [|done].
  eapply wp_mono; [apply Hk|]. intros r s2 Hs2. by transitivity (st_world s1).
Qed.
Lemma worldly_attempt {A} (m : M site A) : worldly K now m -> worldly K now (attempt m).
Proof. intros Hm s. by apply wp_attempt. Qed.
Lemma worldly_inspect {A} (f : site -> M site A) : (forall s, worldly K now (f s)) -> worldly K now (inspect f).
Proof. intros Hf s. apply wp_inspect, Hf. Qed.
Lemma worldly_modify (f : site -> site) : (forall s, st_world (f s) = st_world s) -> worldly K now (modify f).
Proof. intros Hf s. apply wp_modify. by rewrite Hf. Qed.
Lemma worldly_on_world {A} (m : M world A) : stepwise K now m -> worldly K now (on_world m).
Proof. intros Hm s. apply wp_zoom. eapply wp_mono; [apply Hm|]. done. Qed.
Lemma worldly_on_ingest {A} (m : M ingest_db A) : worldly K now (on_ingest m).
Proof. intros s. apply wp_zoom. intros fs. destruct (m _ fs) as [[r d] fs']. apply rtc_refl. Qed.
Lemma worldly_limited key t : worldly K now (limited key t).
Proof.
  apply worldly_inspect. intros s. destruct (allow _ _ _) as [ok l].
  apply worldly_mbind; [by apply worldly_modify|intros; apply worldly_ret].
Qed.
End worldly.

(** Follow the shape of a handler. *)
Ltac worldly :=
  repeat (cbv zeta;
    lazymatch goal with
    | H : worldly ?K ?now ?m |- worldly ?K ?now ?m => exact H
    | |- forall _, _ => intro
    | |- worldly _ _ (ret _) => apply worldly_ret
    | |- worldly _ _ (refuse _ _) => apply worldly_ret
    | |- worldly _ _ (refuse_for _ _ _) => apply worldly_ret
    | |- worldly _ _ (refuse_as _) => apply worldly_ret
    | |- worldly _ _ (answer_with _) => apply worldly_ret
    | |- worldly _ _ (mbind _ _) => apply worldly_mbind
    | |- worldly _ _ (attempt _) => apply worldly_attempt
    | |- worldly _ _ (inspect _) => apply worldly_inspect
    | |- worldly _ _ (on_ingest _) => apply worldly_on_ingest
    | |- worldly _ _ (limited _ _) => apply worldly_limited
    | |- worldly _ _ (whenM ?c _) => destruct c; unfold whenM
    | |- worldly _ _ (match ?x with _ => _ end) => destruct x
    end).

(** ** Ingestion *)

Section ingestion.
Context `{Unicode} `{Net} `{OriginParser} `{Dialect} `{HubJSON}.
Context (trusted_proxies : string) (sha256hex : string -> string).

(** The request is authenticated as [p] at a hub: by the key in its header,
    or, without one, by its session. *)
Definition acts_as (r : request) (scope : string) (now : Z) (s : site) (p : Principal) : Prop :=
  permits p scope = true /\ hr_QueryKey r = EmptyString /\
  ((hr_XAPIKey r <> EmptyString /\ key_of_request sha256hex r now (st_world s) p) \/
   (hr_XAPIKey r = EmptyString /\ (mutating (hr_Method r) = true -> originOK trusted_proxies r = true) /\
    session_of r now (st_world s) p)).

(** Authentication changes nothing but the hub's caches. *)
Definition same_stores (s s' : site) : Prop :=
  st_ingest s' = st_ingest s /\ w_auth (st_world s') = w_auth (st_world s) /\ st_policy s' = st_policy s.
Lemma same_stores_trans s1 s2 s3 : same_stores s1 s2 -> same_stores s2 s3 -> same_stores s1 s3.
Proof. intros (?&?&?) (?&?&?). split_and!; congruence. Qed.

Lemma wp_authorize r scope now s :
  hb_epoch (w_hub (st_world s)) <= t_epoch (w_auth (st_world s)) ->
  wp (authorize trusted_proxies sha256hex r scope now) (fun res s' => same_stores s s' /\
    forall p, res = Ok (Ok p) ->
      if hb_hubMode (w_hub (st_world s)) then acts_as r scope now s p else p = local_principal) s.
Proof.
  intros He. unfold authorize, on_world. apply wp_zoom.
  destruct (hb_hubMode (w_hub (st_world s))) eqn:Em.
  - eapply wp_mono; [by apply wp_authPrincipal|]. intros res w' [Ha Hp]. split; [done|]. intros p Hr. by apply Hp.
  - unfold authPrincipal. apply wp_inspect. rewrite Em. apply wp_ret. split; [done|]. by intros p [= <-].
Qed.
Lemma limited_answers key now : answers (limited key now).
Proof. unfold limited. answering. Qed.
Lemma authorize_answers r scope now : answers (authorize trusted_proxies sha256hex r scope now).
Proof. apply answers_zoom, authPrincipal_answers. Qed.
Lemma wp_limited key now s : wp (limited key now) (fun res s' => exists ok, res = Ok ok /\ same_stores s s') s.
Proof.
  apply (wp_answers _ (fun _ s' => same_stores s s')); [apply limited_answers|]. unfold limited. apply wp_inspect. destruct (allow _ _ _) as [ok l]. by apply wp_mbind, wp_modify, wp_ret.
Qed.

(** What an accepted upload did. *)
Definition stored_for (r : request) (legacy : bool) (type : string) (body : option string) (now : Z)
    (s : site) (outcomes : list IngestOutcome) (d' : ingest_db) : Prop :=
  exists p text batch events,
    acts_as r ScopeIngest now s p /\ pr_Kind p = KindAgent /\ pr_AgentID p <> EmptyString /\
    body = Some text /\ decode_body legacy type text = Ok batch /\
    NormalizeIngest batch (pr_TenantID p) (pr_AgentID p) now = Ok events /\
    events_effect hj_marshal hj_sha256hex (pr_TenantID p) (pr_AgentID p) (st_policy s) now events
      (st_ingest s) outcomes d'.

Lemma normal_event_idem tenant agent e :
  normal_event tenant agent (normal_event tenant agent e) = normal_event tenant agent e.
Proof. destruct e as [id boot seq [m|] [p|]]; reflexivity. Qed.
Lemma normal_events_idem tenant agent batch events now events' now' schema :
  NormalizeIngest batch tenant agent now = Ok events ->
  NormalizeIngest {| ib_SchemaVersion := schema; ib_Events := events |} tenant agent now' = Ok events' ->
  events' = events.
Proof.
  intros (-> & _)%NormalizeIngest_ok (-> & _)%NormalizeIngest_ok. simpl. rewrite map_map. apply map_ext.
  intros e. apply normal_event_idem.
Qed.

Lemma authorize_worldly r scope now : worldly (own_key sha256hex r) now (authorize trusted_proxies sha256hex r scope now).
Proof. apply worldly_on_world, authPrincipal_steps. auto. Qed.
Lemma receiveBatch_worldly r legacy type body now :
  worldly (own_key sha256hex r) now (receiveBatch trusted_proxies sha256hex r legacy type body now).
Proof.
  pose proof (authorize_worldly r ScopeIngest now) as Ha. unfold receiveBatch, store_batch. worldly.
Qed.
Lemma worldly_leaves {A} K now (m : M site A) s :
  worldly K now m -> wp m (fun _ s' => leaves K (st_world s) (st_world s')) s.
Proof. intros Hm. eapply wp_mono; [apply Hm|]. intros r s' Hs. exact (steps_leave _ _ _ _ Hs). Qed.

(** The outcome of an upload: what a 202 confirms was stored, and any other
    answer stored nothing, except that a 503 may hide a commit. *)
Definition upload_outcome (r : request) (legacy : bool) (type : string) (body : option string) (now : Z) (s : site)
    (res : result error (hub_reply (list IngestOutcome))) (s' : site) : Prop :=
  w_auth (st_world s') = w_auth (st_world s) /\ exists rp, res = Ok rp /\
  match hr_Result rp with
  | Ok outcomes => stored_for r legacy type body now s outcomes (st_ingest s')
  | Err (Reply status _) =>
      st_ingest s' = st_ingest s \/
      (status = 503 /\ exists outcomes, stored_for r legacy type body now s outcomes (st_ingest s'))
  end.
Lemma upload_refused r legacy type body now s s' after status msg :
  same_stores s s' ->
  wp (ret (Build_hub_reply after (Err (Reply status msg)))) (upload_outcome r legacy type body now s) s'.
Proof. intros (Hi & Ha & _). apply wp_ret. split; [done|]. eexists. split; [done|]. by left. Qed.

Lemma wp_store_batch r legacy type body now s s1 p :
  same_stores s s1 -> acts_as r ScopeIngest now s p -> pr_Kind p = KindAgent -> pr_AgentID p <> EmptyString ->
  wp (store_batch p legacy type body now) (upload_outcome r legacy type body now s) s1.
Proof.
  intros Hs Hacts Hkind Hid. pose proof Hs as (Hi & Ha & Hp). unfold store_batch. apply wp_inspect.
  destruct (_ || _); [by apply upload_refused|]. destruct (st_pressure s1); [by apply upload_refused|].
  destruct body as [text|]; [|by apply upload_refused]. destruct (_ <? _); [by apply upload_refused|].
  destruct (decode_body legacy type text) as [batch|msg] eqn:Ed; [|by apply upload_refused].
  destruct (NormalizeIngest batch _ _ now) as [events|] eqn:En; [|by apply upload_refused]. cbv zeta.
  apply wp_try, wp_zoom. intros fs.
  destruct (AcceptIngest _ _ _ _ _ _ _ _ fs) as [[res d'] fs'] eqn:Eacc.
  apply AcceptIngest_inv in Eacc as [[-> [e ->]]|(events' & out & En' & _ & Heff & Hr)].
  - assert (Hsame : same_stores s (with_ingest (st_ingest s1) s1)) by done.
    destruct (Is e ErrEventConflict); [by apply upload_refused|].
    destruct (Is e ErrAcceptedBudget); by apply upload_refused.
  - rewrite (normal_events_idem _ _ _ _ _ _ _ _ En En'), Hi, Hp in Heff.
    assert (stored_for r legacy type (Some text) now s out d') by (exists p, text, batch, events; done).
    destruct Hr as [->|[e ->]]; split; try done; eexists; (split; [done|]); [done|].
    right. split; [done|]. by exists out.
Qed.

Lemma wp_receiveBatch r legacy type body now s :
  hb_epoch (w_hub (st_world s)) <= t_epoch (w_auth (st_world s)) ->
  wp (receiveBatch trusted_proxies sha256hex r legacy type body now) (upload_outcome r legacy type body now s) s.
Proof.
  intros He. assert (Hrefl : same_stores s s) by done.
  unfold receiveBatch. destruct (negb _); [by apply upload_refused|].
  apply wp_mbind. eapply wp_mono; [apply wp_answers; [apply authorize_answers|by apply wp_authorize]|].
  intros ? s1 ([p|[status msg]] & -> & Hs1 & Hp); [|by apply upload_refused].
  specialize (Hp p eq_refl). destruct (_ || _) eqn:Ek; [by apply upload_refused|].
  apply orb_false_iff in Ek as [Ek%negb_false_iff%String.eqb_eq Eid].
  assert (Hid : pr_AgentID p <> EmptyString) by (intros E; by rewrite E in Eid).
  destruct (hb_hubMode _); [|by subst p].
  apply wp_mbind. eapply wp_mono; [apply wp_limited|]. intros ? s2 (ok & -> & Hs2).
  destruct (negb ok); [by eapply upload_refused, same_stores_trans|].
  apply wp_store_batch; [by eapply same_stores_trans|done..].
Qed.
End ingestion.

(** C6. Uploads.  A batch is stored only for a request that is authenticated,
    with the scope to ingest, as an agent bound to a server, and then under that
    agent's tenant and server, whatever the batch claims: a 202 confirms the
    outcome of every event and adds rows and receipts of no one else; every
    other answer has stored nothing, except that a 503 may follow a commit whose
    reply was lost.  The upload itself changes no credential, and all it leaves
    running is [TouchAPIKey] for the key in its header. *)
Theorem uploads_are_bound `{Unicode} `{Net} `{OriginParser} `{Dialect} `{HubJSON} trusted_proxies sha256hex
    r legacy type body now s fs res s' fs' :
  hub_ok (st_world s) ->
  receiveBatch trusted_proxies sha256hex r legacy type body now s fs = (res, s', fs') ->
  w_auth (st_world s') = w_auth (st_world s) /\
  leaves (own_key sha256hex r) (st_world s) (st_world s') /\
  exists rp, res = Ok rp /\
  let stored outcomes := exists p text batch events,
    acts_as trusted_proxies sha256hex r ScopeIngest now s p /\ pr_Kind p = KindAgent /\ pr_AgentID p <> EmptyString /\
    body = Some text /\ decode_body legacy type text = Ok batch /\
    NormalizeIngest batch (pr_TenantID p) (pr_AgentID p) now = Ok events /\
    map io_EventID outcomes = map ev_EventID events /\
    Forall (receipted hj_marshal hj_sha256hex (pr_TenantID p) (pr_AgentID p) (st_ingest s')) events /\
    adds_for (pr_TenantID p) (pr_AgentID p) (st_ingest s) (st_ingest s') in
  match hr_Result rp with
  | Ok outcomes => stored outcomes
  | Err (Reply status _) => st_ingest s' = st_ingest s \/ (status = 503 /\ exists outcomes, stored outcomes)
  end.
Proof.
  intros Hok Hrun.
  destruct (wp_run _ _ _ _ _ _ _ (wp_receiveBatch trusted_proxies sha256hex r legacy type body now s (ho_epoch _ Hok)) Hrun)
    as (Ha & rp & -> & Hrp). split; [done|].
  split; [exact (wp_run _ _ _ _ _ _ _ (worldly_leaves _ now _ s (receiveBatch_worldly _ _ _ _ _ _ _)) Hrun)|]. exists rp. split; [done|]. cbv zeta.
  assert (Hst : forall out, stored_for trusted_proxies sha256hex r legacy type body now s out (st_ingest s') ->
    exists p text batch events, acts_as trusted_proxies sha256hex r ScopeIngest now s p /\ pr_Kind p = KindAgent /\
      pr_AgentID p <> EmptyString /\ body = Some text /\ decode_body legacy type text = Ok batch /\
      NormalizeIngest batch (pr_TenantID p) (pr_AgentID p) now = Ok events /\
      map io_EventID out = map ev_EventID events /\
      Forall (receipted hj_marshal hj_sha256hex (pr_TenantID p) (pr_AgentID p) (st_ingest s')) events /\
      adds_for (pr_TenantID p) (pr_AgentID p) (st_ingest s) (st_ingest s')).
  { intros out (p & text & batch & events & A1 & A2 & A3 & A4 & A5 & A6 & Heff). exists p, text, batch, events.
    do 6 (split; [done|]). split; [by eapply events_effect_ids|].
    split; [by apply events_effect_receipts in Heff as [? _]|by eapply events_effect_adds]. }
  destruct (hr_Result rp) as [out|[status msg]]; [by apply Hst|].
  destruct Hrp as [?|(? & out & Hs)]; [by left|right]. split; [done|]. exists out. by apply Hst.
Qed.

(** ** Reads *)

Section reads.
Context `{Unicode} `{Net} `{OriginParser} `{Dialect} `{HubJSON} `{Collation}.
Context (trusted_proxies : string) (sha256hex : string -> string).

(** Whose data a read of [r] may return: the tenant its principal belongs to,
    or the local tenant on a machine without accounts. *)
Definition reads_as (r : request) (now : Z) (s : site) (tenant : string) : Prop :=
  if hb_hubMode (w_hub (st_world s))
  then exists p, acts_as trusted_proxies sha256hex r ScopeRead now s p /\ tenant = pr_TenantID p
  else tenant = LocalTenantID.

Lemma wp_authTenant r now s :
  hb_epoch (w_hub (st_world s)) <= t_epoch (w_auth (st_world s)) ->
  wp (on_world (authTenant trusted_proxies sha256hex r now)) (fun res s' => exists t, res = Ok t /\ same_stores s s' /\
    forall tenant, t = Ok tenant -> reads_as r now s tenant) s.
Proof.
  intros He. pose proof (wp_answers _ _ _ (authorize_answers trusted_proxies sha256hex r ScopeRead now)
    (wp_authorize trusted_proxies sha256hex r ScopeRead now s He)) as Hwp.
  apply wp_zoom_inv in Hwp. apply wp_zoom. unfold authTenant, authTenantScope. apply wp_mbind.
  eapply wp_mono; [exact Hwp|]. intros ? w' (t & -> & Hs & Hp). apply wp_ret.
  eexists. split; [reflexivity|]. split; [exact Hs|]. intros tenant Ht. unfold reads_as.
  destruct t as [p|]; [|done]. injection Ht as <-. specialize (Hp p eq_refl).
  destruct (hb_hubMode _); [by exists p|by subst p].
Qed.

(** Whatever a read answers, it changed no store, and data goes out only for
    the tenant of the request. *)
Definition scoped {A : Type} (r : request) (now : Z) (s : site) (P : string -> A -> Prop)
    (res : result error (hub_reply A)) (s' : site) : Prop :=
  same_stores s s' /\ exists rp, res = Ok rp /\
  forall a, hr_Result rp = Ok a -> exists tenant, reads_as r now s tenant /\ P tenant a.
Lemma scoped_refused {A} r now s (P : string -> A -> Prop) s' after e :
  same_stores s s' -> wp (ret (Build_hub_reply after (Err e))) (scoped r now s P) s'.
Proof. intros Hs. apply wp_ret. split; [done|]. by eexists. Qed.
Lemma scoped_answer {A} r now s (P : string -> A -> Prop) s' tenant a :
  same_stores s s' -> reads_as r now s tenant -> P tenant a -> wp (answer_with a) (scoped r now s P) s'.
Proof. intros Hs Hr HP. apply wp_ret. split; [done|]. eexists. split; [done|]. intros a' [= <-]. eauto. Qed.

(** The limit of a tenant comes between its identification and the read. *)
Lemma wp_enforceRate {A} r tenant now s (P : string -> A -> Prop) (k : M site (hub_reply A)) s1 after e :
  same_stores s s1 -> (forall s2, same_stores s s2 -> wp k (scoped r now s P) s2) ->
  wp (let* ok := enforceRate r tenant now in if negb ok then ret (Build_hub_reply after (Err e)) else k)
    (scoped r now s P) s1.
Proof.
  intros Hs Hk. apply wp_mbind. eapply wp_mono; [apply wp_limited|]. intros ? s2 (ok & -> & Hs2).
  pose proof (same_stores_trans _ _ _ Hs Hs2). destruct (negb ok); [by apply scoped_refused|by apply Hk].
Qed.
Lemma wp_for_tenant {A} r now s (P : string -> A -> Prop) (k : string -> M site (hub_reply A)) :
  hb_epoch (w_hub (st_world s)) <= t_epoch (w_auth (st_world s)) ->
  (forall tenant s', same_stores s s' -> reads_as r now s tenant -> wp (k tenant) (scoped r now s P) s') ->
  wp (for_tenant trusted_proxies sha256hex r now k) (scoped r now s P) s.
Proof.
  intros He Hk. unfold for_tenant. destruct (negb _); [by apply scoped_refused|]. apply wp_mbind.
  eapply wp_mono; [by apply wp_authTenant|]. intros ? s1 (t & -> & Hs & Ht).
  destruct t as [tenant|e]; [|by apply scoped_refused]. apply wp_enforceRate; [done|]. intros s2 Hs2. by apply Hk, Ht.
Qed.

Lemma authTenant_worldly r now :
  worldly (own_key sha256hex r) now (on_world (authTenant trusted_proxies sha256hex r now)).
Proof.
  apply worldly_on_world. apply stepwise_mbind; [apply authPrincipal_steps; auto|intros; apply stepwise_ret].
Qed.
Lemma for_tenant_worldly {A} r now (k : string -> M site (hub_reply A)) :
  (forall tenant, worldly (own_key sha256hex r) now (k tenant)) ->
  worldly (own_key sha256hex r) now (for_tenant trusted_proxies sha256hex r now k).
Proof. intros Hk. pose proof (authTenant_worldly r now) as Ha. unfold for_tenant, enforceRate. worldly. apply Hk. Qed.

(** A query on the rows, and the answer the handler makes of its result. *)
Lemma wp_read_then {A B} r now s (P : string -> B -> Prop) (m : M rows_db A) (K : A -> M site (hub_reply B))
    (k : A -> B) after e s1 tenant :
  (forall a, K a = answer_with (k a)) ->
  same_stores s s1 -> reads_as r now s tenant ->
  wp m (fun res d => d = i_rows (st_ingest s) /\ forall a, res = Ok a -> P tenant (k a)) (i_rows (st_ingest s)) ->
  wp (let* rows := attempt (on_rows m) in
      match rows with Err _ => ret (Build_hub_reply after (Err e)) | Ok a => K a end)
    (scoped r now s P) s1.
Proof.
  intros HK (Hi & Ha & Hp) Hr Hm. apply wp_try. unfold on_rows, on_ingest. apply wp_zoom, wp_zoom. rewrite Hi.
  eapply wp_mono; [exact Hm|]. intros res d [-> HP].
  assert (Hs2 : same_stores s (with_ingest (with_rows (fun _ => i_rows (st_ingest s)) (st_ingest s)) s1)).
  { split_and!; [|done..]. simpl. by destruct (st_ingest s). }
  destruct res as [a|]; [rewrite HK; by apply (scoped_answer _ _ _ _ _ tenant); auto|by apply scoped_refused].
Qed.
Lemma wp_read {A B} r now s (P : string -> B -> Prop) (m : M rows_db A) (k : A -> B) after e s1 tenant :
  same_stores s s1 -> reads_as r now s tenant ->
  wp m (fun res d => d = i_rows (st_ingest s) /\ forall a, res = Ok a -> P tenant (k a)) (i_rows (st_ingest s)) ->
  wp (let* rows := attempt (on_rows m) in
      match rows with Err _ => ret (Build_hub_reply after (Err e)) | Ok a => answer_with (k a) end)
    (scoped r now s P) s1.
Proof. by apply wp_read_then. Qed.

(** What each endpoint may answer for a tenant. *)
Definition own_metrics (conv : Z -> Z) (q : read_query) (s : site) (tenant : string) (a : read_reply metricDataPoint) : Prop :=
  forall point, point ∈ rr_Data a -> exists m, m ∈ d_metrics (i_rows (st_ingest s)) /\ m_TenantID m = tenant /\
    (rq_server q <> EmptyString -> m_ServerID m = rq_server q) /\ point = metric_point (scan_metric conv m).
Definition own_processes (q : read_query) (s : site) (tenant : string) (a : read_reply processDataPoint) : Prop :=
  forall point, point ∈ rr_Data a -> exists p, p ∈ d_processes (i_rows (st_ingest s)) /\ p_TenantID p = tenant /\
    (rq_server q <> EmptyString -> p_ServerID p = rq_server q) /\ point = process_point p.
Definition own_servers (s : site) (tenant : string) (a : page_reply string) : Prop :=
  forall id, id ∈ pr_Data a -> exists m, m ∈ d_metrics (i_rows (st_ingest s)) /\ m_TenantID m = tenant /\ m_ServerID m = id.

Lemma page_of_data {R P} range limit (point : R -> P) `{Row R} n rows :
  rr_Data (page_of range limit point (reply_of n rows)) = map point rows.
Proof. unfold page_of, reply_of. simpl. by destruct (match last rows with Some _ => _ | None => _ end). Qed.

Lemma wp_handleMetrics (conv : Z -> Z) r q now s :
  hb_epoch (w_hub (st_world s)) <= t_epoch (w_auth (st_world s)) ->
  wp (handleMetrics trusted_proxies sha256hex conv r q now) (scoped r now s (own_metrics conv q s)) s.
Proof.
  intros He. apply wp_for_tenant; [done|]. intros tenant s1 Hs Hr. destruct (parseReadPage _ _) as [page|] eqn:Ep;
    [|by apply scoped_refused].
  apply (wp_read _ _ _ _ _ _ _ _ _ tenant); [done..|]. unfold metrics_reply. apply wp_mbind, wp_lift. rewrite Ep.
  unfold queryMetricsPage. apply wp_mbind, wp_mbind, wp_lift. destruct (RequireTenant _) as [[]|]; [|done].
  eapply wp_mono; [apply wp_QueryMetricsQ|]. intros [rows|] d [-> Hq]; [|done]. apply wp_ret. split; [done|].
  intros ? [= <-]. destruct (Hq rows eq_refl) as (_ & _ & stored & -> & Hin & Hsc). intros point.
  rewrite page_of_data. intros (? & -> & (m & -> & Hm)%list_elem_of_fmap)%list_elem_of_fmap.
  rewrite Forall_forall in Hsc. destruct (Hsc m Hm) as (Ht & Hsv & _). by exists m; auto.
Qed.
Lemma wp_handleProcesses r q now s :
  hb_epoch (w_hub (st_world s)) <= t_epoch (w_auth (st_world s)) ->
  wp (handleProcesses trusted_proxies sha256hex r q now) (scoped r now s (own_processes q s)) s.
Proof.
  intros He. apply wp_for_tenant; [done|]. intros tenant s1 Hs Hr. destruct (parseReadPage _ _) as [page|] eqn:Ep;
    [|by apply scoped_refused].
  apply (wp_read _ _ _ _ _ _ _ _ _ tenant); [done..|]. unfold processes_reply. apply wp_mbind, wp_lift. rewrite Ep.
  apply wp_mbind. eapply wp_mono; [apply wp_QueryProcessesQ|]. intros [rows|] d [-> Hq]; [|done]. apply wp_ret.
  split; [done|]. intros ? [= <-]. destruct (Hq rows eq_refl) as (_ & _ & Hin & Hsc). intros point.
  rewrite page_of_data. intros (m & -> & Hm)%list_elem_of_fmap.
  rewrite Forall_forall in Hsc. destruct (Hsc m Hm) as (Ht & Hsv & _). by exists m; auto.
Qed.
Lemma select_servers_elem tenant after limit table (id : string) :
  id ∈ select_servers tenant after limit table -> exists m, m ∈ table /\ m_TenantID m = tenant /\ m_ServerID m = id.
Proof.
  rewrite select_servers_page. intros (i & Hi)%list_elem_of_lookup. apply lookup_take_Some in Hi as [Hi _].
  apply list_elem_of_lookup_2, list_elem_of_filter in Hi as [_ Hi]. by apply all_servers_elem in Hi as [_ ?].
Qed.
Lemma wp_handleServers r q now s :
  hb_epoch (w_hub (st_world s)) <= t_epoch (w_auth (st_world s)) ->
  wp (handleServers trusted_proxies sha256hex r q now) (scoped r now s (own_servers s)) s.
Proof.
  intros He. apply wp_for_tenant; [done|]. intros tenant s1 Hs Hr. destruct (parseServerPage _ _) as [page|] eqn:Ep;
    [|by apply scoped_refused].
  apply (wp_read _ _ _ _ _ (fun a => a) _ _ _ tenant); [done..|]. unfold servers_reply. apply wp_mbind, wp_lift. rewrite Ep.
  unfold QueryServersPage. apply wp_mbind, wp_mbind, wp_lift. destruct (RequireTenant _) as [[]|]; [|done].
  apply wp_query; [done|]. apply wp_ret. split; [done|]. intros ? [= <-] id. apply select_servers_elem.
Qed.

Lemma reads_worldly (conv : Z -> Z) r q source now :
  let quiet {A} (m : M site A) := worldly (own_key sha256hex r) now m in
  quiet (handleMetrics trusted_proxies sha256hex conv r q now) /\
  quiet (handleProcesses trusted_proxies sha256hex r q now) /\
  quiet (handleServers trusted_proxies sha256hex r q now) /\
  quiet (handleAlerts trusted_proxies sha256hex r source now).
Proof.
  cbv zeta. split_and!; try (apply for_tenant_worldly; unfold on_rows; worldly).
  pose proof (authTenant_worldly r now) as Ha. unfold handleAlerts, enforceRate. worldly.
Qed.
Lemma scoped_guarded {A} r now s (P : string -> A -> Prop) (m : M site (hub_reply A)) :
  worldly (own_key sha256hex r) now m -> wp m (scoped r now s P) s ->
  forall fs, let '(res, s', _) := m s fs in
    st_ingest s' = st_ingest s /\ w_auth (st_world s') = w_auth (st_world s) /\
    leaves (own_key sha256hex r) (st_world s) (st_world s') /\
    exists rp, res = Ok rp /\ forall a, hr_Result rp = Ok a -> exists tenant, reads_as r now s tenant /\ P tenant a.
Proof.
  intros Hq Hm fs. pose proof (worldly_leaves _ _ m s Hq fs) as Hl. specialize (Hm fs).
  destruct (m s fs) as [[res s'] fs']. by destruct Hm as ((? & ? & _) & ?).
Qed.

(** An alert names its tenant. *)
Definition alert_of (tenant : string) (a : gmap string json_value) : Prop := a !! "tenant_id" = Some (JString tenant).
Lemma filterByTenant_own alerts tenant : Forall (alert_of tenant) (filterByTenant alerts tenant).
Proof.
  unfold filterByTenant. destruct (is_empty tenant); [constructor|]. apply List.Forall_forall.
  intros a [_ Ha]%List.filter_In. unfold alert_of. destruct (a !! _) as [[| | |]|]; try done.
  by apply String.eqb_eq in Ha as ->.
Qed.
Lemma wp_handleAlerts r source now s :
  hb_epoch (w_hub (st_world s)) <= t_epoch (w_auth (st_world s)) ->
  wp (handleAlerts trusted_proxies sha256hex r source now)
    (scoped r now s (fun tenant a => Forall (alert_of tenant) (a.1.1 ++ a.2))) s.
Proof.
  intros He. unfold handleAlerts. apply wp_mbind.
  eapply wp_mono; [by apply wp_authTenant|]. intros ? s1 (t & -> & Hs & Ht).
  destruct t as [tenant|e]; [|by apply scoped_refused]. apply wp_enforceRate; [done|]. intros s2 Hs2.
  destruct source as [[active history]|]; [|by apply scoped_refused].
  apply (scoped_answer _ _ _ _ _ tenant); [done|by apply Ht|]. simpl. apply Forall_app; split; apply filterByTenant_own.
Qed.
End reads.

(** C8. Reads of the API.  The endpoints for metrics, processes, servers and
    alerts always answer; the request itself writes to no store, and all it
    leaves running is [TouchAPIKey] for the key in its header, the usage record
    of that key.  Whatever they return belongs to one tenant: that of the key or session the request is authenticated by
    (with the scope to read), or the local tenant on a machine without accounts.
    Metrics and processes are those of the server that was asked for. *)
Theorem api_reads_are_scoped `{Unicode} `{Net} `{OriginParser} `{Dialect} `{HubJSON} `{Collation}
    trusted_proxies sha256hex conv r q source now s :
  hub_ok (st_world s) ->
  let guarded {A} (m : M site (hub_reply A)) (P : string -> A -> Prop) :=
    forall fs, let '(res, s', _) := m s fs in
      st_ingest s' = st_ingest s /\ w_auth (st_world s') = w_auth (st_world s) /\
      leaves (own_key sha256hex r) (st_world s) (st_world s') /\
      exists rp, res = Ok rp /\ forall a, hr_Result rp = Ok a ->
        exists tenant, reads_as trusted_proxies sha256hex r now s tenant /\ P tenant a in
  guarded (handleMetrics trusted_proxies sha256hex conv r q now)
    (fun tenant a => forall point, point ∈ rr_Data a -> exists m, m ∈ d_metrics (i_rows (st_ingest s)) /\
       m_TenantID m = tenant /\ (rq_server q <> EmptyString -> m_ServerID m = rq_server q) /\
       point = metric_point (scan_metric conv m)) /\
  guarded (handleProcesses trusted_proxies sha256hex r q now)
    (fun tenant a => forall point, point ∈ rr_Data a -> exists p, p ∈ d_processes (i_rows (st_ingest s)) /\
       p_TenantID p = tenant /\ (rq_server q <> EmptyString -> p_ServerID p = rq_server q) /\ point = process_point p) /\
  guarded (handleServers trusted_proxies sha256hex r q now)
    (fun tenant a => forall id, id ∈ pr_Data a ->
       exists m, m ∈ d_metrics (i_rows (st_ingest s)) /\ m_TenantID m = tenant /\ m_ServerID m = id) /\
  guarded (handleAlerts trusted_proxies sha256hex r source now)
    (fun tenant a => Forall (fun alert => alert !! "tenant_id" = Some (JString tenant)) (a.1.1 ++ a.2)).
Proof.
  intros [_ _ He]. destruct (reads_worldly trusted_proxies sha256hex conv r q source now) as (Q1 & Q2 & Q3 & Q4).
  split; [|split; [|split]]; (apply scoped_guarded; [done|]).
  - by apply wp_handleMetrics.
  - by apply wp_handleProcesses.
  - by apply wp_handleServers.
  - by apply wp_handleAlerts.
Qed.

(** ** Start-up *)

Lemma listen_address_port `{Net} hubMode e configured port host n :
  listen_address hubMode e configured port = Ok (host, n) -> 1 <= n <= 65535.
Proof.
  unfold listen_address, result_bind. intros Hl. repeat (case_match; simplify_eq); bools; lia.
Qed.
Lemma listen_address_local `{Net} e configured port host n :
  listen_address false e configured port = Ok (host, n) ->
  host = "127.0.0.1" \/ exists ip, net_ParseIP host = Some ip /\ ip_IsLoopback ip = true.
Proof.
  unfold listen_address, result_bind. intros Hl. repeat (case_match; simplify_eq/=); [by left|].
  right. eexists. split; [done|]. by bools.
Qed.
Lemma listen_address_hub `{Net} e configured port r : listen_address true e configured port = Ok r -> e = None.
Proof. by destruct e. Qed.
Lemma ingest_setup_ready e hasKeys backend init set :
  ingest_setup e hasKeys backend init = (set, None) ->
  e = None /\ hasKeys = true /\ backend = true /\ init = true /\ set = true.
Proof. destruct e, hasKeys, backend, init; by intros [= <-]. Qed.
Lemma budget_setting_valid raw dflt v :
  budget_setting raw dflt = (v, true) -> raw = EmptyString \/ exists v, ParseInt raw = Some v /\ 1 <= v.
Proof.
  unfold budget_setting. intros Hb. destruct raw as [|c raw]; [by left|right]. simpl in Hb.
  destruct (ParseInt _) as [x|]; [|done]. exists x. split; [done|]. destruct (Z.ltb_spec x 1); [done|lia].
Qed.
Lemma New_policy_ready rows bytes agentRows agentBytes policy :
  New_policy rows bytes agentRows agentBytes = (policy, None) ->
  policy_Validate policy = Ok tt /\
  Forall (fun raw => raw = EmptyString \/ exists v, ParseInt raw = Some v /\ 1 <= v) [rows; bytes; agentRows; agentBytes].
Proof.
  unfold New_policy. intros [= <- Hn]. destruct (policy_Validate _) as [[]|] eqn:Ev; [|done]. split; [done|].
  destruct (_ && _) eqn:E; [|done]. bools.
  repeat (constructor; [eapply budget_setting_valid; rewrite (surjective_pairing (budget_setting _ _)); by f_equal|]).
  constructor.
Qed.

(** Start-up is closed.  Without hub mode (no accounts) the server only
    ever listens on the loopback interface; a hub listens only when its
    ingestion is ready, and ingestion is ready only with a valid budget, a
    credential store and a backend whose ingestion was initialised. *)
Lemma starts_closed `{Net} e hasKeys backend init hubMode configured port host n
    rows bytes agentRows agentBytes policy :
  New_policy rows bytes agentRows agentBytes = (policy, e) ->
  let '(set, ingestionErr) := ingest_setup e hasKeys backend init in
  listen_address hubMode (if hubMode then ingestionErr else e) configured port = Ok (host, n) ->
  1 <= n <= 65535 /\
  if hubMode
  then set = true /\ hasKeys = true /\ backend = true /\ init = true /\ policy_Validate policy = Ok tt /\
    Forall (fun raw => raw = EmptyString \/ exists v, ParseInt raw = Some v /\ 1 <= v) [rows; bytes; agentRows; agentBytes]
  else host = "127.0.0.1" \/ exists ip, net_ParseIP host = Some ip /\ ip_IsLoopback ip = true.
Proof.
  intros Hp. destruct (ingest_setup _ _ _ _) as [set ie] eqn:Ei. intros Hl.
  split; [by eapply listen_address_port|]. destruct hubMode; [|by eapply listen_address_local].
  apply listen_address_hub in Hl as ->. apply ingest_setup_ready in Ei as (-> & -> & -> & -> & ->).
  by apply New_policy_ready in Hp.
Qed.

(** ** Witnesses: a hub with one agent *)

Module SampleHub.
Definition key : APIKeyRecord :=
  {| rec_ID := 0; rec_TenantID := "t_a"; rec_ClientName := "Acme"; rec_KeyHash := "#wma_one";
     rec_KeyPrefix := PrefixAgent; rec_Kind := KindAgent; rec_Scope := ScopeIngest;
     rec_ExpiresAt := 0; rec_MaxUses := 0; rec_Uses := 0; rec_ServerID := "a_1";
     rec_IssuedBy := "ops"; rec_CreatedAt := 100 * second; rec_LastSeenAt := 0; rec_Revoked := false |}.
(** Every body is the sample batch. *)
Definition json : HubJSON :=
  {| hj_tokens _ := [TScalar]; hj_batch _ := Ok sample_batch; hj_metric _ := Err errSyntax; hj_process _ := Err errSyntax;
     hj_marshal := sample_marshal; hj_rfc3339nano _ := "t"; hj_sha256hex := sample_digest; hj_sha256_u64 _ := 0 |}.
Definition start : site :=
  {| st_world := {| w_hub := New true true 0;
                    w_auth := @run_auth sqlite [(OpUpsert key (100 * second), [])] empty_auth; w_audit := empty_audit |};
     st_limiter := newRateLimiter defaultRatePerSecond defaultBurst 0; st_ingest := empty_ingest;
     st_policy := DefaultIngestPolicy; st_ingestion := true; st_ingestionErr := None; st_pressure := false;
     st_viewers := ∅; st_health := {| he_CheckedAt := zero_time; he_Err := None |}; st_startedAt := 0 |}.
Definition post : request :=
  {| hr_Method := "POST"; hr_TLS := true; hr_ForwardedProto := empty_str; hr_RemoteAddr := "10.0.0.1"; hr_Host := "hub";
     hr_Origin := empty_str; hr_QueryKey := empty_str; hr_XAPIKey := "wma_one"; hr_Cookie := None |}.
Definition upload : M site (hub_reply (list IngestOutcome)) :=
  @handleBatch Sample.unicode Sample.net Sample.origins sqlite json empty_str Sample.sha post (Some "{}") sample_time.
(** The same hub with a key that reads, and samples of two tenants. *)
Definition reader : APIKeyRecord :=
  {| rec_ID := 0; rec_TenantID := "t_a"; rec_ClientName := "Acme"; rec_KeyHash := "#wmr_one";
     rec_KeyPrefix := PrefixRead; rec_Kind := KindRead; rec_Scope := ScopeRead;
     rec_ExpiresAt := 0; rec_MaxUses := 0; rec_Uses := 0; rec_ServerID := empty_str;
     rec_IssuedBy := "ops"; rec_CreatedAt := 100 * second; rec_LastSeenAt := 0; rec_Revoked := false |}.
Definition reading : site :=
  with_ingest {| i_rows := sample_db; i_receipts := []; i_budgets := ∅ |}
    (with_world {| w_hub := New true true 0;
                   w_auth := @run_auth sqlite [(OpUpsert reader (100 * second), [])] empty_auth; w_audit := empty_audit |}
       start).
Definition servers_of : M site (hub_reply (page_reply string)) :=
  @handleServers Sample.unicode Sample.net Sample.origins sqlite byte_collation empty_str Sample.sha Sample.get
    {| rq_range := empty_str; rq_server := empty_str; rq_limit := empty_str; rq_cursor := empty_str |} sample_time.
End SampleHub.

Lemma uploads_are_bound_witness :
  let run := SampleHub.upload SampleHub.start [] in
  w_auth (st_world run.1.2) = w_auth (st_world SampleHub.start) /\
  exists rp outcomes, run.1.1 = Ok rp /\ hr_Result rp = Ok outcomes /\ map io_EventID outcomes = map ev_EventID (ib_Events sample_batch).
Proof.
  cbv zeta. destruct (SampleHub.upload SampleHub.start []) as [[res s'] fs'] eqn:E.
  destruct (@uploads_are_bound Sample.unicode Sample.net Sample.origins sqlite SampleHub.json empty_str Sample.sha
    SampleHub.post false empty_str (Some "{}") sample_time SampleHub.start [] res s' fs') as (Ha & _ & rp & -> & Hrp).
  - apply (started_until true true 0 _ empty_audit 0); [apply run_auth_ok|discriminate|discriminate].
  - exact E.
  - split; [exact Ha|]. assert (Hr : hr_Result rp = Ok (map (fun e => accepted (ev_EventID e)) (ib_Events sample_batch))).
    { apply (f_equal (fun p => p.1.1)) in E. vm_compute in E. injection E as <-. reflexivity. }
    exists rp. eexists. split; [reflexivity|]. split; [exact Hr|reflexivity].
Defined.

Lemma api_reads_are_scoped_witness :
  (exists rp page, run_result SampleHub.servers_of SampleHub.reading [] = Ok rp /\ hr_Result rp = Ok page /\
     pr_Data page = ["s1"; "s2"]) /\
  forall fs, let '(res, s', _) := SampleHub.servers_of SampleHub.reading fs in
    st_ingest s' = st_ingest SampleHub.reading /\ exists rp, res = Ok rp.
Proof.
  split.
  - destruct (run_result SampleHub.servers_of SampleHub.reading []) as [rp|] eqn:E; [|by vm_compute in E].
    vm_compute in E. injection E as <-. do 2 eexists. by split_and!.
  - assert (Hok : hub_ok (st_world SampleHub.reading)).
    { apply (started_until true true 0 _ empty_audit 0); [apply run_auth_ok|discriminate|discriminate]. }
    destruct (@api_reads_are_scoped Sample.unicode Sample.net Sample.origins sqlite SampleHub.json byte_collation
      empty_str Sample.sha wrap_u64 Sample.get
      {| rq_range := empty_str; rq_server := empty_str; rq_limit := empty_str; rq_cursor := empty_str |}
      None sample_time SampleHub.reading Hok) as (_ & _ & Hs & _).
    intros fs. specialize (Hs fs). unfold SampleHub.servers_of. revert Hs.
    destruct (handleServers _ _ _ _ _ _ fs) as [[res s'] fs']. intros (Hi & _ & _ & rp & Hr & _). split; [done|by exists rp].
Defined.

Lemma starts_closed_witness :
  @listen_address Sample.net false None "127.0.0.1" "8080" = Ok ("127.0.0.1", 8080) /\
  1 <= 8080 <= 65535 /\ ("127.0.0.1" = "127.0.0.1" \/
    exists ip, @net_ParseIP Sample.net "127.0.0.1" = Some ip /\ @ip_IsLoopback Sample.net ip = true).
Proof.
  split; [reflexivity|].
  apply (@starts_closed Sample.net None true true true false "127.0.0.1" "8080" "127.0.0.1" 8080
    empty_str empty_str empty_str empty_str DefaultIngestPolicy); reflexivity.
Defined.
