(* ===== verification/Admin.v ===== *)
(** * Enrollment and administration over HTTP ([server/enroll.go],
      [server/audit.go])

    The endpoints that issue, rotate, revoke and list credentials.  Each of
    them authenticates first, records what it did in the audit trail, and gives
    a secret out only after that.  Random bytes and the decoders of the request
    bodies are parameters; a decoder answers [None] for every body the standard
    library refuses, the over-long ones among them.  Log output and CORS headers
    are left out. *)

From S2P Require Export ServerProofs.
Open Scope list_scope.
Open Scope Z_scope.

(** ** Requests and replies *)

Record enrollRequest := {
  er_EnrollCode : string;
  er_ServerID : string;
  er_Hostname : string;
  er_OS : string;
  er_Version : string;
  er_CurrentToken : string
}.
Record enrollResponse := { en_Token : string; en_TenantID : string; en_ServerID : string }.
Record adminEnrollCodeRequest := {
  ac_ClientName : string;
  ac_TenantID : string;
  ac_MaxUses : Z;
  ac_TTLHours : Z
}.
Record adminEnrollCodeResponse := {
  cr_Code : string;
  cr_ClientName : string;
  cr_TenantID : string;
  cr_ExpiresAt : Z;
  cr_MaxUses : Z
}.
Record agentListItem := {
  al_ServerID : string;
  al_ClientName : string;
  al_KeyPrefix : string;
  al_CreatedAt : Z;
  al_LastSeenAt : Z;
  al_Revoked : bool
}.
Record clientInfo := { ci_ClientName : string; ci_TenantID : string; ci_Kind : string; ci_KeyPrefix : string; ci_Revoked : bool }.
Record rotateRequest := { ro_ServerID : string; ro_TenantID : string }.
Record clientCreated := { cc_ClientName : string; cc_TenantID : string; cc_ReadToken : string }.
Record expectedAgent := { xa_ServerID : string; xa_LastSeenAt : Z; xa_Revoked : bool; xa_Completeness : string }.

(** The bodies of the requests. *)
Class AdminJSON := {
  aj_enroll : string -> option enrollRequest;
  aj_code : string -> option adminEnrollCodeRequest;
  aj_client : string -> option string;
  aj_rotate : string -> option rotateRequest
}.

(** [^[A-Za-z0-9._-]{3,128}$] *)
Definition server_id_char (c : ascii) : bool :=
  ((65 <=? code c) && (code c <=? 90)) || ((97 <=? code c) && (code c <=? 122)) || is_digit c || mem_char c "._-".
Definition serverIDRegex (s : string) : bool :=
  string_forall server_id_char s && (3 <=? slen s) && (slen s <=? 128).

Definition agent_item (a : APIKeyRecord) : agentListItem :=
  {| al_ServerID := rec_ServerID a; al_ClientName := rec_ClientName a; al_KeyPrefix := rec_KeyPrefix a;
     al_CreatedAt := Unix (rec_CreatedAt a); al_LastSeenAt := Unix (rec_LastSeenAt a); al_Revoked := rec_Revoked a |}.
Definition client_info (k : APIKeyRecord) : clientInfo :=
  {| ci_ClientName := rec_ClientName k; ci_TenantID := rec_TenantID k; ci_Kind := rec_Kind k;
     ci_KeyPrefix := rec_KeyPrefix k; ci_Revoked := rec_Revoked k |}.
Definition expected_agent (a : APIKeyRecord) : expectedAgent :=
  {| xa_ServerID := rec_ServerID a; xa_LastSeenAt := Unix (rec_LastSeenAt a); xa_Revoked := rec_Revoked a;
     xa_Completeness := "not_assessed" |}.

Section admin.
Context `{Unicode} `{Net} `{OriginParser} `{Dialect} `{AdminJSON}.
Context (trusted_proxies : string) (sha256hex : string -> string).
(** The order in which the backend lists names. *)
Context (key_le : key_row -> key_row -> Prop) `{!forall a b, Decision (key_le a b)}.

Definition on_store {A : Type} (m : M auth_db A) : M site A := on_world (on_keys m).
Definition admin_event (tenant kind prefix action target id : string) : AuditEvent :=
  {| au_At := zero_time; au_TenantID := tenant; au_ActorKind := kind; au_ActorPrefix := prefix;
     au_Action := action; au_TargetType := target; au_TargetID := id |}.
Definition append_audit (ev : AuditEvent) (now : Z) : M site (result error unit) :=
  attempt (on_world (recordAudit ev now)).
(** The record of what a principal did. *)
Definition audit_as (p : Principal) (tenant action target id : string) (now : Z) : M site (result error unit) :=
  let* prefix := on_world (actorPrefix (pr_Kind p) (pr_CredentialID p) now) in
  append_audit (admin_event tenant (pr_Kind p) prefix action target id) now.

(** *** [POST /api/enroll] *)

(** What the request asks of the store; [token] is the candidate token. *)
Definition enrollment_of (req : enrollRequest) (token : string) : EnrollmentRequest :=
  let current := TrimSpace (er_CurrentToken req) in
  {| rq_CodeHash := HashEnrollCode sha256hex (TrimSpace (er_EnrollCode req));
     rq_ServerID := TrimSpace (er_ServerID req);
     rq_CurrentTokenHash := if is_empty current then EmptyString else HashAPIKey sha256hex current;
     rq_OperatorApproved := false;
     rq_Token := token; rq_TokenHash := HashAPIKey sha256hex token; rq_TokenPrefix := ExtractKeyPrefix token |}.
Definition enroll_refusal (err : error) : Z * string :=
  if Is err ErrRotationRequiresProof then (409, "replacement requires current_token or operator approval")
  else if Is err ErrEnrollmentConflict then (409, "enrollment conflict; retry")
  else if Is err ErrAPIKeyNotFound then (401, "enrollment failed")
  else (500, "internal server error").
(** Once the store has issued or recovered the token. *)
Definition enroll_result (server : string) (res : EnrollmentResult) (now : Z) : M site (hub_reply enrollResponse) :=
  let* _ := on_world (invalidateHashes (rs_RevokedHashes res) now) in
  let* audited := append_audit (admin_event (rs_TenantID res) KindEnroll "wme_" "enroll.completed" "agent" server) now in
  match audited with
  | Err _ =>
      let* _ := (if rs_Recovered res then ret tt
                 else
                   let* revoked := attempt (on_store (RevokeAgent (rs_TenantID res) server now)) in
                   match revoked with
                   | Ok _ => on_world (invalidateHashes [HashAPIKey sha256hex (rs_Token res)] now)
                   | Err _ => ret tt
                   end) in
      refuse 503 "audit unavailable"
  | Ok _ => answer_with {| en_Token := rs_Token res; en_TenantID := rs_TenantID res; en_ServerID := server |}
  end.
(** [insecure] is the test override; [rand] the random part of the token.
    Both backends are an [AdminStore], so the assertion on [s.keys] fails just
    when there is none. *)
Definition handleEnroll (insecure : bool) (r : request) (body : string) (rand : option string) (now : Z)
  : M site (hub_reply enrollResponse) :=
  if negb (String.eqb (hr_Method r) "POST") then refuse 405 "method not allowed"
  else if negb insecure && negb (requestIsHTTPS trusted_proxies r) then refuse 426 "enrollment requires HTTPS"
  else
    let* ok := limited ("enroll:" +:+ clientIP r) now in
    if negb ok then refuse_for 10 429 "rate limit exceeded"
    else match aj_enroll body with
    | None => refuse 400 "invalid enrollment payload"
    | Some req =>
        if is_empty (TrimSpace (er_EnrollCode req)) || is_empty (TrimSpace (er_ServerID req))
        then refuse 400 "enroll_code and server_id are required"
        else if negb (serverIDRegex (TrimSpace (er_ServerID req))) then refuse 400 "invalid server_id format"
        else inspect (fun s =>
          if negb (hb_hasKeys (w_hub (st_world s))) then refuse 503 "enrollment service unavailable"
          else match rand with
          | None => refuse 500 "internal server error"
          | Some rand =>
              let* res := attempt (on_store (CompleteEnrollment (enrollment_of req (GenerateToken KindAgent rand)) now)) in
              match res with
              | Err err => let '(status, message) := enroll_refusal err in refuse status message
              | Ok res => enroll_result (TrimSpace (er_ServerID req)) res now
              end
          end)
    end.

(** What every other endpoint starts with. *)
Definition as_admin {A : Type} (r : request) (scope : string) (now : Z) (k : Principal -> M site (hub_reply A))
  : M site (hub_reply A) :=
  let* auth := authorize trusted_proxies sha256hex r scope now in
  match auth with
  | Err e => refuse_as e
  | Ok p => k p
  end.

(** *** [POST /api/admin/enroll-codes] *)

Definition code_record (tenant client hash : string) (maxUses expiresAt now : Z) : APIKeyRecord :=
  {| rec_ID := 0; rec_TenantID := tenant; rec_ClientName := client; rec_KeyHash := hash; rec_KeyPrefix := "wme_";
     rec_Kind := KindEnroll; rec_Scope := ScopeEnroll; rec_ExpiresAt := expiresAt; rec_MaxUses := maxUses;
     rec_Uses := 0; rec_ServerID := EmptyString; rec_IssuedBy := "admin"; rec_CreatedAt := now;
     rec_LastSeenAt := zero_time; rec_Revoked := false |}.
(** The tenant a code is for: the one named, or the only one of that name;
    the empty string is a new client. *)
Definition code_tenant (req : adminEnrollCodeRequest) (name : string) : M site (result reply string) :=
  if negb (is_empty (ac_TenantID req)) then ret (Ok (TrimSpace (ac_TenantID req)))
  else
    let* keys := attempt (on_store (ListAPIKeys key_le)) in
    match keys with
    | Err _ => ret (Err (Reply 500 "failed to list credentials"))
    | Ok keys =>
        match UniqueTenantForClientName keys name with
        | Err _ => ret (Err (Reply 409 "client_name is ambiguous; pass tenant_id"))
        | Ok id => ret (Ok id)
        end
    end.
(** A 64-bit [time.Duration] of hours. *)
Definition hours (n : Z) : Z := wrap_i64 (n * hour).
Definition issue_code (p : Principal) (tenant name : string) (maxUses ttlHours : Z) (code : string) (now : Z)
  : M site (hub_reply adminEnrollCodeResponse) :=
  let hash := HashEnrollCode sha256hex code in
  let expiresAt := now + hours ttlHours in
  let* stored := attempt (on_store (UpsertAPIKey (code_record tenant name hash maxUses expiresAt now) now)) in
  match stored with
  | Err _ => refuse 500 "failed to save enroll code"
  | Ok _ =>
      let* audited := audit_as p tenant "enroll.code_issued" "client" name now in
      match audited with
      | Err _ =>
          let* _ := on_world (revokeUnauditedHash hash now) in
          refuse 503 "audit unavailable"
      | Ok _ =>
          answer_with {| cr_Code := code; cr_ClientName := name; cr_TenantID := tenant;
                         cr_ExpiresAt := Unix expiresAt; cr_MaxUses := maxUses |}
      end
  end.
(** [hex] and [bytes] are the random parts of a new tenant and of the code. *)
Definition handleAdminEnrollCodes (r : request) (body : string) (hex : option string) (bytes : option (list Z)) (now : Z)
  : M site (hub_reply adminEnrollCodeResponse) :=
  if negb (String.eqb (hr_Method r) "POST") then refuse 405 "method not allowed"
  else as_admin r ScopeAdmin now (fun p =>
    match aj_code body with
    | None => refuse 400 "invalid request body"
    | Some req =>
        let name := TrimSpace (ac_ClientName req) in
        if is_empty name then refuse 400 "client_name is required"
        else
          let maxUses := if ac_MaxUses req <=? 0 then 25 else ac_MaxUses req in
          let ttlHours := if ac_TTLHours req <=? 0 then 336 else ac_TTLHours req in
          let* tenant := code_tenant req name in
          match tenant with
          | Err e => refuse_as e
          | Ok tenant =>
              match (if is_empty tenant then NewTenantID <$> hex else Some tenant) with
              | None => refuse 500 "failed to generate tenant ID"
              | Some tenant =>
                  match bytes with
                  | None => refuse 500 "failed to generate enroll code"
                  | Some bytes => issue_code p tenant name maxUses ttlHours (GenerateEnrollCode bytes) now
                  end
              end
          end
    end).

(** *** [GET] and [DELETE /api/admin/agents] *)

Inductive agents_reply :=
| AgentsListed (agents : list agentListItem)
| AgentRevoked (server : string) (revoked : Z).
(** The tenant a listing covers; the empty string is all of them. *)
Definition list_tenant (p : Principal) (query : string) : string :=
  if String.eqb (pr_Kind p) KindAdmin && String.eqb (pr_Permissions p) ScopeAdmin
  then TrimSpace query
  else pr_TenantID p.
(** The tenant an operator acts on. *)
Definition target_tenant (p : Principal) (query : string) : string :=
  if String.eqb (pr_Kind p) KindAdmin && negb (is_empty (TrimSpace query)) then TrimSpace query else pr_TenantID p.
(** [hashes] are the tokens that were active; their lookup may have failed. *)
Definition revoke_now (p : Principal) (tenant server : string) (hashes : list string) (now : Z) : M site (hub_reply agents_reply) :=
  let* revoked := attempt (on_store (RevokeAgent tenant server now)) in
  match revoked with
  | Err _ => refuse 500 "failed to revoke agent"
  | Ok n =>
      let* _ := on_world (invalidateHashes hashes now) in
      let* audited := audit_as p tenant "agent.revoked" "agent" server now in
      match audited with
      | Err _ => refuse 503 "audit unavailable"
      | Ok _ => answer_with (AgentRevoked server n)
      end
  end.
Definition revoke_agent (p : Principal) (tenant server : string) (now : Z) : M site (hub_reply agents_reply) :=
  let* hashes := attempt (on_store (ActiveAgentHashes tenant server)) in
  revoke_now p tenant server (match hashes with Ok hs => hs | Err _ => [] end) now.
Definition handleAdminAgents (r : request) (tenant_query server_query : string) (now : Z) : M site (hub_reply agents_reply) :=
  as_admin r ScopeRead now (fun p =>
    if String.eqb (hr_Method r) "GET" then
      let* agents := attempt (on_store (ListAgents (list_tenant p tenant_query))) in
      match agents with
      | Err _ => refuse 500 "failed to list agents"
      | Ok agents => answer_with (AgentsListed (map agent_item agents))
      end
    else if String.eqb (hr_Method r) "DELETE" then
      if negb (permits p ScopeAdmin) then refuse_as forbidden
      else if is_empty (TrimSpace server_query) then refuse 400 "server_id is required"
      else revoke_agent p (target_tenant p tenant_query) (TrimSpace server_query) now
    else refuse 405 "method not allowed").

(** *** [GET] and [POST /api/admin/clients] *)

Inductive clients_reply :=
| ClientsListed (clients : list clientInfo)
| ClientCreated (c : clientCreated).
Definition client_record (tenant client hash prefix : string) (now : Z) : APIKeyRecord :=
  {| rec_ID := 0; rec_TenantID := tenant; rec_ClientName := client; rec_KeyHash := hash; rec_KeyPrefix := prefix;
     rec_Kind := KindRead; rec_Scope := ScopeRead; rec_ExpiresAt := zero_time; rec_MaxUses := 0; rec_Uses := 0;
     rec_ServerID := EmptyString; rec_IssuedBy := "admin_api"; rec_CreatedAt := now; rec_LastSeenAt := zero_time;
     rec_Revoked := false |}.
Definition create_client (p : Principal) (name token tenant : string) (now : Z) : M site (hub_reply clients_reply) :=
  let hash := HashAPIKey sha256hex token in
  let* stored := attempt (on_store (UpsertAPIKey (client_record tenant name hash (ExtractKeyPrefix token) now) now)) in
  match stored with
  | Err _ => refuse 500 "failed to save client"
  | Ok _ =>
      let* audited := audit_as p tenant "client.created" "client" name now in
      match audited with
      | Err _ =>
          let* _ := on_world (revokeUnauditedHash hash now) in
          refuse 503 "audit unavailable"
      | Ok _ => answer_with (ClientCreated {| cc_ClientName := name; cc_TenantID := tenant; cc_ReadToken := token |})
      end
  end.
Definition handleAdminClients (r : request) (body : string) (rand hex : option string) (now : Z)
  : M site (hub_reply clients_reply) :=
  as_admin r ScopeAdmin now (fun p =>
    if String.eqb (hr_Method r) "GET" then
      let* keys := attempt (on_store (ListAPIKeys key_le)) in
      match keys with
      | Err _ => refuse 500 "failed to list clients"
      | Ok keys =>
          answer_with (ClientsListed (map client_info
            (List.filter (fun k => String.eqb (rec_Kind k) KindRead || String.eqb (rec_Kind k) KindLegacy) keys)))
      end
    else if String.eqb (hr_Method r) "POST" then
      match aj_client body with
      | None => refuse 400 "invalid request body"
      | Some name =>
          let name := TrimSpace name in
          if is_empty name then refuse 400 "client_name is required"
          else
            let* keys := attempt (on_store (ListAPIKeys key_le)) in
            match keys with
            | Err _ => refuse 500 "failed to list clients"
            | Ok keys =>
                match UniqueTenantForClientName keys name with
                | Err _ => refuse 409 "client_name is ambiguous"
                | Ok _ =>
                    if existsb (fun k => EqualFold (rec_ClientName k) name) keys then refuse 409 "client_name already exists"
                    else match rand with
                    | None => refuse 500 "failed to generate read token"
                    | Some rand =>
                        match hex with
                        | None => refuse 500 "failed to generate tenant ID"
                        | Some hex => create_client p name (GenerateToken KindRead rand) (NewTenantID hex) now
                        end
                    end
                end
            end
      end
    else refuse 405 "method not allowed").

(** *** [POST /api/admin/agents/rotate] *)

Definition rotate_refusal (err : error) : Z * string :=
  if Is err ErrAPIKeyNotFound then (404, "no active agent for that identity")
  else if Is err ErrEnrollmentConflict then (409, "enrollment conflict; retry")
  else (500, "failed to rotate agent").
Definition rotate (p : Principal) (tenant server token : string) (now : Z) : M site (hub_reply enrollResponse) :=
  let* res := attempt (on_store (ReplaceAgent tenant server token (HashAPIKey sha256hex token) (ExtractKeyPrefix token) now)) in
  match res with
  | Err err => let '(status, message) := rotate_refusal err in refuse status message
  | Ok res =>
      let* _ := on_world (invalidateHashes (rs_RevokedHashes res) now) in
      let* audited := audit_as p (rs_TenantID res) "agent.rotated" "agent" (rs_ServerID res) now in
      match audited with
      | Err _ =>
          let* _ := on_world (revokeUnauditedHash (HashAPIKey sha256hex token) now) in
          refuse 503 "audit unavailable"
      | Ok _ => answer_with {| en_Token := rs_Token res; en_TenantID := rs_TenantID res; en_ServerID := rs_ServerID res |}
      end
  end.
Definition handleAdminAgentRotate (r : request) (body : string) (rand : option string) (now : Z)
  : M site (hub_reply enrollResponse) :=
  if negb (String.eqb (hr_Method r) "POST") then refuse 405 "method not allowed"
  else as_admin r ScopeAdmin now (fun p =>
    match aj_rotate body with
    | None => refuse 400 "invalid request body"
    | Some req =>
        let server := TrimSpace (ro_ServerID req) in
        if is_empty server then refuse 400 "server_id is required"
        else
          let tenant := target_tenant p (ro_TenantID req) in
          if is_empty tenant then refuse 400 "tenant_id is required"
          else match rand with
          | None => refuse 500 "failed to generate token"
          | Some rand => rotate p tenant server (GenerateToken KindAgent rand) now
          end
    end).

(** *** The two listings of [server/audit.go] *)

(** The start both share: a tenant named by an administrator. *)
Definition for_audit {A : Type} (r : request) (tenant_query : string) (now : Z) (k : string -> M site (hub_reply A))
  : M site (hub_reply A) :=
  if negb (String.eqb (hr_Method r) "GET") then refuse 405 "method not allowed"
  else
    let* auth := on_world (authTenantScope trusted_proxies sha256hex r ScopeAdmin now) in
    match auth with
    | Err e => refuse_as e
    | Ok _ =>
        let tenant := TrimSpace tenant_query in
        match RequireTenant tenant with
        | Err _ => refuse 400 "tenant_id is required"
        | Ok _ => k tenant
        end
    end.
(** The events and whether they are all. *)
Definition handleAdminAudit (r : request) (tenant_query : string) (now : Z) : M site (hub_reply (list AuditEvent * bool)) :=
  for_audit r tenant_query now (fun tenant =>
    let* events := attempt (on_world (on_audit (ListAudit tenant 256))) in
    match events with
    | Err _ => refuse 500 "audit query failed"
    | Ok events => answer_with (events, Z.of_nat (length events) <? 256)
    end).
Definition handleExpectedAgents (r : request) (tenant_query : string) (now : Z)
  : M site (hub_reply (string * list expectedAgent)) :=
  for_audit r tenant_query now (fun tenant =>
    let* agents := attempt (on_store (ListAgents tenant)) in
    match agents with
    | Err _ => refuse 500 "agent inventory unavailable"
    | Ok agents => answer_with (tenant, map expected_agent agents)
    end).
End admin.
