(* ===== verification/AdminProofs.v ===== *)
(** * What the administrative endpoints guarantee

    A secret leaves the hub only for an administrator, or for whoever holds an
    enrollment code, and only after the audit trail has the record. *)

From S2P Require Export Identities Admin.
Open Scope list_scope.
Open Scope Z_scope.

(** ** What the parts of a handler change *)

(** The credentials and the audit trail stay as they are. *)
Definition same_books (s s' : site) : Prop :=
  w_auth (st_world s') = w_auth (st_world s) /\ w_audit (st_world s') = w_audit (st_world s).
Lemma same_books_trans s1 s2 s3 : same_books s1 s2 -> same_books s2 s3 -> same_books s1 s3.
Proof. intros [] []. split; congruence. Qed.
Lemma step_books K now w w' : hub_step K now w w' -> w_auth w' = w_auth w /\ w_audit w' = w_audit w.
Proof. by destruct 1. Qed.
Lemma steps_books K now w w' : steps K now w w' -> w_auth w' = w_auth w /\ w_audit w' = w_audit w.
Proof.
  induction 1 as [|w1 w2 w3 H12 _ [IH1 IH2]]; [done|]. destruct (step_books _ _ _ _ H12). split; congruence.
Qed.
Lemma worldly_books {A} K now (m : M site A) s : worldly K now m -> wp m (fun _ s' => same_books s s') s.
Proof. intros Hm. eapply wp_mono; [apply Hm|]. intros r s' Hs. exact (steps_books _ _ _ _ Hs). Qed.

Section parts.
Context `{Unicode} `{Net} `{OriginParser} `{Dialect}.
Context (trusted_proxies : string) (sha256hex : string -> string).

Lemma wp_on_store {A} (m : M auth_db A) (Q : result error A -> site -> Prop) s :
  wp m (fun r d => Q r (with_world (with_auth d (st_world s)) s)) (w_auth (st_world s)) -> wp (on_store m) Q s.
Proof. intros Hm. apply wp_zoom, wp_on_keys. exact Hm. Qed.
Lemma wp_actorPrefix kind hash now s :
  wp (on_world (actorPrefix kind hash now)) (fun r s' => exists prefix, r = Ok prefix /\ same_books s s') s.
Proof.
  apply wp_zoom. unfold actorPrefix. apply wp_inspect. destruct (_ || _); [apply wp_ret; by eexists|].
  apply wp_try, wp_on_resolve. intros [rec|e] _; [destruct (is_empty _)|]; apply wp_ret; by eexists.
Qed.
(** An audit record is written, or nothing changes but the trail. *)
Lemma wp_append_audit ev now s :
  au_At ev = zero_time ->
  wp (append_audit ev now) (fun r s' => exists a, r = Ok a /\ w_auth (st_world s') = w_auth (st_world s) /\
    (a = Ok tt -> recorded ev now (w_audit (st_world s)) (w_audit (st_world s')))) s.
Proof.
  intros Hat. apply wp_attempt, wp_zoom, wp_recordAudit; [exact Hat|]. intros r d Hr. exists r. by split.
Qed.
Lemma wp_audit_as p tenant action target id now s :
  wp (audit_as p tenant action target id now) (fun r s' => exists a, r = Ok a /\
    w_auth (st_world s') = w_auth (st_world s) /\
    (a = Ok tt -> exists prefix, recorded (admin_event tenant (pr_Kind p) prefix action target id) now
                                   (w_audit (st_world s)) (w_audit (st_world s')))) s.
Proof.
  unfold audit_as. apply wp_mbind. eapply wp_mono; [apply wp_actorPrefix|]. intros ? s1 (prefix & -> & Ha & Hb).
  eapply wp_mono; [by apply wp_append_audit|]. intros ? s2 (a & -> & Ha2 & Hr). exists a. split; [done|].
  split; [congruence|]. intros Hok. exists prefix. rewrite <- Hb. by apply Hr.
Qed.

(** ** Answers that carry something *)

(** Whatever the run was, an answer that carries [a] has [P a]. *)
Definition carries {A : Type} (P : A -> site -> Prop) (res : result error (hub_reply A)) (s' : site) : Prop :=
  forall rp a, res = Ok rp -> hr_Result rp = Ok a -> P a s'.
Lemma carries_refused {A} (P : A -> site -> Prop) after e s : wp (ret (Build_hub_reply after (Err e))) (carries P) s.
Proof. apply wp_ret. by intros rp a [= <-]. Qed.
Lemma carries_error {A} (P : A -> site -> Prop) e s : carries P (Err e) s.
Proof. by intros rp a. Qed.
Lemma carries_answer {A} (P : A -> site -> Prop) a s : P a s -> wp (answer_with a) (carries P) s.
Proof. intros HP. apply wp_ret. by intros rp b [= <-] [= <-]. Qed.
Lemma carries_after {A B} (P : A -> site -> Prop) (m : M site B) after e s :
  wp (let* _ := m in ret (Build_hub_reply after (Err e))) (carries P) s.
Proof.
  apply wp_mbind. intros fs. destruct (m s fs) as [[[b|err] s'] fs']; [apply carries_refused|apply carries_error].
Qed.

Lemma wp_as_admin {A} (P : A -> site -> Prop) r scope now (k : Principal -> M site (hub_reply A)) s :
  hb_epoch (w_hub (st_world s)) <= t_epoch (w_auth (st_world s)) -> hb_hubMode (w_hub (st_world s)) = true ->
  (forall p s', same_books s s' -> acts_as trusted_proxies sha256hex r scope now s p -> wp (k p) (carries P) s') ->
  wp (as_admin trusted_proxies sha256hex r scope now k) (carries P) s.
Proof.
  intros He Hm Hk. unfold as_admin. apply wp_mbind.
  eapply wp_mono; [apply wp_conjoin; [by apply wp_authorize|]|].
  { apply (worldly_books any_touch now), worldly_on_world. by apply authPrincipal_steps. }
  intros [[p|e]|err] s' [[_ Hp] Hs]; [|apply carries_refused|apply carries_error].
  rewrite Hm in Hp. apply Hk; [done|by apply Hp].
Qed.
Lemma admin_kind p : permits p ScopeAdmin = true -> pr_Kind p = KindAdmin.
Proof.
  unfold permits, credentialPermits. destruct (_ || _); [done|]. cbn [String.eqb].
  assert (String.eqb ScopeAdmin ScopeAdmin = true) as -> by done. by intros [?%String.eqb_eq _]%andb_true_iff.
Qed.

(** ** The store *)

(** A row with the identity and rights of [k]. *)
Definition row_like (k k' : key_row) : Prop :=
  k_tenant_id k' = k_tenant_id k /\ k_client_name k' = k_client_name k /\ k_kind k' = k_kind k /\ k_scope k' = k_scope k /\
  k_expires_at k' = k_expires_at k /\ k_max_uses k' = k_max_uses k.
Lemma upsert_row k d u d' :
  auth_ok d -> upsert_key k d = Ok (u, d') -> exists k', find_key (k_key_hash k) (t_keys d') = Some k' /\ row_like k k'.
Proof.
  intros Hok Hu. pose proof (upsert_key_ok _ _ _ _ Hu Hok) as [Hu' _]. unfold upsert_key in Hu.
  destruct (find_key _ _) as [old|] eqn:Ef.
  - destruct (existsb _ _); [done|]. injection Hu as <- <-. apply find_key_Some in Ef as [Hin Hh].
    exists (overwrite k old). split; [|done]. apply find_key_elem; [exact Hu'| |exact Hh].
    simpl. apply list_elem_of_fmap. exists old. split; [|done]. by rewrite Hh, String.eqb_refl.
  - unfold insert_key in Hu. destruct (existsb _ _); [done|]. injection Hu as <- <-.
    exists (with_id (t_next_id d) k). split; [|done]. apply find_key_elem; [exact Hu'| |done].
    simpl. apply elem_of_app. right. by apply list_elem_of_singleton.
Qed.
(** The stored form of a record. *)
Definition record_row (rec : APIKeyRecord) (k : key_row) : Prop :=
  k_tenant_id k = rec_TenantID rec /\ k_client_name k = rec_ClientName rec /\ k_kind k = rec_Kind rec /\
  k_scope k = rec_Scope rec /\ k_expires_at k = (if IsZero (rec_ExpiresAt rec) then 0 else Unix (rec_ExpiresAt rec)) /\
  k_max_uses k = rec_MaxUses rec.
Lemma wp_Upsert rec now d :
  auth_ok d ->
  wp (UpsertAPIKey rec now) (fun r d' => r = Ok tt -> exists k, find_key (rec_KeyHash rec) (t_keys d') = Some k /\ record_row rec k) d.
Proof.
  intros Hok. unfold UpsertAPIKey. destruct (_ || _); [by apply wp_fail|]. destruct (_ || _); [by apply wp_fail|]. cbv zeta.
  apply wp_statement; [done|]. intros [] d' Hu. split; [|done]. intros _.
  destruct (upsert_row _ _ _ _ Hok Hu) as (k & Hf & Hrow). by exists k.
Qed.

(** *** A new client, and a new enrollment code *)

(** An administrator did it, and the trail says so. *)
Definition done_by_admin (r : request) (now : Z) (s s' : site) (tenant action target id : string) : Prop :=
  exists p prefix, acts_as trusted_proxies sha256hex r ScopeAdmin now s p /\ pr_Kind p = KindAdmin /\
    recorded (admin_event tenant KindAdmin prefix action target id) now (w_audit (st_world s)) (w_audit (st_world s')).
(** The table has a credential with this hash and these rights. *)
Definition holds_row (rec : APIKeyRecord) (s : site) : Prop :=
  exists k, find_key (rec_KeyHash rec) (t_keys (w_auth (st_world s))) = Some k /\ record_row rec k.

(** Storing a credential, then the record of it, then the answer. *)
Lemma wp_issue {A} (P : A -> site -> Prop) r now s s1 p rec action target id (ok : M site (hub_reply A)) after1 e1 after2 e2
    (undo : M site unit) :
  auth_ok (w_auth (st_world s)) -> same_books s s1 -> acts_as trusted_proxies sha256hex r ScopeAdmin now s p ->
  (forall s', holds_row rec s' -> done_by_admin r now s s' (rec_TenantID rec) action target id -> wp ok (carries P) s') ->
  wp (let* stored := attempt (on_store (UpsertAPIKey rec now)) in
      match stored with
      | Err _ => ret (Build_hub_reply after1 (Err e1))
      | Ok _ =>
          let* audited := audit_as p (rec_TenantID rec) action target id now in
          match audited with
          | Err _ => let* _ := undo in ret (Build_hub_reply after2 (Err e2))
          | Ok _ => ok
          end
      end) (carries P) s1.
Proof.
  intros Hauth [Ha Hb] Hp Hok. apply wp_try, wp_on_store. rewrite Ha.
  eapply wp_mono; [by apply wp_Upsert|]. intros [[]|e] d Hrow; [|apply carries_refused]. specialize (Hrow eq_refl).
  apply wp_mbind. eapply wp_mono; [apply wp_audit_as|]. intros ? s2 (a & -> & Ha2 & Hrec).
  destruct a as [[]|e]; [|apply carries_after]. destruct (Hrec eq_refl) as [prefix Hr]. apply Hok.
  - destruct Hrow as (k & Hk & Hrow). exists k. by rewrite Ha2.
  - exists p, prefix. pose proof Hp as (Hperm & _). rewrite (admin_kind p Hperm) in Hr.
    split; [done|]. split; [by apply admin_kind|]. simpl in Hr. by rewrite Hb in Hr.
Qed.

(** *** A rotation, and an enrollment *)

Lemma ReplaceAgent_ok tenant server token hash prefix now d fs res d' fs' :
  Unix now <> 0 -> ReplaceAgent tenant server token hash prefix now d fs = (Ok res, d', fs') ->
  rs_TenantID res = tenant /\ rs_ServerID res = server /\ rs_Token res = token /\
  active_hashes tenant server d <> [] /\ active_hashes tenant server d' = [hash].
Proof.
  intros Hnow. unfold ReplaceAgent. destruct (_ || _) eqn:Ee; [done|]. intros (fs1 & fs2 & Hb)%transaction_ok.
  apply replace_tx_ok in Hb as (Hne & _ & client & Hkeys & ->). split_and!; try done.
  unfold active_hashes. rewrite Hkeys, List.filter_app, map_app, filter_none.
  - bools. unfold active_at. simpl. by destruct server as [|c server]; rewrite ?String.eqb_refl.
  - intros k' (k & -> & _)%list_elem_of_fmap. destruct (active_at tenant server k) eqn:E; [|exact E].
    by apply active_at_revoked.
Qed.

Lemma wp_ok {S A} (m : M S A) (Q : result error A -> S -> Prop) s :
  (forall e s', Q (Err e) s') -> (forall a fs s' fs', m s fs = (Ok a, s', fs') -> Q (Ok a) s') -> wp m Q s.
Proof. intros He Ho fs. destruct (m s fs) as [[[a|e] s'] fs'] eqn:E; [by eapply Ho|apply He]. Qed.

(** Invalidating touches only the hub's caches. *)
Lemma wp_invalidated {A} (P : A -> site -> Prop) hashes now (k : M site (hub_reply A)) s :
  (forall s', same_books s s' -> wp k (carries P) s') ->
  wp (let* _ := on_world (invalidateHashes hashes now) in k) (carries P) s.
Proof.
  intros Hk. apply wp_mbind. eapply wp_mono; [apply (worldly_books any_touch now), worldly_on_world, invalidateHashes_steps|].
  intros [[]|e] s' Hs; [by apply Hk|apply carries_error].
Qed.
Lemma wp_limit {A} (P : A -> site -> Prop) key now after e (k : M site (hub_reply A)) s :
  (forall s', same_books s s' -> wp k (carries P) s') ->
  wp (let* ok := limited key now in if negb ok then ret (Build_hub_reply after (Err e)) else k) (carries P) s.
Proof.
  intros Hk. apply wp_mbind. eapply wp_mono; [apply (worldly_books any_touch now), worldly_limited|].
  intros [ok|err] s' Hs; [|apply carries_error]. destruct (negb ok); [apply carries_refused|by apply Hk].
Qed.
End parts.

(** ** The endpoints *)

Section endpoints.
Context `{Unicode} `{Net} `{OriginParser} `{Dialect} `{AdminJSON}.
Context (trusted_proxies : string) (sha256hex : string -> string).
Context (key_le : key_row -> key_row -> Prop) `{!forall a b, Decision (key_le a b)}.

(** Listings read the store. *)
Lemma wp_list {B} (P : B -> site -> Prop) (k : result error (list APIKeyRecord) -> M site (hub_reply B)) s1 s :
  same_books s s1 -> (forall r s', same_books s s' -> wp (k r) (carries P) s') ->
  wp (let* keys := attempt (on_store (ListAPIKeys key_le)) in k keys) (carries P) s1.
Proof.
  intros [Ha Hb] Hk. apply wp_try, wp_on_store. unfold ListAPIKeys.
  apply wp_query; intros; (apply Hk; split; [exact Ha|exact Hb]).
Qed.
Lemma wp_code_tenant {B} (P : B -> site -> Prop) (k : result reply string -> M site (hub_reply B)) s1 s req name :
  same_books s s1 -> (forall r s', same_books s s' -> wp (k r) (carries P) s') ->
  wp (let* tenant := code_tenant key_le req name in k tenant) (carries P) s1.
Proof.
  intros Hs Hk. apply wp_mbind. unfold code_tenant. destruct (negb _); [apply wp_ret; by apply Hk|].
  apply wp_try, wp_on_store. destruct Hs as [Ha Hb]. unfold ListAPIKeys.
  assert (Hs : same_books s (with_world (with_auth (w_auth (st_world s1)) (st_world s1)) s1)) by by split.
  apply wp_query; intros; [apply wp_ret; by apply Hk|].
  destruct (UniqueTenantForClientName _ _); apply wp_ret; by apply Hk.
Qed.

(** What each answer that carries a secret says. *)
Definition code_issued (r : request) (now : Z) (s : site) (a : adminEnrollCodeResponse) (s' : site) : Prop :=
  done_by_admin trusted_proxies sha256hex r now s s' (cr_TenantID a) "enroll.code_issued" "client" (cr_ClientName a) /\
  0 < cr_MaxUses a /\ exists expiresAt, cr_ExpiresAt a = Unix expiresAt /\
  holds_row (code_record (cr_TenantID a) (cr_ClientName a) (HashEnrollCode sha256hex (cr_Code a)) (cr_MaxUses a) expiresAt now) s'.
Definition client_created (r : request) (now : Z) (s : site) (a : clients_reply) (s' : site) : Prop :=
  match a with
  | ClientsListed _ => True
  | ClientCreated c =>
      done_by_admin trusted_proxies sha256hex r now s s' (cc_TenantID c) "client.created" "client" (cc_ClientName c) /\
      holds_row (client_record (cc_TenantID c) (cc_ClientName c) (HashAPIKey sha256hex (cc_ReadToken c))
                   (ExtractKeyPrefix (cc_ReadToken c)) now) s'
  end.
Definition agent_rotated (r : request) (now : Z) (s : site) (a : enrollResponse) (s' : site) : Prop :=
  done_by_admin trusted_proxies sha256hex r now s s' (en_TenantID a) "agent.rotated" "agent" (en_ServerID a) /\
  active_hashes (en_TenantID a) (en_ServerID a) (w_auth (st_world s)) <> [] /\
  active_hashes (en_TenantID a) (en_ServerID a) (w_auth (st_world s')) = [HashAPIKey sha256hex (en_Token a)].

Lemma wp_enroll_codes r body hex bytes now s :
  hub_ok (st_world s) -> hb_hubMode (w_hub (st_world s)) = true ->
  wp (handleAdminEnrollCodes trusted_proxies sha256hex key_le r body hex bytes now) (carries (code_issued r now s)) s.
Proof.
  intros [Hauth _ He] Hm. unfold handleAdminEnrollCodes. destruct (negb _); [apply carries_refused|].
  apply wp_as_admin; [done..|]. intros p s1 Hs Hp. destruct (aj_code body) as [req|]; [|apply carries_refused]. cbv zeta.
  destruct (is_empty _); [apply carries_refused|].
  assert (Hmax : 0 < (if ac_MaxUses req <=? 0 then 25 else ac_MaxUses req)) by (destruct (Z.leb_spec (ac_MaxUses req) 0); lia).
  revert Hmax. generalize (if ac_MaxUses req <=? 0 then 25 else ac_MaxUses req) as maxUses. intros maxUses Hmax.
  apply (wp_code_tenant _ _ s1 s); [exact Hs|]. intros tenant s2 Hs2.
  destruct tenant as [tenant|e]; [|apply carries_refused].
  destruct (if is_empty tenant then NewTenantID <$> hex else Some tenant) as [tn|]; [|apply carries_refused].
  destruct bytes as [bytes|]; [|apply carries_refused]. unfold issue_code. cbv zeta.
  eapply (wp_issue _ _ _ _ _ s s2 p (code_record tn (TrimSpace (ac_ClientName req)) _ maxUses _ now)); [done|done|done|].
  intros s' Hrow Hdone. apply carries_answer. split; [exact Hdone|]. split; [exact Hmax|]. eexists. split; [reflexivity|exact Hrow].
Qed.
Lemma wp_clients r body rand hex now s :
  hub_ok (st_world s) -> hb_hubMode (w_hub (st_world s)) = true ->
  wp (handleAdminClients trusted_proxies sha256hex key_le r body rand hex now) (carries (client_created r now s)) s.
Proof.
  intros [Hauth _ He] Hm. unfold handleAdminClients. apply wp_as_admin; [done..|]. intros p s1 Hs Hp.
  destruct (String.eqb _ _).
  { apply (wp_list _ _ s1 s); [exact Hs|]. intros [keys|e] s2 _; [by apply carries_answer|apply carries_refused]. }
  destruct (String.eqb _ _); [|apply carries_refused]. destruct (aj_client body) as [name|]; [|apply carries_refused].
  cbv zeta. destruct (is_empty _); [apply carries_refused|].
  apply (wp_list _ _ s1 s); [exact Hs|]. intros [keys|e] s2 Hs2; [|apply carries_refused].
  destruct (UniqueTenantForClientName _ _); [|apply carries_refused]. destruct (existsb _ _); [apply carries_refused|].
  destruct rand as [rand|]; [|apply carries_refused]. destruct hex as [hex|]; [|apply carries_refused].
  unfold create_client. cbv zeta.
  eapply (wp_issue _ _ _ _ _ s s2 p (client_record (NewTenantID hex) (TrimSpace name) _ _ now)); [done|done|done|].
  intros s' Hrow Hdone. apply carries_answer. by split.
Qed.
Lemma wp_rotation r body rand now s :
  hub_ok (st_world s) -> hb_hubMode (w_hub (st_world s)) = true -> Unix now <> 0 ->
  wp (handleAdminAgentRotate trusted_proxies sha256hex r body rand now) (carries (agent_rotated r now s)) s.
Proof.
  intros [Hauth _ He] Hm Hnow. unfold handleAdminAgentRotate. destruct (negb _); [apply carries_refused|].
  apply wp_as_admin; [done..|]. intros p s1 [Ha1 Hb1] Hp. destruct (aj_rotate body) as [req|]; [|apply carries_refused].
  cbv zeta. destruct (is_empty _); [apply carries_refused|]. destruct (is_empty _); [apply carries_refused|].
  destruct rand as [rand|]; [|apply carries_refused]. generalize (GenerateToken KindAgent rand) as token. intros token.
  unfold rotate. apply wp_try, wp_on_store. rewrite Ha1. apply wp_ok.
  { intros err d. destruct (rotate_refusal err). apply carries_refused. }
  intros res fs d fs' Hr. apply (ReplaceAgent_ok _ _ _ _ _ _ _ _ _ _ _ Hnow) in Hr as (Ht & Hsv & Htok & Hbefore & Hafter).
  apply wp_invalidated. intros s2 [Ha2 Hb2]. apply wp_mbind. eapply wp_mono; [apply wp_audit_as|].
  intros ? s3 (a & -> & Ha3 & Hrec). destruct a as [[]|e]; [|apply carries_after].
  destruct (Hrec eq_refl) as [prefix Hrec']. apply carries_answer. pose proof Hp as (Hperm & _).
  rewrite (admin_kind p Hperm), Hb2 in Hrec'. simpl in Hrec'. rewrite Hb1 in Hrec'.
  unfold agent_rotated. cbn [en_TenantID en_ServerID en_Token]. rewrite Ht, Hsv, Htok in *. split_and!.
  - exists p, prefix. split; [done|]. split; [by apply admin_kind|done].
  - done.
  - by rewrite Ha3, Ha2.
Qed.

(** The token of a handshake that is still open, or a new one for a valid
    code; either way the request came encrypted. *)
Definition enrolled (insecure : bool) (r : request) (body : string) (now : Z) (s : site) (a : enrollResponse) (s' : site) : Prop :=
  (insecure = true \/ requestIsHTTPS trusted_proxies r = true) /\ serverIDRegex (en_ServerID a) = true /\
  recorded (admin_event (en_TenantID a) KindEnroll "wme_" "enroll.completed" "agent" (en_ServerID a)) now
    (w_audit (st_world s)) (w_audit (st_world s')) /\
  exists req, aj_enroll body = Some req /\ TrimSpace (er_ServerID req) = en_ServerID a /\
  let code := HashEnrollCode sha256hex (TrimSpace (er_EnrollCode req)) in
  (w_auth (st_world s') = w_auth (st_world s) /\
   exists h client, find_handshake code (en_ServerID a) (Unix now) (w_auth (st_world s)) = Some (h, client) /\
     en_Token a = h_token h /\ en_TenantID a = h_tenant_id h) \/
  (exists rec, find_code code (w_auth (st_world s)) = Some rec /\ code_valid rec (Unix now) /\
     en_TenantID a = k_tenant_id rec /\
     active_hashes (en_TenantID a) (en_ServerID a) (w_auth (st_world s')) = [HashAPIKey sha256hex (en_Token a)]).

Lemma enrollment_outcome req token now d fs res d' fs' :
  auth_ok d -> 0 < Unix now ->
  CompleteEnrollment (enrollment_of sha256hex req token) now d fs = (Ok res, d', fs') ->
  let code := HashEnrollCode sha256hex (TrimSpace (er_EnrollCode req)) in
  (d' = d /\ exists h client, find_handshake code (TrimSpace (er_ServerID req)) (Unix now) d = Some (h, client) /\
     rs_Token res = h_token h /\ rs_TenantID res = h_tenant_id h) \/
  (exists rec, find_code code d = Some rec /\ code_valid rec (Unix now) /\ rs_TenantID res = k_tenant_id rec /\
     active_hashes (rs_TenantID res) (TrimSpace (er_ServerID req)) d' = [HashAPIKey sha256hex (rs_Token res)]).
Proof.
  intros Hok Hnow Hc. apply CompleteEnrollment_inv in Hc as [[_ Hr]|[(-> & h & client & Hf & Hr)|(_ & _ & res' & Hi & Hr)]].
  - discriminate Hr.
  - left. split; [done|]. exists h, client. destruct (Hr res eq_refl) as (_ & ? & ?). done.
  - right. destruct Hr as [Heq|?]; [|done]. injection Heq as <-. pose proof Hi as (rec & d3 & Hrec & Hlen & _ & _ & _ & ->).
    exists rec. split; [exact Hrec|]. split; [exact (proj2 (usable_rec _ _ _ _ (proj1 Hok) Hrec Hlen))|]. split; [done|].
    pose proof (issues_spec _ _ _ _ _ Hi) as (rec' & Hrec' & _ & _ & Hkeys & _).
    assert (rec' = rec) as -> by congruence. cbn [rs_TenantID rs_Token].
    by apply (issues_active (enrollment_of sha256hex req token) (Unix now) d (rq_TokenHash (enrollment_of sha256hex req token)) d' rec); [lia|..].
Qed.
Lemma wp_enroll insecure r body rand now s :
  auth_ok (w_auth (st_world s)) -> 0 < Unix now ->
  wp (handleEnroll trusted_proxies sha256hex insecure r body rand now) (carries (enrolled insecure r body now s)) s.
Proof.
  intros Hauth Hnow. unfold handleEnroll. destruct (negb _); [apply carries_refused|].
  destruct (negb insecure && _) eqn:Etls; [apply carries_refused|].
  apply wp_limit. intros s1 [Ha1 Hb1]. destruct (aj_enroll body) as [req|] eqn:Ereq; [|apply carries_refused].
  destruct (_ || _); [apply carries_refused|]. destruct (negb (serverIDRegex _)) eqn:Eid; [apply carries_refused|].
  apply negb_false_iff in Eid. apply wp_inspect. destruct (negb (hb_hasKeys _)); [apply carries_refused|].
  destruct rand as [rand|]; [|apply carries_refused].
  generalize (GenerateToken KindAgent rand) as token. intros token.
  apply wp_try, wp_on_store. rewrite Ha1. apply wp_ok.
  { intros err d. destruct (enroll_refusal err). apply carries_refused. }
  intros res fs d fs' Hc. unfold enroll_result. apply wp_invalidated. intros s2 [Ha2 Hb2]. apply wp_mbind.
  eapply wp_mono; [by apply wp_append_audit|]. intros ? s3 (a & -> & Ha3 & Hrec).
  destruct a as [[]|e]; [|apply carries_after]. specialize (Hrec eq_refl). apply carries_answer.
  rewrite Hb2 in Hrec. simpl in Hrec. rewrite Hb1 in Hrec. unfold enrolled. cbn [en_ServerID en_TenantID en_Token].
  split; [|split; [exact Eid|split; [exact Hrec|]]].
  { destruct insecure; [by left|right]. by apply negb_false_iff in Etls. }
  exists req. split; [done|]. split; [done|]. cbv zeta. rewrite Ha3, Ha2. simpl.
  by eapply enrollment_outcome.
Qed.

(** *** Listing and revoking agents *)

Lemma RevokeAgent_ok tenant server now d fs n d' fs' :
  Unix now <> 0 -> RevokeAgent tenant server now d fs = (Ok n, d', fs') -> active_hashes tenant server d' = [].
Proof.
  intros Hnow. unfold RevokeAgent, revoke_where. intros (m & d1 & f1 & Hu & Hk)%mbind_ok. apply exec_ok in Hu.
  unfold update_keys in Hu. injection Hu as <- <-.
  apply mbind_ok in Hk as (u & d2 & f2 & Hw & Hk). unfold ret in Hk. simplify_eq.
  assert (Hkeys : t_keys d' = map (fun k => if active_at tenant server k then set_revoked (Unix now) k else k) (t_keys d)).
  { unfold whenM in Hw. destruct (0 <? _); [|unfold ret in Hw; by simplify_eq].
    apply exec_ok in Hw. unfold bumpAuthEpoch in Hw. by simplify_eq. }
  unfold active_hashes. rewrite Hkeys, filter_none; [done|]. intros k' (k & -> & _)%list_elem_of_fmap.
  destruct (active_at tenant server k) eqn:E; [by apply active_at_revoked|exact E].
Qed.

(** What the agents endpoint answers: the agents of the principal's tenant, or
    of any for an administrator; or that a server has no active agent any
    more. *)
Definition agents_answered (r : request) (now : Z) (s : site) (a : agents_reply) (s' : site) : Prop :=
  match a with
  | AgentsListed items => exists p, acts_as trusted_proxies sha256hex r ScopeRead now s p /\
      forall item, item ∈ items -> exists k, k ∈ t_keys (w_auth (st_world s)) /\ k_kind k = KindAgent /\
        item = agent_item (scanAPIKey k) /\ (pr_Kind p <> KindAdmin -> k_tenant_id k = pr_TenantID p)
  | AgentRevoked server n => exists tenant, 
      done_by_admin trusted_proxies sha256hex r now s s' tenant "agent.revoked" "agent" server /\
      active_hashes tenant server (w_auth (st_world s')) = []
  end.
Lemma acts_as_tenant r scope now s p :
  tenanted (st_world s) -> acts_as trusted_proxies sha256hex r scope now s p -> pr_TenantID p <> EmptyString.
Proof.
  intros [T1 T2 T3] (_ & _ & [(_ & ep & _ & Hk)|(_ & _ & (id & e & rec & _ & _ & _ & _ & Hrec & _ & ->))]).
  - destruct Hk as [(e & Hl & Hv & -> & _)|(rec & Hrec & ->)]; [by eapply T3|by eapply resolves_tenant].
  - by eapply resolves_tenant.
Qed.
Lemma wp_revoke_now r now s s2 p tenant server hashes :
  Unix now <> 0 -> same_books s s2 -> acts_as trusted_proxies sha256hex r ScopeRead now s p ->
  permits p ScopeAdmin = true ->
  wp (revoke_now p tenant server hashes now) (carries (agents_answered r now s)) s2.
Proof.
  intros Hnow [Ha2 Hb2] Hp Eperm. unfold revoke_now. apply wp_try, wp_on_store. rewrite Ha2. apply wp_ok; [intros; apply carries_refused|].
  intros n fs d fs' Hr. apply (RevokeAgent_ok _ _ _ _ _ _ _ _ Hnow) in Hr.
  apply wp_invalidated. intros s3 [Ha3 Hb3]. apply wp_mbind. eapply wp_mono; [apply wp_audit_as|].
  intros ? s4 (a & -> & Ha4 & Hrec). destruct a as [[]|e]; [|apply carries_refused].
  destruct (Hrec eq_refl) as [prefix Hrec']. apply carries_answer. exists tenant. split.
  - exists p, prefix. destruct Hp as (_ & Hrest).
    rewrite (admin_kind p Eperm), Hb3 in Hrec'. simpl in Hrec'. rewrite Hb2 in Hrec'.
    split; [by split|]. split; [by apply admin_kind|done].
  - by rewrite Ha4, Ha3.
Qed.
Lemma wp_admin_agents r tenant_query server_query now s :
  hub_ok (st_world s) -> hb_hubMode (w_hub (st_world s)) = true -> Unix now <> 0 ->
  tenanted (st_world s) ->
  wp (handleAdminAgents trusted_proxies sha256hex r tenant_query server_query now)
    (carries (agents_answered r now s)) s.
Proof.
  intros [Hauth _ He] Hm Hnow Hten. unfold handleAdminAgents. apply wp_as_admin; [done..|]. intros p s1 [Ha1 Hb1] Hp.
  destruct (String.eqb _ "GET").
  - apply wp_try, wp_on_store. unfold ListAgents. apply wp_query; [intros; apply carries_refused|].
    apply carries_answer. exists p. split; [done|]. rewrite Ha1.
    intros item (a & -> & (k & -> & Hk)%list_elem_of_fmap)%list_elem_of_fmap.
    rewrite (merge_sort_Permutation seen_le) in Hk. apply filter_elem in Hk as [Hk Hf]. bools.
    exists k. split; [done|]. split; [done|]. split; [done|]. intros Hkind.
    apply acts_as_tenant in Hp; [|done]. unfold list_tenant in *.
    destruct (String.eqb_spec (pr_Kind p) KindAdmin); [done|]. cbn [andb] in *.
    match goal with Ho : is_empty _ = true \/ _ |- _ => destruct Ho end; bools; [by destruct (pr_TenantID p)|done].
  - destruct (String.eqb _ "DELETE"); [|apply carries_refused].
    destruct (permits p ScopeAdmin) eqn:Eperm; [|apply carries_refused]. cbn [negb].
    destruct (is_empty _); [apply carries_refused|]. unfold revoke_agent.
    apply wp_try, wp_on_store. unfold ActiveAgentHashes.
    apply wp_query; intros; by apply (wp_revoke_now _ _ _ _ p).
Qed.
End endpoints.

Lemma carries_run {A} (P : A -> site -> Prop) (m : M site (hub_reply A)) s fs rp s' fs' a :
  wp m (carries P) s -> m s fs = (Ok rp, s', fs') -> hr_Result rp = Ok a -> P a s'.
Proof. intros Hm Hrun Ha. exact (wp_run _ _ _ _ _ _ _ Hm Hrun rp a eq_refl Ha). Qed.

(** C16. No secret without a record.  When the hub hands out an enrollment code,
    a read token or a rotated agent token, the request was that of an
    administrator; when it hands out a token to an enrolling machine, the
    request came encrypted, with a well-formed server id and a valid code or an
    open handshake.  Each time the audit trail has gained exactly the record of
    it, and the credential table holds the credential with the tenant and the
    rights that were announced - an agent token being the only active one of its
    server. *)
Theorem secrets_are_audited `{Unicode} `{Net} `{OriginParser} `{Dialect} `{AdminJSON}
    trusted_proxies sha256hex key_le `{!forall a b, Decision (key_le a b)} insecure r body rand hex bytes now s fs :
  hub_ok (st_world s) -> hb_hubMode (w_hub (st_world s)) = true -> 0 < Unix now ->
  let gives {A} (m : M site (hub_reply A)) (P : A -> site -> Prop) :=
    forall rp s' fs' a, m s fs = (Ok rp, s', fs') -> hr_Result rp = Ok a -> P a s' in
  gives (handleAdminEnrollCodes trusted_proxies sha256hex key_le r body hex bytes now)
    (code_issued trusted_proxies sha256hex r now s) /\
  gives (handleAdminClients trusted_proxies sha256hex key_le r body rand hex now)
    (client_created trusted_proxies sha256hex r now s) /\
  gives (handleAdminAgentRotate trusted_proxies sha256hex r body rand now)
    (agent_rotated trusted_proxies sha256hex r now s) /\
  gives (handleEnroll trusted_proxies sha256hex insecure r body rand now)
    (enrolled trusted_proxies sha256hex insecure r body now s).
Proof.
  intros Hok Hm Hnow. split; [|split; [|split]]; intros rp s' fs' a; apply carries_run.
  - by apply wp_enroll_codes.
  - by apply wp_clients.
  - apply wp_rotation; [done|done|lia].
  - apply wp_enroll; [apply Hok|done].
Qed.

(** The agents endpoint.  A listing shows agents only, of the principal's
    own tenant unless it is an administrator; an answer that an agent was
    revoked means an administrator asked, the server has no active agent left
    and the trail says so. *)
Lemma agents_endpoint `{Unicode} `{Net} `{OriginParser} `{Dialect}
    trusted_proxies sha256hex r tenant_query server_query now s fs rp s' fs' a :
  hub_ok (st_world s) -> tenanted (st_world s) -> hb_hubMode (w_hub (st_world s)) = true -> Unix now <> 0 ->
  handleAdminAgents trusted_proxies sha256hex r tenant_query server_query now s fs = (Ok rp, s', fs') ->
  hr_Result rp = Ok a ->
  match a with
  | AgentsListed items => exists p, acts_as trusted_proxies sha256hex r ScopeRead now s p /\
      forall item, item ∈ items -> exists k, k ∈ t_keys (w_auth (st_world s)) /\ k_kind k = KindAgent /\
        item = agent_item (scanAPIKey k) /\ (pr_Kind p <> KindAdmin -> k_tenant_id k = pr_TenantID p)
  | AgentRevoked server n => exists tenant,
      done_by_admin trusted_proxies sha256hex r now s s' tenant "agent.revoked" "agent" server /\
      active_hashes tenant server (w_auth (st_world s')) = []
  end.
Proof.
  intros Hok Ht Hm Hnow. apply (carries_run (agents_answered trusted_proxies sha256hex r now s)). by apply wp_admin_agents.
Qed.

(** ** Witnesses: a hub with an administrator *)

Module SampleAdmin.
Definition admin : APIKeyRecord :=
  {| rec_ID := 0; rec_TenantID := "t_ops"; rec_ClientName := "Ops"; rec_KeyHash := "#wmx_one";
     rec_KeyPrefix := PrefixAdmin; rec_Kind := KindAdmin; rec_Scope := ScopeAdmin;
     rec_ExpiresAt := 0; rec_MaxUses := 0; rec_Uses := 0; rec_ServerID := empty_str;
     rec_IssuedBy := "ops"; rec_CreatedAt := 100 * second; rec_LastSeenAt := 0; rec_Revoked := false |}.
Definition start : site :=
  with_world {| w_hub := New true true 0;
                w_auth := @run_auth sqlite [(OpUpsert admin (100 * second), []); (OpUpsert SampleHub.key (100 * second), [])] empty_auth;
                w_audit := empty_audit |} SampleHub.start.
Definition ask (method : string) : request :=
  {| hr_Method := method; hr_TLS := true; hr_ForwardedProto := empty_str; hr_RemoteAddr := "10.0.0.1"; hr_Host := "hub";
     hr_Origin := empty_str; hr_QueryKey := empty_str; hr_XAPIKey := "wmx_one"; hr_Cookie := None |}.
Definition json : AdminJSON :=
  {| aj_enroll _ := None; aj_code _ := None; aj_client s := Some s; aj_rotate _ := None |}.
Definition by_id (a b : key_row) : Prop := k_id a <= k_id b.
#[global] Instance by_id_dec a b : Decision (by_id a b).
Proof. unfold by_id. apply _. Defined.
Definition new_client : M site (hub_reply clients_reply) :=
  @handleAdminClients Sample.unicode Sample.net Sample.origins sqlite json empty_str Sample.sha by_id by_id_dec
    (ask "POST") "New" (Some "secret") (Some "0011") sample_time.
Lemma start_ok : hub_ok (st_world start).
Proof. apply (started_until true true 0 _ empty_audit 0); [apply run_auth_ok|discriminate|discriminate]. Qed.
Lemma start_tenanted : tenanted (st_world start).
Proof.
  split; [discriminate| |intros hash e Hl; exfalso; revert Hl;
    change ((∅ : gmap string authCacheEntry) !! hash = Some e -> False); by rewrite lookup_empty].
  intros k Hk. vm_compute in Hk. repeat (apply elem_of_cons in Hk as [->|Hk]; [by split|]). by apply not_elem_of_nil in Hk.
Qed.
End SampleAdmin.

Lemma secrets_are_audited_witness :
  exists rp s' c, SampleAdmin.new_client SampleAdmin.start [] = (Ok rp, s', []) /\
    hr_Result rp = Ok (ClientCreated c) /\ cc_TenantID c = "t_0011" /\
    @client_created Sample.unicode Sample.net Sample.origins empty_str Sample.sha (SampleAdmin.ask "POST") sample_time SampleAdmin.start (ClientCreated c) s'.
Proof.
  destruct (SampleAdmin.new_client SampleAdmin.start []) as [[[rp|] s'] fs'] eqn:E;
    [|exfalso; apply (f_equal (fun x => is_ok x.1.1)) in E; vm_compute in E; discriminate E].
  assert (fs' = []) as ->. { apply (f_equal snd) in E. vm_compute in E. by symmetry. }
  destruct (hr_Result rp) as [[l|c]|] eqn:Er;
    [exfalso; apply (f_equal (fun x => x.1.1)) in E; vm_compute in E; injection E as <-; vm_compute in Er; discriminate Er| |
     exfalso; apply (f_equal (fun x => x.1.1)) in E; vm_compute in E; injection E as <-; vm_compute in Er; discriminate Er].
  exists rp, s', c. split; [reflexivity|]. split; [exact Er|]. split.
  - apply (f_equal (fun x => x.1.1)) in E. vm_compute in E. injection E as <-. vm_compute in Er. by injection Er as <-.
  - destruct (@secrets_are_audited Sample.unicode Sample.net Sample.origins sqlite SampleAdmin.json empty_str Sample.sha
      SampleAdmin.by_id SampleAdmin.by_id_dec false (SampleAdmin.ask "POST") "New" (Some "secret") (Some "0011") None sample_time
      SampleAdmin.start [] SampleAdmin.start_ok eq_refl ltac:(reflexivity)) as (_ & Hc & _ & _).
    exact (Hc rp s' [] (ClientCreated c) E Er).
Defined.

Lemma agents_endpoint_witness :
  exists rp s' items, @handleAdminAgents Sample.unicode Sample.net Sample.origins sqlite empty_str Sample.sha
      (SampleAdmin.ask "GET") empty_str empty_str sample_time SampleAdmin.start [] = (Ok rp, s', []) /\
    hr_Result rp = Ok (AgentsListed items) /\
    exists p, @acts_as Sample.unicode Sample.net Sample.origins empty_str Sample.sha (SampleAdmin.ask "GET") ScopeRead sample_time SampleAdmin.start p /\
      forall item, item ∈ items -> exists k, k ∈ t_keys (w_auth (st_world SampleAdmin.start)) /\ k_kind k = KindAgent /\
        item = agent_item (scanAPIKey k) /\ (pr_Kind p <> KindAdmin -> k_tenant_id k = pr_TenantID p).
Proof.
  destruct (@handleAdminAgents Sample.unicode Sample.net Sample.origins sqlite empty_str Sample.sha
    (SampleAdmin.ask "GET") empty_str empty_str sample_time SampleAdmin.start []) as [[[rp|] s'] fs'] eqn:E;
    [|exfalso; apply (f_equal (fun x => is_ok x.1.1)) in E; vm_compute in E; discriminate E].
  assert (fs' = []) as ->. { apply (f_equal snd) in E. vm_compute in E. by symmetry. }
  destruct (hr_Result rp) as [[items|srv n]|] eqn:Er;
    [|exfalso; apply (f_equal (fun x => x.1.1)) in E; vm_compute in E; injection E as <-; vm_compute in Er; discriminate Er|
     exfalso; apply (f_equal (fun x => x.1.1)) in E; vm_compute in E; injection E as <-; vm_compute in Er; discriminate Er].
  exists rp, s', items. split; [reflexivity|]. split; [exact Er|].
  exact (@agents_endpoint Sample.unicode Sample.net Sample.origins sqlite empty_str Sample.sha (SampleAdmin.ask "GET")
    empty_str empty_str sample_time SampleAdmin.start [] rp s' [] (AgentsListed items)
    SampleAdmin.start_ok SampleAdmin.start_tenanted eq_refl ltac:(discriminate) E Er).
Defined.
