(* ===== verification/EndToEnd.v ===== *)
(** * From the agent's disk to the hub's tables

    The agent of [Agent] talks to a hub over a network that may lose a request
    or its answer, while other things go on at the hub.  The hub is an
    interface: what it does besides, how it serves a request, and the two laws
    the agent relies on; [Fleet] proves them of the whole server.  What the
    agent needs (an honest other end) follows from the laws, and the guarantees
    of the two halves compose: an observation that was queued is on the agent's
    disk until the hub has committed it under the agent's tenant and server. *)

From S2P Require Export ServerProofs.
Open Scope list_scope.
Open Scope Z_scope.

(** ** The network *)

(** An answer of the hub that is no error: the acknowledgement of an upload, or
    any other document with its status. *)
Inductive upload_answer :=
| Acknowledged (outcomes : list IngestOutcome)
| OtherDocument (status : Z) (text : string).
(** A hub, as the network sees it: what may happen at it ([uh_other]), how a
    request comes in ([uh_way]), and what it makes of a [POST] with a key, a
    path and a body. *)
Class UploadHub := {
  uh_other : Type;
  uh_way : Type;
  uh_do : uh_other -> M site unit;
  uh_serve : uh_way -> string -> string -> string -> M site (hub_reply upload_answer);
  (** What gives the credential with a hash to nobody else. *)
  uh_tame : string -> uh_other -> Prop;
  uh_tame_way : string -> uh_way -> Prop
}.

(** One request of the agent: what happens at the hub before it, how it comes
    in, and whether the request, its answer, and all of the answer arrive. *)
Record beat `{UploadHub} := {
  bt_before : list uh_other;
  bt_way : uh_way;
  bt_arrives : bool;
  bt_answered : bool;
  bt_whole : bool
}.
(** The hub, the requests to come, the agent's key, and every receipt the hub
    has ever held when it answered. *)
Record net `{UploadHub} := { n_site : site; n_script : list beat; n_key : string; n_log : list receipt }.
Definition with_site `{UploadHub} (s : site) (w : net) : net :=
  {| n_site := s; n_script := n_script w; n_key := n_key w; n_log := n_log w |}.
Definition with_script `{UploadHub} (l : list beat) (w : net) : net :=
  {| n_site := n_site w; n_script := l; n_key := n_key w; n_log := n_log w |}.
Definition log_receipts `{UploadHub} (w : net) : net :=
  {| n_site := n_site w; n_script := n_script w; n_key := n_key w; n_log := n_log w ++ i_receipts (st_ingest (n_site w)) |}.
Definition on_site `{UploadHub} {A : Type} : M site A -> M net A := zoom n_site with_site.
(** The agent's [POST] with its key in the header. *)
Definition sent_with (key : string) (conn : request) : request :=
  {| hr_Method := "POST"; hr_TLS := hr_TLS conn; hr_ForwardedProto := hr_ForwardedProto conn;
     hr_RemoteAddr := hr_RemoteAddr conn; hr_Host := hr_Host conn; hr_Origin := EmptyString;
     hr_QueryKey := EmptyString; hr_XAPIKey := key; hr_Cookie := None |}.

Section network.
Context `{UploadHub}.
(** The bodies of the hub's acknowledgements and errors. *)
Context (ack_text : list IngestOutcome -> string) (error_text : string -> string).

Fixpoint do_others (os : list uh_other) : M site unit :=
  match os with
  | [] => ret tt
  | o :: os' => let* _ := attempt (uh_do o) in do_others os'
  end.
Definition status_of (a : result reply upload_answer) : Z :=
  match a with Ok (Acknowledged _) => 202 | Ok (OtherDocument status _) => status | Err (Reply status _) => status end.
Definition text_of (a : result reply upload_answer) : string :=
  match a with Ok (Acknowledged outcomes) => ack_text outcomes | Ok (OtherDocument _ text) => text | Err (Reply _ msg) => error_text msg end.
Definition response_of (whole : bool) (rp : hub_reply upload_answer) : response :=
  {| rp_StatusCode := status_of (hr_Result rp);
     rp_Body := if whole then Some (text_of (hr_Result rp)) else None;
     rp_RetryAfter := match hr_RetryAfter rp with Some n => Itoa n | None => EmptyString end |}.
Definition post (path key body : string) : M net (option response) :=
  inspect (fun w =>
    match n_script w with
    | [] => ret None
    | b :: rest =>
        let* _ := modify (with_script rest) in
        let* _ := on_site (do_others (bt_before b)) in
        if negb (bt_arrives b) then ret None
        else
          let* rp := attempt (on_site (uh_serve (bt_way b) key path body)) in
          let* _ := modify log_receipts in
          match rp with
          | Ok rp => ret (if bt_answered b then Some (response_of (bt_whole b) rp) else None)
          | Err _ => ret None
          end
    end).
End network.

(** ** The two ingestion endpoints and what goes on beside them *)

(** Uploads, events of the credential tables, clean-ups. *)
Inductive site_op :=
| SoUpload (r : request) (legacy : bool) (type : string) (body : option string) (now : Z)
| SoEvent (e : hub_event)
| SoCleanup (now : Z).
Section traffic.
Context `{Unicode} `{Net} `{OriginParser} `{Dialect} `{HubJSON}.
Context (trusted_proxies : string) (sha256hex : string -> string).
Definition do_site (o : site_op) : M site unit :=
  match o with
  | SoUpload r legacy type body now => forget (receiveBatch trusted_proxies sha256hex r legacy type body now)
  | SoEvent e => on_world (do_event trusted_proxies sha256hex e)
  | SoCleanup now => on_ingest (cleanupIngest now)
  end.
Fixpoint do_site_ops (os : list site_op) : M site unit :=
  match os with
  | [] => ret tt
  | o :: os' => let* _ := attempt (do_site o) in do_site_ops os'
  end.
End traffic.

Section hub_side.
Context `{Unicode} `{Net} `{OriginParser} `{Dialect} `{HubJSON}.
Context (trusted_proxies : string) (sha256hex : string -> string).

Lemma Handler_worldly {A} K r path (health served : M site (hub_reply A)) now :
  worldly K now health -> worldly K now served -> worldly K now (Handler r path health served now).
Proof.
  intros Hh Hs. unfold Handler, trackViewer. worldly. by apply worldly_modify.
Qed.
Lemma receiveBatch_answers r legacy type body now :
  answers (receiveBatch trusted_proxies sha256hex r legacy type body now).
Proof.
  assert (Ha : answers (authorize trusted_proxies sha256hex r ScopeIngest now)) by apply authorize_answers.
  unfold receiveBatch, store_batch, refuse, refuse_for, refuse_as, answer_with, limited. answering.
Qed.

(** ** Whose key it is

    Every credential with the key's hash, in the table and in the hub's cache,
    belongs to one server of one tenant. *)
Section binding.
Context (tenant server : string).

Definition names (hash : string) (d : auth_db) : Prop :=
  forall k, k ∈ t_keys d -> k_key_hash k = hash -> k_tenant_id k = tenant /\ k_server_id k = server.
Definition mine (p : Principal) : Prop := pr_TenantID p = tenant /\ pr_AgentID p = server.
Record bound_to (hash : string) (w : world) : Prop := {
  bo_mode : hb_hubMode (w_hub w) = true;
  bo_epoch : hb_epoch (w_hub w) <= t_epoch (w_auth w);
  bo_table : names hash (w_auth w);
  bo_cache : forall e, hb_cache (w_hub w) !! hash = Some e -> ce_valid e = true -> mine (ce_principal e)
}.

Lemma resolves_mine hash now d rec : names hash d -> resolves hash now d rec -> mine (principalFromRecord rec).
Proof. intros Hn (k & Hf & -> & _). apply find_key_Some in Hf as [Hk He]. exact (Hn k Hk He). Qed.
Lemma step_bound hash K now w w' : hub_step K now w w' -> bound_to hash w -> bound_to hash w'.
Proof.
  intros Hs [B1 B2 B3 B4]. destruct Hs as [m w Hm|hash' w|hash' e w He Hx Hv|w|hash' w HK]; split; simpl; try done; intros e'.
  - intros [_ Hl]%lookup_delete_Some. by apply B4.
  - intros [[<- ->]|Hl]%cache_put_lookup Hval; [|by apply B4]. destruct (Hv Hval) as (rec & Hrec & ->).
    by eapply resolves_mine.
Qed.
Lemma steps_bound hash K now w w' : steps K now w w' -> bound_to hash w -> bound_to hash w'.
Proof. induction 1; eauto using step_bound. Qed.
Lemma worldly_bound {A} hash K now (m : M site A) s :
  worldly K now m -> bound_to hash (st_world s) -> wp m (fun _ s' => bound_to hash (st_world s')) s.
Proof. intros Hm Hb. eapply wp_mono; [apply Hm|]. intros r s' Hs. exact (steps_bound _ _ _ _ _ Hs Hb). Qed.

(** Whoever is accepted with the key is that server. *)
Lemma acts_as_mine r scope now s p :
  bound_to (HashAPIKey sha256hex (hr_XAPIKey r)) (st_world s) -> hr_Cookie r = None ->
  acts_as trusted_proxies sha256hex r scope now s p -> mine p.
Proof.
  intros [_ _ B3 B4] Hc (_ & _ & [(_ & ep & _ & Hk)|(_ & _ & (id & e & rec & Hcookie & _))]); [|congruence].
  destruct Hk as [(e & Hl & Hv & -> & _)|(rec & Hrec & ->)]; [by apply (B4 e)|by eapply resolves_mine].
Qed.

(** A registration under another hash leaves the key's owner alone. *)
Lemma names_update hash p f d :
  (forall k, k_key_hash (f k) = k_key_hash k /\ k_tenant_id (f k) = k_tenant_id k /\ k_server_id (f k) = k_server_id k) ->
  names hash d -> names hash (update_keys p f d).2.
Proof.
  intros Hf Hn k (k0 & -> & Hk0)%list_elem_of_fmap. destruct (p k0); [|by apply Hn].
  destruct (Hf k0) as (-> & -> & ->). by apply Hn.
Qed.
Lemma names_insert hash k d u d' :
  k_key_hash k <> hash -> insert_key k d = Ok (u, d') -> names hash d -> names hash d'.
Proof.
  unfold insert_key. destruct (existsb _ _); [done|]. intros Hk [= _ <-] Hn k'. simpl.
  intros [Hk'|Hk'%list_elem_of_singleton]%elem_of_app; [by apply Hn|]. subst k'. intros He. by destruct Hk.
Qed.
Lemma do_op_names hash o : op_issues o <> Some hash -> preserves (names hash) (do_op o).
Proof.
  intros Ho. apply do_op_preserves_for with (fresh := fun h => h <> hash).
  - split; try done; intros; [apply names_update; [intros k0; split_and!; reflexivity|assumption]..|eapply names_insert; [|eassumption|assumption]; assumption].
  - intros h Hh ->. congruence.
  - intros rec now ->. simpl in Ho. unfold UpsertAPIKey. preserve. apply preserves_statement.
    intros d [] d' Hd Hu. unfold upsert_key in Hu. destruct (find_key _ _) as [old|].
    + destruct (existsb _ _); [done|]. injection Hu as <-. intros k (k0 & -> & Hk0)%list_elem_of_fmap.
      destruct (String.eqb_spec (k_key_hash k0) (rec_KeyHash rec)) as [E|]; [|by apply Hd].
      simpl. intros <-. congruence.
    + eapply names_insert; [|exact Hu|exact Hd]. simpl. congruence.
Qed.
Lemma bound_auth hash d w : t_epoch (w_auth w) <= t_epoch d -> names hash d -> bound_to hash w -> bound_to hash (with_auth d w).
Proof. intros He Hn [B1 B2 B3 B4]. split; simpl; [done|lia|done..]. Qed.
End binding.
End hub_side.

(** ** What an upload leaves at the hub *)

Section uploading.
Context `{Unicode} `{Net} `{OriginParser} `{Dialect} `{HubJSON}.
Context (trusted_proxies : string) (sha256hex : string -> string) (tenant server : string).

Definition receipts_for (s : site) (outcomes : list IngestOutcome) : Prop :=
  forall o, o ∈ outcomes ->
    exists rc, rc ∈ i_receipts (st_ingest s) /\ rc_tenant rc = tenant /\ rc_agent rc = server /\ rc_event rc = io_EventID o.
Lemma sent_mine key conn scope now s p :
  bound_to tenant server (HashAPIKey sha256hex key) (st_world s) ->
  acts_as trusted_proxies sha256hex (sent_with key conn) scope now s p -> mine tenant server p.
Proof. intros Hb. by apply acts_as_mine. Qed.

(** An upload that is confirmed has left the receipts it names. *)
Lemma wp_upload key conn legacy type body now s :
  bound_to tenant server (HashAPIKey sha256hex key) (st_world s) ->
  wp (receiveBatch trusted_proxies sha256hex (sent_with key conn) legacy type body now)
     (fun res s' => exists rp, res = Ok rp /\ forall outcomes, hr_Result rp = Ok outcomes -> receipts_for s' outcomes) s.
Proof.
  intros Hb. eapply wp_mono; [apply wp_receiveBatch, (bo_epoch _ _ _ _ Hb)|].
  intros res s' (_ & rp & -> & Hrp). exists rp. split; [done|]. intros outcomes Hr o Ho. rewrite Hr in Hrp.
  destruct Hrp as (p & text & batch & events & Hacts & _ & _ & _ & _ & _ & Heff).
  destruct (sent_mine _ _ _ _ _ _ Hb Hacts) as [Ht Ha]. rewrite Ht, Ha in Heff.
  pose proof (events_effect_ids _ _ _ _ _ _ _ _ _ _ Heff) as Hids.
  apply events_effect_receipts in Heff as [Hrec _]. rewrite Forall_forall in Hrec.
  assert (Hin : io_EventID o ∈ map ev_EventID events) by (rewrite <- Hids; by apply list_elem_of_fmap_2).
  apply list_elem_of_fmap in Hin as (ev & -> & Hev). destruct (Hrec ev Hev) as (b & rc & _ & Hrc & Hsame & _).
  unfold same_event in Hsame. bools. by exists rc.
Qed.
End uploading.

(** ** The other end is honest *)

(** The laws of a hub: whatever happens at it, and its own answers, keep the
    key with its owner; an acknowledgement names receipts it holds, and no
    other document reads as one. *)
Definition no_ack `{AgentJSON} (text : string) : Prop := forall a, ack_decode text = Some a -> ack_Status a <> "accepted".
Definition confirmed_by `{AgentJSON} (tenant server : string) (res : result error (hub_reply upload_answer)) (s' : site) : Prop :=
  exists rp, res = Ok rp /\
  match hr_Result rp with
  | Ok (Acknowledged outcomes) => receipts_for tenant server s' outcomes
  | Ok (OtherDocument _ text) => no_ack text
  | Err _ => True
  end.
Class UploadHubLaws `{UploadHub} `{AgentJSON} (tenant server : string) (hash_of : string -> string) : Prop := {
  uh_do_keeps : forall hash o s, uh_tame hash o -> bound_to tenant server hash (st_world s) ->
    wp (uh_do o) (fun _ s' => bound_to tenant server hash (st_world s')) s;
  uh_serve_confirms : forall key way path body s, uh_tame_way (hash_of key) way ->
    bound_to tenant server (hash_of key) (st_world s) ->
    wp (uh_serve way key path body)
       (fun res s' => confirmed_by tenant server res s' /\ bound_to tenant server (hash_of key) (st_world s')) s
}.

Section honest.
Context `{UploadHubLaws}.
Context (ack_text : list IngestOutcome -> string) (error_text : string -> string).
(** The agent reads the acknowledgements the hub writes. *)
Context (ack_read : forall outcomes, ack_decode (ack_text outcomes) = Some {| ack_Status := "accepted"; ack_Outcomes := outcomes |})
        (error_read : forall msg, no_ack (error_text msg)).

Record wired (w : net) : Prop := {
  wi_bound : bound_to tenant server (hash_of (n_key w)) (st_world (n_site w));
  wi_script : Forall (fun b => Forall (uh_tame (hash_of (n_key w))) (bt_before b) /\ uh_tame_way (hash_of (n_key w)) (bt_way b))
                (n_script w)
}.
(** The hub has committed an event with this identity for the agent. *)
Definition committed (w : net) (id : string) : Prop :=
  exists rc, rc ∈ n_log w /\ rc_tenant rc = tenant /\ rc_agent rc = server /\ rc_event rc = id.

Lemma wp_do_others hash os s :
  Forall (uh_tame hash) os -> bound_to tenant server hash (st_world s) ->
  wp (do_others os) (fun r s' => r = Ok tt /\ bound_to tenant server hash (st_world s')) s.
Proof.
  intros Ht. revert s. induction Ht as [|o os Ho _ IH]; intros s Hb; simpl; [by apply wp_ret|].
  apply wp_try. eapply wp_mono; [by apply uh_do_keeps|]. intros r s' Hb'. by apply IH.
Qed.
Lemma log_monotone w w' : (forall rc, rc ∈ n_log w -> rc ∈ n_log w') -> forall id, committed w id -> committed w' id.
Proof. intros Hl id (rc & Hrc & ?). exists rc. split; [by apply Hl|done]. Qed.

Lemma wp_post path body w : wired w ->
  wp (post ack_text error_text path (n_key w) body)
    (fun res w' => keeps wired committed w w' /\
       forall resp text a o, res = Ok (Some resp) -> rp_Body resp = Some text -> ack_decode text = Some a ->
         rp_StatusCode resp = 202 \/ rp_StatusCode resp = 200 ->
         ack_Status a = "accepted" -> o ∈ ack_Outcomes a ->
         io_Status o = "accepted" \/ io_Status o = "duplicate" -> committed w' (io_EventID o)) w.
Proof.
  intros [Hb Hs]. unfold post. apply wp_inspect. destruct (n_script w) as [|b rest] eqn:Es.
  { apply wp_ret. split; [|done]. by apply hub_keeps_refl; split; rewrite ?Es. }
  apply Forall_cons in Hs as [[Hbefore Hway] Hrest]. apply wp_mbind, wp_modify, wp_mbind, wp_zoom.
  eapply wp_mono; [by apply (wp_do_others (hash_of (n_key w)))|]. intros ? s1 [-> Hb1].
  destruct (negb (bt_arrives b)).
  { apply wp_ret. split; [|done]. split; [by split|]. by apply log_monotone. }
  apply wp_try, wp_zoom. eapply wp_mono; [by apply uh_serve_confirms|].
  intros ? s2 [(rp & -> & Hconf) Hb2]. apply wp_mbind, wp_modify, wp_ret. split.
  { split; [by split|]. apply log_monotone. intros rc Hrc. by apply elem_of_app; left. }
  intros resp text a o Hresp Hbody Hdec _ Hst Ho _. destruct (bt_answered b); [|done]. injection Hresp as <-.
  unfold response_of in Hbody. simpl in Hbody. destruct (bt_whole b); [|done]. injection Hbody as <-.
  destruct (hr_Result rp) as [[outcomes|status text]|[status msg]]; simpl in Hdec;
    [|by apply Hconf in Hdec|by apply error_read in Hdec].
  rewrite ack_read in Hdec. injection Hdec as <-. destruct (Hconf o Ho) as (rc & Hrc & ? & ? & ?).
  exists rc. split; [by apply elem_of_app; right|done].
Qed.
End honest.
Arguments wired {_} tenant server hash_of w.
Arguments committed {_} tenant server w id.

(** ** The whole path *)

Definition on_net `{UploadHub} {A : Type} : M net A -> M (Spool * net) A := zoom snd (fun w p => (p.1, w)).

Section whole.
Context `{Unicode} `{URLParser} `{SpoolJSONLaws} `{UploadHubLaws} `{!AgentJSONLaws}.
Context (hubURL : string).
Context (ack_text : list IngestOutcome -> string) (error_text : string -> string).
(** The agent's clock, the dates it can read, and how it gets a new key. *)
Context (clock : net -> Z) (http_ParseTime : string -> option Z) (reauth : option (M net unit)).

(** The [deliverBatch] the agent drains its spool with. *)
Definition send (entries : list spoolEntry) : M (Spool * net) unit :=
  on_net (inspect (fun w =>
    deliverBatch (post ack_text error_text) hubURL n_key reauth http_ParseTime (clock w) entries)).
(** The agent never delivers single records. *)
Definition send_one (payloadType body : string) : M (Spool * net) unit := fail (EMsg "agent: not used").

(** What it means for the hub to have an entry. *)
Definition stored_at (w : net) (x : string * string) : Prop :=
  exists ev, event_of {| se_PayloadType := x.1; se_Body := x.2; se_QueuedAt := 0 |} = Ok ev /\
    committed tenant server w (ev_EventID ev).

Lemma events_of_elem entries events e :
  events_of entries = Ok events -> e ∈ entries ->
  exists ev, event_of {| se_PayloadType := (payload e).1; se_Body := (payload e).2; se_QueuedAt := 0 |} = Ok ev /\
    ev_EventID ev ∈ map ev_EventID events.
Proof.
  revert events. induction entries as [|x entries IH]; intros events He Hin; [by apply not_elem_of_nil in Hin|].
  simpl in He. destruct (event_of x) as [ev|] eqn:Ex; [|done]. simpl in He.
  destruct (events_of entries) as [evs|]; [|done]. injection He as <-. apply elem_of_cons in Hin as [->|Hin].
  - exists ev. split; [exact Ex|]. constructor.
  - destruct (IH evs eq_refl Hin) as (ev' & ? & ?). exists ev'. split; [done|]. by constructor.
Qed.

Context (ack_read : forall outcomes, ack_decode (ack_text outcomes) = Some {| ack_Status := "accepted"; ack_Outcomes := outcomes |})
        (error_read : forall msg, no_ack (error_text msg)).
Context (reauth_ok : honest_reauth reauth (wired tenant server hash_of) (committed tenant server)).

Lemma beside_net (p : Spool * net) w' :
  keeps (wired tenant server hash_of) (committed tenant server) p.2 w' ->
  beside (wired tenant server hash_of) stored_at p (p.1, w').
Proof.
  intros [Hi Hc]. split; [|split; [done|]].
  - intros Hok. split; [exact Hok|]. by split.
  - intros x (ev & He & Hh). exists ev. split; [done|]. by apply Hc.
Qed.

Lemma send_delivers : delivers (wired tenant server hash_of) stored_at send.
Proof.
  intros g p Hinv. unfold send, on_net. apply wp_zoom, wp_inspect.
  eapply wp_mono; [apply (wp_deliverBatch _ _ _ _ _ _ (wired tenant server hash_of) (committed tenant server))|].
  - intros path body w Hw. by apply wp_post.
  - exact reauth_ok.
  - exact Hinv.
  - intros r w' [Hk Hr]. split; [by apply beside_net|]. intros Hok e He.
    destruct (Hr Hok) as (events & Hev & _ & Hids). destruct (events_of_elem _ _ _ Hev He) as (ev & Hx & Hin).
    exists ev. split; [done|]. by apply Hids.
Qed.

(** Whatever happens to the queue, over whatever network, at a hub that keeps
    the laws: an observation whose append reported success is on the agent's
    disk, or committed. *)
Lemma uploads_arrive cancelled ops sp s script key e :
  let w := {| n_site := s; n_script := script; n_key := key; n_log := [] |} in
  only_beside (wired tenant server hash_of) stored_at cancelled ->
  wired tenant server hash_of w -> spool_ok sp ->
  admissible cancelled send send_one ops (sp, w) ->
  e ∈ accepted_entries cancelled send send_one ops (sp, w) ->
  let p := run_spool cancelled send send_one ops (sp, w) in
  on_hand p.1 e \/
  exists ev rc, event_of e = Ok ev /\ rc ∈ n_log p.2 /\
    rc_tenant rc = tenant /\ rc_agent rc = server /\ rc_event rc = ev_EventID ev.
Proof.
  cbv zeta. set (w := Build_net _ s script key []). intros Hc Hw Hok Hadm He.
  destruct (run_spool_safe (wired tenant server hash_of) stored_at cancelled send send_one ops (sp, w) e)
    as [?|(ev & Hev & rc & Hrc)]; [exact Hc|exact send_delivers| |exact Hw|exact Hok|exact Hadm|by right|by left|].
  - intros x p Hinv. apply wp_fail. split; [|done]. apply (beside_net p). by apply hub_keeps_refl.
  - right. by exists ev, rc.
Qed.
End whole.
