(* ===== verification/Collector.v ===== *)
(** * The collector ([collector/])

    One poll of a host: rates of monotonic counters ([delta.go]), CPU use of
    processes between two polls ([process.go]), users seen on the listening
    ports within a window ([usertracker.go]), the NIC that counts as external
    ([iface.go]) and the snapshot that is written to a store
    ([collector.go]).

    What the operating system and gopsutil report is data: the readings a
    poll is given.  The writes go to any [Sink], the part of the interface
    [storage.Store] the collector uses. *)

From S2P Require Export Reads.
Open Scope list_scope.
Open Scope Z_scope.

(** ** Counters ([delta.go]) *)

(** On [uint64] readings; the boolean is [reset]. *)
Definition counterDelta (cur prev : Z) : Z * bool :=
  if cur <? prev then (0, true) else (wrap_u64 (cur - prev), false).

(** ** Processes ([process.go]) *)

Module Procs.

Record procKey := { pid : Z; createTime : Z }.
#[export] Instance procKey_eq_dec : EqDecision procKey.
Proof. solve_decision. Defined.
#[export] Instance procKey_countable : Countable procKey.
Proof.
  refine (inj_countable' (fun k => (pid k, createTime k)) (fun '(p, c) => {| pid := p; createTime := c |}) _).
  by intros [].
Defined.

Record procSample := { cpuSeconds : float64; sampledAt : Z }.
Record procCPUSampler := { prev : gmap procKey procSample; numCores : Z }.

Definition newProcCPUSampler (cores : Z) : procCPUSampler :=
  {| prev := ∅; numCores := if cores <? 1 then 1 else cores |}.

(** A process as gopsutil reports it; [None] is an error or a nil result. *)
Record osProcess := {
  o_Pid : Z;
  o_Times : option (float64 * float64) (* user, system *);
  o_CreateTime : option Z;
  o_RSS : option Z;
  o_Name : string
}.

Definition f100 : float64 := f_of_Z 100.
Definition processCPUPercent (curCPUSeconds prevCPUSeconds : float64) (elapsed cores : Z) : float64 :=
  if (elapsed <=? 0) || (cores <? 1) then f0
  else
    let deltaCPU := fsub curCPUSeconds prevCPUSeconds in
    if flt deltaCPU f0 then f0
    else
      let pct := fmul (fdiv deltaCPU (fmul (Seconds elapsed) (f_of_Z cores))) f100 in
      if flt pct f0 then f0 else if fgt pct f100 then f100 else pct.

Definition proc_key (p : osProcess) : procKey := {| pid := o_Pid p; createTime := default 0 (o_CreateTime p) |}.
Definition cpu_seconds (p : osProcess) : option float64 :=
  match o_Times p with Some (user, system) => Some (fadd user system) | None => None end.
Definition mb : float64 := f_of_Z (1024 * 1024).

(** The row of a process that has a baseline. *)
Definition process_row (ts : Z) (serverID hostname : string) (cores : Z) (p : osProcess) (cpu : float64)
    (base : procSample) (rss : Z) : ProcessRow :=
  {| p_ID := 0; p_Timestamp := ts; p_TenantID := empty_str; p_ServerID := serverID; p_Hostname := hostname;
     p_PID := o_Pid p; p_Name := o_Name p;
     p_CPUPct := processCPUPercent cpu (cpuSeconds base) (Sub ts (sampledAt base)) cores;
     p_MemMB := fdiv (f_of_Z rss) mb |}.

(** The body of the loop of [sample]. *)
Definition sample_one (s : procCPUSampler) (ts : Z) (serverID hostname : string)
    (acc : gmap procKey procSample * list ProcessRow) (p : osProcess)
  : gmap procKey procSample * list ProcessRow :=
  let '(current, rows) := acc in
  match cpu_seconds p with
  | None => acc
  | Some cpu =>
      let current := <[proc_key p := {| cpuSeconds := cpu; sampledAt := ts |}]> current in
      match prev s !! proc_key p with
      | None => (current, rows)
      | Some base =>
          match o_RSS p with
          | None => (current, rows)
          | Some rss => (current, rows ++ [process_row ts serverID hostname (numCores s) p cpu base rss])
          end
      end
  end.

(** [less] of the [sort.Slice]: busier first, then larger. *)
Definition busier (a b : ProcessRow) : bool :=
  if negb (feq (p_CPUPct a) (p_CPUPct b)) then fgt (p_CPUPct a) (p_CPUPct b) else fgt (p_MemMB a) (p_MemMB b).

(** [None] is the error of the process table. *)
Definition sample `{SortSlice} (s : procCPUSampler) (procs : option (list osProcess)) (ts : Z)
    (serverID hostname : string) (n : nat) : option (list ProcessRow) * procCPUSampler :=
  match procs with
  | None => (None, s)
  | Some procs =>
      let '(current, rows) := fold_left (sample_one s ts serverID hostname) procs (∅, []) in
      let rows := sort_slice busier rows in
      (Some (if (n <? length rows)%nat then take n rows else rows), {| prev := current; numCores := numCores s |})
  end.
Definition prime `{SortSlice} (s : procCPUSampler) (procs : option (list osProcess)) (now : Z) : procCPUSampler :=
  (sample s procs now empty_str empty_str 0).2.
End Procs.

(** ** Users ([usertracker.go]) *)

Module Users.

Record ConnectionStat := { c_Status : string; c_LPort : Z; c_RIP : string; c_RPort : Z }.
(** [gopsutil_net.Connections], by the kind asked for; [None] is an error. *)
Definition connLister : Type := string -> option (list ConnectionStat).

Definition defaultUserWindow : Z := 60 * second.
Definition activeConnStates : list string := ["ESTABLISHED"; "SYN_RECV"; "SYN_RECEIVED"]%string.
Definition defaultExcludedPorts : gset Z :=
  list_to_set [5432; 3306; 6379; 27017; 1433; 1521; 9200; 9300; 9042; 11211; 5672;
               22; 23; 3389; 445; 139; 135; 5985; 5986; 111; 2049].

Record TCPUserTracker := {
  appPorts : gset Z;
  excludePorts : gset Z;
  recentUsers : gmap string Z;
  recentConns : gmap string Z;
  window : Z;
  warnedNoPort : bool
}.
Definition NewTCPUserTracker : TCPUserTracker :=
  {| appPorts := ∅; excludePorts := ∅; recentUsers := ∅; recentConns := ∅; window := defaultUserWindow;
     warnedNoPort := false |}.

Definition set_recent (users conns : gmap string Z) (t : TCPUserTracker) : TCPUserTracker :=
  {| appPorts := appPorts t; excludePorts := excludePorts t; recentUsers := users; recentConns := conns;
     window := window t; warnedNoPort := warnedNoPort t |}.

Definition positive_ports (ports : list Z) : gset Z := list_to_set (List.filter (fun p => 0 <? p) ports).
Definition SetAppPorts (ports : list Z) (t : TCPUserTracker) : TCPUserTracker :=
  {| appPorts := positive_ports ports; excludePorts := excludePorts t; recentUsers := recentUsers t;
     recentConns := recentConns t; window := window t; warnedNoPort := warnedNoPort t |}.
Definition SetExcludePorts (ports : list Z) (t : TCPUserTracker) : TCPUserTracker :=
  {| appPorts := appPorts t; excludePorts := excludePorts t ∪ positive_ports ports; recentUsers := recentUsers t;
     recentConns := recentConns t; window := window t; warnedNoPort := warnedNoPort t |}.
Definition SetWindow (d : Z) (t : TCPUserTracker) : TCPUserTracker :=
  if d <=? 0 then t
  else {| appPorts := appPorts t; excludePorts := excludePorts t; recentUsers := recentUsers t;
          recentConns := recentConns t; window := d; warnedNoPort := warnedNoPort t |}.
Definition RecordUser (userKey : string) (now : Z) (t : TCPUserTracker) : TCPUserTracker :=
  if is_empty userKey then t else set_recent (<[userKey := now]> (recentUsers t)) (recentConns t) t.

Section tracker.
Context `{Unicode} `{Net}.

Definition isLoopback (ipStr : string) : bool :=
  String.eqb ipStr "127.0.0.1" || String.eqb ipStr "::1" || String.eqb ipStr "localhost" ||
  match net_ParseIP ipStr with Some ip => ip_IsLoopback ip | None => false end.

(** The loop of [listeningAppPorts] over the connection table. *)
Definition listen_one (app excluded : gset Z) (listening : gset Z) (c : ConnectionStat) : gset Z :=
  if negb (EqualFold (c_Status c) "LISTEN") then listening
  else
    let port := c_LPort c in
    if bool_decide (port ∈ excluded) then listening
    else if bool_decide (app ≠ ∅) then if bool_decide (port ∈ app) then {[port]} ∪ listening else listening
    else if bool_decide (port ∈ defaultExcludedPorts) then listening
    else {[port]} ∪ listening.
Definition listeningAppPorts (conns : list ConnectionStat) (app excluded : gset Z) : gset Z :=
  fold_left (listen_one app excluded) conns ∅ ∪ (app ∖ excluded).

Definition user_key (remoteIP : string) : string :=
  if isLoopback remoteIP then "local:" +:+ remoteIP else remoteIP.
(** A connection that counts, and the keys it is counted under. *)
Definition counted (listening : gset Z) (c : ConnectionStat) : bool :=
  existsb (String.eqb (ToUpper (c_Status c))) activeConnStates &&
  bool_decide (c_LPort c ∈ listening) &&
  negb (String.eqb (c_RIP c) empty_str || String.eqb (c_RIP c) "0.0.0.0" || String.eqb (c_RIP c) "::").
Definition conn_user (c : ConnectionStat) : string := user_key (c_RIP c).
Definition conn_socket (c : ConnectionStat) : string := conn_user c +:+ ":" +:+ digits (c_RPort c).

Definition note_one (listening : gset Z) (now : Z) (acc : gmap string Z * gmap string Z) (c : ConnectionStat)
  : gmap string Z * gmap string Z :=
  if counted listening c then (<[conn_user c := now]> acc.1, <[conn_socket c := now]> acc.2) else acc.

(** Entries last seen before the cutoff are deleted. *)
Definition expire (cutoff : Z) (m : gmap string Z) : gmap string Z :=
  base.filter (fun kv => cutoff <= kv.2) m.

(** The second result says whether the missing port was logged. *)
Definition refresh (lister : connLister) (now : Z) (t : TCPUserTracker) : TCPUserTracker * bool :=
  let shouldWarn := bool_decide (appPorts t = ∅) && negb (warnedNoPort t) in
  let conns := match lister "tcp" with Some conns => Some conns | None => lister "all" end in
  let '(users, socks) :=
    match conns with
    | Some conns => fold_left (note_one (listeningAppPorts conns (appPorts t) (excludePorts t)) now) conns
                      (recentUsers t, recentConns t)
    | None => (recentUsers t, recentConns t)
    end in
  let cutoff := now - window t in
  ({| appPorts := appPorts t; excludePorts := excludePorts t; recentUsers := expire cutoff users;
      recentConns := expire cutoff socks; window := window t; warnedNoPort := warnedNoPort t || shouldWarn |},
   shouldWarn).

Definition GetConcurrentUsers (lister : connLister) (now : Z) (t : TCPUserTracker) : Z * TCPUserTracker :=
  let t' := (refresh lister now t).1 in (Z.of_nat (size (recentUsers t')), t').
Definition GetActiveConnections (lister : connLister) (now : Z) (t : TCPUserTracker) : Z * TCPUserTracker :=
  let t' := (refresh lister now t).1 in (Z.of_nat (size (recentConns t')), t').
End tracker.
End Users.

(** ** The external NIC ([iface.go]) *)

Module Nic.
Section nic.
Context `{Unicode} `{Net}.

Definition ifaceCacheTTL : Z := 5 * minute.

Record IOCountersStat := { ic_Name : string; ic_BytesSent : Z; ic_BytesRecv : Z }.
(** [None] for [ifc.Addrs()] is its error; an address without an IP, or of
    another type, is [None]. *)
Record Interface := {
  if_Name : string;
  if_Up : bool;
  if_Loopback : bool;
  if_Addrs : option (list (option IP))
}.
(** What the network answers: [nv_dial] is the local address of a UDP socket
    to a target ([None]: no route; [Some None]: not a UDP address, or nil);
    [nv_Recounted] is what a second [IOCounters] of the same poll answers, the
    one of [busiestPhysicalIface]. *)
Record netView := {
  nv_dial : string -> option (option IP);
  nv_Interfaces : option (list Interface);
  nv_IOCounters : option (list IOCountersStat);
  nv_Recounted : option (list IOCountersStat)
}.

Definition source_of (nv : netView) (target : string) : option IP :=
  match nv_dial nv target with
  | Some (Some ip) => if ip_IsUnspecified ip then None else Some ip
  | _ => None
  end.
Definition outboundSourceIP (nv : netView) : option IP :=
  match source_of nv "8.8.8.8:80" with
  | Some ip => Some ip
  | None => source_of nv "[2001:4860:4860::8888]:80"
  end.

Definition has_addr (localIP : IP) (i : Interface) : bool :=
  if_Up i &&
  match if_Addrs i with
  | None => false
  | Some addrs => existsb (fun a => match a with Some ip => ip_equal ip localIP | None => false end) addrs
  end.
Definition defaultRouteIface (nv : netView) : string :=
  match outboundSourceIP nv with
  | None => empty_str
  | Some localIP =>
      match nv_Interfaces nv with
      | None => empty_str
      | Some ifaces => match List.find (has_addr localIP) ifaces with Some i => if_Name i | None => empty_str end
      end
  end.

Definition loopbackNames (nv : netView) : list string :=
  match nv_Interfaces nv with
  | None => ["lo"; "lo0"]%string
  | Some ifaces => map if_Name (List.filter if_Loopback ifaces)
  end.
Definition virtualIfacePrefixes : list string :=
  ["docker"; "br-"; "veth"; "virbr"; "vmnet"; "vboxnet"; "tun"; "tap"; "wg"; "utun"; "zt"; "tailscale";
   "isatap"; "teredo"; "bluetooth"]%string.
Definition isVirtualIface (name : string) : bool :=
  let lower := ToLower name in
  existsb (HasPrefix lower) virtualIfacePrefixes ||
  (Contains lower "virtual" || Contains lower "pseudo-interface").

Definition nic_total (i : IOCountersStat) : Z := wrap_u64 (ic_BytesSent i + ic_BytesRecv i).
Definition skipped_nic (loopbacks : list string) (i : IOCountersStat) : bool :=
  bool_decide (ic_Name i ∈ loopbacks) || isVirtualIface (ic_Name i).
Definition busier_nic (loopbacks : list string) (best : string * Z) (i : IOCountersStat) : string * Z :=
  if skipped_nic loopbacks i then best
  else if best.2 <? nic_total i then (ic_Name i, nic_total i) else best.
Definition busiestPhysicalIface (nv : netView) : string :=
  match nv_Recounted nv with
  | None => empty_str
  | Some counters => (fold_left (busier_nic (loopbackNames nv)) counters (empty_str, 0)).1
  end.

Record ifaceCache := { ifaceCached : string; ifaceCachedAt : Z; ifaceLoggedAs : string }.
Definition no_iface : ifaceCache := {| ifaceCached := empty_str; ifaceCachedAt := zero_time; ifaceLoggedAs := empty_str |}.

(** The clock is read on entry ([now]) and after the detection ([done]). *)
Definition detectExternalIface (nv : netView) (now done : Z) (c : ifaceCache) : string * ifaceCache :=
  if negb (is_empty (ifaceCached c)) && (Sub now (ifaceCachedAt c) <? ifaceCacheTTL) then (ifaceCached c, c)
  else
    let name := let d := defaultRouteIface nv in if is_empty d then busiestPhysicalIface nv else d in
    (name, {| ifaceCached := name; ifaceCachedAt := done; ifaceLoggedAs := name |}).
End nic.
End Nic.

(** ** One poll ([collector.go]) *)

(** The part of [storage.Store] the collector writes to. *)
Class Sink (S : Type) := {
  sink_InsertMetric : MetricRow -> M S unit;
  sink_InsertProcess : ProcessRow -> M S unit
}.
#[export] Instance sqlite_sink : Sink rows_db :=
  {| sink_InsertMetric := Reads.SQLite.InsertMetric; sink_InsertProcess := Reads.SQLite.InsertProcess |}.
Definition postgres_sink : Sink rows_db :=
  {| sink_InsertMetric := Reads.Postgres.InsertMetric; sink_InsertProcess := Reads.Postgres.InsertProcess |}.

Module Collect.
Import Procs Users Nic.

Definition topProcessCount : nat := 20.
Definition pollInterval : Z := 10 * second.

Record Collector := {
  interval : Z;
  userTracker : option TCPUserTracker;
  serverID : string;
  hostname : string;
  externalIface : string;
  numCores : Z;
  procSampler : procCPUSampler;
  prevTime : Z;
  prevReadOps : Z;
  prevWriteOps : Z;
  prevNetSent : Z;
  prevNetRecv : Z;
  prevExtSent : Z;
  prevExtRecv : Z;
  prevIntSent : Z;
  prevIntRecv : Z
}.

(** [os.Hostname()]; [None] is its error. *)
Definition resolveHostname (host : option string) : string :=
  match host with
  | Some h => if is_empty h then "localhost" else h
  | None => "localhost"
  end.

(** [cores]: [cpu.Counts(true)], [None] its error. *)
Definition NewWithInterval (host : option string) (cores : option Z) (d : Z) : Collector :=
  let h := resolveHostname host in
  let cores := match cores with Some n => if n <? 1 then 1 else n | None => 1 end in
  {| interval := d; userTracker := Some NewTCPUserTracker; serverID := h; hostname := h;
     externalIface := empty_str; numCores := cores; procSampler := newProcCPUSampler cores;
     prevTime := zero_time; prevReadOps := 0; prevWriteOps := 0; prevNetSent := 0; prevNetRecv := 0;
     prevExtSent := 0; prevExtRecv := 0; prevIntSent := 0; prevIntRecv := 0 |}.
Definition New (host : option string) (cores : option Z) : Collector := NewWithInterval host cores pollInterval.

(** ** The readings of a poll *)

Record DiskUsage := { du_Free : Z; du_Total : Z }.
Record diskCounter := { dc_ReadCount : Z; dc_WriteCount : Z }.
Section collect.
Context `{Unicode} `{Net} `{SortSlice} `{MapRange}.

Record readings := {
  rd_now : Z;
  rd_cpu : list float64 (* empty on an error *);
  rd_mem : option (float64 * Z) (* used percent, total; [None]: nil *);
  rd_usage : string -> option DiskUsage * bool (* the result and whether there is an error *);
  rd_disks : option (gmap string diskCounter);
  rd_net : netView;
  rd_detected : Z (* the clock after the NIC detection *);
  rd_conns : connLister;
  rd_users : Z (* the clock when users are counted *);
  rd_procs : option (list osProcess)
}.

(** What the counters of a poll add up to. *)
Record totals := {
  readOps : Z; writeOps : Z;
  netSent : Z; netRecv : Z;
  extSent : Z; extRecv : Z; intSent : Z; intRecv : Z
}.

Definition add64 (a b : Z) : Z := wrap_u64 (a + b).
Definition gb (bytes : Z) : float64 := fdiv (f_of_Z bytes) (f_of_Z (1024 * 1024 * 1024)).
Definition disk_usage (r : readings) : option DiskUsage :=
  let '(disk, err) := rd_usage r "/" in
  if err then (rd_usage r (bytes [67; 58; 92]%N)).1 else disk.

Definition disk_ops (r : readings) : Z * Z :=
  match rd_disks r with
  | None => (0, 0)
  | Some disks =>
      fold_left (fun '(rd, wr) d => (add64 rd (dc_ReadCount d), add64 wr (dc_WriteCount d)))
        (map snd (range disks)) (0, 0)
  end.

Definition nic_traffic : Type := Z * Z * (Z * Z) * (Z * Z).
(** The loop over the NICs: totals, external and internal traffic. *)
Definition split_nic (external : string) (acc : nic_traffic) (i : IOCountersStat) : nic_traffic :=
  let '(sent, recv, (es, er), (i_s, i_r)) := acc in
  let sent := add64 sent (ic_BytesSent i) in
  let recv := add64 recv (ic_BytesRecv i) in
  if String.eqb (ic_Name i) external then (sent, recv, (ic_BytesSent i, ic_BytesRecv i), (i_s, i_r))
  else (sent, recv, (es, er), (add64 i_s (ic_BytesSent i), add64 i_r (ic_BytesRecv i))).
Definition net_traffic (c : Collector) (r : readings) (cache : ifaceCache) : nic_traffic * ifaceCache :=
  match nv_IOCounters (rd_net r) with
  | None => ((0, 0, (0, 0), (0, 0)), cache)
  | Some nics =>
      let '(external, cache) :=
        if is_empty (externalIface c) then detectExternalIface (rd_net r) (rd_now r) (rd_detected r) cache
        else (externalIface c, cache) in
      (fold_left (split_nic external) nics (0, 0, (0, 0), (0, 0)), cache)
  end.
Definition totals_of (c : Collector) (r : readings) (cache : ifaceCache) : totals * ifaceCache :=
  let '(rd, wr) := disk_ops r in
  let '((sent, recv, (es, er), (i_s, i_r)), cache) := net_traffic c r cache in
  ({| readOps := rd; writeOps := wr; netSent := sent; netRecv := recv; extSent := es; extRecv := er;
      intSent := i_s; intRecv := i_r |}, cache).

(** The rate of a pair of counters over [elapsed] seconds; a reset of either
    gives 0. *)
Definition rate (scale : float64 -> float64) (elapsed : float64) (a a' b b' : Z) : float64 :=
  let '(da, ra) := counterDelta a a' in
  let '(db, rb) := counterDelta b b' in
  if ra || rb then f0 else fdiv (f_of_Z (add64 da db)) (scale elapsed).
Definition per_mb (elapsed : float64) : float64 := fmul (fmul elapsed (f_of_Z 1024)) (f_of_Z 1024).
(** [diskIOPS] and [netMBps]. *)
Definition rates (c : Collector) (now : Z) (t : totals) : float64 * float64 :=
  if IsZero (prevTime c) then (f0, f0)
  else
    let elapsed := Seconds (Sub now (prevTime c)) in
    if fgt elapsed f0 then
      (rate (fun e => e) elapsed (readOps t) (prevReadOps c) (writeOps t) (prevWriteOps c),
       rate per_mb elapsed (netSent t) (prevNetSent c) (netRecv t) (prevNetRecv c))
    else (f0, f0).

Definition remember (now : Z) (t : totals) (tracker : option TCPUserTracker) (s : procCPUSampler) (c : Collector)
  : Collector :=
  {| interval := interval c; userTracker := tracker; serverID := serverID c; hostname := hostname c;
     externalIface := externalIface c; numCores := numCores c; procSampler := s;
     prevTime := now; prevReadOps := readOps t; prevWriteOps := writeOps t;
     prevNetSent := netSent t; prevNetRecv := netRecv t; prevExtSent := extSent t; prevExtRecv := extRecv t;
     prevIntSent := intSent t; prevIntRecv := intRecv t |}.

Definition count_users (r : readings) (tracker : option TCPUserTracker) : Z * option TCPUserTracker :=
  match tracker with
  | None => (0, None)
  | Some t => let '(n, t') := GetConcurrentUsers (rd_conns r) (rd_users r) t in (n, Some t')
  end.

Definition metric_of (c : Collector) (r : readings) (t : totals) (iops mbps : float64) (users : Z) : MetricRow :=
  {| m_ID := 0; m_Timestamp := rd_now r; m_TenantID := LocalTenantID; m_ServerID := serverID c;
     m_Hostname := hostname c; m_CPUPct := default f0 (head (rd_cpu r));
     m_MemPct := match rd_mem r with Some (pct, _) => pct | None => f0 end;
     m_DiskFreeGB := match disk_usage r with Some d => gb (du_Free d) | None => f0 end;
     m_NetSentBytes := netSent t; m_NetRecvBytes := netRecv t; m_CPUCores := numCores c;
     m_MemTotalGB := match rd_mem r with Some (_, total) => gb total | None => f0 end;
     m_DiskTotalGB := match disk_usage r with Some d => gb (du_Total d) | None => f0 end;
     m_DiskReadOps := readOps t; m_DiskWriteOps := writeOps t; m_DiskIOPS := iops; m_NetMBps := mbps;
     m_ConcurrentUsers := users; m_NetSentExternal := extSent t; m_NetRecvExternal := extRecv t;
     m_NetSentInternal := intSent t; m_NetRecvInternal := intRecv t |}.

(** The collector, the NIC cache of the package and the store. *)
Record host (S : Type) := { h_col : Collector; h_iface : ifaceCache; h_store : S }.
Arguments h_col {S}.
Arguments h_iface {S}.
Arguments h_store {S}.

Context {S : Type} `{!Sink S}.

Definition to_store {A : Type} (m : M S A) : M (host S) A :=
  zoom h_store (fun s h => {| h_col := h_col h; h_iface := h_iface h; h_store := s |}) m.
Definition set_col (c : Collector) (cache : ifaceCache) (h : host S) : host S :=
  {| h_col := c; h_iface := cache; h_store := h_store h |}.

(** Errors of single inserts are logged. *)
Fixpoint insert_processes (rows : list ProcessRow) : M S unit :=
  match rows with
  | [] => ret tt
  | p :: rows => let* _ := attempt (sink_InsertProcess p) in insert_processes rows
  end.

Definition collect (r : readings) : M (host S) unit := inspect (fun h =>
  let c := h_col h in
  let '(t, cache) := totals_of c r (h_iface h) in
  let '(iops, mbps) := rates c (rd_now r) t in
  let '(users, tracker) := count_users r (userTracker c) in
  let* _ := modify (set_col (remember (rd_now r) t tracker (procSampler c) c) cache) in
  let* _ := to_store (sink_InsertMetric (metric_of c r t iops mbps users)) in
  let '(procs, sampler) := sample (procSampler c) (rd_procs r) (rd_now r) (serverID c) (hostname c) topProcessCount in
  let* _ := modify (set_col (remember (rd_now r) t tracker sampler c) cache) in
  match procs with
  | None => ret tt
  | Some rows => to_store (insert_processes rows)
  end).

(** [Run] primes the sampler ([primed] are the processes at that moment),
    polls at once and then on every tick; [polls] are the readings of the
    polls until the context ends. *)
Fixpoint poll_all (polls : list readings) : M (host S) unit :=
  match polls with
  | [] => ret tt
  | r :: polls => let* _ := attempt (collect r) in poll_all polls
  end.
Definition Run (primed : option (list osProcess)) (now : Z) (polls : list readings) : M (host S) unit :=
  let* _ := modify (fun h =>
    set_col (remember (prevTime (h_col h))
      {| readOps := prevReadOps (h_col h); writeOps := prevWriteOps (h_col h); netSent := prevNetSent (h_col h);
         netRecv := prevNetRecv (h_col h); extSent := prevExtSent (h_col h); extRecv := prevExtRecv (h_col h);
         intSent := prevIntSent (h_col h); intRecv := prevIntRecv (h_col h) |}
      (userTracker (h_col h)) (prime (procSampler (h_col h)) primed now) (h_col h)) (h_iface h) h) in
  poll_all polls.
End collect.
End Collect.
