(* ===== verification/CollectorProofs.v ===== *)
(** * The collector: proofs

    The process table is ranked by the load of the last interval, a user
    counts while last seen within the window, and a rate is the increase of
    its counters where both polls could read them. *)

From S2P Require Export Collector.
Open Scope list_scope.
Open Scope Z_scope.
Import Procs Users Nic Collect.

(** ** Processes *)

Lemma processCPUPercent_bounds (cur base : float64) (elapsed cores : Z) :
  flt (processCPUPercent cur base elapsed cores) f0 = false /\
  fgt (processCPUPercent cur base elapsed cores) f100 = false.
Proof.
  unfold processCPUPercent. cbv zeta. case_match; [done|]. case_match; [done|].
  case_match; [done|]. case_match; [by vm_compute|done].
Qed.

(** What a poll measures of a process: the row of one that has a baseline. *)
Definition measured_one (s : procCPUSampler) (ts : Z) (serverID hostname : string) (p : osProcess) : option ProcessRow :=
  match cpu_seconds p, prev s !! proc_key p, o_RSS p with
  | Some cpu, Some base, Some rss => Some (process_row ts serverID hostname (Procs.numCores s) p cpu base rss)
  | _, _, _ => None
  end.
Definition measured (s : procCPUSampler) (ts : Z) (serverID hostname : string) (procs : list osProcess)
  : list ProcessRow := omap (measured_one s ts serverID hostname) procs.
(** The baselines it leaves: of equal keys the last counts. *)
Definition baseline_one (ts : Z) (m : gmap procKey procSample) (p : osProcess) : gmap procKey procSample :=
  match cpu_seconds p with
  | Some cpu => <[proc_key p := {| cpuSeconds := cpu; sampledAt := ts |}]> m
  | None => m
  end.
Definition baselines (ts : Z) (procs : list osProcess) : gmap procKey procSample :=
  fold_left (baseline_one ts) procs ∅.

Lemma sample_fold (s : procCPUSampler) (ts : Z) (serverID hostname : string) (procs : list osProcess) :
  forall cur rows,
  fold_left (sample_one s ts serverID hostname) procs (cur, rows) =
  (fold_left (baseline_one ts) procs cur, rows ++ measured s ts serverID hostname procs).
Proof.
  induction procs as [|p procs IH]; intros cur rows; simpl; [by rewrite app_nil_r|].
  unfold baseline_one at 2, measured. simpl. unfold measured_one at 1.
  destruct (cpu_seconds p) as [cpu|]; simpl; [|by rewrite IH].
  destruct (prev s !! proc_key p) as [base|]; [|by rewrite IH].
  destruct (o_RSS p) as [rss|]; rewrite IH; [|done]. by rewrite <- app_assoc.
Qed.

Lemma baselines_fold (ts : Z) (procs : list osProcess) : forall m k b,
  fold_left (baseline_one ts) procs m !! k = Some b ->
  m !! k = Some b \/
  sampledAt b = ts /\ exists p, p ∈ procs /\ proc_key p = k /\ cpu_seconds p = Some (cpuSeconds b).
Proof.
  induction procs as [|p procs IH]; intros m k b; simpl; [by left|].
  intros [Hm|(Hs & q & Hq & ?)]%IH; [|right; split; [done|]; exists q; split; [set_solver|done]].
  unfold baseline_one in Hm. destruct (cpu_seconds p) as [cpu|] eqn:Ec; [|by left].
  destruct (decide (proc_key p = k)) as [<-|]; [|left; by rewrite lookup_insert_ne in Hm].
  rewrite lookup_insert_eq in Hm. injection Hm as <-. right. split; [done|]. exists p. split; [set_solver|done].
Qed.
Lemma baselines_mono (ts : Z) (procs : list osProcess) : forall m k,
  is_Some (m !! k) -> is_Some (fold_left (baseline_one ts) procs m !! k).
Proof.
  induction procs as [|p procs IH]; intros m k Hk; simpl; [done|]. apply IH.
  unfold baseline_one. destruct (cpu_seconds p); [|done].
  destruct (decide (proc_key p = k)) as [<-|]; [by rewrite lookup_insert_eq|by rewrite lookup_insert_ne].
Qed.
Lemma baselines_complete (ts : Z) (p : osProcess) (procs : list osProcess) : forall m,
  p ∈ procs -> cpu_seconds p <> None -> is_Some (fold_left (baseline_one ts) procs m !! proc_key p).
Proof.
  induction procs as [|q procs IH]; intros m Hp Hc; [set_solver|]. simpl.
  apply elem_of_cons in Hp as [<-|Hp]; [|by apply IH].
  apply baselines_mono. unfold baseline_one. destruct (cpu_seconds p); [|done]. by rewrite lookup_insert_eq.
Qed.

(** *** The ranking *)

Lemma memory_number (rss : Z) : is_nan (fdiv (f_of_Z rss) mb) = false.
Proof.
  assert (mb = S754_finite false 4503599627370496 (-32)) as -> by (vm_compute; done).
  apply fdiv_number, f_of_Z_number.
Qed.

Definition row_numbers (r : ProcessRow) : Prop := is_nan (p_CPUPct r) = false /\ is_nan (p_MemMB r) = false.

Lemma busier_key (a b : ProcessRow) : row_numbers a -> row_numbers b ->
  (busier a b = true <->
   key3_lt (fkey (p_CPUPct b)) (fkey (p_CPUPct a)) \/
   fkey (p_CPUPct a) = fkey (p_CPUPct b) /\ key3_lt (fkey (p_MemMB b)) (fkey (p_MemMB a))).
Proof.
  intros [Ha Ha'] [Hb Hb']. unfold busier, fgt. pose proof (feq_key _ _ Ha Hb) as He.
  pose proof (flt_key _ _ Hb Ha) as Hc. pose proof (flt_key _ _ Hb' Ha') as Hm.
  unfold flt in *. destruct (feq _ _); simpl.
  - rewrite Hm. split; [intros; right; split; [by apply He|done]|]. intros [Hk|[_ Hk]]; [|done].
    rewrite (proj1 He eq_refl) in Hk. unfold key3_lt in Hk. lia.
  - rewrite Hc. split; [by left|]. intros [|[Hk _]]; [done|]. by apply He in Hk.
Qed.

Lemma busier_weak (l : list ProcessRow) : Forall row_numbers l -> weak_order busier l.
Proof.
  rewrite Forall_forall. intros Hl. unfold weak_order.
  assert (Hf : forall a b, a ∈ l -> b ∈ l -> busier a b = false <->
    ~ (key3_lt (fkey (p_CPUPct b)) (fkey (p_CPUPct a)) \/
       fkey (p_CPUPct a) = fkey (p_CPUPct b) /\ key3_lt (fkey (p_MemMB b)) (fkey (p_MemMB a)))).
  { intros a b Ha Hb. rewrite <- (busier_key a b) by auto. destruct (busier a b); intuition congruence. }
  unfold key3_lt in Hf. split.
  - intros a b Ha Hb Hab. apply (busier_key a b) in Hab; auto. apply Hf; [done..|]. unfold key3_lt in Hab.
    destruct (fkey (p_CPUPct a)) as [[x1 y1] z1], (fkey (p_CPUPct b)) as [[x2 y2] z2].
    intros [?|[E ?]]; destruct Hab as [?|[E' ?]]; simplify_eq/=; lia.
  - intros a b c Ha Hb Hc. rewrite !Hf by done.
    destruct (fkey (p_CPUPct a)) as [[x1 y1] z1], (fkey (p_CPUPct b)) as [[x2 y2] z2],
      (fkey (p_CPUPct c)) as [[x3 y3] z3], (fkey (p_MemMB a)) as [[u1 v1] w1],
      (fkey (p_MemMB b)) as [[u2 v2] w2], (fkey (p_MemMB c)) as [[u3 v3] w3].
    rewrite !pair_equal_spec. simpl. lia.
Qed.

Lemma measured_numbers (s : procCPUSampler) (ts : Z) (serverID hostname : string) (procs : list osProcess) :
  (forall r, r ∈ measured s ts serverID hostname procs -> is_nan (p_CPUPct r) = false) ->
  Forall row_numbers (measured s ts serverID hostname procs).
Proof.
  rewrite Forall_forall. intros Hcpu r Hr. split; [by apply Hcpu|].
  apply list_elem_of_omap in Hr as (p & _ & Hp). unfold measured_one in Hp.
  repeat case_match; simplify_eq/=. apply memory_number.
Qed.

Section ranking.
Context `{SortSlice}.

(** The processes of a poll.  From a readable process table the sampler
    returns at most [n] rows, ranked by load: together with the rows it drops
    they are exactly the rows of the processes that had a baseline of the same
    PID and creation time, each with the share of the machine the process used
    since that baseline, never below 0 nor above 100; as long as no share is
    NaN, no dropped row is busier than a returned one and none is busier than
    one before it.  The new baselines are the readings of this poll and of no
    process that has exited; an unreadable table changes nothing. *)
Lemma processes_are_ranked (s : procCPUSampler) (table : option (list osProcess)) (ts : Z)
    (serverID hostname : string) (n : nat) :
  match table, sample s table ts serverID hostname n with
  | None, (r, s') => r = None /\ s' = s
  | Some procs, (None, _) => False
  | Some procs, (Some rows, s') =>
      let all := measured s ts serverID hostname procs in
      Procs.numCores s' = Procs.numCores s /\
      (forall p, p ∈ procs -> cpu_seconds p <> None -> is_Some (prev s' !! proc_key p)) /\
      (forall k b, prev s' !! k = Some b ->
         sampledAt b = ts /\ exists p, p ∈ procs /\ proc_key p = k /\ cpu_seconds p = Some (cpuSeconds b)) /\
      (forall r, r ∈ rows -> flt (p_CPUPct r) f0 = false /\ fgt (p_CPUPct r) f100 = false) /\
      length rows = Nat.min n (length all) /\
      exists dropped, rows ++ dropped ≡ₚ all /\
        ((forall r, r ∈ all -> is_nan (p_CPUPct r) = false) ->
         StronglySorted (fun a b => busier b a = false) (rows ++ dropped))
  end.
Proof.
  destruct table as [procs|]; [|done]. unfold sample. rewrite sample_fold. simpl.
  set (all := measured s ts serverID hostname procs).
  pose proof (sort_slice_perm busier all) as Hperm.
  set (sorted := sort_slice busier all) in *.
  assert (Htake : (if (n <? length sorted)%nat then take n sorted else sorted) = take n sorted).
  { destruct (Nat.ltb_spec n (length sorted)); [done|]. by rewrite take_ge. }
  rewrite Htake. split_and!; [done| | | | |].
  - intros p Hp Hc. by apply baselines_complete.
  - intros k b [Hb|Hb]%baselines_fold; [by rewrite lookup_empty in Hb|done].
  - intros r (i & Hr & _)%elem_of_take. apply list_elem_of_lookup_2 in Hr. rewrite Hperm in Hr.
    apply list_elem_of_omap in Hr as (p & _ & Hp). unfold measured_one in Hp.
    destruct (cpu_seconds p), (prev s !! proc_key p), (o_RSS p); try done. injection Hp as <-.
    apply processCPUPercent_bounds.
  - rewrite length_take. by rewrite Hperm.
  - exists (drop n sorted). rewrite take_drop. split; [done|]. intros Hnum.
    apply sort_slice_sorted, busier_weak, measured_numbers, Hnum.
Qed.
End ranking.

(** ** Users *)

(** *** Maps of instants *)

(** The latest sighting of a key in a list of them, newest first. *)
Fixpoint last_seen (k : string) (l : list (string * Z)) : option Z :=
  match l with
  | [] => None
  | (k', t) :: l => if decide (k' = k) then Some t else last_seen k l
  end.
(** Who was seen at or after an instant: the specification of the tracker. *)
Definition seen_since (cutoff : Z) (l : list (string * Z)) : gset string :=
  list_to_set (map fst (List.filter (fun s => cutoff <=? s.2) l)).

Definition touch (now : Z) (keys : list string) (m : gmap string Z) : gmap string Z :=
  fold_left (fun m k => <[k := now]> m) keys m.
Definition sight (now : Z) (keys : list string) (l : list (string * Z)) : list (string * Z) :=
  fold_left (fun l k => (k, now) :: l) keys l.

(** The map remembers the last sighting of a key, unless it was before the
    horizon. *)
Definition tracks (horizon : Z) (m : gmap string Z) (l : list (string * Z)) : Prop :=
  (forall k t, m !! k = Some t -> last_seen k l = Some t) /\
  (forall k t, last_seen k l = Some t -> horizon <= t -> m !! k = Some t).
Definition newest_first (now : Z) (l : list (string * Z)) : Prop :=
  Sorted (fun a b => b.2 <= a.2) l /\ Forall (fun s => s.2 <= now) l.

Lemma tracks_touch (h now : Z) (keys : list string) : forall m l,
  tracks h m l -> tracks h (touch now keys m) (sight now keys l).
Proof.
  induction keys as [|k keys IH]; intros m l Ht; [done|]. simpl. apply IH. destruct Ht as [H1 H2].
  split; intros k' t; simpl; destruct (decide (k = k')) as [<-|];
    rewrite ?lookup_insert_eq, ?lookup_insert_ne by done; eauto.
Qed.

Lemma newest_sight (h now : Z) (keys : list string) : forall l,
  h <= now -> newest_first h l -> newest_first now (sight now keys l).
Proof.
  assert (Hone : forall now k l, newest_first now l -> newest_first now ((k, now) :: l)).
  { intros now' k l [Hs Hf]. split; [|by constructor]. constructor; [done|].
    destruct Hf; constructor; done. }
  intros l Hn [Hs Hf].
  assert (Hl : newest_first now l) by (split; [done|]; eapply Forall_impl; [done|]; simpl; lia).
  clear Hs Hf Hn. revert l Hl. induction keys as [|k keys IH]; intros l Hl; [done|]. simpl. by apply IH, Hone.
Qed.

Lemma tracks_expire (h cutoff : Z) (m : gmap string Z) (l : list (string * Z)) :
  h <= cutoff -> tracks h m l -> tracks cutoff (expire cutoff m) l.
Proof.
  intros Hh [H1 H2]. unfold expire. split.
  - intros k t [Hk _]%map_lookup_filter_Some. eauto.
  - intros k t Hl Ht. apply map_lookup_filter_Some. split; [apply H2; [done|lia]|done].
Qed.

Lemma last_seen_newest (now cutoff : Z) (k : string) (l : list (string * Z)) :
  newest_first now l -> (exists t, (k, t) ∈ l /\ cutoff <= t) <-> exists t, last_seen k l = Some t /\ cutoff <= t.
Proof.
  intros [Hs _]. apply Sorted_StronglySorted in Hs; [|intros ???; lia].
  induction Hs as [|[k' t'] l Hs IH Hf]; [set_solver|]. simpl. destruct (decide (k' = k)) as [->|Hne].
  - split; [|intros (t & [= ->] & ?); exists t; set_solver].
    intros (t & Ht & Hc). exists t'. split; [done|]. apply elem_of_cons in Ht as [[= ->]|Ht]; [done|].
    rewrite Forall_forall in Hf. specialize (Hf _ Ht). simpl in Hf. lia.
  - rewrite <- IH. split; intros (t & Ht & ?); exists t; set_solver.
Qed.

Lemma expired_domain (now h cutoff : Z) (m : gmap string Z) (l : list (string * Z)) :
  h <= cutoff -> newest_first now l -> tracks h m l ->
  dom (expire cutoff m) = seen_since cutoff l /\ size (expire cutoff m) = size (seen_since cutoff l).
Proof.
  intros Hh Hn Ht.
  assert (Hd : dom (expire cutoff m) = seen_since cutoff l).
  { destruct Ht as [H1 H2]. apply set_eq. intros k. unfold seen_since.
    rewrite elem_of_dom, elem_of_list_to_set, list_elem_of_fmap. transitivity (exists t, (k, t) ∈ l /\ cutoff <= t).
    - rewrite (last_seen_newest now) by done. unfold expire. split.
      + intros [t [Hm Hc]%map_lookup_filter_Some]. eauto.
      + intros (t & Hl & Hc). exists t. apply map_lookup_filter_Some. split; [apply H2; [done|lia]|done].
    - split.
      + intros (t & Hi & Hc). exists (k, t). split; [done|]. apply list_elem_of_In, filter_In.
        split; [by apply list_elem_of_In|]. simpl. lia.
      + intros ([k' t] & -> & [Hi Hc]%list_elem_of_In%filter_In). exists t. simpl in *. bools.
        split; [by apply list_elem_of_In|done]. }
  split; [done|]. by rewrite <- Hd, size_dom.
Qed.

(** *** Histories of a tracker *)

Section users.
Context `{Unicode} `{Net}.

Inductive tracker_op :=
| TPorts (ports : list Z)
| TExclude (ports : list Z)
| TRecord (userKey : string)
| TUsers (lister : connLister)
| TSockets (lister : connLister).

(** The connections a refresh counts. *)
Definition sighted (t : TCPUserTracker) (lister : connLister) : list ConnectionStat :=
  match (match lister "tcp" with Some conns => Some conns | None => lister "all" end) with
  | Some conns => List.filter (counted (listeningAppPorts conns (appPorts t) (excludePorts t))) conns
  | None => []
  end.

(** A tracker with every user and socket ever sighted, newest first. *)
Record witnessed := { w_tracker : TCPUserTracker; w_users : list (string * Z); w_sockets : list (string * Z) }.

Definition sight_conns (now : Z) (conns : list ConnectionStat) (w : witnessed) (t : TCPUserTracker) : witnessed :=
  {| w_tracker := t; w_users := sight now (map conn_user conns) (w_users w);
     w_sockets := sight now (map conn_socket conns) (w_sockets w) |}.
Definition tracker_step (w : witnessed) (o : Z * tracker_op) : witnessed :=
  let '(now, o) := o in
  let t := w_tracker w in
  match o with
  | TPorts ports => {| w_tracker := SetAppPorts ports t; w_users := w_users w; w_sockets := w_sockets w |}
  | TExclude ports => {| w_tracker := SetExcludePorts ports t; w_users := w_users w; w_sockets := w_sockets w |}
  | TRecord key =>
      {| w_tracker := RecordUser key now t;
         w_users := if is_empty key then w_users w else (key, now) :: w_users w; w_sockets := w_sockets w |}
  | TUsers lister => sight_conns now (sighted t lister) w (GetConcurrentUsers lister now t).2
  | TSockets lister => sight_conns now (sighted t lister) w (GetActiveConnections lister now t).2
  end.
Definition track (d : Z) (ops : list (Z * tracker_op)) : witnessed :=
  fold_left tracker_step ops {| w_tracker := SetWindow d NewTCPUserTracker; w_users := []; w_sockets := [] |}.

Lemma note_all (listening : gset Z) (now : Z) (conns : list ConnectionStat) : forall users socks,
  fold_left (note_one listening now) conns (users, socks) =
  (touch now (map conn_user (List.filter (counted listening) conns)) users,
   touch now (map conn_socket (List.filter (counted listening) conns)) socks).
Proof.
  induction conns as [|c conns IH]; intros users socks; [done|]. simpl. unfold note_one at 2.
  destruct (counted listening c); simpl; apply IH.
Qed.

Lemma refresh_recent (lister : connLister) (now : Z) (t : TCPUserTracker) :
  recentUsers (refresh lister now t).1 =
    expire (now - window t) (touch now (map conn_user (sighted t lister)) (recentUsers t)) /\
  recentConns (refresh lister now t).1 =
    expire (now - window t) (touch now (map conn_socket (sighted t lister)) (recentConns t)) /\
  window (refresh lister now t).1 = window t.
Proof.
  unfold refresh, sighted. destruct (match lister "tcp" with Some _ => _ | None => _ end) as [conns|]; [|done].
  by rewrite note_all.
Qed.

Definition tracker_inv (d now : Z) (w : witnessed) : Prop :=
  window (w_tracker w) = d /\
  newest_first now (w_users w) /\ tracks (now - d) (recentUsers (w_tracker w)) (w_users w) /\
  newest_first now (w_sockets w) /\ tracks (now - d) (recentConns (w_tracker w)) (w_sockets w).

Lemma tracks_later (h h' : Z) (m : gmap string Z) (l : list (string * Z)) : h <= h' -> tracks h m l -> tracks h' m l.
Proof. intros Hh [H1 H2]. split; [done|]. intros k t Hl Ht. apply H2; [done|lia]. Qed.
Lemma newest_later (now now' : Z) (l : list (string * Z)) : now <= now' -> newest_first now l -> newest_first now' l.
Proof. apply (newest_sight now now' []). Qed.
Lemma tracker_later (d now now' : Z) (w : witnessed) : now <= now' -> tracker_inv d now w -> tracker_inv d now' w.
Proof.
  intros Hn (Hw & Hu & Hu' & Hs & Hs'). split_and!; [done|..];
    (by eapply newest_later) || (eapply tracks_later; [|done]; lia).
Qed.

Lemma refresh_inv (d now : Z) (lister : connLister) (w : witnessed) :
  tracker_inv d now w ->
  tracker_inv d now (sight_conns now (sighted (w_tracker w) lister) w (refresh lister now (w_tracker w)).1).
Proof.
  intros (Hw & Hu & Hu' & Hs & Hs'). destruct (refresh_recent lister now (w_tracker w)) as (Er & Ec & Ew).
  unfold tracker_inv, sight_conns. simpl. rewrite Er, Ec, Ew, Hw.
  split_and!; [done|..]; (by apply (newest_sight now)) || (by apply (tracks_expire (now - d)); [done|apply tracks_touch]).
Qed.

Lemma tracker_step_inv (d now now' : Z) (w : witnessed) (o : tracker_op) :
  now <= now' -> tracker_inv d now w -> tracker_inv d now' (tracker_step w (now', o)).
Proof.
  intros Hn Hi. apply (tracker_later _ _ _ _ Hn) in Hi. destruct o as [ps|ps|key|l|l]; simpl; [done|done| |..];
    [|by apply refresh_inv..].
  unfold RecordUser. destruct (is_empty key); [by destruct w|]. destruct Hi as (Hw & Hu & Hu' & Hs & Hs').
  split_and!; [done| | |done|done]; simpl.
  - by apply (newest_sight now' now' [key]).
  - by apply (tracks_touch _ now' [key]).
Qed.

Lemma track_inv (d : Z) (ops : list (Z * tracker_op)) : forall now now' w,
  StronglySorted Z.le (now :: map fst ops ++ [now']) -> tracker_inv d now w ->
  tracker_inv d now' (fold_left tracker_step ops w).
Proof.
  induction ops as [|[t o] ops IH]; intros now now' w Hs Hi; simpl in *;
    inversion Hs as [|? ? Hs' Hf]; subst; rewrite Forall_cons in Hf; destruct Hf as [Hle Hf].
  - by apply (tracker_later d now).
  - apply (IH t); [done|]. by apply (tracker_step_inv d now).
Qed.

Lemma track_start (d now : Z) : 0 < d ->
  tracker_inv d now {| w_tracker := SetWindow d NewTCPUserTracker; w_users := []; w_sockets := [] |}.
Proof.
  intros Hd. unfold tracker_inv, SetWindow. simpl. destruct (Z.leb_spec d 0); [lia|]. simpl.
  split_and!; [done|split; constructor|split; done|split; constructor|split; done].
Qed.

(** The tracker implements "the users seen in the last [d]".  After any
    history of port settings, recorded users and counts on a clock that does
    not go back, the figures of [GetConcurrentUsers] and
    [GetActiveConnections] are the numbers of distinct clients and of
    distinct sockets among those sighted, by a recorded user or a counted
    connection, within the window that ends now: nobody is counted twice,
    dropped early or kept late. *)
Lemma users_in_window (d now : Z) (ops : list (Z * tracker_op)) (lister : connLister) :
  0 < d -> StronglySorted Z.le (map fst ops ++ [now]) ->
  let before := track d ops in
  let after := track d (ops ++ [(now, TUsers lister)]) in
  (GetConcurrentUsers lister now (w_tracker before)).1 = Z.of_nat (size (seen_since (now - d) (w_users after))) /\
  (GetActiveConnections lister now (w_tracker before)).1 = Z.of_nat (size (seen_since (now - d) (w_sockets after))) /\
  dom (recentUsers (w_tracker after)) = seen_since (now - d) (w_users after) /\
  dom (recentConns (w_tracker after)) = seen_since (now - d) (w_sockets after).
Proof.
  intros Hd Hs before after.
  assert (Hi : tracker_inv d now before).
  { unfold before, track. apply (track_inv d ops (match map fst ops ++ [now] with t :: _ => t | [] => now end));
      [|by apply track_start].
    destruct (map fst ops) as [|t ts] eqn:E; simpl in *; inversion Hs as [|? ? Hs' Hf]; subst;
      constructor; try done; constructor; try done; lia. }
  unfold after, track. rewrite fold_left_app. fold (track d ops) before. simpl.
  unfold GetConcurrentUsers, GetActiveConnections. simpl.
  destruct Hi as (Hw & Hu & Hu' & Hc & Hc'). destruct (refresh_recent lister now (w_tracker before)) as (-> & -> & _).
  rewrite Hw.
  destruct (expired_domain now (now - d) (now - d)
    (touch now (map conn_user (sighted (w_tracker before) lister)) (recentUsers (w_tracker before)))
    (sight now (map conn_user (sighted (w_tracker before) lister)) (w_users before))) as [Eu Su];
    [done|by apply (newest_sight now)|by apply tracks_touch|].
  destruct (expired_domain now (now - d) (now - d)
    (touch now (map conn_socket (sighted (w_tracker before) lister)) (recentConns (w_tracker before)))
    (sight now (map conn_socket (sighted (w_tracker before) lister)) (w_sockets before))) as [Ec Sc];
    [done|by apply (newest_sight now)|by apply tracks_touch|].
  split_and!; [by rewrite Su|by rewrite Sc|done|done].
Qed.
End users.

(** ** Polls *)

(** The stored form of a row: whole seconds, an id, a tenant, and the
    backend's representation of counters. *)
Definition as_metric (m m' : MetricRow) : Prop :=
  exists id conv, m' = set_metric id (normalizeInsertTenant (m_TenantID m)) (m_ServerID m)
                         (of_unix (Unix (m_Timestamp m))) conv m.
Definition as_process (p p' : ProcessRow) : Prop :=
  exists id, p' = set_process id (normalizeInsertTenant (p_TenantID p)) (p_ServerID p)
                    (of_unix (Unix (p_Timestamp p))) p.

(** What a store promises to the collector: an insert appends one row, or
    fails; a failed insert may have appended it. *)
Class LawfulSink (S : Type) `{!Sink S} := {
  stored_metrics : S -> list MetricRow;
  stored_processes : S -> list ProcessRow;
  sink_metric_law : forall m s, wp (sink_InsertMetric m) (fun r s' =>
    stored_processes s' = stored_processes s /\
    ((exists m', as_metric m m' /\ stored_metrics s' = stored_metrics s ++ [m']) \/
     is_ok r = false /\ stored_metrics s' = stored_metrics s)) s;
  sink_process_law : forall p s, wp (sink_InsertProcess p) (fun r s' =>
    stored_metrics s' = stored_metrics s /\
    ((exists p', as_process p p' /\ stored_processes s' = stored_processes s ++ [p']) \/
     is_ok r = false /\ stored_processes s' = stored_processes s)) s
}.

#[export] Instance sqlite_lawful : LawfulSink rows_db.
Proof.
  refine {| stored_metrics := d_metrics; stored_processes := d_processes |}.
  - intros m d. apply wp_statement; [naive_solver|]. intros [] d'. case_match; [done|].
    intros [= <-]. simpl. unfold as_metric. split; [|intros e]; (split; [done|]); left; eauto 10.
  - intros p d. unfold sink_InsertProcess, sqlite_sink, SQLite.InsertProcess, as_process.
    apply wp_exec; simpl; naive_solver.
Defined.

Definition postgres_lawful : @LawfulSink rows_db postgres_sink.
Proof.
  refine {| stored_metrics := d_metrics; stored_processes := d_processes |}.
  - intros m d. unfold sink_InsertMetric, postgres_sink, Postgres.InsertMetric, as_metric.
    apply wp_exec; simpl; naive_solver.
  - intros p d. unfold sink_InsertProcess, postgres_sink, Postgres.InsertProcess, as_process.
    apply wp_exec; simpl; naive_solver.
Defined.

Section polls.
Context `{Unicode} `{Net} `{SortSlice} `{MapRange} {S : Type} `{Hsink : !Sink S} `{!LawfulSink S}.

Lemma wp_insert_processes (rows : list ProcessRow) : forall s,
  wp (insert_processes rows) (fun r s' =>
    r = Ok tt /\ stored_metrics s' = stored_metrics s /\
    exists new, stored_processes s' = stored_processes s ++ new /\ (length new <= length rows)%nat /\
      Forall (fun p' => exists p, p ∈ rows /\ as_process p p') new) s.
Proof.
  induction rows as [|p rows IH]; intros s; simpl.
  { apply wp_ret. split_and!; [done..|]. exists []. by rewrite app_nil_r. }
  apply wp_try. eapply wp_mono; [apply sink_process_law|]. intros r s1 [Hm Hp].
  eapply wp_mono; [apply IH|]. simpl. intros r' s2 (-> & Hm' & new & Hn & Hl & Hf).
  split_and!; [done|congruence|]. destruct Hp as [(p' & Hp' & Hs)|[_ Hs]].
  - exists (p' :: new). rewrite Hn, Hs, <- app_assoc. split_and!; [done|simpl; lia|].
    constructor; [exists p; split; [set_solver|done]|].
    eapply Forall_impl; [done|]. intros q (q' & ? & ?). exists q'. set_solver.
  - exists new. rewrite Hn, Hs. split_and!; [done|lia|].
    eapply Forall_impl; [done|]. intros q (q' & ? & ?). exists q'. set_solver.
Qed.

(** What the collector remembers of a poll, whatever becomes of its rows. *)
Definition remembers (now : Z) (t : totals) (c : Collector) : Prop :=
  prevTime c = now /\ prevReadOps c = readOps t /\ prevWriteOps c = writeOps t /\
  prevNetSent c = netSent t /\ prevNetRecv c = netRecv t.

(** The snapshot of a poll, as [InsertMetric] is given it. *)
Definition snapshot (h : host S) (r : readings) : MetricRow :=
  let t := (totals_of (h_col S h) r (h_iface S h)).1 in
  let '(iops, mbps) := rates (h_col S h) (rd_now r) t in
  metric_of (h_col S h) r t iops mbps (count_users r (userTracker (h_col S h))).1.

Lemma sample_rows (sm : procCPUSampler) (table : option (list osProcess)) (ts : Z) (sid hn : string) (n : nat)
    (rows : list ProcessRow) (sm' : procCPUSampler) :
  sample sm table ts sid hn n = (Some rows, sm') ->
  (length rows <= n)%nat /\
  Forall (fun p => p_ServerID p = sid /\ p_TenantID p = empty_str /\ p_Timestamp p = ts) rows.
Proof.
  destruct table as [procs|]; [|done]. unfold sample. rewrite sample_fold. simpl.
  set (sorted := sort_slice busier _). intros [= <- _].
  assert (Hf : Forall (fun p => p_ServerID p = sid /\ p_TenantID p = empty_str /\ p_Timestamp p = ts) sorted).
  { unfold sorted. rewrite sort_slice_perm. apply Forall_forall. intros r (p & _ & Hp)%list_elem_of_omap.
    unfold measured_one in Hp. destruct (cpu_seconds p), (prev sm !! proc_key p), (o_RSS p); try done.
    by injection Hp as <-. }
  destruct (Nat.ltb_spec n (length sorted)); [|split; [lia|done]].
  split; [rewrite length_take; lia|by apply Forall_take].
Qed.

Definition poll_post (h : host S) (r : readings) (res : result error unit) (h' : host S) : Prop :=
  remembers (rd_now r) (totals_of (h_col S h) r (h_iface S h)).1 (h_col S h') /\
  exists new ps, stored_metrics (h_store S h') = stored_metrics (h_store S h) ++ new /\
    stored_processes (h_store S h') = stored_processes (h_store S h) ++ ps /\
    (new = [] \/ exists m, new = [m] /\ as_metric (snapshot h r) m) /\
    (is_ok res = true -> new <> []) /\ (is_ok res = false -> ps = []) /\
    (length ps <= topProcessCount)%nat /\
    Forall (fun p => p_ServerID p = serverID (h_col S h) /\ p_TenantID p = LocalTenantID /\
                     p_Timestamp p = of_unix (Unix (rd_now r))) ps.

Lemma wp_collect (r : readings) (h : host S) : wp (collect r) (poll_post h r) h.
Proof.
  unfold collect. apply wp_inspect. unfold poll_post, snapshot.
  destruct (totals_of (h_col S h) r (h_iface S h)) as [t cache]. simpl.
  destruct (rates (h_col S h) (rd_now r) t) as [iops mbps].
  destruct (count_users r (userTracker (h_col S h))) as [users tracker]. simpl.
  apply wp_mbind, wp_modify, wp_mbind. unfold to_store at 1. apply wp_zoom.
  eapply wp_mono; [apply sink_metric_law|]. simpl. intros [[]|e] s1 [Hp Hm]; simpl.
  - destruct Hm as [(m & Hm & Hs)|[? _]]; [|done].
    destruct (sample _ _ _ _ _ _) as [[rows|] sm'] eqn:Es; apply wp_mbind, wp_modify.
    + apply sample_rows in Es as [Hl Hf]. unfold to_store. apply wp_zoom.
      eapply wp_mono; [apply wp_insert_processes|]. simpl. intros res s2 (-> & Hm2 & ps & Hps & Hlen & Hall).
      split; [done|]. exists [m], ps. rewrite Hm2, Hs, Hps, Hp. split_and!; [done..|eauto|done|done|lia|].
      eapply Forall_impl; [done|]. intros p' (p & Hin & id & ->). rewrite Forall_forall in Hf.
      destruct (Hf p Hin) as (Hsid & Hten & Hts). simpl. by rewrite Hsid, Hten, Hts.
    + apply wp_ret. simpl. split; [done|]. exists [m], []. rewrite Hs, Hp, !app_nil_r.
      split_and!; [done..|eauto|done|done|simpl; lia|constructor].
  - split; [done|]. destruct Hm as [(m & Hm & Hs)|[_ Hs]].
    + exists [m], []. rewrite Hs, Hp, !app_nil_r. split_and!; [done..|eauto|done|done|simpl; lia|constructor].
    + exists [], []. rewrite Hs, Hp, !app_nil_r. split_and!; [done..|by left|done|done|simpl; lia|constructor].
Qed.

(** The rate a snapshot reports for a pair of counters. *)
Definition rate_of (scale : float64 -> float64) (elapsed a a' b b' : Z) : float64 :=
  if fgt (Seconds elapsed) f0 && (a' <=? a) && (b' <=? b)
  then fdiv (f_of_Z (add64 (a - a') (b - b'))) (scale (Seconds elapsed)) else f0.

Definition counts (t : totals) : list Z := [readOps t; writeOps t; netSent t; netRecv t].

Lemma rates_of (c : Collector) (t0 t : totals) (now0 now : Z) :
  remembers now0 t0 c -> IsZero now0 = false ->
  Forall in_u64 (counts t0) -> Forall in_u64 (counts t) ->
  rates c now t =
    (rate_of (fun e => e) (Sub now now0) (readOps t) (readOps t0) (writeOps t) (writeOps t0),
     rate_of per_mb (Sub now now0) (netSent t) (netSent t0) (netRecv t) (netRecv t0)).
Proof.
  intros (Ht & Hr & Hw & Hs & Hv) Hz. unfold counts. rewrite !Forall_cons. unfold in_u64, max_uint64. intros Hu0 Hu.
  unfold rates, rate_of. rewrite Ht, Hz. destruct (fgt _ _); [|done]. simpl. rewrite Hr, Hw, Hs, Hv.
  assert (Hrate : forall scale e a a' b b', 0 <= a' <= 2 ^ 64 - 1 -> 0 <= a <= 2 ^ 64 - 1 -> 0 <= b' <= 2 ^ 64 - 1 ->
    0 <= b <= 2 ^ 64 - 1 ->
    rate scale e a a' b b' = if (a' <=? a) && (b' <=? b) then fdiv (f_of_Z (add64 (a - a') (b - b'))) (scale e) else f0).
  { intros scale e a a' b b' ????. unfold rate, counterDelta.
    destruct (Z.ltb_spec a a'), (Z.ltb_spec b b'), (Z.leb_spec a' a), (Z.leb_spec b' b); try lia; try done.
    simpl. unfold wrap_u64. rewrite !(Z.mod_small (_ - _)) by lia. done. }
  f_equal; apply Hrate; lia.
Qed.

Lemma add64_u64 (a b : Z) : in_u64 (add64 a b).
Proof. unfold add64, wrap_u64, in_u64, max_uint64. pose proof (Z.mod_pos_bound (a + b) (2 ^ 64)). lia. Qed.

Lemma totals_u64 (c : Collector) (r : readings) (cache : ifaceCache) : Forall in_u64 (counts (totals_of c r cache).1).
Proof.
  assert (Hz : in_u64 0) by (unfold in_u64, max_uint64; lia).
  assert (Hd : in_u64 (disk_ops r).1 /\ in_u64 (disk_ops r).2).
  { unfold disk_ops. destruct (rd_disks r) as [disks|]; [|done].
    generalize (map snd (range disks)) as l. intros l.
    assert (Hi : forall l acc, in_u64 acc.1 /\ in_u64 acc.2 ->
      let acc' := fold_left (fun '(rd, wr) d => (add64 rd (dc_ReadCount d), add64 wr (dc_WriteCount d))) l acc in
      in_u64 acc'.1 /\ in_u64 acc'.2).
    { clear -Hz. intros l. induction l as [|d l IH]; intros [x y] Hacc; [done|]. apply IH. split; apply add64_u64. }
    by apply Hi. }
  assert (Hn : in_u64 (net_traffic c r cache).1.1.1.1 /\ in_u64 (net_traffic c r cache).1.1.1.2).
  { unfold net_traffic. destruct (nv_IOCounters (rd_net r)) as [nics|]; [|done].
    destruct (if is_empty (externalIface c) then _ else _) as [external cache']. simpl.
    assert (Hi : forall l acc, in_u64 acc.1.1.1 /\ in_u64 acc.1.1.2 ->
      let acc' := fold_left (split_nic external) l acc in in_u64 acc'.1.1.1 /\ in_u64 acc'.1.1.2).
    { clear -Hz. intros l. induction l as [|i l IH]; intros [[[x y] [? ?]] [? ?]] Hacc; [done|]. apply IH. simpl.
      case_match; split; apply add64_u64. }
    by apply Hi. }
  unfold totals_of. destruct (disk_ops r) as [rd wr]. destruct (net_traffic c r cache) as [[[[sent recv] [? ?]] [? ?]] cache'].
  simpl in *. unfold counts. simpl. rewrite !Forall_cons. by destruct Hd, Hn.
Qed.

(** *** The counters of the devices *)

(** The counters of all devices added up as integers; [None] when the poll
    cannot read them. *)
Definition zsum2 (l : list (Z * Z)) : Z * Z := foldr (fun p acc => (p.1 + acc.1, p.2 + acc.2)) (0, 0) l.
Definition disk_counters (r : readings) : option (list (Z * Z)) :=
  option_map (fun disks => map (fun kd => (dc_ReadCount kd.2, dc_WriteCount kd.2)) (map_to_list disks)) (rd_disks r).
Definition nic_counters (r : readings) : option (list (Z * Z)) :=
  option_map (map (fun i => (ic_BytesSent i, ic_BytesRecv i))) (nv_IOCounters (rd_net r)).
(** They are counters, and the sum of all of them is a [uint64]. *)
Definition summable (l : list (Z * Z)) : Prop :=
  Forall (fun p => 0 <= p.1 /\ 0 <= p.2) l /\ (zsum2 l).1 + (zsum2 l).2 < 2 ^ 64.

Definition add_pair (acc p : Z * Z) : Z * Z := (add64 acc.1 p.1, add64 acc.2 p.2).
Lemma zsum2_nonneg (l : list (Z * Z)) :
  Forall (fun p => 0 <= p.1 /\ 0 <= p.2) l -> 0 <= (zsum2 l).1 /\ 0 <= (zsum2 l).2.
Proof. induction 1 as [|[x y] l [Hx Hy] _ IH]; simpl in *; lia. Qed.
Lemma zsum2_perm (l l' : list (Z * Z)) : l ≡ₚ l' -> zsum2 l = zsum2 l'.
Proof. induction 1; simpl; try congruence; f_equal; lia. Qed.
Lemma add_pairs_sum (l : list (Z * Z)) : forall acc,
  Forall (fun p => 0 <= p.1 /\ 0 <= p.2) l -> 0 <= acc.1 -> 0 <= acc.2 ->
  acc.1 + (zsum2 l).1 < 2 ^ 64 -> acc.2 + (zsum2 l).2 < 2 ^ 64 ->
  fold_left add_pair l acc = (acc.1 + (zsum2 l).1, acc.2 + (zsum2 l).2).
Proof.
  induction l as [|[x y] l IH]; intros [u v] Hl Hu Hv Hx Hy; simpl in *; [by rewrite !Z.add_0_r|].
  apply Forall_cons in Hl as [[Hx0 Hy0] Hl]. pose proof (zsum2_nonneg l Hl) as [??]. simpl in *.
  unfold add_pair, add64, wrap_u64. simpl. rewrite !Z.mod_small by lia. rewrite IH by (done || simpl; lia).
  simpl. f_equal; lia.
Qed.
Lemma summed (l : list (Z * Z)) : summable l -> fold_left add_pair l (0, 0) = zsum2 l.
Proof.
  intros [Hl Hs]. pose proof (zsum2_nonneg l Hl) as [??].
  rewrite add_pairs_sum by (done || simpl; lia). by destruct (zsum2 l).
Qed.
Lemma fold_pairs {A B} (g : B -> Z * Z) (f : A -> B -> A) (h : A -> Z * Z) (l : list B) :
  (forall a b, h (f a b) = add_pair (h a) (g b)) ->
  forall a, h (fold_left f l a) = fold_left add_pair (map g l) (h a).
Proof. intros Hf. induction l as [|b l IH]; intros a; [done|]. simpl. by rewrite IH, Hf. Qed.

(** The order in which the map is ranged over does not matter. *)
Lemma disk_totals (c : Collector) (r : readings) (cache : ifaceCache) (l : list (Z * Z)) :
  disk_counters r = Some l -> summable l ->
  let t := (totals_of c r cache).1 in (readOps t, writeOps t) = zsum2 l.
Proof.
  unfold disk_counters, totals_of, disk_ops. destruct (rd_disks r) as [disks|]; [|done]. intros [= El] Hs.
  destruct (net_traffic c r cache) as [[[[sent recv] [? ?]] [? ?]] cache'].
  destruct (fold_left _ (map snd (range disks)) (0, 0)) as [rd wr] eqn:E. cbn [fst readOps writeOps]. rewrite <- E.
  change (fold_left _ ?l ?a) with (id (fold_left (fun '(rd, wr) d => (add64 rd (dc_ReadCount d), add64 wr (dc_WriteCount d))) l a)).
  rewrite (fold_pairs (fun d => (dc_ReadCount d, dc_WriteCount d)) _ id) by (by intros [] d). unfold id.
  assert (Hp : map (fun d => (dc_ReadCount d, dc_WriteCount d)) (map snd (range disks)) ≡ₚ l).
  { rewrite <- El, map_map. by rewrite (range_perm disks). }
  rewrite summed, (zsum2_perm _ _ Hp); [done|]. destruct Hs as [Hl Hs]. split; [by rewrite Hp|by rewrite (zsum2_perm _ _ Hp)].
Qed.
Lemma nic_totals (c : Collector) (r : readings) (cache : ifaceCache) (l : list (Z * Z)) :
  nic_counters r = Some l -> summable l ->
  let t := (totals_of c r cache).1 in (netSent t, netRecv t) = zsum2 l.
Proof.
  unfold nic_counters, totals_of, net_traffic. destruct (nv_IOCounters (rd_net r)) as [nics|]; [|done]. intros [= El] Hs.
  destruct (disk_ops r) as [rd wr]. destruct (if is_empty (externalIface c) then _ else _) as [external cache'].
  pose proof (fold_pairs (fun i => (ic_BytesSent i, ic_BytesRecv i)) (split_nic external) (fun a => a.1.1) nics) as Hf.
  rewrite El in Hf. specialize (Hf ltac:(intros [[[x y] [? ?]] [? ?]] i; unfold split_nic; by case_match)
    (0, 0, (0, 0), (0, 0))).
  destruct (fold_left (split_nic external) nics _) as [[[sent recv] [? ?]] [? ?]]. cbn [fst] in *. simpl. rewrite Hf.
  by apply summed.
Qed.

(** The rate over [elapsed] of two counters that were [before] and are
    [after]: their increases together, 0 when one of them went back. *)
Definition increase_rate (scale : float64 -> float64) (elapsed : Z) (before after : Z * Z) : float64 :=
  if fgt (Seconds elapsed) f0 && (before.1 <=? after.1) && (before.2 <=? after.2)
  then fdiv (f_of_Z ((after.1 - before.1) + (after.2 - before.2))) (scale (Seconds elapsed)) else f0.
Lemma rate_of_increases scale elapsed (l l' : list (Z * Z)) (a b a' b' : Z) :
  summable l -> summable l' -> (a, b) = zsum2 l' -> (a', b') = zsum2 l ->
  rate_of scale elapsed a a' b b' = increase_rate scale elapsed (zsum2 l) (zsum2 l').
Proof.
  intros [Hl Hs] [Hl' Hs'] E' E. apply zsum2_nonneg in Hl, Hl'. rewrite <- E, <- E' in *. simpl in *.
  unfold rate_of, increase_rate, add64, wrap_u64. simpl. destruct (fgt _ _); [|done]. simpl.
  destruct (Z.leb_spec a' a), (Z.leb_spec b' b); [|done..]. by rewrite Z.mod_small by lia.
Qed.

(** C39. What a poll writes.  Whatever became of the poll before it, a poll
    appends at most one metric row and, only once that row is accepted, at
    most twenty process rows, all of the local tenant, the configured server
    and the time of the poll; success means the metric row is in the store.
    When both polls could read the disk counters, the disk rate of the row is
    the increase of these counters, summed over the disks, over the time
    since the poll before, and 0 when the time did not advance or one of the
    two sums went back: after a reset the whole count is not reported as an
    increase.  The same holds of the network rate and the network counters.
    The sums have to fit a [uint64], in which the code adds them; they are of
    the devices each poll lists, so one that only the second poll lists counts
    whole, and a reset that the other devices outweigh only lowers the
    increase.

    Nothing is claimed of a rate whose counters one of the two polls could
    not read: the code remembers unreadable counters as 0, so a rate after
    such a poll counts from boot ([unreadable_counters_spike]), while the
    poll that cannot read them reports 0 ([unreadable_poll_reports_none]). *)
Theorem polls_report_increases (h : host S) (fs : faults) (r1 r2 : readings) :
  IsZero (rd_now r1) = false ->
  let h1 := run_state (collect r1) h fs in
  let elapsed := Sub (rd_now r2) (rd_now r1) in
  wp (collect r2) (fun res h2 =>
    exists new ps, stored_metrics (h_store S h2) = stored_metrics (h_store S h1) ++ new /\
      stored_processes (h_store S h2) = stored_processes (h_store S h1) ++ ps /\
      (length new <= 1)%nat /\ (length ps <= 20)%nat /\
      (is_ok res = true -> length new = 1%nat) /\ (is_ok res = false -> ps = []) /\
      Forall (fun m =>
        m_TenantID m = LocalTenantID /\ m_ServerID m = serverID (h_col S h1) /\
        m_Timestamp m = of_unix (Unix (rd_now r2)) /\
        (forall before after, disk_counters r1 = Some before -> disk_counters r2 = Some after ->
           summable before -> summable after ->
           m_DiskIOPS m = increase_rate (fun e => e) elapsed (zsum2 before) (zsum2 after)) /\
        (forall before after, nic_counters r1 = Some before -> nic_counters r2 = Some after ->
           summable before -> summable after ->
           m_NetMBps m = increase_rate per_mb elapsed (zsum2 before) (zsum2 after))) new /\
      Forall (fun p => p_TenantID p = LocalTenantID /\ p_ServerID p = serverID (h_col S h1) /\
                       p_Timestamp p = of_unix (Unix (rd_now r2))) ps) h1.
Proof.
  intros Hz h1 elapsed. set (t1 := (totals_of (h_col S h) r1 (h_iface S h)).1).
  set (t2 := (totals_of (h_col S h1) r2 (h_iface S h1)).1).
  assert (Hr : remembers (rd_now r1) t1 (h_col S h1)).
  { apply (wp_run_state (collect r1) (fun h' => remembers (rd_now r1) t1 (h_col S h'))).
    eapply wp_mono; [apply wp_collect|]. by intros res h' [Hr _]. }
  eapply wp_mono; [apply wp_collect|]. intros res h2 [_ (new & ps & Hm & Hp & Hnew & Hok & Herr & Hlen & Hf)].
  exists new, ps. split_and!; [done|done| |done| |done| |].
  - destruct Hnew as [->|(m & -> & _)]; simpl; lia.
  - intros Ho. destruct Hnew as [->|(m & -> & _)]; [by destruct (Hok Ho)|done].
  - destruct Hnew as [->|(m & -> & Has)]; [constructor|]. constructor; [|constructor].
    destruct Has as (id & conv & ->). unfold snapshot. fold t2.
    rewrite (rates_of (h_col S h1) t1 t2 (rd_now r1)) by (done || apply totals_u64).
    split_and!; [done..| |]; intros before after Hb Ha Hs1 Hs2; cbn [m_DiskIOPS m_NetMBps];
      apply rate_of_increases; try done; (by apply disk_totals) || (by apply nic_totals).
  - eapply Forall_impl; [done|]. simpl. tauto.
Qed.
End polls.

(** ** Concrete inputs *)

Module SampleHost.
#[export] Instance unicode : Unicode :=
  {| uc_upper := fun s => s; uc_lower := fun s => s; uc_equal_fold := String.eqb |}.
#[export] Instance net : Net :=
  {| IP := string; net_ParseIP := fun s => if is_empty s then None else Some s; ip_equal := String.eqb;
     ip_IsLoopback := fun s => HasPrefix s "127."; ip_IsUnspecified := fun s => String.eqb s "0.0.0.0";
     net_ParseCIDR := fun _ => None; net_SplitHostPort := fun _ => None |}.
#[export] Instance sort : SortSlice := insertion_slice.
#[export] Instance order : MapRange := canonical_range.

Definition conn (status : string) (port : Z) (ip : string) (rport : Z) : ConnectionStat :=
  {| c_Status := status; c_LPort := port; c_RIP := ip; c_RPort := rport |}.
Definition listing : connLister := fun _ =>
  Some [conn "LISTEN" 8443 "0.0.0.0" 0; conn "listen" 22 "0.0.0.0" 0; conn "ESTABLISHED" 8443 "10.0.0.7" 50000;
        conn "ESTABLISHED" 8443 "10.0.0.7" 50001; conn "CLOSE_WAIT" 8443 "10.0.0.8" 50002;
        conn "ESTABLISHED" 22 "10.0.0.9" 50003].

Definition start : Z := 1000000 * second.
Definition history : list (Z * tracker_op) :=
  [(start, TRecord "alice"); (start + 30 * second, TUsers listing); (start + 50 * second, TRecord "bob")].

Definition proc (p : Z) (user : Z) : osProcess :=
  {| o_Pid := p; o_Times := Some (f_of_Z user, f0); o_CreateTime := Some 5; o_RSS := Some (p * 1024 * 1024); o_Name := "p" |}.

(** A poll at [now] whose disk counters are [disks] and whose one NIC has
    sent and received [bytes]. *)
Definition poll (now : Z) (disks : option (Z * Z)) (nic : Z) (procs : list osProcess) : readings :=
  {| rd_now := now; rd_cpu := [f_of_Z 12]; rd_mem := Some (f_of_Z 50, 2 ^ 34); rd_usage := fun _ => (None, true);
     rd_disks := match disks with
                 | Some (rd, wr) => Some {[ "sda" := {| dc_ReadCount := rd; dc_WriteCount := wr |} ]}
                 | None => None
                 end;
     rd_net := {| nv_dial := fun _ => None; nv_Interfaces := Some []; 
                  nv_IOCounters := Some [{| ic_Name := "eth0"; ic_BytesSent := nic; ic_BytesRecv := nic |}];
                  nv_Recounted := None |};
     rd_detected := now; rd_conns := listing; rd_users := now; rd_procs := Some procs |}.
Definition fresh : host rows_db :=
  {| h_col := Collect.New (Some "web-1"%string) (Some 4); h_iface := no_iface; h_store := empty_rows |}.
End SampleHost.
Import SampleHost.

Lemma users_in_window_witness :
  let before := track (60 * second) SampleHost.history in
  let now := SampleHost.start + 70 * second in
  (GetConcurrentUsers SampleHost.listing now (w_tracker before)).1 = 2 /\
  Z.of_nat (size (seen_since (now - 60 * second)
    (w_users (track (60 * second) (SampleHost.history ++ [(now, TUsers SampleHost.listing)]))))) = 2.
Proof.
  intros before now.
  assert (E : (GetConcurrentUsers SampleHost.listing now (w_tracker before)).1 = 2) by (vm_compute; done).
  split; [exact E|].
  destruct (users_in_window (60 * second) now SampleHost.history SampleHost.listing) as [Hu _].
  - reflexivity.
  - repeat constructor; vm_compute; discriminate.
  - unfold before in E. rewrite Hu in E. exact E.
Defined.

(** Two polls ten seconds apart: 500 reads at 50 per second. *)
Lemma polls_report_increases_witness :
  let h1 := run_state (collect (SampleHost.poll SampleHost.start (Some (100, 0)) 1000 [SampleHost.proc 7 10])) SampleHost.fresh [] in
  let '(res, h2, _) := collect (SampleHost.poll (SampleHost.start + 10 * second) (Some (600, 0)) 500 [SampleHost.proc 7 20]) h1 [] in
  res = Ok tt /\
  exists m, d_metrics (h_store rows_db h2) = d_metrics (h_store rows_db h1) ++ [m] /\
            m_DiskIOPS m = f_of_Z 50 /\ m_NetMBps m = f0.
Proof.
  intros h1.
  pose proof (polls_report_increases SampleHost.fresh []
    (SampleHost.poll SampleHost.start (Some (100, 0)) 1000 [SampleHost.proc 7 10])
    (SampleHost.poll (SampleHost.start + 10 * second) (Some (600, 0)) 500 [SampleHost.proc 7 20]) eq_refl []) as Hp.
  fold h1 in Hp. cbv zeta in Hp.
  destruct (collect _ h1 []) as [[res h2] fs'] eqn:E.
  assert (res = Ok tt) as -> by (vm_compute in E; congruence).
  split; [reflexivity|]. destruct Hp as (new & ps & Hm & _ & _ & _ & Hok & _ & Hf & _).
  specialize (Hok eq_refl). destruct new as [|m [|]]; try discriminate Hok.
  exists m. split; [exact Hm|]. inversion Hf as [|? ? (_ & _ & _ & Hi & Hn) _]; subst.
  specialize (Hi [(100, 0)] [(600, 0)] eq_refl eq_refl). specialize (Hn [(1000, 1000)] [(500, 500)] eq_refl eq_refl).
  rewrite Hi, Hn by (split; [repeat constructor; simpl; lia|reflexivity]). vm_compute. split; reflexivity.
Defined.

(** When the counters of one poll cannot be read they are remembered as 0,
    so the next poll reports the whole count since boot as one interval. *)
Lemma unreadable_counters_spike :
  let h1 := run_state (collect (SampleHost.poll SampleHost.start None 0 [])) SampleHost.fresh [] in
  let h2 := run_state (collect (SampleHost.poll (SampleHost.start + 10 * second) (Some (9000000000, 0)) 0 [])) h1 [] in
  map m_DiskIOPS (d_metrics (h_store rows_db h2)) = [f0; f_of_Z 900000000].
Proof. vm_compute. reflexivity. Qed.
(** The poll that cannot read them reports no increase. *)
Example unreadable_poll_reports_none :
  let h1 := run_state (collect (SampleHost.poll SampleHost.start (Some (100, 0)) 0 [])) SampleHost.fresh [] in
  let h2 := run_state (collect (SampleHost.poll (SampleHost.start + 10 * second) None 0 [])) h1 [] in
  map m_DiskIOPS (d_metrics (h_store rows_db h2)) = [f0; f0].
Proof. vm_compute. reflexivity. Qed.
