(* ===== verification/Retention.v ===== *)
(** * Disk capacity and retention ([retention/], the [capacityStore] of
      [runtime.go])

    The retention job deletes nothing: it reports how much of the disk budget
    is used.  [CheckCapacity] guards every write of the local collector
    through [capacityStore], which is itself a sink.

    The files of the database are what [os.Stat] answers for a path; between
    two checks anything may change, so a guarded store carries one answer
    function per check still to come.  The down-sampling code that the source
    keeps for reference is in [Downsample]. *)

From S2P Require Export CollectorProofs.
Open Scope list_scope.
Open Scope Z_scope.
Import Procs Users Nic Collect.

(** ** The job ([retention.go], [capacity.go]) *)

(** [os.Stat] *)
Inductive stat_result :=
| StatRegular (size : Z)
| StatDir
| StatOther (size : Z) (* not a regular file, not a directory *)
| StatNotExist
| StatError.
Definition stat_fn : Type := string -> stat_result.

Definition DefaultDiskBudgetBytes : Z := Z.shiftl 10 30.
Definition DisabledReason : string :=
  "destructive downsampling and automatic purge are disabled until P2.03 (V07 containment); original tenant/server rows are preserved".
Definition ErrDiskPressure : error := EMsg "retention: disk budget exhausted".
Definition errCapacityCheck : error := EMsg "retention: capacity check unavailable".
Definition errNotRegular : error := EMsg "retention: data path is not a regular file".

Record Status := {
  DownsamplingEnabled : bool;
  PurgeEnabled : bool;
  Reason : string;
  DiskUsedBytes : Z;
  DiskBudgetBytes : Z;
  DiskPressure : bool
}.
Record Job := { dataPath : string; diskBudgetBytes : Z; lastStatus : Status }.

Definition status (used budget : Z) (pressure : bool) : Status :=
  {| DownsamplingEnabled := false; PurgeEnabled := false; Reason := DisabledReason; DiskUsedBytes := used;
     DiskBudgetBytes := budget; DiskPressure := pressure |}.

(** [New] and [NewWithPruner] *)
Definition New : Job :=
  {| dataPath := empty_str; diskBudgetBytes := DefaultDiskBudgetBytes;
     lastStatus := status 0 DefaultDiskBudgetBytes false |}.
Definition SetDataPath (path : string) (j : Job) : Job :=
  {| dataPath := path; diskBudgetBytes := diskBudgetBytes j; lastStatus := lastStatus j |}.
Definition SetDiskBudget (bytes : Z) (j : Job) : Job :=
  {| dataPath := dataPath j; diskBudgetBytes := bytes; lastStatus := lastStatus j |}.
Definition setStatus (st : Status) (j : Job) : Job :=
  {| dataPath := dataPath j; diskBudgetBytes := diskBudgetBytes j; lastStatus := st |}.

(** [fi.IsDir()] is false of what is neither a file nor a directory. *)
Definition diskUsed (stat : stat_fn) (j : Job) : Z :=
  if is_empty (dataPath j) then 0
  else match stat (dataPath j) with
       | StatRegular size | StatOther size => size
       | _ => 0
       end.

(** [None] is success. *)
Definition Run (stat : stat_fn) (j : Job) : option error * Job :=
  let used := diskUsed stat j in
  let budget := diskBudgetBytes j in
  if (0 <? budget) && (budget <? used)
  then (Some (EWrap (": used " +:+ Itoa used +:+ " bytes, budget " +:+ Itoa budget) ErrDiskPressure),
        setStatus (status used budget true) j)
  else (None, setStatus (status used budget false) j).
(** [RunContext]: one run per tick until the context ends. *)
Definition RunContext (ticks : list stat_fn) (j : Job) : Job := fold_left (fun j stat => (Run stat j).2) ticks j.

(** The sum over the three files; [Err] carries whether the status is
    updated, with the bytes counted so far. *)
Fixpoint sum_files (stat : stat_fn) (path : string) (first : bool) (suffixes : list string) (used : Z)
  : result (option Z) Z :=
  match suffixes with
  | [] => Ok used
  | suffix :: suffixes =>
      match stat (path +:+ suffix) with
      | StatNotExist => if first then Err (Some used) else sum_files stat path false suffixes used
      | StatError => Err (Some used)
      | StatDir | StatOther _ => Err None
      | StatRegular size => sum_files stat path false suffixes (wrap_i64 (used + size))
      end
  end.

Definition CheckCapacity (stat : stat_fn) (j : Job) : option error * Job :=
  let budget := diskBudgetBytes j in
  if is_empty (dataPath j) then (None, setStatus (status 0 budget false) j)
  else
    match sum_files stat (dataPath j) true [EmptyString; "-wal"; "-shm"] 0 with
    | Err (Some used) => (Some errCapacityCheck, setStatus (status used budget true) j)
    | Err None => (Some errNotRegular, j)
    | Ok used =>
        let pressure := (0 <? budget) && (budget <=? used) in
        (if pressure then Some ErrDiskPressure else None, setStatus (status used budget pressure) j)
    end.

(** [purgeOld], which the containment leaves without a caller. *)
Definition purgeOld (cutoff : Z) : M rows_db unit :=
  let* _ := exec (delete_metrics_before (Unix cutoff)) in
  let* _ := exec (delete_processes_before (Unix cutoff)) in
  ret tt.

(** ** The guarded store ([runtime.go]) *)

(** [cs_checks] are the answers the coming checks get, [cs_rest] those of
    all later ones. *)
Record capacityStore (S : Type) := {
  cs_Store : S;
  cs_retention : Job;
  cs_checks : list stat_fn;
  cs_rest : stat_fn
}.
Arguments cs_Store {S}.
Arguments cs_retention {S}.
Arguments cs_checks {S}.
Arguments cs_rest {S}.

Section capacity_store.
Context {S : Type} `{!Sink S}.

Definition next_stat (c : capacityStore S) : stat_fn := default (cs_rest c) (head (cs_checks c)).
Definition checked (c : capacityStore S) : capacityStore S :=
  {| cs_Store := cs_Store c; cs_retention := (CheckCapacity (next_stat c) (cs_retention c)).2;
     cs_checks := tail (cs_checks c); cs_rest := cs_rest c |}.
Definition on_inner {A : Type} (m : M S A) : M (capacityStore S) A :=
  zoom cs_Store (fun s c => {| cs_Store := s; cs_retention := cs_retention c; cs_checks := cs_checks c;
                               cs_rest := cs_rest c |}) m.
Definition guarded (m : M S unit) : M (capacityStore S) unit := inspect (fun c =>
  let* _ := modify checked in
  match (CheckCapacity (next_stat c) (cs_retention c)).1 with
  | Some e => fail e
  | None => on_inner m
  end).

#[export] Instance capacity_sink : Sink (capacityStore S) :=
  {| sink_InsertMetric := fun row => guarded (sink_InsertMetric row);
     sink_InsertProcess := fun row => guarded (sink_InsertProcess row) |}.

(** The retention status a hub reports: a fresh check, its error ignored. *)
Definition status_provider (stat : stat_fn) (j : Job) : Status * Job :=
  let j := (CheckCapacity stat j).2 in (lastStatus j, j).
End capacity_store.

(** ** Properties *)

(** How many bytes a list of files holds, if they can all be counted. *)
Definition file_size (r : stat_result) : option Z :=
  match r with StatRegular size => Some size | _ => None end.
Definition side_size (r : stat_result) : option Z :=
  match r with StatNotExist => Some 0 | _ => file_size r end.
Definition database_size (stat : stat_fn) (path : string) : option Z :=
  match file_size (stat path), side_size (stat (path +:+ "-wal")), side_size (stat (path +:+ "-shm")) with
  | Some a, Some b, Some c => Some (a + b + c)
  | _, _, _ => None
  end.

(** Sizes [os.Stat] can report on a disk smaller than 2^61 bytes. *)
Definition sane_stat (stat : stat_fn) : Prop :=
  forall p size, stat p = StatRegular size -> 0 <= size < 2 ^ 61.

(** A check passes exactly when there is no database file to watch, or all
    its files can be counted and there is no budget or their sum is below
    it. *)
Definition has_room (stat : stat_fn) (j : Job) : Prop :=
  dataPath j = empty_str \/
  exists size, database_size stat (dataPath j) = Some size /\
    (diskBudgetBytes j <= 0 \/ size < diskBudgetBytes j).

Lemma sum_files_size (stat : stat_fn) (path : string) : sane_stat stat ->
  match sum_files stat path true [EmptyString; "-wal"; "-shm"] 0 with
  | Ok used => database_size stat path = Some used
  | Err _ => database_size stat path = None
  end.
Proof.
  intros Hs. unfold database_size. cbn [sum_files]. change (path +:+ EmptyString) with (path +:+ empty_str).
  rewrite append_nil_r.
  pose proof (Hs path) as Ha. pose proof (Hs (path +:+ "-wal")) as Hb. pose proof (Hs (path +:+ "-shm")) as Hc.
  assert (Hw : forall z, 0 <= z < 2 ^ 63 -> wrap_i64 z = z).
  { intros z Hz. unfold wrap_i64. rewrite Z.mod_small by lia. lia. }
  destruct (stat path) as [a| | | |]; try done. specialize (Ha a eq_refl).
  destruct (stat (path +:+ "-wal")) as [b| | | |]; try done; try specialize (Hb b eq_refl);
    destruct (stat (path +:+ "-shm")) as [c| | | |]; try done; try specialize (Hc c eq_refl); simpl;
    repeat match goal with
    | |- context [wrap_i64 ?z] => lazymatch z with context [wrap_i64 _] => fail | _ => rewrite (Hw z) by lia end
    end; f_equal; lia.
Qed.

Lemma check_passes (stat : stat_fn) (j : Job) : sane_stat stat ->
  (CheckCapacity stat j).1 = None <-> has_room stat j.
Proof.
  intros Hs. unfold CheckCapacity, has_room. destruct (is_empty (dataPath j)) eqn:Ee.
  { split; [|done]. left. by destruct (dataPath j). }
  assert (dataPath j <> empty_str) by (by intros E; rewrite E in Ee).
  pose proof (sum_files_size stat (dataPath j) Hs) as Hsum.
  destruct (sum_files _ _ _ _ _) as [used|[used|]]; simpl.
  - destruct ((0 <? diskBudgetBytes j) && (diskBudgetBytes j <=? used)) eqn:E; bools; (split; [try done; intros _|]).
    + intros [?|(? & ? & Hd)]; [done|]. simplify_eq. lia.
    + right. exists used. split; [done|]. lia.
    + done.
  - split; [done|]. intros [?|(? & ? & ?)]; [done|congruence].
  - split; [done|]. intros [?|(? & ? & ?)]; [done|congruence].
Qed.

(** The job's settings: what a check depends on, and never changes. *)
Lemma check_settings (stat : stat_fn) (j : Job) :
  dataPath (CheckCapacity stat j).2 = dataPath j /\ diskBudgetBytes (CheckCapacity stat j).2 = diskBudgetBytes j.
Proof. unfold CheckCapacity. repeat case_match; done. Qed.
Lemma has_room_settings (stat : stat_fn) (j j' : Job) :
  dataPath j' = dataPath j -> diskBudgetBytes j' = diskBudgetBytes j -> has_room stat j' <-> has_room stat j.
Proof. unfold has_room. by intros -> ->. Qed.

(** A ready status says so; a refusal for lack of space, or because a file
    cannot be read, is visible as pressure. *)
Lemma check_status (stat : stat_fn) (j : Job) :
  match (CheckCapacity stat j).1 with
  | None => DiskPressure (lastStatus (CheckCapacity stat j).2) = false
  | Some e => e = errNotRegular \/ DiskPressure (lastStatus (CheckCapacity stat j).2) = true
  end.
Proof. unfold CheckCapacity. repeat (case_match; simplify_eq/=); auto. Qed.

Section guarded_store.
Context `{Unicode} `{Net} `{SortSlice} `{MapRange} {S : Type} `{Hsink : !Sink S} `{!LawfulSink S}.

Lemma wp_guarded (m : M S unit) Q (c : capacityStore S) :
  ((CheckCapacity (next_stat c) (cs_retention c)).1 = None -> wp (on_inner m) Q (checked c)) ->
  (forall e, (CheckCapacity (next_stat c) (cs_retention c)).1 = Some e -> Q (Err e) (checked c)) ->
  wp (guarded m) Q c.
Proof.
  intros Ho He. unfold guarded. apply wp_inspect, wp_mbind, wp_modify.
  destruct (CheckCapacity _ _).1; [by apply wp_fail, He|by apply Ho].
Qed.

#[export] Instance capacity_lawful : LawfulSink (capacityStore S).
Proof.
  refine {| stored_metrics := fun c => stored_metrics (cs_Store c);
            stored_processes := fun c => stored_processes (cs_Store c) |}.
  - intros m c. apply wp_guarded; [intros _|intros e _; split; [done|right; split; done]].
    apply wp_zoom. eapply wp_mono; [apply sink_metric_law|done].
  - intros p c. apply wp_guarded; [intros _|intros e _; split; [done|right; split; done]].
    apply wp_zoom. eapply wp_mono; [apply sink_process_law|done].
Defined.

(** Room at every check to come. *)
Definition always_room (c : capacityStore S) : Prop :=
  Forall (fun stat => sane_stat stat /\ has_room stat (cs_retention c)) (cs_rest c :: cs_checks c).

(** A computation on the guarded store that does what one on the store
    inside does. *)
Definition passes {A : Type} (m : M S A) (m' : M (capacityStore S) A) : Prop :=
  forall c fs, always_room c ->
    exists c', m' c fs = ((m (cs_Store c) fs).1.1, c', (m (cs_Store c) fs).2) /\
      cs_Store c' = (m (cs_Store c) fs).1.2 /\ always_room c'.

Lemma always_room_next (c : capacityStore S) : always_room c ->
  (CheckCapacity (next_stat c) (cs_retention c)).1 = None /\ always_room (checked c).
Proof.
  unfold always_room, checked, next_stat. intros Hr.
  assert (Hn : sane_stat (next_stat c) /\ has_room (next_stat c) (cs_retention c)).
  { unfold next_stat. destruct (cs_checks c); simpl; rewrite !Forall_cons in Hr; tauto. }
  destruct Hn as [Hn1 Hn2]. split; [exact (proj2 (check_passes _ _ Hn1) Hn2)|]. simpl.
  destruct (check_settings (default (cs_rest c) (head (cs_checks c))) (cs_retention c)) as [Hp Hb].
  rewrite Forall_cons in Hr. destruct Hr as [Hr0 Hr].
  assert (Hr1 : Forall (fun stat => sane_stat stat /\ has_room stat (cs_retention c)) (tail (cs_checks c)))
    by (by destruct Hr).
  constructor; [destruct Hr0; split; [done|by apply has_room_settings with (cs_retention c)]|].
  eapply Forall_impl; [done|]. intros st [? ?]. split; [done|by apply has_room_settings with (cs_retention c)].
Qed.

Lemma passes_guarded (m : M S unit) : passes m (guarded m).
Proof.
  intros c fs Hr. apply always_room_next in Hr as [Hn Hr]. unfold guarded, inspect, mbind, modify. rewrite Hn.
  unfold on_inner, zoom. simpl. destruct (m (cs_Store c) fs) as [[r s] fs'] eqn:E. simpl.
  eexists. split_and!; done.
Qed.
Lemma passes_processes (rows : list ProcessRow) : passes (insert_processes rows) (insert_processes rows).
Proof.
  induction rows as [|p rows IH]; intros c fs Hr; simpl; [exists c; done|].
  unfold mbind, attempt. destruct (passes_guarded (sink_InsertProcess p) c fs Hr) as (c1 & E1 & Hs1 & Hr1).
  change (sink_InsertProcess p c fs) with (guarded (sink_InsertProcess p) c fs). rewrite E1.
  destruct (sink_InsertProcess p (cs_Store c) fs) as [[r s] fs1]. simpl in *.
  destruct (IH c1 fs1 Hr1) as (c2 & E2 & Hs2 & Hr2). exists c2. rewrite E2, Hs1. rewrite Hs1 in Hs2. done.
Qed.

(** A host without the guard. *)
Definition unguarded (h : host (capacityStore S)) : host S :=
  {| h_col := h_col _ h; h_iface := h_iface _ h; h_store := cs_Store (h_store _ h) |}.

Lemma collect_passes (r : readings) (h : host (capacityStore S)) (fs : faults) :
  always_room (h_store _ h) ->
  exists h', collect r h fs = ((collect r (unguarded h) fs).1.1, h', (collect r (unguarded h) fs).2) /\
    unguarded h' = (collect r (unguarded h) fs).1.2.
Proof.
  intros Hr. unfold collect, inspect. simpl.
  destruct (totals_of (h_col _ h) r (h_iface _ h)) as [t cache].
  destruct (rates (h_col _ h) (rd_now r) t) as [iops mbps].
  destruct (count_users r (userTracker (h_col _ h))) as [users tracker].
  unfold mbind, modify. simpl. unfold to_store at 1 3 5 7, zoom. simpl.
  destruct (passes_guarded (sink_InsertMetric (metric_of (h_col _ h) r t iops mbps users)) (h_store _ h) fs Hr)
    as (c1 & E1 & Hs1 & Hr1).
  destruct (sink_InsertMetric (metric_of (h_col _ h) r t iops mbps users) (cs_Store (h_store _ h)) fs)
    as [[[[]|e] s1] fs1]; simpl in *; rewrite E1; simpl; [|eexists; split; [done|]; unfold unguarded; simpl; by rewrite Hs1].
  destruct (sample _ _ _ _ _ _) as [[rows|] sm].
  - unfold to_store, zoom. simpl. destruct (passes_processes rows c1 fs1 Hr1) as (c2 & E2 & Hs2 & Hr2).
    rewrite E2. rewrite Hs1 in *. destruct (insert_processes rows s1 fs1) as [[r2 s2] fs2]. simpl in *.
    eexists. split; [done|]. unfold unguarded. simpl. by rewrite Hs2.
  - eexists. split; [done|]. unfold unguarded. simpl. by rewrite Hs1.
Qed.

Lemma collect_refused (r : readings) (h : host (capacityStore S)) (e : error) :
  (CheckCapacity (next_stat (h_store _ h)) (cs_retention (h_store _ h))).1 = Some e ->
  wp (collect r) (fun res h' => res = Err e /\ h_store _ h' = checked (h_store _ h)) h.
Proof.
  intros He. unfold collect. apply wp_inspect.
  destruct (totals_of (h_col _ h) r (h_iface _ h)) as [t cache].
  destruct (rates (h_col _ h) (rd_now r) t) as [iops mbps].
  destruct (count_users r (userTracker (h_col _ h))) as [users tracker].
  apply wp_mbind, wp_modify, wp_mbind. unfold to_store. apply wp_zoom.
  unfold sink_InsertMetric. simpl. apply wp_guarded; simpl; [congruence|]. intros e' He'.
  rewrite He in He'. by injection He' as <-.
Qed.

(** The disk budget in front of the local store.  A poll through the
    guarded store only appends.  When the check of its metric row finds no
    room (the database with its WAL and SHM files has reached the budget, or
    cannot be measured) the poll fails, the store is left as it was, and
    unless a path is not a regular file the status shows the pressure.  When
    every check finds room the guard is invisible: result, rows, collector
    and faults are those of the same poll on the bare store. *)
Lemma full_disk_stops_collection (r : readings) (h : host (capacityStore S)) (fs : faults) :
  sane_stat (next_stat (h_store _ h)) ->
  let c := h_store _ h in
  let '(res, h', fs') := collect r h fs in
  (exists new ps, stored_metrics (cs_Store (h_store _ h')) = stored_metrics (cs_Store c) ++ new /\
                  stored_processes (cs_Store (h_store _ h')) = stored_processes (cs_Store c) ++ ps) /\
  (~ has_room (next_stat c) (cs_retention c) ->
     cs_Store (h_store _ h') = cs_Store c /\
     exists e, res = Err e /\ (e = errNotRegular \/ DiskPressure (lastStatus (cs_retention (h_store _ h'))) = true)) /\
  (always_room c -> collect r (unguarded h) fs = (res, unguarded h', fs')).
Proof.
  intros Hs c. destruct (collect r h fs) as [[res h'] fs'] eqn:E. split_and!.
  - pose proof (wp_run _ _ _ _ _ _ _ (wp_collect r h) E) as [_ (new & ps & Hm & Hp & _)]. by exists new, ps.
  - intros Hn. destruct (CheckCapacity (next_stat c) (cs_retention c)).1 as [e|] eqn:Ec.
    2: { by apply check_passes in Ec. }
    pose proof (wp_run _ _ _ _ _ _ _ (collect_refused r h e Ec) E) as [-> Hh]. rewrite Hh. split; [done|].
    exists e. split; [done|]. pose proof (check_status (next_stat c) (cs_retention c)) as Hst. by rewrite Ec in Hst.
  - intros Hr. destruct (collect_passes r h fs Hr) as (h2 & E2 & Hu). rewrite E in E2. injection E2 as -> <- ->.
    rewrite Hu. by destruct (collect r (unguarded h) fs) as [[? ?] ?].
Qed.
End guarded_store.

(** *** Where the two measures of the disk disagree *)

(** [Run] counts only the main file and allows it to reach the budget;
    [CheckCapacity] refuses from the budget on and counts the WAL: at the
    budget the status a run leaves says there is no pressure while every
    write is refused. *)
Lemma run_at_the_budget (stat : stat_fn) (j : Job) (size : Z) :
  dataPath j <> empty_str -> stat (dataPath j) = StatRegular size -> stat (dataPath j +:+ "-wal") = StatNotExist ->
  stat (dataPath j +:+ "-shm") = StatNotExist -> 0 < size < 2 ^ 61 -> diskBudgetBytes j = size ->
  (Run stat j).1 = None /\ DiskPressure (lastStatus (Run stat j).2) = false /\
  (CheckCapacity stat j).1 = Some ErrDiskPressure.
Proof.
  intros Hp Hs Hw Hh Hz Hb. unfold Run, diskUsed, CheckCapacity.
  destruct (is_empty (dataPath j)) eqn:Ee; [by destruct (dataPath j)|]. cbn [sum_files].
  change (dataPath j +:+ EmptyString) with (dataPath j +:+ empty_str). rewrite append_nil_r, Hs, Hw, Hh, Hb.
  assert (wrap_i64 (0 + size) = size) as ->.
  { unfold wrap_i64. rewrite Z.mod_small by lia. lia. }
  rewrite Z.ltb_irrefl, andb_false_r. simpl. destruct (Z.ltb_spec 0 size), (Z.leb_spec size size); (done || lia).
Qed.

(** A data path that is not a regular file refuses every write and leaves
    the last status standing. *)
Lemma directory_keeps_status (stat : stat_fn) (j : Job) :
  dataPath j <> empty_str -> stat (dataPath j) = StatDir -> CheckCapacity stat j = (Some errNotRegular, j).
Proof.
  intros Hp Hs. unfold CheckCapacity. destruct (is_empty (dataPath j)) eqn:Ee; [by destruct (dataPath j)|].
  cbn [sum_files]. change (dataPath j +:+ EmptyString) with (dataPath j +:+ empty_str). by rewrite append_nil_r, Hs.
Qed.

(** Neither measure changes a row: a retention run only writes the status. *)
Lemma run_keeps_settings (ticks : list stat_fn) (j : Job) :
  dataPath (RunContext ticks j) = dataPath j /\ diskBudgetBytes (RunContext ticks j) = diskBudgetBytes j /\
  (ticks <> [] -> DownsamplingEnabled (lastStatus (RunContext ticks j)) = false /\
                  PurgeEnabled (lastStatus (RunContext ticks j)) = false).
Proof.
  unfold RunContext. induction ticks as [|t ticks IH] using rev_ind; [done|]. rewrite fold_left_app. simpl.
  destruct IH as (Hp & Hb & _). set (j1 := fold_left _ ticks j) in *.
  assert (Hr : exists used pressure, (Run t j1).2 = setStatus (status used (diskBudgetBytes j1) pressure) j1).
  { unfold Run. case_match; eauto. }
  destruct Hr as (used & pressure & ->). done.
Qed.

(** *** Concrete inputs *)

Module SampleDisk.
Definition big_wal : stat_fn := fun p =>
  if String.eqb p "/d/w.db" then StatRegular 600 else if String.eqb p "/d/w.db-wal" then StatRegular 500 else StatNotExist.
Definition small : stat_fn := fun p => if String.eqb p "/d/w.db" then StatRegular 600 else StatNotExist.
Definition store (checks : list stat_fn) : capacityStore rows_db :=
  {| cs_Store := empty_rows; cs_retention := SetDiskBudget 1000 (SetDataPath "/d/w.db" New);
     cs_checks := checks; cs_rest := small |}.
Definition on_host (checks : list stat_fn) : host (capacityStore rows_db) :=
  {| h_col := Collect.New (Some "web-1"%string) (Some 4); h_iface := no_iface; h_store := store checks |}.
End SampleDisk.
Import SampleHost.

Lemma full_disk_stops_collection_witness :
  let poll := SampleHost.poll SampleHost.start (Some (100, 0)) 1000 [] in
  let '(res, h', _) := collect poll (SampleDisk.on_host [SampleDisk.big_wal]) [] in
  res = Err ErrDiskPressure /\ cs_Store (h_store _ h') = empty_rows /\
  let '(res2, h2, _) := collect poll (SampleDisk.on_host []) [] in
  res2 = Ok tt /\ length (d_metrics (cs_Store (h_store _ h2))) = 1%nat.
Proof.
  intros poll.
  pose proof (full_disk_stops_collection poll (SampleDisk.on_host [SampleDisk.big_wal]) []) as Hfull.
  destruct (collect poll (SampleDisk.on_host [SampleDisk.big_wal]) []) as [[res h'] fs'] eqn:E.
  destruct Hfull as (_ & Hno & _).
  - intros p size. change (SampleDisk.big_wal p = StatRegular size -> 0 <= size < 2 ^ 61). unfold SampleDisk.big_wal.
    destruct (String.eqb p _); [intros [= <-]; lia|]. destruct (String.eqb p _); intros [= <-]; lia.
  - destruct Hno as [Hst (e & He & _)].
    + intros [Hp|(size & Hd & Hb)]; [discriminate Hp|].
      vm_compute in Hd. injection Hd as <-. vm_compute in Hb. destruct Hb as [Hb|Hb]; [by apply Hb|discriminate Hb].
    + assert (Hr : res = Err ErrDiskPressure) by (transitivity (collect poll (SampleDisk.on_host [SampleDisk.big_wal]) []).1.1; [by rewrite E|vm_compute; reflexivity]).
      split; [exact Hr|]. split; [exact Hst|].
      vm_compute. split; reflexivity.
Defined.
