(* ===== verification/Export.v ===== *)
(** * Reports ([export/], the CSV endpoint of [server/server.go])

    The statistics of a reporting period, per server and for the fleet, the
    sizing they suggest, and the spreadsheet a tenant downloads.

    A CSV document is its records; the quoting of [encoding/csv] is the
    library's.  The loops of [computeServerSummary] and
    [AggregateFleetSummary] update one accumulator per field; here every
    accumulator is a fold of its own.  The text of the documents and the files
    are in Report.v. *)

From S2P Require Export Server.
Open Scope list_scope.
Open Scope Z_scope.

(** ** Summaries ([export.go]) *)

(** The fields [SuggestedMin...] and [SuggestedRec...]. *)
Record Suggested := {
  sg_MinCPU : Z; sg_MinRAM : float64; sg_MinDiskGB : float64; sg_MinIOPS : Z; sg_MinNetMBps : float64;
  sg_RecCPU : Z; sg_RecRAM : float64; sg_RecDiskGB : float64; sg_RecIOPS : Z; sg_RecNetMBps : float64
}.
Record Summary := {
  sm_Period : string;
  sm_RowCount : Z;
  sm_FleetServerCount : Z;
  sm_AvgCPU : float64; sm_PeakCPU : float64;
  sm_AvgMem : float64; sm_PeakMem : float64;
  sm_MinDiskFreeGB : float64;
  sm_CPUCores : Z; sm_MemTotalGB : float64; sm_DiskTotalGB : float64;
  sm_TotalNetSentBytes : Z; sm_TotalNetRecvBytes : Z;
  sm_MinDiskIOPS : float64; sm_AvgDiskIOPS : float64; sm_PeakDiskIOPS : float64;
  sm_MinNetMBps : float64; sm_AvgNetMBps : float64; sm_PeakNetMBps : float64;
  sm_MinConcurrentUsers : Z; sm_AvgConcurrentUsers : float64; sm_MaxConcurrentUsers : Z;
  sm_Suggested : Suggested
}.
Record ServerSummary := { ss_ServerID : string; ss_Hostname : string; ss_Summary : Summary }.

Definition no_suggestion : Suggested :=
  {| sg_MinCPU := 0; sg_MinRAM := f0; sg_MinDiskGB := f0; sg_MinIOPS := 0; sg_MinNetMBps := f0;
     sg_RecCPU := 0; sg_RecRAM := f0; sg_RecDiskGB := f0; sg_RecIOPS := 0; sg_RecNetMBps := f0 |}.
(** [Summary{Period: period, FleetServerCount: n}] *)
Definition empty_summary (period : string) (n : Z) : Summary :=
  {| sm_Period := period; sm_RowCount := 0; sm_FleetServerCount := n; sm_AvgCPU := f0; sm_PeakCPU := f0;
     sm_AvgMem := f0; sm_PeakMem := f0; sm_MinDiskFreeGB := f0; sm_CPUCores := 0; sm_MemTotalGB := f0;
     sm_DiskTotalGB := f0; sm_TotalNetSentBytes := 0; sm_TotalNetRecvBytes := 0; sm_MinDiskIOPS := f0;
     sm_AvgDiskIOPS := f0; sm_PeakDiskIOPS := f0; sm_MinNetMBps := f0; sm_AvgNetMBps := f0; sm_PeakNetMBps := f0;
     sm_MinConcurrentUsers := 0; sm_AvgConcurrentUsers := f0; sm_MaxConcurrentUsers := 0;
     sm_Suggested := no_suggestion |}.

(** *** Accumulators *)

Section accumulators.
Context {A : Type}.
Definition fsum (f : A -> float64) (l : list A) : float64 := fold_left (fun s r => fadd s (f r)) l f0.
Definition peak (f : A -> float64) (l : list A) : float64 := fold_left (fun p r => if fgt (f r) p then f r else p) l f0.
Definition lowest (f : A -> float64) (first : float64) (l : list A) : float64 :=
  fold_left (fun p r => if flt (f r) p then f r else p) l first.
Definition zsum (f : A -> Z) (l : list A) : Z := fold_left (fun s r => s + f r) l 0.
Definition zpeak (f : A -> Z) (l : list A) : Z := fold_left (fun p r => if p <? f r then f r else p) l 0.
Definition zlowest (f : A -> Z) (first : Z) (l : list A) : Z := fold_left (fun p r => if f r <? p then f r else p) l first.
(** The sum of an [int] field. *)
Definition isum (f : A -> Z) (l : list A) : Z := fold_left (fun s r => wrap_i64 (s + f r)) l 0.
Definition usum (f : A -> Z) (l : list A) : Z := fold_left (fun s r => wrap_u64 (s + f r)) l 0.
End accumulators.

(** The traffic between consecutive rows of one server; after a reset the
    whole counter is added. *)
Fixpoint traffic (f : MetricRow -> Z) (prev : option MetricRow) (rows : list MetricRow) (total : Z) : Z :=
  match rows with
  | [] => total
  | r :: rows =>
      let total := match prev with
                   | None => total
                   | Some p => wrap_u64 (total + (if f p <=? f r then wrap_u64 (f r - f p) else f r))
                   end in
      traffic f (Some r) rows total
  end.

(** *** Sizing *)

Definition f_tenths (n : Z) : float64 := fdiv (f_of_Z n) (f_of_Z 10).
Definition f100 : float64 := f_of_Z 100.
Definition fhalf : float64 := fdiv (f_of_Z 1) (f_of_Z 2).
(** [int(x*k + 0.5)], at least [least] *)
Definition int_at_least (least : Z) (x k : float64) : Z :=
  let v := f_to_int (fadd (fmul x k) fhalf) in if v <? least then least else v.
(** [x*k], at least [least] *)
Definition float_at_least (least : float64) (x k : float64) : float64 :=
  let v := fmul x k in if flt v least then least else v.
Definition computeSpecSuggestions (peakDiskIOPS peakNetMBps peakCPUCores peakRAMGB peakUsedDiskGB : float64) : Suggested :=
  let margin := f_tenths 12 in
  let double := f_of_Z 2 in
  {| sg_MinCPU := int_at_least 1 peakCPUCores margin; sg_RecCPU := int_at_least 2 peakCPUCores double;
     sg_MinRAM := float_at_least (fdiv (f_of_Z 1) (f_of_Z 4)) peakRAMGB margin;
     sg_RecRAM := float_at_least fhalf peakRAMGB double;
     sg_MinDiskGB := float_at_least (f_of_Z 10) peakUsedDiskGB margin;
     sg_RecDiskGB := float_at_least (f_of_Z 20) peakUsedDiskGB double;
     sg_MinIOPS := int_at_least 100 peakDiskIOPS margin; sg_RecIOPS := int_at_least 300 peakDiskIOPS double;
     sg_MinNetMBps := float_at_least (f_of_Z 1) peakNetMBps margin;
     sg_RecNetMBps := float_at_least (f_of_Z 5) peakNetMBps double |}.

Definition share (pct total : float64) : float64 := fmul (fdiv pct f100) total.
Definition used_disk (total free : float64) : float64 :=
  let used := fsub total free in if flt used f0 then f0 else used.

Definition computeServerSummary (rows : list MetricRow) (period : string) : Summary :=
  match rows with
  | [] => empty_summary period 1
  | r0 :: _ =>
      let n := f_of_Z (Z.of_nat (length rows)) in
      let peakCPU := peak m_CPUPct rows in
      let peakMem := peak m_MemPct rows in
      let peakIOPS := peak m_DiskIOPS rows in
      let peakNet := peak m_NetMBps rows in
      let minFree := lowest m_DiskFreeGB (m_DiskFreeGB r0) rows in
      {| sm_Period := period; sm_RowCount := Z.of_nat (length rows); sm_FleetServerCount := 1;
         sm_AvgCPU := fdiv (fsum m_CPUPct rows) n; sm_PeakCPU := peakCPU;
         sm_AvgMem := fdiv (fsum m_MemPct rows) n; sm_PeakMem := peakMem;
         sm_MinDiskFreeGB := minFree;
         sm_CPUCores := m_CPUCores r0; sm_MemTotalGB := m_MemTotalGB r0; sm_DiskTotalGB := m_DiskTotalGB r0;
         sm_TotalNetSentBytes := traffic m_NetSentBytes None rows 0;
         sm_TotalNetRecvBytes := traffic m_NetRecvBytes None rows 0;
         sm_MinDiskIOPS := lowest m_DiskIOPS (m_DiskIOPS r0) rows;
         sm_AvgDiskIOPS := fdiv (fsum m_DiskIOPS rows) n; sm_PeakDiskIOPS := peakIOPS;
         sm_MinNetMBps := lowest m_NetMBps (m_NetMBps r0) rows;
         sm_AvgNetMBps := fdiv (fsum m_NetMBps rows) n; sm_PeakNetMBps := peakNet;
         sm_MinConcurrentUsers := zlowest m_ConcurrentUsers (m_ConcurrentUsers r0) rows;
         sm_AvgConcurrentUsers := fdiv (fsum (fun r => f_of_Z (m_ConcurrentUsers r)) rows) n;
         sm_MaxConcurrentUsers := zpeak m_ConcurrentUsers rows;
         sm_Suggested := computeSpecSuggestions peakIOPS peakNet (share peakCPU (f_of_Z (m_CPUCores r0)))
                           (share peakMem (m_MemTotalGB r0)) (used_disk (m_DiskTotalGB r0) minFree) |}
  end.

(** *** Servers and fleet *)

Definition server_key (r : MetricRow) : string := if is_empty (m_ServerID r) then m_Hostname r else m_ServerID r.
(** The order of first sight, and the rows of every key. *)
Definition group_row (acc : list string * gmap string (list MetricRow)) (r : MetricRow)
  : list string * gmap string (list MetricRow) :=
  let '(order, byServer) := acc in
  let key := server_key r in
  match byServer !! key with
  | Some rows => (order, <[key := rows ++ [r]]> byServer)
  | None => (order ++ [key], <[key := [r]]> byServer)
  end.
Definition server_summary (period : string) (key : string) (rows : list MetricRow) : ServerSummary :=
  match rows with
  | [] => {| ss_ServerID := key; ss_Hostname := key; ss_Summary := computeServerSummary rows period |}
  | r0 :: _ =>
      {| ss_ServerID := if is_empty (m_ServerID r0) then key else m_ServerID r0;
         ss_Hostname := if is_empty (m_Hostname r0) then key else m_Hostname r0;
         ss_Summary := computeServerSummary rows period |}
  end.
Definition ComputePerServerSummaries (rows : list MetricRow) (period : string) : list ServerSummary :=
  let '(order, byServer) := fold_left group_row rows ([], ∅) in
  map (fun key => server_summary period key (default [] (byServer !! key))) order.

Definition AggregateFleetSummary (servers : list ServerSummary) (period : string) : Summary :=
  match map ss_Summary servers with
  | [] => empty_summary period 0
  | [s] =>
      {| sm_Period := sm_Period s; sm_RowCount := sm_RowCount s; sm_FleetServerCount := 1; sm_AvgCPU := sm_AvgCPU s;
         sm_PeakCPU := sm_PeakCPU s; sm_AvgMem := sm_AvgMem s; sm_PeakMem := sm_PeakMem s;
         sm_MinDiskFreeGB := sm_MinDiskFreeGB s; sm_CPUCores := sm_CPUCores s; sm_MemTotalGB := sm_MemTotalGB s;
         sm_DiskTotalGB := sm_DiskTotalGB s; sm_TotalNetSentBytes := sm_TotalNetSentBytes s;
         sm_TotalNetRecvBytes := sm_TotalNetRecvBytes s; sm_MinDiskIOPS := sm_MinDiskIOPS s;
         sm_AvgDiskIOPS := sm_AvgDiskIOPS s; sm_PeakDiskIOPS := sm_PeakDiskIOPS s; sm_MinNetMBps := sm_MinNetMBps s;
         sm_AvgNetMBps := sm_AvgNetMBps s; sm_PeakNetMBps := sm_PeakNetMBps s;
         sm_MinConcurrentUsers := sm_MinConcurrentUsers s; sm_AvgConcurrentUsers := sm_AvgConcurrentUsers s;
         sm_MaxConcurrentUsers := sm_MaxConcurrentUsers s; sm_Suggested := sm_Suggested s |}
  | ss =>
      let cores := isum sm_CPUCores ss in
      let ram := fsum sm_MemTotalGB ss in
      let peakCores := fsum (fun s => share (sm_PeakCPU s) (f_of_Z (sm_CPUCores s))) ss in
      let avgCores := fsum (fun s => share (sm_AvgCPU s) (f_of_Z (sm_CPUCores s))) ss in
      let peakRAM := fsum (fun s => share (sm_PeakMem s) (sm_MemTotalGB s)) ss in
      let avgRAM := fsum (fun s => share (sm_AvgMem s) (sm_MemTotalGB s)) ss in
      let usedDisk := fsum (fun s => used_disk (sm_DiskTotalGB s) (sm_MinDiskFreeGB s)) ss in
      let of_cores x := if 0 <? cores then fmul (fdiv x (f_of_Z cores)) f100 else f0 in
      let of_ram x := if fgt ram f0 then fmul (fdiv x ram) f100 else f0 in
      let peakIOPS := fsum sm_PeakDiskIOPS ss in
      let peakNet := fsum sm_PeakNetMBps ss in
      {| sm_Period := period; sm_RowCount := zsum sm_RowCount ss; sm_FleetServerCount := Z.of_nat (length servers);
         sm_AvgCPU := of_cores avgCores; sm_PeakCPU := of_cores peakCores;
         sm_AvgMem := of_ram avgRAM; sm_PeakMem := of_ram peakRAM;
         sm_MinDiskFreeGB := fsum sm_MinDiskFreeGB ss; sm_CPUCores := cores; sm_MemTotalGB := ram;
         sm_DiskTotalGB := fsum sm_DiskTotalGB ss;
         sm_TotalNetSentBytes := usum sm_TotalNetSentBytes ss; sm_TotalNetRecvBytes := usum sm_TotalNetRecvBytes ss;
         sm_MinDiskIOPS := fsum sm_MinDiskIOPS ss; sm_AvgDiskIOPS := fsum sm_AvgDiskIOPS ss;
         sm_PeakDiskIOPS := peakIOPS; sm_MinNetMBps := fsum sm_MinNetMBps ss; sm_AvgNetMBps := fsum sm_AvgNetMBps ss;
         sm_PeakNetMBps := peakNet; sm_MinConcurrentUsers := isum sm_MinConcurrentUsers ss;
         sm_AvgConcurrentUsers := fsum sm_AvgConcurrentUsers ss; sm_MaxConcurrentUsers := isum sm_MaxConcurrentUsers ss;
         sm_Suggested := computeSpecSuggestions peakIOPS peakNet peakCores peakRAM usedDisk |}
  end.
Definition ComputeSummary (rows : list MetricRow) (period : string) : Summary :=
  AggregateFleetSummary (ComputePerServerSummaries rows period) period.

(** ** The spreadsheet *)

Definition formula_chars : string := bytes [61; 43; 45; 64; 9; 13; 10]%N. (* = + - @ tab CR LF *)
Definition SpreadsheetSafeCell (s : string) : string :=
  match s with
  | EmptyString => s
  | String c _ => if mem_char c formula_chars then String "'" s else s
  end.

Definition record : Type := list string.
Definition percent (x : float64) : string := FormatF 2 x +:+ "%".
Definition megabytes (bytes : Z) : float64 := fdiv (f_of_Z bytes) (f_of_Z (1024 * 1024)).
Definition slashed (a b c : string) : string := a +:+ " / " +:+ b +:+ " / " +:+ c.
Definition specs (cpu : Z) (ram disk : float64) (iops : Z) (net : float64) : string :=
  Itoa cpu +:+ " vCPU | " +:+ FormatF 2 ram +:+ " GB RAM | " +:+ FormatF 1 disk +:+ " GB Disk | " +:+ Itoa iops +:+
  " IOPS | " +:+ FormatF 2 net +:+ " MB/s Net BW".

(** The block of totals on top. *)
Definition summary_records (s : Summary) : list record :=
  let label := if 1 <? sm_FleetServerCount s then "Fleet (" +:+ Itoa (sm_FleetServerCount s) +:+ " servers)" else "System" in
  let sg := sm_Suggested s in
  [["App"; "W-Monitor System Report"];
   ["Period"; sm_Period s];
   [label; Itoa (sm_CPUCores s) +:+ " vCPU | " +:+ FormatF 1 (sm_MemTotalGB s) +:+ " GB RAM | " +:+
           FormatF 1 (sm_DiskTotalGB s) +:+ " GB Disk"];
   ["Samples"; Itoa (sm_RowCount s)];
   ["Avg CPU"; percent (sm_AvgCPU s)];
   ["Peak CPU"; percent (sm_PeakCPU s)];
   ["Avg Memory"; percent (sm_AvgMem s)];
   ["Peak Memory"; percent (sm_PeakMem s)];
   ["Min Disk Free"; FormatF 2 (sm_MinDiskFreeGB s) +:+ " GB"];
   ["Total Net Sent"; FormatF 2 (megabytes (sm_TotalNetSentBytes s)) +:+ " MB"];
   ["Total Net Recv"; FormatF 2 (megabytes (sm_TotalNetRecvBytes s)) +:+ " MB"];
   ["Disk IOPS (Min/Avg/Peak)";
    slashed (FormatF 1 (sm_MinDiskIOPS s)) (FormatF 1 (sm_AvgDiskIOPS s)) (FormatF 1 (sm_PeakDiskIOPS s)) +:+ " IOPS"];
   ["Net Bandwidth (Min/Avg/Peak)";
    slashed (FormatF 2 (sm_MinNetMBps s)) (FormatF 2 (sm_AvgNetMBps s)) (FormatF 2 (sm_PeakNetMBps s)) +:+ " MB/s"];
   ["Concurrent Users (Min/Avg/Max)";
    slashed (Itoa (sm_MinConcurrentUsers s)) (FormatF 1 (sm_AvgConcurrentUsers s)) (Itoa (sm_MaxConcurrentUsers s))];
   [];
   ["Suggested Requirements"];
   ["Minimum Specs"; specs (sg_MinCPU sg) (sg_MinRAM sg) (sg_MinDiskGB sg) (sg_MinIOPS sg) (sg_MinNetMBps sg)];
   ["Recommended Specs"; specs (sg_RecCPU sg) (sg_RecRAM sg) (sg_RecDiskGB sg) (sg_RecIOPS sg) (sg_RecNetMBps sg)];
   []]%string.
Definition header_record : record :=
  ["Date/Time (UTC)"; "Server ID"; "Hostname"; "CPU %"; "Memory %"; "Disk Free GB"; "Net Sent MB"; "Net Recv MB";
   "vCPUs"; "Total RAM GB"; "Total Disk GB"; "Disk IOPS"; "Net MB/s"; "Concurrent Users"]%string.
Definition data_record (cell : string -> string) (r : MetricRow) : record :=
  [FormatSecond (m_Timestamp r); cell (m_ServerID r); cell (m_Hostname r); FormatF 2 (m_CPUPct r);
   FormatF 2 (m_MemPct r); FormatF 2 (m_DiskFreeGB r); FormatF 4 (megabytes (m_NetSentBytes r));
   FormatF 4 (megabytes (m_NetRecvBytes r)); Itoa (m_CPUCores r); FormatF 1 (m_MemTotalGB r);
   FormatF 1 (m_DiskTotalGB r); FormatF 1 (m_DiskIOPS r); FormatF 2 (m_NetMBps r); Itoa (m_ConcurrentUsers r)].

(** [queried] is [db.QueryMetrics(since, tenantID)] with whatever else the
    store notes of it; the writer does not fail. *)
Definition writeCSV {S X : Type} (queried : M S (list MetricRow * X)) (since now : Z) (tenantID : string)
    (spreadsheetSafe : bool) : M S (Z * X * list record) :=
  let* _ := lift (RequireTenant tenantID) in
  let* found := wrap_err "query metrics: " queried in
  let '(rows, noted) := found in
  let cell s := if spreadsheetSafe then SpreadsheetSafeCell s else s in
  let s := ComputeSummary rows (FormatMinute since +:+ " to " +:+ FormatMinute now) in
  ret (Z.of_nat (length rows), noted, summary_records s ++ header_record :: map (data_record cell) rows).
Definition WriteCSV {S X : Type} (queried : M S (list MetricRow * X)) (since now : Z) (tenantID : string) :=
  writeCSV queried since now tenantID true.
Definition WriteCSVLossless {S X : Type} (queried : M S (list MetricRow * X)) (since now : Z) (tenantID : string) :=
  writeCSV queried since now tenantID false.

(** ** The assessment report ([report.go])

    What the HTML template is given. *)
Record AssessmentReport := {
  ar_Summary : Summary;
  ar_Start : Z;
  ar_End : Z;
  ar_SampleCount : Z;
  ar_Servers : list ServerSummary
}.
Definition GenerateAssessmentReport {S : Type} (queried : M S (list MetricRow)) (start till : Z) (tenantID : string)
  : M S AssessmentReport :=
  let* _ := lift (RequireTenant tenantID) in
  let* rows := wrap_err "query metrics: " queried in
  let filtered := List.filter (fun r => negb (After (m_Timestamp r) till)) rows in
  let period := FormatMinute start +:+ " to " +:+ FormatMinute till in
  let servers := ComputePerServerSummaries filtered period in
  ret {| ar_Summary := AggregateFleetSummary servers period; ar_Start := start; ar_End := till;
         ar_SampleCount := Z.of_nat (length filtered); ar_Servers := servers |}.

(** ** The endpoint *)

(** The document with [X-Result-Limit], [X-Result-Complete] and
    [X-Next-Cursor]. *)
Record csv_reply := {
  csv_Records : list record; csv_Limit : Z; csv_Complete : bool; csv_NextCursor : string
}.

Section endpoint.
Context `{Unicode} `{Net} `{OriginParser} `{Dialect} `{HubJSON} `{Collation}.
Context (trusted_proxies : string) (sha256hex : string -> string) (conv : Z -> Z).

Definition handleExportCSV (r : request) (q : read_query) (now : Z) : M site (hub_reply csv_reply) :=
  for_tenant trusted_proxies sha256hex r now (fun tenant =>
    if RequireTenant_fails tenant then refuse 400 "tenant required"
    else match parseReadPage (rq_limit q) (rq_cursor q) with
    | Err e => refuse 400 (error_text e)
    | Ok page =>
        let since := now - parseRange (rq_range q) in
        let* csv := attempt (on_rows (WriteCSV
          (exportView_QueryMetrics conv now since tenant (rq_server q) (pg_Limit page) (pg_AfterUnix page) (pg_AfterID page))
          since now tenant)) in
        match csv with
        | Err _ => refuse 503 "export unavailable"
        | Ok (n, lastKey, records) =>
            let '(next, complete) := nextReadCursor lastKey.1 lastKey.2 n (pg_Limit page) in
            let '(next, complete) := if n =? 0 then (EmptyString, true) else (next, complete) in
            answer_with {| csv_Records := records; csv_Limit := pg_Limit page; csv_Complete := complete;
                           csv_NextCursor := next |}
        end
    end).
End endpoint.
