(* ===== verification/ExportProofs.v ===== *)
(** * Reports: proofs

    Rows are partitioned by server and every number of a summary is what its
    name says; the exported spreadsheet holds the rows of one tenant, and no
    text a machine chose can be read as a formula. *)

From S2P Require Export Export ServerProofs.
Open Scope list_scope.
Open Scope Z_scope.

(** ** Grouping *)

(** The distinct elements of a list, in the order of first sight. *)
Definition first_seen (l : list string) : list string :=
  fold_left (fun seen k => if decide (k ∈ seen) then seen else seen ++ [k]) l [].
Definition rows_of (key : string) (rows : list MetricRow) : list MetricRow :=
  filter (fun r => server_key r = key) rows.

Lemma first_seen_snoc (l : list string) (k : string) :
  first_seen (l ++ [k]) = if decide (k ∈ first_seen l) then first_seen l else first_seen l ++ [k].
Proof. unfold first_seen. by rewrite fold_left_app. Qed.
Lemma first_seen_elem (l : list string) (k : string) : k ∈ first_seen l <-> k ∈ l.
Proof.
  induction l as [|x l IH] using rev_ind; [done|]. rewrite first_seen_snoc, elem_of_app, <- IH, list_elem_of_singleton.
  case_decide; [naive_solver|]. rewrite elem_of_app, list_elem_of_singleton. done.
Qed.
Lemma first_seen_nodup (l : list string) : NoDup (first_seen l).
Proof.
  induction l as [|x l IH] using rev_ind; [constructor|]. rewrite first_seen_snoc. case_decide; [done|].
  apply NoDup_app. split; [done|]. split; [set_solver|apply NoDup_singleton].
Qed.

Lemma group_rows_spec (rows : list MetricRow) :
  let '(order, byServer) := fold_left group_row rows ([], ∅) in
  order = first_seen (map server_key rows) /\
  forall key, default [] (byServer !! key) = rows_of key rows /\
    (is_Some (byServer !! key) <-> key ∈ map server_key rows).
Proof.
  induction rows as [|r rows IH] using rev_ind.
  { split; [done|]. intros key. rewrite lookup_empty. split; [done|]. split; [by intros []|set_solver]. }
  rewrite fold_left_app. simpl. destruct (fold_left group_row rows ([], ∅)) as [order byServer].
  destruct IH as [-> Hk]. unfold group_row. rewrite map_app. cbn [map]. rewrite first_seen_snoc.
  assert (Hseen : server_key r ∈ first_seen (map server_key rows) <-> is_Some (byServer !! server_key r)).
  { rewrite first_seen_elem. symmetry. apply Hk. }
  unfold rows_of. destruct (byServer !! server_key r) as [old|] eqn:E.
  - rewrite decide_True by (apply Hseen; eauto). split; [done|]. intros key. rewrite filter_app.
    destruct (Hk key) as [Hd Hs]. rewrite elem_of_app, list_elem_of_singleton.
    destruct (decide (server_key r = key)) as [<-|Hne].
    + rewrite lookup_insert_eq, (filter_cons_True _ r) by done. rewrite E in Hd. simpl in *. unfold rows_of in Hd.
      rewrite <- Hd. split; [done|]. split; eauto.
    + rewrite lookup_insert_ne, (filter_cons_False _ r), app_nil_r by done. split; [done|]. rewrite Hs. naive_solver.
  - rewrite decide_False by (rewrite Hseen; intros [? [=]]). split; [done|]. intros key. rewrite filter_app.
    destruct (Hk key) as [Hd Hs]. rewrite elem_of_app, list_elem_of_singleton.
    destruct (decide (server_key r = key)) as [<-|Hne].
    + rewrite lookup_insert_eq, (filter_cons_True _ r) by done. rewrite E in Hd. simpl in *. unfold rows_of in Hd.
      rewrite <- Hd. split; [done|]. split; eauto.
    + rewrite lookup_insert_ne, (filter_cons_False _ r), app_nil_r by done. split; [done|]. rewrite Hs. naive_solver.
Qed.

(** Grouping is filtering. *)
Lemma per_server_filters (rows : list MetricRow) (period : string) :
  ComputePerServerSummaries rows period =
  map (fun key => server_summary period key (rows_of key rows)) (first_seen (map server_key rows)).
Proof.
  unfold ComputePerServerSummaries. pose proof (group_rows_spec rows) as Hg.
  destruct (fold_left group_row rows ([], ∅)) as [order byServer]. destruct Hg as [-> Hk].
  apply map_ext. intros key. by destruct (Hk key) as [-> _].
Qed.

(** The groups partition the rows. *)
Lemma groups_partition (rows : list MetricRow) :
  List.concat (map (fun key => rows_of key rows) (first_seen (map server_key rows))) ≡ₚ rows.
Proof.
  assert (Hg : forall keys, NoDup keys ->
    List.concat (map (fun key => rows_of key rows) keys) ≡ₚ filter (fun r => server_key r ∈ keys) rows).
  { induction keys as [|k keys IH]; intros Hn; simpl.
    - induction rows as [|r rows IHr]; [done|]. rewrite filter_cons_False by set_solver. done.
    - apply NoDup_cons in Hn as [Hk Hn]. rewrite IH by done. clear IH. unfold rows_of.
      induction rows as [|r rows IHr]; [done|]. rewrite !filter_cons.
      destruct (decide (server_key r = k)) as [->|Hne].
      + rewrite decide_False by done. rewrite decide_True by set_solver. simpl. by rewrite IHr.
      + destruct (decide (server_key r ∈ keys)).
        * rewrite decide_True by set_solver. rewrite <- Permutation_middle. by rewrite IHr.
        * rewrite decide_False by set_solver. done. }
  rewrite Hg by apply first_seen_nodup. clear Hg.
  assert (Ha : forall l : list MetricRow, (forall r, r ∈ l -> server_key r ∈ first_seen (map server_key rows)) ->
    filter (fun r => server_key r ∈ first_seen (map server_key rows)) l = l).
  { induction l as [|r l IH]; intros Hl; [done|]. rewrite filter_cons_True by (apply Hl; set_solver).
    f_equal. apply IH. set_solver. }
  rewrite Ha; [done|]. intros r Hr. apply first_seen_elem. apply list_elem_of_fmap. eauto.
Qed.

(** ** Extremes *)

Lemma flt_total (x y z : float64) : is_nan x = false -> is_nan y = false -> is_nan z = false ->
  flt x y = false -> flt y z = false -> flt x z = false.
Proof.
  intros Hx Hy Hz Hxy Hyz. apply not_true_iff_false. rewrite flt_key by done.
  apply not_true_iff_false in Hxy, Hyz. rewrite flt_key in Hxy, Hyz by done. unfold key3_lt in *.
  destruct (fkey x) as [[a b] c], (fkey y) as [[d e] f], (fkey z) as [[g h] i]. simpl in *. lia.
Qed.
Lemma flt_irrefl (x : float64) : flt x x = false.
Proof.
  destruct (is_nan x) eqn:E; [by destruct x|]. apply not_true_iff_false. rewrite flt_key by done. unfold key3_lt. lia.
Qed.
Lemma flt_asym (x y : float64) : flt x y = true -> flt y x = false.
Proof.
  destruct (is_nan x) eqn:Ex, (is_nan y) eqn:Ey; [by destruct x|by destruct x|by destruct x, y|].
  rewrite flt_key by done. intros Hk. apply not_true_iff_false. rewrite flt_key by done. unfold key3_lt in *. lia.
Qed.

Section extremes.
Context {A : Type}.
Implicit Types (f : A -> float64) (l : list A).

(** A selecting fold ends with its start or an element, beyond which nothing
    lies. *)
Lemma select_fold (less : float64 -> float64 -> bool) f l :
  (forall x, less x x = false) ->
  (forall x y, less x y = true -> less y x = false) ->
  (forall x y z, is_nan x = false -> is_nan y = false -> is_nan z = false ->
     less x y = false -> less y z = false -> less x z = false) ->
  forall start, is_nan start = false -> Forall (fun r => is_nan (f r) = false) l ->
  let best := fold_left (fun p r => if less (f r) p then f r else p) l start in
  (best = start \/ exists r, r ∈ l /\ best = f r) /\ less start best = false /\ Forall (fun r => less (f r) best = false) l.
Proof.
  intros Hirr Hasym Htrans. induction l as [|r l IH]; intros start Hs Hl best.
  { split; [by left|]. split; [apply Hirr|constructor]. }
  apply Forall_cons in Hl as [Hr Hl]. unfold best. simpl.
  set (s' := if less (f r) start then f r else start).
  assert (Hs' : is_nan s' = false) by (unfold s'; by case_match).
  destruct (IH s' Hs' Hl) as (Hb & Hge & Hall). set (b := fold_left _ l s') in *.
  assert (Hbn : is_nan b = false).
  { destruct Hb as [->|(x & Hx & ->)]; [done|]. rewrite Forall_forall in Hl. by apply Hl. }
  assert (H1 : less start s' = false) by (unfold s'; case_match; [by apply Hasym|apply Hirr]).
  assert (H2 : less (f r) s' = false) by (unfold s'; case_match; [apply Hirr|done]).
  split_and!.
  - destruct Hb as [->|(x & Hx & ->)]; [|right; exists x; set_solver].
    unfold s'. case_match; [right; exists r; set_solver|by left].
  - by apply (Htrans _ s').
  - constructor; [by apply (Htrans _ s')|done].
Qed.

Lemma lowest_spec f l (first : float64) :
  is_nan first = false -> Forall (fun r => is_nan (f r) = false) l ->
  (lowest f first l = first \/ exists r, r ∈ l /\ lowest f first l = f r) /\
  flt first (lowest f first l) = false /\ Forall (fun r => flt (f r) (lowest f first l) = false) l.
Proof. apply (select_fold flt); [apply flt_irrefl|apply flt_asym|apply flt_total]. Qed.
Lemma peak_spec f l :
  Forall (fun r => is_nan (f r) = false) l ->
  (peak f l = f0 \/ exists r, r ∈ l /\ peak f l = f r) /\ Forall (fun r => flt (peak f l) (f r) = false) l.
Proof.
  intros Hl. destruct (select_fold (fun x y => flt y x) f l flt_irrefl) with (start := f0) as (H1 & _ & H2).
  - intros x y. apply flt_asym.
  - intros x y z Hx Hy Hz H1 H2. by apply (flt_total z y x).
  - done.
  - done.
  - done.
Qed.

Lemma zselect_fold (f : A -> Z) (gt : bool) (l : list A) : forall start : Z,
  let best := fold_left (fun p r => if (if gt then p <? f r else f r <? p) then f r else p) l start in
  (best = start \/ exists r, r ∈ l /\ best = f r) /\
  (if gt then start <= best else best <= start) /\ Forall (fun r => if gt then f r <= best else best <= f r) l.
Proof.
  induction l as [|r l IH]; intros start; simpl.
  { split; [by left|]. split; [by destruct gt|constructor]. }
  set (s' := if (if gt then _ else _ : bool) then f r else start). destruct (IH s') as (Hb & Hge & Hall).
  set (best := fold_left _ l s') in *.
  assert (Hs : (s' = start \/ s' = f r) /\ if gt then start <= s' /\ f r <= s' else s' <= start /\ s' <= f r).
  { unfold s'. destruct gt; case_match; bools; (split; [auto|lia]). }
  destruct Hs as [Hs1 Hs2]. split_and!.
  - destruct Hb as [->|(x & Hx & ->)]; [|right; exists x; set_solver]. destruct Hs1 as [->| ->]; [by left|].
    right. exists r. set_solver.
  - destruct gt; lia.
  - constructor; [destruct gt; lia|done].
Qed.
End extremes.

(** ** Traffic *)

(** The increase of a counter between two rows, as the export counts it. *)
Definition step_traffic (f : MetricRow -> Z) (p r : MetricRow) : Z := if f p <=? f r then f r - f p else f r.
Fixpoint steps_traffic (f : MetricRow -> Z) (rows : list MetricRow) : Z :=
  match rows with
  | p :: (r :: _) as rest => step_traffic f p r + steps_traffic f rest
  | _ => 0
  end.

Lemma traffic_sum (f : MetricRow -> Z) (rows : list MetricRow) : Forall (fun r => in_u64 (f r)) rows ->
  forall total, wrap_u64 (traffic f None rows total) = wrap_u64 (total + steps_traffic f rows).
Proof.
  assert (Hg : forall rows p total, Forall (fun r => in_u64 (f r)) (p :: rows) ->
    wrap_u64 (traffic f (Some p) rows total) = wrap_u64 (total + steps_traffic f (p :: rows))).
  { clear rows. induction rows as [|r rows IH]; intros p total Hf; [by rewrite Z.add_0_r|].
    apply Forall_cons in Hf as [Hp Hf]. cbn [traffic]. rewrite (IH r) by done. simpl.
    unfold step_traffic, wrap_u64. unfold in_u64, max_uint64 in *.
    destruct (Z.leb_spec (f p) (f r)).
    - rewrite (Z.mod_small (f r - f p)) by (apply Forall_cons in Hf as [Hr _]; lia).
      rewrite Zplus_mod_idemp_l. f_equal. lia.
    - rewrite Zplus_mod_idemp_l. f_equal. lia. }
  intros Hf total. destruct rows as [|p rows]; [by rewrite Z.add_0_r|]. by apply Hg.
Qed.

Lemma traffic_u64 (f : MetricRow -> Z) (rows : list MetricRow) : forall prev total,
  in_u64 total -> in_u64 (traffic f prev rows total).
Proof.
  induction rows as [|r rows IH]; intros prev total Ht; [done|]. simpl. apply IH. destruct prev; [|done].
  unfold in_u64, max_uint64, wrap_u64. match goal with |- context [?a `mod` ?b] => pose proof (Z.mod_pos_bound a b) end. lia.
Qed.
Lemma traffic_steps (f : MetricRow -> Z) (rows : list MetricRow) : Forall (fun r => in_u64 (f r)) rows ->
  traffic f None rows 0 = wrap_u64 (steps_traffic f rows).
Proof.
  intros Hf. rewrite <- (Z.add_0_l (steps_traffic f rows)), <- traffic_sum by done.
  assert (Ht : in_u64 (traffic f None rows 0)) by (apply traffic_u64; unfold in_u64, max_uint64; lia).
  unfold in_u64, max_uint64, wrap_u64 in *. rewrite Z.mod_small; lia.
Qed.

(** A reset adds the whole counter, the figure [collector/delta.go] calls a
    fabricated spike. *)
Lemma export_reset_spike :
  let row bytes := set_metric 0 "t_a" "s1" 0 (fun _ => bytes) (metric_at 0 "t_a" "s1" f0) in
  traffic m_NetSentBytes None [row 9000000000; row 8000000000] 0 = 8000000000 /\
  steps_traffic m_NetSentBytes [row 9000000000; row 9000000001] = 1.
Proof. vm_compute. done. Qed.

(** ** Summaries *)

Definition numbers (r : MetricRow) : Prop :=
  Forall (fun x => is_nan x = false) [m_CPUPct r; m_MemPct r; m_DiskFreeGB r; m_DiskIOPS r; m_NetMBps r] /\
  in_u64 (m_NetSentBytes r) /\ in_u64 (m_NetRecvBytes r).

Definition between (low high x : float64) : Prop := flt x low = false /\ flt high x = false.

(** What a summary says of the rows of one server. *)
Definition describes (s : Summary) (rows : list MetricRow) : Prop :=
  sm_RowCount s = Z.of_nat (length rows) /\
  Forall (fun r =>
    flt (sm_PeakCPU s) (m_CPUPct r) = false /\ flt (sm_PeakMem s) (m_MemPct r) = false /\
    flt (m_DiskFreeGB r) (sm_MinDiskFreeGB s) = false /\
    between (sm_MinDiskIOPS s) (sm_PeakDiskIOPS s) (m_DiskIOPS r) /\
    between (sm_MinNetMBps s) (sm_PeakNetMBps s) (m_NetMBps r) /\
    sm_MinConcurrentUsers s <= m_ConcurrentUsers r <= sm_MaxConcurrentUsers s) rows /\
  (exists r, r ∈ rows /\ sm_MinDiskFreeGB s = m_DiskFreeGB r) /\
  (sm_PeakCPU s = f0 \/ exists r, r ∈ rows /\ sm_PeakCPU s = m_CPUPct r) /\
  (sm_PeakMem s = f0 \/ exists r, r ∈ rows /\ sm_PeakMem s = m_MemPct r) /\
  sm_TotalNetSentBytes s = wrap_u64 (steps_traffic m_NetSentBytes rows) /\
  sm_TotalNetRecvBytes s = wrap_u64 (steps_traffic m_NetRecvBytes rows).

Lemma server_summary_describes (rows : list MetricRow) (period : string) :
  rows <> [] -> Forall numbers rows -> describes (computeServerSummary rows period) rows.
Proof.
  intros Hne Hn. destruct rows as [|r0 rest] eqn:E; [done|]. unfold computeServerSummary. rewrite <- E in *.
  assert (H0 : r0 ∈ rows) by (rewrite E; set_solver). clear E.
  assert (Hnum : forall f : MetricRow -> float64, (forall r, numbers r -> is_nan (f r) = false) ->
    Forall (fun r => is_nan (f r) = false) rows) by (intros f Hf; eapply Forall_impl; eauto).
  assert (Hcpu : Forall (fun r => is_nan (m_CPUPct r) = false) rows) by (apply Hnum; intros r [Hr _]; rewrite !Forall_cons in Hr; tauto).
  assert (Hmem : Forall (fun r => is_nan (m_MemPct r) = false) rows) by (apply Hnum; intros r [Hr _]; rewrite !Forall_cons in Hr; tauto).
  assert (Hfree : Forall (fun r => is_nan (m_DiskFreeGB r) = false) rows) by (apply Hnum; intros r [Hr _]; rewrite !Forall_cons in Hr; tauto).
  assert (Hiops : Forall (fun r => is_nan (m_DiskIOPS r) = false) rows) by (apply Hnum; intros r [Hr _]; rewrite !Forall_cons in Hr; tauto).
  assert (Hnet : Forall (fun r => is_nan (m_NetMBps r) = false) rows) by (apply Hnum; intros r [Hr _]; rewrite !Forall_cons in Hr; tauto).
  assert (Hfirst : forall f : MetricRow -> float64, Forall (fun r => is_nan (f r) = false) rows -> is_nan (f r0) = false).
  { intros f Hf. rewrite Forall_forall in Hf. by apply Hf. }
  destruct (peak_spec m_CPUPct rows Hcpu) as [Pc Bc], (peak_spec m_MemPct rows Hmem) as [Pm Bm],
    (peak_spec m_DiskIOPS rows Hiops) as [_ Bi], (peak_spec m_NetMBps rows Hnet) as [_ Bn],
    (lowest_spec m_DiskFreeGB rows _ (Hfirst _ Hfree) Hfree) as (Lf & _ & Bf),
    (lowest_spec m_DiskIOPS rows _ (Hfirst _ Hiops) Hiops) as (_ & _ & Bi'),
    (lowest_spec m_NetMBps rows _ (Hfirst _ Hnet) Hnet) as (_ & _ & Bn'),
    (zselect_fold m_ConcurrentUsers true rows 0) as (_ & _ & Bu),
    (zselect_fold m_ConcurrentUsers false rows (m_ConcurrentUsers r0)) as (_ & _ & Bu').
  unfold describes. cbn [sm_RowCount sm_PeakCPU sm_PeakMem sm_MinDiskFreeGB sm_MinDiskIOPS sm_PeakDiskIOPS sm_MinNetMBps
    sm_PeakNetMBps sm_MinConcurrentUsers sm_MaxConcurrentUsers sm_TotalNetSentBytes sm_TotalNetRecvBytes].
  split_and!; [done| | |done|done|..].
  - rewrite Forall_forall in *. intros r Hr. unfold between.
    split_and!; auto.
  - destruct Lf as [->|?]; [by exists r0|done].
  - apply traffic_steps. eapply Forall_impl; [exact Hn|]. by intros r (_ & ? & _).
  - apply traffic_steps. eapply Forall_impl; [exact Hn|]. by intros r (_ & _ & ?).
Qed.

Lemma zsum_acc {A} (f : A -> Z) (l : list A) : forall acc, fold_left (fun s r => s + f r) l acc = acc + zsum f l.
Proof.
  unfold zsum. induction l as [|x l IH]; intros acc; simpl; [lia|]. rewrite IH, (IH (0 + f x)). lia.
Qed.
Lemma zsum_cons {A} (f : A -> Z) (x : A) (l : list A) : zsum f (x :: l) = f x + zsum f l.
Proof. unfold zsum at 1. simpl. rewrite zsum_acc. lia. Qed.

Lemma fleet_row_count (servers : list ServerSummary) (period : string) :
  sm_RowCount (AggregateFleetSummary servers period) = zsum sm_RowCount (map ss_Summary servers).
Proof.
  unfold AggregateFleetSummary. destruct servers as [|s1 [|s2 servers]]; [done| |done].
  simpl. rewrite zsum_cons. unfold zsum. simpl. lia.
Qed.

(** Suggestions never fall below the smallest machine on offer. *)
Definition sized (g : Suggested) : Prop :=
  1 <= sg_MinCPU g /\ 2 <= sg_RecCPU g /\ 100 <= sg_MinIOPS g /\ 300 <= sg_RecIOPS g /\
  flt (sg_MinRAM g) (fdiv (f_of_Z 1) (f_of_Z 4)) = false /\ flt (sg_RecRAM g) fhalf = false /\
  flt (sg_MinDiskGB g) (f_of_Z 10) = false /\ flt (sg_RecDiskGB g) (f_of_Z 20) = false /\
  flt (sg_MinNetMBps g) (f_of_Z 1) = false /\ flt (sg_RecNetMBps g) (f_of_Z 5) = false.
Lemma int_at_least_ge (least : Z) (x k : float64) : least <= int_at_least least x k.
Proof. unfold int_at_least. cbv zeta. case_match; bools; lia. Qed.
Lemma float_at_least_ge (least x k : float64) : flt (float_at_least least x k) least = false.
Proof. unfold float_at_least. cbv zeta. case_match; [apply flt_irrefl|done]. Qed.
Lemma suggestions_sized (a b c d e : float64) : sized (computeSpecSuggestions a b c d e).
Proof. unfold sized. simpl. split_and!; (apply int_at_least_ge || apply float_at_least_ge). Qed.

(** C40. The numbers of a report.  Grouping in one pass is filtering per
    machine: the rows are partitioned by machine, the
    machines in the order they are first seen, each with all its rows in their
    order; the summary of a machine counts its rows, its extremes bound every
    row and are taken from one (a peak may be the initial 0), and its traffic
    is the sum of the counter increases, where a reset counts as the whole
    counter, modulo [2^64].  The fleet counts every row exactly once and never
    suggests less than the smallest machine. *)
Theorem summaries_account_for_rows (rows : list MetricRow) (period : string) :
  rows <> [] -> Forall numbers rows ->
  let servers := ComputePerServerSummaries rows period in
  let keys := first_seen (map server_key rows) in
  let groups := map (fun key => rows_of key rows) keys in
  servers = map (fun key => server_summary period key (rows_of key rows)) keys /\
  NoDup keys /\ List.concat groups ≡ₚ rows /\
  Forall2 (fun s g => g <> [] /\ describes (ss_Summary s) g /\ sized (sm_Suggested (ss_Summary s))) servers groups /\
  sm_RowCount (ComputeSummary rows period) = Z.of_nat (length rows) /\
  sm_FleetServerCount (ComputeSummary rows period) = Z.of_nat (length keys) /\
  sized (sm_Suggested (ComputeSummary rows period)).
Proof.
  intros Hne Hn servers keys groups. unfold servers. rewrite per_server_filters. fold keys.
  assert (Hgroup : forall key, key ∈ keys -> rows_of key rows <> [] /\ Forall numbers (rows_of key rows)).
  { intros key Hk. split; [|apply Forall_forall; intros r [_ Hr]%list_elem_of_filter; rewrite Forall_forall in Hn; by apply Hn]. apply first_seen_elem, list_elem_of_fmap in Hk as (r & -> & Hr).
    intros E. assert (Hin : r ∈ rows_of (server_key r) rows) by (by apply list_elem_of_filter). rewrite E in Hin. set_solver. }
  assert (Hsum : forall key g, g <> [] ->
    ss_Summary (server_summary period key g) = computeServerSummary g period) by (by intros key [|]).
  assert (Hsized : forall g, g <> [] -> sized (sm_Suggested (computeServerSummary g period)))
    by (intros [|]; [done|intros _; apply suggestions_sized]).
  assert (Hperm := groups_partition rows). fold keys in Hperm. fold groups in Hperm.
  assert (Hkeys : keys <> []).
  { destruct rows as [|r rest]; [done|]. intros Ek. assert (Hin : server_key r ∈ keys) by (apply first_seen_elem; set_solver).
    rewrite Ek in Hin. set_solver. }
  split_and!; [done|apply first_seen_nodup|done|..].
  - unfold groups. rewrite Forall2_fmap. apply Forall_Forall2_diag. apply Forall_forall. intros key Hk.
    destruct (Hgroup key Hk) as [Hg1 Hg2]. split; [done|]. rewrite Hsum by done.
    split; [by apply server_summary_describes|by apply Hsized].
  - unfold ComputeSummary. rewrite fleet_row_count, per_server_filters. fold keys. rewrite <- Hperm. unfold groups.
    clear Hkeys Hperm groups. revert Hgroup. generalize keys as ks. induction ks as [|k ks IH]; intros Hg; [done|].
    cbn [map List.concat]. rewrite zsum_cons, IH, length_app by (intros; apply Hg; set_solver).
    destruct (Hg k ltac:(set_solver)) as [Hk _]. rewrite Hsum by done.
    destruct (server_summary_describes (rows_of k rows) period Hk) as [-> _]; [by apply Hg; set_solver|lia].
  - unfold ComputeSummary. rewrite per_server_filters. fold keys. unfold AggregateFleetSummary. rewrite length_map.
    destruct keys as [|k1 [|k2 ks]]; done.
  - unfold ComputeSummary. rewrite per_server_filters. fold keys. unfold AggregateFleetSummary.
    destruct keys as [|k1 [|k2 ks]]; [done| |apply suggestions_sized]. cbn [map].
    destruct (Hgroup k1 ltac:(set_solver)) as [Hk _]. rewrite Hsum by done. cbn [sm_Suggested]. by apply Hsized.
Qed.

(** ** The spreadsheet *)

(** A cell a spreadsheet reads as text. *)
Definition plain_cell (s : string) : Prop :=
  match s with EmptyString => True | String c _ => mem_char c formula_chars = false end.
Lemma safe_cell_plain (s : string) : plain_cell (SpreadsheetSafeCell s).
Proof. unfold SpreadsheetSafeCell. destruct s as [|c s]; [done|]. by destruct (mem_char c formula_chars) eqn:E. Qed.
(** Neutralising is the only change, and it can be undone. *)
Lemma safe_cell_text (s : string) :
  SpreadsheetSafeCell s = s \/ SpreadsheetSafeCell s = String "'" s.
Proof. unfold SpreadsheetSafeCell. destruct s as [|c s]; [by left|]. destruct (mem_char c formula_chars); auto. Qed.

(** A complete document has no cursor; another names its last row. *)
Definition continues (rows : list MetricRow) (next : string) (complete : bool) : Prop :=
  (complete = true -> next = EmptyString) /\
  (complete = false -> Forall (fun m => 1 <= m_ID m) rows ->
   exists m, last rows = Some m /\ next = Itoa (Unix (m_Timestamp m)) +:+ ":" +:+ Itoa (m_ID m)).

Section exports.
Context `{Unicode} `{Net} `{OriginParser} `{Dialect} `{HubJSON} `{Collation}.
Context (trusted_proxies : string) (sha256hex : string -> string) (conv : Z -> Z).

(** What the endpoint may answer for a tenant: a record per exported row,
    below the totals of these rows. *)
Definition own_csv (q : read_query) (s : site) (tenant : string) (a : csv_reply) : Prop :=
  exists period stored,
    csv_Records a = summary_records (ComputeSummary (map (scan_metric conv) stored) period) ++ header_record ::
                    map (fun m => data_record SpreadsheetSafeCell (scan_metric conv m)) stored /\
    Z.of_nat (length stored) <= DefaultQueryLimit /\
    Forall (fun m => m ∈ d_metrics (i_rows (st_ingest s)) /\ m_TenantID m = tenant /\
                     (rq_server q <> EmptyString -> m_ServerID m = rq_server q) /\
                     Forall plain_cell (take 2 (drop 1 (data_record SpreadsheetSafeCell (scan_metric conv m))))) stored /\
    continues (map (scan_metric conv) stored) (csv_NextCursor a) (csv_Complete a).

Lemma last_map {A B} (f : A -> B) (l : list A) : last (map f l) = option_map f (last l).
Proof. induction l as [|x [|y l] IH]; [done..|]. exact IH. Qed.

Lemma continues_spec (rows : list MetricRow) (limit : Z) :
  let k := match last rows with Some r => row_key r | None => (0, 0) end in
  let next := if Z.of_nat (length rows) =? 0 then (EmptyString, true)
              else nextReadCursor k.1 k.2 (Z.of_nat (length rows)) limit in
  continues rows next.1 next.2.
Proof.
  unfold continues, nextReadCursor. destruct (last rows) as [r|] eqn:El.
  - destruct (Z.eqb_spec (Z.of_nat (length rows)) 0) as [E|_]; [by destruct rows|]. simpl.
    destruct (Z.of_nat (length rows) <? limit); simpl; [done|].
    destruct (Z.ltb_spec (m_ID r) 1); simpl; [|naive_solver]. split; [done|]. intros _ Hid.
    rewrite Forall_forall in Hid. apply last_Some_elem_of in El. apply Hid in El. lia.
  - apply last_None in El as ->. done.
Qed.

Lemma wp_handleExportCSV r q now s :
  hb_epoch (w_hub (st_world s)) <= t_epoch (w_auth (st_world s)) ->
  wp (handleExportCSV trusted_proxies sha256hex conv r q now) (scoped trusted_proxies sha256hex r now s (own_csv q s)) s.
Proof.
  intros He. apply wp_for_tenant; [done|]. intros tenant s1 Hs Hr.
  destruct (RequireTenant_fails tenant); [by apply scoped_refused|].
  destruct (parseReadPage _ _) as [page|] eqn:Ep; [|by apply scoped_refused].
  apply (wp_read_then _ _ _ _ _ _ _ _ (fun found : Z * (Z * Z) * list record =>
    let next := if found.1.1 =? 0 then (EmptyString, true)
                else nextReadCursor found.1.2.1 found.1.2.2 found.1.1 (pg_Limit page) in
    {| csv_Records := found.2; csv_Limit := pg_Limit page; csv_Complete := next.2; csv_NextCursor := next.1 |})
    _ _ _ tenant); [|done|done|].
  { intros [[n lastKey] records]. simpl. destruct (nextReadCursor _ _ _ _) as [next complete]. by destruct (n =? 0). }
  unfold WriteCSV, writeCSV. apply wp_mbind, wp_lift. unfold RequireTenant, guard. destruct (RequireTenant_fails tenant); [done|].
  apply wp_mbind. unfold wrap_err. apply wp_try. unfold exportView_QueryMetrics, queryMetricsPage.
  apply wp_mbind, wp_mbind, wp_lift. destruct (RequireTenant _) as [[]|]; [|by apply wp_fail].
  eapply wp_mono; [apply wp_QueryMetricsQ|]. intros [rows|] d [-> Hq]; [|by apply wp_fail].
  apply wp_ret, wp_ret, wp_ret. split; [done|]. intros ? [= <-].
  destruct (Hq rows eq_refl) as (_ & Hlen & stored & -> & Hin & Hsc). unfold own_csv. simpl.
  eexists _, stored. split; [|split; [|split]].
  - f_equal. f_equal. by rewrite map_map.
  - by rewrite length_map in Hlen.
  - rewrite Forall_forall in *. intros m Hm. destruct (Hsc m Hm) as (Ht & Hsv & _). split_and!; [auto..|].
    repeat constructor; apply safe_cell_plain.
  - exact (continues_spec (map (scan_metric conv) stored) (pg_Limit page)).
Qed.
Lemma handleExportCSV_worldly r q now :
  worldly (own_key sha256hex r) now (handleExportCSV trusted_proxies sha256hex conv r q now).
Proof. apply for_tenant_worldly. unfold on_rows. worldly. Qed.
End exports.

(** C9. The download of a tenant.  The CSV endpoint always answers; the request
    itself writes to no store, and all it leaves running is [TouchAPIKey] for
    the key in its header, the usage record of that key.  Its document is that
    of one tenant, the one the request is authenticated for (and of one machine, if asked): under the totals of
    exactly these rows a record per row, at most as many as the query limit,
    where the two cells whose text a machine chose never start like a formula.
    A document that is not complete names the cursor to go on from. *)
Theorem exports_are_scoped_and_inert `{Unicode} `{Net} `{OriginParser} `{Dialect} `{HubJSON} `{Collation}
    trusted_proxies sha256hex conv r q now s fs :
  hub_ok (st_world s) ->
  let '(res, s', _) := handleExportCSV trusted_proxies sha256hex conv r q now s fs in
  st_ingest s' = st_ingest s /\ w_auth (st_world s') = w_auth (st_world s) /\
  leaves (own_key sha256hex r) (st_world s) (st_world s') /\
  exists rp, res = Ok rp /\ forall a, hr_Result rp = Ok a ->
    exists tenant period stored, reads_as trusted_proxies sha256hex r now s tenant /\
      csv_Records a = summary_records (ComputeSummary (map (scan_metric conv) stored) period) ++ header_record ::
                      map (fun m => data_record SpreadsheetSafeCell (scan_metric conv m)) stored /\
      Z.of_nat (length stored) <= DefaultQueryLimit /\
      Forall (fun m => m ∈ d_metrics (i_rows (st_ingest s)) /\ m_TenantID m = tenant /\
                       (rq_server q <> EmptyString -> m_ServerID m = rq_server q) /\
                       Forall plain_cell (take 2 (drop 1 (data_record SpreadsheetSafeCell (scan_metric conv m))))) stored /\
      continues (map (scan_metric conv) stored) (csv_NextCursor a) (csv_Complete a).
Proof.
  intros [_ _ He]. pose proof (scoped_guarded trusted_proxies sha256hex r now s _ _
    (handleExportCSV_worldly trusted_proxies sha256hex conv r q now) (wp_handleExportCSV trusted_proxies sha256hex conv r q now s He) fs) as Hg.
  destruct (handleExportCSV _ _ _ _ _ _ s fs) as [[res s'] fs']. destruct Hg as (Hi & Ha & Hl & rp & Hr & Hp).
  split_and!; [done|done|done|]. exists rp. split; [done|]. intros a Hra. destruct (Hp a Hra) as (tenant & Hten & Hcsv).
  exists tenant. destruct Hcsv as (period & stored & Hcsv). by exists period, stored.
Qed.

(** ** Concrete inputs *)

Module SampleExport.
Definition at_load (ts : Z) (server : string) (cpu : Z) : MetricRow := metric_at (ts * second) "t_a" server (f_of_Z cpu).
Definition rows : list MetricRow := [at_load 1 "s1" 10; at_load 2 "s2" 90; at_load 3 "s1" 40].
Definition all_rows : read_query := {| rq_range := "30d"; rq_server := empty_str; rq_limit := empty_str; rq_cursor := empty_str |}.
Definition export : M site (hub_reply csv_reply) :=
  @handleExportCSV Sample.unicode Sample.net Sample.origins sqlite empty_str Sample.sha wrap_u64 Sample.get all_rows sample_time.
End SampleExport.

Lemma summaries_account_for_rows_witness :
  map ss_ServerID (ComputePerServerSummaries SampleExport.rows "p") = ["s1"; "s2"]%string /\
  map (fun s => sm_PeakCPU (ss_Summary s)) (ComputePerServerSummaries SampleExport.rows "p") = [f_of_Z 40; f_of_Z 90] /\
  sm_RowCount (ComputeSummary SampleExport.rows "p") = 3.
Proof.
  split; [vm_compute; reflexivity|]. split; [vm_compute; reflexivity|].
  destruct (summaries_account_for_rows SampleExport.rows "p") as (_ & _ & _ & _ & Hc & _).
  - discriminate.
  - repeat constructor; vm_compute; discriminate.
  - exact Hc.
Defined.

Lemma exports_are_scoped_and_inert_witness :
  (exists rp a, run_result SampleExport.export SampleHub.reading [] = Ok rp /\ hr_Result rp = Ok a /\
     length (csv_Records a) = 23%nat /\ csv_Complete a = true) /\
  st_ingest (run_state SampleExport.export SampleHub.reading []) = st_ingest SampleHub.reading.
Proof.
  split.
  - destruct (run_result SampleExport.export SampleHub.reading []) as [rp|] eqn:E; [|by vm_compute in E].
    vm_compute in E. injection E as <-. do 2 eexists. by split_and!.
  - assert (Hok : hub_ok (st_world SampleHub.reading)).
    { apply (started_until true true 0 _ empty_audit 0); [apply run_auth_ok|discriminate|discriminate]. }
    pose proof (@exports_are_scoped_and_inert Sample.unicode Sample.net Sample.origins sqlite SampleHub.json byte_collation
      empty_str Sample.sha wrap_u64 Sample.get SampleExport.all_rows sample_time SampleHub.reading [] Hok) as He.
    unfold run_state, SampleExport.export. destruct (handleExportCSV _ _ _ _ _ _ _ _) as [[res s'] fs'].
    by destruct He as (Hi & _).
Defined.
