(* ===== verification/Config.v ===== *)
(** * Configuration ([config.go], [config_trust_unix.go], [server_id_flag.go])

    The protected configuration file and the walk over its parents, the
    precedence of flags, environment and file, the checks of the resulting
    settings, and the arguments a service is installed with.

    The operating system is data: what [os.Lstat] and [os.Open] answer.  The
    environment is a map.  The model is that of the Unix build; the DACL check
    of the Windows build and the URL and DSN parsers are left to their
    libraries. *)

From S2P Require Export Transport.
Open Scope list_scope.
Open Scope Z_scope.

(** ** Paths ([path/filepath] on Unix) *)

Definition IsAbs (path : string) : bool := HasPrefix path "/".

Fixpoint join_slash (parts : list string) : string :=
  match parts with
  | [] => EmptyString
  | p :: parts => "/" +:+ p +:+ join_slash parts
  end.
(** The components of a rooted path, with dots resolved; the last component
    first. *)
Definition resolve_one (stack : list string) (part : string) : list string :=
  if is_empty part || String.eqb part "." then stack
  else if String.eqb part ".." then tail stack
  else part :: stack.
Definition resolve (parts : list string) : list string := rev (fold_left resolve_one parts []).
Definition rooted (parts : list string) : string :=
  match parts with [] => "/" | _ => join_slash parts end.
(** [filepath.Clean] and [filepath.Dir] of an absolute path. *)
Definition Clean (path : string) : string := rooted (resolve (Split path "/")).
Definition Dir (path : string) : string := rooted (resolve (removelast (Split path "/"))).

(** ** Protected files *)

Record FileInfo := {
  fi_Perm : Z;
  fi_Symlink : bool;
  fi_Dir : bool;
  fi_Sticky : bool;
  fi_Regular : bool;
  fi_Uid : option Z (* [None]: no [Stat_t] *);
  fi_Id : Z (* what [os.SameFile] compares *)
}.
Definition ErrNotExist : error := EMsg "file does not exist".

(** [os_Open]: the information and the content of the opened file. *)
Record files := {
  os_Lstat : string -> result error FileInfo;
  os_Open : string -> result error (result error FileInfo * result error string)
}.

Section protected.
Context (fs : files) (euid : Z).

(** One round of the walk in [checkConfigPermissions]. *)
Definition trusted_item (current : string) : result error unit :=
  match os_Lstat fs current with
  | Err e => Err e
  | Ok item =>
      if fi_Symlink item then Err (EMsg "symlink in protected config path")
      else
        let owned := match fi_Uid item with Some uid => (uid =? 0) || (uid =? euid) | None => false end in
        if negb owned then Err (EMsg "untrusted config owner")
        else if negb (Z.land (fi_Perm item) 18 =? 0) && (* 0022 *)
                negb (fi_Dir item && fi_Sticky item && bool_decide (fi_Uid item = Some 0))
        then Err (EMsg "config path is writable by another identity")
        else Ok tt
  end.
(** The loop up to the root; [None] is a loop that goes on. *)
Fixpoint walk_up (fuel : nat) (current : string) : option (result error unit) :=
  match fuel with
  | O => None
  | S fuel =>
      match trusted_item current with
      | Err e => Some (Err e)
      | Ok _ => if String.eqb (Dir current) current then Some (Ok tt) else walk_up fuel (Dir current)
      end
  end.
(** The length of the path is enough fuel: every round shortens it. *)
Definition checkConfigPermissions (path : string) (info : FileInfo) : option (result error unit) :=
  if negb (Z.land (fi_Perm info) 63 =? 0) (* 0077 *)
  then Some (Err (EMsg "config must not be accessible by group or other users"))
  else walk_up (S (String.length path)) path.

Definition readProtectedFile (path : string) (limit : Z) : option (result error string) :=
  if negb (IsAbs path) then Some (Err (EMsg "protected file path must be absolute"))
  else match os_Lstat fs path with
  | Err e => Some (Err e)
  | Ok info =>
      if negb (fi_Regular info) then Some (Err (EMsg "protected path must be a regular file"))
      else match checkConfigPermissions path info with
      | None => None
      | Some (Err e) => Some (Err e)
      | Some (Ok _) => Some
          match os_Open fs path with
          | Err e => Err e
          | Ok (Err _, _) => Err (EMsg "protected file changed during open")
          | Ok (Ok opened, content) =>
              if negb (fi_Id info =? fi_Id opened) then Err (EMsg "protected file changed during open")
              else match content with
                   | Err _ => Err (EMsg "protected file read failed or exceeded size limit")
                   | Ok body => if limit <? slen body
                                then Err (EMsg "protected file read failed or exceeded size limit") else Ok body
                   end
          end
      end
  end.
End protected.

(** ** The configuration file *)

Notation environment := (gmap string string).
Definition Getenv (env : environment) (key : string) : string := default EmptyString (env !! key).

Definition configLimit : Z := Z.shiftl 64 10.
(** [bufio.Scanner]: lines end in a newline, and in a carriage return before
    it; the empty rest after the last newline is no line. *)
Definition chomp (line : string) : string :=
  match string_rev line with
  | String c rest => if Ascii.eqb c (chr 13) then string_rev rest else line
  | EmptyString => line
  end.
Definition raw_lines (body : string) : list string :=
  let parts := Split body (chr 10) in
  match last parts with Some EmptyString => removelast parts | _ => parts end.

Definition quoted (v : string) : bool :=
  (2 <=? slen v) &&
  existsb (fun q => HasPrefix v (String q EmptyString) && HasSuffix v (String q EmptyString)) [chr 34; chr 39].
Definition unquote (v : string) : string := if quoted v then stake (String.length v - 2) (sdrop 1 v) else v.
Definition errConfigLine : error := EMsg "invalid config key or line".
Definition errConfigKey : error := EMsg "duplicate config key".
Definition errConfigLength : error := EMsg "config line exceeds limit".

(** One round of the scanner loop; a line of 64 KiB stops the scan. *)
Fixpoint config_lines (lines : list string) (values : environment) : result error environment :=
  match lines with
  | [] => Ok values
  | raw :: lines =>
      if configLimit <=? slen raw then Err errConfigLength
      else
        let line := TrimSpace (chomp raw) in
        if is_empty line || HasPrefix line "#" then config_lines lines values
        else
          let '(key, value, ok) := Cut line "=" in
          let key := TrimSpace key in
          let value := TrimSpace value in
          if negb ok || (negb (HasPrefix key "WMONITOR_") && negb (String.eqb key "PORT")) ||
             ContainsAny key blank_chars
          then Err errConfigLine
          else match values !! key with
               | Some _ => Err errConfigKey
               | None => config_lines lines (<[key := unquote value]> values)
               end
  end.

(** [os.Setenv] refuses a NUL. *)
Definition has_nul (s : string) : bool := string_exists (fun c => Ascii.eqb c (chr 0)) s.
Definition set_missing (acc : result error unit * environment) (kv : string * string) : result error unit * environment :=
  match acc with
  | (Err e, env) => (Err e, env)
  | (Ok _, env) =>
      match env !! kv.1 with
      | Some _ => (Ok tt, env)
      | None => if has_nul kv.1 || has_nul kv.2 then (Err (EMsg "config environment initialization failed"), env)
                else (Ok tt, <[kv.1 := kv.2]> env)
      end
  end.

Definition machineConfigEnvPath : string := "/etc/wmonitor/config.env".

(** [flagConfig] is the flag; the result is that of [loadConfigEnv] with the
    environment it leaves. *)
Definition loadConfigEnv `{MapRange} (fs : files) (euid : Z) (flagConfig : string) (env : environment)
  : option (result error unit * environment) :=
  let path := if is_empty flagConfig then Getenv env "WMONITOR_CONFIG" else flagConfig in
  let explicit := negb (is_empty path) in
  let path := if is_empty path then machineConfigEnvPath else path in
  if negb (IsAbs path) then Some (Err (EMsg "config path must be absolute"), env)
  else match readProtectedFile fs euid path configLimit with
  | None => None
  | Some (Err e) => Some
      (if negb explicit && Is e ErrNotExist then (Ok tt, env)
       else (Err (EMsg "protected configuration file could not be read safely"), env))
  | Some (Ok body) => Some
      match config_lines (raw_lines body) ∅ with
      | Err e => (Err e, env)
      | Ok values => fold_left set_missing (range values) (Ok tt, env)
      end
  end.

(** ** Settings *)

(** The flags the checks look at; durations in nanoseconds. *)
Record settings := {
  flagPort : string;
  flagAppPort : string;
  flagDB : string;
  flagDSN : string;
  flagDSNFile : string;
  flagAgentHub : string;
  flagAPIKey : string;
  flagHub : bool;
  flagExternalIface : string;
  flagSince : Z;
  flagTTL : Z;
  flagMaxUses : Z;
  flagEnrollCode : string;
  flagUserWindow : Z;
  flagRunFor : Z;
  flagExportFlt : string;
  flagTenant : string;
  explicitFlags : list string (* the names given on the command line *)
}.

(** [envOr]: the first of the variables that is set, unless the flag was
    given. *)
Definition envOr (s : settings) (env : environment) (name target : string) (names : list string) : string :=
  if existsb (String.eqb name) (explicitFlags s) then target
  else match List.find (fun key => negb (is_empty (Getenv env key))) names with
       | Some key => Getenv env key
       | None => target
       end.
Definition EnvDataDir : string := "WMONITOR_DATA_DIR".
(** [service] is [!service.Interactive() || *flagInstall]. *)
Definition applyEnvConfig (service : bool) (s : settings) (env : environment) : settings * environment :=
  let or_env := envOr s env in
  ({| flagPort := or_env "port" (flagPort s) ["WMONITOR_PORT"; "PORT"];
      flagAppPort := or_env "app-port" (flagAppPort s) ["WMONITOR_APP_PORT"; "WMONITOR_APP_PORTS"];
      flagDB := or_env "db" (flagDB s) ["WMONITOR_DB"];
      flagDSN := flagDSN s; flagDSNFile := flagDSNFile s;
      flagAgentHub := or_env "agent" (flagAgentHub s) ["WMONITOR_AGENT_HUB"];
      flagAPIKey := flagAPIKey s;
      flagHub := if existsb (String.eqb "hub") (explicitFlags s) then flagHub s
                 else String.eqb (Getenv env "WMONITOR_MODE") "hub" || String.eqb (Getenv env "WMONITOR_HUB") "true";
      flagExternalIface := or_env "external-iface" (flagExternalIface s) ["WMONITOR_EXTERNAL_IFACE"];
      flagSince := flagSince s; flagTTL := flagTTL s; flagMaxUses := flagMaxUses s;
      flagEnrollCode := or_env "enroll-code" (flagEnrollCode s) ["WMONITOR_ENROLL_CODE"];
      flagUserWindow := flagUserWindow s; flagRunFor := flagRunFor s; flagExportFlt := flagExportFlt s;
      flagTenant := flagTenant s; explicitFlags := explicitFlags s |}%string,
   if service && is_empty (Getenv env EnvDataDir) then <[EnvDataDir := "/var/lib/wmonitor"%string]> env else env).

Definition parseAppPorts (raw : string) : list Z :=
  if is_empty raw then []
  else omap (fun value => match ParseInt (TrimSpace value) with
                          | Some port => if (0 <? port) && (port <=? 65535) then Some port else None
                          | None => None
                          end) (Split raw ",").
Definition positiveEnvInt (env : environment) (key : string) : option Z :=
  match ParseInt (Getenv env key) with
  | Some v => if 0 <? v then Some v else None
  | None => None
  end.
Definition resolveMode (s : settings) : string :=
  if negb (is_empty (flagAgentHub s)) then "agent" else if flagHub s then "hub" else "standalone".
Definition resolveAPIKey (s : settings) (env : environment) : string :=
  if is_empty (flagAPIKey s) then Getenv env "WMONITOR_API_KEY" else flagAPIKey s.
Definition resolveEnrollCode (s : settings) (env : environment) : string :=
  if is_empty (flagEnrollCode s) then Getenv env "WMONITOR_ENROLL_CODE" else flagEnrollCode s.
Definition mask (value : string) : string := if is_empty value then "(not set)" else "(set)".
Definition exportTenant (s : settings) : string := if is_empty (flagTenant s) then LocalTenantID else flagTenant s.

(** *** The database *)

(** One destination of a DSN as [pgx.ParseConfig] resolves it; [pd_TLS] is
    the TLS configuration, with [InsecureSkipVerify] and [ServerName]. *)
Record pg_destination := { pd_Host : string; pd_TLS : option (bool * string) }.
(** The primary and the fallback destinations. *)
Class DSNParser := pgx_ParseConfig : string -> option (pg_destination * list pg_destination).

(** What [url.Parse] finds of the parts a hub origin must not have. *)
Record hub_origin := { ho_User : bool; ho_RawQuery : string; ho_Fragment : string; ho_Path : string }.
Class HubParser := url_parse_hub : string -> option hub_origin.

Section checks.
Context `{Unicode} `{URLParser} `{Net} `{DSNParser} `{HubParser}.

Definition trim_ip_brackets (s : string) : string :=
  let seps := ["["; "]"]%string in
  string_rev (trim_front (String.length s) seps (string_rev (trim_front (String.length s) seps s))).
Definition isLoopbackDSNHost (host : string) : bool :=
  String.eqb host "localhost" ||
  match net_ParseIP (trim_ip_brackets host) with Some ip => ip_IsLoopback ip | None => false end.
Definition local_destination (d : pg_destination) : bool := isLoopbackDSNHost (pd_Host d) || HasPrefix (pd_Host d) "/".
Definition verified_destination (d : pg_destination) : bool :=
  match pd_TLS d with Some (skip, name) => negb skip && negb (is_empty name) | None => false end.
Definition rejectInsecureRemotePostgres (dsn : string) : result error unit :=
  match pgx_ParseConfig dsn with
  | None => Err (EMsg "invalid PostgreSQL DSN")
  | Some (main, fallbacks) =>
      if negb (local_destination main) && negb (verified_destination main)
      then Err (EMsg "remote PostgreSQL requires verified TLS (sslmode=verify-full)")
      else if existsb (fun d => negb (local_destination d) && negb (verified_destination d)) fallbacks
      then Err (EMsg "insecure PostgreSQL fallback rejected")
      else Ok tt
  end.
(** [None] is a protected file whose check does not end. *)
Definition resolveDSN (fs : files) (euid : Z) (s : settings) (env : environment) : option (result error string) :=
  let found :=
    if existsb (String.eqb "dsn") (explicitFlags s) || negb (is_empty (flagDSN s)) then Some (Ok (flagDSN s))
    else if negb (is_empty (flagDSNFile s)) then
      match readProtectedFile fs euid (flagDSNFile s) configLimit with
      | None => None
      | Some (Err _) => Some (Err (EMsg "protected DSN file unavailable"))
      | Some (Ok body) => Some (Ok (TrimSpace body))
      end
    else Some (Ok (Getenv env "WMONITOR_DB_DSN")) in
  match found with
  | None => None
  | Some (Err e) => Some (Err e)
  | Some (Ok dsn) => Some
      (if is_empty dsn then Err (EMsg "PostgreSQL requires an explicit DSN")
       else let? _ := rejectInsecureRemotePostgres dsn in Ok dsn)
  end.

(** *** The checks *)

Definition one_of (v : string) (choices : list string) : bool := existsb (String.eqb v) choices.
Definition budget_keys : list string :=
  ["WMONITOR_DISK_BUDGET_BYTES"; "WMONITOR_DAILY_ROW_QUOTA"; "WMONITOR_DAILY_BYTE_QUOTA";
   "WMONITOR_AGENT_DAILY_ROW_QUOTA"; "WMONITOR_AGENT_DAILY_BYTE_QUOTA"]%string.
Definition bad_budget (env : environment) (key : string) : bool :=
  negb (is_empty (Getenv env key)) && negb (is_some (positiveEnvInt env key)).
Definition bad_port (raw : string) : bool :=
  match ParseInt raw with Some port => (port <? 1) || (65535 <? port) | None => true end.
Definition bad_hub_origin (raw : string) : bool :=
  match url_parse_hub raw with
  | None => true
  | Some u => ho_User u || negb (is_empty (ho_RawQuery u)) || negb (is_empty (ho_Fragment u)) ||
              (negb (is_empty (ho_Path u)) && negb (String.eqb (ho_Path u) "/"))
  end.
(** [embedded]: a default key or code was built in. *)
Definition validateConfig (fs : files) (euid : Z) (embedded : bool) (s : settings) (env : environment)
  : option (result error unit) :=
  let mode := Getenv env "WMONITOR_MODE" in
  let agent := negb (is_empty (flagAgentHub s)) in
  let checks :=
    let? _ := guard (negb (one_of mode [EmptyString; "hub"; "agent"; "standalone"]))
                (EMsg "WMONITOR_MODE must be hub, agent or standalone") in
    let? _ := guard (negb (one_of (Getenv env "WMONITOR_HUB") [EmptyString; "true"; "false"]))
                (EMsg "WMONITOR_HUB must be true or false") in
    let? _ := guard (flagHub s && agent) (EMsg "Hub and agent modes are mutually exclusive") in
    let? _ := guard (String.eqb mode "agent" && negb agent) (EMsg "agent mode requires a Hub destination") in
    let? _ := guard (negb (one_of (flagDB s) ["sqlite"; "postgres"])) (EMsg "database must be sqlite or postgres") in
    let? _ := guard (bad_port (flagPort s)) (EMsg "invalid HTTP port") in
    let? _ := guard (negb (is_empty (flagAppPort s)) &&
                     negb (length (parseAppPorts (flagAppPort s)) =? length (Split (flagAppPort s) ","))%nat)
                (EMsg "invalid application port list") in
    let? _ := guard ((flagRunFor s <? 0) || (flagSince s <=? 0) || (365 * 24 * hour <? flagSince s) ||
                     (flagUserWindow s <=? 0) || (24 * hour <? flagUserWindow s)) (EMsg "invalid duration range") in
    let? _ := guard ((flagTTL s <=? 0) || (flagMaxUses s <? 1)) (EMsg "invalid enrollment limits") in
    let? _ := guard (negb (one_of (flagExportFlt s) [EmptyString; "daily"; "weekly"; "monthly"]))
                (EMsg "invalid export filter") in
    let? _ := (if agent then
                 match RequireHTTPSHub (flagAgentHub s) with
                 | Some e => Err e
                 | None => guard (bad_hub_origin (flagAgentHub s))
                             (EMsg "Hub must be an origin without credentials, path, query or fragment")
                 end
               else Ok tt) in
    let? _ := guard embedded (EMsg "embedded credentials are not supported; provision protected config") in
    guard (existsb (bad_budget env) budget_keys) (EMsg "invalid positive resource budget") in
  match checks with
  | Err e => Some (Err e)
  | Ok _ =>
      if String.eqb (flagDB s) "postgres" && negb agent then
        match resolveDSN fs euid s env with
        | None => None
        | Some (Err e) => Some (Err e)
        | Some (Ok _) => Some (Ok tt)
        end
      else Some (Ok tt)
  end.
End checks.

(** ** The stable identity ([resolveServerID], [server_id_flag.go])

    [None] of the result is a [log.Fatal]; otherwise the identity and, when a
    new file is written, its content. *)
Definition server_id_char (c : ascii) : bool :=
  ((65 <=? code c) && (code c <=? 90)) || ((97 <=? code c) && (code c <=? 122)) || is_digit c ||
  Ascii.eqb c "_" || Ascii.eqb c "." || Ascii.eqb c "-".
Definition validServerID (s : string) : bool :=
  string_forall server_id_char s && (1 <=? slen s) && (slen s <=? 128).
Definition set_server_id (raw : string) : result error string :=
  if validServerID raw then Ok raw
  else Err (EMsg "server-id must contain 1-128 ASCII letters, digits, underscores, dots or hyphens").
(** [stored]: what is at [agent_id], its type and content; [generated] a new
    tenant id; [written]: every step of creating the file succeeds. *)
Definition resolveServerID (stored : result error (bool * result error string)) (explicit : string)
    (generated : option string) (written : bool) : option (string * option string) :=
  match stored with
  | Ok (regular, content) =>
      if negb regular then None
      else match content with
           | Err _ => None
           | Ok body =>
               let id := TrimSpace body in
               if negb (validServerID id) then None
               else if negb (is_empty explicit) && negb (String.eqb explicit id) then None
               else Some (id, None)
           end
  | Err e =>
      if negb (Is e ErrNotExist) then None
      else
        let id := if is_empty explicit
                  then match generated with
                       | None => None
                       | Some t => Some ("a_" +:+ (if HasPrefix t "t_" then sdrop 2 t else t))
                       end
                  else Some explicit in
        match id with
        | None => None
        | Some id => if written then Some (id, Some (id +:+ bytes [10]%N)) else None
        end
  end.

(** ** Service arguments *)

Definition secretServiceFlags : list string :=
  ["-api-key"; "--api-key"; "-dsn"; "--dsn"; "-enroll-code"; "--enroll-code"; "-alert-slack"; "--alert-slack";
   "-alert-webhook"; "--alert-webhook"]%string.
Definition is_secret (name : string) : bool := existsb (String.eqb name) secretServiceFlags.
Fixpoint safe_args (skip : bool) (args : list string) : list string :=
  match args with
  | [] => []
  | arg :: args =>
      if skip then safe_args false args
      else
        let '(name, _, equal) := Cut arg "=" in
        if String.eqb name "-install" || String.eqb name "--install" then safe_args false args
        else if is_secret name then safe_args (negb equal) args
        else arg :: safe_args false args
  end.
Definition serviceSafeArgs (args : list string) : list string := safe_args false args.
