(* ===== verification/ConfigProofs.v ===== *)
(** * Configuration: proofs

    The walk over the parents of a protected file ends and sees them all, the
    configuration file never overrides the environment, accepted settings are
    safe to start with, and no secret reaches the arguments of a service. *)

From S2P Require Export Config.
Open Scope list_scope.
Open Scope Z_scope.

(** ** Paths *)

Definition no_slash (s : string) : bool := string_forall (fun c => negb (Ascii.eqb c "/")) s.
(** A component [Clean] keeps. *)
Definition proper_part (s : string) : Prop :=
  s <> EmptyString /\ s <> "." /\ s <> ".." /\ no_slash s = true.

Lemma Split_app (a rest : string) : no_slash a = true -> Split (a +:+ String "/" rest) "/" = a :: Split rest "/".
Proof.
  induction a as [|c a IH]; intros Ha; [done|]. unfold no_slash in *. cbn [string_forall] in Ha. bools.
  rewrite append_cons. cbn [Split]. destruct (Ascii.eqb_spec c "/"); [done|]. by rewrite IH.
Qed.
Lemma Split_plain (a : string) : no_slash a = true -> Split a "/" = [a].
Proof.
  induction a as [|c a IH]; intros Ha; [done|]. unfold no_slash in *. cbn [string_forall Split] in *. bools.
  destruct (Ascii.eqb_spec c "/"); [done|]. by rewrite IH.
Qed.
Lemma Split_no_slash (s : string) : Forall (fun p => no_slash p = true) (Split s "/").
Proof.
  induction s as [|c s IH]; simpl; [by repeat constructor|]. destruct (Ascii.eqb_spec c "/") as [->|Hc].
  - by constructor.
  - destruct (Split s "/") as [|x l]; inversion IH; subst; constructor; try done;
      unfold no_slash; simpl; (destruct (Ascii.eqb_spec c "/"); [done|]); done.
Qed.
Lemma Split_nonempty (s : string) : Split s "/" <> [].
Proof. destruct s as [|c s]; simpl; [done|]. case_match; [done|]. by destruct (Split s "/"). Qed.

Fixpoint parts_length (parts : list string) : nat :=
  match parts with
  | [] => 0
  | p :: parts => S (String.length p) + parts_length parts
  end.
Lemma join_length (parts : list string) : String.length (join_slash parts) = parts_length parts.
Proof. induction parts as [|p parts IH]; [done|]. simpl join_slash. rewrite !length_append, IH. simpl. lia. Qed.
Lemma Split_length (s : string) : S (String.length s) = parts_length (Split s "/").
Proof.
  induction s as [|c s IH]; [done|]. simpl. case_match; simpl; [by rewrite <- IH|].
  destruct (Split s "/") as [|x l] eqn:E; [by apply Split_nonempty in E|]. simpl in *. lia.
Qed.

Lemma Split_join (parts : list string) : Forall (fun p => no_slash p = true) parts -> parts <> [] ->
  Split (join_slash parts) "/" = EmptyString :: parts.
Proof.
  intros Hp Hne. destruct parts as [|p parts]; [done|]. clear Hne. simpl join_slash.
  change ("/" +:+ p +:+ join_slash parts) with (String "/" (p +:+ join_slash parts)). simpl. f_equal.
  revert p Hp. induction parts as [|q parts IH]; intros p Hp; apply Forall_cons in Hp as [Hp Hps].
  - simpl. rewrite append_nil_r. by apply Split_plain.
  - simpl join_slash. change ("/" +:+ q +:+ join_slash parts) with (String "/" (q +:+ join_slash parts)).
    rewrite Split_app by done. f_equal. by apply IH.
Qed.

(** *** Resolution *)

Lemma resolve_proper (parts : list string) : Forall (fun p => no_slash p = true) parts -> forall stack,
  Forall proper_part stack -> Forall proper_part (fold_left resolve_one parts stack).
Proof.
  induction parts as [|p parts IH]; intros Hp stack Hs; [done|]. apply Forall_cons in Hp as [Hp Hps]. simpl.
  apply IH; [done|]. unfold resolve_one. destruct (is_empty p) eqn:Ee; [done|].
  destruct (String.eqb_spec p "."); [done|]. destruct (String.eqb_spec p ".."); simpl.
  - by destruct Hs.
  - constructor; [|done]. split_and!; [by destruct p|done..].
Qed.
Lemma resolve_id (parts : list string) : Forall proper_part parts -> resolve parts = parts.
Proof.
  intros Hp. unfold resolve. assert (Hf : forall stack, fold_left resolve_one parts stack = rev parts ++ stack).
  { induction Hp as [|p parts (He & Hd & Hdd & _) _ IH]; intros stack; [done|]. simpl.
    rewrite IH, <- app_assoc. unfold resolve_one. f_equal. destruct (is_empty p) eqn:Ee; [by destruct p|].
    destruct (String.eqb_spec p "."), (String.eqb_spec p ".."); done. }
  rewrite Hf, app_nil_r. apply rev_involutive.
Qed.
Lemma resolve_length (parts : list string) : (parts_length (resolve parts) <= parts_length parts)%nat.
Proof.
  unfold resolve. assert (Hr : forall l, parts_length (rev l) = parts_length l).
  { induction l as [|p l IH]; [done|]. simpl.
    assert (Ha : forall a b, parts_length (a ++ b) = (parts_length a + parts_length b)%nat)
      by (induction a as [|x a IHa]; intros b; simpl; [done|rewrite IHa; lia]).
    rewrite Ha, IH. simpl. lia. }
  rewrite Hr. assert (Hf : forall stack, (parts_length (fold_left resolve_one parts stack) <= parts_length stack + parts_length parts)%nat).
  { clear. induction parts as [|p parts IH]; intros stack; simpl; [lia|]. specialize (IH (resolve_one stack p)).
    assert ((parts_length (resolve_one stack p) <= parts_length stack + S (String.length p))%nat); [|lia].
    unfold resolve_one. destruct (is_empty p || _); [lia|]. destruct (String.eqb p ".."); [|simpl; lia].
    destruct stack; simpl; lia. }
  apply (Hf []).
Qed.

Lemma Split_abs (path : string) : IsAbs path = true -> exists parts, Split path "/" = EmptyString :: parts /\ parts <> [].
Proof.
  unfold IsAbs, HasPrefix. destruct path as [|c path]; [done|]. cbn [String.prefix].
  destruct (ascii_dec "/" c) as [<-|]; [|done]. intros _. exists (Split path "/"). split; [done|apply Split_nonempty].
Qed.

(** The parent of an absolute path, by components. *)
Definition parent_parts (path : string) : list string := resolve (removelast (Split path "/")).

Lemma parent_proper (path : string) : Forall proper_part (parent_parts path).
Proof.
  unfold parent_parts, resolve. apply Forall_rev, resolve_proper; [|done].
  pose proof (Split_no_slash path) as Hs. revert Hs. generalize (Split path "/") as l.
  induction l as [|x [|y l] IH]; intros Hs; [done|done|]. inversion Hs; subst. constructor; auto.
Qed.

Lemma Dir_rooted (parts : list string) : Forall proper_part parts -> Dir (rooted parts) = rooted (removelast parts).
Proof.
  intros Hp. destruct parts as [|p parts]; [reflexivity|]. unfold Dir, rooted at 2.
  rewrite Split_join; [|eapply Forall_impl; [done|]; by intros ? (_ & _ & _ & ?)|done].
  assert (Hr : resolve (removelast (EmptyString :: p :: parts)) = removelast (p :: parts)).
  { change (resolve (EmptyString :: removelast (p :: parts)) = removelast (p :: parts)).
    transitivity (resolve (removelast (p :: parts))); [done|]. apply resolve_id.
    revert Hp. generalize (p :: parts) as l. induction l as [|x [|y l] IH]; intros Hs; [done|done|].
    inversion Hs; subst. constructor; auto. }
  by rewrite Hr.
Qed.
Lemma rooted_inj (a b : list string) : Forall proper_part a -> Forall proper_part b -> rooted a = rooted b -> a = b.
Proof.
  intros Ha Hb E.
  assert (Hns : forall l, Forall proper_part l -> Forall (fun p => no_slash p = true) l)
    by (intros l Hl; eapply Forall_impl; [done|]; by intros ? (_ & _ & _ & ?)).
  assert (Hroot : forall p l, Forall proper_part (p :: l) -> rooted (p :: l) <> rooted []).
  { intros p l Hl Er. apply (f_equal (fun s => Split s "/")) in Er. unfold rooted in Er.
    rewrite Split_join in Er by (done || by apply Hns). simpl in Er. injection Er as -> _.
    apply Forall_cons in Hl as [(He & _) _]. done. }
  destruct a as [|x a], b as [|y b]; [done|by apply eq_sym, Hroot in E|by apply Hroot in E|].
  apply (f_equal (fun s => Split s "/")) in E. unfold rooted in E.
  rewrite !Split_join in E by (done || by apply Hns). by injection E as -> ->.
Qed.

(** ** The walk to the root *)

(** A directory and all its parents, from the inside out. *)
Fixpoint ups_rev (parts : list string) : list string :=
  rooted (rev parts) :: match parts with [] => [] | _ :: parts => ups_rev parts end.
Definition ups (parts : list string) : list string := ups_rev (rev parts).
(** What the walk from a path looks at. *)
Definition visited (path : string) : list string :=
  path :: if String.eqb (Dir path) path then [] else ups (parent_parts path).

Lemma ups_root (parts : list string) : last (ups parts) = Some "/"%string.
Proof.
  unfold ups. generalize (rev parts) as l. induction l as [|p l IH]; [done|].
  simpl ups_rev. destruct (ups_rev l) eqn:E; [by destruct l|exact IH].
Qed.
Lemma visited_root (path : string) : IsAbs path = true -> last (visited path) = Some "/"%string.
Proof.
  intros Ha. unfold visited. destruct (String.eqb_spec (Dir path) path) as [E|_].
  - destruct (parent_parts path) as [|p l] eqn:Ep.
    + simpl. rewrite <- E. change (Some (rooted (parent_parts path)) = Some "/"%string). by rewrite Ep.
    + exfalso. change (Dir path) with (rooted (parent_parts path)) in E. rewrite Ep in E.
      apply (f_equal (fun s => Dir s)) in E as E2. rewrite Dir_rooted in E2 by (rewrite <- Ep; apply parent_proper).
      change (Dir path) with (rooted (parent_parts path)) in E2. rewrite Ep in E2.
      apply rooted_inj in E2.
      * apply (f_equal length) in E2. rewrite removelast_firstn_len in E2. rewrite length_firstn in E2. simpl in E2. lia.
      * pose proof (parent_proper path) as Hp. rewrite Ep in Hp. clear -Hp. revert Hp. generalize (p :: l) as k.
        induction k as [|x [|y k] IH]; intros Hs; [done|done|]. inversion Hs; subst. constructor; auto.
      * rewrite <- Ep. apply parent_proper.
  - rewrite <- (ups_root (parent_parts path)). unfold ups. by destruct (ups_rev (rev (parent_parts path))) eqn:E;
      [destruct (rev (parent_parts path))|].
Qed.

Section walk.
Context (fs : files) (euid : Z).

Fixpoint check_all (paths : list string) : result error unit :=
  match paths with
  | [] => Ok tt
  | p :: paths => match trusted_item fs euid p with Err e => Err e | Ok _ => check_all paths end
  end.
Lemma check_all_ok (paths : list string) :
  check_all paths = Ok tt <-> Forall (fun p => trusted_item fs euid p = Ok tt) paths.
Proof.
  induction paths as [|p paths IH]; simpl; [done|]. rewrite Forall_cons, <- IH.
  destruct (trusted_item fs euid p) as [[]|]; [tauto|]. split; [done|]. by intros [? _].
Qed.

Lemma walk_ups (rparts : list string) : Forall proper_part rparts -> forall fuel, (length rparts < fuel)%nat ->
  walk_up fs euid fuel (rooted (rev rparts)) = Some (check_all (ups_rev rparts)).
Proof.
  induction rparts as [|p rparts IH]; intros Hp fuel Hf; destruct fuel as [|fuel]; try (simpl in Hf; lia); cbn [walk_up ups_rev check_all].
  - destruct (trusted_item fs euid (rooted (rev []))); done.
  - destruct (trusted_item fs euid _); [|done].
    assert (Hall : Forall proper_part (rev (p :: rparts))) by (by apply Forall_rev).
    rewrite Dir_rooted by done. simpl rev. rewrite removelast_last. apply Forall_cons in Hp as [Hp Hps].
    destruct (String.eqb_spec (rooted (rev rparts)) (rooted (rev rparts ++ [p]))) as [E|_].
    + apply rooted_inj in E; [|by apply Forall_rev|exact Hall]. apply (f_equal length) in E. rewrite length_app in E. simpl in E. lia.
    + apply IH; [done|]. simpl in Hf. lia.
Qed.

Lemma parent_shorter (path : string) : IsAbs path = true -> (length (parent_parts path) < String.length path)%nat.
Proof.
  intros Ha. destruct (Split_abs path Ha) as (parts & E & Hne). pose proof (Split_length path) as Hl. rewrite E in Hl.
  unfold parent_parts. rewrite E. destruct parts as [|x parts]; [done|]. clear Hne.
  change (removelast (EmptyString :: x :: parts)) with (EmptyString :: removelast (x :: parts)).
  change (resolve (EmptyString :: removelast (x :: parts))) with (resolve (removelast (x :: parts))).
  pose proof (resolve_length (removelast (x :: parts))) as Hr.
  assert (Hc : forall l, (length l <= parts_length l)%nat) by (induction l; simpl; lia).
  specialize (Hc (resolve (removelast (x :: parts)))).
  assert (Hd : (parts_length (removelast (x :: parts)) < parts_length (x :: parts))%nat).
  { clear. revert x. induction parts as [|y parts IH]; intros x; [simpl; lia|].
    specialize (IH y). change (removelast (x :: y :: parts)) with (x :: removelast (y :: parts)). simpl in *. lia. }
  cbn [parts_length String.length] in Hl, Hd. lia.
Qed.

Lemma walk_visits (path : string) (fuel : nat) : IsAbs path = true -> (String.length path < fuel)%nat ->
  walk_up fs euid fuel path = Some (check_all (visited path)).
Proof.
  intros Ha Hf. pose proof (parent_shorter path Ha) as Hs. destruct fuel as [|fuel]; [lia|].
  cbn [walk_up]. unfold visited. cbn [check_all]. destruct (trusted_item fs euid path); [|done].
  destruct (String.eqb (Dir path) path); [done|]. change (Dir path) with (rooted (parent_parts path)).
  rewrite <- (rev_involutive (parent_parts path)) at 1. unfold ups. apply walk_ups.
  - apply Forall_rev, parent_proper.
  - rewrite length_rev. lia.
Qed.
Lemma protected_read (path : string) (limit : Z) :
  exists r, readProtectedFile fs euid path limit = Some r /\
    forall body, r = Ok body ->
      slen body <= limit /\ IsAbs path = true /\ Forall (fun p => trusted_item fs euid p = Ok tt) (visited path) /\
      exists info, os_Lstat fs path = Ok info /\ fi_Regular info = true /\ Z.land (fi_Perm info) 63 = 0.
Proof.
  unfold readProtectedFile, checkConfigPermissions. destruct (IsAbs path) eqn:Ea; [|by eexists].
  simpl negb. cbv iota. destruct (os_Lstat fs path) as [info|e] eqn:El; [|by eexists].
  destruct (fi_Regular info) eqn:Er; [|by eexists]. simpl negb. cbv iota.
  destruct (Z.eqb_spec (Z.land (fi_Perm info) 63) 0); [|by eexists]. simpl negb. cbv iota. rewrite walk_visits by (done || lia).
  destruct (check_all (visited path)) as [[]|] eqn:Ec; [|by eexists]. eexists. split; [done|]. intros body Hb.
  apply check_all_ok in Ec. repeat (case_match; simplify_eq). bools. split_and!; [done..|by exists info].
Qed.

(** C38. The trust check of a configuration file terminates.  From an absolute
    path, whatever the file system answers, the loop over the parents ends
    within as many rounds as the path has bytes, at the root directory; it
    looks at the file and at every directory above it, and accepts
    exactly when all of them are trusted.  So reading a protected file always
    gives a result, and the content only of a file that passed. *)
Theorem trust_walk_terminates (path : string) (limit : Z) :
  (forall fuel, IsAbs path = true -> (String.length path < fuel)%nat ->
     walk_up fs euid fuel path = Some (check_all (visited path))) /\
  (IsAbs path = true -> last (visited path) = Some "/"%string) /\
  (check_all (visited path) = Ok tt <-> Forall (fun p => trusted_item fs euid p = Ok tt) (visited path)) /\
  exists r, readProtectedFile fs euid path limit = Some r /\
    forall body, r = Ok body ->
      slen body <= limit /\ IsAbs path = true /\ Forall (fun p => trusted_item fs euid p = Ok tt) (visited path) /\
      exists info, os_Lstat fs path = Ok info /\ fi_Regular info = true /\ Z.land (fi_Perm info) 63 = 0.
Proof.
  split; [intros fuel; apply walk_visits|]. split; [apply visited_root|]. split; [apply check_all_ok|apply protected_read].
Qed.
End walk.

(** ** Precedence *)

Section precedence.
Context `{MapRange}.

Lemma set_missing_keeps (l : list (string * string)) : forall acc k v,
  acc.2 !! k = Some v -> (fold_left set_missing l acc).2 !! k = Some v.
Proof.
  induction l as [|[k' v'] l IH]; intros [r env] k v Hk; [done|]. simpl. apply IH. simpl in *.
  destruct r as [[]|]; [|done]. destruct (env !! k') eqn:E; [done|].
  destruct (has_nul k' || has_nul v'); [done|]. simpl.
  rewrite lookup_insert_ne; [done|congruence].
Qed.
Lemma set_missing_adds (l : list (string * string)) : forall acc k v,
  (fold_left set_missing l acc).2 !! k = Some v -> acc.2 !! k = Some v \/ (k, v) ∈ l.
Proof.
  induction l as [|[k' v'] l IH]; intros [r env] k v Hk; [by left|]. simpl in Hk. apply IH in Hk as [Hk|]; [|right; set_solver].
  simpl in *. destruct r as [[]|]; [|by left]. destruct (env !! k'); [by left|].
  destruct (has_nul k' || has_nul v'); [by left|]. simpl in Hk.
  destruct (decide (k' = k)) as [->|]; [|left; by rewrite lookup_insert_ne in Hk].
  rewrite lookup_insert_eq in Hk. injection Hk as ->. right. set_solver.
Qed.
Lemma set_missing_ok (l : list (string * string)) : forall env env',
  NoDup (map fst l) -> fold_left set_missing l (Ok tt, env) = (Ok tt, env') ->
  forall k v, (k, v) ∈ l -> env !! k = None -> env' !! k = Some v.
Proof.
  assert (Herr : forall l e env, fold_left set_missing l (Err e, env) = (Err e, env)) by (induction l0; auto).
  induction l as [|[k' v'] l IH]; intros env env' Hn Hf k v Hin Hk; [set_solver|].
  cbn [map fst] in Hn. apply NoDup_cons in Hn as [Hk' Hn]. simpl in Hf.
  apply elem_of_cons in Hin as [[= -> ->]|Hin].
  - rewrite Hk in Hf. destruct (has_nul k' || has_nul v'); [by rewrite Herr in Hf|].
    pose proof (set_missing_keeps l (Ok tt, <[k' := v']> env) k' v') as Hkeep. rewrite Hf in Hkeep. apply Hkeep.
    apply lookup_insert_eq.
  - destruct (env !! k') eqn:E; [by apply (IH env)|].
    destruct (has_nul k' || has_nul v'); [by rewrite Herr in Hf|].
    apply (IH (<[k' := v']> env)); [done|done|done|]. rewrite lookup_insert_ne; [done|].
    intros ->. apply Hk'. apply list_elem_of_fmap. by exists (k, v).
Qed.

(** The names a configuration file may set. *)
Definition config_key (k : string) : Prop := HasPrefix k "WMONITOR_" = true \/ k = "PORT"%string.
Lemma config_lines_keys (lines : list string) : forall values values',
  config_lines lines values = Ok values' -> (forall k, is_Some (values !! k) -> config_key k) ->
  forall k, is_Some (values' !! k) -> config_key k.
Proof.
  induction lines as [|raw lines IH]; intros values values' Hc Hk; simpl in Hc; [by injection Hc as <-|].
  destruct (configLimit <=? slen raw); [done|]. destruct (_ || HasPrefix _ "#"); [by eapply IH|].
  destruct (Cut _ "=") as [[key value] ok]. destruct (_ || ContainsAny _ _) eqn:Eg; [done|].
  destruct (values !! TrimSpace key); [done|]. eapply IH; [done|]. intros k Hs.
  destruct (decide (TrimSpace key = k)) as [<-|]; [|rewrite lookup_insert_ne in Hs by done; auto].
  bools. unfold config_key. destruct (HasPrefix (TrimSpace key) "WMONITOR_"); [by left|]. right.
  destruct (String.eqb_spec (TrimSpace key) "PORT"); [done|]. naive_solver.
Qed.

(** Precedence of the configuration file.  Loading it always ends.  It
    never changes a variable that is set, sets none but [WMONITOR_] names and
    [PORT], and changes nothing at all unless the file was read from a path
    whose parents are all trusted.  When it succeeds the environment is
    exactly the old one completed with the values of the file; a name that
    appears twice, an unknown name or a line without value rejects the whole
    file. *)
Lemma config_completes_environment (fs : files) (euid : Z) (flag : string) (env : environment) :
  exists r env', loadConfigEnv fs euid flag env = Some (r, env') /\
    (forall k v, env !! k = Some v -> env' !! k = Some v) /\
    (forall k, env !! k = None -> is_Some (env' !! k) -> config_key k) /\
    (env' = env \/
     exists path body values, readProtectedFile fs euid path configLimit = Some (Ok body) /\
       Forall (fun p => trusted_item fs euid p = Ok tt) (visited path) /\
       config_lines (raw_lines body) ∅ = Ok values /\
       (r = Ok tt -> env' = env ∪ values)).
Proof.
  unfold loadConfigEnv. set (path := if is_empty (if is_empty flag then _ else _) then _ else _).
  assert (Hno : forall k, env !! k = None -> is_Some (env !! k) -> config_key k) by (intros k -> [? [=]]).
  destruct (negb (IsAbs path)); [eexists _, env; split_and!; [done|done|done|by left]|].
  destruct (protected_read fs euid path configLimit) as (r & Hr & Hbody). rewrite Hr.
  destruct r as [body|e].
  2: { destruct (negb _ && _); eexists _, env; split_and!; [done|done|done|by left|done|done|done|by left]. }
  destruct (Hbody body eq_refl) as (_ & _ & Htrust & _).
  destruct (config_lines (raw_lines body) ∅) as [values|e] eqn:Ec; [|eexists _, env; split_and!; [done|done|done|by left]].
  destruct (fold_left set_missing (range values) (Ok tt, env)) as [r env'] eqn:Ef.
  assert (Hrange : forall k v, (k, v) ∈ range values <-> values !! k = Some v).
  { intros k v. rewrite range_perm. apply elem_of_map_to_list. }
  pose proof (set_missing_keeps (range values) (Ok tt, env)) as Hkeep.
  pose proof (set_missing_adds (range values) (Ok tt, env)) as Hadd. rewrite Ef in Hkeep, Hadd. simpl in *.
  exists r, env'. split; [done|]. split; [done|]. split.
  { intros k Hk [v Hv]. destruct (Hadd k v Hv) as [?|Hin]; [congruence|]. apply Hrange in Hin.
    apply (config_lines_keys _ _ _ Ec); [intros ? [? Hl]; by rewrite lookup_empty in Hl|eauto]. }
  right. exists path, body, values. split_and!; [done..|]. intros ->. apply map_eq. intros k.
  destruct (env !! k) as [v|] eqn:Ek; [by rewrite (lookup_union_Some_l _ _ _ _ Ek), (Hkeep k v Ek)|].
  rewrite lookup_union_r by done. destruct (values !! k) as [v|] eqn:Ev.
  - apply (set_missing_ok _ _ _ ) with (k := k) (v := v) in Ef; [done| |by apply Hrange|done].
    rewrite range_perm. apply NoDup_fst_map_to_list.
  - destruct (env' !! k) as [v|] eqn:E'; [|done]. destruct (Hadd k v E') as [?|Hin]; [congruence|]. apply Hrange in Hin. congruence.
Qed.
End precedence.

(** ** Accepted settings *)

(** Settings that pass the checks: one mode, a port, and credentials that
    only travel to an encrypted or local destination. *)
Lemma accepted_settings `{Unicode} `{URLParser} `{Net} `{DSNParser} `{HubParser} fs euid embedded s env :
  validateConfig fs euid embedded s env = Some (Ok tt) ->
  (exists port, ParseInt (flagPort s) = Some port /\ 1 <= port <= 65535) /\
  (flagHub s = true -> flagAgentHub s = EmptyString) /\ embedded = false /\
  (flagAgentHub s <> EmptyString -> RequireHTTPSHub (flagAgentHub s) = None /\ bad_hub_origin (flagAgentHub s) = false) /\
  (flagDB s = "sqlite" \/ flagDB s = "postgres" /\
   (flagAgentHub s = EmptyString -> exists dsn main rest, resolveDSN fs euid s env = Some (Ok dsn) /\
      pgx_ParseConfig dsn = Some (main, rest) /\
      Forall (fun d => local_destination d = true \/ verified_destination d = true) (main :: rest))).
Proof.
  unfold validateConfig. intros Hv. destruct (result_bind _ _) as [[]|] eqn:Ec in Hv; [|done].
  apply result_bind_ok in Ec as (? & E1%guard_ok & Ec). apply result_bind_ok in Ec as (? & E2%guard_ok & Ec).
  apply result_bind_ok in Ec as (? & E3%guard_ok & Ec). apply result_bind_ok in Ec as (? & E4%guard_ok & Ec).
  apply result_bind_ok in Ec as (? & E5%guard_ok & Ec). apply result_bind_ok in Ec as (? & E6%guard_ok & Ec).
  apply result_bind_ok in Ec as (? & _ & Ec). apply result_bind_ok in Ec as (? & _ & Ec).
  apply result_bind_ok in Ec as (? & _ & Ec). apply result_bind_ok in Ec as (? & _ & Ec).
  apply result_bind_ok in Ec as (? & E7 & Ec). apply result_bind_ok in Ec as (? & E8%guard_ok & _).
  split_and!.
  - unfold bad_port in E6. destruct (ParseInt (flagPort s)) as [port|]; [|done]. bools. exists port. split; [done|lia].
  - intros Hh. rewrite Hh in E3. by destruct (flagAgentHub s).
  - done.
  - intros Ha. destruct (is_empty (flagAgentHub s)) eqn:Ee; [by destruct (flagAgentHub s)|]. cbn [negb] in E7.
    destruct (RequireHTTPSHub (flagAgentHub s)); [done|]. by apply guard_ok in E7.
  - unfold one_of in E5. bools. cbn [existsb] in E5. destruct (String.eqb_spec (flagDB s) "sqlite"); [by left|]. right.
    destruct (String.eqb_spec (flagDB s) "postgres") as [Ep|]; [|done]. split; [done|]. intros Ha.
    rewrite Ha in Hv. cbn [is_empty negb andb] in Hv.
    destruct (resolveDSN fs euid s env) as [[dsn|]|] eqn:Ed; [|done|done]. exists dsn.
    unfold resolveDSN in Ed. destruct (if existsb _ _ || _ then _ else _) as [[d|]|]; [|done|done].
    destruct (is_empty d); [done|]. injection Ed as Ed. apply result_bind_ok in Ed as ([] & Er & [= ->]).
    unfold rejectInsecureRemotePostgres in Er. destruct (pgx_ParseConfig dsn) as [[main rest]|]; [|done].
    exists main, rest. split; [done|]. split; [done|].
    destruct (negb (local_destination main) && _) eqn:Em; [done|]. destruct (existsb _ rest) eqn:Ex; [done|].
    constructor.
    + destruct (local_destination main), (verified_destination main); auto.
    + rewrite Forall_forall. intros d Hd. rewrite <- not_true_iff_false, List.existsb_exists in Ex.
      destruct (local_destination d) eqn:E1', (verified_destination d) eqn:E2'; auto.
      exfalso. apply Ex. exists d. rewrite E1', E2'. split; [by apply list_elem_of_In|done].
Qed.

(** ** Service arguments *)

(** [pre] is not waiting for the value of a secret flag. *)
Fixpoint awaits (skip : bool) (args : list string) : bool :=
  match args with
  | [] => skip
  | arg :: args =>
      if skip then awaits false args
      else let '(name, _, equal) := Cut arg "=" in
           if String.eqb name "-install" || String.eqb name "--install" then awaits false args
           else awaits (is_secret name && negb equal) args
  end.
Lemma safe_args_app (pre post : list string) : forall skip,
  safe_args skip (pre ++ post) = safe_args skip pre ++ safe_args (awaits skip pre) post.
Proof.
  induction pre as [|arg pre IH]; intros skip; [done|]. cbn [app safe_args awaits]. destruct skip; [apply IH|].
  destruct (Cut arg "=") as [[name v] equal]. destruct (_ || _); [apply IH|].
  destruct (is_secret name); [apply IH|]. cbn [andb app]. by rewrite IH.
Qed.

(** A secret given on the command line never reaches the arguments the
    service is installed with, as one word or as two. *)
Lemma service_args_hold_no_secret (pre post : list string) (flag secret : string) :
  awaits false pre = false -> is_secret flag = true ->
  serviceSafeArgs (pre ++ [flag; secret] ++ post) = serviceSafeArgs (pre ++ post) /\
  serviceSafeArgs (pre ++ [flag +:+ String "=" secret] ++ post) = serviceSafeArgs (pre ++ post).
Proof.
  unfold serviceSafeArgs. intros Ha Hs. rewrite !safe_args_app, Ha.
  assert (Hcut : forall v, Cut (flag +:+ String "=" v) "=" = (flag, v, true) /\ Cut flag "=" = (flag, EmptyString, false) /\
    (String.eqb flag "-install" || String.eqb flag "--install") = false).
  { intros v. unfold is_secret in Hs. apply existsb_exists in Hs as (f & Hin & ->%String.eqb_eq).
    repeat destruct Hin as [<-|Hin]; try done; repeat split. }
  destruct (Hcut secret) as (H1 & H2 & H3). cbn [app safe_args awaits].
  rewrite H1, H2, H3, Hs. done.
Qed.

(** ** Concrete inputs *)

Module SampleConfig.
Definition item (perm : Z) (dir : bool) : FileInfo :=
  {| fi_Perm := perm; fi_Symlink := false; fi_Dir := dir; fi_Sticky := false; fi_Regular := negb dir; fi_Uid := Some 0; fi_Id := 7 |}.
Definition body : string := "# hub" +:+ bytes [10]%N +:+ "WMONITOR_MODE=hub" +:+ bytes [10]%N +:+ "PORT = '9443'" +:+ bytes [13; 10]%N.
(** [/etc/wmonitor] is writable by its group if [open]. *)
Definition machine (open : bool) : files :=
  {| os_Lstat := fun p => if String.eqb p "/etc/wmonitor/config.env" then Ok (item 384 false) (* 0600 *)
                          else if String.eqb p "/etc/wmonitor" then Ok (item (if open then 504 else 493) true)
                          else if String.eqb p "/etc" || String.eqb p "/" then Ok (item 493 true) else Err ErrNotExist;
     os_Open := fun _ => Ok (Ok (item 384 false), Ok body) |}.
End SampleConfig.

Example config_loads :
  @loadConfigEnv canonical_range (SampleConfig.machine false) 0 EmptyString {[ "PORT" := "80"%string ]} =
  Some (Ok tt, <["WMONITOR_MODE" := "hub"%string]> {[ "PORT" := "80"%string ]}).
Proof. vm_compute. reflexivity. Qed.
Example config_of_open_directory :
  @loadConfigEnv canonical_range (SampleConfig.machine true) 0 EmptyString ∅ =
  Some (Err (EMsg "protected configuration file could not be read safely"), ∅).
Proof. vm_compute. reflexivity. Qed.
Example path_is_walked : visited "/etc//wmonitor/./config.env" = ["/etc//wmonitor/./config.env"; "/etc/wmonitor"; "/etc"; "/"]%string.
Proof. vm_compute. reflexivity. Qed.
Example ports_are_parsed : parseAppPorts "443, 8080,0,x,70000" = [443; 8080].
Proof. vm_compute. reflexivity. Qed.
