(* ===== verification/Fsroot.v ===== *)
(** * Production paths and the guards of the tests ([internal/fsroot/fsroot.go])

    Which paths hold a machine's credentials and data, the refusal to use them
    as fixtures, and the harness that checks that a test run left them alone.
    The model is that of the Unix build.  The file system is a map from paths;
    every call to it is a statement that may fail. *)

From S2P Require Export ConfigProofs.
Open Scope list_scope.
Open Scope Z_scope.

(** ** Paths *)

(** [filepath.Clean] of a relative path keeps the leading [..]. *)
Definition relative_one (stack : list string) (part : string) : list string :=
  if is_empty part || String.eqb part "." then stack
  else if String.eqb part ".." then
    match stack with
    | x :: stack' => if String.eqb x ".." then ".." :: stack else stack'
    | [] => [".."]
    end
  else part :: stack.
Definition CleanPath (path : string) : string :=
  if IsAbs path then Clean path
  else match rev (fold_left relative_one (Split path "/") []) with
       | [] => "."
       | parts => sdrop 1 (join_slash parts)
       end.
(** [filepath.Join] of two elements; the first empty ones are ignored. *)
Definition Join (a b : string) : string :=
  if is_empty a then (if is_empty b then EmptyString else CleanPath b) else CleanPath (a +:+ "/" +:+ b).

Definition EnvTestIsolation : string := "WMONITOR_TEST_ISOLATION".
Definition IsolationEnabled (env : environment) : bool := String.eqb (Getenv env EnvTestIsolation) "1".
(** [os.UserHomeDir] *)
Definition UserHomeDir (env : environment) : result error string :=
  let home := Getenv env "HOME" in
  if is_empty home then Err (EMsg "$HOME is not defined") else Ok home.
(** The registry [extraRoots]. *)
Definition Register (path : string) (extraRoots : list string) : list string :=
  if is_empty (TrimSpace path) then extraRoots else extraRoots ++ [path].

(** ** Production roots *)

Section paths.
(** [os.Getwd] and the registry. *)
Context (wd : option string) (extraRoots : list string).

(** [None] is an error of [filepath.Abs]. *)
Definition canon (path : string) : option string :=
  match (if IsAbs path then Some (CleanPath path) else match wd with Some dir => Some (Join dir path) | None => None end) with
  | Some abs => Some (CleanPath abs)
  | None => None
  end.

Fixpoint unique_from (seen : gset string) (paths : list string) : list string :=
  match paths with
  | [] => []
  | p :: rest =>
      if is_empty p then unique_from seen rest
      else
        let key := match canon p with Some c => c | None => p end in
        if bool_decide (key ∈ seen) then unique_from seen rest
        else p :: unique_from ({[key]} ∪ seen) rest
  end.
Definition uniquePaths (paths : list string) : list string := unique_from ∅ paths.

Definition WellKnownProductionRoots (env : environment) : list string :=
  uniquePaths
    (["/etc/wmonitor"; "/etc/sysmon"] ++
     match UserHomeDir env with
     | Ok home => [Join home ".local/share/sysmon"; Join home ".local/share/wmonitor"]
     | Err _ => []
     end ++
     ["/tmp/.local/share/sysmon"]).
Definition AllProductionRoots (env : environment) : list string :=
  uniquePaths (WellKnownProductionRoots env ++ extraRoots).
Definition sensitive_names : list string :=
  ["token.json"; "token.dat"; "config.env"; "agent_id"; "wmonitor.db"; "sysmon.db"].
Definition ProductionSensitiveFiles (env : environment) : list string :=
  uniquePaths (flat_map (fun root => map (Join root) sensitive_names) (AllProductionRoots env)).

Definition is_root_of (c root : string) : bool :=
  match canon root with
  | Some r => String.eqb c r || HasPrefix c (r +:+ "/")
  | None => false
  end.
Definition IsProductionPath (env : environment) (path : string) : bool :=
  match canon path with
  | Some c => existsb (is_root_of c) (AllProductionRoots env)
  | None => false
  end.
Definition errFixture : error := EMsg "refusing production path as a test fixture (V22)".
Definition RejectProductionPath (env : environment) (path : string) : option error :=
  if is_empty (TrimSpace path) then Some (EMsg "empty path is not a valid test fixture root")
  else if IsProductionPath env path then Some errFixture
  else None.
End paths.

(** ** The file system *)

Inductive inode :=
| RegularFile (data : string)
| Directory (size : Z)
| SymbolicLink (target : string).
#[export] Instance inode_eq_dec : EqDecision inode.
Proof. solve_decision. Defined.
Record machine := { mc_fs : gmap string inode; mc_env : environment }.
Definition on_fs (f : gmap string inode -> gmap string inode) (m : machine) : machine :=
  {| mc_fs := f (mc_fs m); mc_env := mc_env m |}.

Definition inode_size (n : inode) : Z :=
  match n with RegularFile d => slen d | Directory s => s | SymbolicLink t => slen t end.
Definition Lstat (path : string) : M machine inode :=
  statement (fun m => match mc_fs m !! path with Some n => Ok (n, m) | None => Err ErrNotExist end).
Definition Readlink (path : string) : M machine string :=
  statement (fun m => match mc_fs m !! path with
                      | Some (SymbolicLink t) => Ok (t, m)
                      | _ => Err (EMsg "invalid argument")
                      end).
(** What opening and reading a path gives; links are followed, at most 40 of
    them. *)
Fixpoint read_path (links : nat) (fs : gmap string inode) (path : string) : result error string :=
  match fs !! path with
  | None => Err ErrNotExist
  | Some (RegularFile data) => Ok data
  | Some (Directory _) => Err (EMsg "is a directory")
  | Some (SymbolicLink t) =>
      match links with
      | O => Err (EMsg "too many levels of symbolic links")
      | S links => read_path links fs (if IsAbs t then Clean t else Clean (Dir path +:+ "/" +:+ t))
      end
  end.
Definition max_links : nat := 40.
Definition labelled {S A : Type} (msg : string) (m : M S A) : M S A :=
  let* r := attempt m in match r with Ok a => ret a | Err e => fail (EWrap msg e) end.

(** ** Snapshots *)

Record FileState := {
  fst_Path : string;
  fst_Exists : bool;
  fst_IsDir : bool;
  fst_Size : Z;
  fst_SHA256 : string
}.

Section harness.
Context (sha256 : string -> string).
Context (wd : option string) (extraRoots : list string).

Definition HashFile (path : string) : M machine string :=
  let* data := statement (fun m => match read_path max_links (mc_fs m) path with
                                   | Ok d => Ok (d, m) | Err e => Err e end) in
  ret (sha256 data).

Definition snapshot_one (p : string) : M machine FileState :=
  let* r := attempt (Lstat p) in
  match r with
  | Err e =>
      if Is e ErrNotExist
      then ret {| fst_Path := p; fst_Exists := false; fst_IsDir := false; fst_Size := 0; fst_SHA256 := EmptyString |}
      else fail (EWrap "stat" e)
  | Ok n =>
      let st := Build_FileState p true (match n with Directory _ => true | _ => false end) (inode_size n) in
      match n with
      | SymbolicLink _ =>
          let* t := attempt (Readlink p) in
          ret (st (sha256 match t with Ok target => target | Err _ => EmptyString end))
      | Directory _ => ret (st EmptyString)
      | RegularFile _ => let* sum := HashFile p in ret (st sum)
      end
  end.
Fixpoint SnapshotFiles (paths : list string) : M machine (list FileState) :=
  match paths with
  | [] => ret []
  | p :: rest => let* st := snapshot_one p in let* out := SnapshotFiles rest in ret (st :: out)
  end.

Definition same_state (b a : FileState) : bool :=
  Bool.eqb (fst_Exists b) (fst_Exists a) && Bool.eqb (fst_IsDir b) (fst_IsDir a) &&
  (fst_Size b =? fst_Size a) && String.eqb (fst_SHA256 b) (fst_SHA256 a).
Definition errChanged : error := EMsg "path changed".
Definition VerifyUnchanged (before : list FileState) : M machine unit :=
  let* after := SnapshotFiles (map fst_Path before) in
  if negb (length after =? length before)%nat then fail (EMsg "snapshot length changed")
  else if forallb (fun ba => same_state ba.1 ba.2) (zip before after) then ret tt
  else fail errChanged.

(** ** The suite *)

Definition dir_inside (dir path : string) : bool := String.eqb path dir || HasPrefix path (dir +:+ "/").
Definition RemoveAll (dir : string) : M machine unit :=
  exec (fun m => (tt, on_fs (filter (fun kv => dir_inside dir kv.1 = false)) m)).
(** [os.MkdirTemp]; [name] is the name it chooses. *)
Definition MkdirTemp (name : string) : M machine unit :=
  statement (fun m => match mc_fs m !! name with
                      | Some _ => Err (EMsg "file exists")
                      | None => Ok (tt, on_fs <[name := Directory 4096]> m)
                      end).
Definition WriteFile (dir file data : string) : M machine unit :=
  statement (fun m => match mc_fs m !! dir with
                      | Some (Directory _) => Ok (tt, on_fs <[file := RegularFile data]> m)
                      | _ => Err ErrNotExist
                      end).
Definition reject_path (path : string) : M machine unit :=
  inspect (fun m => match RejectProductionPath wd extraRoots (mc_env m) path with
                    | Some e => fail e
                    | None => ret tt
                    end).
(** [if err := m; err != nil { RemoveAll(dir)...; return err }] *)
Definition or_clean {A : Type} (dirs : list string) (m : M machine A) : M machine A :=
  let* r := attempt m in
  match r with
  | Ok a => ret a
  | Err e => let* _ := fold_right (fun d k => let* _ := attempt (RemoveAll d) in k) (ret tt) dirs in fail e
  end.

(** [dir] is the name of the new directory, [payload] the text with the time. *)
Definition WriteExternalCanary (dir payload : string) : M machine (string * string * string) :=
  let* _ := MkdirTemp dir in
  let* prod := inspect (fun m => ret (IsProductionPath wd extraRoots (mc_env m) dir)) in
  if prod then
    let* _ := attempt (RemoveAll dir) in
    fail (EMsg "external canary directory is a production path")
  else
    let file := Join dir "canary.token" in
    let* _ := or_clean [dir] (WriteFile dir file payload) in
    let* sum := or_clean [dir] (HashFile file) in
    ret (dir, file, sum).

Record Suite := {
  su_Before : list FileState;
  su_CanaryDir : string;
  su_CanaryFile : string;
  su_CanarySum : string;
  su_FixtureRoot : string
}.
Definition BeginSuite (canary payload root : string) : M machine Suite :=
  let* _ := exec (fun m => (tt, {| mc_fs := mc_fs m; mc_env := <[EnvTestIsolation := "1"]> (mc_env m) |})) in
  let* before := labelled "snapshot production"
    (inspect (fun m => SnapshotFiles (ProductionSensitiveFiles wd extraRoots (mc_env m)))) in
  let* c := labelled "canary" (WriteExternalCanary canary payload) in
  let '(dir, file, sum) := c in
  let* _ := or_clean [dir] (MkdirTemp root) in
  let* _ := or_clean [dir; root] (reject_path root) in
  ret {| su_Before := before; su_CanaryDir := dir; su_CanaryFile := file; su_CanarySum := sum; su_FixtureRoot := root |}.

(** [None] is a nil suite.  The directories are removed whatever is found. *)
Definition finish_code (s : Suite) (code : Z) : M machine Z :=
  let* v := attempt (VerifyUnchanged (su_Before s)) in
  match v with
  | Err _ => ret 1
  | Ok _ =>
      let* got := attempt (HashFile (su_CanaryFile s)) in
      match got with
      | Err _ => ret 1
      | Ok sum => ret (if String.eqb sum (su_CanarySum s) then code else 1)
      end
  end.
Definition Finish (suite : option Suite) (code : Z) : M machine Z :=
  match suite with
  | None => ret 1
  | Some s =>
      let* code := finish_code s code in
      let* _ := attempt (RemoveAll (su_FixtureRoot s)) in
      let* _ := attempt (RemoveAll (su_CanaryDir s)) in
      ret code
  end.
End harness.
