(* ===== verification/FsrootProofs.v ===== *)
(** * Production paths and the guards of the tests: proofs

    A path is refused exactly when its components extend those of a production
    root, and a test run is reported as successful only if it left every
    production file as it was. *)

From S2P Require Export Fsroot.
Open Scope list_scope.
Open Scope Z_scope.

(** ** Containment of paths *)

Lemma prefix_spec (p s : string) : String.prefix p s = true <-> exists t, s = p +:+ t.
Proof.
  revert s. induction p as [|a p IH]; intros s.
  - destruct s as [|c s]; (split; [|done]); intros _; eauto.
  - destruct s as [|c s]; [split; [done|by intros [t [=]]]|]. cbn [String.prefix].
    destruct (ascii_dec a c) as [->|Hne].
    + rewrite IH. split; intros [t Ht]; exists t; [by rewrite Ht|by injection Ht].
    + split; [done|]. by intros [t [= ->]].
Qed.
Lemma Split_append (a b : string) : Split (a +:+ String "/" b) "/" = Split a "/" ++ Split b "/".
Proof.
  induction a as [|c a IH]; [done|]. rewrite append_cons. cbn [Split].
  destruct (Ascii.eqb_spec c "/"); [by rewrite IH|]. rewrite IH.
  pose proof (Split_nonempty a). by destruct (Split a "/").
Qed.

Lemma resolve_split_proper (parts : list string) :
  Forall (fun p => no_slash p = true) parts -> Forall proper_part (resolve parts).
Proof. intros Hp. unfold resolve. by apply Forall_rev, resolve_proper. Qed.
Lemma Clean_proper (path : string) : exists l, Forall proper_part l /\ Clean path = rooted l.
Proof. exists (resolve (Split path "/")). split; [|done]. apply resolve_split_proper, Split_no_slash. Qed.
Lemma Clean_rooted (l : list string) : Forall proper_part l -> Clean (rooted l) = rooted l.
Proof.
  intros Hl. unfold Clean. destruct l as [|p l]; [done|]. unfold rooted at 2.
  rewrite Split_join; [|eapply Forall_impl; [done|]; by intros ? (_ & _ & _ & ?)|done].
  change (resolve (EmptyString :: p :: l)) with (resolve (p :: l)). by rewrite resolve_id.
Qed.
Lemma IsAbs_rooted (l : list string) : IsAbs (rooted l) = true.
Proof. unfold IsAbs, HasPrefix. apply prefix_spec. destruct l as [|p l]; by eexists. Qed.
Lemma IsAbs_append (a b : string) : IsAbs a = true -> IsAbs (a +:+ b) = true.
Proof. unfold IsAbs, HasPrefix. rewrite !prefix_spec. intros [t ->]. exists (t +:+ b). by rewrite append_assoc. Qed.

Lemma proper_no_slash (l : list string) : Forall proper_part l -> Forall (fun p => no_slash p = true) l.
Proof. intros Hl. eapply Forall_impl; [exact Hl|]. by intros p (_ & _ & _ & ?). Qed.
Lemma join_slash_app (a b : list string) : join_slash (a ++ b) = join_slash a +:+ join_slash b.
Proof.
  induction a as [|p a IH]; [done|]. cbn [app join_slash]. by rewrite IH, <- !append_assoc.
Qed.

(** A rooted path lies below another when its components extend the other's;
    nothing lies below the root itself. *)
Definition below (r c : list string) : Prop := r `prefix_of` c /\ (r = [] -> c = []).
Lemma rooted_below (r c : list string) :
  Forall proper_part r -> Forall proper_part c ->
  (String.eqb (rooted c) (rooted r) || HasPrefix (rooted c) (rooted r +:+ "/")) = true <-> below r c.
Proof.
  intros Hr Hc. unfold HasPrefix. rewrite orb_true_iff, String.eqb_eq, prefix_spec. split.
  - intros [E|[t Ht]].
    + apply rooted_inj in E as ->; [|done..]. by split.
    + assert (Et : rooted c = rooted r +:+ String "/" t).
      { by rewrite Ht, append_assoc. }
      apply (f_equal (fun s => Split s "/")) in Et. rewrite Split_append in Et.
      destruct c as [|x c].
      { apply (f_equal (@length string)) in Et. rewrite length_app in Et. cbn in Et.
        pose proof (Split_nonempty t). destruct r as [|y r]; cbn [rooted] in Et.
        - cbn in Et. destruct (Split t "/"); simpl in Et; [done|lia].
        - rewrite Split_join in Et by (done || by apply proper_no_slash). destruct (Split t "/"); simpl in Et; [done|lia]. }
      unfold rooted at 1 in Et. rewrite Split_join in Et by (done || by apply proper_no_slash).
      destruct r as [|y r].
      { cbn in Et. injection Et as Ex _. apply Forall_cons in Hc as [(He & _) _]. by subst. }
      unfold rooted in Et. rewrite Split_join in Et by (done || by apply proper_no_slash).
      simpl in Et. injection Et as -> ->. split; [|done]. by exists (Split t "/").
  - intros [[k ->] Hroot]. destruct k as [|x k]; [rewrite app_nil_r; by left|]. right.
    destruct r as [|y r]; [discriminate (Hroot eq_refl)|]. unfold rooted. cbn [app].
    change (y :: r ++ x :: k) with ((y :: r) ++ x :: k). rewrite join_slash_app.
    exists (x +:+ join_slash k). by rewrite append_assoc.
Qed.

(** ** Roots *)

Section paths.
Context (wd : option string) (extraRoots : list string).
(** [os.Getwd] returns a rooted path. *)
Context (wd_abs : forall d, wd = Some d -> IsAbs d = true).

(** The components of a path, counted from the working directory when it is
    relative; [None] when there is none. *)
Definition components (path : string) : option (list string) :=
  if IsAbs path then Some (resolve (Split path "/"))
  else match wd with Some d => Some (resolve (Split d "/" ++ Split path "/")) | None => None end.

Lemma components_proper path c : components path = Some c -> Forall proper_part c.
Proof.
  unfold components. destruct (IsAbs path); [intros [= <-]; apply resolve_split_proper, Split_no_slash|].
  destruct wd; [|done]. intros [= <-]. apply resolve_split_proper, Forall_app_2; apply Split_no_slash.
Qed.
Lemma canon_components path : canon wd path = rooted <$> components path.
Proof.
  unfold canon, components.
  assert (Hcl : forall p, IsAbs p = true -> CleanPath (CleanPath p) = rooted (resolve (Split p "/"))).
  { intros p Hp. unfold CleanPath at 2. rewrite Hp. destruct (Clean_proper p) as (l & Hl & Ecl).
    unfold CleanPath. rewrite Ecl, IsAbs_rooted, Clean_rooted, <- Ecl by done. done. }
  destruct (IsAbs path) eqn:Ea; [by rewrite Hcl|]. destruct wd as [d|]; [|done]. simpl. f_equal.
  specialize (wd_abs d eq_refl). unfold Join. destruct d as [|x d]; [done|]. cbn [is_empty].
  rewrite Hcl by by apply IsAbs_append. change ("/" +:+ path) with (String "/" path). by rewrite Split_append.
Qed.

Lemma unique_subset paths : forall seen p, p ∈ unique_from wd seen paths -> p ∈ paths.
Proof.
  induction paths as [|q paths IH]; intros seen p Hp; [done|]. simpl in Hp. destruct (is_empty q).
  { constructor. by eapply IH. }
  case_bool_decide; [constructor; by eapply IH|]. apply elem_of_cons in Hp as [->|Hp]; [left|constructor; by eapply IH].
Qed.
(** The first of the paths with the same components is kept. *)
Lemma unique_keeps paths : forall seen p c,
  p ∈ paths -> p <> EmptyString -> canon wd p = Some c ->
  c ∈ seen \/ exists p', p' ∈ unique_from wd seen paths /\ canon wd p' = Some c.
Proof.
  induction paths as [|q paths IH]; intros seen p c Hp Hne Hc; [by apply not_elem_of_nil in Hp|]. simpl.
  apply elem_of_cons in Hp as [<-|Hp].
  - destruct (is_empty p) eqn:E; [by destruct p|]. rewrite Hc. case_bool_decide; [by left|]. right. exists p. split; [left|done].
  - destruct (is_empty q); [by eapply IH|]. case_bool_decide as Hs; [by eapply IH|].
    destruct (IH ({[match canon wd q with Some c => c | None => q end]} ∪ seen) p c Hp Hne Hc) as [Hin|(p' & Hp' & Hc')].
    + apply elem_of_union in Hin as [->%elem_of_singleton|Hin]; [|by left].
      right. exists q. split; [left|]. destruct (canon wd q) as [cq|] eqn:Eq; [done|].
      (* a path without components is relative, a canonical one is not *)
      exfalso. rewrite canon_components in Eq, Hc. destruct (components p) as [l|]; [|done]. injection Hc as <-.
      revert Eq. unfold components. by rewrite IsAbs_rooted.
    + right. exists p'. split; [by right|done].
Qed.
Lemma uniquePaths_keeps paths p c :
  p ∈ paths -> p <> EmptyString -> canon wd p = Some c -> exists p', p' ∈ uniquePaths wd paths /\ canon wd p' = Some c.
Proof. intros Hp Hne Hc. by destruct (unique_keeps paths ∅ p c Hp Hne Hc) as [?%not_elem_of_empty|?]. Qed.

Lemma unique_nonempty paths : forall seen p, p ∈ unique_from wd seen paths -> p <> EmptyString.
Proof.
  induction paths as [|q paths IH]; intros seen p Hp; [by apply not_elem_of_nil in Hp|]. simpl in Hp.
  destruct (is_empty q) eqn:E; [by eapply IH|]. case_bool_decide; [by eapply IH|].
  apply elem_of_cons in Hp as [->|Hp]; [by destruct q|by eapply IH].
Qed.

(** The directories of the machine, of the user's home, and the registered
    ones. *)
Definition production_roots (env : environment) : list string :=
  ["/etc/wmonitor"; "/etc/sysmon"] ++
  match UserHomeDir env with
  | Ok home => [Join home ".local/share/sysmon"; Join home ".local/share/wmonitor"]
  | Err _ => []
  end ++ ["/tmp/.local/share/sysmon"] ++ extraRoots.
Lemma roots_sound env root : root ∈ AllProductionRoots wd extraRoots env -> root ∈ production_roots env /\ root <> EmptyString.
Proof.
  intros Hin. split; [|by eapply unique_nonempty]. apply unique_subset in Hin.
  unfold production_roots, WellKnownProductionRoots in *.
  rewrite !elem_of_app in *. destruct Hin as [Hin|?]; [|by auto]. apply unique_subset in Hin.
  rewrite !elem_of_app in Hin. naive_solver.
Qed.
Lemma roots_complete env root c : root ∈ production_roots env -> root <> EmptyString -> canon wd root = Some c ->
  exists root', root' ∈ AllProductionRoots wd extraRoots env /\ canon wd root' = Some c.
Proof.
  intros Hin Hne Hc.
  assert (exists p, p ∈ WellKnownProductionRoots wd env ++ extraRoots /\ p <> EmptyString /\ canon wd p = Some c)
    as (p & Hp & Hpe & Hpc); [|by eapply uniquePaths_keeps].
  unfold production_roots in Hin. rewrite !app_assoc, elem_of_app in Hin. destruct Hin as [Hin|Hin].
  - rewrite <- app_assoc in Hin. destruct (uniquePaths_keeps _ _ _ Hin Hne Hc) as (p & Hp & Hpc). exists p.
    split; [apply elem_of_app; by left|]. split; [by eapply unique_nonempty|done].
  - exists root. split; [apply elem_of_app; by right|done].
Qed.

(** What counts as a production path.  A path is refused as a fixture
    exactly when its components, counted from the working directory when it is
    relative and with dots resolved, are those of a production root or extend
    them: never because two names merely start alike, and however the path is
    spelled. *)
Lemma production_paths_exact (env : environment) (path : string) :
  IsProductionPath wd extraRoots env path = true <->
  exists c root r, components path = Some c /\ root ∈ production_roots env /\ root <> EmptyString /\
    components root = Some r /\ below r c.
Proof.
  unfold IsProductionPath. rewrite canon_components.
  destruct (components path) as [c|] eqn:Ec; simpl; [|split; [done|by intros (? & ? & ? & ? & _)]].
  assert (Hone : forall root r, components root = Some r -> is_root_of wd (rooted c) root = true <-> below r c).
  { intros root r Er. unfold is_root_of. rewrite canon_components, Er. simpl.
    apply rooted_below; by eapply components_proper. }
  rewrite existsb_exists. split.
  - intros (root & Hin & Hroot). apply list_elem_of_In, roots_sound in Hin as [Hin Hne].
    destruct (components root) as [r|] eqn:Er; [|unfold is_root_of in Hroot; by rewrite canon_components, Er in Hroot].
    exists c, root, r. split_and!; [done..|]. by apply (Hone root).
  - intros (c' & root & r & [= <-] & Hin & Hne & Er & Hb).
    assert (Hc : canon wd root = Some (rooted r)) by by rewrite canon_components, Er.
    destruct (roots_complete env root _ Hin Hne Hc) as (root' & Hin' & Hc'). exists root'. split; [by apply list_elem_of_In|].
    unfold is_root_of. rewrite Hc'. apply rooted_below; [by eapply components_proper..|done].
Qed.
End paths.

(** ** Snapshots *)

Section harness.
Context (sha256 : string -> string).
Context (wd : option string) (extraRoots : list string).

Definition is_directory (n : inode) : bool := match n with Directory _ => true | _ => false end.
(** What a snapshot shows of a path, also when a link could not be read. *)
Definition describes (st : FileState) (o : option inode) : Prop :=
  fst_Exists st = is_some o /\
  match o with
  | None => fst_SHA256 st = EmptyString
  | Some n => fst_IsDir st = is_directory n /\ fst_Size st = inode_size n /\
      match n with RegularFile d => fst_SHA256 st = sha256 d | _ => True end
  end.
(** Two states of a path no snapshot tells apart: a file with the same digest
    and size, a directory of the same size, a link of the same length. *)
Definition untouched (a b : option inode) : Prop :=
  match a, b with
  | None, None => True
  | Some n, Some n' =>
      is_directory n = is_directory n' /\ inode_size n = inode_size n' /\
      match n, n' with RegularFile d, RegularFile d' => sha256 d = sha256 d' | _, _ => True end
  | _, _ => False
  end.
Lemma same_state_untouched st st' a b : describes st a -> describes st' b -> same_state st st' = true -> untouched a b.
Proof.
  unfold same_state. intros [Ha Hda] [Hb Hdb] Hs. bools. rewrite Bool.eqb_true_iff in *. unfold untouched.
  destruct a as [n|], b as [n'|]; simpl in *; try congruence; [|done].
  destruct Hda as (Hd1 & Hs1 & Hx1), Hdb as (Hd2 & Hs2 & Hx2). split_and!; [congruence..|].
  destruct n, n'; try done. congruence.
Qed.

Lemma wp_Lstat p (Q : result error inode -> machine -> Prop) m :
  (forall d, Q (Err (EDb d)) m) -> (mc_fs m !! p = None -> Q (Err ErrNotExist) m) ->
  (forall n, mc_fs m !! p = Some n -> Q (Ok n) m) -> wp (Lstat p) Q m.
Proof. intros Hd Hn Ho fs. unfold Lstat, statement. destruct (mc_fs m !! p); destruct fs as [|[[]|] fs]; auto. Qed.
Lemma wp_HashFile p m :
  wp (HashFile sha256 p) (fun r m' => m' = m /\ forall sum, r = Ok sum ->
    exists d, read_path max_links (mc_fs m) p = Ok d /\ sum = sha256 d) m.
Proof.
  apply wp_mbind, wp_statement; [done|]. intros d m'. destruct (read_path _ _ _) as [d'|]; [|done].
  intros [= -> <-]. split; [|done]. apply wp_ret. split; [done|]. intros ? [= <-]. by exists d.
Qed.
Definition one_shot (p : string) (m : machine) (r : result error FileState) (m' : machine) : Prop :=
  m' = m /\ forall st, r = Ok st -> fst_Path st = p /\ describes st (mc_fs m !! p).
Lemma wp_snapshot_one p m : wp (snapshot_one sha256 p) (one_shot p m) m.
Proof.
  unfold snapshot_one. apply wp_try, wp_Lstat.
  - intros d. simpl. apply wp_fail. by split.
  - intros Hn. simpl. apply wp_ret. split; [done|]. rewrite Hn. by intros ? [= <-].
  - intros n Hn. cbv zeta. destruct n.
    + apply wp_mbind. eapply wp_mono; [apply wp_HashFile|]. intros [sum|e] m' [-> Hr]; [|by split].
      apply wp_ret. split; [done|]. rewrite Hn. intros ? [= <-].
      destruct (Hr sum eq_refl) as (d & Hd & ->). unfold max_links in Hd. simpl in Hd. rewrite Hn in Hd. by injection Hd as ->.
    + apply wp_ret. split; [done|]. rewrite Hn. by intros ? [= <-].
    + apply wp_try, wp_statement.
      * intros e. apply wp_ret. split; [done|]. rewrite Hn. by intros ? [= <-].
      * intros t m'. rewrite Hn. intros [= <- <-].
        split; intros; apply wp_ret; (split; [done|]); rewrite Hn; by intros ? [= <-].
Qed.
Definition shot (paths : list string) (m : machine) (r : result error (list FileState)) (m' : machine) : Prop :=
  m' = m /\ forall sts, r = Ok sts -> Forall2 (fun p st => fst_Path st = p /\ describes st (mc_fs m !! p)) paths sts.
Lemma wp_SnapshotFiles paths m : wp (SnapshotFiles sha256 paths) (shot paths m) m.
Proof.
  induction paths as [|p paths IH]; simpl; [apply wp_ret; split; [done|by intros ? [= <-]]|].
  apply wp_mbind. eapply wp_mono; [apply wp_snapshot_one|]. intros [st|e] m' [-> Hst]; [|by split].
  apply wp_mbind. eapply wp_mono; [exact IH|]. intros [sts|e] m' [-> Hsts]; [|by split].
  apply wp_ret. split; [done|]. intros ? [= <-]. constructor; auto.
Qed.

(** A verification that succeeds, with whatever failures. *)
Lemma wp_VerifyUnchanged before m :
  wp (VerifyUnchanged sha256 before) (fun r m' => m' = m /\ (is_ok r = true ->
    Forall (fun st => exists st', describes st' (mc_fs m !! fst_Path st) /\ same_state st st' = true) before)) m.
Proof.
  unfold VerifyUnchanged. apply wp_mbind. eapply wp_mono; [apply wp_SnapshotFiles|].
  intros [after|e] m' [-> Hs]; [|by split]. specialize (Hs after eq_refl).
  destruct (negb _); [by apply wp_fail|].
  destruct (forallb _ _) eqn:E; [|by apply wp_fail]. apply wp_ret. split; [done|]. intros _.
  revert after Hs E. induction before as [|st before IH]; intros after Hs E; [done|].
  simpl in Hs. apply Forall2_cons_inv_l in Hs as (st' & after' & [_ Hd] & Hs & ->). simpl in E. bools.
  constructor; [by exists st'|by eapply IH].
Qed.

(** *** Without failures *)

Definition state_of (p : string) (o : option inode) : FileState :=
  match o with
  | None => {| fst_Path := p; fst_Exists := false; fst_IsDir := false; fst_Size := 0; fst_SHA256 := EmptyString |}
  | Some n => {| fst_Path := p; fst_Exists := true; fst_IsDir := is_directory n; fst_Size := inode_size n;
                 fst_SHA256 := match n with RegularFile d => sha256 d | Directory _ => EmptyString | SymbolicLink t => sha256 t end |}
  end.
Lemma snapshot_nofault paths m :
  SnapshotFiles sha256 paths m [] = (Ok (map (fun p => state_of p (mc_fs m !! p)) paths), m, []).
Proof.
  induction paths as [|p paths IH]; [done|]. simpl.
  assert (Hone : snapshot_one sha256 p m [] = (Ok (state_of p (mc_fs m !! p)), m, [])).
  { unfold snapshot_one, mbind, attempt, Lstat, statement, Readlink, HashFile.
    destruct (mc_fs m !! p) as [[]|] eqn:E; unfold ret, mbind, statement, max_links; simpl; rewrite ?E; done. }
  unfold mbind. by rewrite Hone, IH.
Qed.
Lemma same_state_refl st : same_state st st = true.
Proof. unfold same_state. by rewrite !Bool.eqb_reflx, Z.eqb_refl, String.eqb_refl. Qed.
Lemma verify_nofault paths m m' :
  (forall p, p ∈ paths -> mc_fs m' !! p = mc_fs m !! p) ->
  VerifyUnchanged sha256 (map (fun p => state_of p (mc_fs m !! p)) paths) m' [] = (Ok tt, m', []).
Proof.
  intros Hsame. unfold VerifyUnchanged, mbind. rewrite snapshot_nofault, map_map.
  assert (Hm : map (fun x => state_of (fst_Path (state_of x (mc_fs m !! x))) (mc_fs m' !! fst_Path (state_of x (mc_fs m !! x)))) paths =
               map (fun p => state_of p (mc_fs m !! p)) paths).
  { apply map_ext_in. intros p Hp. assert (fst_Path (state_of p (mc_fs m !! p)) = p) as -> by (unfold state_of; by case_match).
    by rewrite Hsame by by apply list_elem_of_In. }
  rewrite map_map, Hm, Nat.eqb_refl. simpl.
  assert (forallb (fun ba => same_state ba.1 ba.2)
    (zip (map (fun p => state_of p (mc_fs m !! p)) paths) (map (fun p => state_of p (mc_fs m !! p)) paths)) = true) as ->; [|done].
  generalize (map (fun p => state_of p (mc_fs m !! p)) paths) as l. induction l as [|st l IH]; [done|].
  cbn [zip zip_with forallb]. by rewrite same_state_refl, IH.
Qed.

(** ** The suite *)

(** Everything outside the two directories is as before. *)
Definition outside (dirs : list string) (m m' : machine) : Prop :=
  mc_env m' = mc_env m /\ forall p, Forall (fun d => dir_inside d p = false) dirs -> mc_fs m' !! p = mc_fs m !! p.
Lemma outside_refl dirs m : outside dirs m m.
Proof. by split. Qed.
Lemma outside_trans dirs m m1 m2 : outside dirs m m1 -> outside dirs m1 m2 -> outside dirs m m2.
Proof. intros [E1 F1] [E2 F2]. split; [congruence|]. intros p Hp. by rewrite F2, F1. Qed.
Lemma dir_inside_self d : dir_inside d d = true.
Proof. unfold dir_inside. by rewrite String.eqb_refl. Qed.

Definition confined {A} (dirs : list string) (m : M machine A) : Prop := forall s, wp m (fun _ s' => outside dirs s s') s.
Lemma confined_mbind {A B} dirs (m : M machine A) (k : A -> M machine B) :
  confined dirs m -> (forall a, confined dirs (k a)) -> confined dirs (mbind m k).
Proof.
  intros Hm Hk s. apply wp_mbind. eapply wp_mono; [apply Hm|]. intros [a|e] s1 H1; [|done].
  eapply wp_mono; [apply Hk|]. intros r s2 H2. by eapply outside_trans.
Qed.
Lemma confined_attempt {A} dirs (m : M machine A) : confined dirs m -> confined dirs (attempt m).
Proof. intros Hm s. apply wp_attempt. apply Hm. Qed.
Lemma confined_ret {A} dirs (a : A) : confined dirs (ret a).
Proof. intros s. apply wp_ret, outside_refl. Qed.
Lemma confined_fail {A} dirs e : confined (A := A) dirs (fail e).
Proof. intros s. apply wp_fail, outside_refl. Qed.
Lemma confined_RemoveAll dirs d : d ∈ dirs -> confined dirs (RemoveAll d).
Proof.
  intros Hd s. assert (Ho : outside dirs s (on_fs (filter (fun kv => dir_inside d kv.1 = false)) s)).
  { split; [done|]. intros p Hp. rewrite Forall_forall in Hp. specialize (Hp d Hd). simpl.
    destruct (mc_fs s !! p) eqn:E; [by apply map_lookup_filter_Some|]. apply map_lookup_filter_None. by left. }
  by apply wp_exec; intros; [apply outside_refl|..].
Qed.
Lemma confined_insert dirs d (f : machine -> result error (unit * machine)) :
  (forall s s', f s = Ok (tt, s') -> exists p n, s' = on_fs <[p := n]> s /\ dir_inside d p = true) -> d ∈ dirs ->
  confined dirs (statement f).
Proof.
  intros Hf Hd s. apply wp_statement; [intros; apply outside_refl|]. intros [] s' Hs.
  destruct (Hf _ _ Hs) as (p & n & -> & Hp). assert (Ho : outside dirs s (on_fs <[p:=n]> s)); [|done].
  split; [done|]. intros q Hq. simpl. apply lookup_insert_ne. intros ->. rewrite Forall_forall in Hq.
  specialize (Hq d Hd). congruence.
Qed.
Lemma confined_HashFile dirs p : confined dirs (HashFile sha256 p).
Proof. intros s. eapply wp_mono; [apply wp_HashFile|]. intros r s' [-> _]. apply outside_refl. Qed.
Lemma confined_or_clean {A} dirs ds (m : M machine A) : ds ⊆ dirs -> confined dirs m -> confined dirs (or_clean ds m).
Proof.
  intros Hds Hm. apply confined_mbind; [by apply confined_attempt|]. intros [a|e]; [apply confined_ret|].
  apply confined_mbind; [|intros; apply confined_fail]. clear -Hds. induction ds as [|d ds IH]; simpl; [apply confined_ret|].
  apply confined_mbind; [apply confined_attempt, confined_RemoveAll; set_solver|intros; apply IH; set_solver].
Qed.

(** The file the canary is kept in lies in its directory. *)
Definition clean_dir (d : string) : Prop := exists l, l <> [] /\ Forall proper_part l /\ d = rooted l.
Lemma canary_inside d : clean_dir d -> dir_inside d (Join d "canary.token") = true.
Proof.
  intros (l & Hne & Hl & ->). destruct l as [|p l]; [done|].
  assert (Ht : Forall proper_part ((p :: l) ++ ["canary.token"]))
    by (apply Forall_app_2; [done|]; constructor; [by split_and!|done]).
  assert (Ej : Join (rooted (p :: l)) "canary.token" = rooted ((p :: l) ++ ["canary.token"])).
  { unfold Join. change (is_empty (rooted (p :: l))) with false. cbv iota.
    assert (Ha : rooted (p :: l) +:+ "/" +:+ "canary.token" = rooted ((p :: l) ++ ["canary.token"])).
    { unfold rooted. cbn [app]. change (p :: l ++ ["canary.token"]) with ((p :: l) ++ ["canary.token"]). by rewrite join_slash_app. }
    rewrite Ha. unfold CleanPath. rewrite IsAbs_rooted. by apply Clean_rooted. }
  unfold dir_inside. rewrite Ej. apply rooted_below; [done|done|]. split; [by eexists|done].
Qed.

(** What is claimed of a computation only when it succeeds. *)
Definition on_ok {A} (Q : A -> machine -> Prop) (r : result error A) (m : machine) : Prop :=
  match r with Ok a => Q a m | Err _ => True end.
Lemma wp_ok_mbind {A B} (m : M machine A) (k : A -> M machine B) Q s :
  wp m (on_ok (fun a s' => wp (k a) (on_ok Q) s')) s -> wp (mbind m k) (on_ok Q) s.
Proof. intros Hm. apply wp_mbind. eapply wp_mono; [exact Hm|]. by intros [a|e] s'. Qed.
Lemma wp_always {A} (m : M machine A) (Q : result error A -> machine -> Prop) s : (forall r s', Q r s') -> wp m Q s.
Proof. intros HQ fs. by destruct (m s fs) as [[r s'] fs']. Qed.
Lemma wp_ok_or_clean {A} ds (m : M machine A) Q s : wp m (on_ok Q) s -> wp (or_clean ds m) (on_ok Q) s.
Proof.
  intros Hm. apply wp_try. eapply wp_mono; [exact Hm|]. intros [a|e] s' HQ; [by apply wp_ret|].
  apply wp_ok_mbind, wp_always. intros [a|e'] s2; [by apply wp_fail|done].
Qed.
Lemma wp_ok_labelled {A} msg (m : M machine A) Q s : wp m (on_ok Q) s -> wp (labelled msg m) (on_ok Q) s.
Proof. intros Hm. apply wp_try. eapply wp_mono; [exact Hm|]. intros [a|e] s' HQ; [by apply wp_ret|by apply wp_fail]. Qed.

Lemma wp_WriteExternalCanary canary payload m :
  wp (WriteExternalCanary sha256 wd extraRoots canary payload)
    (on_ok (fun c m' => c = (canary, Join canary "canary.token", sha256 payload) /\ mc_env m' = mc_env m /\
                        IsProductionPath wd extraRoots (mc_env m) canary = false)) m.
Proof.
  unfold WriteExternalCanary. apply wp_ok_mbind, wp_statement; [done|]. intros [] m1 E1. split; [|done].
  destruct (mc_fs m !! canary); [done|]. injection E1 as <-. simpl. apply wp_ok_mbind, wp_inspect, wp_ret. simpl.
  destruct (IsProductionPath _ _ _ _) eqn:Ep; [apply wp_ok_mbind, wp_always; intros [|] ?; [by apply wp_fail|done]|].
  apply wp_ok_mbind, wp_ok_or_clean, wp_statement; [done|]. intros [] m2 E2. split; [|done].
  destruct (mc_fs _ !! canary) as [[]|]; try done. injection E2 as <-. simpl.
  apply wp_ok_mbind, wp_ok_or_clean. eapply wp_mono; [apply wp_HashFile|]. intros [sum|e] m3 [-> Hs]; [|done]. simpl.
  apply wp_ret. simpl. split; [|done]. destruct (Hs sum eq_refl) as (d & Hd & ->).
  unfold max_links in Hd. cbn in Hd. rewrite lookup_insert in Hd. case_decide; [|done]. by injection Hd as ->.
Qed.

(** What a suite holds when it could be begun in [m0]. *)
Definition isolated (m0 : machine) : machine :=
  {| mc_fs := mc_fs m0; mc_env := <[EnvTestIsolation := "1"]> (mc_env m0) |}.
Record begun (canary payload root : string) (m0 : machine) (s : Suite) (m1 : machine) : Prop := {
  bg_env : mc_env m1 = mc_env (isolated m0);
  bg_before : Forall2 (fun p st => fst_Path st = p /\ describes st (mc_fs m0 !! p))
    (ProductionSensitiveFiles wd extraRoots (mc_env m1)) (su_Before s);
  bg_canary : su_CanaryDir s = canary /\ su_CanaryFile s = Join canary "canary.token" /\ su_CanarySum s = sha256 payload;
  bg_canary_ok : IsProductionPath wd extraRoots (mc_env m1) canary = false;
  bg_root : su_FixtureRoot s = root /\ RejectProductionPath wd extraRoots (mc_env m1) root = None
}.
Lemma wp_BeginSuite canary payload root m0 :
  wp (BeginSuite sha256 wd extraRoots canary payload root) (on_ok (begun canary payload root m0)) m0.
Proof.
  unfold BeginSuite. apply wp_ok_mbind, wp_exec; [done| |done]. simpl. fold (isolated m0).
  apply wp_ok_mbind, wp_ok_labelled, wp_inspect. eapply wp_mono; [apply wp_SnapshotFiles|].
  intros [before|e] m' [-> Hb]; [|done]. specialize (Hb before eq_refl). simpl.
  apply wp_ok_mbind, wp_ok_labelled. eapply wp_mono; [apply wp_WriteExternalCanary|].
  intros [[[dir file] sum]|e] m1; [|done]. intros (E & Eenv & Hprod). injection E as -> -> ->. simpl.
  apply wp_ok_mbind, wp_ok_or_clean, wp_statement; [done|]. intros [] m2 E2. split; [|done].
  destruct (mc_fs m1 !! root); [done|]. injection E2 as <-. simpl.
  apply wp_ok_mbind, wp_ok_or_clean, wp_inspect. simpl. rewrite Eenv.
  destruct (RejectProductionPath _ _ _ _) eqn:Er; [by apply wp_fail|]. apply wp_ret. simpl. apply wp_ret. simpl.
  by split; simpl; rewrite ?Eenv.
Qed.
Lemma BeginSuite_before canary payload root m0 s m1 fs1 :
  BeginSuite sha256 wd extraRoots canary payload root m0 [] = (Ok s, m1, fs1) ->
  su_Before s = map (fun p => state_of p (mc_fs m0 !! p)) (ProductionSensitiveFiles wd extraRoots (mc_env m1)).
Proof.
  intros E. pose proof (wp_run _ _ _ _ _ _ _ (wp_BeginSuite canary payload root m0) E) as [Henv _ _ _ _].
  rewrite Henv. unfold BeginSuite in E.
  assert (Hset : forall (k : unit -> M machine Suite), mbind (exec (fun m => (tt, isolated m))) k m0 [] = k tt (isolated m0) [])
    by reflexivity.
  rewrite (Hset _) in E. clear Hset. erewrite mbind_eq in E by
    (unfold labelled, mbind, attempt, inspect; rewrite snapshot_nofault; reflexivity).
  revert E. set (before := map _ _). intros E. change (on_ok (fun s _ => su_Before s = before) (Ok s) m1).
  eapply wp_run; [|exact E]. apply wp_ok_mbind, wp_always. intros [[[dir file] sum]|e] s1; [|done]. simpl.
  apply wp_ok_mbind, wp_always. intros [|] s2; [|done]. apply wp_ok_mbind, wp_always. intros [|] s3; [|done].
  by apply wp_ret.
Qed.
Lemma confined_mbind_ok {A B} dirs (P : A -> Prop) (m : M machine A) (k : A -> M machine B) :
  confined dirs m -> (forall s, wp m (on_ok (fun a _ => P a)) s) -> (forall a, P a -> confined dirs (k a)) -> confined dirs (mbind m k).
Proof.
  intros Hm HP Hk s. apply wp_mbind. eapply wp_mono; [apply wp_conjoin; [apply Hm|apply HP]|].
  intros [a|e] s1 [H1 Ha]; [|done]. eapply wp_mono; [by apply Hk|]. intros r s2 H2. by eapply outside_trans.
Qed.
Lemma confined_MkdirTemp dirs d : d ∈ dirs -> confined dirs (MkdirTemp d).
Proof.
  intros Hd. apply (confined_insert _ d); [|done]. intros s s'. destruct (mc_fs s !! d); [done|]. intros [= <-].
  exists d, (Directory 4096). split; [done|apply dir_inside_self].
Qed.
Lemma confined_labelled {A} dirs msg (m : M machine A) : confined dirs m -> confined dirs (labelled msg m).
Proof.
  intros Hm. apply confined_mbind; [by apply confined_attempt|]. intros [a|e]; [apply confined_ret|apply confined_fail].
Qed.
Lemma confined_canary dirs canary payload : clean_dir canary -> canary ∈ dirs ->
  confined dirs (WriteExternalCanary sha256 wd extraRoots canary payload).
Proof.
  intros Hclean Hd. apply confined_mbind; [by apply confined_MkdirTemp|]. intros [].
  apply confined_mbind; [intros s; apply wp_inspect, wp_ret, outside_refl|]. intros [].
  - apply confined_mbind; [by apply confined_attempt, confined_RemoveAll|]. intros _. apply confined_fail.
  - apply confined_mbind; [apply confined_or_clean; [set_solver|]|intros _].
    + apply (confined_insert _ canary); [|done]. intros s s'. destruct (mc_fs s !! canary) as [[]|]; try done.
      intros [= <-]. eexists _, _. split; [done|]. by apply canary_inside.
    + apply confined_mbind; [apply confined_or_clean; [set_solver|apply confined_HashFile]|]. intros sum. apply confined_ret.
Qed.
Lemma BeginSuite_confined canary payload root m0 fs0 r m1 fs1 : clean_dir canary ->
  BeginSuite sha256 wd extraRoots canary payload root m0 fs0 = (r, m1, fs1) ->
  forall p, dir_inside canary p = false -> dir_inside root p = false -> mc_fs m1 !! p = mc_fs m0 !! p.
Proof.
  intros Hclean E p Hc Hr. set (Q := fun (_ : result error Suite) m1 => mc_fs m1 !! p = mc_fs m0 !! p).
  change (Q r m1). eapply (wp_run _ Q); [|exact E]. unfold BeginSuite. apply wp_mbind, wp_exec; [done| |done]. simpl.
  fold (isolated m0). eapply wp_mono with (Q := fun _ s' => outside [canary; root] (isolated m0) s').
  2: { intros r' s' [_ Ho]. apply Ho. by repeat constructor. }
  assert (Hrest : forall m : M machine Suite, confined [canary; root] m -> wp m (fun _ s' => outside [canary; root] (isolated m0) s') (isolated m0))
    by (intros m Hm; apply Hm).
  apply Hrest. clear Hrest. apply confined_mbind; [|intros before].
  { apply confined_labelled. intros s. apply wp_inspect. eapply wp_mono; [apply wp_SnapshotFiles|].
    intros ? ? [-> _]. apply outside_refl. }
  apply (confined_mbind_ok _ (fun c => c.1.1 = canary)).
  - apply confined_labelled, confined_canary; [done|set_solver].
  - intros s. apply wp_ok_labelled. eapply wp_mono; [apply wp_WriteExternalCanary|]. intros [c|e] s' Hcan; [by destruct Hcan as (-> & _)|done].
  - intros [[dir file] sum]. simpl. intros ->.
    apply confined_mbind; [|intros _; apply confined_mbind; [|intros _; apply confined_ret]].
    + apply confined_or_clean; [set_solver|]. apply confined_MkdirTemp. set_solver.
    + apply confined_or_clean; [set_solver|]. intros s. apply wp_inspect.
      destruct (RejectProductionPath _ _ _ _); [apply wp_fail|apply wp_ret]; apply outside_refl.
Qed.

(** *** The end of a suite *)

Definition canary_intact (s : Suite) (m : machine) : Prop :=
  exists d, read_path max_links (mc_fs m) (su_CanaryFile s) = Ok d /\ sha256 d = su_CanarySum s.
Definition verified (s : Suite) (m : machine) : Prop :=
  Forall (fun st => exists st', describes st' (mc_fs m !! fst_Path st) /\ same_state st st' = true) (su_Before s).
Lemma wp_finish_code s code m :
  wp (finish_code sha256 s code) (fun r m' => m' = m /\ exists c, r = Ok c /\
    (c = 1 \/ c = code /\ verified s m /\ canary_intact s m)) m.
Proof.
  unfold finish_code. apply wp_try. eapply wp_mono; [apply wp_VerifyUnchanged|]. intros [[]|e] m' [-> Hv].
  - apply wp_try. eapply wp_mono; [apply wp_HashFile|]. intros [sum|e] m' [-> Hs]; apply wp_ret; (split; [done|]); eexists; (split; [done|]).
    + destruct (String.eqb_spec sum (su_CanarySum s)) as [E|]; [right|by left]. split; [done|]. split; [by apply Hv|].
      destruct (Hs sum eq_refl) as (d & Hd & Hsum). exists d. split; [done|congruence].
    + by left.
  - apply wp_ret. split; [done|]. exists 1. split; [done|by left].
Qed.
Lemma finish_code_nofault s code m paths m0 :
  su_Before s = map (fun p => state_of p (mc_fs m0 !! p)) paths ->
  (forall p, p ∈ paths -> mc_fs m !! p = mc_fs m0 !! p) -> canary_intact s m ->
  finish_code sha256 s code m [] = (Ok code, m, []).
Proof.
  intros Hb Hsame (d & Hd & Hsum). unfold finish_code, mbind, attempt. rewrite Hb, verify_nofault by done.
  unfold HashFile, mbind, statement, ret. rewrite Hd, Hsum, String.eqb_refl. done.
Qed.
Lemma wp_Finish s code m :
  wp (Finish sha256 (Some s) code) (fun r m' => exists c, r = Ok c /\ (c = 1 \/ c = code /\ verified s m /\ canary_intact s m)) m.
Proof.
  unfold Finish. apply wp_mbind. eapply wp_mono; [apply wp_finish_code|]. intros r m' (-> & c & -> & Hc).
  apply wp_try, wp_always. intros _ m2. apply wp_try, wp_always. intros _ m3. apply wp_ret. by exists c.
Qed.
Lemma verified_untouched s m0 m paths :
  Forall2 (fun p st => fst_Path st = p /\ describes st (mc_fs m0 !! p)) paths (su_Before s) -> verified s m ->
  forall p, p ∈ paths -> untouched (mc_fs m0 !! p) (mc_fs m !! p).
Proof.
  intros Hb Hv p Hp. unfold verified in Hv. induction Hb as [|q st l k [Hq Hd] _ IH]; [by apply not_elem_of_nil in Hp|].
  apply Forall_cons in Hv as [(st' & Hd' & Hsame) Hv]. apply elem_of_cons in Hp as [->|Hp]; [|by apply IH].
  rewrite Hq in Hd'. by eapply same_state_untouched.
Qed.

(** A test run cannot pass over damage.  A suite that could be begun has
    switched isolation on, has its directories outside the production paths and
    has changed nothing outside them.  Whatever the tests then do and whatever
    call fails, the suite ends with an exit code, and that code is the tests'
    own only if every production file is as it was found (same existence and
    kind, same size, same digest) and the canary still has its content.
    Conversely, when no call fails and nothing was touched, the tests' code is
    returned. *)
Lemma suite_guards_production (canary payload root : string) (m0 m1 : machine) (fs0 fs1 : faults) (s : Suite) :
  clean_dir canary ->
  BeginSuite sha256 wd extraRoots canary payload root m0 fs0 = (Ok s, m1, fs1) ->
  let files := ProductionSensitiveFiles wd extraRoots (mc_env m1) in
  IsolationEnabled (mc_env m1) = true /\
  RejectProductionPath wd extraRoots (mc_env m1) (su_FixtureRoot s) = None /\
  (forall p, dir_inside canary p = false -> dir_inside root p = false -> mc_fs m1 !! p = mc_fs m0 !! p) /\
  forall code m2 fs2, exists c m3 fs3,
    Finish sha256 (Some s) code m2 fs2 = (Ok c, m3, fs3) /\
    (c = 1 \/ c = code /\ (forall p, p ∈ files -> untouched (mc_fs m0 !! p) (mc_fs m2 !! p)) /\ canary_intact s m2) /\
    (fs0 = [] -> fs2 = [] -> (forall p, p ∈ files -> mc_fs m2 !! p = mc_fs m0 !! p) -> canary_intact s m2 -> c = code).
Proof.
  intros Hclean E files. pose proof (wp_run _ _ _ _ _ _ _ (wp_BeginSuite canary payload root m0) E) as Hb.
  destruct Hb as [Henv Hbefore _ _ [Hroot Hrej]]. split_and!.
  - unfold IsolationEnabled, Getenv. rewrite Henv. simpl. by rewrite lookup_insert_eq.
  - by rewrite Hroot.
  - by eapply BeginSuite_confined.
  - intros code m2 fs2. pose proof (wp_Finish s code m2 fs2) as Hf.
    destruct (Finish sha256 (Some s) code m2 fs2) as [[r m3] fs3] eqn:Ef. destruct Hf as (c & -> & Hc).
    exists c, m3, fs3. split; [done|]. split.
    + destruct Hc as [->|(-> & Hv & Hi)]; [by left|right]. split; [done|]. split; [|done]. by eapply verified_untouched.
    + intros -> -> Hsame Hi. assert (Hb : su_Before s = map (fun p => state_of p (mc_fs m0 !! p)) files).
      { by eapply BeginSuite_before. }
      revert Ef. unfold Finish, mbind. erewrite finish_code_nofault by done. intros Ef. simpl in Ef. by injection Ef.
Qed.
End harness.

(** ** Witnesses *)

Module SampleRoots.
Definition wd : option string := Some "/home/ana/work".
Definition env : environment := {["HOME" := "/home/ana"]}.
Definition registered : list string := ["/srv/monitor/"].
Definition sha (s : string) : string := "#" +:+ s.
Definition before : machine :=
  {| mc_fs := {["/etc/wmonitor/token.json" := RegularFile "secret"]}; mc_env := env |}.
Definition begun : result error Suite * machine * faults :=
  BeginSuite sha wd registered "/tmp/canary-1" "now" "/tmp/root-1" before [].
Definition suite : Suite :=
  match begun.1.1 with
  | Ok s => s
  | Err _ => {| su_Before := []; su_CanaryDir := empty_str; su_CanaryFile := empty_str; su_CanarySum := empty_str;
                su_FixtureRoot := empty_str |}
  end.
(** A test rewrites the credential. *)
Definition damaged : machine := on_fs <["/etc/wmonitor/token.json" := RegularFile "tested"]> begun.1.2.
End SampleRoots.

Lemma wd_rooted d : SampleRoots.wd = Some d -> IsAbs d = true.
Proof. by intros [= <-]. Qed.
Lemma production_paths_exact_witness :
  IsProductionPath SampleRoots.wd SampleRoots.registered SampleRoots.env "../../../srv//monitor/./db" = true /\
  IsProductionPath SampleRoots.wd SampleRoots.registered SampleRoots.env "/srv/monitors" = false.
Proof.
  split; [|vm_compute; reflexivity].
  apply (proj2 (production_paths_exact SampleRoots.wd SampleRoots.registered wd_rooted SampleRoots.env "../../../srv//monitor/./db")).
  exists ["srv"; "monitor"; "db"], "/srv/monitor/", ["srv"; "monitor"].
  split; [vm_compute; reflexivity|]. split; [apply (bool_decide_unpack _); vm_compute; exact I|]. split; [discriminate|].
  split; [vm_compute; reflexivity|]. split; [exists ["db"]; reflexivity|discriminate].
Defined.

Lemma suite_guards_production_witness :
  exists c m3 fs3, Finish SampleRoots.sha (Some SampleRoots.suite) 0 SampleRoots.damaged [] = (Ok c, m3, fs3) /\ c = 1.
Proof.
  destruct (suite_guards_production SampleRoots.sha SampleRoots.wd SampleRoots.registered "/tmp/canary-1" "now" "/tmp/root-1"
    SampleRoots.before SampleRoots.begun.1.2 [] [] SampleRoots.suite) as (_ & _ & _ & Hfin).
  - exists ["tmp"; "canary-1"]. split; [discriminate|]. split; [|reflexivity].
    constructor; [split_and!; (discriminate || reflexivity)|]. constructor; [split_and!; (discriminate || reflexivity)|constructor].
  - vm_compute. reflexivity.
  - destruct (Hfin 0 SampleRoots.damaged []) as (c & m3 & fs3 & Hf & Hc & _). exists c, m3, fs3. split; [exact Hf|].
    destruct Hc as [Hc|(_ & Hu & _)]; [exact Hc|]. exfalso. specialize (Hu "/etc/wmonitor/token.json").
    assert (Hin : "/etc/wmonitor/token.json" ∈ ProductionSensitiveFiles SampleRoots.wd SampleRoots.registered (mc_env SampleRoots.begun.1.2))
      by (apply (bool_decide_unpack _); vm_compute; exact I).
    specialize (Hu Hin).
    assert (Ha : mc_fs SampleRoots.before !! "/etc/wmonitor/token.json" = Some (RegularFile "secret")) by (vm_compute; reflexivity).
    assert (Hb : mc_fs SampleRoots.damaged !! "/etc/wmonitor/token.json" = Some (RegularFile "tested")) by (vm_compute; reflexivity).
    rewrite Ha, Hb in Hu. destruct Hu as (_ & _ & Hd). discriminate Hd.
Defined.
