(* ===== verification/RenderTLS.v ===== *)
(** * The database's certificate authority ([postgres_render_tls.go])

    Before anything else runs, a connection string of the environment is made
    to verify its server with the certificate that the platform supplies next
    to it.  The files are the temporary ones this code creates; [net/url],
    [encoding/pem] and [crypto/x509] are parameters, with what the code relies
    on as laws. *)

From S2P Require Export Config.
Open Scope list_scope.
Open Scope Z_scope.

(** ** Connection strings and certificates *)

(** A parsed URL; [du_rest] is what the code does not look at (the user, the
    path and the fragment). *)
Record dsn_url := { du_Scheme : string; du_Host : string; du_rest : string; du_RawQuery : string }.
Definition with_query (raw : string) (u : dsn_url) : dsn_url :=
  {| du_Scheme := du_Scheme u; du_Host := du_Host u; du_rest := du_rest u; du_RawQuery := raw |}.
(** [url.Values] *)
Notation values := (gmap string (list string)).
Definition Get (q : values) (key : string) : string := default EmptyString (q !! key ≫= head).
Definition Set_value (key value : string) (q : values) : values := <[key := [value]]> q.

Class DSNURL := {
  dsn_Parse : string -> option dsn_url;
  dsn_String : dsn_url -> string;
  dsn_Query : string -> values;
  dsn_Encode : values -> string
}.
(** An encoded query is read back, and a printed URL is, with another query. *)
Class DSNURLLaws `{DSNURL} := {
  dsn_query_encode : forall q, (forall k, q !! k <> Some []) -> dsn_Query (dsn_Encode q) = q;
  dsn_query_filled : forall raw k, dsn_Query raw !! k <> Some [];
  dsn_parse_string : forall s u q, dsn_Parse s = Some u ->
    dsn_Parse (dsn_String (with_query (dsn_Encode q) u)) = Some (with_query (dsn_Encode q) u)
}.

(** [pem.Decode]: the type of a block, whether [AppendCertsFromPEM] takes it,
    and what follows. *)
Record pem_block := { pb_Type : string; pb_accepted : bool }.
Class PEM := pem_Decode : string -> option (pem_block * string).
Class PEMLaws `{PEM} := pem_consumes : forall s b rest, pem_Decode s = Some (b, rest) -> (String.length rest < String.length s)%nat.

(** ** The environment and the temporary files *)

Record temp_file := { tf_content : string; tf_perm : Z }.
Record render := { rn_dsn : string; rn_ca : string; rn_files : gmap string temp_file }.
Definition with_files (f : gmap string temp_file -> gmap string temp_file) (s : render) : render :=
  {| rn_dsn := rn_dsn s; rn_ca := rn_ca s; rn_files := f (rn_files s) |}.
Definition with_dsn (dsn : string) (s : render) : render :=
  {| rn_dsn := dsn; rn_ca := rn_ca s; rn_files := rn_files s |}.

Section render.
Context `{DSNURL} `{PEM}.

Definition errInvalidCA : error := EMsg "invalid PostgreSQL CA certificate".
Definition errNotPEM : error := EMsg "PostgreSQL CA certificate is not PEM encoded".
(** The loop over the blocks; [None] is a loop that goes on. *)
Fixpoint parse_blocks (fuel : nat) (remaining : string) (found : bool) : option (result error bool) :=
  match fuel with
  | O => None
  | S fuel =>
      if is_empty remaining then Some (Ok found)
      else match pem_Decode remaining with
      | None => Some (Ok found)
      | Some (block, rest) =>
          if String.eqb (pb_Type block) "CERTIFICATE" then
            if pb_accepted block then parse_blocks fuel rest true else Some (Err errInvalidCA)
          else parse_blocks fuel rest found
      end
  end.
(** One more than the length of the text is enough fuel. *)
Definition parseCA (value : string) : option (result error unit) :=
  match parse_blocks (S (String.length value)) value false with
  | None => None
  | Some (Err e) => Some (Err e)
  | Some (Ok found) => Some (if found then Ok tt else Err errNotPEM)
  end.

(** [os.CreateTemp] with the name it picks: a new empty file with mode 0600. *)
Definition CreateTemp (path : string) : M render unit :=
  statement (fun s => match rn_files s !! path with
                      | Some _ => Err (EMsg "file exists")
                      | None => Ok (tt, with_files (insert path {| tf_content := EmptyString; tf_perm := 384 |}) s)
                      end).
Definition on_file (path : string) (f : temp_file -> temp_file) : M render unit :=
  exec (fun s => (tt, with_files (alter f path) s)).
(** [file.Sync], [file.Close] *)
Definition file_call : M render unit := exec (fun s => (tt, s)).
Definition Remove_temp (path : string) : M render unit := exec (fun s => (tt, with_files (delete path) s)).
(** [cleanup]: close and remove, both without looking at their errors. *)
Definition cleanup {A : Type} (path : string) (e : error) : M render A :=
  let* _ := attempt file_call in
  let* _ := attempt (Remove_temp path) in
  fail e.
Definition or_cleanup (path : string) (m : M render unit) (k : M render string) : M render string :=
  let* r := attempt m in match r with Ok _ => k | Err e => cleanup path e end.
Definition writeRenderCA (path ca : string) : M render string :=
  let* _ := CreateTemp path in
  or_cleanup path (on_file path (fun f => {| tf_content := tf_content f; tf_perm := 384 |})) (
  or_cleanup path (on_file path (fun f => {| tf_content := ca; tf_perm := tf_perm f |})) (
  or_cleanup path file_call (
  let* r := attempt file_call in
  match r with
  | Ok _ => ret path
  | Err e => let* _ := attempt (Remove_temp path) in fail e
  end))).

Definition postgres_scheme (u : dsn_url) : bool :=
  (String.eqb (du_Scheme u) "postgres" || String.eqb (du_Scheme u) "postgresql") && negb (is_empty (du_Host u)).
(** The mode the new connection string asks for. *)
Definition strengthened (q : values) : values :=
  if is_empty (Get q "sslmode") || String.eqb (Get q "sslmode") "require" then Set_value "sslmode" "verify-full" q else q.
Definition set_dsn (u : dsn_url) (q : values) : M render unit :=
  let* _ := attempt (exec (fun s => (tt, with_dsn (dsn_String (with_query (dsn_Encode q) u)) s))) in ret tt.
(** [init]; [path] is the name [os.CreateTemp] picks. *)
Definition init_dsn (path : string) : M render unit :=
  inspect (fun s =>
    if is_empty (rn_dsn s) || is_empty (rn_ca s) then ret tt
    else match parseCA (rn_ca s) with
    | None | Some (Err _) => ret tt
    | Some (Ok _) =>
        match dsn_Parse (rn_dsn s) with
        | None => ret tt
        | Some u =>
            if negb (postgres_scheme u) then ret tt
            else
              let q := strengthened (dsn_Query (du_RawQuery u)) in
              if is_empty (Get q "sslrootcert") then
                let* path := attempt (writeRenderCA path (rn_ca s)) in
                match path with
                | Err _ => ret tt
                | Ok path => set_dsn u (Set_value "sslrootcert" path q)
                end
              else set_dsn u q
        end
    end).
End render.

(** ** Lemmas *)

Section lemmas.
Context `{DSNURL} `{PEM}.

Lemma parseCA_ends `{!PEMLaws} value : parseCA value <> None.
Proof.
  unfold parseCA. assert (Hb : forall fuel s found, (String.length s < fuel)%nat -> parse_blocks fuel s found <> None).
  { induction fuel as [|fuel IH]; intros s found Hl; simpl; [lia|]. destruct (is_empty s); [done|].
    destruct (pem_Decode s) as [[b rest]|] eqn:E; [|done]. apply pem_consumes in E.
    destruct (String.eqb _ _); [destruct (pb_accepted b); [|done]|]; apply IH; lia. }
  specialize (Hb (S (String.length value)) value false ltac:(lia)).
  destruct (parse_blocks _ _ _) as [[[]|]|]; done.
Qed.

Lemma Get_Set_same q key value : Get (Set_value key value q) key = value.
Proof. unfold Get, Set_value. by rewrite lookup_insert_eq. Qed.
Lemma Get_Set_other q key value k : k <> key -> Get (Set_value key value q) k = Get q k.
Proof. intros Hk. unfold Get, Set_value. by rewrite lookup_insert_ne. Qed.
Definition filled (q : values) : Prop := forall k, q !! k <> Some [].
Lemma Set_filled key value q : filled q -> filled (Set_value key value q).
Proof. intros Hq k. unfold Set_value. destruct (decide (key = k)) as [->|]; [by rewrite lookup_insert_eq|by rewrite lookup_insert_ne]. Qed.
Lemma strengthened_filled q : filled q -> filled (strengthened q).
Proof. intros Hq. unfold strengthened. destruct (_ || _); [by apply Set_filled|done]. Qed.
Lemma strengthened_other q k : k <> "sslmode" -> strengthened q !! k = q !! k.
Proof. intros Hk. unfold strengthened, Set_value. destruct (_ || _); [by rewrite lookup_insert_ne|done]. Qed.

(** Only the new file may differ. *)
Definition elsewhere (path : string) (s s' : render) : Prop :=
  rn_dsn s' = rn_dsn s /\ rn_ca s' = rn_ca s /\ forall p, p <> path -> rn_files s' !! p = rn_files s !! p.
Lemma elsewhere_trans path s1 s2 s3 : elsewhere path s1 s2 -> elsewhere path s2 s3 -> elsewhere path s1 s3.
Proof. intros (A1 & A2 & A3) (B1 & B2 & B3). split_and!; [congruence..|]. intros p Hp. rewrite B3, A3; done. Qed.
Lemma elsewhere_alter path f s : elsewhere path s (with_files (alter f path) s).
Proof. split_and!; try done. intros p Hp. by apply lookup_alter_ne. Qed.
Lemma elsewhere_delete path s : elsewhere path s (with_files (delete path) s).
Proof. split_and!; try done. intros p Hp. by apply lookup_delete_ne. Qed.

(** The private file with the certificate, if there is a name. *)
Definition written (path ca : string) (s : render) (r : result error string) (s' : render) : Prop :=
  elsewhere path s s' /\ forall p, r = Ok p -> p = path /\ rn_files s' !! path = Some {| tf_content := ca; tf_perm := 384 |}.
Lemma wp_cleanup path ca s0 s e : elsewhere path s0 s -> wp (cleanup path e) (written path ca s0) s.
Proof.
  intros He. unfold cleanup, file_call. apply wp_try.
  assert (Hr : wp (let* _ := attempt (Remove_temp path) in fail (A := string) e) (written path ca s0) s).
  { apply wp_try, wp_exec; intros; apply wp_fail; (split; [|done]); eauto using elsewhere_trans, elsewhere_delete. }
  apply wp_exec; intros; exact Hr.
Qed.
Lemma wp_or_cleanup path ca s0 (f : render -> render) k s :
  elsewhere path s0 s -> elsewhere path s0 (f s) -> wp k (written path ca s0) (f s) ->
  wp (or_cleanup path (exec (fun s => (tt, f s))) k) (written path ca s0) s.
Proof.
  intros Hs Hf Hk. unfold or_cleanup. apply wp_try, wp_exec; [|exact Hk|]; intros e; by apply wp_cleanup.
Qed.
Lemma wp_writeRenderCA path ca s : wp (writeRenderCA path ca) (written path ca s) s.
Proof.
  unfold writeRenderCA. apply wp_mbind, wp_statement.
  { intros e. split; [by split|done]. }
  intros [] s1 Hc. destruct (rn_files s !! path) eqn:Ef; [done|]. injection Hc as <-.
  set (f1 := {| tf_content := EmptyString; tf_perm := 384 |}).
  assert (H1 : elsewhere path s (with_files (insert path f1) s)).
  { split_and!; try done. intros p Hp. simpl. by rewrite lookup_insert_ne. }
  split; [|intros e; by split].
  apply (wp_or_cleanup _ _ _ (with_files (alter _ path))); [done|eauto using elsewhere_trans, elsewhere_alter|].
  apply (wp_or_cleanup _ _ _ (with_files (alter _ path))); [eauto using elsewhere_trans, elsewhere_alter..|].
  set (s3 := with_files _ (with_files _ _)).
  assert (H3 : elsewhere path s s3) by (unfold s3; eauto using elsewhere_trans, elsewhere_alter).
  apply (wp_or_cleanup _ _ _ (fun s => s)); [done..|]. unfold file_call.
  apply wp_try, wp_exec.
  - intros e. apply wp_try, wp_exec; intros; apply wp_fail; (split; [|done]); eauto using elsewhere_trans, elsewhere_delete.
  - apply wp_ret. split; [done|]. intros p [= <-]. split; [done|]. simpl. by rewrite !lookup_alter_eq, lookup_insert_eq.
  - intros e. apply wp_try, wp_exec; intros; apply wp_fail; (split; [|done]); eauto using elsewhere_trans, elsewhere_delete.
Qed.

(** The connection string of [s'] is that of [s] with verification turned on
    and everything else as it was. *)
Definition verified (path : string) (s s' : render) : Prop :=
  exists u u', dsn_Parse (rn_dsn s) = Some u /\ postgres_scheme u = true /\ dsn_Parse (rn_dsn s') = Some u' /\
    du_Scheme u' = du_Scheme u /\ du_Host u' = du_Host u /\ du_rest u' = du_rest u /\
    let q := dsn_Query (du_RawQuery u) in
    let q' := dsn_Query (du_RawQuery u') in
    (forall k, k <> "sslmode" -> k <> "sslrootcert" -> q' !! k = q !! k) /\
    Get q' "sslmode" = (if is_empty (Get q "sslmode") || String.eqb (Get q "sslmode") "require"
                        then "verify-full" else Get q "sslmode") /\
    (if is_empty (Get q "sslrootcert")
     then Get q' "sslrootcert" = path /\ rn_files s' !! path = Some {| tf_content := rn_ca s; tf_perm := 384 |}
     else q' !! "sslrootcert" = q !! "sslrootcert").
Definition settled (path : string) (s s' : render) : Prop :=
  rn_ca s' = rn_ca s /\ (forall p, p <> path -> rn_files s' !! p = rn_files s !! p) /\
  (rn_dsn s' = rn_dsn s \/ verified path s s').

Lemma wp_set_dsn path s0 s u q :
  settled path s0 s -> settled path s0 (with_dsn (dsn_String (with_query (dsn_Encode q) u)) s) ->
  wp (set_dsn u q) (fun r s' => r = Ok tt /\ settled path s0 s') s.
Proof. intros Hs Hd. unfold set_dsn. apply wp_try, wp_exec; intros; by apply wp_ret. Qed.
End lemmas.

(** A connection string is only strengthened.  Whatever fails, the start goes
    on; no file but a new one is touched; and the connection string stays as it
    is or becomes the same one with the platform's certificate in a private
    file (unless it named one) and full verification instead of none: no other
    mode and no other parameter changes. *)
Lemma connection_is_only_strengthened `{DSNURLLaws} `{PEM} path s fs :
  let '(r, s', _) := init_dsn path s fs in r = Ok tt /\ settled path s s'.
Proof.
  assert (Hw : wp (init_dsn path) (fun r s' => r = Ok tt /\ settled path s s') s).
  { assert (Hsame : wp (ret tt) (fun r s' => r = Ok tt /\ settled path s s') s).
    { apply wp_ret. split; [done|]. split_and!; [done|done|by left]. }
    unfold init_dsn. apply wp_inspect. destruct (_ || _); [done|]. destruct (parseCA _) as [[[]|]|]; [|done..].
    destruct (dsn_Parse (rn_dsn s)) as [u|] eqn:Eu; [|done]. destruct (postgres_scheme u) eqn:Es; [|done]. cbv zeta.
    cbn [negb]. set (q := dsn_Query (du_RawQuery u)).
    assert (Hq : filled q) by (intros k; apply dsn_query_filled).
    assert (Hmode : Get (strengthened q) "sslmode" =
      (if is_empty (Get q "sslmode") || String.eqb (Get q "sslmode") "require" then "verify-full" else Get q "sslmode")).
    { unfold strengthened. destruct (_ || _); [apply Get_Set_same|done]. }
    assert (Hcert : strengthened q !! "sslrootcert" = q !! "sslrootcert") by by apply strengthened_other.
    assert (Hget : Get (strengthened q) "sslrootcert" = Get q "sslrootcert") by (unfold Get; by rewrite Hcert).
    destruct (is_empty (Get (strengthened q) "sslrootcert")) eqn:Ec.
    - apply wp_try. eapply wp_mono; [apply wp_writeRenderCA|]. intros [p|e] s1 [(E1 & E2 & E3) Hp].
      2:{ apply wp_ret. split; [done|]. split_and!; [done|done|by left]. }
      destruct (Hp p eq_refl) as [-> Hfile]. apply wp_set_dsn; [split_and!; [done|done|by left]|].
      split_and!; [done|done|right]. exists u, (with_query (dsn_Encode (Set_value "sslrootcert" path (strengthened q))) u).
      split_and!; try done; [by apply (dsn_parse_string _ _ _ Eu)|]. cbv zeta. fold q. simpl du_RawQuery.
      rewrite dsn_query_encode by (apply Set_filled, strengthened_filled, Hq).
      rewrite <- Hget, Ec. split_and!.
      + intros k Hk1 Hk2. unfold Set_value. rewrite lookup_insert_ne by done. by apply strengthened_other.
      + rewrite Get_Set_other by done. exact Hmode.
      + apply Get_Set_same.
      + exact Hfile.
    - apply wp_set_dsn; [split_and!; [done|done|by left]|].
      split_and!; [done|done|right]. exists u, (with_query (dsn_Encode (strengthened q)) u).
      split_and!; try done; [by apply (dsn_parse_string _ _ _ Eu)|]. cbv zeta. fold q. simpl du_RawQuery.
      rewrite dsn_query_encode by apply strengthened_filled, Hq.
      rewrite <- Hget, Ec. split_and!; [|exact Hmode|exact Hcert].
      intros k Hk1 _. by apply strengthened_other. }
  specialize (Hw fs). by destruct (init_dsn path s fs) as [[r s'] fs'].
Qed.

(** ** Concrete inputs *)

(** Any encoding that can be read back satisfies the laws. *)
Module SampleDSN.
Fixpoint to_bits (p : positive) : string :=
  match p with
  | xH => EmptyString
  | xO p => String "0" (to_bits p)
  | xI p => String "1" (to_bits p)
  end.
Fixpoint of_bits (s : string) : positive :=
  match s with
  | EmptyString => xH
  | String c s => if Ascii.eqb c "0" then xO (of_bits s) else xI (of_bits s)
  end.
Lemma bits_read_back p : of_bits (to_bits p) = p.
Proof. by induction p as [p IH|p IH|]; simpl; [rewrite IH|rewrite IH|]. Qed.

#[global] Instance urls : DSNURL :=
  {| dsn_Parse s := (fun t : string * string * string * string =>
       let '(a, b, c, d) := t in {| du_Scheme := a; du_Host := b; du_rest := c; du_RawQuery := d |}) <$> decode (of_bits s);
     dsn_String u := to_bits (encode (du_Scheme u, du_Host u, du_rest u, du_RawQuery u));
     dsn_Query raw := filter (fun kv => bool_decide (kv.2 = []) = false) (default (∅ : gmap string (list string)) (decode (of_bits raw)));
     dsn_Encode q := to_bits (encode q) |}.
#[global] Instance laws : DSNURLLaws.
Proof.
  split.
  - intros q Hq. simpl. rewrite bits_read_back, decode_encode. simpl. apply map_filter_id. intros k v Hk.
    simpl. apply bool_decide_eq_false. intros ->. by destruct (Hq k).
  - intros raw k Hk. simpl in Hk. apply map_lookup_filter_Some in Hk as [_ Hk]. done.
  - intros s u q _. unfold dsn_Parse, dsn_String, urls. rewrite bits_read_back, decode_encode. by destruct u.
Qed.
#[global] Instance pem : PEM := fun s => if is_empty s then None else Some ({| pb_Type := "CERTIFICATE"; pb_accepted := true |}, EmptyString).
#[global] Instance pem_laws : PEMLaws.
Proof. intros s b rest. unfold pem_Decode, pem. destruct s; simpl; [done|]. intros [= <- <-]. simpl. lia. Qed.

Definition url (query : list (string * list string)) : dsn_url :=
  {| du_Scheme := "postgres"; du_Host := "db"; du_rest := "user@/w"; du_RawQuery := dsn_Encode (list_to_map query) |}.
Definition start (query : list (string * list string)) : render :=
  {| rn_dsn := dsn_String (url query); rn_ca := "PEM"; rn_files := ∅ |}.
(** The mode and the certificate of the connection string afterwards. *)
Definition outcome (fs : faults) (query : list (string * list string)) : option (string * string) :=
  (fun u => let q := dsn_Query (du_RawQuery u) in (Get q "sslmode", Get q "sslrootcert")) <$>
    dsn_Parse (rn_dsn (run_state (init_dsn "/tmp/ca.pem") (start query) fs)).
End SampleDSN.

Example modes_are_strengthened :
  map (SampleDSN.outcome [])
    [[("sslmode", ["require"])]; []; [("sslmode", ["disable"])];
     [("sslmode", ["verify-ca"]); ("sslrootcert", ["/ca"])]]%string =
  map Some [("verify-full", "/tmp/ca.pem"); ("verify-full", "/tmp/ca.pem"); ("disable", "/tmp/ca.pem"); ("verify-ca", "/ca")]%string.
Proof. vm_compute. reflexivity. Qed.
