(* ===== verification/AgentRun.v ===== *)
(** * Making, running and closing an agent ([agent/agent.go], [agent/spool.go],
      [agent/spool_lock_unix.go], the data directory of [storage/db.go])

    The data directory and the making of directories with those above them,
    opening the spool and its ownership lock, the
    constructors of the agent, and the goroutines behind it: the drainer, the
    watcher of the caller's context, the callers of the insert methods and
    [Close], as a step relation. *)

From S2P Require Export Agent FsrootProofs.
Open Scope list_scope.
Open Scope Z_scope.

(** ** The data directory *)

(** What a path leads to, links followed. *)
Fixpoint stat_path (links : nat) (fs : gmap string inode) (path : string) : option inode :=
  match fs !! path with
  | Some (SymbolicLink t) =>
      match links with
      | O => None
      | S links => stat_path links fs (if IsAbs t then Clean t else Clean (Dir path +:+ "/" +:+ t))
      end
  | o => o
  end.
(** [filepath.Dir], of a relative path too. *)
Definition FileDir (path : string) : string :=
  if IsAbs path then Dir path else CleanPath (sdrop 1 (join_slash (removelast (Split path "/")))).
(** The root, the working directory and what is above it: nobody makes them. *)
Definition base_dir (path : string) : bool :=
  String.eqb path "/" || String.eqb path "." || String.eqb (List.last (Split path "/") EmptyString) "..".
(** [mkdir]; no link is followed in the last element. *)
Definition mkdir (path : string) (m : machine) : result error (unit * machine) :=
  match mc_fs m !! path with
  | Some _ => Err (EMsg "file exists")
  | None => Ok (tt, on_fs <[path := Directory 4096]> m)
  end.
(** [os.MkdirAll]: what is there and a directory is left alone, otherwise the
    directory above it is made first, and so on upwards.  An error of [mkdir]
    does not count when the directory is there afterwards. *)
Fixpoint mkdir_all (fuel : nat) (path : string) : M machine unit :=
  inspect (fun m =>
    if base_dir path then statement (fun m => Ok (tt, m))
    else match stat_path max_links (mc_fs m) path with
    | Some (Directory _) => statement (fun m => Ok (tt, m))
    | Some _ => fail (EMsg "not a directory")
    | None =>
        let* _ := match fuel with O => ret tt | S fuel => mkdir_all fuel (FileDir path) end in
        let* r := attempt (statement (mkdir path)) in
        match r with
        | Ok _ => ret tt
        | Err e => inspect (fun m => match mc_fs m !! path with Some (Directory _) => ret tt | _ => fail e end)
        end
    end).
(** A path has fewer elements than characters. *)
Definition MkdirAll (path : string) : M machine unit := mkdir_all (String.length path) path.

Section data_dir.
Context (wd : option string) (extraRoots : list string).

Definition DefaultDataDirPath (env : environment) : string :=
  match UserHomeDir env with
  | Err _ => Join "/tmp" "sysmon"
  | Ok home => Join (Join home ".local/share") "sysmon"
  end.
(** The package registers it when it is loaded. *)
Definition init_roots (env : environment) : list string := Register (DefaultDataDirPath env) [].

(** The new override; an error leaves the old one. *)
Definition SetDataDir (env : environment) (dir override : string) : result error string :=
  if is_empty dir then Ok dir
  else match RejectProductionPath wd extraRoots env dir with
       | Some e => Err e
       | None => Ok dir
       end.

Definition errDataDir : error := EMsg "cannot create data dir".
Definition make_dir (dir : string) : M machine string :=
  let* r := attempt (MkdirAll dir) in
  match r with Ok _ => ret dir | Err e => fail (EWrap "cannot create data dir" e) end.
Definition DataDir (override : string) : M machine string :=
  inspect (fun m =>
    let env := mc_env m in
    if negb (is_empty override) then make_dir override
    else
      let dir := Getenv env EnvDataDir in
      if negb (is_empty dir) then
        match (if IsolationEnabled env then RejectProductionPath wd extraRoots env dir else None) with
        | Some e => fail e
        | None => make_dir dir
        end
      else if IsolationEnabled env
      then fail (EMsg "storage: DataDir called without test override while WMONITOR_TEST_ISOLATION=1")
      else make_dir (DefaultDataDirPath env)).
End data_dir.

(** ** Test packages ([internal/testisolate]) *)

Section isolate.
Context (sha256 : string -> string) (wd : option string) (extraRoots : list string).
(** [m.Run], given the data directory that is installed. *)
Definition Run (canary payload root : string) (run : string -> M machine Z) : M machine Z :=
  let* suite := attempt (BeginSuite sha256 wd extraRoots canary payload root) in
  match suite with
  | Err _ => ret 1
  | Ok s =>
      let data := Join (su_FixtureRoot s) "data" in
      let* made := attempt (MkdirAll data) in
      match made with
      | Err _ => ret 1
      | Ok _ =>
          inspect (fun m =>
            match SetDataDir wd extraRoots (mc_env m) data EmptyString with
            | Err _ => ret 1
            | Ok override => let* code := run override in Finish sha256 (Some s) code
            end)
      end
  end.
(** The credential and data directories of one test, and the override that is
    installed; a failure ends the test. *)
Definition Dirs (root override : string) : M machine (string * string * string) :=
  let* _ := reject_path wd extraRoots root in
  let credDir := Join root "credentials" in
  let dataDir := Join root "data" in
  let* _ := MkdirAll credDir in
  let* _ := MkdirAll dataDir in
  inspect (fun m =>
    match SetDataDir wd extraRoots (mc_env m) dataDir override with
    | Err e => fail e
    | Ok override => ret (credDir, dataDir, override)
    end).
End isolate.

(** ** Opening a spool *)

(** The files, the locks other open files hold, and what the spool
    directories contain. *)
Record agent_host := { ah_machine : machine; ah_locks : gset string; ah_disks : gmap string disk }.
Definition with_locks (l : gset string) (h : agent_host) : agent_host :=
  {| ah_machine := ah_machine h; ah_locks := l; ah_disks := ah_disks h |}.
Definition on_machine {A : Type} (m : M machine A) : M agent_host A :=
  zoom ah_machine (fun x h => {| ah_machine := x; ah_locks := ah_locks h; ah_disks := ah_disks h |}) m.

Definition spoolDirName : string := "spool".
Definition empty_disk : disk :=
  {| d_segs := []; d_acks := ∅; d_quar := []; d_qacks := ∅; d_bind := None; d_loss := None |}.

Section opening.
Context (wd : option string) (extraRoots : list string).
(** Whether the current user owns a path. *)
Context (owned : string -> bool).

Definition errSpoolLink : error := EMsg "agent: refusing symlink path".
(** [rejectSymlink(path)], a missing path being no error. *)
Definition reject_link (path : string) : M machine unit :=
  let* r := attempt (Lstat path) in
  match r with
  | Ok (SymbolicLink _) => fail errSpoolLink
  | Ok _ => ret tt
  | Err e => if Is e ErrNotExist then ret tt else fail e
  end.
Definition secureSpoolDirectory (path : string) : M machine unit :=
  let* info := Lstat path in
  match info with
  | Directory _ =>
      if negb (owned path) then fail (EMsg "token file owned by another uid")
      else query (fun _ => tt) (* os.Chmod *)
  | _ => fail (EMsg "spool: directory is not a regular directory")
  end.
(** [open] creates the file but follows no link; [flock] does not wait. *)
Definition lockSpool (path : string) : M agent_host unit :=
  let* _ := on_machine (statement (fun m =>
    match mc_fs m !! path with
    | Some (RegularFile _) => Ok (tt, m)
    | None => Ok (tt, on_fs <[path := RegularFile EmptyString]> m)
    | Some _ => Err (EMsg "too many levels of symbolic links")
    end)) in
  let* taken := query (fun h => bool_decide (path ∈ ah_locks h)) in
  if taken then fail (EMsg "resource temporarily unavailable")
  else modify (fun h => with_locks ({[path]} ∪ ah_locks h) h).
Definition lock_path (dir : string) : string := Join (Join dir spoolDirName) "owner.lock".
(** The opened queue. *)
Definition OpenSpool (dir : string) : M agent_host Spool :=
  let* _ := inspect (fun h =>
    let env := mc_env (ah_machine h) in
    if IsolationEnabled env then
      match RejectProductionPath wd extraRoots env dir with
      | Some e => fail (EWrap "spool" e)
      | None => ret tt
      end
    else ret tt) in
  let path := Join dir spoolDirName in
  let* _ := on_machine (reject_link path) in
  let* _ := on_machine (MkdirAll path) in
  let* _ := on_machine (secureSpoolDirectory path) in
  let* r := attempt (lockSpool (lock_path dir)) in
  match r with
  | Err e => fail (EWrap "spool: another process owns the queue or ownership could not be established" e)
  | Ok _ => inspect (fun h => ret (NewSpool (default empty_disk (ah_disks h !! path))))
  end.

(** ** The constructors *)

Section constructors.
Context `{Unicode} `{URLParser}.
(** [host.BootTime] and the 8 bytes of [crypto/rand]. *)
Context (boot : option Z) (seed : option Z).

Definition blank (hubURL apiKey : string) : Agent :=
  {| ag_hubURL := CanonicalHubURL hubURL; ag_apiKey := apiKey; ag_spool := None; ag_initErr := None; ag_closed := false;
     ag_bound := false; ag_bootID := EmptyString; ag_sequence := 0; ag_wake := false |}.
Definition identified (bootID : string) (sequence : Z) (a : Agent) : Agent :=
  {| ag_hubURL := ag_hubURL a; ag_apiKey := ag_apiKey a; ag_spool := ag_spool a; ag_initErr := ag_initErr a;
     ag_closed := ag_closed a; ag_bound := ag_bound a; ag_bootID := bootID; ag_sequence := sequence; ag_wake := ag_wake a |}.
Definition errBoot : error := EMsg "agent: OS boot identity unavailable".
Definition newAgent (hubURL apiKey dataDir : string) : M agent_host Agent :=
  let a := blank hubURL apiKey in
  match RequireHTTPSHub hubURL with
  | Some e => ret (set_initErr e a)
  | None =>
      if is_empty dataDir then ret (set_initErr (EMsg "agent: durable spool is required") a)
      else
        let* sp := attempt (OpenSpool dataDir) in
        match sp with
        | Err e => ret (set_initErr e a)
        | Ok sp =>
            let a := with_spool sp a in
            ret match boot with
                | Some b =>
                    if b =? 0 then set_initErr errBoot a
                    else
                      let bootID := "boot-" +:+ Itoa b in
                      match seed with
                      | None => set_initErr (EMsg "crypto/rand: unavailable") (identified bootID 0 a)
                      | Some n => identified bootID (initial_sequence n) a
                      end
                | None => set_initErr errBoot a
                end
        end
  end.
Definition failed_agent (hubURL apiKey : string) (e : error) : M agent_host Agent :=
  let* a := newAgent hubURL apiKey EmptyString in ret (set_initErr e a).
Definition New (override hubURL apiKey : string) : M agent_host Agent :=
  let* dir := attempt (on_machine (DataDir wd extraRoots override)) in
  match dir with
  | Err e => failed_agent hubURL apiKey e
  | Ok dir => newAgent hubURL apiKey dir
  end.
Definition NewWithSpoolRoot (hubURL apiKey spoolRoot : string) : M agent_host Agent :=
  inspect (fun h =>
    match RejectProductionPath wd extraRoots (mc_env (ah_machine h)) spoolRoot with
    | Some e => failed_agent hubURL apiKey e
    | None => newAgent hubURL apiKey spoolRoot
    end).
(** Closing an agent that never ran. *)
Definition close_new (dir : string) (a : Agent) : M agent_host unit :=
  match ag_spool a with
  | None => ret tt
  | Some sp => exec (fun h => (tt, with_locks (ah_locks h ∖ {[lock_path dir]}) h))
  end.
Definition NewWithDataDir (hubURL apiKey dataDir : string) : M agent_host Agent :=
  if is_empty dataDir || negb (IsAbs dataDir) then fail (EMsg "agent: data directory must be absolute")
  else
    let* a := newAgent hubURL apiKey (Clean dataDir) in
    match ag_initErr a with
    | Some e => let* _ := attempt (close_new (Clean dataDir) a) in fail e
    | None => ret a
    end.
End constructors.
End opening.

(** ** The running agent *)

(** The goroutine of [drainLoop]: not started; at the head of its loop; inside
    [DrainBatches]; waiting for its timer, [failed] or not; returned. *)
Inductive drainer := NoDrainer | Heading | InDrain | Resting (failed : bool) | Returned.
(** The goroutine that waits for the caller's context. *)
Inductive watcher := NoWatcher | Watching | WatchEnded.
(** [Close]: not called; waiting for the goroutines; about to close the spool;
    done. *)
Inductive closer := Open | WaitingForWorkers | ClosingSpool | CloseDone.
#[export] Instance watcher_eq_dec : EqDecision watcher.
Proof. solve_decision. Defined.
#[export] Instance closer_eq_dec : EqDecision closer.
Proof. solve_decision. Defined.

Record running := {
  ru_agent : Agent;
  ru_cancelled : bool (* a.ctx *);
  ru_parent : bool (* the caller's context is done *);
  ru_once : bool (* drainOnce *);
  ru_drainer : drainer;
  ru_watcher : watcher;
  ru_callers : nat (* insert calls that have appended and not yet returned *);
  ru_closer : closer
}.
Definition launch (a : Agent) : running :=
  {| ru_agent := a; ru_cancelled := false; ru_parent := false; ru_once := false; ru_drainer := NoDrainer;
     ru_watcher := NoWatcher; ru_callers := 0; ru_closer := Open |}.
Definition with_agent (a : Agent) (r : running) : running :=
  {| ru_agent := a; ru_cancelled := ru_cancelled r; ru_parent := ru_parent r; ru_once := ru_once r;
     ru_drainer := ru_drainer r; ru_watcher := ru_watcher r; ru_callers := ru_callers r; ru_closer := ru_closer r |}.
Definition with_callers (n : nat) (r : running) : running :=
  {| ru_agent := ru_agent r; ru_cancelled := ru_cancelled r; ru_parent := ru_parent r; ru_once := ru_once r;
     ru_drainer := ru_drainer r; ru_watcher := ru_watcher r; ru_callers := n; ru_closer := ru_closer r |}.
Definition with_drainer (d : drainer) (r : running) : running :=
  {| ru_agent := ru_agent r; ru_cancelled := ru_cancelled r; ru_parent := ru_parent r; ru_once := ru_once r;
     ru_drainer := d; ru_watcher := ru_watcher r; ru_callers := ru_callers r; ru_closer := ru_closer r |}.
Definition with_watcher (w : watcher) (cancel : bool) (r : running) : running :=
  {| ru_agent := ru_agent r; ru_cancelled := cancel || ru_cancelled r; ru_parent := ru_parent r; ru_once := ru_once r;
     ru_drainer := ru_drainer r; ru_watcher := w; ru_callers := ru_callers r; ru_closer := ru_closer r |}.
Definition with_parent_done (r : running) : running :=
  {| ru_agent := ru_agent r; ru_cancelled := ru_cancelled r; ru_parent := true; ru_once := ru_once r;
     ru_drainer := ru_drainer r; ru_watcher := ru_watcher r; ru_callers := ru_callers r; ru_closer := ru_closer r |}.
Definition with_closer (c : closer) (r : running) : running :=
  {| ru_agent := ru_agent r; ru_cancelled := ru_cancelled r; ru_parent := ru_parent r; ru_once := ru_once r;
     ru_drainer := ru_drainer r; ru_watcher := ru_watcher r; ru_callers := ru_callers r; ru_closer := c |}.
Definition set_agent_closed (a : Agent) : Agent :=
  {| ag_hubURL := ag_hubURL a; ag_apiKey := ag_apiKey a; ag_spool := ag_spool a; ag_initErr := ag_initErr a;
     ag_closed := true; ag_bound := ag_bound a; ag_bootID := ag_bootID a; ag_sequence := ag_sequence a; ag_wake := ag_wake a |}.
Definition take_wake (a : Agent) : Agent :=
  {| ag_hubURL := ag_hubURL a; ag_apiKey := ag_apiKey a; ag_spool := ag_spool a; ag_initErr := ag_initErr a;
     ag_closed := ag_closed a; ag_bound := ag_bound a; ag_bootID := ag_bootID a; ag_sequence := ag_sequence a; ag_wake := false |}.

Definition InitializationError (a : Agent) : option error := ag_initErr a.
(** [parent] tells whether a context is given. *)
Definition StartDrainer (parent : bool) (r : running) : running :=
  let a := ru_agent r in
  if ag_closed a || negb (is_some (ag_spool a)) || is_some (ag_initErr a) || negb (ag_bound a) || ru_once r then r
  else {| ru_agent := a; ru_cancelled := ru_cancelled r; ru_parent := ru_parent r; ru_once := true; ru_drainer := Heading;
          ru_watcher := if parent then Watching else NoWatcher; ru_callers := ru_callers r; ru_closer := ru_closer r |}.
(** What [workers.Wait] waits for. *)
Definition idle (r : running) : bool :=
  match ru_drainer r with NoDrainer | Returned => true | _ => false end &&
  match ru_watcher r with NoWatcher | WatchEnded => true | Watching => false end.
(** [Close] up to [workers.Wait]. *)
Definition begin_close (r : running) : running :=
  {| ru_agent := set_agent_closed (ru_agent r); ru_cancelled := true; ru_parent := ru_parent r; ru_once := ru_once r;
     ru_drainer := ru_drainer r; ru_watcher := ru_watcher r; ru_callers := ru_callers r; ru_closer := WaitingForWorkers |}.

Section running.
Context `{Unicode} `{URLParser} `{SpoolJSON} `{AgentJSON}.

Definition close_spool (fs : faults) (a : Agent) : Agent :=
  match ag_spool a with Some _ => run_state (on_queue Spool.Close) a fs | None => a end.
(** A short operation of the drain on the spool. *)
Definition touch (m : M Spool unit) (fs : faults) (a : Agent) : Agent := run_state (on_queue m) a fs.

Inductive agent_step : running -> running -> Prop :=
| Binds r tenant server fs :
    agent_step r (with_agent (run_state (BindIdentity tenant server) (ru_agent r) fs) r)
| Inserts r server metric process id clock name cut fs res a' fs' :
    enqueue_row server metric process id clock name cut (ru_agent r) fs = (res, a', fs') ->
    agent_step r (with_callers ((if is_ok res then 1 else 0) + ru_callers r) (with_agent a' r))
| InsertReturns r n : ru_callers r = S n ->
    agent_step r (StartDrainer false (with_callers n r))
| Starts r parent : agent_step r (StartDrainer parent r)
| ParentDone r : agent_step r (with_parent_done r)
| WatcherCancels r : ru_watcher r = Watching -> ru_parent r = true -> agent_step r (with_watcher WatchEnded true r)
| WatcherEnds r : ru_watcher r = Watching -> ru_cancelled r = true -> agent_step r (with_watcher WatchEnded false r)
| DrainerStops r : ru_drainer r = Heading -> ru_cancelled r = true -> agent_step r (with_drainer Returned r)
| DrainerBegins r : ru_drainer r = Heading -> ru_cancelled r = false -> agent_step r (with_drainer InDrain r)
| DrainerTouches r m fs : ru_drainer r = InDrain -> (forall b, preserves (fun sp => sp_closed sp = b) m) ->
    agent_step r (with_agent (touch m fs (ru_agent r)) r)
| DrainerRests r failed : ru_drainer r = InDrain -> agent_step r (with_drainer (Resting failed) r)
| DrainerGoesOn r failed : ru_drainer r = Resting failed -> agent_step r (with_drainer Heading r)
| DrainerWoken r : ru_drainer r = Resting false -> ag_wake (ru_agent r) = true ->
    agent_step r (with_drainer Heading (with_agent (take_wake (ru_agent r)) r))
| DrainerCancelled r failed : ru_drainer r = Resting failed -> ru_cancelled r = true ->
    agent_step r (with_drainer Returned r)
| CloseBegins r : ag_closed (ru_agent r) = false -> agent_step r (begin_close r)
| CloseAgain r : ag_closed (ru_agent r) = true -> agent_step r r
| CloseWaited r : ru_closer r = WaitingForWorkers -> idle r = true -> agent_step r (with_closer ClosingSpool r)
| CloseCloses r fs : ru_closer r = ClosingSpool ->
    agent_step r (with_closer CloseDone (with_agent (close_spool fs (ru_agent r)) r)).
Definition agent_steps : running -> running -> Prop := rtc agent_step.
End running.
