(* ===== verification/AgentRunProofs.v ===== *)
(** * Making, running and closing an agent: proofs

    A queue has one owner, tests never get the queue of a machine, and closing
    an agent leaves its queue alone from then on and can always end. *)

From S2P Require Export AgentRun.
Open Scope list_scope.
Open Scope Z_scope.

(** ** Operations that leave an agent open or closed *)

Section spool.
Context `{Unicode} `{URLParser} `{SpoolJSON} `{AgentJSON}.

Definition keeps_open {A : Type} (m : M Spool A) : Prop := forall b, preserves (fun sp => sp_closed sp = b) m.
Ltac keep_open :=
  repeat (cbv zeta;
    lazymatch goal with
    | |- forall _, _ => intro
    | |- preserves _ (ret _) => apply preserves_ret
    | |- preserves _ (fail _) => apply preserves_fail
    | |- preserves _ (lift _) => apply preserves_lift
    | |- preserves _ (query _) => apply preserves_query
    | |- preserves _ (mbind _ _) => apply preserves_mbind
    | |- preserves _ (attempt _) => apply preserves_attempt
    | |- preserves _ (inspect _) => apply preserves_inspect
    | |- preserves _ (whenM _ _) => apply preserves_whenM
    | |- preserves _ (exec _) => apply preserves_exec; intros ? Hkept; try exact Hkept
    | |- preserves _ (modify _) => apply preserves_modify; intros ? Hkept; try exact Hkept
    | |- preserves _ (match ?x with _ => _ end) => destruct x
    end).

Lemma keeps_seal : keeps_open sealLocked.
Proof. intros b. unfold sealLocked, sync_op. keep_open. Qed.
Lemma keeps_on_seg name f : keeps_open (on_seg name f).
Proof. intros b. apply preserves_statement. intros s [] s' Hs. destruct (seg_content _ _); [|done]. by intros [= <-]. Qed.
Lemma keeps_quarantinePath name : keeps_open (quarantinePathLocked name).
Proof. intros b. unfold quarantinePathLocked, sync_op, file_op. keep_open. apply keeps_on_seg. Qed.
Lemma keeps_quarantine_all names : keeps_open (quarantine_all names).
Proof. intros b. induction names as [|n ns IH]; simpl; keep_open; [apply keeps_quarantinePath|done]. Qed.
Lemma keeps_recordLoss reason : keeps_open (recordLossLocked reason).
Proof. intros b. unfold recordLossLocked, read_disk, file_op. keep_open. Qed.
Lemma keeps_Bind origin tenant server : keeps_open (BindDestination origin tenant server).
Proof.
  intros b. unfold BindDestination, readBindLocked, writeBindLocked, quarantineLocked, segmentsLocked, read_disk, file_op.
  keep_open; (apply keeps_seal || apply keeps_quarantine_all).
Qed.
Lemma keeps_ensure n name : keeps_open (ensureSegmentLocked n name).
Proof.
  intros b. unfold ensureSegmentLocked, sync_op. keep_open; [apply keeps_seal|].
  apply preserves_statement. intros s' [] s'' Hs. unfold create_temp. destruct (seg_content _ _); [done|]. by intros [= <-].
Qed.
Lemma keeps_Append type body now name cut : keeps_open (Append type body now name cut).
Proof.
  intros b. unfold Append, append_line, evictIfFullLocked, read_disk, sync_op.
  keep_open; try apply keeps_recordLoss; try apply keeps_ensure; simpl; unfold write_current; by case_match; repeat case_match.
Qed.

(** The whole of a drain only makes such steps, when its callbacks do. *)
Lemma keeps_on_spool {W A} (m : M Spool A) b : keeps_open m -> preserves (fun p : Spool * W => sp_closed p.1 = b) (on_spool m).
Proof.
  intros Hm p fs Hp. specialize (Hm b p.1 fs Hp). unfold run_state, on_spool in *. by destruct (m p.1 fs) as [[r s] fs'].
Qed.
Lemma keeps_checkpoint name n : keeps_open (checkpoint name n).
Proof. intros b. unfold checkpoint, read_disk. keep_open. Qed.
Lemma keeps_remove name : keeps_open (remove_segment name).
Proof. intros b. unfold remove_segment, sync_op, file_op. keep_open. apply keeps_on_seg. Qed.
Lemma drain_keeps_open {W} (cancelled : M (Spool * W) unit) maximum (deliver : list spoolEntry -> M (Spool * W) unit) b :
  preserves (fun p => sp_closed p.1 = b) cancelled -> (forall es, preserves (fun p => sp_closed p.1 = b) (deliver es)) ->
  preserves (fun p => sp_closed p.1 = b) (DrainBatches cancelled maximum deliver).
Proof.
  intros Hc Hd.
  assert (Hread : forall name, keeps_open (read_disk (seg_content name))) by (intros name b'; unfold read_disk; keep_open).
  assert (Hfile : forall f, keeps_open (file_op f)) by (intros f b'; unfold file_op; keep_open).
  assert (Hgroups : forall fuel name todo next delivered,
    preserves (fun p => sp_closed p.1 = b) (drain_groups fuel cancelled (Z.to_nat maximum) deliver name todo next delivered)).
  { induction fuel as [|fuel IH]; intros name todo next delivered; simpl; keep_open; auto using keeps_on_spool. }
  assert (Hpaths : forall names delivered, preserves (fun p => sp_closed p.1 = b)
    (drain_paths cancelled "spool: corrupt evidence retained in quarantine"
      (fun name todo next delivered => drain_groups (length todo) cancelled (Z.to_nat maximum) deliver name todo next delivered)
      names delivered)).
  { induction names as [|name rest IH]; intros delivered; simpl; unfold corrupt; keep_open;
      auto using keeps_on_spool, keeps_checkpoint, keeps_remove, keeps_recordLoss, keeps_quarantinePath. }
  unfold DrainBatches, drain_start, segmentsLocked. keep_open; auto. apply keeps_on_spool. intros b'. unfold read_disk. keep_open.
  apply keeps_seal.
Qed.

(** ** The agent's own operations *)

Definition spool_kept (o o' : option Spool) : Prop :=
  match o, o' with
  | Some sp, Some sp' => sp_closed sp' = sp_closed sp /\ (sp_closed sp = true -> sp' = sp)
  | None, None => True
  | _, _ => False
  end.
(** [a'] is as open as [a], and a closed queue is the same. *)
Definition agent_like (a a' : Agent) : Prop := ag_closed a' = ag_closed a /\ spool_kept (ag_spool a) (ag_spool a').
Lemma agent_like_refl a : agent_like a a.
Proof. split; [done|]. by destruct (ag_spool a). Qed.
Lemma agent_like_trans a b c : agent_like a b -> agent_like b c -> agent_like a c.
Proof.
  intros [E1 F1] [E2 F2]. split; [congruence|]. destruct (ag_spool a), (ag_spool b), (ag_spool c); try done.
  destruct F1 as [? Hx], F2 as [? Hy]. split; [congruence|]. intros Hs. rewrite <- (Hx Hs). apply Hy. congruence.
Qed.
(** Closed or open, the queue can be given an operation that fails when it is
    closed. *)
Definition refuses {A} (m : M Spool A) : Prop := forall sp fs, sp_closed sp = true -> run_state m sp fs = sp.
Lemma on_queue_like {A} (m : M Spool A) a : keeps_open m -> refuses m -> preserves (agent_like a) (on_queue m).
Proof.
  intros Hm Hr a1 fs Ha. eapply agent_like_trans; [exact Ha|]. unfold run_state, on_queue.
  destruct (ag_spool a1) as [sp|] eqn:E; [|apply agent_like_refl].
  pose proof (Hm (sp_closed sp) sp fs eq_refl) as Hk. pose proof (Hr sp fs) as Hc. unfold run_state in *.
  destruct (m sp fs) as [[r sp'] fs']. split; [done|]. simpl. rewrite E. by split.
Qed.
Lemma refuses_Bind origin tenant server : refuses (BindDestination origin tenant server).
Proof. intros sp fs Hs. unfold run_state, BindDestination, inspect. by rewrite Hs. Qed.
Lemma refuses_Append type body now name cut : refuses (Append type body now name cut).
Proof.
  intros sp fs Hs. unfold run_state, Append. destruct (entry_marshal _); [|done]. cbv zeta. destruct (_ <? _); [done|].
  unfold append_line, inspect. by rewrite Hs.
Qed.
Lemma modify_like (f : Agent -> Agent) a :
  (forall x, ag_closed (f x) = ag_closed x /\ ag_spool (f x) = ag_spool x) -> preserves (agent_like a) (modify f).
Proof. intros Hf. apply preserves_modify. intros x [Hc Hs]. destruct (Hf x) as [E1 E2]. split; [congruence|]. by rewrite E2. Qed.

Lemma BindIdentity_like tenant server a : preserves (agent_like a) (BindIdentity tenant server).
Proof.
  unfold BindIdentity. keep_open; try (by apply modify_like); apply on_queue_like; [apply keeps_Bind|apply refuses_Bind].
Qed.
Lemma enqueue_like server metric process id clock name cut a :
  preserves (agent_like a) (enqueue_row server metric process id clock name cut).
Proof.
  unfold enqueue_row. keep_open; try apply on_queue_like;
    auto using keeps_Bind, refuses_Bind, keeps_Append, refuses_Append.
Qed.
(** Nothing is queued once the agent is closed. *)
Lemma closed_refuses server metric process id clock name cut a fs :
  ag_closed a = true -> enqueue_row server metric process id clock name cut a fs = (Err (EMsg "agent: closed"), a, fs).
Proof. intros Ha. unfold enqueue_row, inspect. by rewrite Ha. Qed.
End spool.

(** ** The running agent *)

Section running.
Context `{Unicode} `{URLParser} `{SpoolJSON} `{AgentJSON}.

Definition draining (r : running) : bool := match ru_drainer r with NoDrainer | Returned => false | _ => true end.
Record run_ok (r : running) : Prop := {
  ro_closer : ag_closed (ru_agent r) = true <-> ru_closer r <> Open;
  ro_cancelled : ag_closed (ru_agent r) = true -> ru_cancelled r = true;
  ro_idle : ru_closer r = ClosingSpool \/ ru_closer r = CloseDone -> idle r = true;
  ro_once : ru_once r = false -> ru_drainer r = NoDrainer /\ ru_watcher r = NoWatcher;
  ro_open : ru_closer r <> CloseDone -> forall sp, ag_spool (ru_agent r) = Some sp -> sp_closed sp = false;
  ro_shut : ru_closer r = CloseDone -> forall sp, ag_spool (ru_agent r) = Some sp -> sp_closed sp = true
}.
Lemma launch_ok a : ag_closed a = false -> (forall sp, ag_spool a = Some sp -> sp_closed sp = false) -> run_ok (launch a).
Proof. intros Ha Hs. split; simpl; rewrite ?Ha; try done; try (by intros [?|?]). Qed.

(** A step of the agent's own operations. *)
Lemma like_ok a r : agent_like (ru_agent r) a -> run_ok r -> run_ok (with_agent a r).
Proof.
  intros [Hc Hs] [O1 O2 O3 O4 O5 O6]. split; simpl; rewrite ?Hc; try done.
  - intros Hn sp E. rewrite E in Hs. destruct (ag_spool (ru_agent r)) as [sp0|] eqn:E0; [|done].
    destruct Hs as [-> _]. by apply O5.
  - intros Hn sp E. rewrite E in Hs. destruct (ag_spool (ru_agent r)) as [sp0|] eqn:E0; [|done].
    destruct Hs as [-> _]. by apply O6.
Qed.
Lemma StartDrainer_ok parent r : run_ok r -> run_ok (StartDrainer parent r).
Proof.
  intros Hok. unfold StartDrainer. destruct (_ || _) eqn:E; [done|]. bools. destruct Hok as [O1 O2 O3 O4 O5 O6].
  split; simpl; try done. intros Hc. exfalso.
  assert (ag_closed (ru_agent r) = true) by (apply O1; destruct Hc as [Hc|Hc]; rewrite Hc; done). congruence.
Qed.
Lemma close_spool_closed fs a sp : ag_spool (close_spool fs a) = Some sp -> sp_closed sp = true.
Proof.
  unfold close_spool, run_state, on_queue. destruct (ag_spool a) as [sp0|] eqn:E; [|by rewrite E].
  destruct (Spool.Close sp0 fs) as [[r sp'] fs'] eqn:Ec. simpl. intros [= ->].
  unfold Spool.Close, inspect in Ec. destruct (sp_closed sp0) eqn:Es; [by injection Ec as _ <- _|].
  unfold mbind, modify in Ec. pose proof (keeps_seal true (with_closed sp0) fs eq_refl) as Hk.
  unfold run_state in Hk. by rewrite Ec in Hk.
Qed.
Lemma close_spool_agent fs a : ag_closed (close_spool fs a) = ag_closed a.
Proof.
  unfold close_spool, run_state, on_queue. destruct (ag_spool a) as [sp|] eqn:E; [|done].
  by destruct (Spool.Close sp fs) as [[r sp'] fs'].
Qed.
Lemma touch_closed m fs a : keeps_open m -> ag_closed (touch m fs a) = ag_closed a /\
  forall sp, ag_spool (touch m fs a) = Some sp -> exists sp0, ag_spool a = Some sp0 /\ sp_closed sp = sp_closed sp0.
Proof.
  intros Hm. unfold touch, run_state, on_queue. destruct (ag_spool a) as [sp0|] eqn:E.
  - pose proof (Hm (sp_closed sp0) sp0 fs eq_refl) as Hk. unfold run_state in Hk. destruct (m sp0 fs) as [[r sp'] fs'].
    split; [done|]. simpl. intros sp [= <-]. by exists sp0.
  - split; [done|]. simpl. intros sp Hsp. congruence.
Qed.

(** A goroutine that is running keeps the closer waiting. *)
Lemma busy_closer r : run_ok r -> idle r = false -> ru_closer r = Open \/ ru_closer r = WaitingForWorkers.
Proof.
  intros Hok Hi. destruct (ru_closer r) eqn:E; [by left|by right|..]; exfalso;
    assert (idle r = true) by (apply (ro_idle _ Hok); auto); congruence.
Qed.
Lemma drainer_ok d r : run_ok r -> idle r = false -> ru_once r = true -> run_ok (with_drainer d r).
Proof.
  intros Hok Hi Ho. pose proof (busy_closer _ Hok Hi) as Hc. destruct Hok as [O1 O2 O3 O4 O5 O6].
  split; simpl; try done; [|by rewrite Ho]. intros Hcl. destruct Hc as [Hc|Hc], Hcl as [Hcl|Hcl]; congruence.
Qed.
Lemma watcher_ok b r : run_ok r -> ru_watcher r = Watching -> run_ok (with_watcher WatchEnded b r).
Proof.
  intros Hok Hw. assert (Hi : idle r = false) by (unfold idle; rewrite Hw; by destruct (ru_drainer r)).
  pose proof (busy_closer _ Hok Hi) as Hc. destruct Hok as [O1 O2 O3 O4 O5 O6].
  split; simpl; try done.
  - intros Hcl. rewrite O2 by done. apply orb_true_r.
  - intros Hcl. destruct Hc as [Hc|Hc], Hcl as [Hcl|Hcl]; congruence.
  - intros Ho. destruct (O4 Ho). congruence.
Qed.
Lemma running_once r : run_ok r -> draining r = true -> ru_once r = true.
Proof. intros Hok Hd. destruct (ru_once r) eqn:E; [done|]. destruct (ro_once _ Hok E) as [Hn _]. unfold draining in Hd. by rewrite Hn in Hd. Qed.
Lemma draining_busy r : draining r = true -> idle r = false.
Proof. unfold draining, idle. by destruct (ru_drainer r). Qed.

Lemma agent_step_ok r r' : agent_step r r' -> run_ok r -> run_ok r'.
Proof.
  assert (Hdr : forall d r, run_ok r -> draining r = true -> run_ok (with_drainer d r)).
  { intros d r0 Hok Hd. apply drainer_ok; [done|by apply draining_busy|by apply running_once]. }
  intros Hs Hok. destruct Hs as [r tenant server fs|r server metric process id clock name cut fs res a' fs' E|r n E|r parent|r|r E E2|r E E2
    |r E E2|r E E2|r m fs E Hm|r failed E|r failed E|r E E2|r failed E E2|r E|r E|r E E2|r fs E].
  - apply like_ok; [|done]. apply (BindIdentity_like tenant server (ru_agent r)), agent_like_refl.
  - assert (Hl : agent_like (ru_agent r) a').
    { pose proof (enqueue_like server metric process id clock name cut (ru_agent r) (ru_agent r) fs (agent_like_refl _)) as Hl.
      unfold run_state in Hl. by rewrite E in Hl. }
    destruct (like_ok _ _ Hl Hok) as [O1 O2 O3 O4 O5 O6]. by split.
  - apply StartDrainer_ok. destruct Hok as [O1 O2 O3 O4 O5 O6]. by split.
  - by apply StartDrainer_ok.
  - destruct Hok as [O1 O2 O3 O4 O5 O6]. by split.
  - by apply watcher_ok.
  - by apply watcher_ok.
  - apply Hdr; [done|]. unfold draining. by rewrite E.
  - apply Hdr; [done|]. unfold draining. by rewrite E.
  - destruct (touch_closed m fs (ru_agent r) Hm) as [Hc Hsp]. destruct Hok as [O1 O2 O3 O4 O5 O6].
    split; simpl; rewrite ?Hc; try done; intros Hn sp (sp0 & Hsp0 & ->)%Hsp; eauto.
  - apply Hdr; [done|]. unfold draining. by rewrite E.
  - apply Hdr; [done|]. unfold draining. by rewrite E.
  - apply Hdr; [|unfold draining; simpl; by rewrite E]. apply like_ok; [|done]. split; [done|]. simpl. by destruct (ag_spool _).
  - apply Hdr; [done|]. unfold draining. by rewrite E.
  - destruct Hok as [O1 O2 O3 O4 O5 O6]. split; simpl; try done; [by intros [?|?]|].
    intros _. apply O5. intros Hc. assert (ag_closed (ru_agent r) = true) by (apply O1; by rewrite Hc). congruence.
  - done.
  - destruct Hok as [O1 O2 O3 O4 O5 O6]. split; simpl; try done.
    + rewrite O1, E. done.
    + intros _ sp. apply O5. by rewrite E.
  - assert (Hcl : ag_closed (ru_agent r) = true) by (apply (ro_closer _ Hok); by rewrite E).
    destruct Hok as [O1 O2 O3 O4 O5 O6]. split; simpl; rewrite ?close_spool_agent; try done.
    + intros _. apply O3. by left.
    + intros _ sp Hsp. by eapply close_spool_closed.
Qed.
Lemma agent_steps_ok r r' : agent_steps r r' -> run_ok r -> run_ok r'.
Proof. induction 1; eauto using agent_step_ok. Qed.

(** A queue that has been closed. *)
Definition shut (r : running) : Prop := exists sp, ag_spool (ru_agent r) = Some sp /\ sp_closed sp = true.
Lemma shut_done r : run_ok r -> shut r -> ru_closer r = CloseDone.
Proof.
  intros Hok (sp & Hsp & Hc). destruct (decide (ru_closer r = CloseDone)) as [|Hn]; [done|].
  pose proof (ro_open _ Hok Hn sp Hsp). congruence.
Qed.
Lemma shut_stays r r' : agent_step r r' -> run_ok r -> ru_closer r = CloseDone ->
  ru_closer r' = CloseDone /\ spool_kept (ag_spool (ru_agent r)) (ag_spool (ru_agent r')).
Proof.
  intros Hs Hok Hd. assert (Hi : idle r = true) by (apply (ro_idle _ Hok); by right).
  assert (Hcl : ag_closed (ru_agent r) = true) by (apply (ro_closer _ Hok); by rewrite Hd).
  assert (Hstart : forall parent r0, ag_closed (ru_agent r0) = true -> StartDrainer parent r0 = r0).
  { intros parent r0 Hc. unfold StartDrainer. by rewrite Hc. }
  assert (Hrefl : forall o, spool_kept o o) by (intros [sp|]; done).
  destruct Hs as [r tenant server fs|r server metric process id clock name cut fs res a' fs' E|r n E|r parent|r|r E E2|r E E2
    |r E E2|r E E2|r m fs E Hm|r failed E|r failed E|r E E2|r failed E E2|r E|r E|r E E2|r fs E];
    try (by rewrite Hd in E); try (by split); try (unfold idle in Hi; by rewrite E in Hi).
  - split; [done|]. by apply (BindIdentity_like tenant server (ru_agent r)), agent_like_refl.
  - rewrite closed_refuses in E by done. by injection E as _ <- _.
  - by rewrite Hstart.
  - by rewrite Hstart.
  - congruence.
Qed.
Lemma shut_forever r r' : agent_steps r r' -> run_ok r -> ru_closer r = CloseDone ->
  ag_spool (ru_agent r') = ag_spool (ru_agent r).
Proof.
  induction 1 as [r|r r1 r2 Hs _ IH]; intros Hok Hd; [done|].
  destruct (shut_stays _ _ Hs Hok Hd) as [Hd1 Hk]. rewrite IH by (done || by eapply agent_step_ok).
  destruct (ag_spool (ru_agent r)) as [sp|] eqn:E, (ag_spool (ru_agent r1)) as [sp1|]; try done.
  destruct Hk as [_ Hk]. f_equal. apply Hk. by apply (ro_shut _ Hok Hd).
Qed.

(** *** Closing ends *)

Lemma close_ends_idle r : ru_closer r = WaitingForWorkers -> idle r = true ->
  exists r', agent_steps r r' /\ ru_closer r' = CloseDone.
Proof.
  intros Hc Hi. eexists. split; [|shelve]. eapply rtc_l; [by apply CloseWaited|]. eapply rtc_l; [by apply (CloseCloses _ [])|].
  apply rtc_refl. Unshelve. done.
Qed.
Lemma watcher_ends r : ru_cancelled r = true -> ru_closer r = WaitingForWorkers ->
  exists r', agent_steps r r' /\ ru_closer r' = WaitingForWorkers /\ ru_cancelled r' = true /\
    ru_drainer r' = ru_drainer r /\ ru_watcher r' <> Watching.
Proof.
  intros Hx Hc. destruct (decide (ru_watcher r = Watching)) as [Hw|Hw]; [|exists r; split; [apply rtc_refl|done]].
  exists (with_watcher WatchEnded false r). split; [apply rtc_once; by apply WatcherEnds|done].
Qed.
(** The drain in progress ends, and the loop then sees that it is cancelled. *)
Lemma drainer_ends r : ru_cancelled r = true ->
  exists r', agent_steps r r' /\ ru_closer r' = ru_closer r /\ ru_cancelled r' = true /\
    ru_watcher r' = ru_watcher r /\ draining r' = false.
Proof.
  intros Hx. destruct (ru_drainer r) eqn:Ed.
  - exists r. split; [apply rtc_refl|]. unfold draining. by rewrite Ed.
  - exists (with_drainer Returned r). split; [apply rtc_once; by apply DrainerStops|done].
  - exists (with_drainer Returned (with_drainer (Resting false) r)). split; [|done].
    eapply rtc_l; [by apply (DrainerRests _ false)|]. apply rtc_once. by apply (DrainerCancelled _ false).
  - exists (with_drainer Returned r). split; [apply rtc_once; by eapply DrainerCancelled|done].
  - exists r. split; [apply rtc_refl|]. unfold draining. by rewrite Ed.
Qed.
Lemma close_ends r : run_ok r -> ag_closed (ru_agent r) = true -> exists r', agent_steps r r' /\ ru_closer r' = CloseDone.
Proof.
  intros Hok Hcl. pose proof (ro_cancelled _ Hok Hcl) as Hx. destruct (ru_closer r) eqn:Ec.
  - apply (ro_closer _ Hok) in Hcl. congruence.
  - destruct (watcher_ends r Hx Ec) as (r1 & Hs1 & Hc1 & Hx1 & _ & Hw1).
    destruct (drainer_ends r1 Hx1) as (r2 & Hs2 & Hc2 & _ & Hw2 & Hd2).
    destruct (close_ends_idle r2) as (r3 & Hs3 & Hc3); [congruence| |].
    + unfold idle, draining in *. rewrite Hw2. by destruct (ru_drainer r2), (ru_watcher r1).
    + exists r3. split; [|done]. etransitivity; [exact Hs1|]. by etransitivity.
  - eexists. split; [apply rtc_once; by apply (CloseCloses _ [])|done].
  - exists r. split; [apply rtc_refl|done].
Qed.

(** C28. Closing an agent.  However its goroutines interleave (inserts, the one
    drainer, its deliveries, the watcher of the caller's context, rebinding, and
    [Close] called at any moment, more than once): as long as the drainer runs,
    the queue is open; once [Close] has closed the queue, no goroutine of the
    agent runs any more and nothing the agent is asked to do afterwards touches
    the queue, which the next process finds as it was; an insert after [Close]
    began fails and queues nothing; the drainer is started at most once; and
    from every state that can be reached a [Close] that has begun can
    return. *)
Theorem agent_closes_cleanly (a : Agent) (r : running) :
  ag_closed a = false -> (forall sp, ag_spool a = Some sp -> sp_closed sp = false) ->
  agent_steps (launch a) r ->
  (draining r = true -> ~ shut r) /\
  (shut r -> idle r = true /\ forall r', agent_steps r r' -> ag_spool (ru_agent r') = ag_spool (ru_agent r)) /\
  (ag_closed (ru_agent r) = true -> forall server metric process id clock name cut fs,
     enqueue_row server metric process id clock name cut (ru_agent r) fs = (Err (EMsg "agent: closed"), ru_agent r, fs)) /\
  (ru_once r = true -> forall parent, StartDrainer parent r = r) /\
  (ag_closed (ru_agent r) = true -> exists r', agent_steps r r' /\ ru_closer r' = CloseDone).
Proof.
  intros Ha Hsp Hs. pose proof (agent_steps_ok _ _ Hs (launch_ok a Ha Hsp)) as Hok. split_and!.
  - intros Hd Hsh. apply draining_busy in Hd. rewrite (ro_idle _ Hok) in Hd; [done|]. right. by apply shut_done.
  - intros Hsh. pose proof (shut_done _ Hok Hsh) as Hd. split; [apply (ro_idle _ Hok); by right|].
    intros r' Hs'. by apply shut_forever.
  - intros Hc server metric process id clock name cut fs. by apply closed_refuses.
  - intros Ho parent. unfold StartDrainer. by rewrite Ho, !orb_true_r.
  - intros Hc. by apply close_ends.
Qed.
End running.

(** ** Making directories *)

(** The directory [q] is [path] or one of those it is in. *)
Definition at_or_above (q path : string) : Prop := exists n, q = Nat.iter n FileDir path.
Lemma above_self path : at_or_above path path.
Proof. by exists 0%nat. Qed.
Lemma above_dir q path : at_or_above q (FileDir path) -> at_or_above q path.
Proof. intros [n ->]. exists (S n). symmetry. apply Nat.iter_succ_r. Qed.

(** [m'] has the files of [m], and directories that were missing at or above
    [path]. *)
Definition only_dirs (path : string) (m m' : machine) : Prop :=
  forall q, mc_fs m' !! q = mc_fs m !! q \/
    at_or_above q path /\ mc_fs m !! q = None /\ mc_fs m' !! q = Some (Directory 4096).
Lemma only_dirs_refl path m : only_dirs path m m.
Proof. intros q. by left. Qed.
Lemma only_dirs_above path m m' : only_dirs (FileDir path) m m' -> only_dirs path m m'.
Proof. intros Hm q. destruct (Hm q) as [?|(? & ?)]; [by left|right]. split; [by apply above_dir|done]. Qed.
Lemma only_dirs_trans path m1 m2 m3 : only_dirs path m1 m2 -> only_dirs path m2 m3 -> only_dirs path m1 m3.
Proof.
  intros H1 H2 q. destruct (H1 q) as [E1|(A1 & N1 & D1)], (H2 q) as [E2|(A2 & N2 & D2)].
  - left. congruence.
  - right. split_and!; [done|congruence|done].
  - right. split_and!; [done|done|congruence].
  - congruence.
Qed.
Lemma stat_path_insert n fs q x path d :
  fs !! q = None -> stat_path n fs path = Some d -> stat_path n (<[q := x]> fs) path = Some d.
Proof.
  intros Hq. revert path. induction n as [|n IH]; intros path; simpl;
    (destruct (decide (path = q)) as [->|Hne]; [by rewrite Hq|rewrite lookup_insert_ne by done]);
    destruct (fs !! path) as [[| |t]|]; try done. apply IH.
Qed.
Lemma mkdir_only path m m' : mkdir path m = Ok (tt, m') ->
  only_dirs path m m' /\ mc_fs m' !! path = Some (Directory 4096).
Proof.
  unfold mkdir. destruct (mc_fs m !! path) eqn:E; [done|]. intros [= <-]. simpl. split; [|apply lookup_insert_eq].
  intros q. simpl. destruct (decide (q = path)) as [->|Hne]; [right|left; by rewrite lookup_insert_ne].
  split; [apply above_self|]. split; [done|apply lookup_insert_eq].
Qed.
(** A path that leads to a directory, or one of those that are always there. *)
Definition is_dir (m : machine) (path : string) : Prop :=
  base_dir path = true \/ exists d, stat_path max_links (mc_fs m) path = Some (Directory d).
Lemma found_dir m path d : mc_fs m !! path = Some (Directory d) -> is_dir m path.
Proof. intros E. right. exists d. unfold max_links. simpl. by rewrite E. Qed.
#[local] Opaque max_links.
Definition made_dir (path : string) (m : machine) (r : result error unit) (m' : machine) : Prop :=
  only_dirs path m m' /\ (r = Ok tt -> is_dir m' path).
Lemma wp_mkdir_last path m m1 : only_dirs path m m1 ->
  wp (let* r := attempt (statement (mkdir path)) in
      match r with
      | Ok _ => ret tt
      | Err e => inspect (fun m => match mc_fs m !! path with Some (Directory _) => ret tt | _ => fail e end)
      end) (made_dir path m) m1.
Proof.
  intros Hm1. apply wp_try, wp_statement.
  - intros e. apply wp_inspect. destruct (mc_fs m1 !! path) as [[|d|]|] eqn:E; try (by apply wp_fail).
    apply wp_ret. split; [done|intros _; by eapply found_dir].
  - intros [] m2 [Hm2 Hd]%mkdir_only. pose proof (only_dirs_trans _ _ _ _ Hm1 Hm2) as Hm12.
    split; [apply wp_ret|intros e; apply wp_inspect; rewrite Hd; apply wp_ret];
      (split; [done|intros _; by eapply found_dir]).
Qed.
Lemma wp_already path m : is_dir m path -> wp (statement (fun m => Ok (tt, m))) (made_dir path m) m.
Proof.
  intros Hd. apply wp_statement; [intros e; by split; [apply only_dirs_refl|]|]. intros [] x [= <-].
  split; [by split; [apply only_dirs_refl|]|]. intros e. by split; [apply only_dirs_refl|].
Qed.
Lemma wp_mkdir_all fuel path m : wp (mkdir_all fuel path) (made_dir path m) m.
Proof.
  revert path m. induction fuel as [|fuel IH]; intros path m; cbn [mkdir_all]; apply wp_inspect;
    (destruct (base_dir path) eqn:Eb; [apply wp_already; by left|]);
    (destruct (stat_path max_links (mc_fs m) path) as [[|d|]|] eqn:Es;
      [apply wp_fail; by split; [apply only_dirs_refl|]|apply wp_already; right; by exists d|
       apply wp_fail; by split; [apply only_dirs_refl|]|]); apply wp_mbind.
  - apply wp_ret, wp_mkdir_last, only_dirs_refl.
  - eapply wp_mono; [apply IH|]. intros [[]|e] m1 [Hm1%only_dirs_above _]; [by apply wp_mkdir_last|by split].
Qed.
(** After success the directory is there, and besides missing directories above
    it nothing was made. *)
Lemma wp_MkdirAll path m : wp (MkdirAll path) (made_dir path m) m.
Proof. apply wp_mkdir_all. Qed.

(** *** The fuel is enough *)

Lemma FileDir_rooted parts : Forall proper_part parts -> FileDir (rooted parts) = rooted (removelast parts).
Proof. intros Hp. unfold FileDir. by rewrite IsAbs_rooted, Dir_rooted. Qed.
Lemma mkdir_more fuel1 fuel2 path m fs :
  (forall m fs, mkdir_all fuel1 (FileDir path) m fs = mkdir_all fuel2 (FileDir path) m fs) ->
  mkdir_all (S fuel1) path m fs = mkdir_all (S fuel2) path m fs.
Proof.
  intros H. cbn [mkdir_all]. unfold inspect. destruct (base_dir path); [done|].
  destruct (stat_path _ _ _) as [[]|]; try done. unfold mbind. by rewrite H.
Qed.
Lemma mkdir_rooted rparts : Forall proper_part rparts -> forall n1 n2 m fs,
  (length rparts <= n1)%nat -> (length rparts <= n2)%nat ->
  mkdir_all n1 (rooted (rev rparts)) m fs = mkdir_all n2 (rooted (rev rparts)) m fs.
Proof.
  induction rparts as [|p rparts IH]; intros Hp n1 n2 m fs H1 H2.
  - by destruct n1, n2.
  - simpl in H1, H2. destruct n1 as [|n1], n2 as [|n2]; [lia..|]. apply mkdir_more. intros m1 fs1.
    rewrite FileDir_rooted by (by apply Forall_rev). simpl rev. rewrite removelast_last.
    apply Forall_cons in Hp as [_ Hp]. apply IH; [done|lia..].
Qed.
(** More rounds than [MkdirAll] makes do nothing else. *)
Lemma MkdirAll_fuel path n m fs : IsAbs path = true -> (String.length path <= n)%nat ->
  mkdir_all n path m fs = MkdirAll path m fs.
Proof.
  intros Ha Hn. pose proof (parent_shorter path Ha) as Hs. unfold MkdirAll.
  destruct (String.length path) as [|k] eqn:E; [lia|]. destruct n as [|n]; [lia|]. apply mkdir_more. intros m1 fs1.
  unfold FileDir. rewrite Ha. change (Dir path) with (rooted (parent_parts path)).
  rewrite <- (rev_involutive (parent_parts path)). apply mkdir_rooted; [apply Forall_rev, parent_proper|rewrite length_rev; lia..].
Qed.

(** ** Starting *)

Section starting.
Context `{Unicode} `{URLParser}.
Context (wd : option string) (extraRoots : list string) (owned : string -> bool) (boot seed : option Z).

(** Only files change on the way. *)
Definition files_only {A} (m : M machine A) : Prop := forall b, preserves (fun x => mc_env x = b) m.
Lemma files_statement {A} (f : machine -> result error (A * machine)) :
  (forall x a x', f x = Ok (a, x') -> mc_env x' = mc_env x) -> files_only (statement f).
Proof. intros Hf b. apply preserves_statement. intros x a x' Hx E. apply Hf in E. congruence. Qed.
Lemma files_mkdir_all fuel path : files_only (mkdir_all fuel path).
Proof.
  intros b. revert path. induction fuel as [|fuel IH]; intros path; cbn [mkdir_all]; apply preserves_inspect; intros m _.
  all: destruct (base_dir path); [apply files_statement; by intros x [] x' [= <-]|].
  all: destruct (stat_path _ _ _) as [[]|]; try apply preserves_fail; [apply files_statement; by intros x [] x' [= <-]|].
  all: apply preserves_mbind; [first [apply preserves_ret|apply IH]|intros _].
  all: apply preserves_mbind; [apply preserves_attempt, files_statement; intros x [] x'; unfold mkdir;
    destruct (mc_fs x !! path); [done|by intros [= <-]]|].
  all: intros [[]|e]; [apply preserves_ret|]; apply preserves_inspect; intros m' _.
  all: destruct (mc_fs m' !! path) as [[]|]; first [apply preserves_ret|apply preserves_fail].
Qed.
Lemma files_MkdirAll path : files_only (MkdirAll path).
Proof. apply files_mkdir_all. Qed.
Lemma files_Lstat path : files_only (Lstat path).
Proof. apply files_statement. intros x n x'. destruct (mc_fs x !! path); [|done]. by intros [= _ <-]. Qed.
Lemma files_reject_link path : files_only (reject_link path).
Proof.
  intros b. apply preserves_mbind; [apply preserves_attempt, files_Lstat|]. intros [[]|e]; try apply preserves_ret; [apply preserves_fail|].
  destruct (Is e ErrNotExist); [apply preserves_ret|apply preserves_fail].
Qed.
Lemma files_secure path : files_only (secureSpoolDirectory owned path).
Proof.
  intros b. apply preserves_mbind; [apply files_Lstat|]. intros [|n|]; try apply preserves_fail.
  destruct (negb _); [apply preserves_fail|apply preserves_query].
Qed.
Lemma files_DataDir override : files_only (DataDir wd extraRoots override).
Proof.
  assert (Hmk : forall dir, files_only (make_dir dir)).
  { intros dir b. apply preserves_mbind; [apply preserves_attempt, files_MkdirAll|]. intros [[]|e]; [apply preserves_ret|apply preserves_fail]. }
  intros b. apply preserves_inspect. intros x _. cbv zeta. destruct (negb (is_empty override)); [apply Hmk|].
  destruct (negb _); [destruct (if IsolationEnabled _ then _ else _); [apply preserves_fail|apply Hmk]|].
  destruct (IsolationEnabled _); [apply preserves_fail|apply Hmk].
Qed.

(** The environment, and the locks that are held. *)
Definition same_locks (h h' : agent_host) : Prop := mc_env (ah_machine h') = mc_env (ah_machine h) /\ ah_locks h' = ah_locks h.
Lemma wp_on_machine {A} (m : M machine A) (Q : result error A -> agent_host -> Prop) h :
  files_only m -> (forall r h', same_locks h h' -> Q r h') -> wp (on_machine m) Q h.
Proof.
  intros Hm HQ. apply wp_zoom. intros fs. specialize (Hm _ (ah_machine h) fs eq_refl). unfold run_state in Hm.
  destruct (m (ah_machine h) fs) as [[r x] fs']. apply HQ. by split.
Qed.
Lemma same_locks_refl h : same_locks h h.
Proof. by split. Qed.
Lemma same_locks_trans h h1 h2 : same_locks h h1 -> same_locks h1 h2 -> same_locks h h2.
Proof. intros [E1 F1] [E2 F2]. split; congruence. Qed.

Definition may_use (h : agent_host) (dir : string) : Prop :=
  IsolationEnabled (mc_env (ah_machine h)) = true ->
  RejectProductionPath wd extraRoots (mc_env (ah_machine h)) dir = None.
Definition opened (dir : string) (h : agent_host) (r : result error Spool) (h' : agent_host) : Prop :=
  match r with
  | Ok sp => mc_env (ah_machine h') = mc_env (ah_machine h) /\ lock_path dir ∉ ah_locks h /\
      ah_locks h' = {[lock_path dir]} ∪ ah_locks h /\ sp_closed sp = false /\ may_use h dir
  | Err _ => same_locks h h'
  end.
Lemma wp_lockSpool path h :
  wp (lockSpool path) (fun r h' => match r with
     | Ok _ => mc_env (ah_machine h') = mc_env (ah_machine h) /\ path ∉ ah_locks h /\ ah_locks h' = {[path]} ∪ ah_locks h
     | Err _ => same_locks h h' end) h.
Proof.
  apply wp_mbind, wp_on_machine.
  - apply files_statement. intros x [] x'. destruct (mc_fs x !! path) as [[]|]; try done; by intros [= <-].
  - intros [[]|e] h1 [E1 E2]; [|by split]. apply wp_mbind, wp_query; [by split|]. case_bool_decide as Hin.
    + apply wp_fail. by split.
    + apply wp_modify. rewrite E2 in *. by split.
Qed.
Lemma wp_OpenSpool dir h : wp (OpenSpool wd extraRoots owned dir) (opened dir h) h.
Proof.
  unfold OpenSpool. apply wp_mbind. eapply wp_mono with
    (Q := fun r h' => h' = h /\ (is_ok r = true -> may_use h dir)).
  { apply wp_inspect. cbv zeta. unfold may_use. destruct (IsolationEnabled _) eqn:Ei; [|by apply wp_ret].
    destruct (RejectProductionPath _ _ _ _) eqn:Er; [by apply wp_fail|by apply wp_ret]. }
  intros [[]|e] h0 [-> Hmay]; [|apply same_locks_refl]. specialize (Hmay eq_refl).
  apply wp_mbind, wp_on_machine; [apply files_reject_link|]. intros [[]|e] h1 Hh1; [|done].
  apply wp_mbind, wp_on_machine; [apply files_MkdirAll|]. intros [[]|e] h2 Hh2; [|by eapply same_locks_trans].
  assert (Hh02 : same_locks h h2) by by eapply same_locks_trans.
  apply wp_mbind, wp_on_machine; [apply files_secure|]. intros [[]|e] h3 Hh3; [|by eapply same_locks_trans].
  assert (Hh03 : same_locks h h3) by by eapply same_locks_trans.
  apply wp_try. eapply wp_mono; [apply wp_lockSpool|]. intros [[]|e] h4 Hh4; [|apply wp_fail; by eapply same_locks_trans].
  destruct Hh03 as [E1 E2], Hh4 as (E3 & Hn & E4). apply wp_inspect, wp_ret. rewrite E2 in *. unfold opened. split_and!; [congruence|done..].
Qed.

(** What a constructor leaves behind. *)
Definition started (hubURL apiKey : string) (h : agent_host) (r : result error Agent) (h' : agent_host) : Prop :=
  exists a, r = Ok a /\ ag_closed a = false /\ ag_bound a = false /\ ag_apiKey a = apiKey /\ ag_hubURL a = CanonicalHubURL hubURL /\
  match ag_spool a with
  | Some sp => sp_closed sp = false /\ exists dir, dir <> EmptyString /\ may_use h dir /\
      lock_path dir ∉ ah_locks h /\ ah_locks h' = {[lock_path dir]} ∪ ah_locks h
  | None => ah_locks h' = ah_locks h /\ ag_initErr a <> None
  end /\
  (ag_initErr a = None -> RequireHTTPSHub hubURL = None /\ is_some (ag_spool a) = true /\
     exists b n, boot = Some b /\ b <> 0 /\ seed = Some n /\ ag_bootID a = "boot-" +:+ Itoa b /\
       0 <= ag_sequence a < 2 ^ 62).
Lemma initial_sequence_bound n : 0 <= initial_sequence n < 2 ^ 62.
Proof.
  unfold initial_sequence. change (Z.shiftl 1 62 - 1) with (Z.ones 62). rewrite Z.land_ones by lia.
  apply Z.mod_pos_bound. lia.
Qed.
Lemma started_transport hubURL apiKey h0 h r h' : same_locks h0 h -> started hubURL apiKey h r h' -> started hubURL apiKey h0 r h'.
Proof.
  intros [E1 E2] (a & -> & Hc & Hb & Hk & Hu & Hs & Hi). exists a. split_and!; try done.
  unfold may_use in *. rewrite E1, E2 in *. exact Hs.
Qed.
Lemma wp_newAgent hubURL apiKey dataDir h :
  wp (newAgent wd extraRoots owned boot seed hubURL apiKey dataDir) (started hubURL apiKey h) h.
Proof.
  unfold newAgent. cbv zeta. destruct (RequireHTTPSHub hubURL) as [e|] eqn:Eh.
  { apply wp_ret. eexists. by split_and!. }
  destruct (is_empty dataDir) eqn:Ed; [apply wp_ret; eexists; by split_and!|].
  assert (Hne : dataDir <> EmptyString) by by destruct dataDir.
  apply wp_try. eapply wp_mono; [apply wp_OpenSpool|]. intros [sp|e] h' Ho; apply wp_ret.
  2: { destruct Ho as [_ Ho]. eexists. by split_and!. }
  destruct Ho as (_ & Hn & Hl & Hsp & Hmay).
  assert (Hdir : sp_closed sp = false /\ exists dir, dir <> EmptyString /\ may_use h dir /\
      lock_path dir ∉ ah_locks h /\ ah_locks h' = {[lock_path dir]} ∪ ah_locks h) by (split; [done|by exists dataDir]).
  assert (Hbad : forall a, ag_closed a = false -> ag_bound a = false -> ag_apiKey a = apiKey -> ag_hubURL a = CanonicalHubURL hubURL ->
    ag_spool a = Some sp -> ag_initErr a <> None -> started hubURL apiKey h (Ok a) h').
  { intros a Hc Hb Hk Hu Hs Hi. exists a. rewrite Hs. do 5 (split; [done|]). by split. }
  destruct boot as [b|] eqn:Eb; [|by apply Hbad]. destruct (Z.eqb_spec b 0) as [|Hb]; [by apply Hbad|].
  destruct seed as [n|] eqn:En; [|by apply Hbad].
  eexists. do 5 (split; [done|]). split; [exact Hdir|]. intros _. split; [done|]. split; [done|]. exists b, n. do 4 (split; [done|]). apply initial_sequence_bound.
Qed.
Lemma wp_failed_agent hubURL apiKey e h :
  wp (failed_agent wd extraRoots owned boot seed hubURL apiKey e) (started hubURL apiKey h) h.
Proof.
  apply wp_mbind. eapply wp_mono; [apply wp_newAgent|]. intros r h' (a & -> & Hc & Hb & Hk & Hu & Hs & Hi). apply wp_ret.
  exists (set_initErr e a). split_and!; try done. simpl. destruct (ag_spool a); [done|]. by destruct Hs.
Qed.

Lemma wp_New override hubURL apiKey h :
  wp (New wd extraRoots owned boot seed override hubURL apiKey) (started hubURL apiKey h) h.
Proof.
  apply wp_try, wp_on_machine; [apply files_DataDir|]. intros [dir|e] h1 Hh1.
  - eapply wp_mono; [apply wp_newAgent|]. intros r h2. by apply started_transport.
  - eapply wp_mono; [apply wp_failed_agent|]. intros r h2. by apply started_transport.
Qed.

(** C29. An agent owns its queue.  Whatever fails while an agent is made, the
    constructor returns an agent that is neither bound nor closed.  If it has a
    queue, it took the ownership lock of that queue's directory, which nobody
    held, and otherwise it took no lock and reports an initialization error;
    with test isolation on, the directory is never a production path.  An agent
    without an initialization error has an acceptable hub address, a queue, the
    boot identity of the system and a sequence number that leaves room for
    2^62 events. *)
Theorem agents_own_their_queue (override hubURL apiKey spoolRoot : string) (h : agent_host) (fs : faults) :
  (let '(r, h', _) := New wd extraRoots owned boot seed override hubURL apiKey h fs in started hubURL apiKey h r h') /\
  (let '(r, h', _) := NewWithSpoolRoot wd extraRoots owned boot seed hubURL apiKey spoolRoot h fs in
   started hubURL apiKey h r h').
Proof.
  split; revert fs.
  - apply wp_New.
  - change (wp (NewWithSpoolRoot wd extraRoots owned boot seed hubURL apiKey spoolRoot) (started hubURL apiKey h) h).
    apply wp_inspect. destruct (RejectProductionPath _ _ _ _); [apply wp_failed_agent|apply wp_newAgent].
Qed.
End starting.

(** ** Test packages *)

Section isolate.
Context (sha256 : string -> string) (wd : option string) (extraRoots : list string).

(** A test package passes only when its tests ran, returned the code 0, and
    left every production file as it was before the suite began. *)
Lemma Run_passes canary payload root run m0 fs m3 fs' :
  Run sha256 wd extraRoots canary payload root run m0 fs = (Ok 0, m3, fs') ->
  exists dir m1 fs1 m2 fs2, run dir m1 fs1 = (Ok 0, m2, fs2) /\ IsolationEnabled (mc_env m1) = true /\
    SetDataDir wd extraRoots (mc_env m1) (Join root "data") EmptyString = Ok dir /\
    forall p, p ∈ ProductionSensitiveFiles wd extraRoots (mc_env m1) -> untouched sha256 (mc_fs m0 !! p) (mc_fs m2 !! p).
Proof.
  unfold Run. intros Hrun. apply mbind_ok in Hrun as (suite & ms & fss & Hsuite & Hrun).
  apply attempt_inv in Hsuite as (suite' & [= ->] & Hsuite). destruct suite' as [s|e]; [|by unfold ret in Hrun].
  pose proof (wp_run _ _ _ _ _ _ _ (wp_BeginSuite sha256 wd extraRoots canary payload root m0) Hsuite) as [Henv Hbefore _ _ [Hroot _]].
  apply mbind_ok in Hrun as (made & m1 & fs1 & Hmade & Hrun). apply attempt_inv in Hmade as (made' & [= ->] & Hmade).
  destruct made' as [[]|e]; [|by unfold ret in Hrun].
  assert (Hm1 : mc_env m1 = mc_env ms).
  { assert (Hw : wp (MkdirAll (Join (su_FixtureRoot s) "data")) (fun _ m => mc_env m = mc_env ms) ms).
    { apply wp_preserved; [|done]. apply files_MkdirAll. }
    exact (wp_run _ _ _ _ _ _ _ Hw Hmade). }
  unfold inspect in Hrun. destruct (SetDataDir _ _ _ _ _) as [dir|e] eqn:Edir; [|by unfold ret in Hrun].
  apply mbind_ok in Hrun as (code & m2 & fs2 & Htests & Hrun).
  destruct (wp_run _ _ _ _ _ _ _ (wp_Finish sha256 s code m2) Hrun) as (c & [= <-] & [?|(<- & Hv & _)]); [done|].
  exists dir, m1, fs1, m2, fs2. split; [done|]. rewrite Hm1, Henv. split_and!.
  - unfold IsolationEnabled, Getenv. simpl. by rewrite lookup_insert_eq.
  - by rewrite <- Henv, <- Hm1, <- Hroot.
  - rewrite Henv in Hbefore. by eapply verified_untouched.
Qed.
End isolate.

(** ** Witness *)

Module SampleRun.
Definition event : running -> running -> Prop :=
  @agent_steps ascii_only SampleAgent.any_url SpoolProofs.Sample.json SampleAgent.json.
Definition draining_agent : running := with_drainer InDrain (StartDrainer true (launch SampleAgent.agent)).
Definition closing : running := begin_close draining_agent.
End SampleRun.
Lemma agent_closes_cleanly_witness :
  draining SampleRun.closing = true /\ ~ shut SampleRun.closing /\
  exists r', SampleRun.event SampleRun.closing r' /\ ru_closer r' = CloseDone.
Proof.
  assert (Hs : SampleRun.event (launch SampleAgent.agent) SampleRun.closing).
  { eapply rtc_l; [apply (Starts _ true)|]. eapply rtc_l; [apply DrainerBegins; reflexivity|].
    eapply rtc_l; [apply CloseBegins; reflexivity|]. apply rtc_refl. }
  destruct (@agent_closes_cleanly ascii_only SampleAgent.any_url SpoolProofs.Sample.json SampleAgent.json
    SampleAgent.agent SampleRun.closing) as (Hopen & _ & _ & _ & Hend).
  - reflexivity.
  - intros sp [= <-]. reflexivity.
  - exact Hs.
  - split; [reflexivity|]. split; [apply Hopen; reflexivity|apply Hend; reflexivity].
Defined.
