(* ===== verification/Migration.v ===== *)
(** * The opaque-tenant migration ([storage/opaque_tenant.go])

    The tables of one SQLite database together, and the transaction that gives
    every tenant with a readable name a random one.  What the operating system
    answers while the backup is copied, and the random bytes of the new names,
    are arguments; the fail point of the tests is left out. *)

From S2P Require Export Ingest Identities.
Open Scope list_scope.
Open Scope Z_scope.

(** ** The database *)

Record hub_db := { hd_ingest : ingest_db; hd_auth : auth_db; hd_audit : audit_db }.
Definition empty_hub_db : hub_db := {| hd_ingest := empty_ingest; hd_auth := empty_auth; hd_audit := empty_audit |}.
Definition hd_with_ingest (i : ingest_db) (d : hub_db) : hub_db :=
  {| hd_ingest := i; hd_auth := hd_auth d; hd_audit := hd_audit d |}.
Definition hd_with_auth (a : auth_db) (d : hub_db) : hub_db :=
  {| hd_ingest := hd_ingest d; hd_auth := a; hd_audit := hd_audit d |}.
Definition hd_with_audit (t : audit_db) (d : hub_db) : hub_db :=
  {| hd_ingest := hd_ingest d; hd_auth := hd_auth d; hd_audit := t |}.

Record OpaqueTenantReport := { CredentialsMoved : Z; MetricsMoved : Z; ProcessesMoved : Z }.

(** ** [UPDATE ... SET tenant_id = ? WHERE tenant_id = ?] *)

Definition k_set_tenant (t : string) (k : key_row) : key_row :=
  {| k_id := k_id k; k_key_hash := k_key_hash k; k_tenant_id := t;
     k_client_name := k_client_name k; k_kind := k_kind k; k_scope := k_scope k;
     k_key_prefix := k_key_prefix k; k_expires_at := k_expires_at k; k_max_uses := k_max_uses k;
     k_uses := k_uses k; k_server_id := k_server_id k; k_issued_by := k_issued_by k;
     k_created_at := k_created_at k; k_last_seen_at := k_last_seen_at k; k_revoked_at := k_revoked_at k |}.
Definition m_set_tenant (t : string) (m : MetricRow) : MetricRow :=
  set_metric (m_ID m) t (m_ServerID m) (m_Timestamp m) (fun c => c) m.
Definition p_set_tenant (t : string) (p : ProcessRow) : ProcessRow :=
  set_process (p_ID p) t (p_ServerID p) (p_Timestamp p) p.

(** A table whose rows have a tenant, and the update of one tenant's rows. *)
Class Tenanted (R : Type) := { tenant_of : R -> string; set_tenant : string -> R -> R }.
#[export] Instance key_tenanted : Tenanted key_row := {| tenant_of := k_tenant_id; set_tenant := k_set_tenant |}.
#[export] Instance metric_tenanted : Tenanted MetricRow := {| tenant_of := m_TenantID; set_tenant := m_set_tenant |}.
#[export] Instance process_tenanted : Tenanted ProcessRow := {| tenant_of := p_TenantID; set_tenant := p_set_tenant |}.
Definition of_tenant `{Tenanted R} (t : string) (r : R) : bool := String.eqb (tenant_of r) t.
Definition remap `{Tenanted R} (new old : string) (rows : list R) : Z * list R :=
  (Z.of_nat (length (List.filter (of_tenant old) rows)), map (fun r => if of_tenant old r then set_tenant new r else r) rows).

Section migration.
Context `{Dialect} `{MapRange}.

(** The partial unique index on the active agents holds for the new name
    too. *)
Definition remap_keys (new old : string) (d : hub_db) : result error (Z * hub_db) :=
  let keys := t_keys (hd_auth d) in
  if existsb (fun k => of_tenant old k &&
       existsb (fun k' => negb (of_tenant old k') && agent_clash (k_set_tenant new k) k') keys) keys
  then Err (EDb unique_violation)
  else let '(n, keys') := remap new old keys in Ok (n, hd_with_auth (with_keys keys' (hd_auth d)) d).
Definition remap_metrics (new old : string) (d : hub_db) : Z * hub_db :=
  let i := hd_ingest d in
  let '(n, rows) := remap new old (d_metrics (i_rows i)) in
  (n, hd_with_ingest (with_rows (fun r => {| d_metrics := rows; d_metric_seq := d_metric_seq r;
                                          d_processes := d_processes r; d_process_seq := d_process_seq r |}) i) d).
Definition remap_processes (new old : string) (d : hub_db) : Z * hub_db :=
  let i := hd_ingest d in
  let '(n, rows) := remap new old (d_processes (i_rows i)) in
  (n, hd_with_ingest (with_rows (fun r => {| d_metrics := d_metrics r; d_metric_seq := d_metric_seq r;
                                          d_processes := rows; d_process_seq := d_process_seq r |}) i) d).

(** [SELECT DISTINCT tenant_id FROM ... WHERE tenant_id != ''] *)
Definition tenants_in {R} `{Tenanted R} (rows : list R) : list string :=
  remove_dups (List.filter (fun t => negb (is_empty t)) (map tenant_of rows)).
Definition see (seen : gmap string unit) (id : string) : gmap string unit :=
  if IsOpaqueTenantID id then seen else <[id := tt]> seen.
Definition collectPlaintextTenantIDs : M hub_db (list string) :=
  let* keys := query (fun d => tenants_in (t_keys (hd_auth d))) in
  let seen := fold_left see keys ∅ in
  let* metrics := query (fun d => tenants_in (d_metrics (i_rows (hd_ingest d)))) in
  let seen := fold_left see metrics seen in
  let* processes := query (fun d => tenants_in (d_processes (i_rows (hd_ingest d)))) in
  let seen := fold_left see processes seen in
  ret (map fst (range seen)).

Definition errRandom : error := EMsg "tenant id generation failed".
(** The loop; [hexes] is the randomness there is, its end a reader that
    fails. *)
Fixpoint remap_tenants (oldIDs hexes : list string) (report : OpaqueTenantReport) : M hub_db OpaqueTenantReport :=
  match oldIDs with
  | [] => ret report
  | oldID :: oldIDs =>
      match hexes with
      | [] => fail errRandom
      | hex :: hexes =>
          let newID := NewTenantID hex in
          let* n := wrap_err "remap api_keys" (statement (remap_keys newID oldID)) in
          let* m := wrap_err "remap metrics" (exec (remap_metrics newID oldID)) in
          let* p := wrap_err "remap processes" (exec (remap_processes newID oldID)) in
          remap_tenants oldIDs hexes
            {| CredentialsMoved := CredentialsMoved report + n; MetricsMoved := MetricsMoved report + m;
               ProcessesMoved := ProcessesMoved report + p |}
      end
  end.

(** [made] and [copied]: how creating the directory and copying the file
    end.  The partial report that comes with an error is left out: its caller
    drops it. *)
Definition MigrateOpaqueTenants (backupDir dbPath : string) (made copied : result error unit) (hexes : list string)
  : M hub_db OpaqueTenantReport :=
  let* _ := statement (fun d => Ok (tt, d)) in (* ensureAPIKeys *)
  if is_empty backupDir then fail (EMsg "storage: opaque tenant migration requires a backup directory")
  else
    let* _ := wrap_err "create backup dir" (lift made) in
    if is_empty dbPath then fail (EMsg "storage: sqlite path unknown; cannot backup")
    else
      let* _ := wrap_err "backup failed (migration not started)" (lift copied) in
      transaction (let* oldIDs := collectPlaintextTenantIDs in
                   remap_tenants oldIDs hexes {| CredentialsMoved := 0; MetricsMoved := 0; ProcessesMoved := 0 |}).
End migration.

(** ** A renaming of the tenants *)

Class TenantedLaws R `{Tenanted R} := {
  tenant_set : forall t (r : R), tenant_of (set_tenant t r) = t;
  set_set : forall t u (r : R), set_tenant t (set_tenant u r) = set_tenant t r;
  set_same : forall r : R, set_tenant (tenant_of r) r = r
}.
#[export] Instance key_tenanted_laws : TenantedLaws key_row.
Proof. by split; intros; try destruct r. Qed.
#[export] Instance metric_tenanted_laws : TenantedLaws MetricRow.
Proof. by split; intros; try destruct r. Qed.
#[export] Instance process_tenanted_laws : TenantedLaws ProcessRow.
Proof. by split; intros; try destruct r. Qed.

Definition relabel `{Tenanted R} (f : string -> string) (r : R) : R := set_tenant (f (tenant_of r)) r.
(** The database with [f] applied to the tenants of the three tables, and
    nothing else changed. *)
Definition rename_db (f : string -> string) (d : hub_db) : hub_db :=
  {| hd_ingest := with_rows (fun r => {| d_metrics := map (relabel f) (d_metrics r); d_metric_seq := d_metric_seq r;
                                         d_processes := map (relabel f) (d_processes r); d_process_seq := d_process_seq r |})
                    (hd_ingest d);
     hd_auth := with_keys (map (relabel f) (t_keys (hd_auth d))) (hd_auth d); hd_audit := hd_audit d |}.
(** A tenant of one of the three tables. *)
Definition in_use (d : hub_db) (t : string) : Prop :=
  (exists k, k ∈ t_keys (hd_auth d) /\ k_tenant_id k = t) \/
  (exists m, m ∈ d_metrics (i_rows (hd_ingest d)) /\ m_TenantID m = t) \/
  (exists p, p ∈ d_processes (i_rows (hd_ingest d)) /\ p_TenantID p = t).
Fixpoint ren (pairs : list (string * string)) (t : string) : string :=
  match pairs with
  | [] => t
  | (old, new) :: pairs => if String.eqb t old then new else ren pairs t
  end.

Section rows.
Context {R : Type} `{TenantedLaws R}.
Implicit Types (rows : list R) (f g : string -> string).

Lemma relabel_id f (r : R) : f (tenant_of r) = tenant_of r -> relabel f r = r.
Proof. unfold relabel. intros ->. apply set_same. Qed.
Lemma tenant_relabel f (r : R) : tenant_of (relabel f r) = f (tenant_of r).
Proof. apply tenant_set. Qed.
Lemma relabel_relabel f g (r : R) : relabel g (relabel f r) = relabel (fun t => g (f t)) r.
Proof. unfold relabel. by rewrite set_set, tenant_set. Qed.
Lemma relabel_ext f g (r : R) : f (tenant_of r) = g (tenant_of r) -> relabel f r = relabel g r.
Proof. unfold relabel. by intros ->. Qed.
Lemma map_relabel f g rows : map (relabel g) (map (relabel f) rows) = map (relabel (fun t => g (f t))) rows.
Proof. rewrite map_map. apply map_ext. apply relabel_relabel. Qed.

Lemma map_relabel_id f rows : (forall t, f t = t) -> map (relabel f) rows = rows.
Proof. intros Hf. transitivity (map (fun r => r) rows); [|apply map_id]. apply map_ext. intros r. by apply relabel_id. Qed.

Definition count (p : string -> bool) rows : Z := Z.of_nat (length (List.filter (fun r => p (tenant_of r)) rows)).
Lemma remap_split old new rows :
  remap new old rows = (count (fun t => String.eqb t old) rows, map (relabel (retenant old new)) rows).
Proof.
  unfold remap, count, of_tenant. f_equal. apply map_ext. intros r. unfold relabel, retenant.
  destruct (String.eqb (tenant_of r) old); [done|]. by rewrite set_same.
Qed.
Lemma count_swap (p : string -> bool) new old rows :
  p new = false -> count (fun t => String.eqb t old) rows + count p (map (relabel (retenant old new)) rows) =
  count (fun t => String.eqb t old || p t) rows.
Proof.
  intros Hp. unfold count. induction rows as [|r rows IH]; [done|]. simpl. rewrite tenant_relabel. unfold retenant at 1.
  destruct (String.eqb (tenant_of r) old) eqn:E; simpl.
  - rewrite Hp. simpl length. lia.
  - destruct (p (tenant_of r)); simpl length; lia.
Qed.
Lemma count_ext (p q : string -> bool) rows :
  (forall r, r ∈ rows -> p (tenant_of r) = q (tenant_of r)) -> count p rows = count q rows.
Proof.
  intros Hpq. unfold count. f_equal. f_equal. induction rows as [|r rows IH]; [done|]. simpl.
  rewrite (Hpq r) by set_solver. destruct (q (tenant_of r)); simpl; rewrite IH by (intros; apply Hpq; set_solver); done.
Qed.
Lemma filter_relabel f t rows :
  (forall r, r ∈ rows -> f (tenant_of r) = f t -> tenant_of r = t) ->
  List.filter (of_tenant (f t)) (map (relabel f) rows) = map (relabel f) (List.filter (of_tenant t) rows).
Proof.
  induction rows as [|r rows IH]; intros Hf; [done|]. simpl. rewrite IH by (intros; apply Hf; set_solver).
  replace (of_tenant (f t) (relabel f r)) with (of_tenant t r); [by destruct (of_tenant t r)|].
  unfold of_tenant. rewrite tenant_relabel.
  destruct (String.eqb_spec (tenant_of r) t) as [->|Hne]; [by rewrite String.eqb_refl|].
  destruct (String.eqb_spec (f (tenant_of r)) (f t)) as [E|_]; [|done]. exfalso. apply Hne, Hf; [set_solver|done].
Qed.
End rows.

Lemma rename_rename f g d : rename_db g (rename_db f d) = rename_db (fun t => g (f t)) d.
Proof. unfold rename_db, with_keys, with_rows. simpl. by rewrite !map_relabel. Qed.
Lemma rename_ext f g d : (forall t, f t = g t) -> rename_db f d = rename_db g d.
Proof.
  intros Hfg. unfold rename_db. f_equal; [|f_equal; apply map_ext; intros; by apply relabel_ext].
  unfold with_rows. do 2 f_equal; apply map_ext; intros; by apply relabel_ext.
Qed.
Lemma rename_id f d : (forall t, f t = t) -> rename_db f d = d.
Proof.
  intros Hf. unfold rename_db. destruct d as [[[ms s1 ps s2] rc b] [ks n h e ea] t]. unfold with_rows, with_keys. simpl.
  rewrite (map_relabel_id f ms), (map_relabel_id f ps), (map_relabel_id f ks); done.
Qed.

(** ** The loop *)

(** The rows of the three tables whose tenant satisfies [p]. *)
Definition rows_with (p : string -> bool) (d : hub_db) : OpaqueTenantReport :=
  {| CredentialsMoved := count p (t_keys (hd_auth d)); MetricsMoved := count p (d_metrics (i_rows (hd_ingest d)));
     ProcessesMoved := count p (d_processes (i_rows (hd_ingest d))) |}.
Definition plus_report (a b : OpaqueTenantReport) : OpaqueTenantReport :=
  {| CredentialsMoved := CredentialsMoved a + CredentialsMoved b; MetricsMoved := MetricsMoved a + MetricsMoved b;
     ProcessesMoved := ProcessesMoved a + ProcessesMoved b |}.
Definition among (olds : list string) (t : string) : bool := existsb (String.eqb t) olds.

Lemma among_elem olds t : among olds t = true <-> t ∈ olds.
Proof.
  unfold among. rewrite existsb_exists. setoid_rewrite String.eqb_eq. rewrite list_elem_of_In. naive_solver.
Qed.
Lemma ren_among pairs t : among (map fst pairs) t = false -> ren pairs t = t.
Proof. induction pairs as [|[o n] ps IH]; [done|]. unfold among in *. simpl. intros ?. bools. destruct (String.eqb_spec t o); [done|auto]. Qed.
Lemma ren_in_news pairs t : ren pairs t = t \/ ren pairs t ∈ map snd pairs.
Proof. induction pairs as [|[o n] ps IH]; [by left|]. simpl. destruct (String.eqb t o); [right; set_solver|set_solver]. Qed.

Section loop.
Context `{Dialect} `{MapRange}.

Lemma wrap_err_ok {S A} msg (m : M S A) s fs a s' fs' : wrap_err msg m s fs = (Ok a, s', fs') -> m s fs = (Ok a, s', fs').
Proof. unfold wrap_err. intros (r & s1 & fs1 & Hr & Hk)%mbind_ok. apply attempt_inv in Hr as (r' & [= ->] & Hr). unfold ret, fail in *. destruct r'; by simplify_eq. Qed.

(** One round: three statements, the renaming of one tenant. *)
Lemma remap_round new old d d1 d2 d3 fs1 fs2 fs3 fs4 n m p :
  wrap_err "remap api_keys" (statement (remap_keys new old)) d fs1 = (Ok n, d1, fs2) ->
  wrap_err "remap metrics" (exec (remap_metrics new old)) d1 fs2 = (Ok m, d2, fs3) ->
  wrap_err "remap processes" (exec (remap_processes new old)) d2 fs3 = (Ok p, d3, fs4) ->
  d3 = rename_db (retenant old new) d /\
  {| CredentialsMoved := n; MetricsMoved := m; ProcessesMoved := p |} = rows_with (fun t => String.eqb t old) d.
Proof.
  intros Hk%wrap_err_ok%statement_ok Hm%wrap_err_ok%exec_ok Hp%wrap_err_ok%exec_ok.
  unfold remap_keys in Hk. destruct (existsb _ _); [done|].
  rewrite remap_split in Hk. injection Hk as <- <-.
  unfold remap_metrics in Hm. rewrite remap_split in Hm. injection Hm as <- <-.
  unfold remap_processes in Hp. rewrite remap_split in Hp. by injection Hp as <- <-.
Qed.

Lemma rows_with_round (q : string -> bool) new old d :
  q new = false ->
  plus_report (rows_with (fun t => String.eqb t old) d) (rows_with q (rename_db (retenant old new) d)) =
  rows_with (fun t => String.eqb t old || q t) d.
Proof. intros Hq. unfold plus_report, rows_with. simpl. by rewrite !(count_swap q). Qed.
Lemma plus_report_assoc a b c : plus_report (plus_report a b) c = plus_report a (plus_report b c).
Proof. unfold plus_report. simpl. f_equal; lia. Qed.

Lemma remap_tenants_ok olds : forall hexes report d fs report' d' fs',
  (forall hex, hex ∈ hexes -> among olds (NewTenantID hex) = false) ->
  remap_tenants olds hexes report d fs = (Ok report', d', fs') ->
  (length olds <= length hexes)%nat /\
  d' = rename_db (ren (zip olds (map NewTenantID hexes))) d /\
  report' = plus_report report (rows_with (among olds) d).
Proof.
  induction olds as [|old olds IH]; intros hexes report d fs report' d' fs' Hnew Hrun; simpl in Hrun.
  - unfold ret in Hrun. simplify_eq. split; [simpl; lia|]. split; [symmetry; by apply rename_id|].
    unfold plus_report, rows_with, count. simpl. destruct report'. simpl.
    assert (Hn : forall {A} (l : list A), List.filter (fun _ => false) l = []) by (induction l; auto).
    rewrite !Hn. simpl. f_equal; lia.
  - destruct hexes as [|hex hexes]; [done|]. cbv zeta in Hrun.
    apply mbind_ok in Hrun as (n & d1 & fs1 & Hk & Hrun). apply mbind_ok in Hrun as (m & d2 & fs2 & Hm & Hrun).
    apply mbind_ok in Hrun as (p & d3 & fs3 & Hp & Hrun).
    destruct (remap_round _ _ _ _ _ _ _ _ _ _ _ _ _ Hk Hm Hp) as [-> Hr].
    assert (Hfirst : among olds (NewTenantID hex) = false).
    { specialize (Hnew hex ltac:(set_solver)). cbn [among existsb] in Hnew. by bools. }
    apply IH in Hrun as (Hlen & -> & ->).
    2: { intros hex' Hin. specialize (Hnew hex' ltac:(set_solver)). cbn [among existsb] in Hnew. by bools. }
    split; [simpl; lia|]. split.
    + rewrite rename_rename. apply rename_ext. intros t. cbn [zip zip_with map ren]. unfold retenant.
      destruct (String.eqb t old); [|done]. apply ren_among.
      destruct (among (map fst _) _) eqn:E; [|done]. apply among_elem in E.
      rewrite <- Hfirst. symmetry. apply among_elem. revert E. clear. revert hexes. generalize (NewTenantID hex) as x.
      induction olds as [|o olds IH]; intros x [|h hexes]; simpl; try set_solver.
    + change (rows_with (among (old :: olds)) d) with (rows_with (fun t => String.eqb t old || among olds t) d).
      rewrite <- (rows_with_round (among olds) (NewTenantID hex)) by done. rewrite <- plus_report_assoc.
      by rewrite <- Hr.
Qed.
End loop.

(** ** The whole migration *)

Lemma see_elem (l : list string) : forall seen t,
  is_Some (fold_left see l seen !! t) <-> is_Some (seen !! t) \/ (t ∈ l /\ IsOpaqueTenantID t = false).
Proof.
  induction l as [|x l IH]; intros seen t; simpl; [set_solver|]. rewrite IH. unfold see.
  destruct (IsOpaqueTenantID x) eqn:Ex.
  - rewrite elem_of_cons. split; [tauto|]. intros [?|[[->|?] ?]]; [tauto|congruence|tauto].
  - rewrite lookup_insert_is_Some, elem_of_cons. destruct (decide (x = t)) as [->|]; [tauto|]. naive_solver.
Qed.
Lemma tenants_in_elem `{Tenanted R} (rows : list R) t :
  t ∈ tenants_in rows <-> t <> EmptyString /\ exists r, r ∈ rows /\ tenant_of r = t.
Proof.
  unfold tenants_in. rewrite elem_of_remove_dups, list_elem_of_In, filter_In, <- list_elem_of_In, list_elem_of_fmap.
  rewrite negb_true_iff. split.
  - intros [(r & -> & ?) He]. split; [by apply is_empty_false|by exists r].
  - intros [He (r & ? & <-)]. split; [by exists r|by destruct (tenant_of r)].
Qed.

Lemma ren_known pairs t : t ∈ map fst pairs -> ren pairs t ∈ map snd pairs.
Proof.
  induction pairs as [|[o n] ps IH]; [set_solver|]. simpl. intros [->|Ht]%elem_of_cons; [rewrite String.eqb_refl; set_solver|].
  destruct (String.eqb t o); set_solver.
Qed.
Lemma ren_inj pairs t u : NoDup (map snd pairs) -> t ∈ map fst pairs -> u ∈ map fst pairs -> ren pairs t = ren pairs u -> t = u.
Proof.
  induction pairs as [|[o n] ps IH]; [set_solver|]. cbn [map fst snd ren]. intros [Hn Hnd]%NoDup_cons Ht Hu.
  destruct (String.eqb_spec t o) as [->|Hto], (String.eqb_spec u o) as [->|Huo]; try done.
  - intros E. exfalso. apply Hn. rewrite E. apply ren_known. set_solver.
  - intros E. exfalso. apply Hn. rewrite <- E. apply ren_known. set_solver.
  - apply IH; [done|set_solver..].
Qed.
Lemma map_fst_zip_le {A B} (l : list A) : forall k : list B, (length l <= length k)%nat -> map fst (zip l k) = l.
Proof. induction l as [|x l IH]; intros [|y k] Hl; simpl in *; [done|done|lia|]. rewrite IH by lia. done. Qed.
Lemma map_snd_zip_prefix {A B} (l : list A) : forall k : list B, map snd (zip l k) `prefix_of` k.
Proof. induction l as [|x l IH]; intros [|y k]; simpl; try apply prefix_nil. by apply prefix_cons. Qed.

(** What [NewTenantID] encodes: at least eight bytes in hexadecimal. *)
Definition random_hex (hex : string) : Prop := 16 <= slen hex /\ string_forall is_hex hex = true.
Lemma NewTenantID_opaque hex : random_hex hex -> IsOpaqueTenantID (NewTenantID hex) = true.
Proof.
  intros [Hl Hh]. unfold NewTenantID. change ("t_" +:+ hex) with (String "t" (String "_" hex)).
  unfold IsOpaqueTenantID. change (HasPrefix _ _) with (HasPrefix hex EmptyString).
  change (sdrop 2 (String "t" (String "_" hex))) with hex. rewrite Hh.
  assert (E : HasPrefix hex EmptyString = true) by (by destruct hex). rewrite E. simpl.
  by destruct (Z.ltb_spec (slen hex) 16); [lia|].
Qed.
Lemma NewTenantID_inj : Inj (=) (=) NewTenantID.
Proof. intros a b E. by injection E. Qed.

Lemma filter_map_imp {A} (p q : A -> bool) (f : A -> A) (l : list A) :
  (forall a, a ∈ l -> p (f a) = true -> q a = true) ->
  (length (List.filter p (map f l)) <= length (List.filter q l))%nat.
Proof.
  induction l as [|a l IH]; intros Hp; [done|]. simpl.
  assert (IH' := IH ltac:(intros; apply Hp; [set_solver|done])).
  destruct (p (f a)) eqn:E; [rewrite (Hp a) by (done || set_solver)|destruct (q a)]; simpl; lia.
Qed.
Lemma rename_ok f d :
  (forall t u, in_use d t -> in_use d u -> f t = f u -> t = u) -> auth_ok (hd_auth d) -> auth_ok (hd_auth (rename_db f d)).
Proof.
  intros Hf [Hu Ha]. split; [unfold hashes_unique in *; simpl; by rewrite map_map|].
  intros tenant server Hs. simpl. set (l := List.filter _ _). destruct l as [|k l'] eqn:E; [simpl; lia|]. rewrite <- E.
  assert (Hk : k ∈ l) by (rewrite E; set_solver). unfold l in Hk.
  rewrite list_elem_of_In, filter_In, <- list_elem_of_In in Hk. destruct Hk as [Hk Hact].
  apply list_elem_of_fmap in Hk as (k0 & -> & Hk0). etransitivity; [|exact (Ha (k_tenant_id k0) server Hs)].
  apply filter_map_imp. intros k1 Hk1 Hact1. unfold active_at in *. simpl in *. bools.
  assert (k_tenant_id k1 = k_tenant_id k0) by (apply Hf; [left; eauto..|congruence]).
  rewrite !andb_true_iff, !String.eqb_eq, Z.eqb_eq. done.
Qed.

Lemma in_use_rename f d t : in_use d t -> in_use (rename_db f d) (f t).
Proof.
  intros [(r & Hr & <-)|[(r & Hr & <-)|(r & Hr & <-)]]; unfold in_use; simpl; [left|right; left|right; right];
    (exists (relabel f r); split; [by apply list_elem_of_fmap; exists r|done]).
Qed.

Lemma in_use_renamed f d t : in_use (rename_db f d) t -> exists u, in_use d u /\ t = f u.
Proof.
  intros [(k & Hk & <-)|[(k & Hk & <-)|(k & Hk & <-)]]; apply list_elem_of_fmap in Hk as (k0 & -> & Hk0);
    eexists; (split; [|reflexivity]); unfold in_use; eauto 6.
Qed.

(** The rows of a tenant, table by table. *)
Definition rows_of (t : string) (d : hub_db) : list key_row * list MetricRow * list ProcessRow :=
  (List.filter (of_tenant t) (t_keys (hd_auth d)), List.filter (of_tenant t) (d_metrics (i_rows (hd_ingest d))),
   List.filter (of_tenant t) (d_processes (i_rows (hd_ingest d)))).
Definition relabel_rows (f : string -> string) (rows : list key_row * list MetricRow * list ProcessRow) :=
  (map (relabel f) rows.1.1, map (relabel f) rows.1.2, map (relabel f) rows.2).
Lemma rows_of_rename f d t :
  (forall u, in_use d u -> f u = f t -> u = t) -> rows_of (f t) (rename_db f d) = relabel_rows f (rows_of t d).
Proof.
  intros Hf. unfold rows_of, relabel_rows. simpl. rewrite !filter_relabel; [done|..]; intros r Hr; apply Hf; unfold in_use; eauto 6.
Qed.

Section whole.
Context `{Dialect} `{MapRange}.

Lemma collect_ok d fs ids d' fs' :
  collectPlaintextTenantIDs d fs = (Ok ids, d', fs') ->
  d' = d /\ forall t, t ∈ ids <-> in_use d t /\ IsOpaqueTenantID t = false.
Proof.
  unfold collectPlaintextTenantIDs. intros (? & d1 & fs1 & Hk%query_ok & Hc)%mbind_ok. destruct Hk as [-> ->].
  apply mbind_ok in Hc as (? & d2 & fs2 & Hm%query_ok & Hc). destruct Hm as [-> ->].
  apply mbind_ok in Hc as (? & d3 & fs3 & Hp%query_ok & Hc). destruct Hp as [-> ->].
  unfold ret in Hc. injection Hc as <- <- _. split; [done|]. intros t.
  assert (Hs : forall (s : gmap string unit), t ∈ map fst (range s) <-> is_Some (s !! t)).
  { intros s. rewrite list_elem_of_fmap. split.
    - intros ([x u] & -> & Hx). rewrite range_perm in Hx. exists u. by apply elem_of_map_to_list in Hx.
    - intros [u Hu]. exists (t, u). split; [done|]. rewrite range_perm. by apply elem_of_map_to_list. }
  rewrite Hs, !see_elem, lookup_empty, !tenants_in_elem.
  assert (Hne : IsOpaqueTenantID t = false -> t <> EmptyString) by (by intros Ho ->).
  pose proof (is_Some_None (A := unit)). unfold in_use. simpl. split.
  - intros [[[?|[[? ?] ?]]|[[? ?] ?]]|[[? ?] ?]]; tauto.
  - intros [Hu Ho]. specialize (Hne Ho). tauto.
Qed.

(** Up to the transaction nothing changes. *)
Lemma migration_inv backupDir dbPath made copied hexes d fs r d' fs' :
  MigrateOpaqueTenants backupDir dbPath made copied hexes d fs = (r, d', fs') ->
  (d' = d /\ is_ok r = false) \/
  exists ids fs1 fs2 fs3 fs4 report, collectPlaintextTenantIDs d fs1 = (Ok ids, d, fs2) /\
    remap_tenants ids hexes (rows_with (fun _ => false) empty_hub_db) d fs3 = (Ok report, d', fs4) /\
    (r = Ok report \/ exists x, r = Err (EDb x)).
Proof.
  unfold MigrateOpaqueTenants, wrap_err, lift, mbind at 1. destruct (statement _ d fs) as [[r0 d0] fs0] eqn:E0.
  apply statement_inv in E0 as [[[e ->] ->]|([] & [= <-] & [->|[e ->]])]; [by intros [= <- <- _]; left| |by intros [= <- <- _]; left].
  intros Hrun. destruct (is_empty backupDir); [unfold fail in Hrun; simplify_eq; by left|].
  unfold mbind at 1 2, attempt in Hrun. destruct made as [[]|e]; cbn in Hrun; [|simplify_eq; by left].
  destruct (is_empty dbPath); [unfold fail in Hrun; simplify_eq; by left|].
  unfold mbind at 1 2, attempt in Hrun. destruct copied as [[]|e]; cbn in Hrun; [|simplify_eq; by left].
  apply transaction_inv in Hrun as [[-> [e ->]]|(report & fs1 & fs2 & Hbody & Hr)]; [by left|]. right.
  apply mbind_ok in Hbody as (ids & d1 & fs3 & Hids & Hloop). pose proof (collect_ok _ _ _ _ _ Hids) as [-> _].
  by exists ids, fs1, fs3, fs3, fs2, report.
Qed.

(** The names drawn for [ids], the readable tenants in use: opaque ones stay,
    the readable ones become opaque, and no two become the same. *)
Definition renames (f : string -> string) (d : hub_db) : Prop :=
  (forall t, IsOpaqueTenantID t = true -> f t = t) /\
  (forall t, in_use d t -> IsOpaqueTenantID (f t) = true) /\
  (forall t u, in_use d t -> in_use d u -> f t = f u -> t = u).
Lemma ren_renames ids hexes d :
  Forall random_hex hexes -> NoDup hexes -> (forall hex, hex ∈ hexes -> ~ in_use d (NewTenantID hex)) ->
  (forall t, t ∈ ids <-> in_use d t /\ IsOpaqueTenantID t = false) -> (length ids <= length hexes)%nat ->
  renames (ren (zip ids (map NewTenantID hexes))) d.
Proof.
  intros Hhex Hnd Hfresh Hids Hlen. rewrite Forall_forall in Hhex. set (pairs := zip ids (map NewTenantID hexes)).
  assert (Hfst : map fst pairs = ids) by (apply map_fst_zip_le; by rewrite length_map).
  assert (Hsnd : map snd pairs `prefix_of` map NewTenantID hexes) by apply map_snd_zip_prefix.
  assert (Hnew : forall t, t ∈ ids -> exists hex, ren pairs t = NewTenantID hex /\ hex ∈ hexes).
  { intros t Ht. rewrite <- Hfst in Ht. apply ren_known in Ht.
    assert (Hm : ren pairs t ∈ map NewTenantID hexes) by (destruct Hsnd as [k ->]; set_solver).
    by apply list_elem_of_fmap in Hm. }
  assert (Hkeep : forall t, t ∉ ids -> ren pairs t = t).
  { intros t Ht. apply ren_among. rewrite Hfst. destruct (among ids t) eqn:E; [|done]. by apply among_elem in E. }
  split; [|split].
  - intros t Ht. apply Hkeep. intros [_ Ho]%Hids. congruence.
  - intros t Ht. destruct (decide (t ∈ ids)) as [Hin|Hn].
    + apply Hnew in Hin as (hex & -> & Hin). apply NewTenantID_opaque. auto.
    + rewrite Hkeep by done. destruct (IsOpaqueTenantID t) eqn:E; [done|]. by destruct Hn; apply Hids.
  - assert (Hmix : forall t u, in_use d u -> t ∈ ids -> u ∉ ids -> ren pairs t <> ren pairs u).
    { intros t u Hu Ht Hn E. rewrite (Hkeep u Hn) in E. apply Hnew in Ht as (hex & Eh & Hin).
      apply (Hfresh hex Hin). congruence. }
    intros t u Ht Hu E. destruct (decide (t ∈ ids)), (decide (u ∈ ids)).
    + apply (ren_inj pairs); [|by rewrite Hfst..|done]. destruct Hsnd as [k Hk].
      assert (Hndm : NoDup (map NewTenantID hexes)) by (apply NoDup_fmap_2; [exact NewTenantID_inj|done]).
      rewrite Hk in Hndm. by apply NoDup_app in Hndm as [? _].
    + by apply Hmix in E.
    + symmetry in E. by apply Hmix in E.
    + by rewrite !Hkeep in E.
Qed.

(** C27. The migration is a renaming, or nothing.  Whatever faults the database
    has, a migration leaves the database as it was, or it has renamed the
    tenants of the three tables and changed nothing else: names that are
    already opaque stay, every tenant in use gets an opaque name, no two
    tenants get the same one, so every tenant keeps exactly its own
    credentials, metrics and processes, and the constraints of the credential
    table go on holding.  A reported success is the renaming, and the report
    counts its rows; a failure that changed the database is a lost reply to
    the commit.  Needed of the random names is that they are random: well
    formed, different, and none of them in use. *)
Theorem migration_renames_tenants backupDir dbPath made copied hexes d fs r d' fs' :
  Forall random_hex hexes -> NoDup hexes -> (forall hex, hex ∈ hexes -> ~ in_use d (NewTenantID hex)) ->
  MigrateOpaqueTenants backupDir dbPath made copied hexes d fs = (r, d', fs') ->
  (d' = d /\ is_ok r = false) \/
  exists f, d' = rename_db f d /\
    (forall t, IsOpaqueTenantID t = true -> f t = t) /\
    (forall t, in_use d' t -> IsOpaqueTenantID t = true) /\
    (forall t u, in_use d t -> in_use d u -> f t = f u -> t = u) /\
    (forall t, in_use d t -> rows_of (f t) d' = relabel_rows f (rows_of t d)) /\
    (auth_ok (hd_auth d) -> auth_ok (hd_auth d')) /\
    (r = Ok (rows_with (fun t => negb (IsOpaqueTenantID t)) d) \/ exists x, r = Err (EDb x)).
Proof.
  intros Hhex Hnd Hfresh Hrun. apply migration_inv in Hrun as [?|(ids & fs1 & fs2 & fs3 & fs4 & report & Hids & Hloop & Hr)]; [by left|].
  right. apply collect_ok in Hids as [_ Hids].
  assert (Hnews : forall hex, hex ∈ hexes -> among ids (NewTenantID hex) = false).
  { intros hex Hin. destruct (among _ _) eqn:E; [|done]. apply among_elem, Hids in E as [_ E]. rewrite Forall_forall in Hhex.
    by rewrite NewTenantID_opaque in E by auto. }
  apply remap_tenants_ok in Hloop as (Hlen & -> & ->); [|done].
  destruct (ren_renames ids hexes d Hhex Hnd Hfresh Hids Hlen) as (Hkeep & Hopaque & Hinj).
  set (f := ren _) in *. exists f. split_and!; [done|done| |done| | |].
  - intros t Ht. apply in_use_renamed in Ht as (u & Hu & ->). auto.
  - intros t Ht. apply rows_of_rename. intros u Hu E. by apply Hinj.
  - by apply rename_ok.
  - destruct Hr as [->|?]; [left|by right]. f_equal. unfold plus_report, rows_with. simpl.
    assert (Hc : forall t, in_use d t -> among ids t = negb (IsOpaqueTenantID t)).
    { intros t Ht. apply eq_true_iff_eq. rewrite among_elem, Hids, negb_true_iff. tauto. }
    f_equal; (apply count_ext; intros r0 Hr0; apply Hc; unfold in_use; eauto 6).
Qed.
End whole.

(** ** Concrete inputs *)

Module SampleMigration.
Definition hexes : list string := ["00112233445566778899aabbccddeeff"; "ffeeddccbbaa99887766554433221100"]%string.
Definition acme : APIKeyRecord :=
  {| rec_ID := 0; rec_TenantID := "acme"; rec_ClientName := "Acme"; rec_KeyHash := "h1"; rec_KeyPrefix := "wma_";
     rec_Kind := KindAgent; rec_Scope := ScopeIngest; rec_ExpiresAt := zero_time; rec_MaxUses := 0; rec_Uses := 0;
     rec_ServerID := "a_1"; rec_IssuedBy := "cli"; rec_CreatedAt := second; rec_LastSeenAt := zero_time; rec_Revoked := false |}.
(** A readable tenant with an agent and its first metric, and a metric of the
    local collector. *)
Definition accept (tenant : string) (i : ingest_db) : result error (list IngestOutcome) * ingest_db :=
  (AcceptIngest sample_marshal sample_digest tenant "a_1" sample_batch DefaultIngestPolicy sample_time i []).1.
Definition before : hub_db :=
  let i := (accept "acme" empty_ingest).2 in
  {| hd_ingest := with_rows (insert_metric_row LocalTenantID "a_2" (fun c => c) (metric_at second EmptyString EmptyString f0)) i;
     hd_auth := run_state (@UpsertAPIKey sqlite acme second) empty_auth []; hd_audit := empty_audit |}.
Definition migrate (fs : faults) : M hub_db OpaqueTenantReport :=
  fun d _ => @MigrateOpaqueTenants sqlite canonical_range "/backup" "/var/lib/wmonitor/wmonitor.db" (Ok tt) (Ok tt) hexes d fs.
Definition after : hub_db := run_state (migrate []) before [].
End SampleMigration.

Lemma migration_renames_tenants_witness :
  exists f, SampleMigration.after = rename_db f SampleMigration.before /\
    IsOpaqueTenantID (f "acme") = true /\ rows_of (f "acme") SampleMigration.after = relabel_rows f (rows_of "acme" SampleMigration.before).
Proof.
  destruct (@migration_renames_tenants sqlite canonical_range "/backup" "/var/lib/wmonitor/wmonitor.db" (Ok tt) (Ok tt)
    SampleMigration.hexes SampleMigration.before [] (run_result (SampleMigration.migrate []) SampleMigration.before [])
    SampleMigration.after []) as [[_ Hf]|(f & Hd & _ & Ho & _ & Hr & _)].
  - repeat constructor; vm_compute; intros [=].
  - apply (bool_decide_unpack (NoDup SampleMigration.hexes)). vm_compute. exact I.
  - intros hex Hin [(x & Hx & Et)|[(x & Hx & Et)|(x & Hx & Et)]];
      vm_compute in Hin; repeat (apply elem_of_cons in Hin as [->|Hin]); try (by apply not_elem_of_nil in Hin);
      vm_compute in Hx; repeat (apply elem_of_cons in Hx as [->|Hx]); try (by apply not_elem_of_nil in Hx); vm_compute in Et; discriminate.
  - vm_compute. reflexivity.
  - vm_compute in Hf. discriminate.
  - assert (Ha : in_use SampleMigration.before "acme").
    { right. left. vm_compute. eexists. split; [apply elem_of_cons; left; reflexivity|reflexivity]. }
    exists f. split; [exact Hd|]. split; [|exact (Hr _ Ha)].
    apply Ho. rewrite Hd. by apply in_use_rename.
Defined.

(** A standalone installation reads its rows under [t_local], which is not an
    opaque name: after the migration none of them is found. *)
Example local_rows_are_renamed :
  (length (rows_of LocalTenantID SampleMigration.before).1.2, length (rows_of LocalTenantID SampleMigration.after).1.2) = (1, 0)%nat.
Proof. vm_compute. reflexivity. Qed.
(** The receipts keep the old name, so an event whose answer was lost before the
    migration is accepted a second time after it. *)
Example receipts_are_forgotten :
  let tenant := match (rows_of "t_00112233445566778899aabbccddeeff" SampleMigration.after).1.2 with
                | [] => "t_ffeeddccbbaa99887766554433221100" | _ => "t_00112233445566778899aabbccddeeff" end%string in
  (SampleMigration.accept "acme" (hd_ingest SampleMigration.before)).1 = Ok [duplicate "e1"] /\
  (length (rows_of tenant SampleMigration.after).1.1) = 1%nat /\
  (SampleMigration.accept tenant (hd_ingest SampleMigration.after)).1 = Ok [accepted "e1"].
Proof. vm_compute. repeat split. Qed.
