(* ===== verification/Operator.v ===== *)
(** * The operator's command line ([client_admin.go])

    The commands that issue, list and revoke credentials next to the database.
    A command either prints something or ends in [log.Fatal], which is an error
    here; it prints last, so nothing is printed before an error.  Random bytes
    and the order in which the backend lists names are arguments; opening the
    store and the texts around what is printed are left out. *)

From S2P Require Export Migration AdminProofs.
Open Scope list_scope.
Open Scope Z_scope.

Record admin_flags := {
  flagNewEnrollCode : string;
  flagNewAdminToken : bool;
  flagListAgents : string;
  flagRevokeAgent : string;
  flagMigrateOpaqueTenants : bool;
  flagOpaqueBackupDir : string;
  flagAddClient : string;
  flagListClients : bool;
  flagRevokeClient : string;
  flagImportClients : string;
  flagNewTTL : Z;
  flagNewMaxUses : Z
}.
Definition adminRequested (f : admin_flags) : bool :=
  negb (is_empty (flagAddClient f)) || flagListClients f || negb (is_empty (flagRevokeClient f)) ||
  negb (is_empty (flagImportClients f)) || negb (is_empty (flagNewEnrollCode f)) || flagNewAdminToken f ||
  negb (is_empty (flagListAgents f)) || negb (is_empty (flagRevokeAgent f)) || flagMigrateOpaqueTenants f.

(** What a command prints. *)
Inductive printed :=
| EnrollCode (code tenant : string)
| AdminToken (token : string)
| NewClient (name tenant token : string)
| Clients (lines : list (string * string * string * bool))
| Agents (lines : list (string * string * bool))
| ClientRevoked (n : Z)
| AgentsRevoked (ns : list Z)
| Migrated (report : OpaqueTenantReport)
| Nothing.

(** What the commands take from the system: the Crockford digits of a code,
    the encoded random part of a token, the hexadecimal text of a new tenant
    (each [None] when the reader fails), the paths and outcomes of a backup. *)
Record machine := {
  mc_code : option (list Z);
  mc_token : option string;
  mc_tenant : option string;
  mc_sqlite : bool;
  mc_dbPath : string;
  mc_made : result error unit;
  mc_copied : result error unit;
  mc_hexes : list string
}.

Section operator.
Context `{Unicode} `{Dialect} `{MapRange}.
Context (sha256hex : string -> string).
Context (key_le : key_row -> key_row -> Prop) `{!forall a b, Decision (key_le a b)}.

Definition on_keystore {A : Type} (m : M auth_db A) : M hub_db A := zoom hd_auth hd_with_auth m.
(** [if err != nil { log.Fatal(msg) }] *)
Definition or_fatal {A : Type} (msg : string) (m : M hub_db A) : M hub_db A :=
  let* r := attempt m in
  match r with Ok a => ret a | Err _ => fail (EMsg msg) end.
Definition given {A : Type} (msg : string) (o : option A) : M hub_db A :=
  match o with Some a => ret a | None => fail (EMsg msg) end.

Definition cli_event (tenant action target id : string) : AuditEvent := admin_event tenant "cli" "cli" action target id.
Definition recordCLIAudit (ev : AuditEvent) (now : Z) : M hub_db unit :=
  or_fatal "audit unavailable" (zoom hd_audit hd_with_audit (AppendAudit ev now)).

Definition cli_record (tenant client hash prefix kind scope : string) (expires maxUses now : Z) : APIKeyRecord :=
  {| rec_ID := 0; rec_TenantID := tenant; rec_ClientName := client; rec_KeyHash := hash; rec_KeyPrefix := prefix;
     rec_Kind := kind; rec_Scope := scope; rec_ExpiresAt := expires; rec_MaxUses := maxUses; rec_Uses := 0;
     rec_ServerID := EmptyString; rec_IssuedBy := "cli"; rec_CreatedAt := now; rec_LastSeenAt := zero_time;
     rec_Revoked := false |}.

Definition registry : M hub_db (list APIKeyRecord) :=
  or_fatal "credential registry unavailable" (on_keystore (ListAPIKeys key_le)).
Definition only_tenant (msg : string) (all : list APIKeyRecord) (name : string) : M hub_db string :=
  or_fatal msg (lift (UniqueTenantForClientName all name)).

Definition newEnrollCode (name : string) (ttl uses : Z) (digits : option (list Z)) (now : Z) : M hub_db printed :=
  let* all := registry in
  let* tenant := only_tenant "ambiguous client name; use tenant-scoped administration" all name in
  if is_empty tenant then fail (EMsg "create the client explicitly before issuing enrollment codes")
  else
    let* digits := given "code generation failed" digits in
    let code := GenerateEnrollCode digits in
    let* _ := or_fatal "code issuance failed" (on_keystore (UpsertAPIKey
      (cli_record tenant name (HashEnrollCode sha256hex code) "wme_" KindEnroll ScopeEnroll (now + ttl) uses now) now)) in
    let* _ := recordCLIAudit (cli_event tenant "enroll.code_issued" "client" name) now in
    ret (EnrollCode code tenant).

Definition newAdminToken (rand : option string) (now : Z) : M hub_db printed :=
  let* rand := given "token generation failed" rand in
  let token := GenerateToken KindAdmin rand in
  let* _ := or_fatal "admin token issuance failed" (on_keystore (UpsertAPIKey
    (cli_record "admin" "Admin" (HashAPIKey sha256hex token) (ExtractKeyPrefix token) KindAdmin ScopeAdmin zero_time 0 now) now)) in
  let* _ := recordCLIAudit (cli_event "admin" "admin.token_issued" "admin" "Admin") now in
  ret (AdminToken token).

Definition addClient (name : string) (hex rand : option string) (now : Z) : M hub_db printed :=
  let* all := registry in
  if existsb (fun r => EqualFold (rec_ClientName r) name) all
  then fail (EMsg "client name already exists; no duplicate identity was created")
  else
    let* hex := given "tenant generation failed" hex in
    let tenant := NewTenantID hex in
    let* rand := given "token generation failed" rand in
    let token := GenerateToken KindRead rand in
    let* _ := or_fatal "client creation failed" (on_keystore (UpsertAPIKey
      (cli_record tenant name (HashAPIKey sha256hex token) (ExtractKeyPrefix token) KindRead ScopeRead zero_time 0 now) now)) in
    let* _ := recordCLIAudit (cli_event tenant "client.created" "client" name) now in
    ret (NewClient name tenant token).

Definition listClients : M hub_db printed :=
  let* records := registry in
  ret (Clients (map (fun r => (rec_ClientName r, rec_TenantID r, rec_Kind r, rec_Revoked r)) records)).
Definition listAgents (filter : string) : M hub_db printed :=
  let* tenant :=
    if String.eqb filter "all" || String.eqb filter "*" then ret EmptyString
    else
      let* all := registry in
      let* matched := only_tenant "ambiguous client name" all filter in
      ret (if is_empty matched then filter else matched) in
  let* agents := or_fatal "agent registry unavailable" (on_keystore (ListAgents tenant)) in
  ret (Agents (map (fun r => (rec_TenantID r, rec_ServerID r, rec_Revoked r)) agents)).

Definition revokeClient (name : string) (now : Z) : M hub_db printed :=
  let* all := registry in
  let* tenant := only_tenant "ambiguous client name; nothing revoked" all name in
  let* n := or_fatal "revocation failed" (on_keystore (RevokeAPIKey name now)) in
  let* _ := whenM (negb (is_empty tenant)) (recordCLIAudit (cli_event tenant "client.revoked" "client" name) now) in
  ret (ClientRevoked n).

(** The map of the tenants in which the server has an active agent. *)
Definition note_tenant (server : string) (tenants : gmap string bool) (r : APIKeyRecord) : gmap string bool :=
  if String.eqb (rec_ServerID r) server && negb (rec_Revoked r) then <[rec_TenantID r := true]> tenants else tenants.
Fixpoint revoke_in (tenants : list string) (server : string) (now : Z) : M hub_db (list Z) :=
  match tenants with
  | [] => ret []
  | tenant :: tenants =>
      let* n := or_fatal "agent revocation failed" (on_keystore (RevokeAgent tenant server now)) in
      let* _ := recordCLIAudit (cli_event tenant "agent.revoked" "agent" server) now in
      let* ns := revoke_in tenants server now in
      ret (n :: ns)
  end.
Definition revokeAgent (server : string) (now : Z) : M hub_db printed :=
  let* all := or_fatal "agent registry unavailable" (on_keystore (ListAgents EmptyString)) in
  let tenants := fold_left (note_tenant server) all ∅ in
  if (1 <? size tenants)%nat then fail (EMsg "agent ID occurs in multiple tenants; nothing revoked")
  else
    let* ns := revoke_in (map fst (range tenants)) server now in
    ret (AgentsRevoked ns).

Definition importClientsFromCSV : result error Z :=
  Err (EMsg "legacy CSV credential import disabled; use reviewed migration and explicit re-issuance").
Definition importClients : M hub_db printed :=
  let* _ := lift importClientsFromCSV in ret Nothing.

Definition runOpaqueTenantMigration (mc : machine) (backupDir : string) (now : Z) : M hub_db printed :=
  if negb (mc_sqlite mc) || is_empty backupDir
  then fail (EMsg "opaque migration requires SQLite and an explicit verified backup directory")
  else
    let* report := or_fatal "opaque migration failed; review the backup and transaction state before retrying"
      (MigrateOpaqueTenants backupDir (mc_dbPath mc) (mc_made mc) (mc_copied mc) (mc_hexes mc)) in
    let* _ := recordCLIAudit (cli_event "admin" "tenants.migrated" "migration" "opaque") now in
    ret (Migrated report).

(** The first command that was asked for. *)
Definition runClientAdmin (f : admin_flags) (mc : machine) (now : Z) : M hub_db printed :=
  if negb (is_empty (flagNewEnrollCode f)) then
    newEnrollCode (flagNewEnrollCode f) (flagNewTTL f) (flagNewMaxUses f) (mc_code mc) now
  else if flagNewAdminToken f then newAdminToken (mc_token mc) now
  else if negb (is_empty (flagListAgents f)) then listAgents (flagListAgents f)
  else if negb (is_empty (flagRevokeAgent f)) then revokeAgent (flagRevokeAgent f) now
  else if flagMigrateOpaqueTenants f then runOpaqueTenantMigration mc (flagOpaqueBackupDir f) now
  else if negb (is_empty (flagAddClient f)) then addClient (flagAddClient f) (mc_tenant mc) (mc_token mc) now
  else if flagListClients f then listClients
  else if negb (is_empty (flagRevokeClient f)) then revokeClient (flagRevokeClient f) now
  else if negb (is_empty (flagImportClients f)) then importClients
  else ret Nothing.
End operator.
