(* ===== verification/OperatorProofs.v ===== *)
(** * The operator's command line: proofs

    A secret is only printed once its credential and the record of it are
    stored; revoking an agent concerns the agents of one server in one tenant
    and nothing else; and revoking a client never reports success. *)

From S2P Require Export Operator.
Open Scope list_scope.
Open Scope Z_scope.

(** ** The steps of a command *)

Lemma on_keystore_ok {A} (m : M auth_db A) d fs a d' fs' :
  on_keystore m d fs = (Ok a, d', fs') -> exists t, m (hd_auth d) fs = (Ok a, t, fs') /\ d' = hd_with_auth t d.
Proof. unfold on_keystore, zoom. destruct (m (hd_auth d) fs) as [[r t] fs1]. intros [= -> <- ->]. by exists t. Qed.
Lemma or_fatal_ok {A} msg (m : M hub_db A) d fs a d' fs' :
  or_fatal msg m d fs = (Ok a, d', fs') -> m d fs = (Ok a, d', fs').
Proof.
  unfold or_fatal. intros (r & d1 & fs1 & Hr & Hk)%mbind_ok. apply attempt_inv in Hr as (r' & [= ->] & Hr).
  unfold ret, fail in *. destruct r'; by simplify_eq.
Qed.
Lemma given_ok {A} msg (o : option A) (d : hub_db) fs a d' fs' : given msg o d fs = (Ok a, d', fs') -> o = Some a /\ d' = d.
Proof. destruct o; [|done]. cbn. unfold ret. by intros [= -> -> _]. Qed.
Lemma recordCLIAudit_ok tenant action target id now d fs u d' fs' :
  recordCLIAudit (cli_event tenant action target id) now d fs = (Ok u, d', fs') ->
  exists t, d' = hd_with_audit t d /\ recorded (cli_event tenant action target id) now (hd_audit d) t.
Proof.
  intros Hr%or_fatal_ok. unfold zoom in Hr. destruct (AppendAudit _ _ _ _) as [[r t] fs1] eqn:E. injection Hr as -> <- _.
  exists t. split; [done|]. by eapply AppendAudit_recorded.
Qed.

Lemma UniqueTenant_spec `{Unicode} keys name id :
  UniqueTenantForClientName keys name = Ok id -> id <> EmptyString ->
  (exists k, k ∈ keys /\ EqualFold (rec_ClientName k) (TrimSpace name) = true /\ rec_TenantID k = id) /\
  forall k, k ∈ keys -> EqualFold (rec_ClientName k) (TrimSpace name) = true -> rec_TenantID k <> EmptyString -> rec_TenantID k = id.
Proof.
  unfold UniqueTenantForClientName. destruct (is_empty (TrimSpace name)); [done|].
  set (p := fun k => _ && _). assert (Hin : forall t, t ∈ remove_dups (map rec_TenantID (List.filter p keys)) <->
    exists k, k ∈ keys /\ p k = true /\ rec_TenantID k = t).
  { intros t. rewrite elem_of_remove_dups, list_elem_of_fmap. setoid_rewrite list_elem_of_In. setoid_rewrite filter_In. naive_solver. }
  destruct (remove_dups _) as [|t [|u l]]; [by intros [= <-]| |done]. intros [= ->] Hne. split.
  - destruct (proj1 (Hin id) ltac:(set_solver)) as (k & Hk & Hp & Ht). exists k. unfold p in Hp. by bools.
  - intros k Hk He Ht. assert (Hk' : rec_TenantID k ∈ [id]); [|set_solver]. apply Hin. exists k. split; [done|]. split; [|done].
    unfold p. rewrite He. by destruct (rec_TenantID k).
Qed.

(** ** Issued credentials *)

(** The record is a row of the table, new unless its hash was there already;
    the other rows are the same, and the trail has the event. *)
Definition issued (rec : APIKeyRecord) (ev : AuditEvent) (now : Z) (d d' : hub_db) : Prop :=
  (exists k, k ∈ t_keys (hd_auth d') /\ k_key_hash k = rec_KeyHash rec /\ record_row rec k /\
    (find_key (rec_KeyHash rec) (t_keys (hd_auth d)) = None ->
     t_keys (hd_auth d') = t_keys (hd_auth d) ++ [k] /\ k_revoked_at k = 0)) /\
  (forall k, k ∈ t_keys (hd_auth d) -> k_key_hash k <> rec_KeyHash rec -> k ∈ t_keys (hd_auth d')) /\
  hd_ingest d' = hd_ingest d /\ recorded ev now (hd_audit d) (hd_audit d').

Section proofs.
Context `{Unicode} `{Dialect} `{MapRange}.
Context (sha256hex : string -> string).
Context (key_le : key_row -> key_row -> Prop) `{!forall a b, Decision (key_le a b)}.

Lemma Upsert_ok rec now d fs u d' fs' :
  UpsertAPIKey rec now d fs = (Ok u, d', fs') ->
  (exists k, k ∈ t_keys d' /\ k_key_hash k = rec_KeyHash rec /\ record_row rec k /\
    (find_key (rec_KeyHash rec) (t_keys d) = None -> t_keys d' = t_keys d ++ [k] /\ k_revoked_at k = 0)) /\
  (forall k, k ∈ t_keys d -> k_key_hash k <> rec_KeyHash rec -> k ∈ t_keys d').
Proof.
  unfold UpsertAPIKey. destruct (_ || _); [done|]. destruct (_ || _); [done|]. cbv zeta. intros Hu%statement_ok.
  unfold upsert_key in Hu. cbn [k_key_hash] in Hu. destruct (find_key _ _) as [old|] eqn:Ef.
  - destruct (existsb _ _); [done|]. simplify_eq/=. apply find_key_Some in Ef as [Hin Hh]. split.
    + eexists. split; [|split; [|split; [|done]]].
      * apply list_elem_of_fmap. exists old. split; [reflexivity|done].
      * rewrite Hh, String.eqb_refl. exact Hh.
      * rewrite Hh, String.eqb_refl. done.
    + intros k Hk Hne. apply list_elem_of_fmap. exists k. split; [|done]. by destruct (String.eqb_spec (k_key_hash k) (rec_KeyHash rec)).
  - unfold insert_key in Hu. destruct (existsb _ _); [done|]. simplify_eq/=. split.
    + eexists. split; [apply elem_of_app; right; apply list_elem_of_singleton; reflexivity|]. done.
    + intros k Hk _. set_solver.
Qed.
Lemma issue_ok msg rec tenant action target id out now d fs o d' fs' :
  (let* _ := or_fatal msg (on_keystore (UpsertAPIKey rec now)) in
   let* _ := recordCLIAudit (cli_event tenant action target id) now in ret (A := printed) out) d fs = (Ok o, d', fs') ->
  o = out /\ issued rec (cli_event tenant action target id) now d d'.
Proof.
  intros (u & d1 & fs1 & Hu & Hk)%mbind_ok. apply or_fatal_ok, on_keystore_ok in Hu as (t & Hu & ->).
  apply mbind_ok in Hk as (u2 & d2 & fs2 & Ha & Hk). apply recordCLIAudit_ok in Ha as (a & -> & Ha).
  unfold ret in Hk. simplify_eq. apply Upsert_ok in Hu as [Hrow Hrest]. by split.
Qed.
Lemma registry_ok d fs all d' fs' :
  registry key_le d fs = (Ok all, d', fs') -> d' = d /\ all = map scanAPIKey (merge_sort key_le (t_keys (hd_auth d))).
Proof. intros Hr%or_fatal_ok%on_keystore_ok. destruct Hr as (t & [-> ->]%query_ok & ->). split; [by destruct d|done]. Qed.
Lemma only_tenant_ok msg all name d fs t d' fs' :
  only_tenant msg all name d fs = (Ok t, d', fs') -> d' = d /\ UniqueTenantForClientName all name = Ok t.
Proof. intros Hr%or_fatal_ok. unfold lift in Hr. by simplify_eq. Qed.

(** Somebody in the registry is called so. *)
Definition client_named (name : string) (d : hub_db) (k : key_row) : Prop :=
  k ∈ t_keys (hd_auth d) /\ EqualFold (k_client_name k) name = true.
Lemma registry_elem d r :
  r ∈ map scanAPIKey (merge_sort key_le (t_keys (hd_auth d))) <-> exists k, k ∈ t_keys (hd_auth d) /\ r = scanAPIKey k.
Proof. rewrite list_elem_of_fmap. setoid_rewrite merge_sort_Permutation. naive_solver. Qed.

(** What a printed secret means. *)
Definition secret_issued (now : Z) (d : hub_db) (out : printed) (d' : hub_db) : Prop :=
  match out with
  | EnrollCode code tenant =>
      exists name ttl uses, tenant <> EmptyString /\
        issued (cli_record tenant name (HashEnrollCode sha256hex code) "wme_" KindEnroll ScopeEnroll (now + ttl) uses now)
          (cli_event tenant "enroll.code_issued" "client" name) now d d' /\
        (exists k, client_named (TrimSpace name) d k /\ k_tenant_id k = tenant) /\
        (forall k, client_named (TrimSpace name) d k -> k_tenant_id k <> EmptyString -> k_tenant_id k = tenant)
  | AdminToken token =>
      HasPrefix token "wmk_" = true /\
      issued (cli_record "admin" "Admin" (HashAPIKey sha256hex token) (ExtractKeyPrefix token) KindAdmin ScopeAdmin zero_time 0 now)
        (cli_event "admin" "admin.token_issued" "admin" "Admin") now d d'
  | NewClient name tenant token =>
      HasPrefix token "wmr_" = true /\ HasPrefix tenant "t_" = true /\
      issued (cli_record tenant name (HashAPIKey sha256hex token) (ExtractKeyPrefix token) KindRead ScopeRead zero_time 0 now)
        (cli_event tenant "client.created" "client" name) now d d' /\
      (forall k, ~ client_named name d k)
  | _ => True
  end.

Lemma newEnrollCode_ok name ttl uses digits now d fs out d' fs' :
  newEnrollCode sha256hex key_le name ttl uses digits now d fs = (Ok out, d', fs') -> secret_issued now d out d'.
Proof.
  unfold newEnrollCode. intros (all & d1 & fs1 & Hr & Hk)%mbind_ok. apply registry_ok in Hr as [-> ->].
  apply mbind_ok in Hk as (tenant & d2 & fs2 & Ht & Hk). apply only_tenant_ok in Ht as [-> Ht].
  destruct (is_empty tenant) eqn:Ee; [done|]. apply is_empty_false in Ee.
  apply mbind_ok in Hk as (ds & d3 & fs3 & Hd & Hk). apply given_ok in Hd as [_ ->]. cbv zeta in Hk.
  apply issue_ok in Hk as [-> Hi]. exists name, ttl, uses. split; [done|]. split; [done|].
  apply UniqueTenant_spec in Ht as [(r & Hr & He & <-) Hall]; [|done]. split.
  - apply registry_elem in Hr as (k & Hk & ->). by exists k.
  - intros k [Hk Hn] Hne. apply (Hall (scanAPIKey k)); [|done..]. apply registry_elem. by exists k.
Qed.
Lemma newAdminToken_ok rand now d fs out d' fs' :
  newAdminToken sha256hex rand now d fs = (Ok out, d', fs') -> secret_issued now d out d'.
Proof.
  unfold newAdminToken. intros (r & d1 & fs1 & Hr & Hk)%mbind_ok. apply given_ok in Hr as [_ ->]. cbv zeta in Hk.
  apply issue_ok in Hk as [-> Hi]. split; [by destruct r|done].
Qed.
Lemma addClient_ok name hex rand now d fs out d' fs' :
  addClient sha256hex key_le name hex rand now d fs = (Ok out, d', fs') -> secret_issued now d out d'.
Proof.
  unfold addClient. intros (all & d1 & fs1 & Hr & Hk)%mbind_ok. apply registry_ok in Hr as [-> ->].
  destruct (existsb _ _) eqn:Ex; [done|].
  apply mbind_ok in Hk as (h & d3 & fs3 & Hd & Hk). apply given_ok in Hd as [_ ->]. cbv zeta in Hk.
  apply mbind_ok in Hk as (r & d4 & fs4 & Hd & Hk). apply given_ok in Hd as [_ ->]. cbv zeta in Hk.
  apply issue_ok in Hk as [-> Hi]. split; [by destruct r|]. split; [by destruct h|]. split; [done|].
  intros k [Hk Hn]. apply not_true_iff_false in Ex. apply Ex, existsb_exists. exists (scanAPIKey k). split; [|done].
  apply list_elem_of_In, registry_elem. by exists k.
Qed.

(** The last step of a command is what it prints. *)
Ltac prints :=
  intros Hk; cbv zeta in Hk;
  repeat match goal with
  | H : mbind _ _ _ _ = _ |- _ => apply mbind_ok in H as (? & ? & ? & _ & H); cbv zeta in H
  | H : (if ?c then _ else _) _ _ = _ |- _ => destruct c
  | H : ret _ _ _ = _ |- _ => unfold ret in H
  | H : fail _ _ _ = _ |- _ => discriminate H
  end; by simplify_eq.

(** C24. A secret the command line prints is in force and on record.  Whatever
    is asked for and whatever faults the database has, a code or token that is
    printed is the credential of a row that is now in the table with the rights
    of its kind, new when its hash is new, and the audit trail has grown by
    exactly its record; every other credential and all collected rows are as
    before.  A code is only printed for the one tenant of the clients of that
    name, and a new client's token only when nobody had the name. *)
Theorem cli_secrets_are_recorded (f : admin_flags) (mc : machine) (now : Z) d fs out d' fs' :
  runClientAdmin sha256hex key_le f mc now d fs = (Ok out, d', fs') -> secret_issued now d out d'.
Proof.
  unfold runClientAdmin.
  destruct (negb (is_empty (flagNewEnrollCode f))); [apply newEnrollCode_ok|]. destruct (flagNewAdminToken f); [apply newAdminToken_ok|].
  destruct (negb (is_empty (flagListAgents f))); [unfold listAgents; prints|].
  destruct (negb (is_empty (flagRevokeAgent f))); [unfold revokeAgent; prints|].
  destruct (flagMigrateOpaqueTenants f); [unfold runOpaqueTenantMigration; prints|].
  destruct (negb (is_empty (flagAddClient f))); [apply addClient_ok|].
  destruct (flagListClients f); [unfold listClients; prints|].
  destruct (negb (is_empty (flagRevokeClient f))); [unfold revokeClient; prints|].
  destruct (negb (is_empty (flagImportClients f))); [done|prints].
Qed.
End proofs.

(** ** Revocations *)

Section agents.
Context `{MapRange}.

Definition active_on (server : string) (k : key_row) : bool :=
  String.eqb (k_kind k) KindAgent && String.eqb (k_server_id k) server && (k_revoked_at k =? 0).
(** Every active agent of the server, in whatever tenant, revoked. *)
Definition revoked_on (server : string) (now : Z) (ks : list key_row) : list key_row :=
  map (fun k => if active_on server k then set_revoked (Unix now) k else k) ks.

Lemma revoke_where_wp p now d :
  wp (revoke_where p now) (fun r d' =>
    (t_keys d' = t_keys d /\ is_ok r = false) \/
    (t_keys d' = map (fun k => if p k then set_revoked (Unix now) k else k) (t_keys d) /\
     forall n, r = Ok n -> n = Z.of_nat (length (List.filter p (t_keys d))))) d.
Proof.
  unfold revoke_where. apply wp_mbind, wp_exec; [by left|unfold update_keys; simpl..|by right].
  apply wp_mbind. destruct (0 <? _); simpl.
  - apply wp_exec; simpl; [by right|apply wp_ret; right; split; [done|congruence]|by right].
  - apply wp_ret, wp_ret. right. split; [done|congruence].
Qed.

Lemma note_tenant_elem server (l : list APIKeyRecord) : forall m t,
  is_Some (fold_left (note_tenant server) l m !! t) <->
  is_Some (m !! t) \/ exists r, r ∈ l /\ rec_ServerID r = server /\ rec_Revoked r = false /\ rec_TenantID r = t.
Proof.
  induction l as [|x l IH]; intros m t; simpl; [set_solver|]. rewrite IH. unfold note_tenant.
  set (wanted := fun r => rec_ServerID r = server /\ rec_Revoked r = false /\ rec_TenantID r = t).
  assert (Hc : (exists r, r ∈ x :: l /\ wanted r) <-> wanted x \/ exists r, r ∈ l /\ wanted r).
  { split; [intros (r & [->|Hr]%elem_of_cons & Hw); eauto|].
    intros [Hw|(r & Hr & Hw)]; [exists x|exists r]; (split; [apply elem_of_cons; auto|done]). }
  etransitivity; [|apply or_iff_compat_l; symmetry; exact Hc]. fold wanted. destruct (_ && _) eqn:E.
  - bools. rewrite lookup_insert_is_Some'. assert (wanted x <-> rec_TenantID x = t) by (unfold wanted; tauto). tauto.
  - assert (~ wanted x); [|tauto]. intros (Hs & Hr & _). by rewrite Hs, Hr, String.eqb_refl in E.
Qed.

(** The tenants in which the command finds an active agent. *)
Lemma found_tenants server d t :
  let all := map scanAPIKey (merge_sort seen_le (List.filter (fun k => String.eqb (k_kind k) KindAgent &&
               (is_empty EmptyString || String.eqb (k_tenant_id k) EmptyString)) (t_keys (hd_auth d)))) in
  is_Some (fold_left (note_tenant server) all ∅ !! t) <->
  exists k, k ∈ t_keys (hd_auth d) /\ active_on server k = true /\ k_tenant_id k = t.
Proof.
  intros all. rewrite note_tenant_elem, lookup_empty. unfold active_on. split.
  - intros [[? [=]]|(r & Hr & Hs & Hv & Ht)]. apply list_elem_of_fmap in Hr as (k & -> & Hk).
    rewrite merge_sort_Permutation, filter_elem in Hk. destruct Hk as [Hk Hp]. exists k. simpl in *. bools.
    rewrite !andb_true_iff, !String.eqb_eq, Z.eqb_eq. done.
  - intros (k & Hk & Ha & Ht). bools. right. exists (scanAPIKey k).
    split; [|unfold scanAPIKey; simpl; split_and!; [done| |done]; by apply negb_false_iff, Z.eqb_eq].
    apply list_elem_of_fmap. exists k. split; [done|]. rewrite merge_sort_Permutation, filter_elem. split; [done|].
    rewrite andb_true_iff, String.eqb_eq. done.
Qed.

Lemma wp_or_fatal {A} msg (m : M hub_db A) Q d :
  wp m (fun r d' => match r with Ok a => Q (Ok a) d' | Err _ => Q (Err (EMsg msg)) d' end) d -> wp (or_fatal msg m) Q d.
Proof.
  intros Hm. apply wp_try. eapply wp_mono; [exact Hm|]. intros [a|e] d' HQ; [by apply wp_ret|by apply wp_fail].
Qed.
Lemma wp_record tenant action target id now d (Q : result error unit -> hub_db -> Prop) :
  (forall t, recorded (cli_event tenant action target id) now (hd_audit d) t -> Q (Ok tt) (hd_with_audit t d)) ->
  (forall e t, Q (Err e) (hd_with_audit t d)) ->
  wp (recordCLIAudit (cli_event tenant action target id) now) Q d.
Proof.
  intros Ho He. apply wp_or_fatal, wp_zoom. intros fs. destruct (AppendAudit _ _ _ _) as [[[[]|e] t] fs'] eqn:E; [|apply He].
  by eapply Ho, AppendAudit_recorded.
Qed.

Definition one_tenant (server : string) (d : hub_db) : Prop := forall k1 k2,
  k1 ∈ t_keys (hd_auth d) -> k2 ∈ t_keys (hd_auth d) -> active_on server k1 = true -> active_on server k2 = true ->
  k_tenant_id k1 = k_tenant_id k2.
Definition active_count (server : string) (d : hub_db) : Z :=
  Z.of_nat (length (List.filter (active_on server) (t_keys (hd_auth d)))).
(** How a revocation can end. *)
Definition agents_revoked (server : string) (now : Z) (d : hub_db) (r : result error printed) (d' : hub_db) : Prop :=
  hd_ingest d' = hd_ingest d /\
  (t_keys (hd_auth d') = t_keys (hd_auth d) \/
   (one_tenant server d /\ t_keys (hd_auth d') = revoked_on server now (t_keys (hd_auth d)))) /\
  forall out, r = Ok out -> one_tenant server d /\ t_keys (hd_auth d') = revoked_on server now (t_keys (hd_auth d)) /\
    ((active_count server d = 0 /\ out = AgentsRevoked [] /\ d' = d) \/
     (exists tenant, out = AgentsRevoked [active_count server d] /\
        recorded (cli_event tenant "agent.revoked" "agent" server) now (hd_audit d) (hd_audit d') /\
        exists k, k ∈ t_keys (hd_auth d) /\ active_on server k = true /\ k_tenant_id k = tenant)).

Lemma agents_untouched server now d e : agents_revoked server now d (Err e) d.
Proof. split; [done|]. split; [by left|done]. Qed.
Lemma active_in_tenant server tenant d :
  (forall k, k ∈ t_keys (hd_auth d) -> active_on server k = true -> k_tenant_id k = tenant) ->
  forall k, k ∈ t_keys (hd_auth d) -> active_at tenant server k = active_on server k.
Proof.
  intros Ht k Hk. unfold active_at. specialize (Ht k Hk). unfold active_on in *.
  destruct (String.eqb (k_kind k) KindAgent), (String.eqb (k_server_id k) server), (k_revoked_at k =? 0);
    rewrite ?andb_false_r; try done. by rewrite Ht, String.eqb_refl.
Qed.
Lemma revoke_in_wp server tenant now d :
  (exists k, k ∈ t_keys (hd_auth d) /\ active_on server k = true /\ k_tenant_id k = tenant) ->
  (forall k, k ∈ t_keys (hd_auth d) -> active_on server k = true -> k_tenant_id k = tenant) ->
  wp (let* ns := revoke_in [tenant] server now in ret (AgentsRevoked ns)) (agents_revoked server now d) d.
Proof.
  intros Hk Hall. assert (Hone : one_tenant server d) by (intros k1 k2 Hk1 Hk2 A1 A2; by rewrite (Hall k1), (Hall k2)).
  pose proof (active_in_tenant server tenant d Hall) as Heq.
  assert (Hmap : map (fun k => if active_at tenant server k then set_revoked (Unix now) k else k) (t_keys (hd_auth d)) =
                 revoked_on server now (t_keys (hd_auth d))).
  { apply map_ext_in. intros k Hin. rewrite Heq; [done|]. by apply list_elem_of_In. }
  assert (Hcount : List.filter (active_at tenant server) (t_keys (hd_auth d)) = List.filter (active_on server) (t_keys (hd_auth d))).
  { apply filter_ext_in. intros k Hin. apply Heq. by apply list_elem_of_In. }
  apply wp_mbind, wp_mbind, wp_or_fatal, wp_zoom. eapply wp_mono; [apply revoke_where_wp|].
  intros r a [[Ha Hr]|[Ha Hr]]; rewrite ?Hmap, ?Hcount in *.
  { destruct r; [done|]. split; [done|]. split; [by left|done]. }
  assert (Hdone : t_keys (hd_auth (hd_with_auth a d)) = revoked_on server now (t_keys (hd_auth d))) by done.
  destruct r as [n|e]; [|split; [done|]; split; [by right|done]]. specialize (Hr n eq_refl). subst n.
  apply wp_mbind, wp_record; [|intros; split; [done|]; split; [by right|done]].
  intros t Ht. apply wp_mbind, wp_ret, wp_ret, wp_ret. split; [done|]. split; [by right|]. intros out [= <-].
  split; [done|]. split; [done|]. right. by exists tenant.
Qed.

(** Revoking an agent on the command line is unambiguous.  Whatever faults
    the database has, the command leaves the collected rows alone and either
    changes no credential or revokes exactly the active agents of the server.
    The second happens only when they all belong to one tenant; a server that
    is active in two tenants is refused and nothing is revoked.  A reported
    success means that the server has no active agent left in any tenant, that
    the number printed is the number revoked, and that the trail has the
    record of it. *)
Lemma agent_revocation_is_unambiguous (server : string) (now : Z) d fs r d' fs' :
  revokeAgent server now d fs = (r, d', fs') ->
  agents_revoked server now d r d' /\
  (is_ok r = true -> Unix now <> 0 -> forall k, k ∈ t_keys (hd_auth d') -> active_on server k = false).
Proof.
  intros Hrun. assert (Hr : agents_revoked server now d r d').
  { revert Hrun. enough (Hw : wp (revokeAgent server now) (agents_revoked server now d) d) by (intros Hrun; by eapply wp_run).
    unfold revokeAgent. apply wp_mbind, wp_or_fatal, wp_zoom, wp_query.
    { intros e. destruct d. apply agents_untouched. }
    set (all := map scanAPIKey _). cbv zeta. pose proof (fun t => found_tenants server d t) as Hfound.
    change (forall t, is_Some (fold_left (note_tenant server) all ∅ !! t) <->
      exists k, k ∈ t_keys (hd_auth d) /\ active_on server k = true /\ k_tenant_id k = t) in Hfound.
    replace (hd_with_auth (hd_auth d) d) with d by (by destruct d).
    set (tenants := fold_left _ all ∅) in *. clearbody tenants. clear all. destruct (1 <? size tenants)%nat eqn:Es.
    { apply wp_fail, agents_untouched. }
    apply Nat.ltb_ge in Es. rewrite <- length_map_to_list, <- range_perm in Es.
    assert (Hdom : forall t, (exists b, (t, b) ∈ range tenants) <-> is_Some (tenants !! t)).
    { intros t. setoid_rewrite range_perm. setoid_rewrite elem_of_map_to_list. done. }
    destruct (range tenants) as [|[t b] [|y l]]; [| |simpl in Es; lia].
    - apply wp_mbind, wp_ret, wp_ret. assert (Hno : forall k, k ∈ t_keys (hd_auth d) -> active_on server k = false).
      { intros k Hk. destruct (active_on server k) eqn:Ea; [|done].
        destruct (proj2 (Hdom (k_tenant_id k))) as [b Hb]; [apply Hfound; eauto|by apply not_elem_of_nil in Hb]. }
      assert (Hid : revoked_on server now (t_keys (hd_auth d)) = t_keys (hd_auth d)).
      { unfold revoked_on. rewrite <- map_id. apply map_ext_in. intros k Hk%list_elem_of_In. by rewrite Hno. }
      split; [done|]. split; [by left|]. intros out [= <-]. split; [intros k1 k2 Hk1 Hk2 A1; by rewrite Hno in A1|].
      split; [done|]. left. split; [|done]. unfold active_count. by rewrite (filter_none (active_on server)).
    - apply revoke_in_wp; [apply Hfound, Hdom; exists b; set_solver|].
      intros k Hk Ha. destruct (proj2 (Hdom (k_tenant_id k))) as [b' Hb]; [apply Hfound; eauto|set_solver]. }
  split; [exact Hr|]. destruct r as [out|]; [|done]. intros _ Hnow. destruct Hr as (_ & _ & Hok).
  destruct (Hok out eq_refl) as (_ & -> & _). unfold revoked_on. intros k (k0 & -> & _)%list_elem_of_fmap.
  destruct (active_on server k0) eqn:E; [|done]. unfold active_on. simpl. destruct (Z.eqb_spec (Unix now) 0); [done|].
  apply andb_false_r.
Qed.
End agents.

Section client.
Context `{Unicode}.
Context (key_le : key_row -> key_row -> Prop) `{!forall a b, Decision (key_le a b)}.

(** Revoking a client revokes its credentials and then always reports a
    failure: the trail does not know the action. *)
Lemma client_revocation_reports_failure name tenant now d :
  UniqueTenantForClientName (map scanAPIKey (merge_sort key_le (t_keys (hd_auth d)))) name = Ok tenant -> tenant <> EmptyString ->
  (forall fs, is_ok (run_result (revokeClient key_le name now) d fs) = false) /\
  t_keys (hd_auth (run_state (revokeClient key_le name now) d [])) =
    map (fun k => if String.eqb (k_client_name k) name && (k_revoked_at k =? 0) then set_revoked (Unix now) k else k) (t_keys (hd_auth d)).
Proof.
  intros Ht Hne. assert (Hev : forall t fs, is_ok (run_result (AppendAudit (cli_event tenant "client.revoked" "client" name) now) t fs) = false)
    by (intros; by apply client_revoked_is_refused).
  split.
  - intros fs. unfold run_result. destruct (revokeClient key_le name now d fs) as [[[out|e] d'] fs'] eqn:E; [|done]. exfalso.
    unfold revokeClient in E. apply mbind_ok in E as (all & d1 & fs1 & Hr & E). apply registry_ok in Hr as [-> ->].
    apply mbind_ok in E as (t & d2 & fs2 & Hu & E). apply only_tenant_ok in Hu as [-> Hu]. rewrite Ht in Hu. injection Hu as <-.
    apply mbind_ok in E as (n & d3 & fs3 & _ & E). apply mbind_ok in E as (u & d4 & fs4 & Hw & _).
    destruct (is_empty tenant) eqn:Ee; [by destruct tenant|]. apply or_fatal_ok in Hw. unfold zoom in Hw.
    destruct (AppendAudit _ _ _ _) as [[r t] fs5] eqn:Ea. specialize (Hev (hd_audit d3) fs3). unfold run_result in Hev.
    rewrite Ea in Hev. by simplify_eq/=.
  - unfold run_state, revokeClient, registry, only_tenant, or_fatal, on_keystore, ListAPIKeys, query, statement, mbind, attempt, lift, zoom, ret.
    cbn -[UniqueTenantForClientName AppendAudit]. rewrite Ht. unfold RevokeAPIKey, revoke_where, exec, statement, mbind, whenM, ret.
    cbn -[AppendAudit]. destruct (0 <? _), (negb (is_empty tenant)); cbn -[AppendAudit]; unfold recordCLIAudit, or_fatal, zoom, mbind, attempt;
      try done; destruct (AppendAudit _ _ _ _) as [[[]] ?]; done.
Qed.
End client.

(** ** Concrete inputs *)

Module SampleOperator.
Definition name_le (a b : key_row) : Prop := k_id a <= k_id b.
#[export] Instance name_le_dec (a b : key_row) : Decision (name_le a b).
Proof. unfold name_le. apply _. Defined.
Definition flags (code : string) (admin : bool) (agent client : string) : admin_flags :=
  {| flagNewEnrollCode := code; flagNewAdminToken := admin; flagListAgents := EmptyString; flagRevokeAgent := agent;
     flagMigrateOpaqueTenants := false; flagOpaqueBackupDir := EmptyString; flagAddClient := client; flagListClients := false;
     flagRevokeClient := EmptyString; flagImportClients := EmptyString; flagNewTTL := 336 * hour; flagNewMaxUses := 25 |}.
Definition box : machine :=
  {| mc_code := Some [1; 2; 3; 4; 5; 6; 7; 8; 9; 10; 11; 12; 13; 14; 15; 16]; mc_token := Some "s3cr3t"%string;
     mc_tenant := Some "00112233445566778899aabbccddeeff"%string; mc_sqlite := true; mc_dbPath := "wmonitor.db";
     mc_made := Ok tt; mc_copied := Ok tt; mc_hexes := [] |}.
Definition run (f : admin_flags) (now : Z) : M hub_db printed :=
  @runClientAdmin ascii_only sqlite canonical_range (fun s => s) name_le _ f box now.
(** A client is added, then a code for it is issued. *)
Definition added : hub_db := run_state (run (flags EmptyString false EmptyString "Acme") (5 * second)) empty_hub_db [].
Definition coded : result error printed * hub_db := (run (flags "acme" false EmptyString EmptyString) (6 * second) added []).1.
(** A database with one enrolled agent. *)
Definition enrolled : hub_db := SampleMigration.before.
Definition revoked : result error printed * hub_db :=
  (@revokeAgent canonical_range "a_1" (9 * second) enrolled []).1.
End SampleOperator.

Lemma cli_secrets_are_recorded_witness :
  exists code tenant, SampleOperator.coded.1 = Ok (EnrollCode code tenant) /\ tenant = "t_00112233445566778899aabbccddeeff"%string /\
    @secret_issued ascii_only (fun s => s) (6 * second) SampleOperator.added (EnrollCode code tenant) SampleOperator.coded.2.
Proof.
  eexists _, _. split; [vm_compute; reflexivity|]. split; [reflexivity|].
  apply (@cli_secrets_are_recorded ascii_only sqlite canonical_range (fun s => s) SampleOperator.name_le _
    (SampleOperator.flags "acme" false EmptyString EmptyString) SampleOperator.box (6 * second) SampleOperator.added [] _ _ []).
  vm_compute. reflexivity.
Defined.
Lemma agent_revocation_is_unambiguous_witness :
  SampleOperator.revoked.1 = Ok (AgentsRevoked [1]) /\
  agents_revoked "a_1" (9 * second) SampleOperator.enrolled SampleOperator.revoked.1 SampleOperator.revoked.2 /\
  forall k, k ∈ t_keys (hd_auth SampleOperator.revoked.2) -> active_on "a_1" k = false.
Proof.
  split; [vm_compute; reflexivity|].
  assert (Hr := @agent_revocation_is_unambiguous canonical_range "a_1" (9 * second) SampleOperator.enrolled []
    SampleOperator.revoked.1 SampleOperator.revoked.2 [] ltac:(vm_compute; reflexivity)).
  split; [apply Hr|]. apply Hr; [vm_compute; reflexivity|vm_compute; intros [=]].
Defined.
(** A client whose record could not be written exists all the same, with a
    token nobody was shown, and the command cannot be repeated. *)
Example failed_client_blocks_its_name :
  let d := run_state (SampleOperator.run (SampleOperator.flags EmptyString false EmptyString "Acme") (5 * second)) empty_hub_db
             [None; None; Some (Fail_ sqlite_unique)] in
  length (t_keys (hd_auth d)) = 1%nat /\
  run_result (SampleOperator.run (SampleOperator.flags EmptyString false EmptyString "Acme") (6 * second)) d [] =
    Err (EMsg "client name already exists; no duplicate identity was created").
Proof. vm_compute. split; reflexivity. Qed.
