(* ===== verification/CredStore.v ===== *)
(** * The agent's stored credential ([agent/credstore.go],
      [agent/credstore_unix.go])

    One file, written through a temporary file and a rename, and read back
    only when it is private.  Every call to the operating system is a statement
    that may fail, before or after its effect; a crash is a run whose calls all
    fail from some point on.  What a partly written temporary file holds does
    not matter: it is only renamed after the write, the sync and the close
    succeeded.  The model is that of the Unix build; the JSON encoding is a
    parameter.  The state is the store's directory and its files: the missing
    parents that [os.MkdirAll] makes are outside. *)

From S2P Require Export Transport Config.
Open Scope list_scope.
Open Scope Z_scope.

Definition ErrNoCredentials : error := EMsg "agent: no stored credentials found".

Record StoredCredentials := {
  sc_Token : string;
  sc_TenantID : string;
  sc_ServerID : string;
  sc_HubURL : string;
  sc_EnrolledAt : Z
}.

(** ** The files *)

Record node := { nd_content : string; nd_perm : Z; nd_owner : Z; nd_symlink : bool }.
(** The credential file, its directory ([Some true] is a symbolic link), the
    temporary file. *)
Record cred_fs := { cf_file : option node; cf_dir : option bool; cf_temp : option string }.
Definition with_temp (t : option string) (s : cred_fs) : cred_fs :=
  {| cf_file := cf_file s; cf_dir := cf_dir s; cf_temp := t |}.

Class CredentialJSON := {
  cj_MarshalIndent : StoredCredentials -> string;
  cj_Unmarshal : string -> option StoredCredentials
}.
(** What is needed of [encoding/json]. *)
Class CredentialJSONLaws `{CredentialJSON} := {
  cj_roundtrip : forall c, cj_Unmarshal (cj_MarshalIndent c) = Some c
}.

Section store.
Context `{CredentialJSON}.
(** [os.Geteuid]. *)
Context (euid : Z).

Definition errSymlink : error := EMsg "agent: refusing symlink path".
(** [os.Lstat] of the file and of the directory. *)
Definition lstat_file : M cred_fs node :=
  statement (fun s => match cf_file s with Some n => Ok (n, s) | None => Err ErrNotExist end).
Definition lstat_dir : M cred_fs bool :=
  statement (fun s => match cf_dir s with Some link => Ok (link, s) | None => Err ErrNotExist end).
Definition rejectSymlink {S : Type} (link : M S bool) : M S unit :=
  let* link := link in if link then fail errSymlink else ret tt.
Definition file_link : M cred_fs bool := let* n := lstat_file in ret (nd_symlink n).
(** [err != nil && !os.IsNotExist(err)] *)
Definition unless_missing {S : Type} (m : M S unit) : M S unit :=
  let* r := attempt m in
  match r with
  | Ok _ => ret tt
  | Err e => if Is e ErrNotExist then ret tt else fail e
  end.

Definition create_temp (s : cred_fs) : result error (unit * cred_fs) :=
  match cf_dir s with None => Err ErrNotExist | Some _ => Ok (tt, with_temp (Some EmptyString) s) end.
Definition rename_temp (s : cred_fs) : result error (unit * cred_fs) :=
  match cf_temp s with
  | None => Err ErrNotExist
  | Some data => Ok (tt, {| cf_file := Some {| nd_content := data; nd_perm := 384 (* 0600 *); nd_owner := euid; nd_symlink := false |};
                            cf_dir := cf_dir s; cf_temp := None |})
  end.
(** The deferred removal of the temporary file. *)
Definition or_remove {S : Type} (remove : S -> S) (m : M S unit) : M S unit :=
  let* r := attempt m in
  match r with
  | Ok _ => ret tt
  | Err e => let* _ := attempt (exec (fun s => (tt, remove s))) in fail e
  end.
Definition nothing {S : Type} : M S unit := exec (fun s => (tt, s)).
Definition wrap {S A : Type} (msg : string) (m : M S A) : M S A :=
  let* r := attempt m in match r with Ok a => ret a | Err e => fail (EWrap msg e) end.
(** [perm] is always 0600, which is also what [os.CreateTemp] gives; both
    [Chmod] may fail unnoticed. *)
Definition atomicWriteFile (data : string) : M cred_fs unit :=
  let* _ := unless_missing (rejectSymlink file_link) in
  let* _ := unless_missing (rejectSymlink lstat_dir) in
  let* _ := wrap "create temp file" (statement create_temp) in
  let* _ := or_remove (with_temp None) (
    let* _ := attempt nothing in (* tmp.Chmod *)
    let* _ := wrap "write temp file" (exec (fun s => (tt, with_temp (Some data) s))) in
    let* _ := wrap "sync temp file" nothing in
    let* _ := wrap "close temp file" nothing in
    wrap "rename temp file" (statement rename_temp)) in
  let* _ := attempt nothing in (* os.Chmod *)
  ret tt.

(** [spoolReplace] and [syncSpoolDir] of the Unix build write the queue's
    checkpoints the same way and make the directory durable. *)
Definition syncSpoolDir : M cred_fs unit :=
  let* _ := statement (fun s => match cf_dir s with Some _ => Ok (tt, s) | None => Err ErrNotExist end) in (* os.Open *)
  nothing (* file.Sync *).
Definition spoolReplace (data : string) : M cred_fs unit :=
  let* _ := atomicWriteFile data in syncSpoolDir.

Definition checkFileOwner (n : node) : option error :=
  if nd_owner n =? euid then None else Some (EMsg "token file owned by another uid").
Definition valid_path (path : string) : bool := negb (is_empty path) && IsAbs path.
Definition errCredStore : error := EMsg "agent: invalid credential store".

Definition Save (path : string) (creds : StoredCredentials) : M cred_fs unit :=
  if negb (valid_path path) then fail errCredStore
  else
    let data := cj_MarshalIndent creds in
    let* _ := unless_missing (rejectSymlink lstat_dir) in
    let* _ := wrap "create credential directory"
      (exec (fun s => (tt, {| cf_file := cf_file s; cf_dir := Some (default false (cf_dir s)); cf_temp := cf_temp s |}))) in
    let* _ := rejectSymlink lstat_dir in
    let* _ := wrap "write token file" (atomicWriteFile data) in
    let* n := wrap "stat token file" lstat_file in
    match checkFileOwner n with Some e => fail e | None => ret tt end.

Definition Load (path : string) : M cred_fs StoredCredentials :=
  if negb (valid_path path) then fail errCredStore
  else
    let* _ := unless_missing (rejectSymlink file_link) in
    let* info := attempt lstat_file in
    match info with
    | Err e => if Is e ErrNotExist then fail ErrNoCredentials else fail (EWrap "stat token file" e)
    | Ok n =>
        if negb (Z.land (nd_perm n) 63 =? 0) (* 0077 *) then fail (EMsg "insecure permissions on token file")
        else match checkFileOwner n with
        | Some e => fail e
        | None =>
            let* n := wrap "read token file" lstat_file in
            match cj_Unmarshal (nd_content n) with
            | None => fail (EMsg "unmarshal credentials")
            | Some c => ret c
            end
        end
    end.

Definition Clear (path : string) : M cred_fs unit :=
  if negb (valid_path path) then fail errCredStore
  else unless_missing (statement (fun s =>
    match cf_file s with
    | None => Err ErrNotExist
    | Some _ => Ok (tt, {| cf_file := None; cf_dir := cf_dir s; cf_temp := cf_temp s |})
    end)).

Definition NewCredentialStore (dir : string) : result error string :=
  if is_empty dir || negb (IsAbs dir) then Err (EMsg "agent: credential directory must be absolute")
  else Ok (Clean (Clean dir +:+ "/token.json")).
(** [tokenFilePath] of the Unix build; [home] is the home directory found. *)
Definition tokenFilePath (home : result error string) : string :=
  if euid =? 0 then "/etc/wmonitor/token.json"
  else match home with
       | Ok h => if is_empty h then EmptyString else Clean (h +:+ "/.local/share/sysmon/token.json")
       | Err _ => EmptyString
       end.
End store.
