(* ===== verification/Windows.v ===== *)
(** * The protected files of the Windows build ([agent/credstore_windows.go],
      [agent/spool_lock_windows.go], [config_trust_windows.go])

    A file has a content and a security descriptor; its discretionary access
    control list (DACL) is seen through its text, in the security descriptor
    definition language.  The Windows API ([golang.org/x/sys/windows]) is a
    parameter: the data protection functions, what a descriptor is and its
    text, and what setting a DACL makes of a descriptor.  Every call may fail,
    before or after its effect.  The state is one directory, the agent's, and
    its files: [os.MkdirAll] makes the directories above it too, which are
    outside. *)

From S2P Require Export CredStore.
Open Scope list_scope.
Open Scope Z_scope.

Class WindowsAPI := {
  (** [SECURITY_DESCRIPTOR] and [ACL]. *)
  win_sd : Type;
  win_acl : Type;
  (** [CryptProtectData] and [CryptUnprotectData] for the local machine; a
      protected text also depends on a random value. *)
  win_CryptProtectData : Z -> string -> string;
  win_CryptUnprotectData : string -> option string;
  (** [SecurityDescriptorFromString], [sd.DACL()], and [sd.String()] of what
      [GetNamedSecurityInfo] returns for the DACL of a file. *)
  win_FromString : string -> option win_sd;
  win_DACL : win_sd -> option win_acl;
  win_String : win_sd -> string;
  (** The descriptor of a file for which [SetNamedSecurityInfo] installed a
      protected DACL. *)
  win_SetDACL : win_acl -> win_sd -> win_sd
}.
(** [json.Marshal], and the [filepath] functions of the Windows build. *)
Class WindowsGo := {
  win_Marshal : StoredCredentials -> string;
  win_IsAbs : string -> bool;
  win_Clean : string -> string;
  win_Dir : string -> string;
  win_Join : list string -> string
}.

(** ** Data protection *)

Section dpapi.
Context `{WindowsAPI}.
(** The bytes of a [windows.DataBlob]: its size is [uint32(len(b))]. *)
Definition blob (b : string) : string := stake (Z.to_nat (slen b mod 2 ^ 32)) b.
(** The call itself is a statement of the caller. *)
Definition protectBytes {S : Type} (random : Z) (plaintext : string) : M S string :=
  if is_empty plaintext then fail (EMsg "empty plaintext")
  else wrap "CryptProtectData" (query (fun _ => win_CryptProtectData random (blob plaintext))).
Definition unprotectBytes {S : Type} (cipher : string) : M S string :=
  if is_empty cipher then fail (EMsg "empty ciphertext")
  else wrap "CryptUnprotectData" (statement (fun s =>
    match win_CryptUnprotectData (blob cipher) with
    | Some p => Ok (p, s)
    | None => Err (EMsg "The data is invalid.")
    end)).
End dpapi.

(** ** The DACL of the agent's files *)

(** A file; the descriptor of a directory and whether it is a symbolic link. *)
Record wnode `{WindowsAPI} := { wn_content : string; wn_sd : win_sd; wn_symlink : bool }.
Record wdir `{WindowsAPI} := { wd_sd : win_sd; wd_symlink : bool }.
(** One file, its directory and its temporary file. *)
Record win_fs `{WindowsAPI} := { wf_file : option wnode; wf_dir : option wdir; wf_temp : option wnode }.

Section dacl.
Context `{WindowsAPI}.
(** The user of the process token. *)
Context (sid : string).

Definition currentUserSID {S : Type} : M S string :=
  let* _ := nothing in (* OpenProcessToken *)
  query (fun _ => sid) (* GetTokenUser *).
Definition token_sddl (sid : string) : string := "D:P(A;;FA;;;SY)(A;;FA;;;BA)(A;;FA;;;" +:+ sid +:+ ")".
(** [set] replaces the descriptor of the named object. *)
Definition applyTokenDACL {S : Type} (set : (win_sd -> win_sd) -> S -> result error S) : M S unit :=
  let* sid := currentUserSID in
  match win_FromString (token_sddl sid) with
  | None => fail (EMsg "token SDDL")
  | Some sd =>
      match win_DACL sd with
      | None => fail (EMsg "token DACL")
      | Some dacl => statement (fun s => match set (win_SetDACL dacl) s with Ok s' => Ok (tt, s') | Err e => Err e end)
      end
  end.

Definition protect_node (f : win_sd -> win_sd) (n : wnode) : wnode :=
  {| wn_content := wn_content n; wn_sd := f (wn_sd n); wn_symlink := wn_symlink n |}.
Definition set_file (f : win_sd -> win_sd) (s : win_fs) : result error win_fs :=
  match wf_file s with
  | None => Err ErrNotExist
  | Some n => Ok {| wf_file := Some (protect_node f n); wf_dir := wf_dir s; wf_temp := wf_temp s |}
  end.
Definition set_temp (f : win_sd -> win_sd) (s : win_fs) : result error win_fs :=
  match wf_temp s with
  | None => Err ErrNotExist
  | Some n => Ok {| wf_file := wf_file s; wf_dir := wf_dir s; wf_temp := Some (protect_node f n) |}
  end.
Definition set_dir (f : win_sd -> win_sd) (s : win_fs) : result error win_fs :=
  match wf_dir s with
  | None => Err ErrNotExist
  | Some d => Ok {| wf_file := wf_file s; wf_dir := Some {| wd_sd := f (wd_sd d); wd_symlink := wd_symlink d |}; wf_temp := wf_temp s |}
  end.
End dacl.

(** ** Writing a file *)

Section writing.
Context `{WindowsAPI} `{WindowsGo} `{CredentialJSON}.
(** The user of the process, and the descriptors a new file and a new
    directory inherit. *)
Context (sid : string) (inherited inherited_dir : win_sd).

Definition win_lstat_file : M win_fs bool :=
  statement (fun s => match wf_file s with Some n => Ok (wn_symlink n, s) | None => Err ErrNotExist end).
Definition win_lstat_dir : M win_fs bool :=
  statement (fun s => match wf_dir s with Some d => Ok (wd_symlink d, s) | None => Err ErrNotExist end).
Definition set_wtemp (t : option wnode) (s : win_fs) : win_fs :=
  {| wf_file := wf_file s; wf_dir := wf_dir s; wf_temp := t |}.
(** [os.CreateTemp] *)
Definition win_create_temp (s : win_fs) : result error (unit * win_fs) :=
  match wf_dir s with
  | None => Err ErrNotExist
  | Some _ => Ok (tt, set_wtemp (Some {| wn_content := EmptyString; wn_sd := inherited; wn_symlink := false |}) s)
  end.
Definition win_write_temp (data : string) (s : win_fs) : unit * win_fs :=
  (tt, set_wtemp (option_map (fun n => {| wn_content := data; wn_sd := wn_sd n; wn_symlink := wn_symlink n |}) (wf_temp s)) s).
(** [MoveFileEx] with MOVEFILE_REPLACE_EXISTING: the file keeps the
    descriptor it had under its temporary name. *)
Definition win_rename_temp (s : win_fs) : result error (unit * win_fs) :=
  match wf_temp s with
  | None => Err ErrNotExist
  | Some n => Ok (tt, {| wf_file := Some n; wf_dir := wf_dir s; wf_temp := None |})
  end.

(** [Chmod] only touches the read-only attribute, which 0600 clears. *)
Definition win_atomicWriteFile (data : string) : M win_fs unit :=
  let* _ := unless_missing (rejectSymlink win_lstat_file) in
  let* _ := unless_missing (rejectSymlink win_lstat_dir) in
  let* _ := wrap "create temp file" (statement win_create_temp) in
  let* _ := or_remove (set_wtemp None) (
    let* _ := attempt nothing in (* tmp.Chmod *)
    let* _ := wrap "write temp file" (exec (win_write_temp data)) in
    let* _ := wrap "sync temp file" nothing in
    let* _ := wrap "close temp file" nothing in
    wrap "rename temp file" (statement win_rename_temp)) in
  let* _ := attempt nothing in (* os.Chmod *)
  ret tt.

(** ** The credential store *)

Definition win_valid_path (path : string) : bool := negb (is_empty path) && win_IsAbs path.
Definition win_NewCredentialStore (dir : string) : result error string :=
  if is_empty dir || negb (win_IsAbs dir) then Err (EMsg "agent: credential directory must be absolute")
  else Ok (win_Join [win_Clean dir; "token.dat"]).
(** The argument is the value of PROGRAMDATA. *)
Definition win_tokenFilePath (base : string) : string :=
  win_Join [if is_empty base then "C:\ProgramData" else base; "wmonitor"; "token.dat"].

Definition win_MkdirAll (s : win_fs) : unit * win_fs :=
  (tt, {| wf_file := wf_file s;
          wf_dir := Some (default {| wd_sd := inherited_dir; wd_symlink := false |} (wf_dir s)); wf_temp := wf_temp s |}).
Definition win_Save (path : string) (random : Z) (creds : StoredCredentials) : M win_fs unit :=
  if negb (win_valid_path path) then fail errCredStore
  else
    let plaintext := win_Marshal creds in
    let* cipher := protectBytes random plaintext in
    let* _ := unless_missing (rejectSymlink win_lstat_dir) in
    let* _ := wrap "create credential directory" (exec win_MkdirAll) in
    let* _ := wrap "write token file" (win_atomicWriteFile cipher) in
    wrap "restrict token ACL" (applyTokenDACL sid set_file).

Definition win_ReadFile : M win_fs string :=
  statement (fun s => match wf_file s with Some n => Ok (wn_content n, s) | None => Err ErrNotExist end).
Definition win_Load (path : string) : M win_fs StoredCredentials :=
  if negb (win_valid_path path) then fail errCredStore
  else
    let* _ := unless_missing (rejectSymlink win_lstat_file) in
    let* cipher := attempt win_ReadFile in
    match cipher with
    | Err e => if Is e ErrNotExist then fail ErrNoCredentials else fail (EWrap "read token file" e)
    | Ok cipher =>
        let* plaintext := wrap "decrypt token" (unprotectBytes cipher) in
        match cj_Unmarshal plaintext with
        | None => fail (EMsg "unmarshal credentials")
        | Some c => ret c
        end
    end.

(** ** The spool *)

Definition win_secureSpoolDirectory : M win_fs unit :=
  let* _ := rejectSymlink win_lstat_dir in
  applyTokenDACL sid set_dir.
Definition win_syncSpoolDir : M win_fs unit := ret tt.
(** [UTF16PtrFromString] refuses a name with a zero byte. *)
Definition utf16_name {S : Type} (name : string) : M S unit :=
  if string_exists (fun c => code c =? 0) name then fail (EMsg "invalid argument") else ret tt.
(** [name] is the name of the temporary file; the deferred removal runs on
    every path and finds nothing after the move. *)
Definition win_spoolReplace (path name data : string) : M win_fs unit :=
  let* _ := unless_missing (rejectSymlink win_lstat_file) in
  let* _ := statement win_create_temp in
  or_remove (set_wtemp None) (
    let* _ := applyTokenDACL sid set_temp in
    let* _ := exec (win_write_temp data) in
    let* _ := nothing in (* tmp.Sync *)
    let* _ := nothing in (* tmp.Close *)
    let* _ := utf16_name name in
    let* _ := utf16_name path in
    statement win_rename_temp).
End writing.

(** The lock file, and whether another open file has its first byte locked. *)
Record lock_file := { lf_file : option bool (* a symbolic link *); lf_locked : bool }.
Definition win_open_lock (s : lock_file) : unit * lock_file :=
  (tt, {| lf_file := Some (default false (lf_file s)); lf_locked := lf_locked s |}).
(** [LockFileEx], exclusive and failing immediately; a failure closes the
    file.  A lock whose success is not reported is dropped with the file. *)
Definition win_lockSpool : M lock_file unit :=
  let* _ := unless_missing (rejectSymlink (statement (fun s => match lf_file s with Some link => Ok (link, s) | None => Err ErrNotExist end))) in
  let* _ := exec win_open_lock in
  let* taken := query lf_locked in
  if taken then fail (EMsg "The process cannot access the file because another process has locked a portion of the file.")
  else modify (fun s => {| lf_file := lf_file s; lf_locked := true |}).

(** ** Trust in the configuration *)

(** The groups the compiled expression finds in a text: what stands between an
    opening parenthesis and the next parenthesis, when that closes.  [opened]
    is the text since the last opening parenthesis. *)
Fixpoint find_entries (opened : option string) (s : string) : list string :=
  match s with
  | EmptyString => []
  | String c s =>
      if Ascii.eqb c "("%char then find_entries (Some EmptyString) s
      else if Ascii.eqb c ")"%char then
        match opened with
        | Some entry => entry :: find_entries None s
        | None => find_entries None s
        end
      else find_entries (option_map (fun entry => entry +:+ String c EmptyString) opened) s
  end.
Definition approved (sid trustee : string) : bool :=
  existsb (String.eqb trustee) ["SY"; "BA"; "S-1-5-18"; "S-1-5-32-544"; sid].
Definition entry_approved (sid entry : string) : bool :=
  match Split entry ";"%char with
  | [kind; _; _; _; _; trustee] => String.eqb kind "A" && approved sid trustee
  | _ => false
  end.
(** The checks of one DACL. *)
Definition check_sddl (sid sddl : string) : result error unit :=
  if negb (Contains sddl "D:P") then Err (EMsg "config requires a protected DACL")
  else
    let entries := find_entries None sddl in
    match entries with
    | [] => Err (EMsg "empty configuration DACL")
    | _ => if forallb (entry_approved sid) entries then Ok tt
           else Err (EMsg "configuration DACL grants an unapproved identity")
    end.

Section trust.
Context `{WindowsAPI} `{WindowsGo}.
(** What [Lstat] (a symbolic link or not) and [GetNamedSecurityInfo] say. *)
Context (Lstat : string -> result error bool) (GetNamedSecurityInfo : string -> result error win_sd).

Definition check_named (sid name : string) : result error unit :=
  match Lstat name with
  | Ok false =>
      match GetNamedSecurityInfo name with
      | Err e => Err e
      | Ok sd => check_sddl sid (win_String sd)
      end
  | _ => Err (EMsg "unsafe configuration path")
  end.
(** [user] is what [OpenProcessToken] and [GetTokenUser] give. *)
Definition win_checkConfigPermissions (user : result error string) (path : string) : result error unit :=
  match user with
  | Err e => Err e
  | Ok sid =>
      match check_named sid path with
      | Err e => Err e
      | Ok _ => check_named sid (win_Dir path)
      end
  end.
End trust.
