(* ===== verification/Startup.v ===== *)
(** * Starting and stopping ([runtime.go], [agent/enroll.go])

    Where an agent gets its credential from, the one-shot and shutdown
    reports, and the life of the program: what runs, in which order it is
    stopped, and when the store is closed.

    The credential is looked for in the configuration, in the agent's file,
    and asked for at the hub, in this order; the network is a parameter.  The
    goroutines of the program are a step relation: the loops, the server and
    its handlers, [Stop], and the recordings of credential use that handlers
    start and nothing waits for. *)

From S2P Require Export CredStore.
Open Scope list_scope.
Open Scope Z_scope.

(** ** The enrollment client *)

Record enrollReq := {
  eq_EnrollCode : string;
  eq_ServerID : string;
  eq_Hostname : string;
  eq_OS : string;
  eq_Version : string;
  eq_CurrentToken : string
}.
Record enrollResp := { ep_Token : string; ep_TenantID : string; ep_ServerID : string; ep_Error : string }.
Class EnrollJSON := {
  ej_Marshal : enrollReq -> string;
  ej_Decode : string -> option enrollResp
}.

(** The files of the agent and the rest of the world. *)
Record boot (N : Type) := { bo_creds : cred_fs; bo_net : N }.
Arguments Build_boot {N} _ _.
Arguments bo_creds {N} _.
Arguments bo_net {N} _.

Section startup.
Context `{Unicode} `{URLParser} `{CredentialJSON} `{EnrollJSON}.
Context {N : Type} (post : string -> string -> M N (option (Z * string))).
Context (euid : Z) (tokenPath platform version : string).

Definition on_files {A : Type} (m : M cred_fs A) : M (boot N) A :=
  zoom bo_creds (fun c b => Build_boot c (bo_net b)) m.
Definition on_net {A : Type} (m : M N A) : M (boot N) A :=
  zoom bo_net (fun n b => Build_boot (bo_creds b) n) m.

Definition errEnrollRequest : error := EMsg "enroll request failed".
(** Two attempts; [None] is an error of the HTTP client. *)
Fixpoint enroll_attempts (more : nat) (url body : string) : M (boot N) (Z * string) :=
  let* resp := attempt (on_net (post url body)) in
  match resp with
  | Ok (Some resp) => ret resp
  | _ => match more with
         | O => fail errEnrollRequest
         | S more => enroll_attempts more url body
         end
  end.
Definition Enroll (hubURL enrollCode serverID hostname currentToken : string) (now : Z) : M (boot N) StoredCredentials :=
  match RequireHTTPSHub hubURL with
  | Some e => fail e
  | None =>
      let body := ej_Marshal {| eq_EnrollCode := enrollCode; eq_ServerID := serverID; eq_Hostname := hostname; eq_OS := platform;
                                eq_Version := version; eq_CurrentToken := currentToken |} in
      let* resp := enroll_attempts 1 (hubURL +:+ "/api/enroll") body in
      let '(status, text) := resp in
      if negb (status =? 201) then
        fail (match ej_Decode text with
              | Some r => if is_empty (ep_Error r) then EMsg "enrollment rejected by hub" else EMsg "enrollment failed"
              | None => EMsg "enrollment rejected by hub"
              end)
      else match ej_Decode text with
      | None => fail (EMsg "decode enroll response")
      | Some data =>
          let creds := {| sc_Token := ep_Token data; sc_TenantID := ep_TenantID data; sc_ServerID := ep_ServerID data;
                          sc_HubURL := hubURL; sc_EnrolledAt := now |} in
          let* saved := attempt (on_files (Save euid tokenPath creds)) in
          match saved with
          | Err e => fail (EWrap "save enrolled credentials" e)
          | Ok _ => ret creds
          end
      end
  end.

(** ** The agent's credential *)

Definition errCredentialChanged : error :=
  EMsg "stored credential destination or identity changed; explicit re-enrollment required".
(** [key] and [code] are what the configuration gives; [serverID] is what
    [resolveServerID] finds, [None] when it ends the program. *)
Definition agentCredentials (hub key code hostname : string) (serverID : option string) (now : Z) : M (boot N) string :=
  match RequireHTTPSHub hub with
  | Some e => fail e
  | None =>
      if negb (is_empty key) then ret key
      else
        let* stored := attempt (on_files (Load euid tokenPath)) in
        match stored with
        | Ok creds =>
            if negb (SameHubOrigin (sc_HubURL creds) hub) then fail errCredentialChanged
            else match serverID with
            | None => fail (EMsg "agent identity unavailable")
            | Some id => if negb (String.eqb (sc_ServerID creds) id) then fail errCredentialChanged else ret (sc_Token creds)
            end
        | Err e =>
            if negb (Is e ErrNoCredentials) then fail (EMsg "stored credentials could not be read safely")
            else if is_empty code then fail (EMsg "configure an agent credential or enrollment code in the protected config")
            else match serverID with
            | None => fail (EMsg "agent identity unavailable")
            | Some id =>
                let* r := attempt (Enroll hub code id hostname EmptyString now) in
                match r with
                | Err _ => fail (EMsg "enrollment failed; no credential was logged")
                | Ok creds => ret (sc_Token creds)
                end
            end
        end
  end.
(** What the spool is bound to; nothing when the key is configured. *)
Definition bindAgentSpool (key : string) : M (boot N) (option (string * string)) :=
  if negb (is_empty key) then ret None
  else
    let* stored := attempt (on_files (Load euid tokenPath)) in
    match stored with
    | Ok creds => ret (Some (sc_TenantID creds, sc_ServerID creds))
    | Err _ => ret None
    end.
End startup.

(** ** Reports *)

(** Which report a run writes and for what window; [None] of [oneShotReport]
    is no report, [Err] ends the program. *)
Inductive report_kind := CSVDocument | TextDocument | Assessment.
Record report_flags := { flagExportCSV : string; flagExportTxt : string; flagAssessmentReport : string }.
Definition oneShotReport (r : report_flags) (s : settings) (now : Z)
  : result error (option (report_kind * string * string * Z * Z)) :=
  if is_empty (flagExportCSV r) && is_empty (flagExportTxt r) && is_empty (flagAssessmentReport r) then Ok None
  else if flagHub s && is_empty (TrimSpace (flagTenant s)) then Err (EMsg "Hub export requires an explicit -tenant")
  else
    let job kind path := Ok (Some (kind, path, exportTenant s, now - flagSince s, now)) in
    if negb (is_empty (flagExportCSV r)) then job CSVDocument (flagExportCSV r)
    else if negb (is_empty (flagExportTxt r)) then job TextDocument (flagExportTxt r)
    else job Assessment (flagAssessmentReport r).
Definition shutdown_window (s : settings) : Z :=
  let window :=
    if String.eqb (flagExportFlt s) "daily" then 24 * hour
    else if String.eqb (flagExportFlt s) "weekly" then 7 * 24 * hour
    else if String.eqb (flagExportFlt s) "monthly" then 30 * 24 * hour
    else flagRunFor s in
  if window <=? 0 then 24 * hour else window.
(** The tenant and the start of the report written at the end; [None] is none
    (on Windows the document is a CSV). *)
Definition writeShutdownExport (s : settings) (now : Z) : option (string * Z) :=
  if flagHub s && is_empty (flagTenant s) then None else Some (exportTenant s, now - shutdown_window s).

(** ** The life of the program *)

Inductive worker := CollectorLoop | EvaluatorLoop | RetentionLoop.
(** The goroutine of [Server.Start]: not started; before its [http.Server]
    exists; serving; told to close; ended. *)
Inductive server_state := Off | Pending | Serving | Exiting | Gone.
(** Where [Stop] is: not called; the context is cancelled; [Shutdown] waits for
    the handlers; [Wait], after [Shutdown] failed or not; the report and the
    closing of the store; returned with the store open, or closed. *)
Inductive stop_phase :=
| NotStopping
| Cancelled
| Draining
| Waiting (failed : bool)
| Closing
| Failed
| Closed (close_failed : bool).

Record program := { pg_workers : list worker; pg_server : bool; pg_report : bool }.
Record life := {
  li_started : bool;
  li_cancelled : bool;
  li_workers : list worker;
  li_server : server_state;
  li_handlers : nat;
  li_error : bool (* an error in the channel *);
  li_stop : stop_phase;
  li_store : bool (* open *);
  li_reports : nat;
  li_touches : nat (* goroutines of [authPrincipal] still to end *);
  li_late : bool (* the store was used after it was closed *)
}.
Definition made : life :=
  {| li_started := false; li_cancelled := false; li_workers := []; li_server := Off; li_handlers := 0; li_error := false;
     li_stop := NotStopping; li_store := true; li_reports := 0; li_touches := 0; li_late := false |}.
(** [Start]: [None] is an error. *)
Definition Start (p : program) (s : life) : option life :=
  if li_started s then None
  else Some {| li_started := true; li_cancelled := li_cancelled s; li_workers := pg_workers p;
               li_server := if pg_server p then Pending else Gone; li_handlers := li_handlers s; li_error := li_error s;
               li_stop := li_stop s; li_store := li_store s; li_reports := li_reports s;
               li_touches := li_touches s; li_late := li_late s |}.

Definition set_phase (ph : stop_phase) (s : life) : life :=
  {| li_started := li_started s; li_cancelled := li_cancelled s; li_workers := li_workers s; li_server := li_server s;
     li_handlers := li_handlers s; li_error := li_error s; li_stop := ph; li_store := li_store s; li_reports := li_reports s;
     li_touches := li_touches s; li_late := li_late s |}.
Definition set_server (v : server_state) (s : life) : life :=
  {| li_started := li_started s; li_cancelled := li_cancelled s; li_workers := li_workers s; li_server := v;
     li_handlers := li_handlers s; li_error := li_error s; li_stop := li_stop s; li_store := li_store s; li_reports := li_reports s;
     li_touches := li_touches s; li_late := li_late s |}.
Definition set_handlers (n : nat) (s : life) : life :=
  {| li_started := li_started s; li_cancelled := li_cancelled s; li_workers := li_workers s; li_server := li_server s;
     li_handlers := n; li_error := li_error s; li_stop := li_stop s; li_store := li_store s; li_reports := li_reports s;
     li_touches := li_touches s; li_late := li_late s |}.
Definition set_workers (l : list worker) (s : life) : life :=
  {| li_started := li_started s; li_cancelled := li_cancelled s; li_workers := l; li_server := li_server s;
     li_handlers := li_handlers s; li_error := li_error s; li_stop := li_stop s; li_store := li_store s; li_reports := li_reports s;
     li_touches := li_touches s; li_late := li_late s |}.
(** [p.cancel()] *)
Definition cancel (s : life) : life :=
  {| li_started := li_started s; li_cancelled := true; li_workers := li_workers s; li_server := li_server s;
     li_handlers := li_handlers s; li_error := li_error s; li_stop := li_stop s; li_store := li_store s; li_reports := li_reports s;
     li_touches := li_touches s; li_late := li_late s |}.
(** [p.errors <- err] *)
Definition send_error (s : life) : life :=
  {| li_started := li_started s; li_cancelled := li_cancelled s; li_workers := li_workers s; li_server := li_server s;
     li_handlers := li_handlers s; li_error := true; li_stop := li_stop s; li_store := li_store s; li_reports := li_reports s;
     li_touches := li_touches s; li_late := li_late s |}.
Definition close_store (report : bool) (s : life) : life :=
  {| li_started := li_started s; li_cancelled := li_cancelled s; li_workers := li_workers s; li_server := li_server s;
     li_handlers := li_handlers s; li_error := li_error s; li_stop := li_stop s; li_store := false;
     li_reports := (if report then 1 else 0) + li_reports s; li_touches := li_touches s; li_late := li_late s |}.
Definition set_running (n : nat) (s : life) : life :=
  {| li_started := li_started s; li_cancelled := li_cancelled s; li_workers := li_workers s; li_server := li_server s;
     li_handlers := li_handlers s; li_error := li_error s; li_stop := li_stop s; li_store := li_store s; li_reports := li_reports s;
     li_touches := n; li_late := li_late s |}.
(** A statement of [TouchAPIKey]. *)
Definition use_store (s : life) : life :=
  {| li_started := li_started s; li_cancelled := li_cancelled s; li_workers := li_workers s; li_server := li_server s;
     li_handlers := li_handlers s; li_error := li_error s; li_stop := li_stop s; li_store := li_store s; li_reports := li_reports s;
     li_touches := li_touches s; li_late := li_late s || negb (li_store s) |}.
(** [s.stopping]: [Shutdown] has been called. *)
Definition stopping (s : life) : bool :=
  match li_stop s with NotStopping | Cancelled => false | _ => true end.

Section life.
Variable p : program.

(** [Shutdown] of the HTTP server closes the listener at once and returns
    without an error only when no handler runs.  The [TouchAPIKey] goroutines
    that handlers start in [authPrincipal] are waited for by nobody. *)
Inductive life_step : life -> life -> Prop :=
| WorkerEnds s l w k : li_workers s = l ++ w :: k -> life_step s (set_workers (l ++ k) s)
| ServerServes s : li_server s = Pending -> stopping s = false -> life_step s (set_server Serving s)
| ServerSkips s : li_server s = Pending -> stopping s = true -> life_step s (set_server Gone s)
| ServerFails s : li_server s = Pending \/ li_server s = Serving -> life_step s (cancel (send_error (set_server Gone s)))
| ServerEnds s : li_server s = Exiting -> life_step s (set_server Gone s)
| RequestBegins s : li_server s = Serving -> life_step s (set_handlers (S (li_handlers s)) s)
| RequestEnds s n : li_handlers s = S n -> life_step s (set_handlers n s)
| StopCancels s : li_stop s = NotStopping ->
    life_step s (set_phase Cancelled (if li_started s then cancel s else s))
| StopShutsDown s : li_stop s = Cancelled ->
    life_step s (set_phase Draining (match li_server s with Serving => set_server Exiting s | _ => s end))
| StopDrained s : li_stop s = Draining -> li_handlers s = 0%nat -> life_step s (set_phase (Waiting false) s)
| StopTimesOut s : li_stop s = Draining -> pg_server p = true -> life_step s (set_phase (Waiting true) s)
| StopWaited s failed : li_stop s = Waiting failed -> li_workers s = [] -> li_server s = Gone ->
    life_step s (set_phase (if failed then Failed else Closing) s)
| StopCloses s close_failed : li_stop s = Closing ->
    life_step s (set_phase (Closed close_failed) (close_store (pg_report p) s))
| RequestTouches s n : li_handlers s = S n -> life_step s (set_running (S (li_touches s)) s)
| TouchUses s n : li_touches s = S n -> life_step s (use_store s)
| TouchEnds s n : li_touches s = S n -> life_step s (set_running n s).
Definition life_steps : life -> life -> Prop := rtc life_step.
End life.
