(* ===== verification/StartupProofs.v ===== *)
(** * Starting and stopping: proofs

    The store is closed once, after everything that [Stop] waits for has ended,
    and only what [Stop] does not wait for, a recording of credential use, can
    come later;
    the agent's credential comes from where it should and goes nowhere else;
    and the credential file is replaced as a whole or not at all. *)

From S2P Require Export Startup.
Open Scope list_scope.
Open Scope Z_scope.

(** ** The life of the program *)

Section life.
Variable p : program.

(** Something that [Stop] waits for and that may call the store. *)
Definition in_service (s : life) : Prop := li_workers s <> [] \/ (0 < li_handlers s)%nat \/ li_server s = Serving.
(** [Shutdown] returned without an error. *)
Definition drained (s : life) : Prop :=
  match li_stop s with Waiting false | Closing | Closed _ => True | _ => False end.
Record life_ok (s : life) : Prop := {
  lo_started : li_started s = true;
  lo_server : li_server s <> Off;
  lo_cancelled : li_stop s <> NotStopping -> li_cancelled s = true;
  lo_quiet : stopping s = true -> li_server s <> Serving;
  lo_drained : drained s -> li_handlers s = 0%nat;
  lo_ended : (match li_stop s with Closing | Failed | Closed _ => True | _ => False end) -> li_workers s = [] /\ li_server s = Gone;
  lo_failed : li_stop s = Failed \/ li_stop s = Waiting true -> pg_server p = true;
  lo_store : li_store s = false <-> exists e, li_stop s = Closed e;
  lo_reports : li_reports s = (if li_store s then 0 else if pg_report p then 1 else 0)%nat;
  lo_late : li_late s = true -> li_store s = false
}.

Lemma launched_ok s : Start p made = Some s -> life_ok s.
Proof.
  intros [= <-]. split; simpl; try done; first [by destruct (pg_server p)|by intros [?|?]|split; [done|by intros [? ?]]|idtac].
Qed.

(** The phase of the program after a step, and what it says. *)
Ltac phases := unfold stopping, drained in *; simpl in *;
  repeat match goal with E : li_stop ?s = _ |- _ => rewrite E in *; clear E end; simpl in *.

Lemma same_store (st : bool) ph ph' :
  (forall e, ph <> Closed e) -> (forall e, ph' <> Closed e) ->
  (st = false <-> exists e, ph = Closed e) -> st = false <-> exists e, ph' = Closed e.
Proof. intros H1 H2 H3. split; [intros [e He]%H3; by apply H1 in He|intros [e He]; by apply H2 in He]. Qed.

Ltac next_phase old :=
  split; simpl; try done; phases; try done; try congruence; try (by intros [?|?]); try (by apply (same_store _ old));
  try (intros _; auto; congruence).

(** A program without a server has no handlers and nothing they leave. *)
Definition alone (s : life) : Prop :=
  li_server s = Gone /\ li_handlers s = 0%nat /\ li_touches s = 0%nat /\ li_late s = false.
Lemma life_step_alone s s' : pg_server p = false -> life_step p s s' -> alone s -> alone s'.
Proof.
  intros Hp Hs (G & Hh & Ht & Hl). unfold alone. destruct Hs; simpl; try done; try (destruct (li_started s); done); try (rewrite G; done);
    congruence.
Qed.
Lemma life_steps_alone s s' : pg_server p = false -> life_steps p s s' -> alone s -> alone s'.
Proof. intros Hp. induction 1; eauto using life_step_alone. Qed.
Lemma life_step_ok s s' : life_step p s s' -> life_ok s -> life_ok s'.
Proof.
  intros Hs [L1 L2 L3 L4 L5 L6 L7 L8 L9 L10].
  destruct Hs as [s l w k E|s E E2|s E E2|s E|s E|s E|s n E|s E|s E|s E E2|s E E2|s failed E E2 E3|s e E|s n E|s n E|s n E].
  - split; simpl; try done. intros Hp. destruct (L6 Hp) as [Hw _]. rewrite Hw in E. by destruct l.
  - split; simpl; try done; [intros Hst; change (stopping s = true) in Hst; congruence|]. intros Hp. destruct (L6 Hp). congruence.
  - split; simpl; try done. intros Hp. destruct (L6 Hp). congruence.
  - split; simpl; try done. intros Hp. destruct (L6 Hp) as [? Hg]. destruct E; congruence.
  - split; simpl; try done. intros Hp. by destruct (L6 Hp).
  - split; simpl; try done. intros Hd. exfalso. apply L4; [|done]. unfold stopping, drained in *. simpl in *. by destruct (li_stop s).
  - split; simpl; try done. intros Hd. specialize (L5 Hd). congruence.
  - rewrite L1. next_phase NotStopping.
  - destruct (li_server s) eqn:Es; next_phase Cancelled.
  - next_phase Draining.
  - next_phase Draining.
  - destruct failed; next_phase (Waiting true); next_phase (Waiting false).
  - next_phase Closing; [split; [by exists e|done]|]. rewrite L9. destruct (li_store s) eqn:Est; [by destruct (pg_report p)|].
    destruct (proj1 L8 eq_refl) as [? [=]].
  - by split.
  - split; simpl; try done. intros [Hl|Hl%negb_true_iff]%orb_true_iff; auto.
  - by split.
Qed.
Lemma life_steps_ok s s' : life_steps p s s' -> life_ok s -> life_ok s'.
Proof. induction 1; eauto using life_step_ok. Qed.

(** *** Stopping ends *)

Definition returned (s : life) : Prop := li_stop s = Failed \/ exists e, li_stop s = Closed e.
Definition can_return (s : life) : Prop := exists s', life_steps p s s' /\ returned s'.
Lemma can_return_step s s' : life_step p s s' -> can_return s' -> can_return s.
Proof. intros Hs (s2 & Hs2 & Hr). exists s2. split; [by eapply rtc_l|done]. Qed.
Lemma can_return_steps s s' : life_steps p s s' -> can_return s' -> can_return s.
Proof. intros Hs (s2 & Hs2 & Hr). exists s2. split; [by etransitivity|done]. Qed.

Lemma workers_end s : life_steps p s (set_workers [] s).
Proof.
  destruct s as [st c l v h e ph o r]. induction l as [|w l IH]; [apply rtc_refl|].
  eapply rtc_l; [by apply (WorkerEnds p _ [] w l)|exact IH].
Qed.
Lemma handlers_end s : life_steps p s (set_handlers 0 s).
Proof.
  destruct s as [st c l v h e ph o r]. induction h as [|h IH]; [apply rtc_refl|].
  eapply rtc_l; [by apply (RequestEnds p _ h)|exact IH].
Qed.
Lemma returns_from_waiting s failed : life_ok s -> li_stop s = Waiting failed -> can_return s.
Proof.
  intros Hok Hp. assert (Hst : stopping s = true) by (unfold stopping; by rewrite Hp).
  assert (Hgo : forall s1, li_server s1 = Gone -> li_stop s1 = Waiting failed -> can_return s1).
  { intros s1 Hg Hp1. apply (can_return_steps _ _ (workers_end s1)).
    eapply can_return_step; [by apply (StopWaited p _ failed)|]. destruct failed.
    - eexists. split; [apply rtc_refl|by left].
    - eapply can_return_step; [by apply (StopCloses p _ false)|]. eexists. split; [apply rtc_refl|right; by eexists]. }
  destruct (li_server s) eqn:Es.
  - by destruct (lo_server _ Hok).
  - eapply can_return_step; [by apply ServerSkips|]. by apply Hgo.
  - by destruct (lo_quiet _ Hok Hst).
  - eapply can_return_step; [by apply ServerEnds|]. by apply Hgo.
  - by apply Hgo.
Qed.
Lemma stop_can_return s : life_ok s -> can_return s.
Proof.
  assert (Hd : forall s, life_ok s -> li_stop s = Draining -> can_return s).
  { intros s1 Hok Hp. apply (can_return_steps _ _ (handlers_end s1)).
    assert (Hs : life_step p (set_handlers 0 s1) (set_phase (Waiting false) (set_handlers 0 s1))) by by apply StopDrained.
    apply (can_return_step _ _ Hs). apply (returns_from_waiting _ false); [|done].
    eapply life_step_ok; [exact Hs|]. eapply life_steps_ok; [apply handlers_end|done]. }
  assert (Hc : forall s, life_ok s -> li_stop s = Cancelled -> can_return s).
  { intros s1 Hok Hp. pose proof (StopShutsDown p s1 Hp) as Hs. apply (can_return_step _ _ Hs). apply Hd; [by eapply life_step_ok|done]. }
  intros Hok. destruct (li_stop s) eqn:Hp.
  - pose proof (StopCancels p s Hp) as Hs. apply (can_return_step _ _ Hs). apply Hc; [by eapply life_step_ok|done].
  - by apply Hc.
  - by apply Hd.
  - by eapply returns_from_waiting.
  - eapply can_return_step; [by apply (StopCloses p _ false)|]. eexists. split; [apply rtc_refl|right; by eexists].
  - exists s. split; [apply rtc_refl|by left].
  - exists s. split; [apply rtc_refl|right; by eexists].
Qed.

(** C37. The store is closed after everything [Stop] waits for.  However the
    goroutines of a started program interleave, with requests coming in, the
    server failing on its own and [Stop] being called at any moment: as long as
    a collection loop, the evaluator, the retention job or a request handler can
    run, or the server still takes requests, the store is open.  It is closed at
    most once, after the context was cancelled, and the shutdown report is
    written at most once and before that.  Nothing uses the store after it was
    closed, except that a [TouchAPIKey] goroutine, which a handler of a program
    with a server starts and nothing waits for, may still come
    ([touches_may_come_late]); a program without a server has none.  When the
    handlers do not end in time [Stop] fails and leaves the store open.  From
    every state that can be reached [Stop] can still return, and a second
    [Start] is refused. *)
Theorem store_closes_last (s0 s : life) :
  Start p made = Some s0 -> life_steps p s0 s ->
  (in_service s -> li_store s = true) /\
  (li_store s = false <-> exists e, li_stop s = Closed e) /\
  (li_store s = false -> li_cancelled s = true /\ li_workers s = [] /\ li_handlers s = 0%nat /\ li_server s = Gone) /\
  li_reports s = (if li_store s then 0 else if pg_report p then 1 else 0)%nat /\
  (li_late s = true -> li_store s = false /\ pg_server p = true) /\
  (forall s', life_step p s s' -> li_late s = false -> li_late s' = true -> (0 < li_touches s)%nat /\ s' = use_store s) /\
  (li_stop s = Failed -> li_store s = true /\ pg_server p = true) /\
  can_return s /\ Start p s = None.
Proof.
  intros H0 Hs. pose proof (life_steps_ok _ _ Hs (launched_ok _ H0)) as Hok. pose proof Hok as [L1 L2 L3 L4 L5 L6 L7 L8 L9 L10].
  assert (Hquiet : li_store s = false -> li_cancelled s = true /\ li_workers s = [] /\ li_handlers s = 0%nat /\ li_server s = Gone).
  { intros [e Hp]%L8. unfold drained in *. rewrite Hp in *. destruct (L6 I). split; [by apply L3|]. split; [done|]. split; [by apply L5|done]. }
  split_and!; [|done|done|done| | | |by apply stop_can_return|unfold Start; by rewrite L1].
  - intros Hin. destruct (li_store s); [done|]. destruct (Hquiet eq_refl) as (_ & Hw & Hh & Hg). destruct Hin as [?|[?|?]]; [done|lia|congruence].
  - intros Hl. split; [by apply L10|]. destruct (pg_server p) eqn:Ep; [done|].
    assert (Halone : alone s0) by (injection H0 as <-; unfold alone; simpl; by rewrite Ep).
    destruct (life_steps_alone _ _ Ep Hs Halone) as (_ & _ & _ & E). congruence.
  - intros s' Hstep Hl Hl'. destruct Hstep; simpl in *; try congruence; [by destruct (li_started s); simpl in *; congruence|by destruct (li_server s); simpl in *; congruence|].
    split; [lia|done].
  - intros Hp. split; [|apply L7; by left]. destruct (li_store s); [done|]. destruct (proj1 L8 eq_refl). congruence.
Qed.
End life.

Module SampleLife.
Definition prog : program := {| pg_workers := [CollectorLoop; EvaluatorLoop]; pg_server := true; pg_report := true |}.
Definition launched : life := default made (Start prog made).
Definition serving : life := set_handlers 1 (set_server Serving launched).
(** The state after a request that left a goroutine, and [Stop] has returned. *)
Definition stopped : life :=
  {| li_started := true; li_cancelled := true; li_workers := []; li_server := Gone; li_handlers := 0; li_error := false;
     li_stop := Closed false; li_store := false; li_reports := 1; li_touches := 1; li_late := false |}.
End SampleLife.
(** A request comes in, leaves its goroutine and ends; [Stop] cancels, shuts
    the server down, waits for the workers and closes the store; then the
    goroutine is scheduled. *)
Lemma touches_may_come_late :
  life_steps SampleLife.prog SampleLife.launched SampleLife.stopped /\
  life_step SampleLife.prog SampleLife.stopped (use_store SampleLife.stopped) /\
  li_late (use_store SampleLife.stopped) = true.
Proof.
  split; [|split; [by apply (TouchUses _ _ 0)|reflexivity]].
  eapply rtc_l; [by apply ServerServes|]. eapply rtc_l; [by apply RequestBegins|]. eapply rtc_l; [by apply (RequestTouches _ _ 0)|].
  eapply rtc_l; [by apply (RequestEnds _ _ 0)|]. eapply rtc_l; [by apply StopCancels|]. eapply rtc_l; [by apply StopShutsDown|].
  eapply rtc_l; [by apply StopDrained|]. eapply rtc_l; [by apply ServerEnds|].
  eapply rtc_l; [by apply (WorkerEnds _ _ [] CollectorLoop [EvaluatorLoop])|].
  eapply rtc_l; [by apply (WorkerEnds _ _ [] EvaluatorLoop [])|].
  eapply rtc_l; [by apply (StopWaited _ _ false)|]. eapply rtc_l; [by apply (StopCloses _ _ false)|]. apply rtc_refl.
Qed.
Lemma store_closes_last_witness :
  Start SampleLife.prog made = Some SampleLife.launched /\ in_service SampleLife.serving /\
  li_store SampleLife.serving = true /\ can_return SampleLife.prog SampleLife.serving.
Proof.
  assert (Hs : life_steps SampleLife.prog SampleLife.launched SampleLife.serving).
  { eapply rtc_l; [by apply ServerServes|]. eapply rtc_l; [by apply RequestBegins|]. apply rtc_refl. }
  destruct (store_closes_last SampleLife.prog SampleLife.launched SampleLife.serving eq_refl Hs) as (Hopen & _ & _ & _ & _ & _ & _ & Hret & _).
  assert (Hin : in_service SampleLife.serving) by (left; intros [=]).
  split; [reflexivity|]. split; [exact Hin|]. split; [exact (Hopen Hin)|exact Hret].
Defined.

(** ** The credential file *)

(** The wrappers of the system calls. *)
Lemma wp_wrap {S A} msg (m : M S A) Q s :
  wp m (fun r s' => match r with Ok a => Q (Ok a) s' | Err e => Q (Err (EWrap msg e)) s' end) s -> wp (wrap msg m) Q s.
Proof. intros Hm. apply wp_try. eapply wp_mono; [exact Hm|]. intros [a|e] s' HQ; [by apply wp_ret|by apply wp_fail]. Qed.
Lemma wp_nothing {S} (Q : result error unit -> S -> Prop) s : (forall r, Q r s) -> wp nothing Q s.
Proof. intros HQ. by apply wp_exec. Qed.
Lemma wp_unless_missing {S} m (Q : result error unit -> S -> Prop) s :
  wp m (fun r s' => match r with
                    | Ok _ => Q (Ok tt) s'
                    | Err e => if Is e ErrNotExist then Q (Ok tt) s' else Q (Err e) s'
                    end) s -> wp (unless_missing m) Q s.
Proof.
  intros Hm. apply wp_try. eapply wp_mono; [exact Hm|]. intros [[]|e] s' HQ; [by apply wp_ret|].
  destruct (Is e ErrNotExist); [by apply wp_ret|by apply wp_fail].
Qed.

Section store.
Context `{CredentialJSON}.
Context (euid : Z).

(** Looking changes nothing. *)
Lemma wp_lstat_file (Q : result error node -> cred_fs -> Prop) s :
  (forall d, Q (Err (EDb d)) s) -> (cf_file s = None -> Q (Err ErrNotExist) s) -> (forall n, cf_file s = Some n -> Q (Ok n) s) ->
  wp lstat_file Q s.
Proof.
  intros Hd Hn Ho fs. unfold lstat_file, statement. destruct (cf_file s) as [n|] eqn:E; destruct fs as [|[[]|] fs]; auto.
Qed.
Lemma wp_lstat_dir (Q : result error bool -> cred_fs -> Prop) s : (forall r, Q r s) -> wp lstat_dir Q s.
Proof. intros HQ fs. unfold lstat_dir, statement. destruct (cf_dir s); destruct fs as [|[[]|] fs]; auto. Qed.
Lemma wp_reject_dir (Q : result error unit -> cred_fs -> Prop) s : (forall r, Q r s) -> wp (rejectSymlink lstat_dir) Q s.
Proof. intros HQ. apply wp_mbind, wp_lstat_dir. intros [[]|e]; [apply wp_fail|apply wp_ret|]; apply HQ. Qed.
Lemma wp_reject_file (Q : result error unit -> cred_fs -> Prop) s :
  (forall e, Q (Err e) s) -> (forall n, cf_file s = Some n -> nd_symlink n = false -> Q (Ok tt) s) -> (cf_file s = None -> Q (Ok tt) s) ->
  wp (unless_missing (rejectSymlink file_link)) Q s.
Proof.
  intros He Ho Hn. apply wp_unless_missing, wp_mbind, wp_mbind, wp_lstat_file; [intros d; exact (He _)|intros Hf; exact (Hn Hf)|].
  intros n Hf. apply wp_ret. destruct (nd_symlink n) eqn:E; [apply wp_fail; exact (He _)|apply wp_ret; by eapply Ho].
Qed.

(** What a write leaves: the new file, private, or the old one and an error. *)
Definition written_file (data : string) : node :=
  {| nd_content := data; nd_perm := 384; nd_owner := euid; nd_symlink := false |}.
Definition rewritten (data : string) (s : cred_fs) (r : result error unit) (s' : cred_fs) : Prop :=
  cf_file s' = Some (written_file data) \/ (cf_file s' = cf_file s /\ is_ok r = false).
Definition saved (c : StoredCredentials) : node := written_file (cj_MarshalIndent c).
Definition replaced (c : StoredCredentials) : cred_fs -> result error unit -> cred_fs -> Prop := rewritten (cj_MarshalIndent c).

Lemma wp_rename data s0 (Q : result error unit -> cred_fs -> Prop) s :
  cf_file s = cf_file s0 -> cf_temp s = Some data ->
  (forall r s', rewritten data s0 r s' -> Q r s') -> wp (wrap "rename temp file" (statement (rename_temp euid))) Q s.
Proof.
  intros Hf Ht HQ. apply wp_wrap, wp_statement.
  - intros e. apply HQ. by right.
  - unfold rename_temp. rewrite Ht. intros [] s' [= <-]. split; intros; apply HQ; by left.
Qed.
Lemma wp_reject_dir_missing (Q : result error unit -> cred_fs -> Prop) s :
  (forall r, Q r s) -> wp (unless_missing (rejectSymlink lstat_dir)) Q s.
Proof. intros HQ. apply wp_unless_missing, wp_reject_dir. intros [[]|e]; [|destruct (Is e ErrNotExist)]; apply HQ. Qed.
Lemma wp_atomicWriteFile data s : wp (atomicWriteFile euid data) (rewritten data s) s.
Proof.
  assert (Hsame : forall e s', cf_file s' = cf_file s -> rewritten data s (Err e) s') by (by right).
  assert (Hrest : wp (let* _ := unless_missing (rejectSymlink lstat_dir) in
    let* _ := wrap "create temp file" (statement create_temp) in
    let* _ := or_remove (with_temp None) (
      let* _ := attempt nothing in
      let* _ := wrap "write temp file" (exec (fun s => (tt, with_temp (Some data) s))) in
      let* _ := wrap "sync temp file" nothing in
      let* _ := wrap "close temp file" nothing in
      wrap "rename temp file" (statement (rename_temp euid))) in
    let* _ := attempt nothing in ret tt) (rewritten data s) s).
  { apply wp_mbind, wp_reject_dir_missing. intros [[]|e]; [|by apply Hsame].
    apply wp_mbind, wp_wrap, wp_statement; [by intros e; apply Hsame|]. unfold create_temp. intros [] s1.
    destruct (cf_dir s); [|done]. intros [= <-]. split; [|by intros e; apply Hsame].
    apply wp_mbind, wp_try. apply wp_mono with (Q := fun r s' => rewritten data s r s').
    - apply wp_try, wp_nothing. intros r. apply wp_mbind, wp_wrap, wp_exec; [by intros e; apply Hsame| |by intros e; apply Hsame].
      apply wp_mbind, wp_wrap, wp_nothing. intros [[]|e]; [|by apply Hsame].
      apply wp_mbind, wp_wrap, wp_nothing. intros [[]|e]; [|by apply Hsame]. by apply (wp_rename data s).
    - intros [[]|e] s2 Hs2.
      + apply wp_ret, wp_try, wp_nothing. intros r. apply wp_ret. destruct Hs2 as [?|[_ ?]]; [by left|done].
      + apply wp_try, wp_exec; intros; apply wp_fail; destruct Hs2 as [?|[? _]]; by (left + right). }
  unfold atomicWriteFile. apply wp_mbind, wp_reject_file; [by intros e; apply Hsame|intros n _ _|intros _]; exact Hrest.
Qed.


(** *** A checkpoint of the queue *)

(** [spoolReplace] is one step, as the model of the queue has it: whatever fails
    inside it, the file and the kind of the answer are those of a single
    statement that failed before its effect, after it, or not at all. *)
Definition replace_file (data : string) (s : cred_fs) : result error (unit * cred_fs) :=
  Ok (tt, {| cf_file := Some (written_file data); cf_dir := cf_dir s; cf_temp := None |}).
Lemma wp_spoolReplace data s : wp (spoolReplace euid data) (rewritten data s) s.
Proof.
  apply wp_mbind. eapply wp_mono; [apply wp_atomicWriteFile|]. intros [[]|e] s1 Hs1; [|done].
  destruct Hs1 as [Hf|[_ ?]]; [|done]. unfold syncSpoolDir. apply wp_mbind, wp_statement; [by left|].
  destruct (cf_dir s1); [|done]. intros [] s2 [= <-]. split; [apply wp_nothing|]; by left.
Qed.
Lemma checkpoint_is_one_step data s fs :
  let '(r, s', _) := spoolReplace euid data s fs in
  exists gs, let '(r1, s1, _) := statement (replace_file data) s gs in is_ok r1 = is_ok r /\ cf_file s1 = cf_file s'.
Proof.
  pose proof (wp_spoolReplace data s fs) as Hw. destruct (spoolReplace euid data s fs) as [[r s'] fs'].
  set (e := {| err_msg := "input/output error"; err_code := EmptyString |}).
  destruct Hw as [Hf|[Hf Hr]].
  - destruct r as [[]|]; [exists []|exists [Some (Lost e)]]; by rewrite Hf.
  - exists [Some (Fail_ e)]. by rewrite Hf, Hr.
Qed.

Lemma wp_Save path c s : wp (Save euid path c) (replaced c s) s.
Proof.
  assert (Hsame : forall e s', cf_file s' = cf_file s -> replaced c s (Err e) s') by (by right).
  unfold Save. destruct (negb _); [apply wp_fail; by apply Hsame|]. cbv zeta.
  apply wp_mbind, wp_reject_dir_missing. intros [[]|e]; [|by apply Hsame].
  apply wp_mbind, wp_wrap, wp_exec; [by intros e; apply Hsame| |by intros e; apply Hsame].
  apply wp_mbind, wp_reject_dir. intros [[]|e]; [|by apply Hsame].
  apply wp_mbind, wp_wrap. eapply wp_mono; [apply wp_atomicWriteFile|].
  intros [[]|e] s1 Hs1; [|destruct Hs1 as [?|[? _]]; by (left + right)].
  destruct Hs1 as [Hs1|[_ ?]]; [|done]. apply wp_mbind, wp_wrap, wp_lstat_file; [by left|by left|].
  intros n _. destruct (checkFileOwner euid n); [apply wp_fail|apply wp_ret]; by left.
Qed.

(** What a file must be for [Load] to return its content. *)
Definition private (n : node) : Prop := nd_symlink n = false /\ Z.land (nd_perm n) 63 = 0 /\ nd_owner n = euid.
Lemma wp_Load path s :
  wp (Load euid path) (fun r s' => s' = s /\ match r with
    | Ok c => valid_path path = true /\ exists n, cf_file s = Some n /\ private n /\ cj_Unmarshal (nd_content n) = Some c
    | Err e => Is e ErrNoCredentials = true -> cf_file s = None
    end) s.
Proof.
  unfold Load. destruct (valid_path path) eqn:Ev; [|by apply wp_fail]. simpl negb. cbv iota.
  apply wp_mbind. apply wp_mono with (Q := fun r s' => s' = s /\ (forall e, r = Err e -> Is e ErrNoCredentials = false) /\
    (r = Ok tt -> forall n, cf_file s = Some n -> nd_symlink n = false)).
  { apply wp_unless_missing, wp_mbind, wp_mbind, wp_lstat_file.
    - intros d. by split_and!; [|intros e [= <-]|].
    - intros Hf. split_and!; [done..|]. intros _ n. by rewrite Hf.
    - intros n Hf. apply wp_ret. destruct (nd_symlink n) eqn:El; [apply wp_fail|apply wp_ret];
        (split_and!; [done| |]); [by intros e [= <-]|done|done|]. intros _ n' Hf'. congruence. }
  intros [[]|e] s1 (-> & He & Hlink); [|split; [done|]; by rewrite (He e)]. specialize (Hlink eq_refl).
  apply wp_try, wp_lstat_file; [intros d; by apply wp_fail|intros Hf; by apply wp_fail|]. intros n Hf.
  destruct (Z.eqb_spec (Z.land (nd_perm n) 63) 0); [|by apply wp_fail]. simpl negb. cbv iota.
  unfold checkFileOwner. destruct (Z.eqb_spec (nd_owner n) euid); [|by apply wp_fail].
  apply wp_mbind, wp_wrap, wp_lstat_file; [by split|by split|]. intros n' Hf'. assert (n' = n) as -> by congruence.
  destruct (cj_Unmarshal (nd_content n)) as [c|] eqn:Eu; [apply wp_ret|by apply wp_fail].
  split; [done|]. split; [done|]. exists n. split; [done|]. split; [|done]. by split; [apply Hlink|].
Qed.

Lemma Load_private path t n c :
  valid_path path = true -> cf_file t = Some n -> private n -> cj_Unmarshal (nd_content n) = Some c ->
  Load euid path t [] = (Ok c, t, []).
Proof.
  intros Hv Hn (Hl & Hp & Ho) Hu. unfold Load. rewrite Hv. simpl negb. cbv iota. destruct t as [f dir tmp]. simpl in Hn. subst f.
  unfold unless_missing, rejectSymlink, file_link, lstat_file, wrap, attempt, mbind, statement, ret. cbn. rewrite Hl. cbn.
  rewrite Hp. cbn. unfold checkFileOwner. rewrite Ho, Z.eqb_refl. cbn. by rewrite Hu.
Qed.

(** C35. The credential file is replaced as a whole or not at all.  Whatever
    system calls fail, before or after their effect, and wherever the run
    breaks off: after a save the file is the old one or the complete new one,
    private to its owner; a save that succeeds is read back as it was; and
    whatever a later load returns was in the old file or is what was saved.  A
    load changes nothing and returns only the content of a private file of
    this user that is no symbolic link. *)
Theorem credential_file_is_atomic `{!CredentialJSONLaws} path c s fs r s' fs' :
  Save euid path c s fs = (r, s', fs') ->
  (cf_file s' = cf_file s \/ cf_file s' = Some (saved c)) /\
  (is_ok r = true -> run_result (Load euid path) s' [] = Ok c) /\
  (forall gs c' t gs', Load euid path s' gs = (Ok c', t, gs') ->
     t = s' /\ (exists n, cf_file s' = Some n /\ private n) /\ (c' = c \/ run_result (Load euid path) s [] = Ok c')).
Proof.
  intros Hs. pose proof (wp_run _ _ _ _ _ _ _ (wp_Save path c s) Hs) as Hr.
  assert (Hload : forall t n c', valid_path path = true -> cf_file t = Some n -> private n -> cj_Unmarshal (nd_content n) = Some c' ->
    run_result (Load euid path) t [] = Ok c') by (intros t n c' ? ? ? ?; unfold run_result; by rewrite (Load_private path t n c')).
  split; [destruct Hr as [?|[? _]]; auto|]. split.
  - intros Hok. destruct Hr as [Hf|[_ Hb]]; [|congruence].
    apply (Hload _ (saved c)); [|done|by split_and!|apply cj_roundtrip].
    unfold Save in Hs. destruct (valid_path path); [done|]. cbn in Hs. unfold fail in Hs. by simplify_eq.
  - intros gs c' t gs' Hl. pose proof (wp_run _ _ _ _ _ _ _ (wp_Load path s') Hl) as [-> (Hv & n & Hn & Hp & Hu)].
    split; [done|]. split; [by exists n|]. destruct Hr as [Hf|[Hf _]].
    + left. rewrite Hf in Hn. injection Hn as <-. simpl in Hu. rewrite cj_roundtrip in Hu. by injection Hu as <-.
    + right. apply (Hload _ n); congruence.
Qed.
End store.

(** ** Where the credential comes from *)

Section credentials.
Context `{Unicode} `{URLParser} `{CredentialJSON} `{EnrollJSON}.
Context {N : Type} (post : string -> string -> M N (option (Z * string))).
Context (euid : Z) (tokenPath platform version : string).

Lemma wp_on_files {A} (m : M cred_fs A) (Q : result error A -> boot N -> Prop) b :
  wp m (fun r c => Q r (Build_boot c (bo_net b))) (bo_creds b) -> wp (on_files m) Q b.
Proof. intros Hm fs. specialize (Hm fs). unfold on_files, zoom. by destruct (m (bo_creds b) fs) as [[r c] fs']. Qed.
Lemma wp_on_net {A} (m : M N A) (Q : result error A -> boot N -> Prop) b :
  (forall r n, Q r (Build_boot (bo_creds b) n)) -> wp (on_net m) Q b.
Proof. intros HQ fs. unfold on_net, zoom. by destruct (m (bo_net b) fs) as [[r n] fs']. Qed.

Lemma wp_enroll_attempts more url body (Q : result error (Z * string) -> boot N -> Prop) : forall b,
  (forall r n, Q r (Build_boot (bo_creds b) n)) -> wp (enroll_attempts post more url body) Q b.
Proof.
  induction more as [|more IH]; intros b HQ; cbn [enroll_attempts]; apply wp_try, wp_on_net; intros [[resp|]|e] n;
    try (apply wp_ret; apply HQ); try (apply wp_fail; apply HQ); by apply IH.
Qed.

(** A credential that was asked for at the hub is on the disk. *)
Definition enrolled_here (hub : string) (b : boot N) (r : result error StoredCredentials) (b' : boot N) : Prop :=
  match r with
  | Ok c => sc_HubURL c = hub /\ cf_file (bo_creds b') = Some (saved euid c)
  | Err _ => cf_file (bo_creds b') = cf_file (bo_creds b) \/
             exists c, sc_HubURL c = hub /\ cf_file (bo_creds b') = Some (saved euid c)
  end.
Lemma wp_Enroll hub code server hostname current now b :
  wp (Enroll post euid tokenPath platform version hub code server hostname current now) (enrolled_here hub b) b.
Proof.
  unfold Enroll. destruct (RequireHTTPSHub hub); [apply wp_fail; by left|]. cbv zeta.
  apply wp_mbind, wp_enroll_attempts. intros [[status text]|e] n; [|by left].
  destruct (negb (status =? 201)); [apply wp_fail; by left|]. destruct (ej_Decode text) as [data|]; [|apply wp_fail; by left].
  set (c := Build_StoredCredentials _ _ _ _ _). apply wp_try, wp_on_files. eapply wp_mono; [apply wp_Save|].
  intros [[]|e] cs [Hf|[Hf Hb]]; [apply wp_ret; by split|done|apply wp_fail; right; by exists c|apply wp_fail; by left].
Qed.

(** The stored credential of this machine for this hub. *)
Definition stored_for (hub : string) (serverID : option string) (c : StoredCredentials) (b : boot N) : Prop :=
  exists n, cf_file (bo_creds b) = Some n /\ private euid n /\ cj_Unmarshal (nd_content n) = Some c /\
    SameHubOrigin (sc_HubURL c) hub = true /\ serverID = Some (sc_ServerID c).
Definition credential_source (hub key code : string) (serverID : option string) (b : boot N) (r : result error string) (b' : boot N) : Prop :=
  (forall token, r = Ok token -> RequireHTTPSHub hub = None /\
    ((key <> EmptyString /\ token = key /\ b' = b) \/
     (key = EmptyString /\ (exists c, stored_for hub serverID c b /\ token = sc_Token c) /\ b' = b) \/
     (key = EmptyString /\ code <> EmptyString /\ cf_file (bo_creds b) = None /\
      exists c, token = sc_Token c /\ sc_HubURL c = hub /\ cf_file (bo_creds b') = Some (saved euid c)))) /\
  (cf_file (bo_creds b) <> None \/ key <> EmptyString \/ code = EmptyString -> b' = b).

Lemma wp_agentCredentials hub key code hostname serverID now b :
  wp (agentCredentials post euid tokenPath platform version hub key code hostname serverID now)
     (credential_source hub key code serverID b) b.
Proof.
  assert (Herr : forall e, credential_source hub key code serverID b (Err e) b) by (by split).
  unfold agentCredentials. destruct (RequireHTTPSHub hub) eqn:Eh; [by apply wp_fail|].
  destruct (is_empty key) eqn:Ek; simpl negb; cbv iota.
  2: { apply wp_ret. split; [|done]. intros token [= <-]. split; [done|]. left. split; [by apply is_empty_false|done]. }
  assert (key = EmptyString) as -> by (by destruct key).
  apply wp_try, wp_on_files. eapply wp_mono; [apply wp_Load|]. intros r cs [-> Hr].
  replace (Build_boot (bo_creds b) (bo_net b)) with b by (by destruct b).
  destruct r as [c|e].
  - destruct Hr as (_ & n & Hn & Hp & Hu). destruct (SameHubOrigin (sc_HubURL c) hub) eqn:Eo; [|by apply wp_fail]. simpl negb. cbv iota.
    destruct serverID as [id|]; [|by apply wp_fail]. destruct (String.eqb_spec (sc_ServerID c) id) as [<-|]; [|by apply wp_fail].
    apply wp_ret. split; [|done]. intros token [= <-]. split; [done|]. right. left. split; [done|]. split; [|done].
    exists c. split; [|done]. by exists n.
  - destruct (Is e ErrNoCredentials) eqn:Ei; [|by apply wp_fail]. specialize (Hr eq_refl). simpl negb. cbv iota.
    destruct (is_empty code) eqn:Ec; [by apply wp_fail|]. apply is_empty_false in Ec. destruct serverID as [id|]; [|by apply wp_fail].
    assert (Hnot : ~ (cf_file (bo_creds b) <> None \/ EmptyString <> EmptyString \/ code = EmptyString)) by tauto.
    apply wp_try. eapply wp_mono; [apply wp_Enroll|]. intros [c|e'] b' Hb'; [apply wp_ret|apply wp_fail]; (split; [|done]); [|done].
    intros token [= <-]. split; [done|]. right. right. destruct Hb'. split_and!; [done..|by exists c].
Qed.

(** C11. The agent's credential comes from where it should.  Whatever the
    network answers and whatever fails, a token the agent starts with is the
    configured one, or the one stored for this very hub and machine in a
    private file, or one just issued by the hub named in the configuration and
    already stored for that hub; never without an encrypted or local
    destination.  A configured key or an existing file means that the hub is
    not asked at all, so a credential for another hub or machine is an error and
    is neither sent nor replaced.  A restart after an enrollment finds the same
    token again without asking. *)
Theorem agent_credentials_stay_home `{!CredentialJSONLaws} hub key code hostname serverID now b fs r b' fs' :
  agentCredentials post euid tokenPath platform version hub key code hostname serverID now b fs = (r, b', fs') ->
  credential_source hub key code serverID b r b' /\
  (forall c code2 host2 now2 b2, valid_path tokenPath = true -> SameHubOrigin (sc_HubURL c) hub = true ->
     RequireHTTPSHub hub = None -> cf_file (bo_creds b2) = Some (saved euid c) ->
     run_result (agentCredentials post euid tokenPath platform version hub EmptyString code2 host2 (Some (sc_ServerID c)) now2) b2 [] =
       Ok (sc_Token c)).
Proof.
  intros Hrun. split; [exact (wp_run _ _ _ _ _ _ _ (wp_agentCredentials hub key code hostname serverID now b) Hrun)|].
  intros c code2 host2 now2 b2 Hv Ho Hh Hf.
  assert (Hl : Load euid tokenPath (bo_creds b2) [] = (Ok c, bo_creds b2, []))
    by (apply (Load_private _ _ _ (saved euid c)); [done|done|by split_and!|apply cj_roundtrip]).
  unfold run_result, agentCredentials. rewrite Hh. change (negb (is_empty EmptyString)) with false. cbv iota. unfold mbind, attempt, on_files, zoom. cbv beta.
  rewrite Hl. cbv iota beta. rewrite Ho, String.eqb_refl. done.
Qed.
End credentials.

(** ** Concrete inputs *)

Module SampleStartup.
Fixpoint bits (p : positive) : string :=
  match p with xH => EmptyString | xO p => String "0" (bits p) | xI p => String "1" (bits p) end.
Fixpoint unbits (s : string) : positive :=
  match s with
  | EmptyString => xH
  | String c s => if Ascii.eqb c "0" then xO (unbits s) else xI (unbits s)
  end.
Lemma unbits_bits (p : positive) : unbits (bits p) = p.
Proof. induction p as [p IH|p IH|]; simpl; by rewrite ?IH. Qed.
Definition fields (c : StoredCredentials) : string * string * string * string * Z :=
  (sc_Token c, sc_TenantID c, sc_ServerID c, sc_HubURL c, sc_EnrolledAt c).
Definition of_fields (f : string * string * string * string * Z) : StoredCredentials :=
  let '(t, n, s, h, e) := f in
  {| sc_Token := t; sc_TenantID := n; sc_ServerID := s; sc_HubURL := h; sc_EnrolledAt := e |}.
#[export] Instance json : CredentialJSON :=
  {| cj_MarshalIndent := fun c => bits (encode (fields c)); cj_Unmarshal := fun s => of_fields <$> decode (unbits s) |}.
#[export] Instance json_laws : CredentialJSONLaws.
Proof. split. intros c. simpl. rewrite unbits_bits, decode_encode. by destruct c. Qed.
#[export] Instance enroll_json : EnrollJSON :=
  {| ej_Marshal := eq_EnrollCode;
     ej_Decode := fun _ => Some {| ep_Token := "wma_1"; ep_TenantID := "t_acme"; ep_ServerID := "a_1"; ep_Error := EmptyString |} |}.
#[export] Instance urls : URLParser := fun _ => Some {| u_Scheme := "https"; u_Host := "hub"; u_Hostname := "hub" |}.
(** The network: where the requests went; the first answer is lost. *)
Definition post (url body : string) : M (list string) (option (Z * string)) :=
  fun log fs => (Ok (match log with [] => None | _ => Some (201, EmptyString) end), url :: log, fs).
Definition path : string := "/etc/wmonitor/token.json".
Definition hub : string := "https://hub".
Definition empty : boot (list string) := Build_boot {| cf_file := None; cf_dir := Some false; cf_temp := None |} [].
Definition creds : StoredCredentials :=
  {| sc_Token := "wma_1"; sc_TenantID := "t_acme"; sc_ServerID := "a_1"; sc_HubURL := hub; sc_EnrolledAt := 7 |}.
Definition start (key : string) (b : boot (list string)) : result error string * boot (list string) :=
  (@agentCredentials ascii_only urls json enroll_json _ post 0 path "linux/amd64" "dev" hub key "ABCD" "box" (Some "a_1"%string) 7 b []).1.
End SampleStartup.
#[local] Existing Instances SampleStartup.json SampleStartup.json_laws.

(** The disk is full while the temporary file is written: the old credential
    stays, and is read. *)
Lemma credential_file_is_atomic_witness :
  let old := bo_creds (SampleStartup.start EmptyString SampleStartup.empty).2 in
  let r := Save 0 SampleStartup.path {| sc_Token := "wma_2"; sc_TenantID := "t_acme"; sc_ServerID := "a_1";
             sc_HubURL := SampleStartup.hub; sc_EnrolledAt := 8 |} old
             [None; None; None; None; None; None; None; Some (Fail_ {| err_msg := "no space left on device"; err_code := EmptyString |})] in
  is_ok r.1.1 = false /\ (cf_file r.1.2 = cf_file old \/ exists c, cf_file r.1.2 = Some (saved 0 c)) /\
  run_result (Load 0 SampleStartup.path) r.1.2 [] = Ok SampleStartup.creds.
Proof.
  intros old r. split; [vm_compute; reflexivity|]. split; [|vm_compute; reflexivity].
  destruct (credential_file_is_atomic 0 SampleStartup.path {| sc_Token := "wma_2"; sc_TenantID := "t_acme"; sc_ServerID := "a_1";
             sc_HubURL := SampleStartup.hub; sc_EnrolledAt := 8 |} old _ r.1.1 r.1.2 r.2
    (eq_trans (surjective_pairing r) (f_equal (fun x => (x, r.2)) (surjective_pairing r.1)))) as ([Hf|Hf] & _); [left; exact Hf|].
  right. eexists. exact Hf.
Defined.
(** The first answer of the hub is lost; a restart uses the stored token and
    asks nobody. *)
Lemma agent_credentials_stay_home_witness :
  let first := SampleStartup.start EmptyString SampleStartup.empty in
  first.1 = Ok "wma_1"%string /\ bo_net first.2 = ["https://hub/api/enroll"; "https://hub/api/enroll"]%string /\
  @credential_source ascii_only SampleStartup.urls SampleStartup.json (list string) 0 SampleStartup.hub EmptyString "ABCD" (Some "a_1"%string)
    SampleStartup.empty first.1 first.2 /\
  SampleStartup.start EmptyString first.2 = (Ok "wma_1"%string, first.2).
Proof.
  intros first. split; [vm_compute; reflexivity|]. split; [vm_compute; reflexivity|]. split; [|vm_compute; reflexivity].
  exact (proj1 (@agent_credentials_stay_home ascii_only SampleStartup.urls SampleStartup.json SampleStartup.enroll_json (list string)
    SampleStartup.post 0 SampleStartup.path "linux/amd64" "dev" SampleStartup.json_laws SampleStartup.hub EmptyString "ABCD" "box"
    (Some "a_1"%string) 7 SampleStartup.empty [] first.1 first.2 [] ltac:(vm_compute; reflexivity))).
Defined.
(** A slash at the end of the hub's address, which the checks of the
    configuration allow and the rest of the agent drops, stays in the address
    the enrollment is sent to. *)
Example enrollment_keeps_the_slash :
  let r := (@agentCredentials ascii_only SampleStartup.urls SampleStartup.json SampleStartup.enroll_json _ SampleStartup.post
    0 SampleStartup.path "linux/amd64" "dev" "https://hub/" EmptyString "ABCD" "box" (Some "a_1"%string) 7 SampleStartup.empty []).1 in
  CanonicalHubURL "https://hub/" = "https://hub"%string /\
  bo_net r.2 = ["https://hub//api/enroll"; "https://hub//api/enroll"]%string.
Proof. vm_compute. split; reflexivity. Qed.
