(* ===== verification/WindowsProofs.v ===== *)
(** * The protected files of the Windows build: proofs

    The check of a configuration's DACL accepts no list without protection, and
    of the protected lists of plain entries exactly those it should, among them
    the one the agent gives its own files; a queue checkpoint is
    never visible without that list; and a saved credential is whole, protected
    and read back as it was. *)

From S2P Require Export Windows StartupProofs.
Open Scope list_scope.
Open Scope Z_scope.

(** ** The text of an access control list *)

Definition no_paren (c : ascii) : bool := negb (Ascii.eqb c "("%char) && negb (Ascii.eqb c ")"%char).
Definition no_semicolon (c : ascii) : bool := negb (Ascii.eqb c ";"%char).
Fixpoint entries_text (l : list string) : string :=
  match l with [] => EmptyString | e :: l => "(" +:+ e +:+ ")" +:+ entries_text l end.
(** A protected list: flags, then entries. *)
Definition dacl_text (flags : string) (l : list string) : string := "D:P" +:+ flags +:+ entries_text l.

Lemma find_entries_plain o s t : string_forall no_paren s = true ->
  find_entries o (s +:+ t) = find_entries (option_map (fun e => e +:+ s) o) t.
Proof.
  revert o. induction s as [|c s IH]; intros o Hs.
  - rewrite append_empty. destruct o as [e|]; simpl; [by rewrite append_nil_r|done].
  - simpl in Hs. apply andb_true_iff in Hs as [Hc Hs]. unfold no_paren in Hc. apply andb_true_iff in Hc as [H1 H2].
    rewrite append_cons. simpl. rewrite (proj1 (negb_true_iff _) H1), (proj1 (negb_true_iff _) H2), IH by done.
    destruct o as [e|]; simpl; [by rewrite append_assoc|done].
Qed.
Lemma find_entries_text l : Forall (fun e => string_forall no_paren e = true) l -> find_entries None (entries_text l) = l.
Proof.
  induction 1 as [|e l He Hl IH]; [done|].
  change (find_entries (Some EmptyString) (e +:+ ")" +:+ entries_text l) = e :: l).
  rewrite find_entries_plain by done.
  change (e :: find_entries None (entries_text l) = e :: l). by rewrite IH.
Qed.
Lemma find_entries_dacl flags l :
  string_forall no_paren flags = true -> Forall (fun e => string_forall no_paren e = true) l ->
  find_entries None (dacl_text flags l) = l.
Proof.
  intros Hf Hl. unfold dacl_text. rewrite (find_entries_plain None "D:P") by done. simpl option_map.
  rewrite find_entries_plain by done. by apply find_entries_text.
Qed.

(** The check of any text: it says that the list is protected, and the
    entries that are found in it are some and all approved. *)
Lemma check_text sid t :
  check_sddl sid t = Ok tt <->
  Contains t "D:P" = true /\ find_entries None t <> [] /\ Forall (fun e => entry_approved sid e = true) (find_entries None t).
Proof.
  unfold check_sddl. destruct (Contains t "D:P"); cbn [negb]; [|by split; [|intros [? _]]].
  rewrite Forall_forall. destruct (find_entries None t) as [|e l]; [split; [by intros [=]|by intros (_ & ? & _)]|].
  destruct (forallb _ _) eqn:E.
  - split; [|done]. intros _. split; [done|]. split; [done|]. rewrite forallb_forall in E. intros x Hx. by apply E, list_elem_of_In.
  - split; [done|]. intros (_ & _ & HF). enough (forallb (entry_approved sid) (e :: l) = true) by congruence.
    apply forallb_forall. intros x Hx. by apply HF, list_elem_of_In.
Qed.
(** A text in which no parenthesis stands inside an entry. *)
Lemma check_entries sid header l :
  string_forall no_paren header = true -> Forall (fun e => string_forall no_paren e = true) l ->
  check_sddl sid (header +:+ entries_text l) = Ok tt <->
  Contains (header +:+ entries_text l) "D:P" = true /\ l <> [] /\ Forall (fun e => entry_approved sid e = true) l.
Proof. intros Hh Hl. rewrite check_text, find_entries_plain, find_entries_text by done. done. Qed.
Lemma check_dacl sid flags l :
  string_forall no_paren flags = true -> Forall (fun e => string_forall no_paren e = true) l ->
  check_sddl sid (dacl_text flags l) = Ok tt <-> l <> [] /\ Forall (fun e => entry_approved sid e = true) l.
Proof.
  intros Hf Hl. rewrite check_text, (find_entries_dacl _ _ Hf Hl).
  assert (Contains (dacl_text flags l) "D:P" = true) as -> by (unfold dacl_text; by destruct (flags +:+ entries_text l)).
  tauto.
Qed.
Lemma Split_whole s : string_forall no_semicolon s = true -> Split s ";"%char = [s].
Proof.
  induction s as [|c s IH]; [done|]. simpl. intros Hs. apply andb_true_iff in Hs as [Hc Hs].
  unfold no_semicolon in Hc. apply negb_true_iff in Hc. by rewrite Hc, IH.
Qed.
Lemma allow_entry sid trustee : string_forall no_semicolon trustee = true -> approved sid trustee = true ->
  entry_approved sid ("A;;FA;;;" +:+ trustee) = true.
Proof. intros Hs Ha. unfold entry_approved. simpl. rewrite append_empty, (Split_whole trustee) by done. simpl. exact Ha. Qed.

(** ** What is assumed of the Windows API *)

(** Data of less than 1 GiB that was protected for the machine is read back on
    it, and its protected size fits the field that gives it; a credential is
    encoded as a JSON object.  A list
    installed by [SetNamedSecurityInfo] reads back with the entries that were
    given, the user written by an alias or by its SID. *)
Class WindowsLaws `{WindowsAPI} `{WindowsGo} `{CredentialJSON} := {
  win_unprotect_protect : forall random p, slen p < 2 ^ 30 -> win_CryptUnprotectData (win_CryptProtectData random p) = Some p;
  win_protect_size : forall random p, slen p < 2 ^ 30 -> 0 < slen (win_CryptProtectData random p) < 2 ^ 32;
  win_unmarshal_marshal : forall c, cj_Unmarshal (win_Marshal c) = Some c;
  win_marshal_object : forall c, is_empty (win_Marshal c) = false;
  win_trustee : string -> string;
  win_trustee_plain : forall sid, string_forall no_paren (win_trustee sid) = true /\ string_forall no_semicolon (win_trustee sid) = true;
  win_reads_back : forall sid sd acl old,
    win_FromString (token_sddl sid) = Some sd -> win_DACL sd = Some acl ->
    exists flags, string_forall no_paren flags = true /\
      win_String (win_SetDACL acl old) = dacl_text flags ["A;;FA;;;SY"; "A;;FA;;;BA"; "A;;FA;;;" +:+ win_trustee sid]
}.

Section files.
Context `{WindowsLaws}.
Context (sid : string) (inherited inherited_dir : win_sd).

(** A descriptor with the list of [applyTokenDACL]. *)
Definition sealed (sd : win_sd) : Prop :=
  exists d acl old, win_FromString (token_sddl sid) = Some d /\ win_DACL d = Some acl /\ sd = win_SetDACL acl old.

Lemma sealed_is_trusted sd : sealed sd -> approved sid (win_trustee sid) = true -> check_sddl sid (win_String sd) = Ok tt.
Proof.
  intros (d & acl & old & Hd & Ha & ->) Htr. destruct (win_reads_back _ _ _ old Hd Ha) as (flags & Hf & ->).
  destruct (win_trustee_plain sid) as [Hp Hs]. apply check_dacl; [done| |].
  - repeat constructor. rewrite string_forall_app. by rewrite Hp.
  - split; [done|]. repeat constructor. by apply allow_entry.
Qed.

(** *** The steps *)

Lemma wp_look {S A} (f : S -> result error (A * S)) Q s :
  (forall x s', f s = Ok (x, s') -> s' = s) -> (forall r, Q r s) -> wp (statement f) Q s.
Proof. intros Hf HQ. intros fs. unfold statement. destruct (f s) as [[x s']|] eqn:E; [rewrite (Hf _ _ eq_refl)|]; destruct fs as [|[[]|] fs]; apply HQ. Qed.
Lemma wp_win_lstat_file (Q : result error bool -> win_fs -> Prop) s : (forall r, Q r s) -> wp win_lstat_file Q s.
Proof. apply wp_look. intros x s'. destruct (wf_file s); [|done]. by intros [= _ <-]. Qed.
Lemma wp_win_lstat_dir (Q : result error bool -> win_fs -> Prop) s : (forall r, Q r s) -> wp win_lstat_dir Q s.
Proof. apply wp_look. intros x s'. destruct (wf_dir s); [|done]. by intros [= _ <-]. Qed.
(** A refusal of links only looks. *)
Lemma wp_refuse (link : M win_fs bool) (Q : result error unit -> win_fs -> Prop) s :
  (forall (Q' : result error bool -> win_fs -> Prop) s, (forall r, Q' r s) -> wp link Q' s) ->
  (forall r, Q r s) -> wp (unless_missing (rejectSymlink link)) Q s.
Proof.
  intros Hl HQ. apply wp_unless_missing, wp_mbind, Hl.
  intros [[]|e]; [apply wp_fail|apply wp_ret|]; try apply HQ; destruct (Is _ _); apply HQ.
Qed.
Lemma wp_protectBytes random p (Q : result error string -> win_fs -> Prop) s :
  (forall e, Q (Err e) s) -> Q (Ok (win_CryptProtectData random (blob p))) s -> wp (protectBytes random p) Q s.
Proof.
  intros He Ho. unfold protectBytes. destruct (is_empty p); [by apply wp_fail|]. apply wp_wrap, wp_query; [intros e; apply He|done].
Qed.
(** The list is applied as a whole, or the object stays as it was. *)
Lemma wp_applyTokenDACL (set : (win_sd -> win_sd) -> win_fs -> result error win_fs) (Q : result error unit -> win_fs -> Prop) s :
  (forall e, Q (Err e) s) ->
  (forall d acl s', win_FromString (token_sddl sid) = Some d -> win_DACL d = Some acl ->
     set (win_SetDACL acl) s = Ok s' -> forall r, Q r s') ->
  wp (applyTokenDACL sid set) Q s.
Proof.
  intros He Ho. apply wp_mbind, wp_mbind, wp_nothing. intros [[]|e]; [|apply He].
  apply wp_query; [by intros e|]. destruct (win_FromString _) as [d|] eqn:Ed; [|by apply wp_fail].
  destruct (win_DACL d) as [acl|] eqn:Ea; [|by apply wp_fail].
  apply wp_statement; [by intros e|]. destruct (set (win_SetDACL acl) s) as [s1|] eqn:Es; [|by intros].
  intros [] s' [= <-]. by split; intros; apply (Ho _ _ _ eq_refl Ea Es).
Qed.

(** The new file. *)
Definition new_node (data : string) (sd : win_sd) : wnode := {| wn_content := data; wn_sd := sd; wn_symlink := false |}.
(** The file is the old one and there is an error, or it is the new one with
    a descriptor as [P] says. *)
Definition installed (data : string) (P : win_sd -> Prop) (s : win_fs) (r : result error unit) (s' : win_fs) : Prop :=
  wf_file s' = wf_file s /\ is_ok r = false \/ exists sd, P sd /\ wf_file s' = Some (new_node data sd).

Lemma installed_failed data P s e s' : wf_file s' = wf_file s -> installed data P s (Err e) s'.
Proof. by left. Qed.
Lemma installed_again data P s r s' r' s'' :
  is_ok r = false -> wf_file s'' = wf_file s' -> installed data P s r s' -> is_ok r' = false -> installed data P s r' s''.
Proof. intros Hr Hf [[E _]|(sd & HP & E)] Hr'; [left|right; exists sd]; by rewrite Hf. Qed.
Lemma wp_or_remove data P s0 (m : M win_fs unit) s :
  wp m (installed data P s0) s -> wp (or_remove (set_wtemp None) m) (installed data P s0) s.
Proof.
  intros Hm. apply wp_try. eapply wp_mono; [exact Hm|]. intros [[]|e] s' Hs'; [by apply wp_ret|].
  apply wp_try, wp_exec; intros; apply wp_fail; by apply (installed_again data P s0 (Err e) s').
Qed.
Lemma wp_create (Q : result error unit -> win_fs -> Prop) s :
  (forall e s', wf_file s' = wf_file s -> Q (Err e) s') ->
  (forall s', wf_file s' = wf_file s -> wf_temp s' = Some (new_node EmptyString inherited) -> Q (Ok tt) s') ->
  wp (statement (win_create_temp inherited)) Q s.
Proof.
  intros He Ho. apply wp_statement; [by intros e; apply He|]. unfold win_create_temp. destruct (wf_dir s); [|done].
  intros [] s' [= <-]. split; [by apply Ho|by intros e; apply He].
Qed.
Lemma wp_win_rename data P s0 sd (Q : result error unit -> win_fs -> Prop) s :
  wf_file s = wf_file s0 -> wf_temp s = Some (new_node data sd) -> P sd ->
  (forall r s', installed data P s0 r s' -> Q r s') -> wp (statement win_rename_temp) Q s.
Proof.
  intros Hf Ht HP HQ. apply wp_statement; [intros e; by apply HQ, installed_failed|].
  unfold win_rename_temp. rewrite Ht. intros [] s' [= <-]. by split; intros; apply HQ; right; exists sd.
Qed.
Lemma installed_wrap data P s0 msg r s' : installed data P s0 r s' ->
  match r with Ok a => installed data P s0 (Ok a) s' | Err e => installed data P s0 (Err (EWrap msg e)) s' end.
Proof. by destruct r. Qed.

Lemma wp_win_atomicWriteFile data s : wp (win_atomicWriteFile inherited data) (installed data (eq inherited) s) s.
Proof.
  apply wp_mbind, wp_refuse; [apply wp_win_lstat_file|]. intros [[]|e]; [|by apply installed_failed].
  apply wp_mbind, wp_refuse; [apply wp_win_lstat_dir|]. intros [[]|e]; [|by apply installed_failed].
  apply wp_mbind, wp_wrap, wp_create; [by intros; apply installed_failed|]. intros s1 Hf Ht. apply wp_mbind.
  eapply wp_mono; [apply wp_or_remove with (P := eq inherited) (s0 := s) (data := data)|].
  - apply wp_try, wp_nothing. intros _. apply wp_mbind, wp_wrap, wp_exec; [by intros e; apply installed_failed| |by intros e; apply installed_failed].
    simpl snd. rewrite Ht. apply wp_mbind, wp_wrap, wp_nothing. intros [[]|e]; [|by apply installed_failed].
    apply wp_mbind, wp_wrap, wp_nothing. intros [[]|e]; [|by apply installed_failed].
    apply wp_wrap. eapply (wp_win_rename data (eq inherited) s inherited); [done..|]. intros r s'. apply installed_wrap.
  - intros [[]|e] s2 Hs2; [|done]. apply wp_try, wp_nothing. intros r. apply wp_ret. destruct Hs2 as [[_ ?]|?]; [done|by right].
Qed.

(** A queue checkpoint carries its list before it carries its name. *)
Lemma wp_win_spoolReplace path name data s : wp (win_spoolReplace sid inherited path name data) (installed data sealed s) s.
Proof.
  apply wp_mbind, wp_refuse; [apply wp_win_lstat_file|]. intros [[]|e]; [|by apply installed_failed].
  apply wp_mbind, wp_create; [by intros; apply installed_failed|]. intros s1 Hf Ht. apply wp_or_remove.
  apply wp_mbind, wp_applyTokenDACL; [by intros e; apply installed_failed|].
  intros d acl s2 Hd Ha. unfold set_temp. rewrite Ht. intros [= <-] [[]|e]; [|by apply installed_failed].
  apply wp_mbind, wp_exec; [by intros e; apply installed_failed| |by intros e; apply installed_failed].
  apply wp_mbind, wp_nothing. intros [[]|e]; [|by apply installed_failed].
  apply wp_mbind, wp_nothing. intros [[]|e]; [|by apply installed_failed].
  assert (Hname : forall n (k : M win_fs unit) t, wf_file t = wf_file s -> wp k (installed data sealed s) t ->
    wp (mbind (utf16_name n) (fun _ => k)) (installed data sealed s) t).
  { intros n k t E Hk. apply wp_mbind. unfold utf16_name. destruct (string_exists _ n); [apply wp_fail; by apply installed_failed|by apply wp_ret]. }
  apply Hname; [done|]. apply Hname; [done|].
  eapply (wp_win_rename data sealed s (win_SetDACL acl inherited)); [done|done| |done]. by exists d, acl, inherited.
Qed.

(** A save ends with the old file, the new one as [CreateTemp] and the rename
    left it, or the new one with its list. *)
Definition saved_as (cipher : string) (s : win_fs) (r : result error unit) (s' : win_fs) : Prop :=
  installed cipher (fun sd => sealed sd \/ sd = inherited /\ is_ok r = false) s r s'.
Lemma wp_win_Save path random c s :
  wp (win_Save sid inherited inherited_dir path random c)
     (fun r s' => saved_as (win_CryptProtectData random (blob (win_Marshal c))) s r s' /\ (is_ok r = true -> win_valid_path path = true)) s.
Proof.
  set (cipher := win_CryptProtectData _ _).
  assert (Hsame : forall e s', wf_file s' = wf_file s -> saved_as cipher s (Err e) s' /\ (is_ok (Err (A := unit) e) = true -> win_valid_path path = true))
    by (intros; by split; [left|]).
  unfold win_Save. destruct (win_valid_path path) eqn:Ev; [|apply wp_fail; by apply Hsame]. simpl negb. cbv iota zeta.
  apply wp_mbind, wp_protectBytes; [by intros e; apply Hsame|]. fold cipher.
  apply wp_mbind, wp_refuse; [apply wp_win_lstat_dir|]. intros [[]|e]; [|by apply Hsame].
  apply wp_mbind, wp_wrap, wp_exec; [by intros e; apply Hsame| |by intros e; apply Hsame].
  apply wp_mbind, wp_wrap. eapply wp_mono; [apply wp_win_atomicWriteFile|].
  intros [[]|e] s1 [[Hf ?]|(sd & <- & Hf)]; try done; [|by apply Hsame|by split; [right; exists inherited; split; [right|]|]].
  apply wp_wrap, wp_applyTokenDACL.
  - intros e. split; [|done]. right. exists inherited. by split; [right|].
  - intros d acl s2 Hd Ha. unfold set_file. rewrite Hf. intros [= <-] r.
    assert (Hs : forall r' : result error unit, saved_as cipher s r' {| wf_file := Some (protect_node (win_SetDACL acl) (new_node cipher inherited)); wf_dir := wf_dir s1; wf_temp := wf_temp s1 |}).
    { intros r'. right. exists (win_SetDACL acl inherited). split; [left; by exists d, acl, inherited|done]. }
    destruct r; (split; [apply Hs|done]).
Qed.

(** What a load returns is in the file, protected. *)
Definition holds (s : win_fs) (c : StoredCredentials) : Prop :=
  exists n p, wf_file s = Some n /\ win_CryptUnprotectData (blob (wn_content n)) = Some p /\ cj_Unmarshal p = Some c.
Lemma wp_win_Load path s : wp (win_Load path) (fun r s' => s' = s /\ forall c, r = Ok c -> holds s c) s.
Proof.
  unfold win_Load. destruct (negb _); [by apply wp_fail|].
  apply wp_mbind, wp_refuse; [apply wp_win_lstat_file|]. intros [[]|e]; [|done]. apply wp_try.
  apply wp_statement; [intros e; destruct (Is _ _); by apply wp_fail|]. destruct (wf_file s) as [n|] eqn:Ef; [|done].
  intros cipher s' [= <- <-]. split; [|intros e; destruct (Is _ _); by apply wp_fail].
  apply wp_mbind, wp_wrap. unfold unprotectBytes. destruct (is_empty _); [by apply wp_fail|]. apply wp_wrap.
  apply wp_statement; [done|]. destruct (win_CryptUnprotectData _) as [p|] eqn:Ep; [|done].
  intros p' s' [= <- <-]. split; [|done]. destruct (cj_Unmarshal p) as [c|] eqn:Eu; [apply wp_ret|by apply wp_fail].
  split; [done|]. intros c' [= <-]. by exists n, p.
Qed.

Lemma blob_whole b : slen b < 2 ^ 32 -> blob b = b.
Proof. intros Hb. unfold blob, slen in *. rewrite Z.mod_small by lia. apply stake_all. lia. Qed.
(** A saved file is read back. *)
Lemma Load_saved path s random c sd :
  win_valid_path path = true -> slen (win_Marshal c) < 2 ^ 30 ->
  wf_file s = Some (new_node (win_CryptProtectData random (blob (win_Marshal c))) sd) ->
  win_Load path s [] = (Ok c, s, []).
Proof.
  intros Hv Hl Hf. rewrite blob_whole in Hf by lia.
  pose proof (win_protect_size random (win_Marshal c) Hl) as Hsz.
  assert (He : is_empty (win_CryptProtectData random (win_Marshal c)) = false).
  { destruct (win_CryptProtectData _ _); [simpl in Hsz; unfold slen in Hsz; simpl in Hsz; lia|done]. }
  unfold win_Load. rewrite Hv. simpl negb. cbv iota.
  unfold unless_missing, rejectSymlink, win_lstat_file, win_ReadFile, unprotectBytes, wrap, attempt, mbind, statement, ret.
  destruct s as [f d t]. simpl in Hf. subst f. cbn. rewrite He. cbn. rewrite blob_whole by lia. by rewrite win_unprotect_protect, win_unmarshal_marshal by done.
Qed.

(** ** The lock, and the trust in a configuration *)

Lemma wp_win_lockSpool (l : lock_file) :
  wp win_lockSpool (fun r l' => match r with
    | Ok _ => lf_locked l = false /\ lf_locked l' = true
    | Err _ => lf_locked l' = lf_locked l end) l.
Proof.
  apply wp_mbind, wp_unless_missing, wp_mbind, wp_look; [intros x l'; destruct (lf_file l); [by intros [= _ <-]|done]|].
  assert (Hrest : wp (let* _ := exec win_open_lock in
    let* taken := query lf_locked in
    if taken then fail (EMsg "The process cannot access the file because another process has locked a portion of the file.")
    else modify (fun s => {| lf_file := lf_file s; lf_locked := true |}))
    (fun r l' => match r with Ok _ => lf_locked l = false /\ lf_locked l' = true | Err _ => lf_locked l' = lf_locked l end) l).
  { apply wp_mbind, wp_exec; [done| |done]. apply wp_mbind, wp_query; [done|]. simpl.
    destruct (lf_locked l) eqn:E; [by apply wp_fail|by apply wp_modify]. }
  intros [[]|e]; [by apply wp_fail|by apply wp_ret|]. by destruct (Is _ _).
Qed.

(** A configuration is trusted when the file and its directory are no links
    and both lists pass. *)
Definition trusted (Lstat : string -> result error bool) (get : string -> result error win_sd) (user name : string) : Prop :=
  Lstat name = Ok false /\ exists sd, get name = Ok sd /\ check_sddl user (win_String sd) = Ok tt.
Lemma check_named_ok Lstat get user name : check_named Lstat get user name = Ok tt <-> trusted Lstat get user name.
Proof.
  unfold check_named, trusted. destruct (Lstat name) as [[]|e]; [by split; [|intros [? _]]| |by split; [|intros [? _]]].
  destruct (get name) as [sd|e]; [|by split; [|intros (_ & ? & ? & _)]].
  split; [intros Hc; split; [done|by exists sd]|]. by intros (_ & sd' & [= <-] & Hc).
Qed.
Lemma win_checkConfigPermissions_ok Lstat get who path :
  win_checkConfigPermissions Lstat get who path = Ok tt <->
  exists user, who = Ok user /\ trusted Lstat get user path /\ trusted Lstat get user (win_Dir path).
Proof.
  unfold win_checkConfigPermissions. destruct who as [user|e]; [|by split; [|intros (? & ? & _)]].
  destruct (check_named Lstat get user path) as [[]|e] eqn:E.
  - rewrite check_named_ok in E. rewrite check_named_ok. split; [intros Hd; by exists user|]. by intros (? & [= <-] & _ & Hd).
  - split; [done|]. intros (? & [= <-] & Hp & _). apply check_named_ok in Hp. congruence.
Qed.

(** C36. What the Windows build promises of its protected files, whatever
    system calls fail, before or after their effect.  A save of a credential
    ends with the old file or with the complete new one, protected for the
    machine; one that reports success has given it a list for the system, the
    administrators and this user only, and the credential is read back as it
    was saved; whatever a load returns was in the file.  A checkpoint of the
    queue is the old one or the new one, and the new one is never there without
    that list.  The lock of the queue is only taken when it is free.  A
    configuration is trusted exactly when neither it nor its directory is a
    link and the text of each list passes; a text passes exactly when it
    contains "D:P", entries are found in it, and every entry that is found
    allows something to the system, the administrators or the user of the
    process.  In a text whose entries have no parentheses inside, these are all
    its entries; an entry with a condition in parentheses is not among those
    that are found ([conditional_entries_are_missed]).  A file with the list of
    the agent passes whenever the system writes its user in one of these
    forms. *)
Theorem windows_files_are_private path name data random c (s : win_fs) l Lstat get who config :
  slen (win_Marshal c) < 2 ^ 30 ->
  wp (win_Save sid inherited inherited_dir path random c)
     (fun r s' => saved_as (win_CryptProtectData random (win_Marshal c)) s r s' /\
        (r = Ok tt -> (exists n, wf_file s' = Some n /\ sealed (wn_sd n)) /\ win_Load path s' [] = (Ok c, s', []) /\
                      wp (win_Load path) (fun r2 s2 => s2 = s' /\ forall c2, r2 = Ok c2 -> c2 = c) s')) s /\
  wp (win_Load path) (fun r s' => s' = s /\ forall c, r = Ok c -> holds s c) s /\
  wp (win_spoolReplace sid inherited path name data) (installed data sealed s) s /\
  wp win_lockSpool (fun r l' => if is_ok r then lf_locked l = false /\ lf_locked l' = true else lf_locked l' = lf_locked l) l /\
  (win_checkConfigPermissions Lstat get who config = Ok tt <->
     exists user, who = Ok user /\ trusted Lstat get user config /\ trusted Lstat get user (win_Dir config)) /\
  (forall text, check_sddl sid text = Ok tt <->
     Contains text "D:P" = true /\ find_entries None text <> [] /\
     Forall (fun e => entry_approved sid e = true) (find_entries None text)) /\
  (forall header entries, string_forall no_paren header = true -> Forall (fun e => string_forall no_paren e = true) entries ->
     check_sddl sid (header +:+ entries_text entries) = Ok tt <->
     Contains (header +:+ entries_text entries) "D:P" = true /\ entries <> [] /\ Forall (fun e => entry_approved sid e = true) entries) /\
  (forall flags entries, string_forall no_paren flags = true -> Forall (fun e => string_forall no_paren e = true) entries ->
     check_sddl sid (dacl_text flags entries) = Ok tt <-> entries <> [] /\ Forall (fun e => entry_approved sid e = true) entries) /\
  (forall sd, sealed sd -> approved sid (win_trustee sid) = true -> check_sddl sid (win_String sd) = Ok tt).
Proof.
  intros Hl. split_and!.
  - eapply wp_mono; [apply wp_win_Save|]. rewrite blob_whole by lia. intros r s' [Hs' Hv]. split; [done|]. intros ->.
    destruct Hs' as [[_ ?]|(sd & [Hsd|[_ ?]] & Hf)]; try done. specialize (Hv eq_refl).
    split; [by eexists|]. assert (Hload : win_Load path s' [] = (Ok c, s', [])).
    { apply (Load_saved path s' random c sd); [done..|]. by rewrite blob_whole by lia. }
    split; [done|]. eapply wp_mono; [apply wp_win_Load|]. intros r2 s2 [-> Hr2]. split; [done|]. intros c2 Hc2.
    pose proof (wp_win_Load path s' []) as Hw. rewrite Hload in Hw. destruct Hw as [_ Hw].
    destruct (Hr2 _ Hc2) as (n & p & E1 & E2 & E3), (Hw _ eq_refl) as (n' & p' & F1 & F2 & F3). congruence.
  - apply wp_win_Load.
  - apply wp_win_spoolReplace.
  - eapply wp_mono; [apply wp_win_lockSpool|]. by intros [].
  - apply win_checkConfigPermissions_ok.
  - apply check_text.
  - intros header entries. apply check_entries.
  - intros flags entries. apply check_dacl.
  - apply sealed_is_trusted.
Qed.
End files.

(** ** A machine *)

(** Descriptors are the texts of their lists; protecting puts a byte in
    front. *)
Module SampleWindows.
Definition me : string := "S-1-5-21-7".
#[export] Instance api : WindowsAPI :=
  {| win_sd := string; win_acl := string;
     win_CryptProtectData := fun _ p => String "#"%char p;
     win_CryptUnprotectData := fun c => match c with String "#"%char p => Some p | _ => None end;
     win_FromString := fun t => if String.eqb t (token_sddl me) then Some t else None;
     win_DACL := Some; win_String := fun sd => sd; win_SetDACL := fun acl _ => acl |}.
#[export] Instance json : CredentialJSON :=
  {| cj_MarshalIndent := fun c => String "{"%char (SampleStartup.bits (encode (SampleStartup.fields c)));
     cj_Unmarshal := fun s => match s with
                              | String _ s => SampleStartup.of_fields <$> decode (SampleStartup.unbits s)
                              | EmptyString => None
                              end |}.
#[export] Instance go : WindowsGo :=
  {| win_Marshal := cj_MarshalIndent; win_IsAbs := fun p => HasPrefix p "C:\"; win_Clean := fun p => p;
     win_Dir := fun _ => "C:\ProgramData\wmonitor"; win_Join := fold_right String.append EmptyString |}.
#[export] Instance laws : WindowsLaws.
Proof.
  refine {| win_trustee := fun _ => me |}.
  - done.
  - intros n p Hp. unfold slen in *. simpl win_CryptProtectData. simpl String.length. lia.
  - intros c. simpl. rewrite SampleStartup.unbits_bits, decode_encode. by destruct c.
  - done.
  - done.
  - intros sid sd acl old. cbn [win_FromString api win_DACL win_String win_SetDACL]. destruct (String.eqb (token_sddl sid) (token_sddl me)) eqn:E; [|intros [=]].
    apply String.eqb_eq in E. rewrite E. intros [= <-] [= <-]. exists EmptyString. done.
Defined.
(** What a file in the data directory inherits: users may read it. *)
Definition inherited : string := "D:AI(A;ID;FA;;;SY)(A;ID;FA;;;BA)(A;ID;0x1200a9;;;BU)".
Definition path : string := "C:\".
Definition old : win_fs := {| wf_file := None; wf_dir := Some {| wd_sd := inherited; wd_symlink := false |}; wf_temp := None |}.
Definition denied : faults := replicate 14 None ++ [Some (Fail_ {| err_msg := "Access is denied."; err_code := EmptyString |})].
Definition stat (name : string) : result error bool := Ok false.
Definition security (name : string) : result error string := Ok (token_sddl me).
End SampleWindows.
#[local] Existing Instances SampleWindows.api SampleWindows.json SampleWindows.go SampleWindows.laws.

Lemma windows_files_are_private_witness :
  let r := win_Save SampleWindows.me SampleWindows.inherited SampleWindows.inherited SampleWindows.path 0 SampleStartup.creds SampleWindows.old [] in
  r.1.1 = Ok tt /\ win_Load SampleWindows.path r.1.2 [] = (Ok SampleStartup.creds, r.1.2, []) /\
  win_checkConfigPermissions SampleWindows.stat SampleWindows.security (Ok SampleWindows.me) SampleWindows.path = Ok tt.
Proof.
  intros r. assert (Hr : r.1.1 = Ok tt) by (vm_compute; reflexivity).
  assert (Hl : slen (win_Marshal SampleStartup.creds) < 2 ^ 30) by (apply Z.ltb_lt; vm_compute; reflexivity).
  destruct (@windows_files_are_private SampleWindows.api SampleWindows.go SampleWindows.json SampleWindows.laws SampleWindows.me SampleWindows.inherited SampleWindows.inherited SampleWindows.path "tmp" "data" 0
    SampleStartup.creds SampleWindows.old {| lf_file := None; lf_locked := false |} SampleWindows.stat SampleWindows.security
    (Ok SampleWindows.me) SampleWindows.path Hl) as (Hsave & _ & _ & _ & Htrust & _).
  split; [exact Hr|]. specialize (Hsave []). fold r in Hsave. clearbody r. destruct r as [[x s'] fs']. simpl in Hr. subst x.
  split; [exact (proj1 (proj2 (proj2 Hsave eq_refl)))|]. apply Htrust. exists SampleWindows.me. split; [reflexivity|].
  split; (split; [reflexivity|]; eexists; split; [reflexivity|]; vm_compute; reflexivity).
Defined.

(** A save whose list cannot be set reports an error, and leaves the new
    credential under the name of the file with the list it inherited, which
    the check of configurations refuses; a checkpoint is never in that
    state. *)
Example failed_save_stays_readable :
  let r := win_Save SampleWindows.me SampleWindows.inherited SampleWindows.inherited SampleWindows.path 0 SampleStartup.creds
             SampleWindows.old SampleWindows.denied in
  is_ok r.1.1 = false /\ (exists n, wf_file r.1.2 = Some n /\ wn_sd n = SampleWindows.inherited /\
    is_ok (check_sddl SampleWindows.me (win_String (wn_sd n))) = false) /\
  win_Load SampleWindows.path r.1.2 [] = (Ok SampleStartup.creds, r.1.2, []).
Proof. vm_compute. split; [reflexivity|]. split; [|reflexivity]. eexists. split; [reflexivity|]. by split. Qed.

(** An entry with a condition hides behind a text in it: of the parentheses
    only the innermost are looked at, and the entry that allows everybody is
    not. *)
Example conditional_entries_are_missed :
  let quote := String (ascii_of_N 34) EmptyString in
  check_sddl SampleWindows.me
    ("D:P(A;;FA;;;SY)(XA;;FA;;;WD;(@USER.Title != " +:+ quote +:+ "(A;;FA;;;SY)" +:+ quote +:+ "))") = Ok tt.
Proof. reflexivity. Qed.
