(* ===== verification/Enrolling.v ===== *)
(** * From an enrollment code to a credential at both ends

    The client of [Startup] enrolls at the handler of [Admin] over a network
    that loses requests and answers, while other requests, uploads and changes
    of the credential table go on at the hub. *)

From S2P Require Export AdminProofs EndToEnd StartupProofs.
Open Scope list_scope.
Open Scope Z_scope.

(** ** The network *)

(** One request of the client: what happens at the hub before it, the
    connection, the hub's clock and random bytes, and whether the request and
    its answer arrive. *)
Record enroll_beat := {
  eb_before : list site_op;
  eb_conn : request;
  eb_now : Z;
  eb_rand : option string;
  eb_arrives : bool;
  eb_answered : bool
}.
Record enroll_net := { el_site : site; el_script : list enroll_beat }.
Definition el_with_site (s : site) (w : enroll_net) : enroll_net := {| el_site := s; el_script := el_script w |}.
Definition el_with_script (l : list enroll_beat) (w : enroll_net) : enroll_net := {| el_site := el_site w; el_script := l |}.
Definition on_hub_site {A : Type} : M site A -> M enroll_net A := zoom el_site el_with_site.

(** The client's [POST]: no credential, no cookie, no origin. *)
Definition enroll_request (conn : request) : request :=
  {| hr_Method := "POST"; hr_TLS := hr_TLS conn; hr_ForwardedProto := hr_ForwardedProto conn;
     hr_RemoteAddr := hr_RemoteAddr conn; hr_Host := hr_Host conn; hr_Origin := EmptyString;
     hr_QueryKey := EmptyString; hr_XAPIKey := EmptyString; hr_Cookie := None |}.

Section network.
Context `{Unicode} `{Net} `{OriginParser} `{Dialect} `{HubJSON} `{AdminJSON}.
(** [origin] is the hub's own address. *)
Context (trusted_proxies : string) (sha256hex : string -> string) (origin : string) (insecure : bool).
(** The bodies of the answers of the enrollment endpoint. *)
Context (enroll_text : enrollResponse -> string) (error_text : string -> string).

(** The endpoint, through the middleware. *)
Definition enroll_endpoint (r : request) (body : string) (rand : option string) (now : Z) : M site (hub_reply enrollResponse) :=
  Handler r "/api/enroll" (refuse 404 "page not found") (handleEnroll trusted_proxies sha256hex insecure r body rand now) now.
Definition enroll_answer (rp : hub_reply enrollResponse) : Z * string :=
  match hr_Result rp with
  | Ok a => (201, enroll_text a)
  | Err (Reply status message) => (status, error_text message)
  end.
(** No other address leads to the endpoint. *)
Definition enroll_post (url body : string) : M enroll_net (option (Z * string)) :=
  inspect (fun w =>
    match el_script w with
    | [] => ret None
    | b :: rest =>
        let* _ := modify (el_with_script rest) in
        let* _ := on_hub_site (do_site_ops trusted_proxies sha256hex (eb_before b)) in
        if negb (eb_arrives b) then ret None
        else if negb (String.eqb url (origin +:+ "/api/enroll")) then ret (Some (404, error_text "page not found"))
        else
          let* rp := attempt (on_hub_site (enroll_endpoint (enroll_request (eb_conn b)) body (eb_rand b) (eb_now b))) in
          match rp with
          | Ok rp => ret (if eb_answered b then Some (enroll_answer rp) else None)
          | Err _ => ret None
          end
    end).
End network.

(** ** The uses of a code *)

Definition uses_of (code : string) (d : auth_db) : Z :=
  match find_key code (t_keys d) with Some k => k_uses k | None => 0 end.
(** An open handshake that a request of this code and server finds. *)
Definition recoverable (code server : string) (now : Z) (d : auth_db) : Prop := is_some (find_handshake code server now d) = true.
#[export] Instance recoverable_dec code server now d : Decision (recoverable code server now d).
Proof. unfold recoverable. apply _. Defined.
(** What one request may do to the table: nothing, or one use and a handshake
    that stays open for five minutes. *)
Definition one_issue (code server : string) (now : Z) (d d' : auth_db) : Prop :=
  ~ recoverable code server now d /\ uses_of code d' = uses_of code d + 1 /\
  forall t, t < now + 300 -> recoverable code server t d'.
Definition one_use (code server : string) (now : Z) (d d' : auth_db) : Prop := d' = d \/ one_issue code server now d d'.

Section store.
Context `{Dialect}.

Lemma find_key_map hash (f : key_row -> key_row) ks :
  (forall k, k_key_hash (f k) = k_key_hash k) -> find_key hash (map f ks) = f <$> find_key hash ks.
Proof.
  intros Hf. unfold find_key. induction ks as [|k ks IH]; [done|]. simpl. rewrite Hf. by destruct (String.eqb _ _).
Qed.
Lemma find_key_app hash ks ks' k : find_key hash ks = Some k -> find_key hash (ks ++ ks') = Some k.
Proof. unfold find_key. induction ks as [|x ks IH]; [done|]. simpl. by destruct (String.eqb _ _). Qed.
Lemma recoverable_same code server now d d' :
  t_handshakes d' = t_handshakes d -> is_some (find_key code (t_keys d')) = is_some (find_key code (t_keys d)) ->
  recoverable code server now d -> recoverable code server now d'.
Proof.
  unfold recoverable, find_handshake. intros -> Hk. destruct (List.find _ _); simpl; [|done].
  destruct (find_key code (t_keys d)), (find_key code (t_keys d')); done.
Qed.

(** Revoking an agent leaves codes and handshakes alone. *)
Lemma RevokeAgent_uses tenant server now code d :
  wp (RevokeAgent tenant server now) (fun _ d' => uses_of code d' = uses_of code d /\
    forall srv t, recoverable code srv t d -> recoverable code srv t d') d.
Proof.
  set (upd := update_keys (active_at tenant server) (set_revoked (Unix now)) d).
  assert (Hk : find_key code (t_keys upd.2) = (fun k => if active_at tenant server k then set_revoked (Unix now) k else k) <$> find_key code (t_keys d)).
  { apply find_key_map. intros k. by case_match. }
  assert (Hupd : forall d', t_keys d' = t_keys upd.2 -> t_handshakes d' = t_handshakes d -> uses_of code d' = uses_of code d /\
    forall srv t, recoverable code srv t d -> recoverable code srv t d').
  { intros d' E1 E2. split.
    - unfold uses_of. rewrite E1, Hk. destruct (find_key code (t_keys d)) as [k|]; [|done]. simpl. by case_match.
    - intros srv t. apply recoverable_same; [done|]. rewrite E1, Hk. by destruct (find_key code (t_keys d)). }
  unfold RevokeAgent, revoke_where. apply wp_mbind, wp_exec; fold upd; [done| |intros e; by apply Hupd].
  apply wp_mbind. destruct (0 <? upd.1); simpl whenM; [|by apply wp_ret, wp_ret, Hupd].
  apply wp_exec; [intros e; by apply Hupd|by apply wp_ret, Hupd|intros e; by apply Hupd].
Qed.

Lemma issues_one_use req now d res d' : hashes_unique (t_keys d) -> issues req now d res d' ->
  uses_of (rq_CodeHash req) d' = uses_of (rq_CodeHash req) d + 1 /\
  forall t, t < now + 300 -> recoverable (rq_CodeHash req) (rq_ServerID req) t d'.
Proof.
  intros Hu (rec & Hrec & Hlen & _ & Hkeys & _ & Hhs & _)%issues_spec.
  destruct (usable_rec _ _ _ _ Hu Hrec Hlen) as [Hus _]. destruct (find_code_Some _ _ _ Hrec) as (Hin & Hh & _).
  assert (Hf : find_key (rq_CodeHash req) (t_keys d) = Some rec) by by apply find_key_elem.
  assert (Hf' : find_key (rq_CodeHash req) (t_keys d') = Some (use_code rec)).
  { rewrite Hkeys. apply find_key_app. rewrite find_key_map, Hf.
    - simpl. unfold issue_row. by rewrite (usable_not_active _ _ _ _ _ Hus), Hus.
    - intros k. unfold issue_row. by repeat case_match. }
  split; [unfold uses_of; by rewrite Hf, Hf'|]. intros t Ht. unfold recoverable, find_handshake. rewrite Hhs.
  pose proof (put_handshake_find (issued_handshake req rec now) d) as Hp.
  apply (find_weaken _ (fun h => String.eqb (h_code_hash h) (rq_CodeHash req) &&
    String.eqb (h_server_id h) (rq_ServerID req) && (t <? h_expires_at h))) in Hp.
  - rewrite Hp. simpl. by rewrite Hf'.
  - simpl. rewrite !String.eqb_refl. apply Z.ltb_lt. simpl. assert (HandshakeTTL / second = 300) as -> by done. lia.
  - intros h Hx. simpl in Hx. bools. simpl. by rewrite !andb_true_iff, !String.eqb_eq.
Qed.

(** With an open handshake the table stays as it is. *)
Lemma recovered_only req now d fs r d' fs' :
  recoverable (rq_CodeHash req) (rq_ServerID req) (Unix now) d -> CompleteEnrollment req now d fs = (r, d', fs') ->
  d' = d /\ forall res, r = Ok res -> rs_Recovered res = true.
Proof.
  intros Hrec. unfold CompleteEnrollment. destruct (_ || _); [unfold fail; by intros; simplify_eq|].
  destruct (is_empty (rq_Token req) || _); [unfold fail; by intros; simplify_eq|].
  intros [[-> [e ->]]|(res & fs1 & fs2 & Hb & Hr)]%transaction_inv; [done|].
  unfold enroll_tx in Hb. apply mbind_ok in Hb as ([] & d0 & fs0 & [_ ->]%query_ok & Hb).
  apply mbind_ok in Hb as (hs & d0 & fs3 & Hq & Hb). apply attempt_inv in Hq as (hs' & [= ->] & Hq).
  unfold recoverable in Hrec. destruct hs' as [[h client]|err].
  - apply query_row_ok in Hq as [_ ->]. unfold ret in Hb. injection Hb as <- <- _. split; [done|]. intros res' ->.
    destruct Hr as [Hr|[e Hr]]; [by injection Hr as ->|done].
  - exfalso. unfold query_row, statement in Hq. destruct (find_handshake _ _ _ d) as [x|]; [|done].
    destruct fs0 as [|[[]|] fs0]; simplify_eq; simpl in Hb; discriminate Hb.
Qed.
Lemma CompleteEnrollment_one_use req now d fs r d' fs' :
  hashes_unique (t_keys d) -> CompleteEnrollment req now d fs = (r, d', fs') ->
  one_use (rq_CodeHash req) (rq_ServerID req) (Unix now) d d' /\
  (forall res, r = Ok res -> if rs_Recovered res then d' = d else one_issue (rq_CodeHash req) (rq_ServerID req) (Unix now) d d').
Proof.
  intros Hu Hc. destruct (decide (recoverable (rq_CodeHash req) (rq_ServerID req) (Unix now) d)) as [Hrec|Hrec].
  { destruct (recovered_only _ _ _ _ _ _ _ Hrec Hc) as [-> Hr]. split; [by left|]. intros res Hres. by rewrite (Hr res Hres). }
  apply CompleteEnrollment_inv in Hc as [[-> Hr]|[(-> & h & client & _ & Hr)|(_ & _ & res & Hi & Hr)]].
  - split; [by left|]. by intros res ->.
  - split; [by left|]. intros res Hres. destruct (Hr res Hres) as (-> & _). done.
  - assert (Ho : one_issue (rq_CodeHash req) (rq_ServerID req) (Unix now) d d') by (split; [done|by eapply issues_one_use]).
    split; [by right|]. intros res' ->. destruct Hr as [Hr|?]; [|done]. injection Hr as ->.
    by destruct Hi as (rec & d3 & _ & _ & _ & _ & _ & ->).
Qed.
Lemma preserves_forgotten {S A} (P : S -> Prop) (m : M S A) : preserves P (forget m) -> preserves P m.
Proof. intros Hm s fs Hs. specialize (Hm s fs Hs). unfold forget, mbind, run_state in *. by destruct (m s fs) as [[[a|e] d] fs']. Qed.
Lemma wp_CompleteEnrollment_use req now d : auth_ok d ->
  wp (CompleteEnrollment req now) (fun r d' => auth_ok d' /\
    one_use (rq_CodeHash req) (rq_ServerID req) (Unix now) d d' /\
    (forall res, r = Ok res -> if rs_Recovered res then d' = d else one_issue (rq_CodeHash req) (rq_ServerID req) (Unix now) d d')) d.
Proof.
  intros Hd fs. pose proof (preserves_forgotten _ _ (do_op_ok (OpEnroll req now)) d fs Hd) as Hd'. unfold run_state in Hd'.
  destruct (CompleteEnrollment req now d fs) as [[r d'] fs'] eqn:Ec. split; [exact Hd'|].
  exact (CompleteEnrollment_one_use _ _ _ _ _ _ _ (proj1 Hd) Ec).
Qed.
Lemma wp_RevokeAgent_uses tenant server now code d : auth_ok d ->
  wp (RevokeAgent tenant server now) (fun _ d' => auth_ok d' /\ uses_of code d' = uses_of code d /\
    forall srv t, recoverable code srv t d -> recoverable code srv t d') d.
Proof.
  intros Hd. apply wp_conjoin; [|apply RevokeAgent_uses]. apply wp_preserved; [|done].
  exact (preserves_forgotten _ _ (do_op_ok (OpRevokeAgent tenant server now))).
Qed.
End store.

(** ** The handler *)

Section hub_side.
Context `{Unicode} `{Net} `{OriginParser} `{Dialect} `{HubJSON} `{AdminJSON}.
Context (trusted_proxies : string) (sha256hex : string -> string) (insecure : bool).

(** A refusal never looks like a success. *)
Definition refused_plainly {A} (res : result error (hub_reply A)) : Prop :=
  forall rp status message, res = Ok rp -> hr_Result rp = Err (Reply status message) -> status <> 201.
Definition used {A} (code server : string) (now : Z) (d : auth_db) (res : result error (hub_reply A)) (s' : site) : Prop :=
  (auth_ok (w_auth (st_world s')) /\ one_use code server now d (w_auth (st_world s'))) /\ refused_plainly res.
Lemma used_refused {A} code server now d after status message s' :
  auth_ok (w_auth (st_world s')) -> one_use code server now d (w_auth (st_world s')) -> status <> 201 ->
  wp (A := hub_reply A) (ret (Build_hub_reply after (Err (Reply status message)))) (used code server now d) s'.
Proof. intros Hd Hu Hs. apply wp_ret. split; [done|]. by intros rp st m [= <-] [= <- <-]. Qed.
Lemma used_error {A} code server now d e s' :
  auth_ok (w_auth (st_world s')) -> one_use code server now d (w_auth (st_world s')) -> used (A := A) code server now d (Err e) s'.
Proof. intros Hd Hu. split; [done|]. by intros rp st m. Qed.
Lemma refusal_statuses err : (enroll_refusal err).1 <> 201.
Proof. unfold enroll_refusal. by repeat case_match. Qed.

(** After the store has answered: the audit record may fail, and a new token
    is then taken back; codes and handshakes are left alone. *)
Lemma wp_enroll_result server res now code srv now0 d s :
  auth_ok (w_auth (st_world s)) ->
  (if rs_Recovered res then w_auth (st_world s) = d else one_issue code srv now0 d (w_auth (st_world s))) ->
  wp (enroll_result sha256hex server res now) (used code srv now0 d) s.
Proof.
  intros Hd Hu. unfold enroll_result.
  assert (Huse : one_use code srv now0 d (w_auth (st_world s))) by (destruct (rs_Recovered res); [by left|by right]).
  apply wp_mbind. eapply wp_mono; [apply (worldly_books any_touch now), worldly_on_world, invalidateHashes_steps|].
  intros [[]|e] s1 [Ha1 _]; [|apply used_error; by rewrite Ha1].
  apply wp_mbind. eapply wp_mono; [by apply wp_append_audit|]. intros ? s2 (a & -> & Ha2 & _).
  assert (Hs2 : w_auth (st_world s2) = w_auth (st_world s)) by congruence.
  destruct a as [[]|e].
  { apply wp_ret. split; [by rewrite Hs2|]. by intros rp st m [= <-]. }
  apply wp_mbind. destruct (rs_Recovered res) eqn:Er.
  { apply wp_ret, used_refused; [..|done]; by rewrite Hs2. }
  apply wp_try, wp_on_store. rewrite Hs2. eapply wp_mono; [by apply (wp_RevokeAgent_uses _ _ _ code)|].
  intros r d' (Hd' & Hsame & Hopen). destruct Hu as (Hn & Hu1 & Hu2).
  assert (Ho : one_use code srv now0 d d').
  { right. split; [done|]. split; [by rewrite Hsame|]. intros t Ht. by apply Hopen, Hu2. }
  destruct r as [n|e']; [|by apply wp_ret, used_refused].
  eapply wp_mono; [apply (worldly_books any_touch now), worldly_on_world, invalidateHashes_steps|].
  intros [[]|e'] s3 [Ha3 _]; [apply used_refused|apply used_error]; by rewrite ?Ha3.
Qed.
Lemma wp_handleEnroll r body req rand now s :
  auth_ok (w_auth (st_world s)) -> aj_enroll body = Some req ->
  wp (handleEnroll trusted_proxies sha256hex insecure r body rand now)
    (used (HashEnrollCode sha256hex (TrimSpace (er_EnrollCode req))) (TrimSpace (er_ServerID req)) (Unix now) (w_auth (st_world s))) s.
Proof.
  intros Hd Hreq. unfold handleEnroll. rewrite Hreq.
  destruct (negb _); [by apply used_refused; [|left|]|]. destruct (negb insecure && _); [by apply used_refused; [|left|]|].
  apply wp_mbind. eapply wp_mono; [apply (worldly_books any_touch now), worldly_limited|].
  intros [ok|e] s1 [Ha1 _]; [|apply used_error; [by rewrite Ha1|by left]]. rewrite <- Ha1 in Hd |- *.
  destruct (negb ok); [by apply used_refused; [|left|]|].
  destruct (_ || _); [by apply used_refused; [|left|]|]. destruct (negb (serverIDRegex _)); [by apply used_refused; [|left|]|].
  apply wp_inspect. destruct (negb (hb_hasKeys _)); [by apply used_refused; [|left|]|].
  destruct rand as [rand|]; [|by apply used_refused; [|left|]].
  apply wp_try, wp_on_store. eapply wp_mono; [by apply wp_CompleteEnrollment_use|].
  intros [res|err] d' (Hd' & Hone & Hres).
  - apply wp_enroll_result; [exact Hd'|]. specialize (Hres res eq_refl). by destruct (rs_Recovered res).
  - pose proof (refusal_statuses err) as Hst. destruct (enroll_refusal err) as [status message]. by apply used_refused.
Qed.
End hub_side.

(** ** The way there and back *)

Section way.
Context `{Unicode} `{Net} `{OriginParser} `{Dialect} `{HubJSON} `{AdminJSON}.
Context (trusted_proxies : string) (sha256hex : string -> string) (origin : string) (insecure : bool).
Context (enroll_text : enrollResponse -> string) (error_text : string -> string).

(** The code the client sends, its server, and a time at which it starts. *)
Context (code server : string) (start : Z).

(** Traffic that leaves the uses of the code and its open handshakes alone. *)
Definition leaves_code (o : site_op) : Prop :=
  match o with
  | SoEvent (EvChange o) => forall d fs, let d' := run_state (do_op o) d fs in
      uses_of code d' = uses_of code d /\ forall t, recoverable code server t d -> recoverable code server t d'
  | _ => True
  end.
(** Once the code has been used its handshake is open for the whole time. *)
Definition used_once (before : Z) (d : auth_db) : Prop :=
  auth_ok d /\ (uses_of code d = before \/
                uses_of code d = before + 1 /\ forall t, t < start + 300 -> recoverable code server t d).

Lemma used_once_step before now d d' :
  start <= now < start + 300 -> auth_ok d' -> one_use code server now d d' -> used_once before d -> used_once before d'.
Proof.
  intros Hnow Hok Hone [_ Hu]. split; [exact Hok|]. destruct Hone as [->|(Hn & Hone & Hopen)]; [done|].
  destruct Hu as [Hu|[_ Hu]]; [|destruct Hn; apply Hu; lia].
  right. split; [lia|]. intros t Ht. apply Hopen. lia.
Qed.

(** A property of the credential table that each change of it keeps. *)
Definition traffic_keeps (P : auth_db -> Prop) (o : site_op) : Prop :=
  match o with SoEvent (EvChange o) => preserves P (do_op o) | _ => True end.
Lemma wp_one_operation (P : auth_db -> Prop) o s :
  traffic_keeps P o -> P (w_auth (st_world s)) ->
  wp (do_site trusted_proxies sha256hex o) (fun _ s' => P (w_auth (st_world s'))) s.
Proof.
  intros Ho Hs. assert (Hw : forall K now (m : M site unit), worldly K now m -> wp m (fun _ s' => P (w_auth (st_world s'))) s).
  { intros K now m Hm. eapply wp_mono; [by apply (worldly_books K now)|]. by intros ? ? [-> _]. }
  destruct o as [r legacy type body now|[r scope now|o|hashes now]|now]; simpl do_site;
    [eapply (Hw _ now)|apply (Hw any_touch now)| |apply (Hw any_touch now)|apply (Hw any_touch now)].
  - apply worldly_mbind; [apply receiveBatch_worldly|intros; apply worldly_ret].
  - apply worldly_on_world, stepwise_mbind; [by apply authPrincipal_steps|intros; apply stepwise_ret].
  - by apply wp_zoom, wp_on_keys, wp_preserved.
  - apply worldly_on_world, invalidateHashes_steps.
  - apply worldly_on_ingest.
Qed.
Lemma wp_traffic (P : auth_db -> Prop) os s :
  Forall (traffic_keeps P) os -> P (w_auth (st_world s)) ->
  wp (do_site_ops trusted_proxies sha256hex os) (fun _ s' => P (w_auth (st_world s'))) s.
Proof.
  intros Hos. revert s. induction Hos as [|o os Ho _ IH]; intros s Hs; simpl; [by apply wp_ret|].
  apply wp_try. eapply wp_mono; [by apply wp_one_operation|]. intros r s' Hs'. by apply IH.
Qed.
Lemma traffic_keeps_ok o : traffic_keeps auth_ok o.
Proof. destruct o as [|[]|]; try done. apply do_op_ok. Qed.
Lemma traffic_leaves before o : leaves_code o -> traffic_keeps (used_once before) o.
Proof.
  destruct o as [|[|o|]|]; try done. intros Ho d fs [Hd Hu]. simpl in Ho. destruct (Ho d fs) as [Hsame Hopen].
  split; [by apply do_op_ok|]. rewrite Hsame. destruct Hu as [Hu|[Hu Ht]]; [by left|right]. auto.
Qed.

(** *** One request *)

(** A property of the table that whatever happens in a beat keeps. *)
Record kept_by_beats (P : auth_db -> Prop) (B : enroll_beat -> Prop) : Prop := {
  kb_ok : forall d, P d -> auth_ok d;
  kb_time : forall b, B b -> 0 < Unix (eb_now b);
  kb_before : forall b, B b -> Forall (traffic_keeps P) (eb_before b);
  kb_use : forall b d d', B b -> auth_ok d' -> one_use code server (Unix (eb_now b)) d d' -> P d -> P d'
}.
Definition clocked (b : enroll_beat) : Prop := 0 < Unix (eb_now b).
Definition within (b : enroll_beat) : Prop :=
  clocked b /\ start <= Unix (eb_now b) < start + 300 /\ Forall leaves_code (eb_before b).
Lemma beats_keep_ok : kept_by_beats auth_ok clocked.
Proof. split; try done. intros b _. apply Forall_true, traffic_keeps_ok. Qed.
Lemma beats_use_once before : kept_by_beats (used_once before) within.
Proof.
  split; [by intros d []|by intros b []|intros b (_ & _ & Hb)|intros b d d' (_ & Hb & _)].
  - eapply Forall_impl; [exact Hb|]. apply traffic_leaves.
  - by apply used_once_step.
Qed.

(** The hub has handled one of the client's requests, and this is its answer. *)
Definition granted (body : string) (a : enrollResponse) (s' : site) : Prop :=
  exists conn now s, enrolled trusted_proxies sha256hex insecure (enroll_request conn) body now s a s'.
Definition endpoint_ok (body : string) (P : auth_db -> Prop) (res : result error (hub_reply enrollResponse)) (s' : site) : Prop :=
  P (w_auth (st_world s')) /\ refused_plainly res /\ carries (granted body) res s'.

Context (body : string) (req : enrollRequest).
Context (body_read : aj_enroll body = Some req)
        (code_sent : HashEnrollCode sha256hex (TrimSpace (er_EnrollCode req)) = code) (server_sent : TrimSpace (er_ServerID req) = server).

Lemma wp_enroll_endpoint P B b s :
  kept_by_beats P B -> B b -> P (w_auth (st_world s)) ->
  wp (enroll_endpoint trusted_proxies sha256hex insecure (enroll_request (eb_conn b)) body (eb_rand b) (eb_now b)) (endpoint_ok body P) s.
Proof.
  intros [K1 K2 K3 K4] Hb Hs. unfold enroll_endpoint, Handler. cbn [String.eqb]. apply wp_mbind.
  eapply wp_mono; [apply (worldly_books any_touch (eb_now b)), worldly_limited|]. intros [ok|e] s1 [Ha1 _].
  2: { split; [by rewrite Ha1|]. split; [by intros rp st m|by apply carries_error]. }
  destruct (negb ok).
  { apply wp_ret. split; [by rewrite Ha1|]. split; [by intros rp st m [= <-] [= <- _]|]. by intros rp a [= <-]. }
  cbn [String.eqb orb whenM]. apply wp_mbind, wp_ret. rewrite <- Ha1 in Hs.
  eapply wp_mono; [apply wp_conjoin; [apply wp_handleEnroll|apply wp_enroll]; eauto|].
  intros res s' [[[Hok Hone] Hplain] Hcarries]. rewrite code_sent, server_sent in Hone.
  split; [by eapply K4|]. split; [done|]. intros rp a -> Ha. do 3 eexists. by eapply Hcarries.
Qed.
Lemma wp_enroll_post P B url w :
  kept_by_beats P B -> Forall B (el_script w) -> P (w_auth (st_world (el_site w))) ->
  wp (enroll_post trusted_proxies sha256hex origin insecure enroll_text error_text url body)
    (fun res w' => (Forall B (el_script w') /\ P (w_auth (st_world (el_site w')))) /\
       forall text, res = Ok (Some (201, text)) -> exists a, text = enroll_text a /\ granted body a (el_site w')) w.
Proof.
  intros HK Hscript Hs. unfold enroll_post. apply wp_inspect. destruct (el_script w) as [|b rest] eqn:Es.
  { apply wp_ret. rewrite Es. by split. }
  apply Forall_cons in Hscript as [Hb Hrest]. apply wp_mbind, wp_modify, wp_mbind, wp_zoom. simpl el_site.
  eapply wp_mono; [apply wp_traffic; [by apply HK|exact Hs]|]. intros [[]|e] s1 Hs1; [|by split].
  destruct (negb (eb_arrives b)); [by apply wp_ret|]. destruct (negb _); [by apply wp_ret|].
  apply wp_try, wp_zoom. eapply wp_mono; [by eapply wp_enroll_endpoint|].
  intros [rp|e] s2 (Hs2 & Hplain & Hcarries); [|by apply wp_ret]. apply wp_ret. split; [done|].
  intros text Htext. destruct (eb_answered b); [|done]. injection Htext as Htext. unfold enroll_answer in Htext.
  destruct (hr_Result rp) as [a|[status message]] eqn:Er.
  - injection Htext as <-. exists a. split; [done|]. by eapply Hcarries.
  - injection Htext as Hst _. by destruct (Hplain rp status message eq_refl Er).
Qed.
(** Revoking an agent is such traffic. *)
Lemma revocation_leaves_code tenant agent now : leaves_code (SoEvent (EvChange (OpRevokeAgent tenant agent now))).
Proof.
  intros d fs. pose proof (RevokeAgent_uses tenant agent now code d fs) as Hr.
  change (do_op (OpRevokeAgent tenant agent now)) with (forget (RevokeAgent tenant agent now)).
  unfold run_state, forget, mbind, ret. destruct (RevokeAgent tenant agent now d fs) as [[[n|e] d'] fs']; simpl in *; destruct Hr; auto.
Qed.
End way.

(** ** The client *)

Section client.
Context `{Unicode} `{Net} `{OriginParser} `{Dialect} `{HubJSON} `{AdminJSON} `{URLParser} `{CredentialJSON} `{EnrollJSON}.
Context (trusted_proxies : string) (sha256hex : string -> string) (origin : string) (insecure : bool).
Context (enroll_text : enrollResponse -> string) (error_text : string -> string).
Context (euid : Z) (tokenPath platform version : string).
(** The client reads the answers as the hub wrote them. *)
Context (answer_read : forall a, ej_Decode (enroll_text a) =
  Some {| ep_Token := en_Token a; ep_TenantID := en_TenantID a; ep_ServerID := en_ServerID a; ep_Error := EmptyString |}).

#[local] Notation hub_post := (enroll_post trusted_proxies sha256hex origin insecure enroll_text error_text).

Lemma wp_granted_attempts (I : enroll_net -> Prop) (R : string -> enroll_net -> Prop) url body more : forall b,
  (forall w, I w -> wp (hub_post url body) (fun res w' => I w' /\ forall text, res = Ok (Some (201, text)) -> R text w') w) ->
  I (bo_net b) ->
  wp (enroll_attempts hub_post more url body)
    (fun res b' => I (bo_net b') /\ forall text, res = Ok (201, text) -> R text (bo_net b')) b.
Proof.
  induction more as [|more IH]; intros b Hpost Hb; cbn [enroll_attempts]; apply wp_try, wp_zoom;
    (eapply wp_mono; [by apply Hpost|]); intros [[resp|]|e] w' [Hw' Hr];
    try (by apply wp_fail); try (by apply IH); apply wp_ret; (split; [done|]); intros text [= ->]; by apply Hr.
Qed.

(** The credential the client is left with, when it was given one. *)
Definition enrolled_with (body hubURL : string) (now : Z) (r : result error StoredCredentials) (b' : boot enroll_net) : Prop :=
  forall c, r = Ok c -> exists a,
    granted trusted_proxies sha256hex insecure body a (el_site (bo_net b')) /\
    c = {| sc_Token := en_Token a; sc_TenantID := en_TenantID a; sc_ServerID := en_ServerID a; sc_HubURL := hubURL; sc_EnrolledAt := now |} /\
    cf_file (bo_creds b') = Some (saved euid c).
Definition request_body (enrollCode serverID hostname current : string) : string :=
  ej_Marshal {| eq_EnrollCode := enrollCode; eq_ServerID := serverID; eq_Hostname := hostname; eq_OS := platform;
                eq_Version := version; eq_CurrentToken := current |}.

Lemma wp_granted_Enroll (P : auth_db -> Prop) (B : enroll_beat -> Prop) code server hubURL enrollCode serverID hostname current now req b :
  aj_enroll (request_body enrollCode serverID hostname current) = Some req ->
  HashEnrollCode sha256hex (TrimSpace (er_EnrollCode req)) = code -> TrimSpace (er_ServerID req) = server ->
  kept_by_beats code server P B -> Forall B (el_script (bo_net b)) -> P (w_auth (st_world (el_site (bo_net b)))) ->
  wp (Enroll hub_post euid tokenPath platform version hubURL enrollCode serverID hostname current now)
    (fun r b' => (Forall B (el_script (bo_net b')) /\ P (w_auth (st_world (el_site (bo_net b'))))) /\
       enrolled_with (request_body enrollCode serverID hostname current) hubURL now r b') b.
Proof.
  intros Hread Hcode Hserver HK Hscript Hb. unfold Enroll. destruct (RequireHTTPSHub hubURL); [apply wp_fail; by split|]. cbv zeta.
  fold (request_body enrollCode serverID hostname current). apply wp_mbind.
  eapply wp_mono; [apply (wp_granted_attempts (fun w => Forall B (el_script w) /\ P (w_auth (st_world (el_site w))))
    (fun text w => exists a, text = enroll_text a /\ granted trusted_proxies sha256hex insecure (request_body enrollCode serverID hostname current) a (el_site w)));
    [|done]; intros w [Hw1 Hw2]; by eapply wp_enroll_post|].
  intros [[status text]|e] b1 [Hb1 Hr]; [|by split]. destruct (Z.eqb_spec status 201) as [->|]; [|apply wp_fail; by split].
  destruct (Hr text eq_refl) as (a & -> & Ha). simpl negb. cbv iota. rewrite answer_read. cbn [ep_Token ep_TenantID ep_ServerID].
  set (c := Build_StoredCredentials _ _ _ _ _). apply wp_try, wp_on_files. eapply wp_mono; [apply wp_Save|].
  intros [[]|e] cs Hsaved; [apply wp_ret|apply wp_fail; by split]. split; [done|]. intros c' [= <-]. exists a.
  split; [done|]. split; [done|]. by destruct Hsaved as [|[_ ?]].
Qed.

(** The service manager starts the agent again until it is enrolled. *)
Fixpoint enroll_until (hubURL enrollCode serverID hostname current : string) (starts : list Z) : M (boot enroll_net) StoredCredentials :=
  match starts with
  | [] => fail errEnrollRequest
  | now :: starts =>
      let* r := attempt (Enroll hub_post euid tokenPath platform version hubURL enrollCode serverID hostname current now) in
      match r with
      | Ok c => ret c
      | Err _ => enroll_until hubURL enrollCode serverID hostname current starts
      end
  end.

Section runs.
Context (hubURL enrollCode serverID hostname current : string) (req : enrollRequest).
Context (request_read : aj_enroll (request_body enrollCode serverID hostname current) = Some req).
Let code := HashEnrollCode sha256hex (TrimSpace (er_EnrollCode req)).
Let server := TrimSpace (er_ServerID req).

Lemma wp_enroll_until (P : auth_db -> Prop) (B : enroll_beat -> Prop) starts : forall b,
  kept_by_beats code server P B -> Forall B (el_script (bo_net b)) -> P (w_auth (st_world (el_site (bo_net b)))) ->
  wp (enroll_until hubURL enrollCode serverID hostname current starts)
    (fun r b' => P (w_auth (st_world (el_site (bo_net b')))) /\
       forall c, r = Ok c -> exists now, now ∈ starts /\ enrolled_with (request_body enrollCode serverID hostname current) hubURL now r b') b.
Proof.
  induction starts as [|now starts IH]; intros b HK Hscript Hb; simpl; [apply wp_fail; by split|].
  apply wp_try. eapply wp_mono; [by eapply wp_granted_Enroll|]. intros [c|e] b' [[Hs Hb'] He].
  - apply wp_ret. split; [done|]. intros c' _. exists now. split; [constructor|exact He].
  - eapply wp_mono; [by apply IH|]. intros r b2 [Hb2 Hr]. split; [done|]. intros c Hc.
    destruct (Hr c Hc) as (now' & ? & ?). exists now'. split; [by constructor|done].
Qed.

(** C12. An enrollment reaches both ends or can be repeated.  Whatever requests
    and answers the network loses, whatever else goes on at the hub, whatever
    fails and however often the agent is started again: when the client ends
    with a credential, the hub has handled one of its requests - encrypted,
    with a usable code or an open handshake, on the audit trail -, the
    credential has the token, tenant and server of that answer, and it is in
    the agent's file.  And all the attempts within five minutes together
    consume at most one use of the code, as long as nothing else changes it. *)
Theorem enrollment_reaches_both_ends starts b fs r b' fs' :
  auth_ok (w_auth (st_world (el_site (bo_net b)))) -> Forall clocked (el_script (bo_net b)) ->
  enroll_until hubURL enrollCode serverID hostname current starts b fs = (r, b', fs') ->
  (forall c, r = Ok c -> exists now, now ∈ starts /\
     enrolled_with (request_body enrollCode serverID hostname current) hubURL now r b') /\
  (forall start, Forall (within code server start) (el_script (bo_net b)) ->
     uses_of code (w_auth (st_world (el_site (bo_net b)))) <= uses_of code (w_auth (st_world (el_site (bo_net b')))) <=
     uses_of code (w_auth (st_world (el_site (bo_net b)))) + 1).
Proof.
  intros Hok Hclocked Hrun. split.
  - exact (proj2 (wp_run _ _ _ _ _ _ _ (wp_enroll_until _ _ starts b (beats_keep_ok code server) Hclocked Hok) Hrun)).
  - intros start Hwithin. set (before := uses_of code (w_auth (st_world (el_site (bo_net b))))).
    assert (Hb : used_once code server start before (w_auth (st_world (el_site (bo_net b))))) by (split; [done|by left]).
    destruct (proj1 (wp_run _ _ _ _ _ _ _ (wp_enroll_until _ _ starts b (beats_use_once code server start before) Hwithin Hb) Hrun)) as [_ Hu].
    lia.
Qed.
End runs.
End client.

(** ** Concrete inputs *)

Module SampleEnrolling.
Definition code_row : APIKeyRecord :=
  {| rec_ID := 0; rec_TenantID := "t_acme"; rec_ClientName := "Acme"; rec_KeyHash := HashEnrollCode Sample.sha "ABCD";
     rec_KeyPrefix := PrefixEnroll; rec_Kind := KindEnroll; rec_Scope := ScopeEnroll;
     rec_ExpiresAt := 5000 * second; rec_MaxUses := 2; rec_Uses := 0; rec_ServerID := empty_str;
     rec_IssuedBy := "ops"; rec_CreatedAt := 100 * second; rec_LastSeenAt := 0; rec_Revoked := false |}.
Definition hub_start : site :=
  with_world {| w_hub := New true true 0; w_auth := @run_auth sqlite [(OpUpsert code_row (100 * second), [])] empty_auth; w_audit := empty_audit |}
    SampleHub.start.
Definition write_request (q : enrollReq) : string :=
  SampleStartup.bits (encode (eq_EnrollCode q, eq_ServerID q, eq_Hostname q, eq_OS q, eq_Version q, eq_CurrentToken q)).
Definition read_request (s : string) : option enrollRequest :=
  (fun f : string * string * string * string * string * string =>
     let '(c, sv, h, o, v, t) := f in
     {| er_EnrollCode := c; er_ServerID := sv; er_Hostname := h; er_OS := o; er_Version := v; er_CurrentToken := t |})
  <$> decode (SampleStartup.unbits s).
Definition write_answer (a : enrollResponse) : string := SampleStartup.bits (encode (en_Token a, en_TenantID a, en_ServerID a)).
Definition read_answer (s : string) : option enrollResp :=
  (fun f : string * string * string => let '(t, n, i) := f in
     {| ep_Token := t; ep_TenantID := n; ep_ServerID := i; ep_Error := empty_str |}) <$> decode (SampleStartup.unbits s).
Definition admin_json : AdminJSON := {| aj_enroll := read_request; aj_code _ := None; aj_client _ := None; aj_rotate _ := None |}.
Definition agent_json : EnrollJSON := {| ej_Marshal := write_request; ej_Decode := read_answer |}.
Lemma answers_read a : @ej_Decode agent_json (write_answer a) =
  Some {| ep_Token := en_Token a; ep_TenantID := en_TenantID a; ep_ServerID := en_ServerID a; ep_Error := empty_str |}.
Proof. simpl. unfold read_answer, write_answer. by rewrite SampleStartup.unbits_bits, decode_encode. Qed.
(** The first answer is lost; another agent is revoked before the second
    request. *)
Definition script : list enroll_beat :=
  [{| eb_before := []; eb_conn := SampleHub.post; eb_now := 200 * second; eb_rand := Some "one"%string; eb_arrives := true; eb_answered := false |};
   {| eb_before := [SoEvent (EvChange (OpRevokeAgent "t_acme" "a_2" (205 * second)))]; eb_conn := SampleHub.post; eb_now := 210 * second;
      eb_rand := Some "two"%string; eb_arrives := true; eb_answered := true |}].
Definition start : boot enroll_net :=
  Build_boot {| cf_file := None; cf_dir := Some false; cf_temp := None |} {| el_site := hub_start; el_script := script |}.
Definition run : M (boot enroll_net) StoredCredentials :=
  @enroll_until Sample.unicode Sample.net Sample.origins sqlite SampleHub.json admin_json SampleStartup.urls SampleStartup.json agent_json
    empty_str Sample.sha SampleStartup.hub false write_answer (fun m => m) 0 SampleStartup.path "linux/amd64" "dev"
    SampleStartup.hub "ABCD" "a_1" "box" empty_str [200 * second].
End SampleEnrolling.

Lemma enrollment_reaches_both_ends_witness :
  let r := SampleEnrolling.run SampleEnrolling.start [] in
  let uses (b : boot enroll_net) := uses_of "#ABCD" (w_auth (st_world (el_site (bo_net b)))) in
  (exists c, r.1.1 = Ok c /\ sc_Token c = "wma_one"%string /\ cf_file (bo_creds r.1.2) = Some (@saved SampleStartup.json 0 c)) /\
  uses SampleEnrolling.start <= uses r.1.2 <= uses SampleEnrolling.start + 1.
Proof.
  intros r uses.
  destruct (@enrollment_reaches_both_ends Sample.unicode Sample.net Sample.origins sqlite SampleHub.json SampleEnrolling.admin_json
    SampleStartup.urls SampleStartup.json SampleEnrolling.agent_json empty_str Sample.sha SampleStartup.hub false
    SampleEnrolling.write_answer (fun m => m) 0 SampleStartup.path "linux/amd64" "dev" SampleEnrolling.answers_read
    SampleStartup.hub "ABCD" "a_1" "box" empty_str
    {| er_EnrollCode := "ABCD"; er_ServerID := "a_1"; er_Hostname := "box"; er_OS := "linux/amd64"; er_Version := "dev"; er_CurrentToken := empty_str |}
    ltac:(vm_compute; reflexivity) [200 * second] SampleEnrolling.start [] r.1.1 r.1.2 r.2) as [Hends Huses].
  - apply run_auth_ok.
  - repeat constructor.
  - exact (eq_trans (surjective_pairing r) (f_equal (fun x => (x, r.2)) (surjective_pairing r.1))).
  - split.
    + destruct r.1.1 as [c|] eqn:Er; [|vm_compute in Er; discriminate Er].
      destruct (Hends c eq_refl) as (now & _ & Hc). destruct (Hc c eq_refl) as (a & _ & _ & Hf). exists c. split; [reflexivity|].
      split; [vm_compute in Er; injection Er as <-; reflexivity|exact Hf].
    + apply (Huses 200). apply Forall_cons; split; [|apply Forall_cons; split; [|apply Forall_nil; exact I]];
        (split; [reflexivity|split; [vm_compute; split; [discriminate|reflexivity]|]]); simpl eb_before.
      * apply Forall_nil; exact I.
      * apply Forall_cons; split; [apply revocation_leaves_code|apply Forall_nil; exact I].
Defined.
