(* ===== verification/Schema.v ===== *)
(** * Creating and upgrading the tables ([storage/db.go], [storage/postgres.go],
      [storage/apikeys.go], [storage/enrollment.go], [storage/enrollment_pg.go],
      [storage/ingest.go])

    A database as its tables with their columns, uniqueness constraints, rows
    and indexes; the data definition statements of both backends with their
    meaning; and the start-up migrations that run them, any statement of which
    may fail.  The tables the other files work on are views of these. *)

From S2P Require Export Enrollment.
Open Scope list_scope.
Open Scope Z_scope.

(** ** Tables *)

(** The defaults of the schema are texts, integers and the real 0. *)
Inductive value := VNull | VInt (n : Z) | VReal0 | VText (s : string).
#[export] Instance value_eq_dec : EqDecision value.
Proof. solve_decision. Defined.
Record column := { co_name : string; co_type : string; co_not_null : bool; co_default : option value }.
Notation row := (gmap string value).
(** The condition of a partial index, a conjunction. *)
Inductive test := Equals (column : string) (v : value) | Differs (column : string) (v : value).
#[export] Instance test_eq_dec : EqDecision test.
Proof. solve_decision. Defined.
Record uniqueness := { uq_columns : list string; uq_where : list test }.
Record table := { tb_columns : list column; tb_unique : list uniqueness; tb_rows : list row }.
Record index := { ix_table : string; ix_columns : list string; ix_unique : option (list test) }.
Record database := { db_tables : gmap string table; db_indexes : gmap string index }.
Definition empty_database : database := {| db_tables := ∅; db_indexes := ∅ |}.

Definition column_names (t : table) : list string := map co_name (tb_columns t).
(** [''] and [0] are not [NULL]; a comparison with [NULL] is not true. *)
Definition field (r : row) (c : string) : value := default VNull (r !! c).
Definition passes (r : row) (t : test) : bool :=
  match t with
  | Equals c v => bool_decide (field r c = v)
  | Differs c v => negb (bool_decide (field r c = VNull)) && negb (bool_decide (field r c = v))
  end.
Definition index_key (u : uniqueness) (r : row) : list value := map (field r) (uq_columns u).
(** The rows a constraint compares: those of the partial index without a
    [NULL] in the key. *)
Definition compared (u : uniqueness) (r : row) : bool :=
  forallb (passes r) (uq_where u) && negb (existsb (fun v => bool_decide (v = VNull)) (index_key u r)).
Definition satisfied (u : uniqueness) (rows : list row) : bool :=
  bool_decide (NoDup (map (index_key u) (List.filter (compared u) rows))).

(** ** Statements *)

(** The last one is [INSERT OR IGNORE], or [INSERT ... ON CONFLICT (columns) DO
    NOTHING]. *)
Inductive ddl :=
| CreateTable (name : string) (columns : list column) (unique : list uniqueness) (* IF NOT EXISTS *)
| AddColumn (if_not_exists : bool) (table : string) (c : column)
| CreateIndex (name : string) (x : index) (* IF NOT EXISTS *)
| InsertMissing (table : string) (r : row) (conflict : option (list string)).

Definition put_table (name : string) (t : table) (d : database) : database :=
  {| db_tables := <[name := t]> (db_tables d); db_indexes := db_indexes d |}.
Definition put_index (name : string) (x : index) (d : database) : database :=
  {| db_tables := db_tables d; db_indexes := <[name := x]> (db_indexes d) |}.
Definition default_of (c : column) : value := default VNull (co_default c).
Definition add_column (c : column) (t : table) : table :=
  {| tb_columns := tb_columns t ++ [c]; tb_unique := tb_unique t; tb_rows := map <[co_name c := default_of c]> (tb_rows t) |}.
Definition add_row (r : row) (t : table) : table :=
  {| tb_columns := tb_columns t; tb_unique := tb_unique t; tb_rows := tb_rows t ++ [r] |}.
(** The constraints on a table, its own and those of its indexes. *)
Definition index_constraint (name : string) (x : index) : option uniqueness :=
  if String.eqb (ix_table x) name then (fun w => {| uq_columns := ix_columns x; uq_where := w |}) <$> ix_unique x else None.
Definition constraints (d : database) (name : string) (t : table) : list uniqueness :=
  tb_unique t ++ omap (fun kx => index_constraint name kx.2) (map_to_list (db_indexes d)).
Definition full_row (t : table) (r : row) : row :=
  fold_right (fun c acc => <[co_name c := default (default_of c) (r !! co_name c)]> acc) ∅ (tb_columns t).
Definition null_free (t : table) (r : row) : bool :=
  forallb (fun c => negb (co_not_null c) || negb (bool_decide (field r (co_name c) = VNull))) (tb_columns t).
Definition acceptable (d : database) (name : string) (t : table) (r : row) : bool :=
  null_free t r && forallb (fun u => satisfied u (tb_rows t ++ [r])) (constraints d name t).

Definition errNoTable (name : string) : error := EDb {| err_msg := "no such table: " +:+ name; err_code := EmptyString |}.
Definition errNoColumn (name : string) : error := EDb {| err_msg := "no such column: " +:+ name; err_code := EmptyString |}.
Definition errDuplicateColumn (name : string) : error :=
  EDb {| err_msg := "duplicate column name: " +:+ name; err_code := EmptyString |}.
Definition errNotNull (name : string) : error :=
  EDb {| err_msg := "cannot add a NOT NULL column with default value NULL: " +:+ name; err_code := EmptyString |}.
Definition test_column (t : test) : string := match t with Equals c _ | Differs c _ => c end.
Definition index_mentions (x : index) : list string :=
  ix_columns x ++ match ix_unique x with Some w => map test_column w | None => [] end.
Definition missing_column (t : table) (l : list string) : option string :=
  List.find (fun c => negb (bool_decide (c ∈ column_names t))) l.

Section execution.
Context `{Dialect}.

Definition exec_ddl (s : ddl) (d : database) : result error (unit * database) :=
  match s with
  | CreateTable name columns unique =>
      Ok (tt, match db_tables d !! name with
              | Some _ => d
              | None => put_table name {| tb_columns := columns; tb_unique := unique; tb_rows := [] |} d
              end)
  | AddColumn if_not_exists name c =>
      match db_tables d !! name with
      | None => Err (errNoTable name)
      | Some t =>
          if bool_decide (co_name c ∈ column_names t)
          then if if_not_exists then Ok (tt, d) else Err (errDuplicateColumn (co_name c))
          else if co_not_null c && bool_decide (default_of c = VNull) then Err (errNotNull (co_name c))
          else Ok (tt, put_table name (add_column c t) d)
      end
  | CreateIndex name x =>
      match db_indexes d !! name, db_tables d !! ix_table x with
      | Some _, _ => Ok (tt, d)
      | None, None => Err (errNoTable (ix_table x))
      | None, Some t =>
          match missing_column t (index_mentions x) with
          | Some c => Err (errNoColumn c)
          | None =>
              match ix_unique x with
              | Some w => if satisfied {| uq_columns := ix_columns x; uq_where := w |} (tb_rows t)
                          then Ok (tt, put_index name x d)
                          else Err (EDb unique_violation)
              | None => Ok (tt, put_index name x d)
              end
          end
      end
  | InsertMissing name r conflict =>
      match db_tables d !! name with
      | None => Err (errNoTable name)
      | Some t =>
          match missing_column t (map fst (map_to_list r)) with
          | Some c => Err (errNoColumn c)
          | None =>
              let r := full_row t r in
              if acceptable d name t r then Ok (tt, put_table name (add_row r t) d)
              else match conflict with
              | None => Ok (tt, d)
              | Some columns =>
                  if null_free t r && negb (satisfied {| uq_columns := columns; uq_where := [] |} (tb_rows t ++ [r]))
                  then Ok (tt, d) else Err (EDb unique_violation)
              end
          end
      end
  end.
Fixpoint exec_all (l : list ddl) (d : database) : result error (unit * database) :=
  match l with
  | [] => Ok (tt, d)
  | s :: l => match exec_ddl s d with Ok (_, d') => exec_all l d' | Err e => Err e end
  end.

Definition execute (s : ddl) : M database unit := statement (exec_ddl s).
Fixpoint execute_each (l : list ddl) : M database unit :=
  match l with
  | [] => ret tt
  | s :: l => let* _ := execute s in execute_each l
  end.
(** One [Exec] of several statements: Postgres runs them as one transaction,
    SQLite one by one. *)
Definition execute_script (atomic : bool) (l : list ddl) : M database unit :=
  if atomic then statement (exec_all l) else execute_each l.
Fixpoint execute_ignoring (l : list ddl) : M database unit :=
  match l with
  | [] => ret tt
  | s :: l => let* _ := attempt (execute s) in execute_ignoring l
  end.
Definition labelled_as (msg : string) (m : M database unit) : M database unit :=
  let* r := attempt m in
  match r with Ok _ => ret tt | Err e => fail (EWrap msg e) end.
End execution.

(** ** The schema *)

Definition col (name type : string) (not_null : bool) (d : option value) : column :=
  {| co_name := name; co_type := type; co_not_null := not_null; co_default := d |}.
Definition empty_text : option value := Some (VText EmptyString).
Definition zero_int : option value := Some (VInt 0).
Definition zero_real : option value := Some VReal0.
Definition key_on (columns : list string) : uniqueness := {| uq_columns := columns; uq_where := [] |}.
Definition plain_index (name table : string) (columns : list string) : ddl :=
  CreateIndex name {| ix_table := table; ix_columns := columns; ix_unique := None |}.

(** *** SQLite, [db.go] *)

Definition sqlite_tables : list ddl :=
  [CreateTable "metrics"
     [col "id" "INTEGER" true None; col "timestamp" "INTEGER" true None; col "tenant_id" "TEXT" false empty_text;
      col "server_id" "TEXT" false empty_text; col "hostname" "TEXT" false empty_text; col "cpu_pct" "REAL" true None;
      col "mem_pct" "REAL" true None; col "disk_free_gb" "REAL" true None; col "net_sent_bytes" "INTEGER" true None;
      col "net_recv_bytes" "INTEGER" true None; col "cpu_cores" "INTEGER" false zero_int; col "mem_total_gb" "REAL" false zero_real;
      col "disk_total_gb" "REAL" false zero_real; col "disk_read_ops" "INTEGER" false zero_int;
      col "disk_write_ops" "INTEGER" false zero_int; col "disk_iops" "REAL" false zero_real; col "net_mbps" "REAL" false zero_real;
      col "concurrent_users" "INTEGER" false zero_int; col "net_sent_external" "INTEGER" false zero_int;
      col "net_recv_external" "INTEGER" false zero_int; col "net_sent_internal" "INTEGER" false zero_int;
      col "net_recv_internal" "INTEGER" false zero_int] [key_on ["id"]];
   CreateTable "processes"
     [col "id" "INTEGER" true None; col "timestamp" "INTEGER" true None; col "tenant_id" "TEXT" false empty_text;
      col "server_id" "TEXT" false empty_text; col "hostname" "TEXT" false empty_text; col "pid" "INTEGER" true None;
      col "name" "TEXT" true None; col "cpu_pct" "REAL" true None; col "mem_mb" "REAL" true None] [key_on ["id"]];
   CreateTable "audit_events"
     [col "id" "INTEGER" true None; col "ts" "INTEGER" true None; col "tenant_id" "TEXT" true None; col "actor_kind" "TEXT" true None;
      col "actor_prefix" "TEXT" true None; col "action" "TEXT" true None; col "target_type" "TEXT" true empty_text;
      col "target_id" "TEXT" true empty_text] [key_on ["id"]]].
Definition sqlite_alters : list ddl :=
  [AddColumn false "metrics" (col "tenant_id" "TEXT" false empty_text);
   AddColumn false "metrics" (col "cpu_cores" "INTEGER" false zero_int);
   AddColumn false "metrics" (col "mem_total_gb" "REAL" false zero_real);
   AddColumn false "metrics" (col "disk_total_gb" "REAL" false zero_real);
   AddColumn false "metrics" (col "disk_read_ops" "INTEGER" false zero_int);
   AddColumn false "metrics" (col "disk_write_ops" "INTEGER" false zero_int);
   AddColumn false "metrics" (col "disk_iops" "REAL" false zero_real);
   AddColumn false "metrics" (col "net_mbps" "REAL" false zero_real);
   AddColumn false "metrics" (col "concurrent_users" "INTEGER" false zero_int);
   AddColumn false "metrics" (col "server_id" "TEXT" false empty_text);
   AddColumn false "metrics" (col "hostname" "TEXT" false empty_text);
   AddColumn false "metrics" (col "net_sent_external" "INTEGER" false zero_int);
   AddColumn false "metrics" (col "net_recv_external" "INTEGER" false zero_int);
   AddColumn false "metrics" (col "net_sent_internal" "INTEGER" false zero_int);
   AddColumn false "metrics" (col "net_recv_internal" "INTEGER" false zero_int);
   AddColumn false "processes" (col "tenant_id" "TEXT" false empty_text);
   AddColumn false "processes" (col "server_id" "TEXT" false empty_text);
   AddColumn false "processes" (col "hostname" "TEXT" false empty_text)].
(** The same for both backends. *)
Definition row_indexes : list ddl :=
  [plain_index "idx_metrics_ts" "metrics" ["timestamp"];
   plain_index "idx_metrics_server" "metrics" ["server_id"];
   plain_index "idx_metrics_tenant" "metrics" ["tenant_id"];
   plain_index "idx_processes_ts" "processes" ["timestamp"];
   plain_index "idx_audit_tenant_ts" "audit_events" ["tenant_id"; "ts"]].

(** *** Postgres, [postgres.go] *)

Definition postgres_tables : list ddl :=
  [CreateTable "metrics"
     [col "id" "SERIAL" true None; col "timestamp" "BIGINT" true None; col "tenant_id" "TEXT" true empty_text;
      col "server_id" "TEXT" true empty_text; col "hostname" "TEXT" true empty_text; col "cpu_pct" "DOUBLE PRECISION" true None;
      col "mem_pct" "DOUBLE PRECISION" true None; col "disk_free_gb" "DOUBLE PRECISION" true None;
      col "net_sent_bytes" "BIGINT" true zero_int; col "net_recv_bytes" "BIGINT" true zero_int; col "cpu_cores" "INT" true zero_int;
      col "mem_total_gb" "DOUBLE PRECISION" true zero_int; col "disk_total_gb" "DOUBLE PRECISION" true zero_int;
      col "disk_read_ops" "BIGINT" true zero_int; col "disk_write_ops" "BIGINT" true zero_int;
      col "disk_iops" "DOUBLE PRECISION" true zero_int; col "net_mbps" "DOUBLE PRECISION" true zero_int;
      col "concurrent_users" "INT" true zero_int; col "net_sent_external" "BIGINT" true zero_int;
      col "net_recv_external" "BIGINT" true zero_int; col "net_sent_internal" "BIGINT" true zero_int;
      col "net_recv_internal" "BIGINT" true zero_int] [key_on ["id"]];
   CreateTable "processes"
     [col "id" "SERIAL" true None; col "timestamp" "BIGINT" true None; col "tenant_id" "TEXT" true empty_text;
      col "server_id" "TEXT" true empty_text; col "hostname" "TEXT" true empty_text; col "pid" "INT" true None;
      col "name" "TEXT" true None; col "cpu_pct" "DOUBLE PRECISION" true None; col "mem_mb" "DOUBLE PRECISION" true None] [key_on ["id"]];
   CreateTable "audit_events"
     [col "id" "BIGSERIAL" true None; col "ts" "BIGINT" true None; col "tenant_id" "TEXT" true None; col "actor_kind" "TEXT" true None;
      col "actor_prefix" "TEXT" true None; col "action" "TEXT" true None; col "target_type" "TEXT" true empty_text;
      col "target_id" "TEXT" true empty_text] [key_on ["id"]]].
Definition postgres_alters : list ddl :=
  [AddColumn true "metrics" (col "tenant_id" "TEXT" true empty_text);
   AddColumn true "metrics" (col "server_id" "TEXT" true empty_text);
   AddColumn true "metrics" (col "hostname" "TEXT" true empty_text);
   AddColumn true "metrics" (col "cpu_cores" "INT" true zero_int);
   AddColumn true "metrics" (col "mem_total_gb" "DOUBLE PRECISION" true zero_int);
   AddColumn true "metrics" (col "disk_total_gb" "DOUBLE PRECISION" true zero_int);
   AddColumn true "metrics" (col "disk_read_ops" "BIGINT" true zero_int);
   AddColumn true "metrics" (col "disk_write_ops" "BIGINT" true zero_int);
   AddColumn true "metrics" (col "disk_iops" "DOUBLE PRECISION" true zero_int);
   AddColumn true "metrics" (col "net_mbps" "DOUBLE PRECISION" true zero_int);
   AddColumn true "metrics" (col "concurrent_users" "INT" true zero_int);
   AddColumn true "metrics" (col "net_sent_external" "BIGINT" true zero_int);
   AddColumn true "metrics" (col "net_recv_external" "BIGINT" true zero_int);
   AddColumn true "metrics" (col "net_sent_internal" "BIGINT" true zero_int);
   AddColumn true "metrics" (col "net_recv_internal" "BIGINT" true zero_int);
   AddColumn true "processes" (col "tenant_id" "TEXT" true empty_text);
   AddColumn true "processes" (col "server_id" "TEXT" true empty_text);
   AddColumn true "processes" (col "hostname" "TEXT" true empty_text)].

(** *** Credentials, [apikeys.go], [enrollment.go], [enrollment_pg.go] *)

Definition key_columns (id int big : string) : list column :=
  [col "id" id true None; col "key_hash" "TEXT" true None; col "tenant_id" "TEXT" true None; col "client_name" "TEXT" true empty_text;
   col "kind" "TEXT" true (Some (VText KindLegacy)); col "scope" "TEXT" true (Some (VText ScopeAll));
   col "key_prefix" "TEXT" true empty_text; col "expires_at" big true zero_int; col "max_uses" int true zero_int;
   col "uses" int true zero_int; col "server_id" "TEXT" true empty_text; col "issued_by" "TEXT" true empty_text;
   col "created_at" big true None; col "last_seen_at" big true zero_int; col "revoked_at" big true zero_int].
Definition sqliteAPIKeySchema : list ddl :=
  [CreateTable "api_keys" (key_columns "INTEGER" "INTEGER" "INTEGER") [key_on ["id"]; key_on ["key_hash"]];
   plain_index "idx_api_keys_hash" "api_keys" ["key_hash"]].
Definition postgresAPIKeySchema : list ddl :=
  [CreateTable "api_keys" (key_columns "SERIAL" "INT" "BIGINT") [key_on ["id"]; key_on ["key_hash"]];
   plain_index "idx_api_keys_hash" "api_keys" ["key_hash"]].
Definition key_alters (if_not_exists : bool) (int big : string) : list ddl :=
  [AddColumn if_not_exists "api_keys" (col "kind" "TEXT" true (Some (VText KindLegacy)));
   AddColumn if_not_exists "api_keys" (col "scope" "TEXT" true (Some (VText ScopeAll)));
   AddColumn if_not_exists "api_keys" (col "key_prefix" "TEXT" true empty_text);
   AddColumn if_not_exists "api_keys" (col "expires_at" big true zero_int);
   AddColumn if_not_exists "api_keys" (col "max_uses" int true zero_int);
   AddColumn if_not_exists "api_keys" (col "uses" int true zero_int);
   AddColumn if_not_exists "api_keys" (col "server_id" "TEXT" true empty_text);
   AddColumn if_not_exists "api_keys" (col "issued_by" "TEXT" true empty_text)].
Definition key_indexes : list ddl :=
  [plain_index "idx_api_keys_tenant" "api_keys" ["tenant_id"];
   plain_index "idx_api_keys_server" "api_keys" ["tenant_id"; "server_id"]].
Definition active_agents : list test := [Equals "kind" (VText KindAgent); Equals "revoked_at" (VInt 0); Differs "server_id" (VText EmptyString)].
Definition one_active_agent_index : index :=
  {| ix_table := "api_keys"; ix_columns := ["tenant_id"; "server_id"]; ix_unique := Some active_agents |}.
(** The [CHECK (id = 1)] of [auth_epoch] is not in the model of tables; the
    only statement of the program that adds a row to it is the one here. *)
Definition enrollment_statements (big : string) (conflict : option (list string)) : list ddl :=
  [CreateTable "enrollment_handshakes"
     [col "code_hash" "TEXT" true None; col "server_id" "TEXT" true None; col "tenant_id" "TEXT" true None; col "token" "TEXT" true None;
      col "key_hash" "TEXT" true None; col "created_at" big true None; col "expires_at" big true None] [key_on ["code_hash"; "server_id"]];
   CreateTable "auth_epoch"
     [col "id" "INTEGER" true None; col "epoch" big true zero_int; col "updated_at" big true zero_int] [key_on ["id"]];
   InsertMissing "auth_epoch" {["id" := VInt 1; "epoch" := VInt 0; "updated_at" := VInt 0]} conflict;
   CreateIndex "idx_api_keys_one_active_agent" one_active_agent_index].

(** *** Receipts and budgets, [ingest.go] *)

Definition ingestDDL : list ddl :=
  [CreateTable "ingest_receipts"
     [col "tenant_id" "TEXT" true None; col "agent_id" "TEXT" true None; col "event_id" "TEXT" true None; col "boot_id" "TEXT" true None;
      col "sequence" "BIGINT" true None; col "content_hash" "TEXT" true None; col "received_at" "BIGINT" true None;
      col "accepted_bytes" "BIGINT" true None]
     [key_on ["tenant_id"; "agent_id"; "event_id"]; key_on ["tenant_id"; "agent_id"; "boot_id"; "sequence"]];
   plain_index "ingest_receipts_received" "ingest_receipts" ["received_at"];
   CreateTable "ingest_budgets"
     [col "tenant_id" "TEXT" true None; col "actor_id" "TEXT" true None; col "day" "TEXT" true None;
      col "accepted_rows" "BIGINT" true zero_int; col "accepted_bytes" "BIGINT" true zero_int] [key_on ["tenant_id"; "actor_id"; "day"]];
   plain_index "metrics_scope_time" "metrics" ["tenant_id"; "server_id"; "timestamp"];
   plain_index "processes_scope_time" "processes" ["tenant_id"; "server_id"; "timestamp"]].

(** ** The migrations *)

(** A store: its tables, and what [apiKeyInit] holds for its connection. *)
Record store := { so_db : database; so_init : option (result error unit) }.
Definition on_db {A : Type} (m : M database A) : M store A := zoom so_db (fun d s => {| so_db := d; so_init := so_init s |}) m.

Section migrations.
Context `{Dialect}.

Definition migrate_with (atomic : bool) (tables alters indexes : list ddl) : M database unit :=
  let* _ := execute_script atomic tables in
  let* _ := execute_ignoring alters in
  execute_script atomic indexes.
(** [guardedInit.do] under [ensureAPIKeyTable]: the first outcome is kept. *)
Definition ensureAPIKeyTable (fn : M database unit) : M store unit :=
  inspect (fun s =>
    match so_init s with
    | Some r => lift r
    | None =>
        let* r := attempt (on_db fn) in
        let* _ := modify (fun s => {| so_db := so_db s; so_init := Some r |}) in
        lift r
    end).
(** The body of [initializeIngest], a statement at a time. *)
Definition initializeIngest : M database unit := execute_each ingestDDL.
End migrations.

Module SQLiteSchema.
Section sqlite_schema.
#[local] Existing Instance sqlite.
Definition migrate : M database unit := migrate_with false sqlite_tables sqlite_alters row_indexes.
(** [sql.Open] does not touch the file. *)
Definition Open : M database unit := labelled_as "migrate" migrate.

Definition ensureEnrollmentAuxSQLite : M database unit := execute_each (enrollment_statements "INTEGER" None).
(** [PRAGMA table_info]: no row when there is no table.  The loop does not look
    at [rows.Err], so [seen] may be fewer columns than there are. *)
Definition table_info (name : string) (d : database) : list string :=
  match db_tables d !! name with Some t => column_names t | None => [] end.
Fixpoint add_missing (cols : list string) (l : list ddl) : M database unit :=
  match l with
  | [] => ret tt
  | AddColumn b t c :: l =>
      let* _ := whenM (negb (bool_decide (co_name c ∈ cols)))
                  (labelled_as ("migrate sqlite api_keys col " +:+ co_name c) (execute (AddColumn b t c))) in
      add_missing cols l
  | _ :: l => add_missing cols l
  end.
Definition migrateSQLiteAPIKeys (seen : nat) : M database unit :=
  let* cols := query (table_info "api_keys") in
  let* _ := add_missing (take seen cols) (key_alters false "INTEGER" "INTEGER") in
  let* _ := execute_ignoring key_indexes in
  ensureEnrollmentAuxSQLite.
Definition create_keys (seen : nat) : M database unit :=
  let* _ := labelled_as "create api_keys table" (execute_script false sqliteAPIKeySchema) in
  migrateSQLiteAPIKeys seen.
Definition ensureAPIKeys (seen : nat) : M store unit := ensureAPIKeyTable (create_keys seen).
Definition InitializeIngest : M database unit := transaction initializeIngest.
End sqlite_schema.
End SQLiteSchema.

Module PostgresSchema.
Section postgres_schema.
#[local] Existing Instance postgres.
Definition migrate : M database unit := migrate_with true postgres_tables postgres_alters row_indexes.
Definition Open : M database unit :=
  let* _ := labelled_as "ping postgres" (query (fun _ => tt)) in
  labelled_as "migrate postgres" migrate.
Definition ensureEnrollmentAuxPostgres : M database unit := execute_each (enrollment_statements "BIGINT" (Some ["id"])).
Definition create_keys : M database unit :=
  let* _ := labelled_as "create postgres api_keys table" (execute_script true postgresAPIKeySchema) in
  let* _ := labelled_as "migrate postgres api_keys" (execute_each (key_alters true "INT" "BIGINT" ++ key_indexes)) in
  ensureEnrollmentAuxPostgres.
Definition ensureAPIKeys : M store unit := ensureAPIKeyTable create_keys.
(** The advisory lock comes first. *)
Definition InitializeIngest : M database unit :=
  transaction (let* _ := query (fun _ => tt) in initializeIngest).
End postgres_schema.
End PostgresSchema.
