(* ===== verification/SchemaProofs.v ===== *)
(** * Creating and upgrading the tables: proofs

    No migration loses or changes a stored value, whatever fails; a start that
    meets no failure completes the schema of any older database; and the
    credential table is constrained before anything uses it. *)

From S2P Require Export Schema.
Open Scope list_scope.
Open Scope Z_scope.

(** ** Databases that obey their constraints *)

Definition mentions (u : uniqueness) : list string := uq_columns u ++ map test_column (uq_where u).
Definition row_fits (t : table) (r : row) : Prop := (forall c, is_Some (r !! c) -> c ∈ column_names t) /\ null_free t r = true.
Record table_ok (d : database) (name : string) (t : table) : Prop := {
  to_columns : NoDup (column_names t);
  to_rows : Forall (row_fits t) (tb_rows t);
  to_unique : forall u, u ∈ constraints d name t -> mentions u ⊆ column_names t /\ satisfied u (tb_rows t) = true
}.
Record db_ok (d : database) : Prop := {
  dk_tables : forall name t, db_tables d !! name = Some t -> table_ok d name t;
  dk_indexes : forall k x, db_indexes d !! k = Some x ->
    exists t, db_tables d !! ix_table x = Some t /\ index_mentions x ⊆ column_names t
}.
(** What a migration may do to a table: columns and rows are added, and the
    values that were there stay. *)
Record table_grows (t t' : table) : Prop := {
  tg_columns : tb_columns t `prefix_of` tb_columns t';
  tg_unique : tb_unique t' = tb_unique t;
  tg_rows : exists old new, tb_rows t' = old ++ new /\ Forall2 subseteq (tb_rows t) old
}.
Definition grows (d d' : database) : Prop :=
  (forall name t, db_tables d !! name = Some t -> exists t', db_tables d' !! name = Some t' /\ table_grows t t') /\
  db_indexes d ⊆ db_indexes d'.

Lemma Forall2_subseteq_refl (l : list row) : Forall2 subseteq l l.
Proof. by induction l; constructor. Qed.
Lemma table_grows_refl t : table_grows t t.
Proof. split; [done|done|]. exists (tb_rows t), []. split; [by rewrite app_nil_r|apply Forall2_subseteq_refl]. Qed.
Lemma table_grows_trans t1 t2 t3 : table_grows t1 t2 -> table_grows t2 t3 -> table_grows t1 t3.
Proof.
  intros [C1 U1 (o1 & n1 & E1 & F1)] [C2 U2 (o2 & n2 & E2 & F2)]. split; [by etrans|congruence|].
  rewrite E1 in F2. apply Forall2_app_inv_l in F2 as (o' & n' & F2 & _ & ->). exists o', (n' ++ n2).
  split; [by rewrite app_assoc|]. revert F2. clear -F1. revert o'. induction F1; intros o' F2; inversion F2; subst; constructor; [by etrans|auto].
Qed.
Lemma grows_refl d : grows d d.
Proof. split; [|done]. intros name t Ht. exists t. by split; [|apply table_grows_refl]. Qed.
Lemma grows_trans d1 d2 d3 : grows d1 d2 -> grows d2 d3 -> grows d1 d3.
Proof.
  intros [T1 I1] [T2 I2]. split; [|by etrans]. intros name t (t' & Ht & G1)%T1. destruct (T2 _ _ Ht) as (t'' & ? & G2).
  exists t''. split; [done|]. by eapply table_grows_trans.
Qed.

(** *** Constraints *)

Lemma elem_of_constraints d name t u :
  u ∈ constraints d name t <-> u ∈ tb_unique t \/ exists k x, db_indexes d !! k = Some x /\ index_constraint name x = Some u.
Proof.
  unfold constraints. rewrite elem_of_app, list_elem_of_omap. apply or_iff_compat_l. split.
  - intros ([k x] & Hin & Hc). apply elem_of_map_to_list in Hin. by exists k, x.
  - intros (k & x & Hin & Hc). exists (k, x). split; [by apply elem_of_map_to_list|done].
Qed.
Lemma index_constraint_Some name x u : index_constraint name x = Some u ->
  ix_table x = name /\ exists w, ix_unique x = Some w /\ u = {| uq_columns := ix_columns x; uq_where := w |}.
Proof.
  unfold index_constraint. destruct (String.eqb_spec (ix_table x) name) as [->|]; [|done].
  intros (w & -> & ?)%fmap_Some. split; [done|]. by exists w.
Qed.

(** A constraint sees the columns it mentions only. *)
Lemma passes_same r r' t : field r (test_column t) = field r' (test_column t) -> passes r t = passes r' t.
Proof. destruct t; simpl; by intros ->. Qed.
Lemma compared_same u r r' : (forall c, c ∈ mentions u -> field r c = field r' c) -> compared u r = compared u r' /\ index_key u r = index_key u r'.
Proof.
  intros Hs. assert (Hk : index_key u r = index_key u r').
  { apply map_ext_in. intros c Hc. apply Hs, elem_of_app. left. by apply list_elem_of_In. }
  split; [|done]. unfold compared. rewrite Hk. f_equal. unfold mentions in Hs.
  assert (Hw : forall t, t ∈ uq_where u -> passes r t = passes r' t).
  { intros t Ht. apply passes_same, Hs, elem_of_app. right. by apply list_elem_of_fmap_2. }
  clear -Hw. induction (uq_where u) as [|t l IH]; [done|]. simpl. rewrite (Hw t) by constructor. rewrite IH; [done|].
  intros t' Ht'. apply Hw. by constructor.
Qed.
Lemma satisfied_same u rows rows' :
  Forall2 (fun r r' => forall c, c ∈ mentions u -> field r c = field r' c) rows rows' -> satisfied u rows = satisfied u rows'.
Proof.
  intros Hs. unfold satisfied. assert (map (index_key u) (List.filter (compared u) rows) = map (index_key u) (List.filter (compared u) rows')) as ->; [|done].
  induction Hs as [|r r' l l' Hr _ IH]; [done|]. destruct (compared_same u r r' Hr) as [Hc Hk]. simpl. rewrite Hc.
  destruct (compared u r'); [|exact IH]. simpl. by rewrite Hk, IH.
Qed.
Lemma field_insert r c c' v : c' <> c -> field (<[c := v]> r) c' = field r c'.
Proof. intros Hn. unfold field. by rewrite lookup_insert_ne. Qed.

(** ** Statements *)

Definition ddl_ok (s : ddl) : Prop :=
  match s with
  | CreateTable _ columns unique => NoDup (map co_name columns) /\ forall u, u ∈ unique -> mentions u ⊆ map co_name columns
  | _ => True
  end.
Lemma missing_column_None t l : missing_column t l = None <-> l ⊆ column_names t.
Proof.
  unfold missing_column. split.
  - intros Hf c Hc%list_elem_of_In. apply (List.find_none _ _ Hf) in Hc. by apply negb_false_iff, bool_decide_eq_true in Hc.
  - intros Hs. destruct (List.find _ l) as [c|] eqn:E; [|done]. apply List.find_some in E as [Hin%list_elem_of_In Hc].
    apply negb_true_iff, bool_decide_eq_false in Hc. by apply Hs in Hin.
Qed.

Definition ddl_okb (s : ddl) : bool :=
  match s with
  | CreateTable _ columns unique =>
      bool_decide (NoDup (map co_name columns)) && forallb (fun u => bool_decide (mentions u ⊆ map co_name columns)) unique
  | _ => true
  end.
Lemma ddl_okb_ok s : ddl_okb s = true -> ddl_ok s.
Proof.
  destruct s; try done. simpl. intros [Hn%bool_decide_eq_true Hu]%andb_true_iff. split; [done|]. intros u Hin%list_elem_of_In.
  rewrite forallb_forall in Hu. by apply (bool_decide_eq_true_1 _ (Hu u Hin)).
Qed.
Lemma ddls_ok l : forallb ddl_okb l = true -> Forall ddl_ok l.
Proof. intros Hl. rewrite forallb_forall in Hl. apply Forall_forall. intros s Hs%list_elem_of_In. by apply ddl_okb_ok, Hl. Qed.

(** The other tables and the indexes see nothing of a changed table. *)
Lemma put_table_ok name t d :
  db_ok d -> table_ok d name t -> (forall t0, db_tables d !! name = Some t0 -> table_grows t0 t) -> db_ok (put_table name t d) /\ grows d (put_table name t d).
Proof.
  intros [Dt Di] Ht Hg. split; [split|split].
  - intros name' t'. simpl. intros [[<- <-]|[Hne Hl]]%lookup_insert_Some; [by destruct Ht; split|]. destruct (Dt _ _ Hl). by split.
  - intros k x Hx. destruct (Di _ _ Hx) as (t0 & Hl & Hm). simpl. destruct (decide (ix_table x = name)) as [<-|Hne].
    + exists t. split; [by rewrite lookup_insert_eq|]. destruct (Hg _ Hl) as [[k' Hp] _ _]. etrans; [exact Hm|].
      unfold column_names. rewrite Hp, map_app. by apply list_subseteq_app_l.
    + exists t0. by rewrite lookup_insert_ne.
  - intros name' t' Hl. simpl. destruct (decide (name' = name)) as [->|Hne].
    + exists t. split; [by rewrite lookup_insert_eq|by apply Hg].
    + exists t'. split; [by rewrite lookup_insert_ne|apply table_grows_refl].
  - done.
Qed.

Lemma create_ok name columns unique d :
  db_ok d -> ddl_ok (CreateTable name columns unique) -> db_tables d !! name = None ->
  let d' := put_table name {| tb_columns := columns; tb_unique := unique; tb_rows := [] |} d in db_ok d' /\ grows d d'.
Proof.
  intros Hd [Hn Hu] Hl. apply put_table_ok; [done| |by rewrite Hl]. split; [done|by constructor|].
  intros u [Hin|(k & x & Hx & Hc)]%elem_of_constraints; [split; [by apply Hu|done]|].
  apply index_constraint_Some in Hc as [<- _]. destruct (dk_indexes d Hd k x Hx) as (t & Ht & _). congruence.
Qed.
Lemma add_column_ok name c t d :
  db_ok d -> db_tables d !! name = Some t -> co_name c ∉ column_names t -> co_not_null c && bool_decide (default_of c = VNull) = false ->
  db_ok (put_table name (add_column c t) d) /\ grows d (put_table name (add_column c t) d).
Proof.
  intros Hd Ht Hc Hnull. destruct (dk_tables d Hd name t Ht) as [Tc Tr Tu]. assert (Hfresh : forall r, r ∈ tb_rows t -> r !! co_name c = None).
  { intros r Hr. rewrite Forall_forall in Tr. destruct (Tr r Hr) as [Hf _]. apply eq_None_not_Some. by intros Hs%Hf. }
  assert (Hnames : column_names (add_column c t) = column_names t ++ [co_name c]) by (unfold column_names; simpl; by rewrite map_app).
  apply put_table_ok; [done| |].
  - split.
    + rewrite Hnames. apply NoDup_app. split_and!; [done|by intros x Hx ->%list_elem_of_singleton|apply NoDup_singleton].
    + simpl. apply Forall_fmap. eapply Forall_impl; [exact Tr|]. intros r [Hf Hn]. split.
      * intros x Hx. rewrite Hnames. apply elem_of_app. simpl in Hx. destruct (decide (x = co_name c)) as [->|Hne]; [right; by constructor|left].
        apply Hf. by rewrite (lookup_insert_ne) in Hx.
      * unfold null_free in *. simpl tb_columns. rewrite forallb_app. simpl forallb. rewrite andb_true_r. apply andb_true_iff. split.
        -- rewrite forallb_forall in Hn |- *. intros x Hx. rewrite field_insert; [by apply Hn|]. intros He. apply Hc. rewrite <- He.
           apply list_elem_of_fmap_2. by apply list_elem_of_In.
        -- unfold field. rewrite (lookup_insert_eq). simpl. by destruct (co_not_null c), (bool_decide _).
    + intros u Hu. destruct (Tu u Hu) as [Hm Hs]. split; [rewrite Hnames; set_solver|]. simpl. rewrite <- Hs. symmetry. apply satisfied_same.
      assert (Hin : forall x, x ∈ mentions u -> x <> co_name c) by (intros x Hx ->; apply Hc, Hm, Hx).
      clear -Hin. induction (tb_rows t) as [|r l IH]; simpl; constructor; [|done]. intros x Hx. by rewrite field_insert by auto.
  - intros t0. rewrite Ht. intros [= <-]. split; [by eexists|done|]. simpl. eexists _, []. split; [by rewrite app_nil_r|].
    clear -Hfresh. induction (tb_rows t) as [|r l IH]; simpl; constructor.
    + apply (insert_subseteq). apply Hfresh. constructor.
    + apply IH. intros r' Hr'. apply Hfresh. by constructor.
Qed.
Lemma put_index_ok name x t d :
  db_ok d -> db_indexes d !! name = None -> db_tables d !! ix_table x = Some t -> index_mentions x ⊆ column_names t ->
  (forall w, ix_unique x = Some w -> satisfied {| uq_columns := ix_columns x; uq_where := w |} (tb_rows t) = true) ->
  db_ok (put_index name x d) /\ grows d (put_index name x d).
Proof.
  intros Hd Hi Ht Hm Hs. split; [split|split].
  - intros name' t' Hl. simpl in Hl. destruct (dk_tables d Hd _ _ Hl) as [Tc Tr Tu]. split; [done..|].
    intros u [Hin|(k & y & Hy & Hc)]%elem_of_constraints; [apply Tu, elem_of_constraints; by left|].
    simpl in Hy. apply lookup_insert_Some in Hy as [[<- <-]|[Hne Hy]].
    + apply index_constraint_Some in Hc as (<- & w & Hw & ->). assert (t' = t) as -> by congruence.
      split; [|by apply Hs]. intros c Hc. apply Hm. unfold index_mentions. by rewrite Hw.
    + apply Tu, elem_of_constraints. right. by exists k, y.
  - intros k y. simpl. intros [[<- <-]|[Hne Hy]]%lookup_insert_Some; [by exists t|]. by apply (dk_indexes d Hd k).
  - intros name' t' Hl. exists t'. split; [done|apply table_grows_refl].
  - simpl. by apply (insert_subseteq).
Qed.
Lemma full_row_columns t r c : is_Some (full_row t r !! c) -> c ∈ column_names t.
Proof.
  unfold full_row, column_names. induction (tb_columns t) as [|x l IH]; simpl; [by intros [? ?%(lookup_empty_Some)]|].
  destruct (decide (c = co_name x)) as [->|Hne]; [by constructor|]. rewrite (lookup_insert_ne) by done.
  intros Hs. constructor. by apply IH.
Qed.
Lemma add_row_ok name t r d :
  db_ok d -> db_tables d !! name = Some t -> acceptable d name t (full_row t r) = true ->
  db_ok (put_table name (add_row (full_row t r) t) d) /\ grows d (put_table name (add_row (full_row t r) t) d).
Proof.
  intros Hd Ht [Hn Hu]%andb_true_iff. destruct (dk_tables d Hd name t Ht) as [Tc Tr Tu]. apply put_table_ok; [done| |].
  - split; [done| |].
    + simpl. apply Forall_app. split; [done|]. constructor; [|done]. split; [apply full_row_columns|done].
    + intros u Hin. split; [by apply Tu|]. rewrite forallb_forall in Hu. apply Hu. by apply list_elem_of_In.
  - intros t0. rewrite Ht. intros [= <-]. split; [done|done|]. simpl. eexists _, _. split; [done|apply Forall2_subseteq_refl].
Qed.

Definition has_column (d : database) (name c : string) : Prop := exists t, db_tables d !! name = Some t /\ c ∈ column_names t.
Lemma has_column_grows d d' name c : grows d d' -> has_column d name c -> has_column d' name c.
Proof.
  intros [Hg _] (t & Ht & Hc). destruct (Hg _ _ Ht) as (t' & Ht' & [[k Hp] _ _]). exists t'. split; [done|].
  unfold column_names in *. rewrite Hp, map_app. apply elem_of_app. by left.
Qed.
(** The columns an older table must have: those no migration adds. *)
Definition keeps_base (base : list (string * string)) (d : database) : Prop :=
  forall name c, (name, c) ∈ base -> is_Some (db_tables d !! name) -> has_column d name c.
Definition fits_base (base : list (string * string)) (s : ddl) : bool :=
  match s with
  | CreateTable name columns _ => forallb (fun p => negb (String.eqb p.1 name) || bool_decide (p.2 ∈ map co_name columns)) base
  | _ => true
  end.

Section careful.
Context `{Dialect}.

Lemma exec_ddl_ok s d d' : ddl_ok s -> db_ok d -> exec_ddl s d = Ok (tt, d') -> db_ok d' /\ grows d d'.
Proof.
  intros Hs Hd. assert (Hsame : db_ok d /\ grows d d) by (split; [done|apply grows_refl]).
  destruct s as [name columns unique|ine name c|name x|name r conflict]; simpl.
  - destruct (db_tables d !! name) eqn:El; intros [= <-]; [done|by apply create_ok].
  - destruct (db_tables d !! name) as [t|] eqn:El; [|done]. destruct (bool_decide (co_name c ∈ column_names t)) eqn:Ec.
    + destruct ine; [|done]. by intros [= <-].
    + destruct (_ && _) eqn:En; [done|]. intros [= <-]. apply add_column_ok; [done|done| |done]. by apply bool_decide_eq_false in Ec.
  - destruct (db_indexes d !! name) eqn:Ei; [by intros [= <-]|]. destruct (db_tables d !! ix_table x) as [t|] eqn:El; [|done].
    destruct (missing_column _ _) eqn:Em; [done|]. apply missing_column_None in Em. destruct (ix_unique x) as [w|] eqn:Ew.
    + destruct (satisfied _ _) eqn:Es; [|done]. intros [= <-]. apply (put_index_ok _ _ t); [done..|]. intros w'. rewrite Ew. by intros [= <-].
    + intros [= <-]. apply (put_index_ok _ _ t); [done..|]. by rewrite Ew.
  - destruct (db_tables d !! name) as [t|] eqn:El; [|done]. destruct (missing_column _ _); [done|].
    destruct (acceptable _ _ _ _) eqn:Ea; [intros [= <-]; by apply add_row_ok|]. destruct conflict as [l|]; [|by intros [= <-]].
    destruct (_ && _); [|done]. by intros [= <-].
Qed.


Lemma exec_ddl_base base s d d' :
  fits_base base s = true -> ddl_ok s -> db_ok d -> keeps_base base d -> exec_ddl s d = Ok (tt, d') -> keeps_base base d'.
Proof.
  intros Hf Hs Hd Hb He. destruct (exec_ddl_ok s d d' Hs Hd He) as [_ Hg]. intros name c Hin [t' Ht'].
  destruct (db_tables d !! name) as [t|] eqn:Et.
  { apply (has_column_grows d); [done|]. apply Hb; [done|by rewrite Et]. }
  destruct s as [name' columns unique|ine name' x|k x|name' r conflict]; simpl in He.
  - destruct (db_tables d !! name') eqn:El; injection He as <-; [congruence|]. simpl in Ht'. apply lookup_insert_Some in Ht' as [[<- <-]|[_ ?]]; [|congruence].
    eexists. split; [simpl; by rewrite lookup_insert_eq|]. simpl in Hf. rewrite forallb_forall in Hf.
    specialize (Hf _ (proj1 (list_elem_of_In _ _) Hin)). simpl in Hf. rewrite String.eqb_refl in Hf. by apply bool_decide_eq_true in Hf.
  - exfalso. repeat (case_match; simplify_eq); simpl in *; apply lookup_insert_Some in Ht' as [[<- _]|[_ ?]]; congruence.
  - exfalso. repeat (case_match; simplify_eq); simpl in *; congruence.
  - exfalso. repeat (case_match; simplify_eq); simpl in *; try apply lookup_insert_Some in Ht' as [[<- _]|[_ ?]]; congruence.
Qed.

(** *** Whatever fails *)

(** An invariant that each statement of a kind keeps is kept by the programs
    made of them. *)
Section invariant.
Context (I : database -> Prop) (good : ddl -> bool).
Context (exec_keeps : forall s d d', good s = true -> I d -> exec_ddl s d = Ok (tt, d') -> I d').

Lemma execute_keeps s : good s = true -> preserves I (execute s).
Proof. intros Hs. apply preserves_statement. intros d [] d' Hd He. by eapply exec_keeps. Qed.
Lemma exec_all_keeps l d d' : forallb good l = true -> I d -> exec_all l d = Ok (tt, d') -> I d'.
Proof.
  revert d. induction l as [|s l IH]; simpl; intros d; [by intros _ ? [= <-]|]. intros [Hs Hl]%andb_true_iff Hd.
  destruct (exec_ddl s d) as [[[] d1]|] eqn:E; [|done]. apply IH; [done|]. by eapply exec_keeps.
Qed.
Lemma each_keeps l : forallb good l = true -> preserves I (execute_each l).
Proof.
  induction l as [|s l IH]; simpl; [intros _; apply preserves_ret|]. intros [Hs Hl]%andb_true_iff.
  apply preserves_mbind; [by apply execute_keeps|]. intros _. by apply IH.
Qed.
Lemma script_keeps atomic l : forallb good l = true -> preserves I (execute_script atomic l).
Proof.
  intros Hl. destruct atomic; [|by apply each_keeps]. apply preserves_statement. intros d [] d' Hd He. by eapply exec_all_keeps.
Qed.
Lemma ignoring_keeps l : forallb good l = true -> preserves I (execute_ignoring l).
Proof.
  induction l as [|s l IH]; simpl; [intros _; apply preserves_ret|]. intros [Hs Hl]%andb_true_iff.
  apply preserves_mbind; [by apply preserves_attempt, execute_keeps|]. intros _. by apply IH.
Qed.
Lemma labelled_keeps msg m : preserves I m -> preserves I (labelled_as msg m).
Proof.
  intros Hm. apply preserves_mbind; [by apply preserves_attempt|]. intros [[]|e]; [apply preserves_ret|apply preserves_fail].
Qed.
Lemma migrate_keeps atomic tables alters indexes :
  forallb good (tables ++ alters ++ indexes) = true -> preserves I (migrate_with atomic tables alters indexes).
Proof.
  rewrite !forallb_app, !andb_true_iff. intros (Ht & Ha & Hi). apply preserves_mbind; [by apply script_keeps|].
  intros _. apply preserves_mbind; [by apply ignoring_keeps|]. intros _. by apply script_keeps.
Qed.
End invariant.

Section base.
Context (base : list (string * string)).

Definition kept (d0 d : database) : Prop := db_ok d /\ grows d0 d /\ keeps_base base d.
Definition good_statement (s : ddl) : bool := ddl_okb s && fits_base base s.
Lemma kept_exec d0 s d d' : good_statement s = true -> kept d0 d -> exec_ddl s d = Ok (tt, d') -> kept d0 d'.
Proof.
  intros [Hs%ddl_okb_ok Hf]%andb_true_iff (Hd & Hg & Hb) He. destruct (exec_ddl_ok s d d' Hs Hd He). split; [done|].
  split; [by eapply grows_trans|exact (exec_ddl_base base s d d' Hf Hs Hd Hb He)].
Qed.
Definition careful {A : Type} (m : M database A) : Prop := forall d0, preserves (kept d0) m.
Lemma careful_run {A} (m : M database A) d fs r d' fs' :
  careful m -> db_ok d -> keeps_base base d -> m d fs = (r, d', fs') -> kept d d'.
Proof. intros Hm Hd Hb E. pose proof (Hm d d fs (conj Hd (conj (grows_refl d) Hb))) as Hk. unfold run_state in Hk. by rewrite E in Hk. Qed.
Lemma careful_mbind {A B} (m : M database A) (k : A -> M database B) : careful m -> (forall a, careful (k a)) -> careful (mbind m k).
Proof. intros Hm Hk d0. apply preserves_mbind; [apply Hm|intros; apply Hk]. Qed.
Lemma careful_query {A} (f : database -> A) : careful (query f).
Proof. intros d0. apply preserves_query. Qed.
Lemma careful_each l : forallb good_statement l = true -> careful (execute_each l).
Proof. intros Hl d0. by apply (each_keeps _ good_statement (kept_exec d0)). Qed.
Lemma careful_script atomic l : forallb good_statement l = true -> careful (execute_script atomic l).
Proof. intros Hl d0. by apply (script_keeps _ good_statement (kept_exec d0)). Qed.
Lemma careful_ignoring l : forallb good_statement l = true -> careful (execute_ignoring l).
Proof. intros Hl d0. by apply (ignoring_keeps _ good_statement (kept_exec d0)). Qed.
Lemma careful_labelled msg m : careful m -> careful (labelled_as msg m).
Proof. intros Hm d0. by apply labelled_keeps. Qed.
Lemma careful_migrate atomic tables alters indexes :
  forallb good_statement (tables ++ alters ++ indexes) = true -> careful (migrate_with atomic tables alters indexes).
Proof. intros Hl d0. by apply (migrate_keeps _ good_statement (kept_exec d0)). Qed.
Lemma careful_transaction {A} (m : M database A) : careful m -> careful (transaction m).
Proof. intros Hm d0. apply preserves_transaction, Hm. Qed.
End base.
End careful.
Lemma add_missing_keeps (I : database -> Prop) good cols l :
  (forall s d d', good s = true -> I d -> @exec_ddl sqlite s d = Ok (tt, d') -> I d') ->
  forallb good l = true -> preserves I (SQLiteSchema.add_missing cols l).
Proof.
  intros Hexec. induction l as [|s l IH]; simpl; [intros _; apply preserves_ret|]. intros [Hs Hl]%andb_true_iff. destruct s; try by apply IH.
  apply preserves_mbind; [|intros _; by apply IH]. destruct (negb _); [|apply preserves_ret].
  by eapply labelled_keeps, execute_keeps.
Qed.

(** *** No failure *)

(** What a statement is for; with it, the statement has nothing left to do. *)
Definition achieved (s : ddl) (d : database) : Prop :=
  match s with
  | CreateTable name _ _ => is_Some (db_tables d !! name)
  | AddColumn _ name c => has_column d name (co_name c)
  | CreateIndex name _ => is_Some (db_indexes d !! name)
  | InsertMissing name _ _ => is_Some (db_tables d !! name)
  end.
Lemma achieved_grows d d' s : grows d d' -> achieved s d -> achieved s d'.
Proof.
  intros Hg. pose proof Hg as [Ht Hi]. destruct s as [name ? ?|? name c|name x|name ? ?]; simpl.
  - intros [t (t' & -> & _)%Ht]. by eexists.
  - by apply has_column_grows.
  - intros [x' Hx]. exists x'. by eapply lookup_weaken.
  - intros [t (t' & -> & _)%Ht]. by eexists.
Qed.

Section clean.
Context `{Dialect}.

Lemma execute_clean s d : execute s d [] = match exec_ddl s d with Ok (u, d') => (Ok u, d', []) | Err e => (Err e, d, []) end.
Proof. done. Qed.
Lemma exec_achieves s d d' : exec_ddl s d = Ok (tt, d') -> achieved s d'.
Proof.
  destruct s as [name columns unique|ine name c|name x|name r conflict]; simpl.
  - destruct (db_tables d !! name) as [t|] eqn:El; intros [= <-]; [by rewrite El|]. simpl. by rewrite lookup_insert_eq.
  - destruct (db_tables d !! name) as [t|] eqn:El; [|done]. destruct (bool_decide _) eqn:Ec.
    + destruct ine; [|done]. intros [= <-]. exists t. split; [done|]. by apply bool_decide_eq_true in Ec.
    + destruct (_ && _); [done|]. intros [= <-]. eexists. split; [simpl; by rewrite lookup_insert_eq|].
      unfold column_names. simpl. rewrite map_app. apply elem_of_app. right. by constructor.
  - destruct (db_indexes d !! name) eqn:Ei; [intros [= <-]; by rewrite Ei|]. destruct (db_tables d !! ix_table x); [|done].
    destruct (missing_column _ _); [done|]. destruct (ix_unique x); [destruct (satisfied _ _); [|done]|]; intros [= <-]; simpl; by rewrite lookup_insert_eq.
  - destruct (db_tables d !! name) as [t|] eqn:El; [|done]. destruct (missing_column _ _); [done|].
    destruct (acceptable _ _ _ _); [intros [= <-]; simpl; by rewrite lookup_insert_eq|].
    destruct conflict; [destruct (_ && _); [|done]|]; intros [= <-]; by rewrite El.
Qed.

(** Creating a table or an index cannot fail where its columns are there. *)
Definition columns_there (s : ddl) (d : database) : Prop :=
  match s with
  | CreateTable _ _ _ => True
  | CreateIndex _ x => ix_unique x = None /\ (exists t, db_tables d !! ix_table x = Some t) /\ forall c, c ∈ ix_columns x -> has_column d (ix_table x) c
  | _ => False
  end.
Lemma columns_there_grows s d d' : grows d d' -> columns_there s d -> columns_there s d'.
Proof.
  intros Hg. destruct s as [| |name x|]; try done. simpl. intros (Hu & (t & Ht) & Hc). split; [done|]. split.
  - destruct (proj1 Hg _ _ Ht) as (t' & ? & _). by exists t'.
  - intros c Hin. by apply (has_column_grows d), Hc.
Qed.
Lemma create_succeeds s d : columns_there s d -> exists d', exec_ddl s d = Ok (tt, d').
Proof.
  destruct s as [name columns unique| |name x|]; try done; simpl; [by eexists|]. intros (Hu & (t & Ht) & Hc). rewrite Hu.
  destruct (db_indexes d !! name); [by eexists|]. rewrite Ht. rewrite (proj2 (missing_column_None t (index_mentions x))); [by eexists|].
  unfold index_mentions. rewrite Hu, app_nil_r. intros c Hin.
  destruct (Hc c Hin) as (t' & Ht' & Hin'). assert (t' = t) as -> by congruence. done.
Qed.

(** A run without faults, its result and what it has done. *)
Lemma script_clean atomic l d :
  db_ok d -> Forall ddl_ok l -> Forall (fun s => columns_there s d) l ->
  exists d', execute_script atomic l d [] = (Ok tt, d', []) /\ db_ok d' /\ grows d d' /\ Forall (fun s => achieved s d') l.
Proof.
  intros Hd Hok Hl. assert (Hall : exists d', exec_all l d = Ok (tt, d') /\ execute_each l d [] = (Ok tt, d', []) /\
    db_ok d' /\ grows d d' /\ Forall (fun s => achieved s d') l).
  { revert d Hd Hl. induction Hok as [|s l Hs _ IH]; intros d Hd Hl; [exists d; by split_and!; [| | |apply grows_refl|]|].
    apply Forall_cons in Hl as [Hc Hl]. destruct (create_succeeds s d Hc) as [d1 E]. destruct (exec_ddl_ok s d d1 Hs Hd E) as [Hd1 Hg1].
    destruct (IH d1 Hd1) as (d2 & E2 & E3 & Hd2 & Hg2 & Ha).
    { eapply Forall_impl; [exact Hl|]. intros s'. by apply columns_there_grows. }
    exists d2. simpl. rewrite E. split; [exact E2|]. split.
    { unfold mbind. rewrite execute_clean, E. exact E3. }
    split; [done|]. split; [by eapply grows_trans|]. constructor; [|done]. apply (achieved_grows d1); [done|]. by eapply exec_achieves. }
  destruct Hall as (d' & E1 & E2 & Hrest). exists d'. split; [|done]. destruct atomic; [|exact E2].
  unfold execute_script, statement. by rewrite E1.
Qed.
(** Adding columns and ignoring the errors: without faults the only error is
    that the column is there. *)
Definition addable (s : ddl) (d : database) : Prop :=
  match s with
  | AddColumn _ name c => is_Some (db_tables d !! name) /\ co_not_null c && bool_decide (default_of c = VNull) = false
  | _ => False
  end.
Lemma ignoring_clean l d :
  db_ok d -> Forall (fun s => addable s d) l ->
  exists d', execute_ignoring l d [] = (Ok tt, d', []) /\ db_ok d' /\ grows d d' /\ Forall (fun s => achieved s d') l.
Proof.
  revert d. induction l as [|s l IH]; intros d Hd Hl; [exists d; by split_and!; [| |apply grows_refl|]|].
  apply Forall_cons in Hl as [Hs Hl]. assert (H1 : exists r d1, execute s d [] = (r, d1, []) /\ db_ok d1 /\ grows d d1 /\ achieved s d1).
  { rewrite execute_clean. destruct (exec_ddl s d) as [[[] d1]|e] eqn:E.
    - exists (Ok tt), d1. split; [done|]. destruct s as [|ine name c| |]; try done.
      destruct (exec_ddl_ok (AddColumn ine name c) d d1 I Hd E). split_and!; [done..|by eapply exec_achieves].
    - exists (Err e), d. split; [done|]. split; [done|]. split; [apply grows_refl|]. destruct s as [|ine name c| |]; try done.
      destruct Hs as [[t Ht] Hn]. simpl in E |- *. exists t. split; [done|]. rewrite Ht, Hn in E.
      destruct (bool_decide (_ ∈ _)) eqn:Ec; [by apply bool_decide_eq_true in Ec|done]. }
  destruct H1 as (r & d1 & E & Hd1 & Hg1 & Ha). destruct (IH d1 Hd1) as (d2 & E2 & Hd2 & Hg2 & Ha2).
  { eapply Forall_impl; [exact Hl|]. intros [| ine name c| |]; try done. simpl. intros [[t Ht] Hn]. split; [|done].
    destruct (proj1 Hg1 _ _ Ht) as (t' & -> & _). by eexists. }
  exists d2. simpl. unfold mbind, attempt. rewrite E. split; [exact E2|]. split; [done|]. split; [by eapply grows_trans|].
  constructor; [|done]. by apply (achieved_grows d1).
Qed.

(** Where everything is there, a run changes nothing. *)
Definition repeatable (s : ddl) : Prop := match s with CreateTable _ _ _ | CreateIndex _ _ => True | _ => False end.
Lemma script_settled atomic l d :
  Forall repeatable l -> Forall (fun s => achieved s d) l -> execute_script atomic l d [] = (Ok tt, d, []).
Proof.
  intros Hr Ha. assert (Hall : exec_all l d = Ok (tt, d) /\ execute_each l d [] = (Ok tt, d, [])).
  { induction Hr as [|s l Hs _ IH]; [done|]. apply Forall_cons in Ha as [Hs' Ha]. destruct (IH Ha) as [E1 E2].
    assert (E : exec_ddl s d = Ok (tt, d)) by (destruct s; try done; destruct Hs' as [? Hs']; simpl; by rewrite Hs').
    simpl. unfold mbind. rewrite execute_clean, E. done. }
  destruct Hall as [E1 E2]. destruct atomic; [unfold execute_script, statement; by rewrite E1|exact E2].
Qed.
Lemma ignoring_settled l d :
  Forall (fun s => addable s d /\ achieved s d) l -> execute_ignoring l d [] = (Ok tt, d, []).
Proof.
  induction 1 as [|s l [Hadd Ha] _ IH]; [done|]. simpl. unfold mbind, attempt. rewrite execute_clean.
  destruct s as [|ine name c| |]; try done. simpl in Ha |- *. destruct Ha as (t & -> & Hc). rewrite bool_decide_eq_true_2 by done.
  destruct ine; exact IH.
Qed.
End clean.

(** ** A migration as a whole *)

Definition created (l : list ddl) : list (string * string) :=
  l ≫= fun s => match s with CreateTable name columns _ => map (fun c => (name, co_name c)) columns | _ => [] end.
Definition tables_of (l : list ddl) : list string := omap (fun s => match s with CreateTable name _ _ => Some name | _ => None end) l.
Definition added (l : list ddl) : list (string * string) :=
  omap (fun s => match s with AddColumn _ name c => Some (name, co_name c) | _ => None end) l.
(** The columns a table of an older version must have already. *)
Definition base_of (tables alters : list ddl) : list (string * string) :=
  List.filter (fun p => negb (bool_decide (p ∈ added alters))) (created tables).
Definition plain_index_on (tables : list ddl) (s : ddl) : bool :=
  match s with
  | CreateIndex _ x => match ix_unique x with None => true | Some _ => false end &&
      bool_decide (ix_table x ∈ tables_of tables) && forallb (fun c => bool_decide ((ix_table x, c) ∈ created tables)) (ix_columns x)
  | _ => false
  end.
Definition alter_of (tables : list ddl) (s : ddl) : bool :=
  match s with
  | AddColumn _ name c => bool_decide (name ∈ tables_of tables) && negb (co_not_null c && bool_decide (default_of c = VNull))
  | _ => false
  end.
Definition is_create (s : ddl) : bool := match s with CreateTable _ _ _ => true | _ => false end.
Definition plan_ok (tables alters indexes : list ddl) : bool :=
  forallb (good_statement (base_of tables alters)) (tables ++ alters ++ indexes) && forallb is_create tables &&
  forallb (alter_of tables) alters && forallb (plain_index_on tables) indexes.
(** Every column and every index is there. *)
Definition complete (tables indexes : list ddl) (d : database) : Prop :=
  (forall name c, (name, c) ∈ created tables -> has_column d name c) /\ Forall (fun s => achieved s d) indexes.

Lemma elem_of_tables name l : name ∈ tables_of l <-> exists columns unique, CreateTable name columns unique ∈ l.
Proof.
  unfold tables_of. rewrite list_elem_of_omap. split.
  - intros ([name' c u|?|?|?] & Hin & Hs); [|discriminate Hs..]. injection Hs as ->. by exists c, u.
  - intros (c & u & Hin). by eexists.
Qed.
Lemma elem_of_created name c l : (name, c) ∈ created l -> name ∈ tables_of l.
Proof.
  unfold created. rewrite list_elem_of_bind. intros ([name' columns u|?|?|?] & Hin & Hs); [|by apply not_elem_of_nil in Hin..].
  apply list_elem_of_fmap in Hin as (x & [= -> ->] & _). apply elem_of_tables. by exists columns, u.
Qed.

Section plan.
Context `{Dialect}.
Context (tables alters indexes : list ddl) (Hplan : plan_ok tables alters indexes = true).
#[local] Notation base := (base_of tables alters).

Lemma plan_parts : forallb (good_statement base) (tables ++ alters ++ indexes) = true /\ Forall (fun s => is_create s = true) tables /\
  Forall (fun s => alter_of tables s = true) alters /\ Forall (fun s => plain_index_on tables s = true) indexes.
Proof.
  unfold plan_ok in Hplan. rewrite !andb_true_iff in Hplan. destruct Hplan as [[[H1 H2] H3] H4]. split; [done|].
  rewrite forallb_forall in H2, H3, H4. split_and!; apply Forall_forall; intros s Hs%list_elem_of_In; auto.
Qed.
Lemma good_ok l : forallb (good_statement base) l = true -> Forall ddl_ok l.
Proof. intros Hl. apply ddls_ok. rewrite forallb_forall in Hl |- *. intros s Hs. specialize (Hl s Hs). unfold good_statement in Hl. by apply andb_true_iff in Hl as [? _]. Qed.
Lemma tables_exist d name : Forall (fun s => achieved s d) tables -> name ∈ tables_of tables -> is_Some (db_tables d !! name).
Proof. intros Ha (c & u & Hin)%elem_of_tables. rewrite Forall_forall in Ha. exact (Ha _ Hin). Qed.
Lemma created_there d :
  keeps_base base d -> Forall (fun s => achieved s d) tables -> Forall (fun s => achieved s d) alters ->
  forall name c, (name, c) ∈ created tables -> has_column d name c.
Proof.
  intros Hb Ht Ha name c Hin. destruct (decide ((name, c) ∈ added alters)) as [Hadd|Hn].
  - unfold added in Hadd. apply list_elem_of_omap in Hadd as ([|ine name' x| |] & Hx & Hs); [discriminate Hs| |discriminate Hs..].
    injection Hs as -> <-. rewrite Forall_forall in Ha. exact (Ha _ Hx).
  - apply Hb; [|by eapply tables_exist, elem_of_created]. apply list_elem_of_In, List.filter_In. split; [by apply list_elem_of_In|].
    by rewrite bool_decide_eq_false_2.
Qed.

(** A database on which the migration has nothing to do. *)
Definition settled (d : database) : Prop :=
  Forall (fun s => achieved s d) tables /\ Forall (fun s => achieved s d) alters /\ Forall (fun s => achieved s d) indexes.
Lemma settled_grows d d' : grows d d' -> settled d -> settled d'.
Proof. intros Hg (H1 & H2 & H3). split_and!; (eapply Forall_impl; [eassumption|]); intros s; by apply achieved_grows. Qed.
Lemma migrate_settled atomic d : settled d -> migrate_with atomic tables alters indexes d [] = (Ok tt, d, []).
Proof.
  intros (Ht & Ha & Hi). destruct plan_parts as (_ & Hcreate & Halter & Hindex). unfold migrate_with, mbind.
  rewrite script_settled; [|eapply Forall_impl; [exact Hcreate|]; by intros []|done]. rewrite ignoring_settled.
  - rewrite script_settled; [done| |done]. eapply Forall_impl; [exact Hindex|]. by intros [].
  - rewrite Forall_forall in Halter, Ha. apply Forall_forall. intros s Hs. split; [|by apply Ha]. specialize (Halter s Hs).
    destruct s as [|ine name c| |]; try done. simpl in Halter |- *.
    apply andb_true_iff in Halter as [Hn%bool_decide_eq_true Hnull%negb_true_iff]. split; [by apply tables_exist|done].
Qed.

(** Without a failure the migration of an older database succeeds and completes
    the schema. *)
Lemma migrate_clean atomic d :
  db_ok d -> keeps_base base d ->
  exists d', migrate_with atomic tables alters indexes d [] = (Ok tt, d', []) /\ kept base d d' /\ complete tables indexes d' /\ settled d'.
Proof.
  intros Hd Hb. destruct plan_parts as (Hgood & Hcreate & Halter & Hindex).
  pose proof Hgood as Hgood'. rewrite !forallb_app, !andb_true_iff in Hgood'. destruct Hgood' as (Gt & Ga & Gi).
  assert (Hkeep : forall r d', migrate_with atomic tables alters indexes d [] = (r, d', []) -> kept base d d').
  { intros r d' E. exact (careful_run base _ _ _ _ _ _ (careful_migrate base atomic tables alters indexes Hgood) Hd Hb E). }
  assert (Hct : Forall (fun s => columns_there s d) tables) by (eapply Forall_impl; [exact Hcreate|]; by intros []).
  destruct (script_clean atomic tables d Hd (good_ok _ Gt) Hct) as (d1 & E1 & Hd1 & Hg1 & Ha1).
  assert (Hb1 : keeps_base base d1).
  { apply (careful_run base _ _ _ _ _ _ (careful_script base atomic tables Gt) Hd Hb E1). }
  assert (Hadd : forall d', grows d1 d' -> Forall (fun s => addable s d') alters).
  { intros d' Hg. eapply Forall_impl; [exact Halter|]. intros [|ine name c| |]; try done. simpl.
    intros [Hn%bool_decide_eq_true Hnull%negb_true_iff]%andb_true_iff. split; [|done].
    destruct (tables_exist d1 name Ha1 Hn) as [t Ht]. destruct (proj1 Hg _ _ Ht) as (t' & -> & _). by eexists. }
  destruct (ignoring_clean alters d1 Hd1 (Hadd d1 (grows_refl d1))) as (d2 & E2 & Hd2 & Hg2 & Ha2).
  assert (Hb2 : keeps_base base d2).
  { apply (careful_run base _ _ _ _ _ _ (careful_ignoring base alters Ga) Hd1 Hb1 E2). }
  assert (Ht2 : Forall (fun s => achieved s d2) tables) by (eapply Forall_impl; [exact Ha1|]; intros s; by apply achieved_grows).
  pose proof (created_there d2 Hb2 Ht2 Ha2) as Hcols.
  assert (Hci : Forall (fun s => columns_there s d2) indexes).
  { eapply Forall_impl; [exact Hindex|]. intros [| |k x|]; try done. simpl. rewrite !andb_true_iff. intros [[Hu Hn%bool_decide_eq_true] Hc].
    split; [by destruct (ix_unique x)|]. split; [destruct (tables_exist d2 _ Ht2 Hn) as [t ?]; by exists t|].
    intros c Hin. rewrite forallb_forall in Hc. apply Hcols. exact (bool_decide_eq_true_1 _ (Hc c (proj1 (list_elem_of_In _ _) Hin))). }
  destruct (script_clean atomic indexes d2 Hd2 (good_ok _ Gi) Hci) as (d3 & E3 & Hd3 & Hg3 & Ha3).
  assert (E : migrate_with atomic tables alters indexes d [] = (Ok tt, d3, [])).
  { unfold migrate_with, mbind. by rewrite E1, E2. }
  assert (Ht3 : Forall (fun s => achieved s d3) tables) by (eapply Forall_impl; [exact Ht2|]; intros s; by apply achieved_grows).
  assert (Ha3' : Forall (fun s => achieved s d3) alters) by (eapply Forall_impl; [exact Ha2|]; intros s; by apply achieved_grows).
  exists d3. split; [exact E|]. split; [by eapply Hkeep|]. split.
  { split; [|done]. intros name c Hin. by apply (has_column_grows d2), Hcols. }
  by split.
Qed.
End plan.

(** *** Receipts and budgets *)

Lemma keeps_base_weaken base base' d : base' ⊆ base -> keeps_base base d -> keeps_base base' d.
Proof. intros Hs Hb name c Hin. apply Hb, Hs, Hin. Qed.
Definition ingest_tables : list ddl := List.filter is_create ingestDDL.
Definition scope_columns : list (string * string) :=
  [("metrics", "tenant_id"); ("metrics", "server_id"); ("metrics", "timestamp");
   ("processes", "tenant_id"); ("processes", "server_id"); ("processes", "timestamp")]%string.

Section ingest.
Context `{Dialect}.

Lemma execute_each_app l1 l2 d : forall d1, execute_each l1 d [] = (Ok tt, d1, []) -> execute_each (l1 ++ l2) d [] = execute_each l2 d1 [].
Proof.
  revert d. induction l1 as [|s l1 IH]; simpl; intros d d1; [by intros [= <-]|]. unfold mbind.
  destruct (execute s d []) as [[[[]|e] d'] fs] eqn:E; [|done]. intros E1. assert (fs = []) as ->.
  { rewrite execute_clean in E. destruct (exec_ddl s d) as [[? ?]|?]; by injection E. }
  by apply IH.
Qed.
Lemma segment_clean base l d :
  forallb (good_statement base) l = true -> db_ok d -> keeps_base base d -> Forall (fun s => columns_there s d) l ->
  exists d', execute_each l d [] = (Ok tt, d', []) /\ kept base d d' /\ Forall (fun s => achieved s d') l.
Proof.
  intros Hg Hd Hb Hl. destruct (script_clean false l d Hd) as (d' & E & Hd' & Hg' & Ha); [|done|].
  { apply ddls_ok. rewrite forallb_forall in Hg |- *. intros s Hs. specialize (Hg s Hs). unfold good_statement in Hg. by apply andb_true_iff in Hg as [? _]. }
  exists d'. split; [exact E|]. split; [|done].
  exact (careful_run base _ _ _ _ _ _ (careful_each base l Hg) Hd Hb E).
Qed.
Lemma index_there name table columns d :
  (forall c, c ∈ columns -> has_column d table c) -> columns <> [] -> columns_there (plain_index name table columns) d.
Proof.
  intros Hc Hn. simpl. split; [done|]. split; [|done]. destruct columns as [|c l]; [done|].
  destruct (Hc c) as (t & Ht & _); [by constructor|]. by exists t.
Qed.
Definition ingest_base : list (string * string) := created ingest_tables.
Definition ingest_indexes : list ddl := List.filter (fun s => negb (is_create s)) ingestDDL.
Lemma ingest_clean d :
  db_ok d -> keeps_base ingest_base d -> (forall p, p ∈ scope_columns -> has_column d p.1 p.2) ->
  exists d', initializeIngest d [] = (Ok tt, d', []) /\ kept ingest_base d d' /\ complete ingest_tables ingest_indexes d' /\
    initializeIngest d' [] = (Ok tt, d', []).
Proof.
  intros Hd Hb Hscope. unfold initializeIngest.
  set (l1 := take 1 ingestDDL). set (l2 := take 1 (drop 1 ingestDDL)). set (l3 := take 1 (drop 2 ingestDDL)). set (l4 := drop 3 ingestDDL).
  assert (Hsplit : ingestDDL = l1 ++ l2 ++ l3 ++ l4) by reflexivity.
  assert (forallb (good_statement ingest_base) l1 = true) as G1 by (vm_compute; reflexivity).
  assert (forallb (good_statement ingest_base) l2 = true) as G2 by (vm_compute; reflexivity).
  assert (forallb (good_statement ingest_base) l3 = true) as G3 by (vm_compute; reflexivity).
  assert (forallb (good_statement ingest_base) l4 = true) as G4 by (vm_compute; reflexivity).
  destruct (segment_clean ingest_base l1 d) as (d1 & E1 & K1 & A1); [exact G1|done|done|repeat constructor|].
  destruct (segment_clean ingest_base l2 d1) as (d2 & E2 & K2 & A2); [exact G2|apply K1|apply K1| |].
  { constructor; [|constructor]. apply index_there; [|done]. intros c ->%list_elem_of_singleton. apply (proj2 (proj2 K1)).
    - apply (bool_decide_unpack _). vm_compute. exact I.
    - apply Forall_cons in A1 as [Ha _]. exact Ha. }
  destruct (segment_clean ingest_base l3 d2) as (d3 & E3 & K3 & A3); [exact G3|apply K2|apply K2|repeat constructor|].
  assert (G13 : grows d d3) by (destruct K1 as (_ & ? & _), K2 as (_ & ? & _), K3 as (_ & ? & _); by do 2 (eapply grows_trans; [eassumption|])).
  destruct (segment_clean ingest_base l4 d3) as (d4 & E4 & K4 & A4); [exact G4|apply K3|apply K3| |].
  { repeat (apply Forall_cons; split); [apply index_there; [|done]..|by constructor];
      intros c Hc; eapply has_column_grows; try exact G13; apply (Hscope (_, c)); unfold scope_columns; set_solver. }
  assert (Hall : Forall (fun s => achieved s d4) ingestDDL).
  { assert (G12 : grows d1 d2) by apply K2. assert (G23 : grows d2 d3) by apply K3. assert (G34 : grows d3 d4) by apply K4.
    rewrite Hsplit, !Forall_app. split_and!; [| | |done]; (eapply Forall_impl; [eassumption|]); intros s; apply achieved_grows; [|by eapply grows_trans|done].
    eapply grows_trans; [exact G12|]. by eapply grows_trans. }
  assert (K : kept ingest_base d d4).
  { split; [apply K4|]. split; [|apply K4]. eapply grows_trans; [exact G13|apply K4]. }
  exists d4. split; [|split; [exact K|split]].
  - rewrite Hsplit, (execute_each_app _ _ _ d1), (execute_each_app _ _ _ d2), (execute_each_app _ _ _ d3); done.
  - split.
    + intros name c Hin. apply (proj2 (proj2 K)); [exact Hin|]. apply elem_of_created, elem_of_tables in Hin as (cs & u & Hin).
      rewrite Forall_forall in Hall. apply list_elem_of_In, List.filter_In in Hin as [Hin _]. exact (Hall _ (proj2 (list_elem_of_In _ _) Hin)).
    + apply Forall_forall. intros s [Hin _]%list_elem_of_In%List.filter_In. rewrite Forall_forall in Hall. apply Hall. by apply list_elem_of_In.
  - exact (script_settled false ingestDDL d4 ltac:(repeat constructor) Hall).
Qed.
End ingest.

(** ** Starting over and over *)

(** What a hub does to its tables when it starts. *)
Definition sqlite_start : M database unit := let* _ := SQLiteSchema.Open in SQLiteSchema.InitializeIngest.
Definition postgres_start : M database unit := let* _ := PostgresSchema.Open in PostgresSchema.InitializeIngest.
(** Starts that may each fail at any statement. *)
Definition tried (start : M database unit) (runs : list faults) (d : database) : database :=
  fold_left (fun d fs => run_state start d fs) runs d.
(** The columns of the first version; the tables of [ingestDDL] and the trail
    have had one version only. *)
Definition original_columns : list (string * string) :=
  map (pair "metrics") ["id"; "timestamp"; "cpu_pct"; "mem_pct"; "disk_free_gb"; "net_sent_bytes"; "net_recv_bytes"] ++
  map (pair "processes") ["id"; "timestamp"; "pid"; "name"; "cpu_pct"; "mem_mb"] ++
  map (pair "audit_events") ["id"; "ts"; "tenant_id"; "actor_kind"; "actor_prefix"; "action"; "target_type"; "target_id"].
Definition start_base : list (string * string) := original_columns ++ ingest_base.

Definition upgrades_safely (start : M database unit) (tables : list ddl) : Prop :=
  forall d runs, db_ok d -> keeps_base start_base d ->
  let d1 := tried start runs d in
  db_ok d1 /\ grows d d1 /\
  exists d2, start d1 [] = (Ok tt, d2, []) /\ db_ok d2 /\ grows d1 d2 /\
    complete tables row_indexes d2 /\ complete ingest_tables ingest_indexes d2 /\ start d2 [] = (Ok tt, d2, []).

Lemma tried_kept base start runs d0 d : careful base start -> kept base d0 d -> kept base d0 (tried start runs d).
Proof. intros Hs. revert d. induction runs as [|fs runs IH]; intros d Hk; [done|]. simpl. by apply IH, Hs. Qed.
Lemma transaction_clean {A} (m : M database A) d a d' : m d [] = (Ok a, d', []) -> transaction m d [] = (Ok a, d', []).
Proof. intros E. unfold transaction, statement. by rewrite E. Qed.
Lemma labelled_clean msg (m : M database unit) d d' : m d [] = (Ok tt, d', []) -> labelled_as msg m d [] = (Ok tt, d', []).
Proof. intros E. unfold labelled_as, mbind, attempt. by rewrite E. Qed.
Lemma mbind_clean {A} (m : M database unit) (k : unit -> M database A) d d1 : m d [] = (Ok tt, d1, []) -> mbind m k d [] = k tt d1 [].
Proof. intros E. unfold mbind. by rewrite E. Qed.

Lemma upgrades `{Dialect} atomic open init tables alters :
  plan_ok tables alters row_indexes = true ->
  bool_decide (base_of tables alters ⊆ original_columns) = true ->
  forallb (good_statement start_base) (tables ++ alters ++ row_indexes) = true ->
  forallb (good_statement start_base) ingestDDL = true ->
  (forall p, p ∈ scope_columns -> (p.1, p.2) ∈ created tables) ->
  (forall base, careful base (migrate_with atomic tables alters row_indexes) -> careful base open) ->
  (forall base, careful base initializeIngest -> careful base init) ->
  (forall d d', migrate_with atomic tables alters row_indexes d [] = (Ok tt, d', []) -> open d [] = (Ok tt, d', [])) ->
  (forall d d', initializeIngest d [] = (Ok tt, d', []) -> init d [] = (Ok tt, d', [])) ->
  upgrades_safely (let* _ := open in init) tables.
Proof.
  intros Hplan Hbase%bool_decide_eq_true Hgood Hingest Hscope Copen Cinit Eopen Einit d runs Hd Hb d1. set (base := start_base) in *.
  assert (Hcare : careful base (let* _ := open in init)).
  { apply careful_mbind; [by apply Copen, careful_migrate|]. intros _. by apply Cinit, careful_each. }
  destruct (tried_kept base _ runs d d Hcare (conj Hd (conj (grows_refl d) Hb))) as (Hd1 & Hg1 & Hb1). fold d1 in Hd1, Hg1, Hb1.
  split; [done|]. split; [done|].
  destruct (migrate_clean tables alters row_indexes Hplan atomic d1 Hd1) as (d2 & E2 & (Hd2 & Hg2 & _) & Hc2 & S2).
  { eapply keeps_base_weaken; [|exact Hb1]. by apply list_subseteq_app_l. }
  assert (Hb2 : keeps_base base d2).
  { apply (careful_run base _ _ _ _ _ _ (Copen base (careful_migrate base atomic tables alters row_indexes Hgood)) Hd1 Hb1 (Eopen _ _ E2)). }
  destruct (ingest_clean d2 Hd2) as (d3 & E3 & (Hd3 & Hg3 & _) & Hc3 & R3).
  { eapply keeps_base_weaken; [|exact Hb2]. by apply list_subseteq_app_r. }
  { intros p Hp. apply Hc2. by apply Hscope. }
  exists d3. split; [by rewrite (mbind_clean _ _ _ d2), (Einit _ d3); [| |apply Eopen]|]. split; [done|]. split; [by eapply grows_trans|].
  split.
  { destruct Hc2 as [Hcols Hidx]. split; [intros name c Hin; by apply (has_column_grows d2), Hcols|].
    eapply Forall_impl; [exact Hidx|]. intros s. by apply achieved_grows. }
  split; [done|].
  rewrite (mbind_clean _ _ _ d3); [by apply Einit|]. apply Eopen, migrate_settled; [done|]. by eapply settled_grows.
Qed.

(** C30. Starting never loses data and always ends up complete.  For both
    backends and every database of an older version that obeys its
    constraints: however many starts broke off, at whatever statement and with
    whatever replies lost, every table, column, row and stored value is still
    there, and all constraints and indexes hold; the next start that meets no failure succeeds and leaves
    every column and index the program uses; and a further start changes
    nothing. *)
Theorem schema_upgrades_are_safe :
  upgrades_safely sqlite_start sqlite_tables /\ upgrades_safely postgres_start postgres_tables.
Proof.
  split.
  - apply (@upgrades sqlite false SQLiteSchema.Open SQLiteSchema.InitializeIngest sqlite_tables sqlite_alters); [vm_compute; reflexivity..| | | | |].
    + intros p Hp. repeat (apply elem_of_cons in Hp as [->|Hp]; [apply (bool_decide_unpack _); vm_compute; exact I|]). by apply not_elem_of_nil in Hp.
    + intros base Hc. by apply careful_labelled.
    + intros base Hc. by apply careful_transaction.
    + intros d d' E. by apply labelled_clean.
    + intros d d' E. by apply transaction_clean.
  - apply (@upgrades postgres true PostgresSchema.Open PostgresSchema.InitializeIngest postgres_tables postgres_alters); [vm_compute; reflexivity..| | | | |].
    + intros p Hp. repeat (apply elem_of_cons in Hp as [->|Hp]; [apply (bool_decide_unpack _); vm_compute; exact I|]). by apply not_elem_of_nil in Hp.
    + intros base Hc. apply careful_mbind; [apply careful_labelled, careful_query|intros _; by apply careful_labelled].
    + intros base Hc. apply careful_transaction, careful_mbind; [apply careful_query|done].
    + intros d d' E. exact (labelled_clean _ _ d d' E).
    + intros d d' E. apply transaction_clean. exact E.
Qed.

(** ** The credential table *)

(** A row of the table as the credential operations see it. *)
Record reads (r : row) (k : key_row) : Prop := {
  rd_hash : field r "key_hash" = VText (k_key_hash k);
  rd_tenant : field r "tenant_id" = VText (k_tenant_id k);
  rd_kind : field r "kind" = VText (k_kind k);
  rd_server : field r "server_id" = VText (k_server_id k);
  rd_revoked : field r "revoked_at" = VInt (k_revoked_at k)
}.
Definition agent_rule : uniqueness := {| uq_columns := ["tenant_id"; "server_id"]%string; uq_where := active_agents |}.
Lemma reads_agent r k : reads r k ->
  compared agent_rule r = (String.eqb (k_kind k) KindAgent && (k_revoked_at k =? 0) && negb (is_empty (k_server_id k))) /\
  index_key agent_rule r = [VText (k_tenant_id k); VText (k_server_id k)].
Proof.
  intros [Hh Ht Hk Hs Hr]. assert (Hkey : index_key agent_rule r = [VText (k_tenant_id k); VText (k_server_id k)])
    by (unfold index_key; simpl; by rewrite Ht, Hs).
  split; [|done]. unfold compared. rewrite Hkey. simpl. rewrite Hk, Hs, Hr, !andb_true_r.
  assert (Et : forall a b, bool_decide (VText a = VText b) = String.eqb a b).
  { intros a b. destruct (String.eqb_spec a b) as [->|Hn]; [by rewrite bool_decide_eq_true_2|]. apply bool_decide_eq_false_2. congruence. }
  assert (En : bool_decide (VInt (k_revoked_at k) = VInt 0) = (k_revoked_at k =? 0)).
  { destruct (Z.eqb_spec (k_revoked_at k) 0) as [->|Hn]; [done|]. apply bool_decide_eq_false_2. congruence. }
  rewrite !Et, En, (bool_decide_eq_false_2 (VText (k_server_id k) = VNull)), andb_assoc by done. simpl. by destruct (k_server_id k).
Qed.
Lemma reads_hash r k : reads r k ->
  compared (key_on ["key_hash"]%string) r = true /\ index_key (key_on ["key_hash"]%string) r = [VText (k_key_hash k)].
Proof.
  intros [Hh _ _ _ _]. assert (Hkey : index_key (key_on ["key_hash"]%string) r = [VText (k_key_hash k)]) by (unfold index_key; simpl; by rewrite Hh).
  split; [|done]. unfold compared. by rewrite Hkey.
Qed.
Lemma count_once {A} `{EqDecision A} (x : A) l : NoDup l -> (length (List.filter (fun y => bool_decide (y = x)) l) <= 1)%nat.
Proof.
  induction 1 as [|y l Hy _ IH]; simpl; [lia|]. destruct (bool_decide_reflect (y = x)) as [->|]; [|done]. simpl.
  assert (Hnil : List.filter (fun y => bool_decide (y = x)) l = []); [|rewrite Hnil; simpl; lia].
  clear IH. induction l as [|z l IH]; [done|]. apply not_elem_of_cons in Hy as [Hn Hy]. simpl. rewrite bool_decide_eq_false_2 by done. by apply IH.
Qed.
(** The unique index is the rule of one active agent, and the unique hash that
    of unique hashes. *)
Lemma rules_mean_auth_ok rows ks :
  satisfied agent_rule rows = true -> satisfied (key_on ["key_hash"]%string) rows = true -> Forall2 reads rows ks ->
  hashes_unique ks /\ at_most_one_agent ks.
Proof.
  unfold satisfied. intros Ha%bool_decide_eq_true Hh%bool_decide_eq_true Hks. split.
  - assert (Hm : map (index_key (key_on ["key_hash"]%string)) (List.filter (compared (key_on ["key_hash"]%string)) rows) =
      map (fun h => [VText h]) (map k_key_hash ks)).
    { clear Ha Hh. induction Hks as [|r k rows ks Hr _ IH]; [done|]. destruct (reads_hash r k Hr) as [Hc Hk]. simpl. rewrite Hc. simpl.
      by rewrite Hk, IH. }
    rewrite Hm in Hh. by apply NoDup_fmap_1 in Hh.
  - intros tenant server Hserver. etrans; [|apply (count_once [VText tenant; VText server] _ Ha)]. clear Ha Hh.
    induction Hks as [|r k rows ks Hr _ IH]; [done|]. destruct (reads_agent r k Hr) as [Hc Hk]. simpl. rewrite Hc.
    destruct (active_at tenant server k) eqn:Eact.
    + unfold active_at in Eact. rewrite !andb_true_iff in Eact. destruct Eact as [[[Et Es] Ekind] Erev].
      apply String.eqb_eq in Et as <-. apply String.eqb_eq in Es as <-. rewrite Ekind, Erev.
      assert (is_empty (k_server_id k) = false) as -> by (by destruct (k_server_id k)). simpl. rewrite Hk, bool_decide_eq_true_2 by done. simpl. lia.
    + destruct (_ && _); [|done]. simpl. destruct (bool_decide _); simpl; lia.
Qed.

(** The objects of these names, where they exist, are those the program made. *)
Record own_rules (d : database) : Prop := {
  or_index : forall x, db_indexes d !! "idx_api_keys_one_active_agent"%string = Some x -> x = one_active_agent_index;
  or_hash : forall t, db_tables d !! "api_keys"%string = Some t -> key_on ["key_hash"]%string ∈ tb_unique t
}.
Definition own_statement (s : ddl) : bool :=
  match s with
  | CreateTable name _ unique => negb (String.eqb name "api_keys") || existsb (fun u => bool_decide (uq_columns u = ["key_hash"]%string /\ uq_where u = [])) unique
  | CreateIndex name x => negb (String.eqb name "idx_api_keys_one_active_agent") ||
      bool_decide (ix_table x = "api_keys"%string /\ ix_columns x = ["tenant_id"; "server_id"]%string /\ ix_unique x = Some active_agents)
  | _ => true
  end.

Section rules.
Context `{Dialect}.
Lemma own_exec s d d' : own_statement s = true -> own_rules d -> exec_ddl s d = Ok (tt, d') -> own_rules d'.
Proof.
  intros Hs [Oi Oh] He. destruct s as [name columns unique|ine name c|name x|name r conflict]; simpl in Hs, He.
  - destruct (db_tables d !! name) eqn:El; injection He as <-; [done|]. split; [exact Oi|]. intros t Ht. simpl in Ht.
    apply lookup_insert_Some in Ht as [[-> <-]|[_ Ht]]; [|by apply Oh]. simpl in Hs |- *. apply existsb_exists in Hs as (u & Hin & Hu%bool_decide_eq_true).
    destruct u as [cols w], Hu as [Hc Hw]. simpl in Hc, Hw. subst. by apply list_elem_of_In.
  - destruct (db_tables d !! name) as [t|] eqn:El; [|done]. destruct (bool_decide (_ ∈ _)); [destruct ine; [by injection He as <-|done]|].
    destruct (_ && _); [done|]. injection He as <-. split; [exact Oi|]. intros t' Ht. simpl in Ht.
    apply lookup_insert_Some in Ht as [[-> <-]|[_ Ht]]; [exact (Oh t El)|by apply Oh].
  - assert (Hput : own_rules (put_index name x d)).
    { split; [|exact Oh]. intros y Hy. simpl in Hy. apply lookup_insert_Some in Hy as [[-> <-]|[_ Hy]]; [|by apply Oi].
      simpl in Hs. apply bool_decide_eq_true in Hs as (Hx1 & Hx2 & Hx3). destruct x as [xt xc xu]. simpl in Hx1, Hx2, Hx3. by subst. }
    destruct (db_indexes d !! name); [by injection He as <-|]. destruct (db_tables d !! ix_table x); [|done].
    destruct (missing_column _ _); [done|]. destruct (ix_unique x); [destruct (satisfied _ _); [|done]|]; by injection He as <-.
  - destruct (db_tables d !! name) as [t|] eqn:El; [|done]. destruct (missing_column _ _); [done|].
    destruct (acceptable _ _ _ _).
    + injection He as <-. split; [exact Oi|]. intros t' Ht. simpl in Ht.
      apply lookup_insert_Some in Ht as [[-> <-]|[_ Ht]]; [exact (Oh t El)|by apply Oh].
    + destruct conflict; [destruct (_ && _); [|done]|]; by injection He as <-.
Qed.
Lemma statement_effect {S A} (f : S -> result error (A * S)) s fs a s' fs' :
  statement f s fs = (Ok a, s', fs') -> f s = Ok (a, s').
Proof. unfold statement. intros E. repeat (case_match; simplify_eq); done. Qed.
Lemma last_statement l s d fs d' fs' : execute_each (l ++ [s]) d fs = (Ok tt, d', fs') -> achieved s d'.
Proof.
  revert d fs. induction l as [|x l IH]; intros d fs E; apply mbind_ok in E as ([] & d1 & fs1 & E1 & E2).
  - unfold execute in E1. apply statement_effect, exec_achieves in E1. simpl in E2. unfold ret in E2. by simplify_eq.
  - by eapply IH.
Qed.
End rules.

(** What [ensureAPIKeys] guarantees, given how it creates and upgrades. *)
Definition keys_constrained (create : M database unit) : Prop :=
  forall s fs r s' fs', so_init s = None -> db_ok (so_db s) -> own_rules (so_db s) ->
  ensureAPIKeyTable create s fs = (r, s', fs') ->
  db_ok (so_db s') /\ grows (so_db s) (so_db s') /\
  (forall gs, ensureAPIKeyTable create s' gs = (r, s', gs)) /\
  (r = Ok tt -> exists t, db_tables (so_db s') !! "api_keys"%string = Some t /\
     forall d : auth_db, Forall2 reads (tb_rows t) (t_keys d) -> auth_ok d).

Lemma index_is_rule d : db_ok d -> own_rules d -> is_Some (db_indexes d !! "idx_api_keys_one_active_agent"%string) ->
  exists t, db_tables d !! "api_keys"%string = Some t /\ forall d : auth_db, Forall2 reads (tb_rows t) (t_keys d) -> auth_ok d.
Proof.
  intros Hd [Oi Oh] [x Hx]. pose proof (Oi x Hx) as ->. destruct (dk_indexes d Hd _ _ Hx) as (t & Ht & _). exists t. split; [exact Ht|].
  intros db Hks. destruct (dk_tables d Hd _ _ Ht) as [_ _ Hu]. apply rules_mean_auth_ok with (rows := tb_rows t); [..|exact Hks].
  - apply Hu, elem_of_constraints. right. exists "idx_api_keys_one_active_agent"%string, one_active_agent_index. done.
  - apply Hu, elem_of_constraints. left. by apply Oh.
Qed.
(** The last statement of both is the unique index. *)
Lemma constrained `{Dialect} create last :
  (forall d fs d' fs', create d fs = (Ok tt, d', fs') -> exists d1 fs1,
     execute_each (last ++ [CreateIndex "idx_api_keys_one_active_agent" one_active_agent_index]) d1 fs1 = (Ok tt, d', fs')) ->
  (forall d0, preserves (fun d => kept [] d0 d /\ own_rules d) create) -> keys_constrained create.
Proof.
  intros Hcreate Hkeeps s fs r s' fs' Hinit Hd Hown E. unfold ensureAPIKeyTable, inspect in E. rewrite Hinit in E.
  destruct s as [d i]. simpl in *. subst i. unfold mbind, attempt, modify, lift, on_db, zoom in E. simpl in E.
  destruct (create d fs) as [[r1 d1] fs1] eqn:E1. injection E as <- <- <-.
  assert (Hk : kept [] d d1 /\ own_rules d1).
  { specialize (Hkeeps d d fs). unfold run_state in Hkeeps. rewrite E1 in Hkeeps. apply Hkeeps. split; [|done].
    split; [done|]. split; [apply grows_refl|]. intros name c Hin. by apply not_elem_of_nil in Hin. }
  destruct Hk as [(Hd1 & Hg1 & _) Hown1]. split; [done|]. split; [done|]. split; [done|]. intros ->.
  apply index_is_rule; [done..|]. apply Hcreate in E1 as (d2 & fs2 & E2). exact (last_statement last _ d2 fs2 d1 fs1 E2).
Qed.
(** Both invariants at once. *)
Definition own_good (s : ddl) : bool := good_statement [] s && own_statement s.
Lemma own_good_exec `{Dialect} d0 s d d' :
  own_good s = true -> kept [] d0 d /\ own_rules d -> exec_ddl s d = Ok (tt, d') -> kept [] d0 d' /\ own_rules d'.
Proof. intros [Hg Ho]%andb_true_iff [Hk Hr] He. split; [by eapply kept_exec|by eapply own_exec]. Qed.

(** C31. Credentials are used only behind their constraints.  For both backends
    and every database in which the objects of these names are the program's
    own: whatever fails when the credential table is first needed, no stored
    value is lost; that first outcome is final - every later call returns it
    and changes nothing; and when it is a success, the table exists with the
    two unique indexes in force, so that the credentials read from it have
    unique hashes and at most one active agent per server, which is what every
    theorem about enrollment starts from. *)
Theorem credentials_are_constrained seen :
  keys_constrained (SQLiteSchema.create_keys seen) /\ keys_constrained PostgresSchema.create_keys.
Proof.
  split.
  - apply (@constrained sqlite _ (take 3 (enrollment_statements "INTEGER" None))).
    + intros d fs d' fs' E. apply mbind_ok in E as ([] & d1 & fs1 & _ & E). apply mbind_ok in E as (cols & d2 & fs2 & _ & E).
      apply mbind_ok in E as ([] & d3 & fs3 & _ & E). apply mbind_ok in E as ([] & d4 & fs4 & _ & E). by exists d4, fs4.
    + intros d0. pose proof (@own_good_exec sqlite d0) as Hexec. apply preserves_mbind.
      { apply labelled_keeps, (script_keeps _ own_good Hexec). vm_compute. reflexivity. }
      intros _. apply preserves_mbind; [apply preserves_query|]. intros cols. apply preserves_mbind.
      { apply (add_missing_keeps _ own_good); [exact Hexec|vm_compute; reflexivity]. }
      intros _. apply preserves_mbind; [apply (ignoring_keeps _ own_good Hexec); vm_compute; reflexivity|].
      intros _. apply (each_keeps _ own_good Hexec). vm_compute. reflexivity.
  - apply (@constrained postgres _ (take 3 (enrollment_statements "BIGINT" (Some ["id"%string])))).
    + intros d fs d' fs' E. apply mbind_ok in E as ([] & d1 & fs1 & _ & E). apply mbind_ok in E as ([] & d2 & fs2 & _ & E). by exists d2, fs2.
    + intros d0. pose proof (@own_good_exec postgres d0) as Hexec. apply preserves_mbind.
      { apply labelled_keeps, (script_keeps _ own_good Hexec). vm_compute. reflexivity. }
      intros _. apply preserves_mbind; [apply labelled_keeps, (each_keeps _ own_good Hexec); vm_compute; reflexivity|].
      intros _. apply (each_keeps _ own_good Hexec). vm_compute. reflexivity.
Qed.

Module SampleSchema.
(** The first version of the metrics table, with a row. *)
Definition old_row : row := {["id" := VInt 1; "timestamp" := VInt 100; "cpu_pct" := VReal0; "mem_pct" := VReal0; "disk_free_gb" := VReal0;
  "net_sent_bytes" := VInt 5; "net_recv_bytes" := VInt 7]}.
Definition old_table : table :=
  {| tb_columns := [col "id" "INTEGER" true None; col "timestamp" "INTEGER" true None; col "cpu_pct" "REAL" true None; col "mem_pct" "REAL" true None;
       col "disk_free_gb" "REAL" true None; col "net_sent_bytes" "INTEGER" true None; col "net_recv_bytes" "INTEGER" true None];
     tb_unique := [key_on ["id"]]; tb_rows := [old_row] |}.
Definition old : database := {| db_tables := {["metrics" := old_table]}; db_indexes := ∅ |}.
(** The first start loses its connection at the fifth statement. *)
Definition broken : faults := [None; None; None; None; Some (Lost {| err_msg := "disk I/O error"; err_code := empty_str |})].
(** The first version of the credential table, with a key. *)
Definition old_key : row := {["id" := VInt 1; "key_hash" := VText "#one"; "tenant_id" := VText "t_acme"; "client_name" := VText "Acme";
  "created_at" := VInt 100; "last_seen_at" := VInt 0; "revoked_at" := VInt 0]}.
Definition old_keys : table :=
  {| tb_columns := [col "id" "INTEGER" true None; col "key_hash" "TEXT" true None; col "tenant_id" "TEXT" true None; col "client_name" "TEXT" true empty_text;
       col "created_at" "INTEGER" true None; col "last_seen_at" "INTEGER" true zero_int; col "revoked_at" "INTEGER" true zero_int];
     tb_unique := [key_on ["id"]; key_on ["key_hash"]]; tb_rows := [old_key] |}.
Definition key_store : store := {| so_db := {| db_tables := {["api_keys" := old_keys]}; db_indexes := ∅ |}; so_init := None |}.
Definition read_back : key_row :=
  {| k_id := 1; k_key_hash := "#one"; k_tenant_id := "t_acme"; k_client_name := "Acme"; k_kind := KindLegacy; k_scope := ScopeAll;
     k_key_prefix := EmptyString; k_expires_at := 0; k_max_uses := 0; k_uses := 0; k_server_id := EmptyString; k_issued_by := EmptyString;
     k_created_at := 100; k_last_seen_at := 0; k_revoked_at := 0 |}.
(** A database of one table without indexes obeys its constraints. *)
Lemma one_table_ok name t :
  bool_decide (NoDup (column_names t)) && forallb (fun r => null_free t r && bool_decide (dom r ⊆ list_to_set (column_names t))) (tb_rows t) &&
    forallb (fun u => bool_decide (mentions u ⊆ column_names t) && satisfied u (tb_rows t)) (tb_unique t) = true ->
  db_ok {| db_tables := {[name := t]}; db_indexes := ∅ |}.
Proof.
  rewrite !andb_true_iff, !forallb_forall. intros [[Hn%bool_decide_eq_true Hr] Hu]. split.
  - intros n t' Ht. simpl in Ht. apply lookup_singleton_Some in Ht as [<- <-]. split; [done| |].
    + apply Forall_forall. intros r Hin%list_elem_of_In. specialize (Hr r Hin). apply andb_true_iff in Hr as [Hnull Hd%bool_decide_eq_true].
      split; [|done]. intros c Hc%elem_of_dom. by apply Hd, elem_of_list_to_set in Hc.
    + intros u [Hin|(k & x & Hx & _)]%elem_of_constraints; [|simpl in Hx; by rewrite lookup_empty in Hx].
      specialize (Hu u (proj1 (list_elem_of_In _ _) Hin)). apply andb_true_iff in Hu as [Hm%bool_decide_eq_true Hs]. done.
  - intros k x Hx. simpl in Hx. by rewrite lookup_empty in Hx.
Qed.
Lemma old_ok : db_ok old.
Proof. apply one_table_ok. vm_compute. reflexivity. Qed.
Lemma key_store_ok : db_ok (so_db key_store).
Proof. apply one_table_ok. vm_compute. reflexivity. Qed.
Lemma key_store_own : own_rules (so_db key_store).
Proof.
  split; [intros x Hx; simpl in Hx; by rewrite lookup_empty in Hx|]. intros t Ht. simpl in Ht. apply lookup_singleton_Some in Ht as [_ <-].
  apply list_elem_of_further, list_elem_of_here.
Qed.
(** The row after the upgrade. *)
Definition new_key : row := old_key ∪ {["kind" := VText KindLegacy; "scope" := VText ScopeAll; "key_prefix" := VText EmptyString;
  "expires_at" := VInt 0; "max_uses" := VInt 0; "uses" := VInt 0; "server_id" := VText EmptyString; "issued_by" := VText EmptyString]}.
Definition reading : auth_db := {| t_keys := [read_back]; t_next_id := 2; t_handshakes := []; t_epoch := 0; t_epoch_at := 0 |}.
Lemma old_base : keeps_base start_base old.
Proof.
  intros name c Hin [t Ht]. simpl in Ht. apply lookup_singleton_Some in Ht as [<- <-]. exists old_table. split; [reflexivity|].
  assert (Hall : forallb (fun p => negb (String.eqb p.1 "metrics") || bool_decide (p.2 ∈ column_names old_table)) start_base = true)
    by (vm_compute; reflexivity).
  rewrite forallb_forall in Hall. specialize (Hall _ (proj1 (list_elem_of_In _ _) Hin)). by apply bool_decide_eq_true in Hall.
Qed.
End SampleSchema.
Lemma schema_upgrades_are_safe_witness :
  is_ok (run_result SQLiteSchema.Open SampleSchema.old SampleSchema.broken) = true /\
  let d1 := tried sqlite_start [SampleSchema.broken] SampleSchema.old in
  exists d2, sqlite_start d1 [] = (Ok tt, d2, []) /\ has_column d2 "metrics" "net_mbps" /\
    exists t r, db_tables d2 !! "metrics" = Some t /\ r ∈ tb_rows t /\ SampleSchema.old_row ⊆ r.
Proof.
  split; [vm_compute; reflexivity|]. intros d1.
  destruct (proj1 schema_upgrades_are_safe SampleSchema.old [SampleSchema.broken] SampleSchema.old_ok SampleSchema.old_base)
    as (_ & G1 & d2 & E2 & _ & G2 & C2 & _).
  exists d2. split; [exact E2|]. split; [apply C2; apply (bool_decide_unpack _); vm_compute; exact I|].
  destruct (proj1 G1 "metrics" SampleSchema.old_table) as (t1 & Ht1 & T1); [reflexivity|]. destruct (proj1 G2 _ _ Ht1) as (t2 & Ht2 & T2).
  destruct (table_grows_trans _ _ _ T1 T2) as [_ _ (o & n & Hr & Hf)]. exists t2.
  inversion Hf as [|? r ? ? Hsub]; subst. exists r. split; [exact Ht2|]. split; [rewrite Hr; constructor|exact Hsub].
Defined.

Lemma credentials_are_constrained_witness :
  let run := SQLiteSchema.ensureAPIKeys 100 SampleSchema.key_store [] in
  run.1.1 = Ok tt /\ tb_rows <$> db_tables (so_db run.1.2) !! "api_keys"%string = Some [SampleSchema.new_key] /\ auth_ok SampleSchema.reading.
Proof.
  intros run. split; [vm_compute; reflexivity|].
  assert (Hrows : tb_rows <$> db_tables (so_db run.1.2) !! "api_keys"%string = Some [SampleSchema.new_key]) by (vm_compute; reflexivity).
  split; [exact Hrows|].
  destruct (proj1 (credentials_are_constrained 100) SampleSchema.key_store [] run.1.1 run.1.2 run.2 eq_refl SampleSchema.key_store_ok
    SampleSchema.key_store_own (eq_trans (surjective_pairing run) (f_equal (fun x => (x, run.2)) (surjective_pairing run.1))))
    as (_ & _ & _ & Hready).
  destruct Hready as (t & Ht & Hauth); [vm_compute; reflexivity|]. rewrite Ht in Hrows. injection Hrows as Hrows. apply Hauth. rewrite Hrows.
  constructor; [|constructor]. split; vm_compute; reflexivity.
Defined.

(** ** What the migrations do not tell *)

(** The comment of [migrate] says that errors are ignored because the columns
    already exist, but every error is: a start whose [ALTER] failed reports
    success without the column, and inserts of metrics fail until the next
    start. *)
Example open_may_leave_a_column_out :
  let fails := {| err_msg := "database is locked"; err_code := empty_str |} in
  let run := SQLiteSchema.Open SampleSchema.old (replicate 10 None ++ [Some (Fail_ fails)]) in
  run.1.1 = Ok tt /\
  (fun t => (bool_decide ("net_mbps" ∈ column_names t), bool_decide ("concurrent_users" ∈ column_names t))) <$> db_tables run.1.2 !! "metrics"%string
    = Some (false, true).
Proof. vm_compute. split; reflexivity. Qed.
(** One failure of a statement when the credential table is first needed
    disables every credential operation until the program is restarted. *)
Example first_failure_is_final :
  let fails := {| err_msg := "database is locked"; err_code := empty_str |} in
  let first := SQLiteSchema.ensureAPIKeys 100 SampleSchema.key_store [Some (Fail_ fails)] in
  first.1.1 = Err (EWrap "create api_keys table" (EDb fails)) /\
  (SQLiteSchema.ensureAPIKeys 100 first.1.2 []).1.1 = Err (EWrap "create api_keys table" (EDb fails)) /\
  (SQLiteSchema.ensureAPIKeys 100 SampleSchema.key_store []).1.1 = Ok tt.
Proof. vm_compute. split; [|split]; reflexivity. Qed.
