(* ===== verification/Report.v ===== *)
(** * The documents a report is written as ([export/export.go], [export/report.go])

    The text of the CSV, plain-text and HTML reports, and the files they are
    written to.  [encoding/csv] and [html/template] are modelled as far as the
    code uses them: the quoting of a field, and the escaping of a value in the
    text of an element. *)

From S2P Require Export Export AgentRun.
Open Scope list_scope.
Open Scope Z_scope.

(** ** The text of a CSV document *)

Definition quote_char : ascii := chr 34.
Definition csv_special (c : ascii) : bool := mem_char c (bytes [44; 34; 13; 10]%N). (* , quote CR LF *)
(** [fieldNeedsQuotes] of [encoding/csv] *)
Definition needs_quotes (field : string) : bool :=
  negb (is_empty field) &&
  (String.eqb field (bytes [92; 46]%N) || negb (string_forall (fun c => negb (csv_special c)) field) ||
   existsb (fun space => String.prefix space field) space_encodings).
Fixpoint double_quotes (s : string) : string :=
  match s with
  | EmptyString => EmptyString
  | String c s => if Ascii.eqb c quote_char then String quote_char (String quote_char (double_quotes s)) else String c (double_quotes s)
  end.
Definition csv_field (field : string) : string :=
  if needs_quotes field then String quote_char (double_quotes field) +:+ String quote_char EmptyString else field.
Fixpoint csv_fields (r : record) : string :=
  match r with
  | [] => EmptyString
  | [field] => csv_field field
  | field :: r => csv_field field +:+ "," +:+ csv_fields r
  end.
Definition line_end : string := bytes [10]%N.
Definition csv_text (records : list record) : string := fold_right (fun r s => csv_fields r +:+ line_end +:+ s) EmptyString records.

(** ** The text of an HTML document *)

(** A piece of a template: its own text, or a value. *)
Inductive piece := T (markup : string) | V (value : string).
(** [htmlReplacementTable] of [html/template] *)
Definition html_entity (c : ascii) : string :=
  let n := code c in
  if n =? 0 then bytes [239; 191; 189]%N (* U+FFFD *)
  else if n =? 34 then "&#34;"
  else if n =? 38 then "&amp;"
  else if n =? 39 then "&#39;"
  else if n =? 43 then "&#43;"
  else if n =? 60 then "&lt;"
  else if n =? 62 then "&gt;"
  else String c EmptyString.
Fixpoint html_escape (s : string) : string :=
  match s with EmptyString => EmptyString | String c s => html_entity c +:+ html_escape s end.
(** The template's text is written with a backquote, which it does not
    contain, for a double quote. *)
Fixpoint unquoted (s : string) : string :=
  match s with
  | EmptyString => EmptyString
  | String c s => String (if Ascii.eqb c "`" then quote_char else c) (unquoted s)
  end.
Definition render (p : piece) : string := match p with T markup => unquoted markup | V value => html_escape value end.
Definition page_text (page : list piece) : string := fold_right (fun p s => render p +:+ s) EmptyString page.

(** *** The data of the template *)

Record htmlReportData := {
  hd_Period : string; hd_Generated : string; hd_BaselineTitle : string; hd_CPULabel : string; hd_MemLabel : string;
  hd_SampleCount : Z; hd_FleetServers : Z;
  hd_ShowFleet : bool;
  hd_CPUCores : Z;
  hd_MemTotalGB : float64; hd_DiskTotalGB : float64;
  hd_AvgCPU : float64; hd_PeakCPU : float64; hd_AvgMem : float64; hd_PeakMem : float64; hd_MinDiskFreeGB : float64;
  hd_MinDiskIOPS : float64; hd_AvgDiskIOPS : float64; hd_PeakDiskIOPS : float64;
  hd_TotalNetSentGB : float64; hd_TotalNetRecvGB : float64; hd_PeakNetMBps : float64;
  hd_MinUsers : Z; hd_MaxUsers : Z;
  hd_AvgUsers : float64;
  hd_Servers : list ServerSummary;
  hd_MinCPU : Z; hd_RecCPU : Z; hd_MinIOPS : Z; hd_RecIOPS : Z;
  hd_MinRAM : float64; hd_MinDisk : float64; hd_MinNet : float64;
  hd_RecRAM : float64; hd_RecDisk : float64; hd_RecNet : float64
}.
(** [t.UTC().Format(time.RFC3339)] *)
Definition FormatRFC3339 (t : Z) : string :=
  let '(y, m, d) := civil_date (utc_day t) in
  let s := Unix t `mod` 86400 in
  let two v := pad_left 2 (Itoa v) in
  pad_left 4 (Itoa y) +:+ "-" +:+ two m +:+ "-" +:+ two d +:+ "T" +:+ two (s / 3600) +:+ ":" +:+
  two ((s / 60) `mod` 60) +:+ ":" +:+ two (Unix t `mod` 60) +:+ "Z".
Definition gigabytes (bytes : Z) : float64 := fdiv (f_of_Z bytes) (f_of_Z (1024 * 1024 * 1024)).
Definition html_data (r : AssessmentReport) (now : Z) : htmlReportData :=
  let s := ar_Summary r in
  let sg := sm_Suggested s in
  let fleet := 1 <? sm_FleetServerCount s in
  {| hd_Period := sm_Period s; hd_Generated := FormatRFC3339 now;
     hd_BaselineTitle := if fleet then "Fleet Baseline (" +:+ Itoa (sm_FleetServerCount s) +:+ " Servers)" else "System Baseline";
     hd_CPULabel := if fleet then "CPU Usage (Fleet %)" else "CPU Usage";
     hd_MemLabel := if fleet then "Memory Usage (Fleet %)" else "Memory Usage";
     hd_SampleCount := ar_SampleCount r; hd_FleetServers := sm_FleetServerCount s; hd_ShowFleet := fleet;
     hd_CPUCores := sm_CPUCores s; hd_MemTotalGB := sm_MemTotalGB s; hd_DiskTotalGB := sm_DiskTotalGB s;
     hd_AvgCPU := sm_AvgCPU s; hd_PeakCPU := sm_PeakCPU s; hd_AvgMem := sm_AvgMem s; hd_PeakMem := sm_PeakMem s;
     hd_MinDiskFreeGB := sm_MinDiskFreeGB s;
     hd_MinDiskIOPS := sm_MinDiskIOPS s; hd_AvgDiskIOPS := sm_AvgDiskIOPS s; hd_PeakDiskIOPS := sm_PeakDiskIOPS s;
     hd_TotalNetSentGB := gigabytes (sm_TotalNetSentBytes s); hd_TotalNetRecvGB := gigabytes (sm_TotalNetRecvBytes s);
     hd_PeakNetMBps := sm_PeakNetMBps s;
     hd_MinUsers := sm_MinConcurrentUsers s; hd_MaxUsers := sm_MaxConcurrentUsers s; hd_AvgUsers := sm_AvgConcurrentUsers s;
     hd_Servers := ar_Servers r;
     hd_MinCPU := sg_MinCPU sg; hd_RecCPU := sg_RecCPU sg; hd_MinIOPS := sg_MinIOPS sg; hd_RecIOPS := sg_RecIOPS sg;
     hd_MinRAM := sg_MinRAM sg; hd_MinDisk := sg_MinDiskGB sg; hd_MinNet := sg_MinNetMBps sg;
     hd_RecRAM := sg_RecRAM sg; hd_RecDisk := sg_RecDiskGB sg; hd_RecNet := sg_RecNetMBps sg |}.

(** *** The template, [assessmentHTMLSrc] *)

Definition html_head (d : htmlReportData) : list piece :=
  [T "<!DOCTYPE html>
<html lang=`en`>
<head>
<meta charset=`UTF-8`>
<meta name=`viewport` content=`width=device-width, initial-scale=1.0`>
<meta http-equiv=`Content-Security-Policy` content=`default-src 'none'; style-src 'unsafe-inline'; img-src 'none'; script-src 'none'; object-src 'none'; base-uri 'none'; form-action 'none'; frame-ancestors 'none'`>
<title>W-Monitor Assessment Report — ";
   V (hd_Period d);
   T "</title>
<style>
  :root {
    --primary: #1e40af;
    --accent:  #3b82f6;
    --bg:      #f8fafc;
    --card:    #ffffff;
    --border:  #e2e8f0;
    --text:    #1e293b;
    --muted:   #64748b;
  }
  * { box-sizing: border-box; margin: 0; padding: 0; }
  body { font-family: 'Segoe UI', system-ui, sans-serif; background: var(--bg); color: var(--text); padding: 2rem; }
  .header { background: linear-gradient(135deg, var(--primary), var(--accent)); color: #fff; border-radius: 12px; padding: 2rem; margin-bottom: 2rem; }
  .header h1 { font-size: 1.75rem; font-weight: 700; }
  .header p  { opacity: 0.85; margin-top: 0.5rem; }
  .grid { display: grid; grid-template-columns: repeat(auto-fill, minmax(280px, 1fr)); gap: 1rem; margin-bottom: 2rem; }
  .card { background: var(--card); border: 1px solid var(--border); border-radius: 10px; padding: 1.5rem; }
  .card h2 { font-size: 0.75rem; font-weight: 600; color: var(--muted); text-transform: uppercase; letter-spacing: .05em; margin-bottom: 1rem; }
  .metric { display: flex; justify-content: space-between; align-items: center; padding: 0.35rem 0; border-bottom: 1px solid var(--border); }
  .metric:last-child { border-bottom: none; }
  .metric .label { color: var(--muted); font-size: 0.875rem; }
  .metric .value { font-weight: 600; }
  .specs-table { width: 100%; border-collapse: collapse; margin-top: 1rem; overflow-x: auto; }
  .specs-table th { background: var(--primary); color: #fff; padding: 0.75rem 1rem; text-align: left; font-size: 0.8rem; white-space: nowrap; }
  .specs-table td { padding: 0.65rem 1rem; border-bottom: 1px solid var(--border); font-size: 0.875rem; white-space: nowrap; }
  .specs-table tr:nth-child(even) td { background: var(--bg); }
  .section { background: var(--card); border: 1px solid var(--border); border-radius: 10px; padding: 1.5rem; margin-bottom: 1.5rem; overflow-x: auto; }
  .section h2 { font-size: 1rem; font-weight: 700; margin-bottom: 1rem; color: var(--primary); }
  .footer { text-align: center; color: var(--muted); font-size: 0.8rem; margin-top: 2rem; }
  @media print { body { padding: 0; } .header { border-radius: 0; } }
</style>
</head>
<body>
<div class=`header`>
  <h1>W-Monitor — Pre-Migration Assessment Report</h1>
  <p>Period: ";
   V (hd_Period d);
   T " | Samples: ";
   V (Itoa (hd_SampleCount d));
   T " | Generated: ";
   V (hd_Generated d);
   T "</p>
</div>
"].
Definition html_cards (d : htmlReportData) : list piece :=
  [T "<div class=`grid`>
  <div class=`card`>
    <h2>";
   V (hd_BaselineTitle d);
   T "</h2>
    "] ++
  (if hd_ShowFleet d then [T "<div class=`metric`><span class=`label`>Servers</span><span class=`value`>";
   V (Itoa (hd_FleetServers d));
   T "</span></div>"] else []) ++
  [T "
    <div class=`metric`><span class=`label`>"] ++
  (if hd_ShowFleet d then [T "Total vCPUs"] else [T "vCPUs"]) ++
  [T "</span><span class=`value`>";
   V (Itoa (hd_CPUCores d));
   T "</span></div>
    <div class=`metric`><span class=`label`>"] ++
  (if hd_ShowFleet d then [T "Total RAM"] else [T "Total RAM"]) ++
  [T "</span><span class=`value`>";
   V (FormatF 1 (hd_MemTotalGB d) +:+ " GB");
   T "</span></div>
    <div class=`metric`><span class=`label`>"] ++
  (if hd_ShowFleet d then [T "Total Disk"] else [T "Total Disk"]) ++
  [T "</span><span class=`value`>";
   V (FormatF 1 (hd_DiskTotalGB d) +:+ " GB");
   T "</span></div>
  </div>
  <div class=`card`>
    <h2>";
   V (hd_CPULabel d);
   T "</h2>
    <div class=`metric`><span class=`label`>Average</span><span class=`value`>";
   V (FormatF 2 (hd_AvgCPU d) +:+ "%");
   T "</span></div>
    <div class=`metric`><span class=`label`>Peak</span><span class=`value`>";
   V (FormatF 2 (hd_PeakCPU d) +:+ "%");
   T "</span></div>
  </div>
  <div class=`card`>
    <h2>";
   V (hd_MemLabel d);
   T "</h2>
    <div class=`metric`><span class=`label`>Average</span><span class=`value`>";
   V (FormatF 2 (hd_AvgMem d) +:+ "%");
   T "</span></div>
    <div class=`metric`><span class=`label`>Peak</span><span class=`value`>";
   V (FormatF 2 (hd_PeakMem d) +:+ "%");
   T "</span></div>
    <div class=`metric`><span class=`label`>Min Free Disk</span><span class=`value`>";
   V (FormatF 2 (hd_MinDiskFreeGB d) +:+ " GB");
   T "</span></div>
  </div>
  <div class=`card`>
    <h2>Disk IOPS</h2>
    <div class=`metric`><span class=`label`>Minimum</span><span class=`value`>";
   V (FormatF 1 (hd_MinDiskIOPS d));
   T "</span></div>
    <div class=`metric`><span class=`label`>Average</span><span class=`value`>";
   V (FormatF 1 (hd_AvgDiskIOPS d));
   T "</span></div>
    <div class=`metric`><span class=`label`>Peak</span><span class=`value`>";
   V (FormatF 1 (hd_PeakDiskIOPS d));
   T "</span></div>
  </div>
  <div class=`card`>
    <h2>Network Bandwidth</h2>
    <div class=`metric`><span class=`label`>Total Sent</span><span class=`value`>";
   V (FormatF 2 (hd_TotalNetSentGB d) +:+ " GB");
   T "</span></div>
    <div class=`metric`><span class=`label`>Total Recv</span><span class=`value`>";
   V (FormatF 2 (hd_TotalNetRecvGB d) +:+ " GB");
   T "</span></div>
    <div class=`metric`><span class=`label`>Peak Rate</span><span class=`value`>";
   V (FormatF 2 (hd_PeakNetMBps d) +:+ " MB/s");
   T "</span></div>
  </div>
  <div class=`card`>
    <h2>Concurrent Users</h2>
    <div class=`metric`><span class=`label`>Minimum</span><span class=`value`>";
   V (Itoa (hd_MinUsers d));
   T "</span></div>
    <div class=`metric`><span class=`label`>Average</span><span class=`value`>";
   V (FormatF 1 (hd_AvgUsers d));
   T "</span></div>
    <div class=`metric`><span class=`label`>Peak</span><span class=`value`>";
   V (Itoa (hd_MaxUsers d));
   T "</span></div>
  </div>
</div>
"].
(** One row of the table of servers. *)
Definition html_server (s : ServerSummary) : list piece :=
  [T "
      <tr>
        <td>";
   V (ss_ServerID s);
   T "</td>
        <td>";
   V (ss_Hostname s);
   T "</td>
        <td>";
   V (Itoa (sm_CPUCores (ss_Summary s)));
   T "</td>
        <td>";
   V (FormatF 1 (sm_MemTotalGB (ss_Summary s)));
   T "</td>
        <td>";
   V (FormatF 1 (sm_DiskTotalGB (ss_Summary s)));
   T "</td>
        <td>";
   V (FormatF 1 (sm_AvgCPU (ss_Summary s)) +:+ "%");
   T "</td>
        <td>";
   V (FormatF 1 (sm_PeakCPU (ss_Summary s)) +:+ "%");
   T "</td>
        <td>";
   V (FormatF 1 (sm_AvgMem (ss_Summary s)) +:+ "%");
   T "</td>
        <td>";
   V (FormatF 1 (sm_PeakMem (ss_Summary s)) +:+ "%");
   T "</td>
        <td>";
   V (FormatF 0 (sm_PeakDiskIOPS (ss_Summary s)));
   T "</td>
        <td>";
   V (FormatF 2 (sm_PeakNetMBps (ss_Summary s)));
   T "</td>
        <td>";
   V (Itoa (sg_MinCPU (sm_Suggested (ss_Summary s))) +:+ " vCPU / " +:+ FormatF 1 (sg_MinRAM (sm_Suggested (ss_Summary s))) +:+ " GB RAM");
   T "</td>
        <td>";
   V (Itoa (sg_RecCPU (sm_Suggested (ss_Summary s))) +:+ " vCPU / " +:+ FormatF 1 (sg_RecRAM (sm_Suggested (ss_Summary s))) +:+ " GB RAM");
   T "</td>
      </tr>
      "].
Definition html_servers (d : htmlReportData) : list piece :=
  if hd_ShowFleet d then
  [T "
<div class=`section`>
  <h2>Per-Server Breakdown</h2>
  <table class=`specs-table`>
    <thead>
      <tr>
        <th>Server ID</th>
        <th>Hostname</th>
        <th>vCPU</th>
        <th>RAM (GB)</th>
        <th>Disk (GB)</th>
        <th>Avg CPU%</th>
        <th>Peak CPU%</th>
        <th>Avg Mem%</th>
        <th>Peak Mem%</th>
        <th>Peak IOPS</th>
        <th>Peak BW (MB/s)</th>
        <th>Min Specs</th>
        <th>Rec Specs</th>
      </tr>
    </thead>
    <tbody>
      "] ++
  concat (map html_server (hd_Servers d)) ++
  [T "
    </tbody>
  </table>
</div>
"]
  else [].
Definition html_sizing (d : htmlReportData) : list piece :=
  [T "
<div class=`section`>
  <h2>Recommended Target Sizing</h2>
  <table class=`specs-table`>
    <thead>
      <tr>
        <th>Tier</th>
        <th>vCPU</th>
        <th>RAM (GB)</th>
        <th>Disk (GB)</th>
        <th>IOPS</th>
        <th>Net BW (MB/s)</th>
      </tr>
    </thead>
    <tbody>
      <tr>
        <td><strong>Minimum</strong></td>
        <td>";
   V (Itoa (hd_MinCPU d));
   T "</td>
        <td>";
   V (FormatF 2 (hd_MinRAM d));
   T "</td>
        <td>";
   V (FormatF 1 (hd_MinDisk d));
   T "</td>
        <td>";
   V (Itoa (hd_MinIOPS d));
   T "</td>
        <td>";
   V (FormatF 2 (hd_MinNet d));
   T "</td>
      </tr>
      <tr>
        <td><strong>Recommended</strong></td>
        <td>";
   V (Itoa (hd_RecCPU d));
   T "</td>
        <td>";
   V (FormatF 2 (hd_RecRAM d));
   T "</td>
        <td>";
   V (FormatF 1 (hd_RecDisk d));
   T "</td>
        <td>";
   V (Itoa (hd_RecIOPS d));
   T "</td>
        <td>";
   V (FormatF 2 (hd_RecNet d));
   T "</td>
      </tr>
    </tbody>
  </table>
</div>
<div class=`footer`>
  W-Monitor Assessment Report — Generated ";
   V (hd_Generated d);
   T "
</div>
</body>
</html>
"].
Definition assessmentHTML (d : htmlReportData) : list piece := html_head d ++ html_cards d ++ html_servers d ++ html_sizing d.

(** ** The text of the plain report *)

Definition rule : string := "===================================================".
(** What each [Fprintln] and [Fprintf] writes. *)
Definition text_lines (s : Summary) (now : Z) : list string :=
  let sg := sm_Suggested s in
  let hardware := Itoa (sm_CPUCores s) +:+ " vCPU | " +:+ FormatF 1 (sm_MemTotalGB s) +:+ " GB RAM | " +:+
                  FormatF 1 (sm_DiskTotalGB s) +:+ " GB Disk" in
  let fleet := Itoa (sm_FleetServerCount s) +:+ " servers | " +:+ Itoa (sm_CPUCores s) +:+ " vCPU total | " +:+
               FormatF 1 (sm_MemTotalGB s) +:+ " GB RAM total | " +:+ FormatF 1 (sm_DiskTotalGB s) +:+ " GB Disk total" in
  map (fun line => line +:+ line_end)
  [rule;
   "  W-MONITOR — System Report";
   rule;
   EmptyString;
   "Fleet    : " +:+ (if 1 <? sm_FleetServerCount s then fleet else hardware);
   "Period   : " +:+ sm_Period s;
   "Samples  : " +:+ Itoa (sm_RowCount s);
   EmptyString;
   "CPU";
   "  Average : " +:+ percent (sm_AvgCPU s);
   "  Peak    : " +:+ percent (sm_PeakCPU s);
   EmptyString;
   "Memory";
   "  Average : " +:+ percent (sm_AvgMem s);
   "  Peak    : " +:+ percent (sm_PeakMem s);
   EmptyString;
   "Disk";
   "  Minimum Free : " +:+ FormatF 2 (sm_MinDiskFreeGB s) +:+ " GB";
   EmptyString;
   "Disk IOPS";
   "  Minimum : " +:+ FormatF 1 (sm_MinDiskIOPS s) +:+ " IOPS";
   "  Average : " +:+ FormatF 1 (sm_AvgDiskIOPS s) +:+ " IOPS";
   "  Peak    : " +:+ FormatF 1 (sm_PeakDiskIOPS s) +:+ " IOPS";
   EmptyString;
   "Network (Traffic & Bandwidth)";
   "  Sent Total: " +:+ FormatF 2 (gigabytes (sm_TotalNetSentBytes s)) +:+ " GB";
   "  Recv Total: " +:+ FormatF 2 (gigabytes (sm_TotalNetRecvBytes s)) +:+ " GB";
   "  Bandwidth Rate (Min/Avg/Peak): " +:+
     slashed (FormatF 2 (sm_MinNetMBps s)) (FormatF 2 (sm_AvgNetMBps s)) (FormatF 2 (sm_PeakNetMBps s)) +:+ " MB/s";
   EmptyString;
   "Concurrent Users";
   "  Minimum : " +:+ Itoa (sm_MinConcurrentUsers s);
   "  Average : " +:+ FormatF 1 (sm_AvgConcurrentUsers s);
   "  Maximum : " +:+ Itoa (sm_MaxConcurrentUsers s);
   EmptyString;
   "Suggested System Requirements";
   "  Minimum Specs     : " +:+ specs (sg_MinCPU sg) (sg_MinRAM sg) (sg_MinDiskGB sg) (sg_MinIOPS sg) (sg_MinNetMBps sg);
   "  Recommended Specs : " +:+ specs (sg_RecCPU sg) (sg_RecRAM sg) (sg_RecDiskGB sg) (sg_RecIOPS sg) (sg_RecNetMBps sg);
   EmptyString;
   rule;
   "Generated: " +:+ FormatRFC3339 now].

(** ** The files *)

(** The store that is reported on, and the files of the machine. *)
Record desk (S : Type) := { dk_store : S; dk_files : machine }.
Arguments dk_store {S} _.
Arguments dk_files {S} _.

(** Where a path leads; a last link to nowhere leads to its target. *)
Fixpoint real_path (links : nat) (fs : gmap string inode) (path : string) : option string :=
  match fs !! path with
  | Some (SymbolicLink t) =>
      match links with
      | O => None
      | S links => real_path links fs (if IsAbs t then Clean t else Clean (Dir path +:+ "/" +:+ t))
      end
  | _ => Some path
  end.
(** [os.Create]: the open file, by the path it is at. *)
Definition os_Create (path : string) : M machine string :=
  statement (fun m =>
    match real_path max_links (mc_fs m) path with
    | None => Err (EMsg "too many levels of symbolic links")
    | Some p => match mc_fs m !! p with
                | Some (Directory _) => Err (EMsg "is a directory")
                | _ => Ok (p, on_fs <[p := RegularFile EmptyString]> m)
                end
    end).
(** A write to an open file; it is made whole or not at all. *)
Definition write_to (handle text : string) : M machine unit :=
  statement (fun m =>
    match mc_fs m !! handle with
    | Some (RegularFile d) => Ok (tt, on_fs <[handle := RegularFile (d +:+ text)]> m)
    | _ => Ok (tt, m)
    end).
(** [Execute]: it stops at the first write that fails. *)
Fixpoint write_all (handle : string) (texts : list string) : M machine unit :=
  match texts with
  | [] => ret tt
  | text :: texts => let* _ := write_to handle text in write_all handle texts
  end.
(** [fmt.Fprint]s whose errors are not looked at. *)
Fixpoint print_all (handle : string) (texts : list string) : M machine unit :=
  match texts with
  | [] => ret tt
  | text :: texts => let* _ := attempt (write_to handle text) in print_all handle texts
  end.

Section files.
Context {S : Type}.
Definition over_store {A : Type} (m : M S A) : M (desk S) A :=
  zoom dk_store (fun x d => {| dk_store := x; dk_files := dk_files d |}) m.
Definition over_files {A : Type} (m : M machine A) : M (desk S) A :=
  zoom dk_files (fun x d => {| dk_store := dk_store d; dk_files := x |}) m.
(** The directory, with those above it, and the file. *)
Definition create_output (message outPath : string) : M (desk S) string :=
  let* _ := wrap_err "mkdir" (over_files (MkdirAll (FileDir outPath))) in
  wrap_err message (over_files (os_Create outPath)).

Definition CSVReport {X : Type} (queried : M S (list MetricRow * X)) (since now : Z) (outPath tenantID : string) : M (desk S) Z :=
  let* f := create_output "create file" outPath in
  let* written := over_store (WriteCSV queried since now tenantID) in
  let '(n, _, records) := written in
  let summary := length (summary_records (ComputeSummary [] EmptyString)) in
  let* _ := over_files (write_to f (csv_text (take summary records))) in (* cw.WriteAll flushes *)
  let* _ := wrap_err "csv flush" (over_files (write_to f (csv_text (drop summary records)))) in
  ret n.
(** The summary that comes with an error is not used by the callers. *)
Definition TextReport (queried : M S (list MetricRow)) (since now : Z) (outPath tenantID : string) : M (desk S) Summary :=
  let* _ := lift (RequireTenant tenantID) in
  let* rows := over_store (wrap_err "query metrics: " queried) in
  let s := ComputeSummary rows (FormatMinute since +:+ " to " +:+ FormatMinute now) in
  let* f := create_output "create" outPath in
  let* _ := over_files (print_all f (text_lines s now)) in
  ret s.
Definition writeHTMLReportTo (f : string) (r : AssessmentReport) (now : Z) : M (desk S) unit :=
  over_files (write_all f (map render (assessmentHTML (html_data r now)))).
Definition AssessmentFile (queried : M S (list MetricRow)) (start till now : Z) (outPath tenantID : string) : M (desk S) unit :=
  let* report := over_store (GenerateAssessmentReport queried start till tenantID) in
  let* f := create_output "create" outPath in
  writeHTMLReportTo f report now.
End files.
