(* ===== verification/ReportProofs.v ===== *)
(** * What the documents of a report guarantee (over Report.v)

    No text a machine chose can become markup of the HTML page or leave its
    cell of the spreadsheet, what the output files hold, and what else of the
    file system a report changes. *)

From S2P Require Export Report ExportProofs AgentRunProofs.
Open Scope list_scope.
Open Scope Z_scope.

(** ** The HTML page *)

(** The characters that delimit tags and attributes. *)
Definition markup_char (c : ascii) : bool := mem_char c (bytes [60; 62; 34; 39]%N). (* less, greater and the quotes *)
Fixpoint markup (s : string) : string :=
  match s with
  | EmptyString => EmptyString
  | String c s => if markup_char c then String c (markup s) else markup s
  end.
Lemma markup_app s t : markup (s +:+ t) = markup s +:+ markup t.
Proof. induction s as [|c s IH]; [done|]. simpl. destruct (markup_char c); simpl; by rewrite IH. Qed.
Lemma code_char c n : code c = n -> c = chr (Z.to_N n).
Proof.
  unfold code, chr. intros <-. rewrite N2Z.id. by rewrite ascii_N_embedding.
Qed.
(** The entity of every character, by cases on its code. *)
Lemma html_entity_cases (P : ascii -> string -> Prop) :
  P (chr 0) (bytes [239; 191; 189]%N) -> P (chr 34) "&#34;"%string -> P (chr 38) "&amp;"%string -> P (chr 39) "&#39;"%string ->
  P (chr 43) "&#43;"%string -> P (chr 60) "&lt;"%string -> P (chr 62) "&gt;"%string ->
  (forall c, c <> chr 38 -> markup_char c = false -> c <> chr 0 -> P c (String c EmptyString)) -> forall c, P c (html_entity c).
Proof.
  intros P0 P34 P38 P39 P43 P60 P62 Pc c. unfold html_entity.
  destruct (Z.eqb_spec (code c) 0) as [E|N0]; [by rewrite (code_char c 0 E)|].
  destruct (Z.eqb_spec (code c) 34) as [E|N34]; [by rewrite (code_char c 34 E)|].
  destruct (Z.eqb_spec (code c) 38) as [E|N38]; [by rewrite (code_char c 38 E)|].
  destruct (Z.eqb_spec (code c) 39) as [E|N39]; [by rewrite (code_char c 39 E)|].
  destruct (Z.eqb_spec (code c) 43) as [E|_]; [by rewrite (code_char c 43 E)|].
  destruct (Z.eqb_spec (code c) 60) as [E|N60]; [by rewrite (code_char c 60 E)|].
  destruct (Z.eqb_spec (code c) 62) as [E|N62]; [by rewrite (code_char c 62 E)|].
  apply Pc; [by intros ->| |by intros ->].
  destruct (markup_char c) eqn:E; [|done]. exfalso. unfold markup_char in E. vm_compute bytes in E. simpl in E.
  repeat match type of E with context [Ascii.eqb ?a ?b] => destruct (Ascii.eqb_spec a b) as [->|_]; [done|] end. done.
Qed.
Lemma markup_escape v : markup (html_escape v) = EmptyString.
Proof.
  induction v as [|c v IH]; [done|]. simpl. rewrite markup_app, IH. pattern c, (html_entity c). apply html_entity_cases; try done.
  intros c' _ Hc _. simpl. by rewrite Hc.
Qed.

(** The markup of a page is that of its template. *)
Definition template (page : list piece) : list string := omap (fun p => match p with T t => Some t | V _ => None end) page.
Lemma markup_page page : markup (page_text page) = fold_right (fun t s => markup (unquoted t) +:+ s) EmptyString (template page).
Proof.
  induction page as [|[t|v] page IH]; [done| |]; simpl; rewrite markup_app, IH; [done|]. by rewrite markup_escape.
Qed.
Lemma template_app p q : template (p ++ q) = template p ++ template q.
Proof. apply omap_app. Qed.
Lemma template_servers l1 l2 : length l1 = length l2 ->
  template (concat (map html_server l1)) = template (concat (map html_server l2)).
Proof.
  revert l2. induction l1 as [|a l1 IH]; intros [|b l2] Hl; try done. cbn [map concat]. rewrite !template_app.
  injection Hl as Hl. by rewrite (IH l2 Hl).
Qed.
Lemma template_fixed d1 d2 :
  hd_ShowFleet d1 = hd_ShowFleet d2 -> (hd_ShowFleet d1 = true -> length (hd_Servers d1) = length (hd_Servers d2)) ->
  template (assessmentHTML d1) = template (assessmentHTML d2).
Proof.
  intros Hf Hs. unfold assessmentHTML. rewrite !template_app.
  assert (template (html_cards d1) = template (html_cards d2)) as ->.
  { unfold html_cards. rewrite Hf. by destruct (hd_ShowFleet d2). }
  assert (template (html_servers d1) = template (html_servers d2)) as ->; [|done].
  unfold html_servers. rewrite <- Hf. destruct (hd_ShowFleet d1); [|done]. rewrite !template_app.
  by rewrite (template_servers _ _ (Hs eq_refl)).
Qed.

(** Where a piece stands: in a tag, or in text. *)
Fixpoint tag_state (inside : bool) (s : string) : bool :=
  match s with
  | EmptyString => inside
  | String c s => tag_state (if code c =? 60 then true else if code c =? 62 then false else inside) s
  end.
(** Every value stands in the text of an element, outside the tags. *)
Fixpoint values_in_text (inside : bool) (page : list piece) : option bool :=
  match page with
  | [] => Some inside
  | T t :: page => values_in_text (tag_state inside (unquoted t)) page
  | V _ :: page => if inside then None else values_in_text inside page
  end.
Definition closed_text (page : list piece) : Prop := values_in_text false page = Some false.
Lemma closed_text_app p q : closed_text p -> closed_text q -> closed_text (p ++ q).
Proof.
  unfold closed_text. intros Hp Hq. assert (Happ : forall inside, values_in_text inside (p ++ q) =
    match values_in_text inside p with Some i => values_in_text i q | None => None end).
  { clear Hp. induction p as [|[t|v] p IH]; intros inside; simpl; [done|apply IH|]. destruct inside; [done|apply IH]. }
  by rewrite Happ, Hp.
Qed.
Lemma servers_in_text l : closed_text (concat (map html_server l)).
Proof. induction l as [|a l IH]; [done|]. apply closed_text_app; [vm_compute; done|exact IH]. Qed.
Lemma page_in_text d : closed_text (assessmentHTML d).
Proof.
  unfold assessmentHTML. apply closed_text_app; [vm_compute; done|]. apply closed_text_app.
  { unfold html_cards. destruct (hd_ShowFleet d); vm_compute; done. }
  apply closed_text_app; [|vm_compute; done]. unfold html_servers. destruct (hd_ShowFleet d); [|done].
  apply closed_text_app; [vm_compute; done|]. apply closed_text_app; [apply servers_in_text|vm_compute; done].
Qed.

(** What a reader sees of escaped text. *)
Definition html_entities : list (string * ascii) :=
  [("&#34;", chr 34); ("&amp;", chr 38); ("&#39;", chr 39); ("&#43;", chr 43); ("&lt;", chr 60); ("&gt;", chr 62)]%string.
Fixpoint html_shown (fuel : nat) (s : string) : string :=
  match fuel, s with
  | S fuel, String c s' =>
      match List.find (fun e => String.prefix e.1 s) html_entities with
      | Some (e, shown) => String shown (html_shown fuel (sdrop (String.length e) s))
      | None => String c (html_shown fuel s')
      end
  | _, _ => EmptyString
  end.
Lemma no_entity c s : c <> chr 38 -> List.find (fun e => String.prefix e.1 (String c s)) html_entities = None.
Proof. intros Hc. unfold html_entities. cbn [List.find fst String.prefix]. by destruct (ascii_dec "&" c) as [<-|]. Qed.
Lemma prefix_empty s : String.prefix EmptyString s = true.
Proof. by destruct s. Qed.
Lemma shown_escape v : forall fuel, (String.length (html_escape v) <= fuel)%nat ->
  string_forall (fun c => negb (code c =? 0)) v = true -> html_shown fuel (html_escape v) = v.
Proof.
  induction v as [|c v IH]; intros fuel Hfuel Hv; [by destruct fuel|]. simpl in Hv. apply andb_true_iff in Hv as [Hc Hv].
  simpl html_escape in *. revert Hfuel Hc. pattern c, (html_entity c). apply html_entity_cases; clear c.
  1: done.
  7: { intros c Hc _ _ Hfuel _. rewrite append_cons, append_empty in *. cbn [String.length] in Hfuel.
       destruct fuel as [|fuel]; [lia|]. cbn [html_shown]. rewrite no_entity by done.
       by rewrite IH by (done || lia). }
  all: intros Hfuel _; rewrite !append_cons, append_empty in *; cbn [String.length] in Hfuel; destruct fuel as [|fuel]; [lia|]; simpl;
    rewrite prefix_empty; simpl; rewrite IH by (done || lia); done.
Qed.

(** ** The CSV document *)

(** A reader of comma-separated values: at the start of a field, in a bare or a
    quoted field, after a quote in a quoted field.  Blank lines are skipped. *)
Inductive csv_state := FieldStart | Bare | Quoted | QuoteSeen.
Definition comma : ascii := chr 44.
Definition line_feed : ascii := chr 10.
Fixpoint csv_read (s : string) (st : csv_state) (field : string) (row : record) : option (list record) :=
  match s with
  | EmptyString => match st, row with FieldStart, [] => Some [] | _, _ => None end
  | String c s =>
      let add st := csv_read s st (field +:+ String c EmptyString) row in
      let next := csv_read s FieldStart EmptyString (row ++ [field]) in
      let line := cons (row ++ [field]) <$> csv_read s FieldStart EmptyString [] in
      match st with
      | FieldStart =>
          if Ascii.eqb c quote_char then csv_read s Quoted EmptyString row
          else if Ascii.eqb c comma then next
          else if Ascii.eqb c line_feed then match row with [] => csv_read s FieldStart EmptyString [] | _ => line end
          else add Bare
      | Bare =>
          if Ascii.eqb c quote_char then None
          else if Ascii.eqb c comma then next
          else if Ascii.eqb c line_feed then line
          else add Bare
      | Quoted => if Ascii.eqb c quote_char then csv_read s QuoteSeen field row else add Quoted
      | QuoteSeen =>
          if Ascii.eqb c quote_char then add Quoted
          else if Ascii.eqb c comma then next
          else if Ascii.eqb c line_feed then line
          else None
      end
  end.
Definition blank_record (r : record) : bool := match r with [] | [EmptyString] => true | _ => false end.

(** Reading one field, up to the comma or the end of the line. *)
Lemma snoc_string s c t : (s +:+ String c EmptyString) +:+ t = s +:+ String c t.
Proof. by rewrite append_assoc. Qed.
Lemma not_special c : csv_special c = false ->
  Ascii.eqb c quote_char = false /\ Ascii.eqb c comma = false /\ Ascii.eqb c line_feed = false.
Proof.
  unfold csv_special. intros Hc. split_and!; apply Ascii.eqb_neq; intros ->; by vm_compute in Hc.
Qed.
Lemma read_bare f : forall acc c rest row, string_forall (fun c => negb (csv_special c)) f = true -> c = comma \/ c = line_feed ->
  csv_read (f +:+ String c rest) Bare acc row = csv_read (String c rest) Bare (acc +:+ f) row.
Proof.
  induction f as [|x f IH]; intros acc c rest row Hf Hc; [by rewrite append_nil_r|]. simpl in Hf. apply andb_true_iff in Hf as [Hx Hf].
  apply negb_true_iff, not_special in Hx as (E1 & E2 & E3). rewrite ?append_cons; cbn [csv_read]. rewrite E1, E2, E3.
  rewrite (IH _ _ _ _ Hf Hc). by rewrite snoc_string.
Qed.
Lemma read_quoted f : forall acc rest row,
  csv_read (double_quotes f +:+ String quote_char rest) Quoted acc row = csv_read rest QuoteSeen (acc +:+ f) row.
Proof.
  induction f as [|x f IH]; intros acc rest row; [by rewrite append_nil_r|]. simpl double_quotes.
  destruct (Ascii.eqb_spec x quote_char) as [->|Hx].
  - rewrite ?append_cons; cbn [csv_read]. rewrite Ascii.eqb_refl. cbv iota. rewrite IH. by rewrite snoc_string.
  - rewrite ?append_cons; cbn [csv_read]. apply Ascii.eqb_neq in Hx. rewrite Hx. rewrite IH. by rewrite snoc_string.
Qed.
Lemma read_end st c rest field row : st = Bare \/ st = QuoteSeen -> c = comma \/ c = line_feed ->
  csv_read (String c rest) st field row =
  (if Ascii.eqb c comma then csv_read rest FieldStart EmptyString (row ++ [field])
   else cons (row ++ [field]) <$> csv_read rest FieldStart EmptyString []).
Proof. by intros [->| ->] [->| ->]. Qed.
Lemma read_field f c rest row : c = comma \/ c = line_feed -> ~ (c = line_feed /\ row = [] /\ f = EmptyString) ->
  csv_read (csv_field f +:+ String c rest) FieldStart EmptyString row =
  (if Ascii.eqb c comma then csv_read rest FieldStart EmptyString (row ++ [f])
   else cons (row ++ [f]) <$> csv_read rest FieldStart EmptyString []).
Proof.
  intros Hc Hb. unfold csv_field. destruct (needs_quotes f) eqn:En.
  - rewrite ?append_cons; cbn [csv_read]. rewrite Ascii.eqb_refl. cbv iota.
    replace ((double_quotes f +:+ String quote_char EmptyString) +:+ String c rest)
      with (double_quotes f +:+ String quote_char (String c rest)) by (by rewrite append_assoc).
    rewrite read_quoted. apply read_end; auto.
  - unfold needs_quotes in En. destruct f as [|x f].
    + destruct Hc as [->| ->]; [done|]. destruct row; [|done]. by destruct Hb.
    + cbn [is_empty negb andb] in En. apply orb_false_iff in En as [En _]. apply orb_false_iff in En as [_ En].
      apply negb_false_iff in En. simpl in En. apply andb_true_iff in En as [Hx Hf].
      apply negb_true_iff, not_special in Hx as (E1 & E2 & E3). rewrite ?append_cons; cbn [csv_read]. rewrite E1, E2, E3.
      rewrite (read_bare f _ c rest row Hf Hc). apply read_end; auto.
Qed.
Lemma read_record r : forall row rest, r <> [] -> ~ (row = [] /\ r = [EmptyString]) ->
  csv_read (csv_fields r +:+ line_end +:+ rest) FieldStart EmptyString row =
  cons (row ++ r) <$> csv_read rest FieldStart EmptyString [].
Proof.
  induction r as [|f r IH]; intros row rest Hr Hb; [done|]. destruct r as [|f2 r].
  - change (line_end +:+ rest) with (String line_feed rest). simpl csv_fields. rewrite read_field; [done|by right|].
    intros (_ & -> & ->). by apply Hb.
  - change (csv_fields (f :: f2 :: r)) with (csv_field f +:+ String comma (csv_fields (f2 :: r))).
    rewrite append_assoc, append_cons. rewrite read_field; [|by left|by intros (? & _)].
    rewrite Ascii.eqb_refl. rewrite IH; [by rewrite <- app_assoc|done|]. intros [Hn _]. by destruct row.
Qed.
Lemma csv_text_read records :
  csv_read (csv_text records) FieldStart EmptyString [] = Some (List.filter (fun r => negb (blank_record r)) records).
Proof.
  induction records as [|r records IH]; [done|]. simpl csv_text. cbn [List.filter]. destruct (blank_record r) eqn:Eb; cbn [negb].
  - unfold blank_record in Eb. destruct r as [|[|] [|]]; try done.
  - rewrite read_record; [by rewrite IH|by intros ->|]. intros [_ ->]. done.
Qed.

(** ** The files *)

Definition concat_text (texts : list string) : string := fold_right (fun t s => t +:+ s) EmptyString texts.
Lemma page_text_concat page : page_text page = concat_text (map render page).
Proof. induction page as [|p page IH]; [done|]. simpl. by rewrite IH. Qed.

Lemma real_path_link n fs path h : real_path n fs path = Some h -> forall t, fs !! h <> Some (SymbolicLink t).
Proof.
  revert path. induction n as [|n IH]; intros path; simpl; destruct (fs !! path) as [[| |t]|] eqn:E; try done; try (intros [= <-]; congruence).
  apply IH.
Qed.
Lemma real_path_insert n fs path h d : real_path n fs path = Some h -> real_path n (<[h := RegularFile d]> fs) path = Some h.
Proof.
  intros Hr. pose proof (real_path_link _ _ _ _ Hr) as Hl. revert path Hr.
  induction n as [|n IH]; intros path; simpl; (destruct (decide (path = h)) as [->|Hn];
    [rewrite lookup_insert_eq; by destruct (fs !! h) as [[| |t]|] eqn:E; [..|destruct (Hl t)|]|rewrite lookup_insert_ne by done]);
    destruct (fs !! path) as [[| |t]|]; try done; try (intros [= <-]; done). apply IH.
Qed.

#[local] Opaque max_links.
Section output.
Context {S : Type}.

(** The file behind [outPath], and its content. *)
Definition file_at (outPath h text : string) (m : machine) : Prop :=
  real_path max_links (mc_fs m) outPath = Some h /\ mc_fs m !! h = Some (RegularFile text).
(** Of the other files none differs, and directories are new only where one
    above the output was missing. *)
Definition dir_made (outPath : string) (m m' : machine) (q : string) : Prop :=
  at_or_above q (FileDir outPath) /\ mc_fs m !! q = None /\ mc_fs m' !! q = Some (Directory 4096).
Definition others_kept (outPath h : string) (m m' : machine) : Prop :=
  forall q, q <> h -> mc_fs m' !! q = mc_fs m !! q \/ dir_made outPath m m' q.
(** All that a report may change: directories missing above its output, and
    the file its output path leads to. *)
Definition only_output (outPath : string) (m m' : machine) : Prop :=
  forall q, mc_fs m' !! q = mc_fs m !! q \/ dir_made outPath m m' q \/ real_path max_links (mc_fs m') outPath = Some q.
Lemma only_output_refl outPath m : only_output outPath m m.
Proof. intros q. by left. Qed.
Lemma only_output_dirs outPath m m' : only_dirs (FileDir outPath) m m' -> only_output outPath m m'.
Proof. intros Hm q. destruct (Hm q); [by left|by right; left]. Qed.
Lemma only_output_file outPath h text m m' : file_at outPath h text m' -> others_kept outPath h m m' -> only_output outPath m m'.
Proof. intros [Hr _] Hk q. destruct (decide (q = h)) as [->|Hn]; [by right; right|]. destruct (Hk q Hn); auto. Qed.
Lemma others_write outPath h m0 m text : others_kept outPath h m0 m -> others_kept outPath h m0 (on_fs <[h := RegularFile text]> m).
Proof. intros Hk q Hq. unfold dir_made. simpl. rewrite lookup_insert_ne by done. by apply Hk. Qed.

Lemma wp_write_to outPath h text x m0 m : file_at outPath h text m -> others_kept outPath h m0 m ->
  wp (write_to h x) (fun r m' => only_output outPath m0 m' /\ others_kept outPath h m0 m' /\
    (file_at outPath h (text +:+ x) m' \/ is_ok r = false /\ file_at outPath h text m')) m.
Proof.
  intros Hh Hk. pose proof (only_output_file _ _ _ _ _ Hh Hk) as Ho. destruct Hh as [Hr Hf].
  apply wp_statement; [intros e; split; [done|]; split; [done|by right]|]. rewrite Hf. intros [] m' [= <-].
  pose proof (others_write outPath h m0 m (text +:+ x) Hk) as Hkept.
  assert (file_at outPath h (text +:+ x) (on_fs <[h := RegularFile (text +:+ x)]> m)).
  { split; simpl; [by apply real_path_insert|by rewrite lookup_insert_eq]. }
  split; [|intros e]; (split; [by eapply only_output_file|]); (split; [done|by left]).
Qed.
Lemma wp_write_all outPath h texts m0 : forall text m, file_at outPath h text m -> others_kept outPath h m0 m ->
  wp (write_all h texts) (fun r m' => only_output outPath m0 m' /\
    (r = Ok tt -> file_at outPath h (text +:+ concat_text texts) m')) m.
Proof.
  induction texts as [|x texts IH]; intros text m Hf Hk; simpl.
  { apply wp_ret. rewrite append_nil_r. split; [by eapply only_output_file|done]. }
  apply wp_mbind. eapply wp_mono; [by apply wp_write_to|]. intros [[]|e] m1 (Ho1 & Hk1 & Hf1); [|done].
  destruct Hf1 as [Hf1|[? _]]; [|done]. rewrite <- append_assoc. by apply IH.
Qed.
(** What is left of the lines that could not be printed. *)
Lemma wp_print_all outPath h texts m0 : forall text m, file_at outPath h text m -> others_kept outPath h m0 m ->
  wp (print_all h texts) (fun r m' => only_output outPath m0 m' /\
    exists l, sublist l texts /\ file_at outPath h (text +:+ concat_text l) m') m.
Proof.
  induction texts as [|x texts IH]; intros text m Hf Hk; simpl.
  { apply wp_ret. split; [by eapply only_output_file|]. exists []. split; [constructor|]. by rewrite append_nil_r. }
  apply wp_try. eapply wp_mono; [by apply wp_write_to|]. intros r m1 (Ho1 & Hk1 & Hf1).
  destruct Hf1 as [Hf1|[_ Hf1]]; (eapply wp_mono; [by apply (IH _ _ Hf1 Hk1)|]); intros r2 m2 [Hk2 (l & Hl & Hf2)]; (split; [done|]).
  - exists (x :: l). split; [by constructor|]. simpl. by rewrite <- append_assoc.
  - exists l. split; [by constructor|done].
Qed.

Lemma wp_over_files {A} (m : M machine A) (Q : result error A -> desk S -> Prop) d :
  wp m (fun r x => Q r {| dk_store := dk_store d; dk_files := x |}) (dk_files d) -> wp (over_files m) Q d.
Proof. intros Hm. apply wp_zoom. exact Hm. Qed.
Lemma wp_over_store {A} (m : M S A) (Q : result error A -> desk S -> Prop) d :
  (forall s fs r s' fs', m s fs = (r, s', fs') -> Q r {| dk_store := s'; dk_files := dk_files d |}) -> wp (over_store m) Q d.
Proof.
  intros HQ. apply wp_zoom. intros fs. destruct (m (dk_store d) fs) as [[r s'] fs'] eqn:E. by eapply HQ.
Qed.
Lemma wp_wrap_err {W A} msg (m : M W A) (Q : result error A -> W -> Prop) s :
  wp m (fun r s' => match r with Ok a => Q (Ok a) s' | Err e => Q (Err (EWrap msg e)) s' end) s -> wp (wrap_err msg m) Q s.
Proof. intros Hm. apply wp_try. eapply wp_mono; [exact Hm|]. intros [a|e] s' HQ; [by apply wp_ret|by apply wp_fail]. Qed.

(** The file is there and empty, or there is an error. *)
Lemma wp_create_output message outPath (d : desk S) :
  wp (create_output message outPath) (fun r d' => only_output outPath (dk_files d) (dk_files d') /\
    forall h, r = Ok h -> others_kept outPath h (dk_files d) (dk_files d') /\ file_at outPath h EmptyString (dk_files d')) d.
Proof.
  apply wp_mbind, wp_wrap_err, wp_over_files. eapply wp_mono; [apply wp_MkdirAll|].
  intros [[]|e] m [Hm _]; [|by split; [apply only_output_dirs|]].
  apply wp_wrap_err, wp_over_files, wp_statement; [intros e; by split; [apply only_output_dirs|]|].
  simpl. destruct (real_path _ _ _) as [h|] eqn:Er; [|done]. intros h' m' Hm'.
  assert (h' = h /\ m' = on_fs <[h := RegularFile EmptyString]> m) as [-> ->] by (destruct (mc_fs m !! h) as [[]|]; by simplify_eq).
  assert (Hk : others_kept outPath h (dk_files d) (on_fs <[h := RegularFile EmptyString]> m))
    by (apply others_write; intros q _; apply Hm).
  assert (Hf : file_at outPath h EmptyString (on_fs <[h := RegularFile EmptyString]> m))
    by (split; simpl; [by apply real_path_insert|by rewrite lookup_insert_eq]).
  pose proof (only_output_file _ _ _ _ _ Hf Hk) as Ho. split; [|intros e]; (split; [done|]); [by intros h' [= <-]|done].
Qed.

(** How a report can end: only its file and missing directories above it are
    touched, and not before it is [ready]; without an error the file holds a
    [document]. *)
Definition reports {A} (outPath : string) (d : desk S) (ready : Prop) (document : A -> string -> Prop)
    (r : result error A) (d' : desk S) : Prop :=
  only_output outPath (dk_files d) (dk_files d') /\
  (forall a, r = Ok a -> exists h text, document a text /\ file_at outPath h text (dk_files d')) /\
  (dk_files d' <> dk_files d -> ready).
Lemma reports_early {A} outPath d ready (document : A -> string -> Prop) e s :
  reports outPath d ready document (Err e) {| dk_store := s; dk_files := dk_files d |}.
Proof. split; [apply only_output_refl|done]. Qed.
Lemma reports_failed {A} outPath (d : desk S) ready (document : A -> string -> Prop) e (d' : desk S) :
  only_output outPath (dk_files d) (dk_files d') -> ready -> reports outPath d ready document (Err e) d'.
Proof. intros Hk Hr. by split. Qed.
Lemma reports_done {A} outPath (d : desk S) (ready : Prop) (document : A -> string -> Prop) h a text (d' : desk S) :
  only_output outPath (dk_files d) (dk_files d') -> ready -> document a text -> file_at outPath h text (dk_files d') ->
  reports outPath d ready document (Ok a) d'.
Proof. intros Hk Hr Hd Hf. split; [done|]. split; [|done]. intros a' [= <-]. by exists h, text. Qed.
Definition gives {W A} (m : M W A) (a : A) : Prop := exists s fs s' fs', m s fs = (Ok a, s', fs').

Lemma wp_AssessmentFile (queried : M S (list MetricRow)) start till now outPath tenantID d :
  wp (AssessmentFile queried start till now outPath tenantID)
    (reports outPath d (exists report, gives (GenerateAssessmentReport queried start till tenantID) report)
       (fun _ text => exists report, gives (GenerateAssessmentReport queried start till tenantID) report /\
          text = page_text (assessmentHTML (html_data report now)))) d.
Proof.
  apply wp_mbind, wp_over_store. intros s fs [report|e] s' fs' Hrun; [|apply reports_early].
  assert (Hg : gives (GenerateAssessmentReport queried start till tenantID) report) by by do 4 eexists.
  apply wp_mbind. eapply wp_mono; [apply wp_create_output|]. intros [h|e] d' (Ho & Hh); [|by eapply reports_failed; [|by exists report]].
  destruct (Hh h eq_refl) as [Hk Hf]. apply wp_over_files. eapply wp_mono; [by apply wp_write_all|].
  intros [[]|e] m [Hk2 Hf2]; [|by eapply reports_failed; [|by exists report]]. eapply reports_done; [done|by exists report| |by apply Hf2].
  exists report. split; [done|]. by rewrite page_text_concat.
Qed.
Lemma wrap_err_gives {W A} msg (m : M W A) s fs a s' fs' : wrap_err msg m s fs = (Ok a, s', fs') -> gives m a.
Proof.
  unfold wrap_err, mbind, attempt. destruct (m s fs) as [[[a0|e] s1] fs1] eqn:E; [|done]. unfold ret. intros [= <- _ _].
  by exists s, fs, s1, fs1.
Qed.
(** The summary, and those of its lines that could be printed. *)
Definition text_document (queried : M S (list MetricRow)) (since now : Z) (s : Summary) (text : string) : Prop :=
  exists rows l, gives queried rows /\ s = ComputeSummary rows (FormatMinute since +:+ " to " +:+ FormatMinute now) /\
    sublist l (text_lines s now) /\ text = concat_text l.
Lemma wp_TextReport (queried : M S (list MetricRow)) since now outPath tenantID d :
  wp (TextReport queried since now outPath tenantID)
    (reports outPath d (RequireTenant tenantID = Ok tt /\ exists rows, gives queried rows) (text_document queried since now)) d.
Proof.
  apply wp_mbind, wp_lift. destruct (RequireTenant tenantID) as [[]|e] eqn:Et; [|destruct d; apply reports_early].
  apply wp_mbind, wp_over_store. intros s fs [rows|e] s' fs' Hrun; [|apply reports_early]. apply wrap_err_gives in Hrun.
  assert (Hready : @Ok error _ tt = Ok tt /\ exists rows, gives queried rows) by (split; [done|by exists rows]).
  cbv zeta. apply wp_mbind. eapply wp_mono; [apply wp_create_output|]. intros [h|e] d' (Ho & Hh); [|by eapply reports_failed].
  destruct (Hh h eq_refl) as [Hk Hf]. apply wp_mbind, wp_over_files. eapply wp_mono; [by apply wp_print_all|].
  intros [[]|e] m [Hk2 (l & Hl & Hf2)]; [apply wp_ret|by eapply reports_failed]. eapply reports_done; [done|done| |exact Hf2].
  exists rows, l. by split_and!.
Qed.
Lemma summary_records_length s t : length (summary_records s) = length (summary_records t).
Proof. done. Qed.
Lemma csv_text_split n records : csv_text (take n records) +:+ csv_text (drop n records) = csv_text records.
Proof.
  revert records. induction n as [|n IH]; intros records; [by destruct records|]. destruct records as [|r records]; [done|].
  simpl. by rewrite !append_assoc, IH.
Qed.
(** The spreadsheet: its cells are those of the document, whatever they hold. *)
Definition csv_document {X} (queried : M S (list MetricRow * X)) (since now : Z) (tenantID : string) (n : Z) (text : string) : Prop :=
  exists x records, gives (WriteCSV queried since now tenantID) (n, x, records) /\ text = csv_text records /\
    csv_read text FieldStart EmptyString [] = Some (List.filter (fun r => negb (blank_record r)) records).
Lemma wp_CSVReport {X} (queried : M S (list MetricRow * X)) since now outPath tenantID d :
  wp (CSVReport queried since now outPath tenantID) (reports outPath d True (csv_document queried since now tenantID)) d.
Proof.
  apply wp_mbind. eapply wp_mono; [apply wp_create_output|]. intros [h|e] d' (Ho & Hh); [|by eapply reports_failed].
  destruct (Hh h eq_refl) as [Hk Hf]. apply wp_mbind, wp_over_store. intros s fs r s' fs' Hrun.
  destruct r as [[[n x] records]|e]; [|by eapply reports_failed]. cbv zeta.
  apply wp_mbind, wp_over_files. eapply wp_mono; [by apply wp_write_to|]. intros [[]|e] m (Ho2 & Hk2 & Hf2); [|by eapply reports_failed].
  destruct Hf2 as [Hf2|[? _]]; [|done]. apply wp_mbind, wp_wrap_err, wp_over_files.
  eapply wp_mono; [by apply (wp_write_to _ _ _ _ _ _ Hf2 Hk2)|]. intros [[]|e] m2 (Ho3 & Hk3 & Hf3); [apply wp_ret|by eapply reports_failed].
  destruct Hf3 as [Hf3|[? _]]; [|done]. rewrite append_empty, csv_text_split in Hf3.
  eapply reports_done; [done|done| |exact Hf3]. exists x, records. split; [by do 4 eexists|]. split; [done|apply csv_text_read].
Qed.
(** The page: its markup is that of every page with as many servers. *)
Definition page_document (queried : M S (list MetricRow)) (start till now : Z) (tenantID : string) (done : unit) (text : string) : Prop :=
  exists report, gives (GenerateAssessmentReport queried start till tenantID) report /\
    let d := html_data report now in
    text = page_text (assessmentHTML d) /\ closed_text (assessmentHTML d) /\
    forall d2, hd_ShowFleet d2 = hd_ShowFleet d -> length (hd_Servers d2) = length (hd_Servers d) ->
      markup text = markup (page_text (assessmentHTML d2)).

(** C10. The reports are faithful and inert.  Whatever system calls fail, a
    report changes no path but the file its output path leads to, except that
    directories at or above that file's directory are made where there was
    nothing; the page and the text report do not touch it before the query
    succeeded for a named tenant.  When a report succeeds, its file holds the
    document of what the query returned: the whole page, the whole spreadsheet,
    or those lines of the text report that could be printed.  The tags and
    quotes of the page depend only on the number of servers, every value
    stands between tags and is displayed as it was, and the spreadsheet is
    read back cell by cell, so that no name a machine gave itself can become
    markup or leave its cell. *)
Theorem reports_are_faithful {X} (queried : M S (list MetricRow)) (noted : M S (list MetricRow * X))
    since till now outPath tenantID (d : desk S) (fs : faults) :
  (let '(r, d', _) := AssessmentFile queried since till now outPath tenantID d fs in
   reports outPath d (exists report, gives (GenerateAssessmentReport queried since till tenantID) report)
     (page_document queried since till now tenantID) r d') /\
  (let '(r, d', _) := TextReport queried since now outPath tenantID d fs in
   reports outPath d (RequireTenant tenantID = Ok tt /\ exists rows, gives queried rows) (text_document queried since now) r d') /\
  (let '(r, d', _) := CSVReport noted since now outPath tenantID d fs in
   reports outPath d True (csv_document noted since now tenantID) r d') /\
  (forall v, string_forall (fun c => negb (code c =? 0)) v = true ->
     markup (html_escape v) = EmptyString /\ html_shown (String.length (html_escape v)) (html_escape v) = v).
Proof.
  split; [|split; [|split]].
  - pose proof (wp_AssessmentFile queried since till now outPath tenantID d fs) as Hw.
    destruct (AssessmentFile _ _ _ _ _ _ d fs) as [[r d'] fs']. destruct Hw as (Hk & Hdoc & Hready).
    split; [done|]. split; [|done]. intros a Ha. destruct (Hdoc a Ha) as (h & text & (report & Hg & ->) & Hf).
    do 2 eexists. split; [|exact Hf]. exists report. split; [done|]. split; [done|]. split; [apply page_in_text|]. intros d2 Hd Hl.
    by rewrite !markup_page, (template_fixed d2 (html_data report now)).
  - exact (wp_TextReport queried since now outPath tenantID d fs).
  - exact (wp_CSVReport noted since now outPath tenantID d fs).
  - intros v Hv. split; [apply markup_escape|by apply shown_escape].
Qed.
End output.

(** ** Concrete inputs *)

Module SampleReport.
Definition rows : list MetricRow :=
  [SampleExport.at_load 1 "<script>" 10; SampleExport.at_load 2 "=cmd|' /C calc'!A0" 90].
(** The metric rows, or a query that fails. *)
Definition queried : M unit (list MetricRow) := ret rows.
Definition noted : M unit (list MetricRow * unit) := ret (rows, tt).
Definition broken : M unit (list MetricRow * unit) := fail (EMsg "database is locked").
Definition out : string := "/tmp/report.out".
Definition desk_with (files : gmap string inode) : desk unit :=
  {| dk_store := tt; dk_files := {| mc_fs := files; mc_env := ∅ |} |}.
Definition content (d : desk unit) : option inode := mc_fs (dk_files d) !! out.
Definition page : result error unit * desk unit * faults :=
  AssessmentFile queried 0 (10 * second) (10 * second) out "t_a" (desk_with ∅) [].
End SampleReport.

(** The disk is full after the first line: the report ends without an error,
    and the file holds one line. *)
Example text_report_hides_errors :
  let full := Some (Fail_ {| err_msg := "no space left on device"; err_code := EmptyString |}) in
  let r := TextReport SampleReport.queried 0 (10 * second) SampleReport.out "t_a" (SampleReport.desk_with ∅)
             (None :: None :: None :: None :: repeat full 60) in
  is_ok r.1.1 = true /\ SampleReport.content r.1.2 = Some (RegularFile (rule +:+ line_end)).
Proof. vm_compute. split; reflexivity. Qed.
(** Every missing directory above the output is made. *)
Example missing_parents_are_made :
  let r := AssessmentFile SampleReport.queried 0 (10 * second) (10 * second) "/srv/reports/2024/out.html" "t_a" (SampleReport.desk_with ∅) [] in
  is_ok r.1.1 = true /\
  map (fun p => mc_fs (dk_files r.1.2) !! p) ["/srv"; "/srv/reports"; "/srv/reports/2024"; "/"]%string =
  [Some (Directory 4096); Some (Directory 4096); Some (Directory 4096); None].
Proof. vm_compute. split; reflexivity. Qed.
(** A query that fails leaves an empty file where the last report was. *)
Example failed_export_empties_the_file :
  let r := CSVReport SampleReport.broken 0 (10 * second) SampleReport.out "t_a"
             (SampleReport.desk_with {[SampleReport.out := RegularFile "last month"]}) [] in
  is_ok r.1.1 = false /\ SampleReport.content r.1.2 = Some (RegularFile EmptyString).
Proof. vm_compute. split; reflexivity. Qed.
Lemma reports_are_faithful_witness :
  is_ok SampleReport.page.1.1 = true /\ exists text h, file_at SampleReport.out h text (dk_files SampleReport.page.1.2) /\
    page_document SampleReport.queried 0 (10 * second) (10 * second) "t_a" tt text /\
    html_shown 100 (html_escape "<script>") = "<script>"%string.
Proof.
  split; [vm_compute; reflexivity|].
  pose proof (reports_are_faithful SampleReport.queried SampleReport.noted 0 (10 * second) (10 * second) SampleReport.out "t_a"
    (SampleReport.desk_with ∅) []) as (Hpage & _ & _ & Hv).
  assert (Hrun : exists d' fs', AssessmentFile SampleReport.queried 0 (10 * second) (10 * second) SampleReport.out "t_a"
    (SampleReport.desk_with ∅) [] = (Ok tt, d', fs') /\ d' = SampleReport.page.1.2)
    by (do 2 eexists; split; [vm_compute; reflexivity|vm_compute; reflexivity]).
  destruct Hrun as (d' & fs' & Hrun & <-). rewrite Hrun in Hpage. destruct Hpage as (_ & Hdoc & _).
  destruct (Hdoc tt eq_refl) as (h & text & Hd & Hf). exists text, h. split; [exact Hf|]. split; [exact Hd|]. vm_compute. reflexivity.
Defined.
