(* ===== verification/Hub.v ===== *)
(** * The hub as a whole ([server/server.go], [server/alerts.go],
      [dashboard/dashboard.go])

    The construction of a server, its route table, and the way of a request
    through [Handler] and the mux to the endpoint that answers it.  The
    endpoints are those of [Server], [Export], [Auth] and [Admin].  The bodies
    of the three documents of the dashboard and the decoder of the login body
    are parameters; a request carries the parameters of its query that some
    endpoint reads.  What a request leaves running in the background is in the
    state; [HubProofs.do_input] runs it. *)

From S2P Require Import Alerting.
From S2P Require Export Admin Export Config.
Open Scope list_scope.
Open Scope Z_scope.

(** ** Requests and documents *)

Record http_request := {
  hq_conn : request;
  hq_path : string;
  hq_body : string;
  hq_cut : bool (* the connection broke off in the body *);
  hq_read : read_query;
  hq_type : string;
  hq_tenant : string;
  hq_server : string
}.
(** What an endpoint finds around it: the clock, the random bytes it draws,
    the answer of a ping, and the state of the alert evaluator. *)
Record surroundings := {
  su_now : Z;
  su_rand : option string;
  su_hex : option string;
  su_bytes : option (list Z);
  su_ping : option (result error unit);
  su_alerts : option (list (gmap string json_value) * list (gmap string json_value))
}.

Record health_page := {
  hp_status : string;
  hp_version : string;
  hp_hub_mode : bool;
  hp_uptime_seconds : Z;
  hp_timestamp : Z;
  hp_downsampling : bool;
  hp_purge : bool
}.
(** The documents of the dashboard. *)
Record assets := { as_html : string; as_js : string; as_chart : string }.
Record static_page := { sg_ContentType : string; sg_Body : string }.

(** What an answer carries.  Answers of [/api/session] set cookies even when
    they are errors. *)
Inductive document :=
| DocHealth (h : health_page)
| DocReady (text : string)
| DocGauges (up uptime : Z)
| DocMetrics (page : read_reply metricDataPoint)
| DocProcesses (page : read_reply processDataPoint)
| DocServers (page : page_reply string)
| DocCSV (csv : csv_reply)
| DocAlerts (active : list (gmap string json_value)) (count : Z) (history : list (gmap string json_value))
| DocSession (a : answer (option sessionResponse))
| DocAccepted (outcomes : list IngestOutcome)
| DocEnrolled (e : enrollResponse)
| DocCode (c : adminEnrollCodeResponse)
| DocAgents (a : agents_reply)
| DocClients (c : clients_reply)
| DocAudit (events : list AuditEvent) (complete : bool)
| DocExpected (tenant : string) (agents : list expectedAgent)
| DocStatic (p : static_page)
| DocRedirect (path : string).

(** ** The route table *)

Inductive endpoint :=
| EpMetrics | EpProcesses | EpHealth | EpReady | EpPrometheus | EpExportCSV | EpServers | EpSession
| EpIngest | EpBatch | EpEnroll | EpAdminEnrollCodes | EpAdminAgents | EpAdminClients | EpAdminAgentRotate
| EpAdminAudit | EpExpectedAgents | EpAlerts | EpStatic.
Definition mux : Type := list (string * endpoint).

Definition routes : mux :=
  [("/api/metrics", EpMetrics); ("/api/processes", EpProcesses); ("/api/health", EpHealth); ("/api/ready", EpReady);
   ("/metrics", EpPrometheus); ("/api/export/csv", EpExportCSV); ("/api/servers", EpServers);
   ("/api/session", EpSession)]%string.
Definition hub_routes : mux :=
  [("/api/ingest", EpIngest); ("/api/v1/ingest/batches", EpBatch); ("/api/enroll", EpEnroll);
   ("/api/admin/enroll-codes", EpAdminEnrollCodes); ("/api/admin/agents", EpAdminAgents);
   ("/api/admin/clients", EpAdminClients); ("/api/admin/agents/rotate", EpAdminAgentRotate);
   ("/api/admin/audit", EpAdminAudit); ("/api/admin/agents/expected", EpExpectedAgents)]%string.
Definition alert_routes : mux := [("/api/alerts"%string, EpAlerts)].
Definition static_routes : mux := [("/"%string, EpStatic)].
(** Which of them a program registers, in its order. *)
Definition registered (hubMode alerting dashboard : bool) : mux :=
  routes ++ (if hubMode then hub_routes else []) ++ (if dashboard then static_routes else []) ++
  (if alerting then alert_routes else []).

(** [ServeMux]: an exact pattern, and ["/"] for every other path. *)
Fixpoint pattern (path : string) (m : mux) : option endpoint :=
  match m with
  | [] => None
  | (p, e) :: m => if String.eqb p path then Some e else pattern path m
  end.
Definition matching (path : string) (m : mux) : option endpoint :=
  match pattern path m with
  | Some e => Some e
  | None => pattern "/" m
  end.
(** [cleanPath] of [net/http]: a path that differs from its clean form is
    redirected to it. *)
Definition cleanPath (path : string) : string :=
  let rooted_path := if HasPrefix path "/" then path else "/" +:+ path in
  let clean := Clean rooted_path in
  if HasSuffix rooted_path "/" && negb (String.eqb clean "/") then clean +:+ "/" else clean.

(** ** Constructing a server *)

Definition set_mode (hasKeys : bool) (h : hub) : hub :=
  {| hb_hubMode := true; hb_hasKeys := hasKeys; hb_cache := hb_cache h; hb_epoch := hb_epoch h;
     hb_refreshed := hb_refreshed h; hb_interval := hb_interval h; hb_sessions := hb_sessions h; hb_login := hb_login h;
     hb_touches := hb_touches h |}.
(** The tables of the database a server is opened on. *)
Record tables := { tb_ingest : ingest_db; tb_auth : auth_db; tb_audit : audit_db }.
(** [New]; the strings are the four budget settings. *)
Definition NewServer (db : tables) (rows bytes agentRows agentBytes : string) (pressure : bool) (now : Z) : site :=
  let '(policy, e) := New_policy rows bytes agentRows agentBytes in
  {| st_world := {| w_hub := New false false now; w_auth := tb_auth db; w_audit := tb_audit db |};
     st_limiter := newRateLimiter defaultRatePerSecond defaultBurst now; st_ingest := tb_ingest db;
     st_policy := policy; st_ingestion := false; st_ingestionErr := e; st_pressure := pressure; st_viewers := ∅;
     st_health := {| he_CheckedAt := zero_time; he_Err := None |}; st_startedAt := now |}.
(** [backend] says whether the store has ingestion, [init] whether its
    initialisation succeeds. *)
Definition EnableHubMode (hasKeys backend init : bool) (now : Z) : M site unit :=
  let* _ := modify (fun s => with_world (set_hub (set_mode hasKeys) (st_world s)) s) in
  let* _ := on_world (syncAuthEpoch now) in
  modify (fun s => let '(set, e) := ingest_setup (st_ingestionErr s) hasKeys backend init in
                   with_backend (st_policy s) set e s).

(** ** The endpoints of their own *)

Definition handleHealth (version : string) (r : request) (now : Z) : M site (hub_reply health_page) :=
  if negb (readOnly r) then refuse 405 "method not allowed"
  else inspect (fun s => answer_with
    {| hp_status := "ok"; hp_version := version; hp_hub_mode := hb_hubMode (w_hub (st_world s));
       hp_uptime_seconds := Sub now (st_startedAt s) `quot` second; hp_timestamp := Unix now;
       hp_downsampling := false; hp_purge := false |}).

(** The handler of [Register] in [dashboard.go]; [HEAD] has no body. *)
Definition static_body (docs : assets) (path : string) : option static_page :=
  if String.eqb path "/" || String.eqb path "/index.html"
  then Some {| sg_ContentType := "text/html; charset=utf-8"; sg_Body := as_html docs |}
  else if String.eqb path "/dashboard.js"
  then Some {| sg_ContentType := "text/javascript; charset=utf-8"; sg_Body := as_js docs |}
  else if String.eqb path "/chart.umd.min.js"
  then Some {| sg_ContentType := "text/javascript; charset=utf-8"; sg_Body := as_chart docs |}
  else None.
Definition handleStatic (docs : assets) (r : request) (path : string) : M site (hub_reply static_page) :=
  if negb (readOnly r) then refuse 405 "method not allowed"
  else match static_body docs path with
  | None => refuse 404 "404 page not found"
  | Some p =>
      answer_with {| sg_ContentType := sg_ContentType p;
                     sg_Body := if String.eqb (hr_Method r) "GET" then sg_Body p else EmptyString |}
  end.

(** ** Serving *)

Definition reply_map {A B : Type} (f : A -> B) (rp : hub_reply A) : hub_reply B :=
  Build_hub_reply (hr_RetryAfter rp) (let? a := hr_Result rp in Ok (f a)).
Definition documented {A : Type} (f : A -> document) (m : M site (hub_reply A)) : M site (hub_reply document) :=
  let* rp := m in ret (reply_map f rp).

Section serving.
Context `{Unicode} `{Net} `{OriginParser} `{Dialect} `{HubJSON} `{AdminJSON} `{Collation}.
Context (trusted_proxies : string) (sha256hex : string -> string) (conv : Z -> Z).
Context (key_le : key_row -> key_row -> Prop) `{!forall a b, Decision (key_le a b)}.
(** The login body, the build, the dashboard, the test override of [handleEnroll]. *)
Context (login_decode : string -> login_body) (version : string) (docs : assets) (insecure : bool).

Definition serve_at (e : endpoint) (q : http_request) (u : surroundings) : M site (hub_reply document) :=
  let r := hq_conn q in
  let now := su_now u in
  let arrived := if hq_cut q then None else Some (hq_body q) in
  match e with
  | EpMetrics => documented DocMetrics (handleMetrics trusted_proxies sha256hex conv r (hq_read q) now)
  | EpProcesses => documented DocProcesses (handleProcesses trusted_proxies sha256hex r (hq_read q) now)
  | EpHealth => documented DocHealth (handleHealth version r now)
  | EpReady => documented DocReady (handleReady r (su_ping u) now)
  | EpPrometheus =>
      documented (fun p => DocGauges p.1 p.2) (handlePrometheus trusted_proxies sha256hex r (su_ping u) now)
  | EpExportCSV => documented DocCSV (handleExportCSV trusted_proxies sha256hex conv r (hq_read q) now)
  | EpServers => documented DocServers (handleServers trusted_proxies sha256hex r (hq_read q) now)
  | EpSession =>
      let* a := on_world (handleSession trusted_proxies sha256hex r (login_decode (hq_body q)) (su_hex u) now) in
      answer_with (DocSession a)
  | EpIngest => documented DocAccepted (handleIngest trusted_proxies sha256hex r (hq_type q) arrived now)
  | EpBatch => documented DocAccepted (handleBatch trusted_proxies sha256hex r arrived now)
  | EpEnroll => documented DocEnrolled (handleEnroll trusted_proxies sha256hex insecure r (hq_body q) (su_rand u) now)
  | EpAdminEnrollCodes =>
      documented DocCode (handleAdminEnrollCodes trusted_proxies sha256hex key_le r (hq_body q) (su_hex u) (su_bytes u) now)
  | EpAdminAgents => documented DocAgents (handleAdminAgents trusted_proxies sha256hex r (hq_tenant q) (hq_server q) now)
  | EpAdminClients =>
      documented DocClients (handleAdminClients trusted_proxies sha256hex key_le r (hq_body q) (su_rand u) (su_hex u) now)
  | EpAdminAgentRotate =>
      documented DocEnrolled (handleAdminAgentRotate trusted_proxies sha256hex r (hq_body q) (su_rand u) now)
  | EpAdminAudit =>
      documented (fun p => DocAudit p.1 p.2) (handleAdminAudit trusted_proxies sha256hex r (hq_tenant q) now)
  | EpExpectedAgents =>
      documented (fun p => DocExpected p.1 p.2) (handleExpectedAgents trusted_proxies sha256hex r (hq_tenant q) now)
  | EpAlerts =>
      documented (fun p => DocAlerts p.1.1 p.1.2 p.2) (handleAlerts trusted_proxies sha256hex r (su_alerts u) now)
  | EpStatic => documented DocStatic (handleStatic docs r (hq_path q))
  end.

(** [ServeMux.ServeHTTP] *)
Definition ServeHTTP (m : mux) (q : http_request) (u : surroundings) : M site (hub_reply document) :=
  let path := cleanPath (hq_path q) in
  if negb (String.eqb path (hq_path q)) then answer_with (DocRedirect path)
  else match matching path m with
  | None => refuse 404 "404 page not found"
  | Some e => serve_at e q u
  end.

(** One request of the hub, as [http.Server] runs it. *)
Definition answer_request (m : mux) (q : http_request) (u : surroundings) : M site (hub_reply document) :=
  Handler (hq_conn q) (hq_path q) (documented DocHealth (handleHealth version (hq_conn q) (su_now u)))
    (ServeHTTP m q u) (su_now u).
End serving.
