(* ===== verification/HubProofs.v ===== *)
(** * What holds at a hub whatever is asked of it

    An invariant of the whole server - its tables, its caches and its memory -
    that every request to every endpoint preserves, whatever fails, and what a
    request can reach or leave behind without credentials or with a reading
    method.  The recordings of credential use that requests leave in the
    background are inputs of a history of their own. *)

From S2P Require Import Alerting.
From S2P Require Import EndToEnd.
From S2P Require Export AdminProofs ExportProofs Hub.
Open Scope list_scope.
Open Scope Z_scope.

(** ** Preserving an invariant, endpoint by endpoint *)

(** The computation leaves its state as it is. *)
Definition looks {S A : Type} (m : M S A) : Prop := forall s, preserves (eq s) m.
Lemma looks_zoom {S T A : Type} (P : S -> Prop) (get : S -> T) (put : T -> S -> S) (m : M T A) :
  (forall s, put (get s) s = s) -> looks m -> preserves P (zoom get put m).
Proof.
  intros Hput Hm s fs Hs. specialize (Hm (get s) (get s) fs eq_refl). unfold run_state, zoom in *.
  destruct (m (get s) fs) as [[r t] fs']. simpl in *. subst t. by rewrite Hput.
Qed.
Lemma looks_wp {S A : Type} (m : M S A) (Q : S -> result error A -> Prop) :
  (forall s, wp m (fun r s' => s' = s /\ Q s r) s) -> looks m.
Proof. intros Hm s0 s fs ->. specialize (Hm s fs). unfold run_state. by destruct (m s fs) as [[r s'] fs'], Hm as [-> _]. Qed.

(** A computation on the world, taken apart in the server. *)
Section worldwide.
Context (P : site -> Prop).
Lemma preserves_zoomed {A} (m : M world A) :
  (forall s fs, P s -> P (with_world (run_state m (st_world s) fs) s)) -> preserves P (on_world m).
Proof.
  intros Hm s fs Hs. specialize (Hm s fs Hs). unfold run_state, on_world, zoom in *.
  by destruct (m (st_world s) fs) as [[r w] fs'].
Qed.
Lemma world_keeps {A} (m : M world A) s fs :
  preserves P (on_world m) -> P s -> P (with_world (run_state m (st_world s) fs) s).
Proof.
  intros Hm Hs. specialize (Hm s fs Hs). unfold run_state, on_world, zoom in *.
  by destruct (m (st_world s) fs) as [[r w] fs'].
Qed.
Lemma preserves_world_ret {A} (a : A) : preserves P (on_world (ret a)).
Proof. apply preserves_zoomed. by intros []. Qed.
Lemma preserves_world_mbind {A B} (m : M world A) (k : A -> M world B) :
  preserves P (on_world m) -> (forall a, preserves P (on_world (k a))) -> preserves P (on_world (mbind m k)).
Proof.
  intros Hm Hk. apply preserves_zoomed. intros s fs Hs. pose proof (world_keeps m s fs Hm Hs) as Hs1.
  unfold run_state, mbind in *. destruct (m (st_world s) fs) as [[[a|e] w] fs1]; simpl in *; [|done].
  exact (world_keeps (k a) (with_world w s) fs1 (Hk a) Hs1).
Qed.
Lemma preserves_world_attempt {A} (m : M world A) : preserves P (on_world m) -> preserves P (on_world (attempt m)).
Proof.
  intros Hm. apply preserves_zoomed. intros s fs Hs. pose proof (world_keeps m s fs Hm Hs) as Hs1.
  unfold run_state, attempt in *. by destruct (m (st_world s) fs) as [[r w] fs1].
Qed.
Lemma preserves_world_inspect {A} (f : world -> M world A) :
  (forall w, preserves P (on_world (f w))) -> preserves P (on_world (inspect f)).
Proof. intros Hf. apply preserves_zoomed. intros s fs. apply (world_keeps (f (st_world s))), Hf. Qed.
End worldwide.

Create HintDb hub.

(** Follow the shape of a handler; what it does to the site is in the hints. *)
Ltac keeping :=
  repeat (cbv zeta;
    lazymatch goal with
    | |- forall _, _ => intro
    | |- preserves _ (ret _) => apply preserves_ret
    | |- preserves _ (fail _) => apply preserves_fail
    | |- preserves _ (lift _) => apply preserves_lift
    | |- preserves _ (query _) => apply preserves_query
    | |- preserves _ (query_row _) => apply preserves_query_row
    | |- preserves _ (refuse _ _) => apply preserves_ret
    | |- preserves _ (refuse_for _ _ _) => apply preserves_ret
    | |- preserves _ (refuse_as _) => apply preserves_ret
    | |- preserves _ (answer_with _) => apply preserves_ret
    | |- preserves _ (reject _ _) => apply preserves_ret
    | |- preserves _ (documented _ _) => apply preserves_mbind
    | |- preserves _ (mbind _ _) => apply preserves_mbind
    | |- preserves _ (attempt _) => apply preserves_attempt
    | |- preserves _ (wrap_err _ _) => unfold wrap_err
    | |- preserves _ (inspect _) => apply preserves_inspect; intros ? _
    | |- preserves _ (whenM _ _) => apply preserves_whenM
    | |- preserves _ (match ?x with _ => _ end) => destruct x
    | |- preserves _ (on_world (ret _)) => apply preserves_world_ret
    | |- preserves _ (on_world (reject _ _)) => apply preserves_world_ret
    | |- preserves _ (on_world (mbind _ _)) => apply preserves_world_mbind
    | |- preserves _ (on_world (attempt _)) => apply preserves_world_attempt
    | |- preserves _ (on_world (inspect _)) => apply preserves_world_inspect
    | |- preserves _ (on_world (match ?x with _ => _ end)) => destruct x
    | |- preserves _ _ => solve [eauto 3 with hub]
    end).

Section reading.
Context `{Unicode} `{Net} `{OriginParser} `{Dialect} `{HubJSON} `{AdminJSON} `{Collation}.
Context (trusted_proxies : string) (sha256hex : string -> string) (conv : Z -> Z).
Context (key_le : key_row -> key_row -> Prop) `{!forall a b, Decision (key_le a b)}.
Context (login_decode : string -> login_body) (version : string) (docs : assets) (insecure : bool).

(** What reading requests do to the server; [touches] are the credentials they
    may leave a [TouchAPIKey] running for. *)
Context (P : site -> Prop) (touches : string -> Prop).
Definition shows (r : request) : Prop := forall hash, own_key sha256hex r hash -> touches hash.
Context (keeps_steps : forall now s w, steps touches now (st_world s) w -> P s -> P (with_world w s))
        (keeps_limit : forall key now s, P s -> P (with_limiter (allow key now (st_limiter s)).2 s))
        (keeps_viewer : forall ip now s, P s -> P (with_viewers (track ip now (st_viewers s)) s))
        (keeps_health : forall h s, P s -> P (with_health h s)).

Lemma keeps_stepwise {A} now (m : M world A) : stepwise touches now m -> preserves P (on_world m).
Proof.
  intros Hm. apply wp_preserves. intros s Hs. apply wp_zoom. eapply wp_mono; [apply Hm|]. intros r w Hw.
  exact (keeps_steps now s w Hw Hs).
Qed.
Lemma keeps_limited key now : preserves P (limited key now).
Proof.
  apply wp_preserves. intros s Hs. apply wp_inspect. pose proof (keeps_limit key now s Hs) as Hk.
  destruct (allow key now (st_limiter s)) as [ok l]. by apply wp_mbind, wp_modify, wp_ret.
Qed.
Lemma keeps_authorize r scope now : shows r -> preserves P (authorize trusted_proxies sha256hex r scope now).
Proof. intros Hr. unfold authorize. by apply (keeps_stepwise now), authPrincipal_steps. Qed.
Lemma keeps_authTenantScope r scope now :
  shows r -> preserves P (on_world (authTenantScope trusted_proxies sha256hex r scope now)).
Proof.
  intros Hr. apply (keeps_stepwise now). apply stepwise_mbind; [by apply authPrincipal_steps|intros; apply stepwise_ret].
Qed.
Lemma keeps_authTenant r now : shows r -> preserves P (on_world (authTenant trusted_proxies sha256hex r now)).
Proof. apply keeps_authTenantScope. Qed.
Lemma keeps_lookupSession r now : preserves P (on_world (lookupSession r now)).
Proof. apply (keeps_stepwise now), lookupSession_steps. Qed.
Lemma keeps_trackViewer r now : preserves P (trackViewer r now).
Proof. apply preserves_modify. intros s. apply keeps_viewer. Qed.
Lemma keeps_rows {A} (m : M rows_db A) : looks m -> preserves P (on_rows m).
Proof.
  intros Hm. apply looks_zoom; [by intros []|]. intros d. apply looks_zoom; [by intros []|exact Hm].
Qed.
Lemma on_keys_looks {A} (m : M auth_db A) : looks m -> looks (on_keys m).
Proof.
  intros Hm w w' fs <-. specialize (Hm (w_auth w) (w_auth w) fs eq_refl). unfold run_state, on_keys in *.
  destruct (m (w_auth w) fs) as [[r d] fs']. simpl in *. subst d. by destruct w.
Qed.
Lemma keeps_store {A} (m : M auth_db A) : looks m -> preserves P (on_store m).
Proof. intros Hm. apply looks_zoom; [by intros []|by apply on_keys_looks]. Qed.
Lemma keeps_list : preserves P (on_store (ListAPIKeys key_le)).
Proof. apply keeps_store. intros d. apply preserves_query. Qed.
Lemma keeps_agents tenant : preserves P (on_store (ListAgents tenant)).
Proof. apply keeps_store. intros d. apply preserves_query. Qed.
Lemma keeps_hashes tenant server : preserves P (on_store (ActiveAgentHashes tenant server)).
Proof. apply keeps_store. intros d. apply preserves_query. Qed.
Lemma on_audit_looks {A} (m : M audit_db A) : looks m -> looks (on_audit m).
Proof.
  intros Hm w w' fs <-. specialize (Hm (w_audit w) (w_audit w) fs eq_refl). unfold run_state, on_audit in *.
  destruct (m (w_audit w) fs) as [[r d] fs']. simpl in *. subst d. by destruct w.
Qed.
Lemma keeps_trail tenant limit : preserves P (on_world (on_audit (ListAudit tenant limit))).
Proof.
  apply looks_zoom; [by intros []|]. apply on_audit_looks. intros d. unfold ListAudit. preserve.
Qed.
Lemma keeps_actorPrefix kind hash now : preserves P (on_world (actorPrefix kind hash now)).
Proof.
  apply (keeps_stepwise now), stepwise_inspect. intros w. destruct (_ || _); [apply stepwise_ret|].
  apply stepwise_mbind; [apply stepwise_attempt, stepwise_resolve|]. intros [rec|e]; apply stepwise_ret.
Qed.
Lemma keeps_invalidate hashes now : preserves P (on_world (invalidateHashes hashes now)).
Proof. apply (keeps_stepwise now), invalidateHashes_steps. Qed.
Lemma keeps_drop id : preserves P (on_world (drop_session id)).
Proof. apply (keeps_stepwise 0), stepwise_modify. intros w. apply HsSession_of. Qed.
Lemma keeps_session_get id now :
  preserves P (on_world (on_hub (fun h => let '(e, m) := session_get id now (hb_sessions h) in (e, set_sessions m h)))).
Proof.
  apply (keeps_stepwise now), stepwise_on_hub. intros w. pose proof (session_get_step touches now id now w) as Hstep.
  unfold set_hub in *. by destruct (session_get _ _ _).
Qed.
Lemma keeps_resolve hash now : preserves P (on_world (on_keys (ResolveAPIKey hash now))).
Proof. apply (keeps_stepwise now), stepwise_resolve. Qed.
#[local] Hint Resolve keeps_resolve keeps_actorPrefix keeps_invalidate keeps_drop keeps_session_get keeps_limited keeps_authorize keeps_authTenantScope keeps_authTenant keeps_lookupSession
  keeps_trackViewer keeps_list keeps_agents keeps_hashes keeps_trail : hub.

Lemma keeps_for_tenant {A} r now (k : string -> M site (hub_reply A)) :
  shows r -> (forall tenant, preserves P (k tenant)) -> preserves P (for_tenant trusted_proxies sha256hex r now k).
Proof. intros Hr Hk. unfold for_tenant, enforceRate. keeping. Qed.

(** *** The reading endpoints *)

Lemma keeps_handleMetrics r q now : shows r -> preserves P (handleMetrics trusted_proxies sha256hex conv r q now).
Proof.
  intros Hr. apply keeps_for_tenant; [exact Hr|]. intros tenant. keeping. apply keeps_rows. intros d. unfold metrics_reply, queryMetricsPage.
  keeping. eapply looks_wp. intros d'. apply wp_QueryMetricsQ.
Qed.
Lemma keeps_handleProcesses r q now : shows r -> preserves P (handleProcesses trusted_proxies sha256hex r q now).
Proof.
  intros Hr. apply keeps_for_tenant; [exact Hr|]. intros tenant. keeping. apply keeps_rows. intros d. unfold processes_reply.
  keeping. eapply looks_wp. intros d'. apply wp_QueryProcessesQ.
Qed.
Lemma keeps_handleServers r q now : shows r -> preserves P (handleServers trusted_proxies sha256hex r q now).
Proof.
  intros Hr. apply keeps_for_tenant; [exact Hr|]. intros tenant. keeping. apply keeps_rows. intros d.
  unfold servers_reply, QueryServersPage. keeping.
Qed.
Lemma keeps_handleExportCSV r q now : shows r -> preserves P (handleExportCSV trusted_proxies sha256hex conv r q now).
Proof.
  intros Hr. apply keeps_for_tenant; [exact Hr|]. intros tenant. keeping. apply keeps_rows. intros d.
  unfold WriteCSV, writeCSV, exportView_QueryMetrics, queryMetricsPage. keeping.
  eapply looks_wp. intros d'. apply wp_QueryMetricsQ.
Qed.
Lemma keeps_handleAlerts r source now : shows r -> preserves P (handleAlerts trusted_proxies sha256hex r source now).
Proof. intros Hr. unfold handleAlerts, enforceRate. keeping. Qed.
Lemma keeps_healthSnapshot ping now : preserves P (healthSnapshot ping now).
Proof. unfold healthSnapshot. keeping. apply preserves_modify. intros s1. apply keeps_health. Qed.
#[local] Hint Resolve keeps_healthSnapshot : hub.
Lemma keeps_handleReady r ping now : preserves P (handleReady r ping now).
Proof. unfold handleReady. keeping. Qed.
Lemma keeps_handlePrometheus r ping now : shows r -> preserves P (handlePrometheus trusted_proxies sha256hex r ping now).
Proof. intros Hr. unfold handlePrometheus. keeping. Qed.
Lemma keeps_handleHealth r now : preserves P (handleHealth version r now).
Proof. unfold handleHealth. keeping. Qed.
Lemma keeps_handleStatic r path : preserves P (handleStatic docs r path).
Proof. unfold handleStatic. keeping. Qed.
Lemma keeps_for_audit {A} r tenant now (k : string -> M site (hub_reply A)) :
  shows r -> (forall t, preserves P (k t)) -> preserves P (for_audit trusted_proxies sha256hex r tenant now k).
Proof. intros Hr Hk. unfold for_audit. keeping. Qed.
Lemma keeps_handleAdminAudit r tenant now : shows r -> preserves P (handleAdminAudit trusted_proxies sha256hex r tenant now).
Proof. intros Hr. apply keeps_for_audit; [exact Hr|]. keeping. Qed.
Lemma keeps_handleExpectedAgents r tenant now : shows r -> preserves P (handleExpectedAgents trusted_proxies sha256hex r tenant now).
Proof. intros Hr. apply keeps_for_audit; [exact Hr|]. keeping. Qed.

(** *** Requests with a reading method *)

Lemma reading_method r :
  readOnly r = true -> String.eqb (hr_Method r) "POST" = false /\ String.eqb (hr_Method r) "DELETE" = false.
Proof. unfold readOnly. intros [Hm|Hm]%orb_true_iff; apply String.eqb_eq in Hm as ->; done. Qed.

#[local] Hint Resolve keeps_handleMetrics keeps_handleProcesses keeps_handleServers keeps_handleExportCSV
  keeps_handleAlerts keeps_handleReady keeps_handlePrometheus keeps_handleHealth keeps_handleStatic
  keeps_handleAdminAudit keeps_handleExpectedAgents : hub.
Lemma keeps_session_read r body hex now :
  shows r -> readOnly r = true -> preserves P (on_world (handleSession trusted_proxies sha256hex r body hex now)).
Proof.
  intros Hr [Hp Hd]%reading_method. unfold handleSession, session_show. rewrite Hp, Hd. keeping.
Qed.
Lemma keeps_admin_read r tenant server body rand hex now :
  shows r -> readOnly r = true ->
  preserves P (handleAdminAgents trusted_proxies sha256hex r tenant server now) /\
  preserves P (handleAdminClients trusted_proxies sha256hex key_le r body rand hex now).
Proof.
  intros Hr [Hp Hd]%reading_method. unfold handleAdminAgents, handleAdminClients, as_admin. rewrite Hp, Hd.
  split; keeping.
Qed.
Lemma keeps_serve_read e q u :
  shows (hq_conn q) -> readOnly (hq_conn q) = true ->
  preserves P (serve_at trusted_proxies sha256hex conv key_le login_decode version docs insecure e q u).
Proof.
  intros Hs Hr. pose proof (reading_method _ Hr) as [Hp Hd].
  pose proof (keeps_session_read (hq_conn q) (login_decode (hq_body q)) (su_hex u) (su_now u) Hs Hr).
  destruct (keeps_admin_read (hq_conn q) (hq_tenant q) (hq_server q) (hq_body q) (su_rand u) (su_hex u) (su_now u) Hs Hr).
  unfold serve_at, handleIngest, handleBatch, receiveBatch, handleEnroll, handleAdminEnrollCodes, handleAdminAgentRotate.
  rewrite Hp. cbn [negb]. keeping.
Qed.
Lemma keeps_read_request m q u :
  shows (hq_conn q) -> readOnly (hq_conn q) = true ->
  preserves P (answer_request trusted_proxies sha256hex conv key_le login_decode version docs insecure m q u).
Proof.
  intros Hs Hr. pose proof (fun e => keeps_serve_read e q u Hs Hr). unfold answer_request, Handler, ServeHTTP. keeping.
Qed.

(** *** The writing endpoints *)

(** What they do to the server besides; [issues] are the hashes of the
    credentials they may register. *)
Context (issues : string -> Prop).
Context (keeps_op : forall o s fs, (forall hash, op_issues o = Some hash -> issues hash) -> P s -> P (with_world (with_auth (run_state (do_op o) (w_auth (st_world s)) fs) (st_world s)) s))
        (keeps_recordAudit : forall ev now, preserves P (on_world (recordAudit ev now)))
        (keeps_login : forall key now, preserves P (on_world (on_hub
           (fun h => let '(ok, l) := allow key now (hb_login h) in (ok, set_login l h)))))
        (keeps_put : forall id ent now, preserves P (on_world (on_hub
           (fun h => let '(ok, m) := session_put id ent now (hb_sessions h) in (ok, set_sessions m h)))))
        (keeps_accept : forall tenant agent batch now s,
           P s -> preserves P (on_ingest (AcceptIngest hj_marshal hj_sha256hex tenant agent batch (st_policy s) now))).

Lemma run_state_forget {S A} (m : M S A) s fs : run_state (forget m) s fs = run_state m s fs.
Proof. unfold run_state, forget, mbind. by destruct (m s fs) as [[[a|e] s'] fs']. Qed.
Lemma keeps_operation {A} (m : M auth_db A) o :
  (forall hash, op_issues o = Some hash -> issues hash) ->
  (forall d fs, run_state m d fs = run_state (do_op o) d fs) -> preserves P (on_world (on_keys m)).
Proof.
  intros Hi Hm. apply preserves_zoomed. intros s fs Hs. pose proof (keeps_op o s fs Hi Hs) as Hop. rewrite <- Hm in Hop.
  unfold run_state, on_keys in *. by destruct (m (w_auth (st_world s)) fs) as [[r d] fs'].
Qed.
Lemma keeps_RevokeKeyHash hash now : preserves P (on_world (on_keys (RevokeKeyHash hash now))).
Proof. apply (keeps_operation _ (OpRevokeHash hash now)); [done|]. intros. symmetry. apply run_state_forget. Qed.
Lemma keeps_RevokeAgent tenant server now : preserves P (on_store (RevokeAgent tenant server now)).
Proof. apply (keeps_operation _ (OpRevokeAgent tenant server now)); [done|]. intros. symmetry. apply run_state_forget. Qed.
Lemma keeps_code_record tenant client hash uses expires t now :
  issues hash -> preserves P (on_store (UpsertAPIKey (code_record tenant client hash uses expires t) now)).
Proof. intros Hi. apply (keeps_operation _ (OpUpsert (code_record tenant client hash uses expires t) now)); [by intros ? [= <-]|done]. Qed.
Lemma keeps_client_record tenant client hash prefix t now :
  issues hash -> preserves P (on_store (UpsertAPIKey (client_record tenant client hash prefix t) now)).
Proof. intros Hi. apply (keeps_operation _ (OpUpsert (client_record tenant client hash prefix t) now)); [by intros ? [= <-]|done]. Qed.
Lemma keeps_CompleteEnrollment req token now :
  issues (HashAPIKey sha256hex token) -> preserves P (on_store (CompleteEnrollment (enrollment_of sha256hex req token) now)).
Proof.
  intros Hi. apply (keeps_operation _ (OpEnroll (enrollment_of sha256hex req token) now)); [by intros ? [= <-]|].
  intros. symmetry. apply run_state_forget.
Qed.
Lemma keeps_ReplaceAgent tenant server token hash prefix now :
  issues hash -> preserves P (on_store (ReplaceAgent tenant server token hash prefix now)).
Proof.
  intros Hi. apply (keeps_operation _ (OpReplace tenant server token hash prefix now)); [by intros ? [= <-]|].
  intros. symmetry. apply run_state_forget.
Qed.
Lemma keeps_append ev now : preserves P (append_audit ev now).
Proof. apply preserves_attempt, keeps_recordAudit. Qed.
#[local] Hint Resolve keeps_recordAudit keeps_login keeps_put keeps_RevokeKeyHash keeps_RevokeAgent keeps_code_record keeps_client_record
  keeps_CompleteEnrollment keeps_ReplaceAgent keeps_append : hub.
Lemma keeps_audit_as p tenant action target id now : preserves P (audit_as p tenant action target id now).
Proof. unfold audit_as. keeping. Qed.
Lemma keeps_unaudited hash now : preserves P (on_world (revokeUnauditedHash hash now)).
Proof. unfold revokeUnauditedHash. keeping. Qed.
Lemma keeps_code_tenant req name : preserves P (code_tenant key_le req name).
Proof. unfold code_tenant. keeping. Qed.
#[local] Hint Resolve keeps_audit_as keeps_unaudited keeps_code_tenant : hub.

Lemma keeps_store_batch p legacy type body now : preserves P (store_batch p legacy type body now).
Proof.
  unfold store_batch. apply preserves_inspect. intros s Hs.
  pose proof (fun tenant agent batch => keeps_accept tenant agent batch now s Hs). keeping.
Qed.
#[local] Hint Resolve keeps_store_batch : hub.
Lemma keeps_receiveBatch r legacy type body now :
  shows r -> preserves P (receiveBatch trusted_proxies sha256hex r legacy type body now).
Proof. intros Hr. unfold receiveBatch. keeping. Qed.
Lemma keeps_handleSession r body hex now :
  shows r -> preserves P (on_world (handleSession trusted_proxies sha256hex r body hex now)).
Proof. intros Hr. unfold handleSession, session_show, session_login, session_create, session_logout. keeping. Qed.
Definition issues_token (rand : option string) : Prop :=
  forall kind x, rand = Some x -> issues (HashAPIKey sha256hex (GenerateToken kind x)).
Definition issues_code (bytes : option (list Z)) : Prop :=
  forall x, bytes = Some x -> issues (HashEnrollCode sha256hex (GenerateEnrollCode x)).
Lemma issues_drawn kind x : issues_token (Some x) -> issues (HashAPIKey sha256hex (GenerateToken kind x)).
Proof. intros Hi. by apply Hi. Qed.
Lemma issues_drawn_code x : issues_code (Some x) -> issues (HashEnrollCode sha256hex (GenerateEnrollCode x)).
Proof. intros Hi. by apply Hi. Qed.
#[local] Hint Resolve issues_drawn issues_drawn_code : hub.
Lemma keeps_handleEnroll r body rand now : issues_token rand ->
  preserves P (handleEnroll trusted_proxies sha256hex insecure r body rand now).
Proof. intros Hi. unfold handleEnroll, enroll_result. keeping. Qed.
Lemma keeps_handleAdminEnrollCodes r body hex bytes now : shows r -> issues_code bytes ->
  preserves P (handleAdminEnrollCodes trusted_proxies sha256hex key_le r body hex bytes now).
Proof. intros Hr Hi. unfold handleAdminEnrollCodes, as_admin, issue_code. keeping. Qed.
Lemma keeps_handleAdminAgents r tenant server now :
  shows r -> preserves P (handleAdminAgents trusted_proxies sha256hex r tenant server now).
Proof. intros Hr. unfold handleAdminAgents, as_admin, revoke_agent, revoke_now. keeping. Qed.
Lemma keeps_handleAdminClients r body rand hex now : shows r -> issues_token rand ->
  preserves P (handleAdminClients trusted_proxies sha256hex key_le r body rand hex now).
Proof. intros Hr Hi. unfold handleAdminClients, as_admin, create_client. keeping. Qed.
Lemma keeps_handleAdminAgentRotate r body rand now : shows r -> issues_token rand ->
  preserves P (handleAdminAgentRotate trusted_proxies sha256hex r body rand now).
Proof. intros Hr Hi. unfold handleAdminAgentRotate, as_admin, Admin.rotate. keeping. Qed.

(** *** Requests *)

#[local] Hint Resolve keeps_handleSession keeps_handleEnroll
  keeps_handleAdminEnrollCodes keeps_handleAdminAgents keeps_handleAdminClients keeps_handleAdminAgentRotate
  keeps_receiveBatch : hub.

(** The credentials a request may lead to come from the random bytes it
    draws. *)
Definition draws (u : surroundings) : Prop := issues_token (su_rand u) /\ issues_code (su_bytes u).
Lemma keeps_serve_at e q u : shows (hq_conn q) -> draws u ->
  preserves P (serve_at trusted_proxies sha256hex conv key_le login_decode version docs insecure e q u).
Proof. intros Hr [Hrand Hbytes]. unfold serve_at, handleIngest, handleBatch. keeping. Qed.
Lemma keeps_request m q u : shows (hq_conn q) -> draws u ->
  preserves P (answer_request trusted_proxies sha256hex conv key_le login_decode version docs insecure m q u).
Proof.
  intros Hr Hd. pose proof (fun e => keeps_serve_at e q u Hr Hd). unfold answer_request, Handler, ServeHTTP. keeping.
Qed.
End reading.

(** ** The invariant *)

(** The trail holds valid events under numbers of their own. *)
Record trail_ok (d : audit_db) : Prop := {
  tr_valid : Forall (fun r => audit_validate (ar_event r) = Ok tt) (au_rows d);
  tr_numbered : Forall (fun r => ar_id r < au_next d) (au_rows d);
  tr_distinct : NoDup (map ar_id (au_rows d))
}.
(** Credentials are consistent and typed, whoever is remembered has a tenant,
    and what attackers can make the hub remember is bounded. *)
Record sound_world (w : world) : Prop := {
  sw_auth : auth_ok (w_auth w);
  sw_tenanted : tenanted w;
  sw_trail : trail_ok (w_audit w);
  sw_cache : Z.of_nat (size (hb_cache (w_hub w))) <= 10001;
  sw_sessions : store_ok (hb_sessions (w_hub w));
  sw_login : Z.of_nat (size (rl_buckets (hb_login (w_hub w)))) <= maxRateBuckets
}.
Record sound `{HubJSON} (s : site) : Prop := {
  so_world : sound_world (st_world s);
  so_limiter : Z.of_nat (size (rl_buckets (st_limiter s))) <= maxRateBuckets;
  so_viewers : Z.of_nat (size (st_viewers s)) <= 4096;
  so_ingest : ingest_inv hj_marshal hj_sha256hex (st_ingest s)
}.

Lemma cache_put_size hash e (c : gmap string authCacheEntry) :
  Z.of_nat (size c) <= 10001 -> Z.of_nat (size (cache_put hash e c)) <= 10001.
Proof.
  intros Hc. unfold cache_put. cbv zeta. destruct (_ <? _) eqn:E; bools.
  - change (Z.of_nat (size (<[hash := e]> (∅ : gmap string authCacheEntry))) <= 10001).
    rewrite map_size_insert, lookup_empty, map_size_empty. done.
  - change (Z.of_nat (size (<[hash := e]> c)) <= 10001).
    change (Z.of_nat (size c) <= 10000) in E. rewrite map_size_insert. destruct (c !! hash); unfold id; lia.
Qed.
Lemma step_sound K now w w' : hub_step K now w w' -> sound_world w -> sound_world w'.
Proof.
  intros Hs [S1 S2 S3 S4 S5 S6]. pose proof (step_tenanted _ _ _ _ Hs S2) as Ht.
  destruct Hs as [m w Hm|hash w|hash e w He Hx Hv|w|hash w HK]; split; simpl; try done.
  - by eapply store_ok_subseteq.
  - pose proof (map_subseteq_size _ _ (delete_subseteq (hb_cache (w_hub w)) hash)). unfold authCache in *. lia.
  - by apply cache_put_size.
Qed.
Lemma steps_sound K now w w' : steps K now w w' -> sound_world w -> sound_world w'.
Proof. induction 1; eauto using step_sound. Qed.

Lemma AppendAudit_trail ev now : preserves trail_ok (AppendAudit ev now).
Proof.
  intros d fs Hd. unfold AppendAudit, lift, run_state, mbind. destruct (audit_validate ev) as [[]|] eqn:Ev; [|done].
  refine (preserves_exec _ _ _ d fs Hd). clear d fs Hd. intros d [T1 T2 T3]. split; simpl.
  - apply Forall_app_2; [done|]. by apply Forall_singleton.
  - apply Forall_app_2; [|apply Forall_singleton; simpl; lia]. eapply Forall_impl; [exact T2|]. simpl. lia.
  - rewrite map_app. apply NoDup_app. split; [done|]. split; [|apply NoDup_singleton].
    intros i (r & -> & Hr)%list_elem_of_fmap Hi%list_elem_of_singleton. rewrite Forall_forall in T2.
    specialize (T2 r Hr). simpl in Hi. lia.
Qed.
Lemma session_put_ok id ent now m : store_ok m -> store_ok (session_put id ent now m).2.
Proof.
  intros Hok. pose proof (session_put_eq id ent now m) as ->. cbv zeta.
  set (live := filter (session_live now) m).
  assert (Hlive : store_ok live) by (eapply store_ok_subseteq; [apply map_filter_subseteq|done]).
  pose proof (store_ok_subseteq _ _ (evict_subseteq (se_credHash ent) live) Hlive) as Hev.
  destruct (Z.leb_spec maxSessions (Z.of_nat (size (evict (se_credHash ent) live)))); [done|].
  apply store_ok_insert; [lia|done|]. apply evict_room, Hlive.
Qed.
Lemma track_size ip now m : Z.of_nat (size m) <= 4096 -> Z.of_nat (size (track ip now m)) <= 4096.
Proof.
  intros Hm. unfold track. cbv zeta. assert (Hd : (size (drop_idle now m) <= size m)%nat)
    by apply map_subseteq_size, map_filter_subseteq.
  destruct (Z.ltb_spec (Z.of_nat (size (drop_idle now m))) 4096); [|lia].
  rewrite map_size_insert. destruct (drop_idle now m !! ip); unfold id; lia.
Qed.

(** ** Every request is answered *)

(** Follow the shape of a handler that always comes to an answer. *)
Ltac replying :=
  repeat (cbv zeta;
    lazymatch goal with
    | |- forall _, _ => intro
    | |- answers (ret _) => apply answers_ret
    | |- answers (refuse _ _) => apply answers_ret
    | |- answers (refuse_for _ _ _) => apply answers_ret
    | |- answers (refuse_as _) => apply answers_ret
    | |- answers (answer_with _) => apply answers_ret
    | |- answers (reject _ _) => apply answers_ret
    | |- answers (modify _) => apply answers_modify
    | |- answers (documented _ _) => apply answers_mbind
    | |- answers (mbind _ _) => apply answers_mbind
    | |- answers (attempt _) => apply answers_attempt
    | |- answers (inspect _) => apply answers_inspect
    | |- answers (on_world _) => apply answers_zoom
    | |- answers (on_hub _) => unfold on_hub
    | |- answers (whenM _ _) => apply answers_whenM
    | |- answers (match ?x with _ => _ end) => destruct x
    | |- answers _ => solve [eauto 2 with hub]
    end).

Section replies.
Context `{Unicode} `{Net} `{OriginParser} `{Dialect} `{HubJSON} `{AdminJSON} `{Collation}.
Context (trusted_proxies : string) (sha256hex : string -> string) (conv : Z -> Z).
Context (key_le : key_row -> key_row -> Prop) `{!forall a b, Decision (key_le a b)}.
Context (login_decode : string -> login_body) (version : string) (docs : assets) (insecure : bool).

Lemma syncAuthEpoch_answers now : answers (syncAuthEpoch now).
Proof. unfold syncAuthEpoch. replying. Qed.
#[local] Hint Resolve authPrincipal_answers authorize_answers limited_answers lookupSession_answers syncAuthEpoch_answers : hub.
Lemma invalidateHashes_answers hashes now : answers (invalidateHashes hashes now).
Proof.
  unfold invalidateHashes. apply answers_mbind; [|intros; apply syncAuthEpoch_answers].
  induction hashes as [|h hs IH]; simpl; [apply answers_ret|]. unfold invalidate. apply answers_mbind; [apply answers_modify|by intros _].
Qed.
#[local] Hint Resolve invalidateHashes_answers : hub.
Lemma for_tenant_answers {A} r now (k : string -> M site (hub_reply A)) :
  (forall tenant, answers (k tenant)) -> answers (for_tenant trusted_proxies sha256hex r now k).
Proof. intros Hk. unfold for_tenant, authTenant, authTenantScope, enforceRate. replying. Qed.
Lemma reads_answer r q tenant source ping now :
  answers (handleMetrics trusted_proxies sha256hex conv r q now) /\
  answers (handleProcesses trusted_proxies sha256hex r q now) /\
  answers (handleServers trusted_proxies sha256hex r q now) /\
  answers (handleExportCSV trusted_proxies sha256hex conv r q now) /\
  answers (handleAlerts trusted_proxies sha256hex r source now) /\
  answers (handleReady r ping now) /\
  answers (handlePrometheus trusted_proxies sha256hex r ping now) /\
  answers (handleAdminAudit trusted_proxies sha256hex r tenant now) /\
  answers (handleExpectedAgents trusted_proxies sha256hex r tenant now).
Proof.
  split_and!; try (apply for_tenant_answers; replying);
    unfold handleAlerts, handleReady, handlePrometheus, handleAdminAudit, handleExpectedAgents, for_audit,
      healthSnapshot, authTenant, authTenantScope, enforceRate; replying.
Qed.
Lemma handleSession_answers r body hex now : answers (handleSession trusted_proxies sha256hex r body hex now).
Proof.
  unfold handleSession, session_show, session_login, session_create, session_logout, drop_session, actorPrefix. replying.
Qed.
Lemma writes_answer r body rand hex bytes tenant server now :
  answers (handleEnroll trusted_proxies sha256hex insecure r body rand now) /\
  answers (handleAdminEnrollCodes trusted_proxies sha256hex key_le r body hex bytes now) /\
  answers (handleAdminAgents trusted_proxies sha256hex r tenant server now) /\
  answers (handleAdminClients trusted_proxies sha256hex key_le r body rand hex now) /\
  answers (handleAdminAgentRotate trusted_proxies sha256hex r body rand now).
Proof.
  split_and!; unfold handleEnroll, enroll_result, handleAdminEnrollCodes, code_tenant, issue_code, handleAdminAgents,
    revoke_agent, revoke_now, handleAdminClients, create_client, handleAdminAgentRotate, Admin.rotate,
    as_admin, audit_as, append_audit, actorPrefix, revokeUnauditedHash; replying.
Qed.
Lemma request_answers m q u :
  answers (answer_request trusted_proxies sha256hex conv key_le login_decode version docs insecure m q u).
Proof.
  destruct (reads_answer (hq_conn q) (hq_read q) (hq_tenant q) (su_alerts u) (su_ping u) (su_now u)) as (?&?&?&?&?&?&?&?&?).
  destruct (writes_answer (hq_conn q) (hq_body q) (su_rand u) (su_hex u) (su_bytes u) (hq_tenant q) (hq_server q) (su_now u))
    as (?&?&?&?&?).
  pose proof (fun body => handleSession_answers (hq_conn q) body (su_hex u) (su_now u)).
  pose proof (fun l t b => receiveBatch_answers trusted_proxies sha256hex (hq_conn q) l t b (su_now u)).
  unfold answer_request, Handler, ServeHTTP, serve_at, handleIngest, handleBatch, handleHealth, handleStatic, trackViewer.
  replying.
Qed.
End replies.

(** ** The invariant holds along every history *)

(** What happens to a running hub: requests, operations of the command line
    on the same tables, the clean-up of the ledger every hour, the count of
    the viewers, and the goroutines that requests have left behind, each
    whenever it is scheduled. *)
Inductive hub_input :=
| InRequest (q : http_request) (u : surroundings)
| InOperation (o : auth_op)
| InRecord (ev : AuditEvent) (now : Z)
| InCleanup (now : Z)
| InViewers (now : Z)
| InBackground (i : nat) (now : Z).

Section histories.
Context `{Unicode} `{Net} `{OriginParser} `{Dialect} `{HubJSON} `{AdminJSON} `{Collation}.
Context (trusted_proxies : string) (sha256hex : string -> string) (conv : Z -> Z).
Context (key_le : key_row -> key_row -> Prop) `{!forall a b, Decision (key_le a b)}.
Context (login_decode : string -> login_body) (version : string) (docs : assets) (insecure : bool).

Definition serve_request : mux -> http_request -> surroundings -> M site (hub_reply document) :=
  answer_request trusted_proxies sha256hex conv key_le login_decode version docs insecure.
Definition do_input (m : mux) (i : hub_input) : M site unit :=
  match i with
  | InRequest q u => forget (serve_request m q u)
  | InOperation o => on_store (do_op o)
  | InRecord ev now => on_world (recordAudit ev now)
  | InCleanup now => on_ingest (cleanupIngest now)
  | InViewers now => forget (DashboardViewers now)
  | InBackground i now => on_world (run_touch i now)
  end.
Fixpoint run_site (m : mux) (l : list (hub_input * faults)) (s : site) : site :=
  match l with
  | [] => s
  | (i, fs) :: l => run_site m l (run_state (do_input m i) s fs)
  end.
(** What a server makes of its database and its settings until it listens. *)
Definition opened (db : tables) (settings : list string) (hub_keys : option (bool * bool * bool)) (pressure : bool) (now : Z)
    (fs : faults) : site :=
  let s := NewServer db (nth 0 settings EmptyString) (nth 1 settings EmptyString) (nth 2 settings EmptyString)
             (nth 3 settings EmptyString) pressure now in
  match hub_keys with
  | None => s
  | Some (hasKeys, backend, init) => run_state (EnableHubMode hasKeys backend init now) s fs
  end.

Record tables_ok (db : tables) : Prop := {
  tk_auth : auth_ok (tb_auth db);
  tk_typed : Identities.typed (tb_auth db);
  tk_epoch : 0 <= t_epoch (tb_auth db);
  tk_trail : trail_ok (tb_audit db);
  tk_ingest : ingest_inv hj_marshal hj_sha256hex (tb_ingest db)
}.

Lemma sound_in_world w s : sound_world w -> sound s -> sound (with_world w s).
Proof. intros Hw [_ S2 S3 S4]. by split. Qed.
Lemma steps_keep_sound K now s w : steps K now (st_world s) w -> sound s -> sound (with_world w s).
Proof. intros Hs Hsound. apply sound_in_world; [|done]. eapply steps_sound, Hsound. exact Hs. Qed.
Lemma limit_keeps_sound key now s : sound s -> sound (with_limiter (allow key now (st_limiter s)).2 s).
Proof. intros [S1 S2 S3 S4]. split; try done. by apply allow_size. Qed.
Lemma viewer_keeps_sound ip now s : sound s -> sound (with_viewers (track ip now (st_viewers s)) s).
Proof. intros [S1 S2 S3 S4]. split; try done. by apply track_size. Qed.
Lemma health_keeps_sound h s : sound s -> sound (with_health h s).
Proof. by intros [S1 S2 S3 S4]. Qed.
Lemma op_keeps_sound o s fs :
  sound s -> sound (with_world (with_auth (run_state (do_op o) (w_auth (st_world s)) fs) (st_world s)) s).
Proof.
  intros Hs. apply sound_in_world; [|done]. destruct Hs as [[S1 [T1 T2 T3] S3 S4 S5 S6] _ _ _].
  pose proof (do_op_ok o _ fs S1). pose proof (do_op_typed o _ fs T2).
  pose proof (do_op_epoch (hb_epoch (w_hub (st_world s))) o _ fs T1). split; try done; by split.
Qed.
Lemma record_keeps_sound ev now : preserves sound (on_world (recordAudit ev now)).
Proof.
  apply preserves_zoomed. intros s fs Hs. apply sound_in_world; [|done]. destruct Hs as [[S1 [T1 T2 T3] S3 S4 S5 S6] _ _ _].
  pose proof (AppendAudit_trail ev now _ fs S3). unfold run_state, recordAudit, on_audit in *.
  destruct (AppendAudit _ _ _ fs) as [[r d] fs']. split; try done; by split.
Qed.
(** A change of the hub's memory. *)
Lemma hub_keeps_sound {A} (f : hub -> A * hub) :
  (forall w, sound_world w -> sound_world (set_hub (fun _ => (f (w_hub w)).2) w)) -> preserves sound (on_world (on_hub f)).
Proof. intros Hf. apply preserves_zoomed. intros s fs Hs. apply sound_in_world; [|done]. apply Hf, Hs. Qed.
Lemma login_keeps_sound key now :
  preserves sound (on_world (on_hub (fun h => let '(ok, l) := allow key now (hb_login h) in (ok, set_login l h)))).
Proof.
  apply hub_keeps_sound. intros w [S1 [T1 T2 T3] S3 S4 S5 S6]. pose proof (allow_size key now _ S6).
  destruct (allow _ _ _) as [ok l]. split; try done; by split.
Qed.
Lemma put_keeps_sound id ent now :
  preserves sound (on_world (on_hub
    (fun h => let '(ok, m) := session_put id ent now (hb_sessions h) in (ok, set_sessions m h)))).
Proof.
  apply hub_keeps_sound. intros w [S1 [T1 T2 T3] S3 S4 S5 S6]. pose proof (session_put_ok id ent now _ S5).
  destruct (session_put _ _ _ _) as [ok m]. split; try done; by split.
Qed.
Lemma ingest_keeps_sound {A} (m : M ingest_db A) :
  preserves (ingest_inv hj_marshal hj_sha256hex) m -> preserves sound (on_ingest m).
Proof.
  intros Hm s fs [S1 S2 S3 S4]. specialize (Hm _ fs S4). unfold run_state, on_ingest, zoom in *.
  destruct (m (st_ingest s) fs) as [[r d] fs']. by split.
Qed.
Lemma accept_keeps_sound tenant agent batch policy now :
  preserves sound (on_ingest (AcceptIngest hj_marshal hj_sha256hex tenant agent batch policy now)).
Proof. apply ingest_keeps_sound. intros d fs. exact (apply_op_inv _ _ d (Deliver tenant agent batch policy now fs)). Qed.

Lemma request_keeps_sound m q u : preserves sound (serve_request m q u).
Proof.
  apply keeps_request with (issues := fun _ => True) (touches := any_touch); first [ by split | done | exact (steps_keep_sound any_touch) | exact limit_keeps_sound | exact viewer_keeps_sound
    | exact health_keeps_sound | intros o s fs _; apply op_keeps_sound | exact record_keeps_sound | exact login_keeps_sound
    | exact put_keeps_sound | intros tenant agent batch now s _; apply accept_keeps_sound ].
Qed.
(** The goroutine's own part is the operation [OpTouch]. *)
Lemma touch_keeps_sound i now : preserves sound (on_world (run_touch i now)).
Proof.
  apply preserves_zoomed. intros s fs Hs. unfold run_state, run_touch, inspect.
  destruct (_ !! i) as [hash|]; [|by destruct s].
  pose proof (op_keeps_sound (OpTouch hash now) s fs Hs) as Hk. unfold run_state in Hk. simpl in Hk.
  unfold mbind, modify, ret, attempt, on_keys. simpl. destruct (TouchAPIKey hash now _ fs) as [[r d] fs']. simpl in *.
  destruct Hk as [[S1 [T1 T2 T3] S3 S4 S5 S6] ? ? ?]. by split.
Qed.
Lemma input_keeps_sound m i : preserves sound (do_input m i).
Proof.
  destruct i as [q u|o|ev now|now|now|i now]; simpl; unfold forget.
  - apply preserves_mbind; [apply request_keeps_sound|intros; apply preserves_ret].
  - intros s fs Hs. pose proof (op_keeps_sound o s fs Hs) as Hk. unfold run_state, on_store, on_world, on_keys, zoom in *.
    by destruct (do_op o _ fs) as [[r d] fs'].
  - apply record_keeps_sound.
  - apply ingest_keeps_sound. intros d fs. exact (apply_op_inv _ _ d (Cleanup now fs)).
  - apply preserves_mbind; [|intros; apply preserves_ret]. apply wp_preserves. intros s [S1 S2 S3 S4].
    unfold DashboardViewers. cbv zeta. apply wp_inspect, wp_mbind, wp_modify, wp_ret. split; try done. simpl.
    pose proof (map_subseteq_size _ _ (map_filter_subseteq (fun p => negb (minute <? Sub now p.2) = true) (st_viewers s))).
    unfold drop_idle. lia.
  - apply touch_keeps_sound.
Qed.
Lemma run_site_sound m l s : sound s -> sound (run_site m l s).
Proof. revert s. induction l as [|[i fs] l IH]; intros s Hs; [done|]. simpl. apply IH. by apply input_keeps_sound. Qed.
Lemma opened_sound db settings keys pressure now fs :
  tables_ok db -> sound (opened db settings keys pressure now fs).
Proof.
  intros [K1 K2 K3 K4 K5]. unfold opened. cbv zeta.
  assert (Hnew : forall a b c d, sound (NewServer db a b c d pressure now)).
  { intros a b c d. unfold NewServer. destruct (New_policy a b c d) as [policy e].
    split; [|simpl; rewrite map_size_empty; done..|done]. split; simpl; try done. }
  destruct keys as [[[hasKeys backend] init]|]; [|apply Hnew].
  apply (preserves_mbind sound); [| |apply Hnew].
  - apply preserves_modify. intros s Hs. apply sound_in_world; [|done]. by destruct Hs as [[S1 [T1 T2 T3] S3 S4 S5 S6] _ _ _].
  - intros _. apply preserves_mbind; [|intros _].
    + apply wp_preserves. intros s Hs. apply wp_zoom. eapply wp_mono; [apply (sync_steps any_touch now)|]. intros r w Hw.
      exact (steps_keep_sound any_touch now s w Hw Hs).
    + apply preserves_modify. intros s [S1 S2 S3 S4]. destruct (ingest_setup _ _ _ _). by split.
Qed.
End histories.

(** ** What a request can reach *)

(** The answers for whoever shows no credential; a session or an enrollment
    is answered at its endpoint only. *)
Definition public (q : http_request) (d : document) : Prop :=
  match d with
  | DocHealth _ | DocReady _ | DocStatic _ | DocRedirect _ => True
  | DocSession _ => hq_path q = "/api/session"
  | DocEnrolled _ => hq_path q = "/api/enroll"
  | _ => False
  end.
Definition anonymous (r : request) : Prop := hr_XAPIKey r = EmptyString /\ hr_Cookie r = None.
Definition same_tables (s s' : site) : Prop :=
  st_ingest s' = st_ingest s /\ w_auth (st_world s') = w_auth (st_world s) /\ w_audit (st_world s') = w_audit (st_world s).
(** An answer without content. *)
Definition shut {A : Type} (s : site) (r : result error (hub_reply A)) (s' : site) : Prop :=
  same_tables s s' /\ exists rp e, r = Ok rp /\ hr_Result rp = Err e.

Section reach.
Context `{Unicode} `{Net} `{OriginParser} `{Dialect} `{HubJSON} `{AdminJSON} `{Collation}.
Context (trusted_proxies : string) (sha256hex : string -> string) (conv : Z -> Z).
Context (key_le : key_row -> key_row -> Prop) `{!forall a b, Decision (key_le a b)}.
Context (login_decode : string -> login_body) (version : string) (docs : assets) (insecure : bool).

Lemma same_tables_steps K now s w : steps K now (st_world s) w -> same_tables s (with_world w s).
Proof. intros [Ha Hb]%steps_books. by split. Qed.

(** Whatever a request does, all it leaves running is for the credential its
    header names. *)
Lemma request_leaves m q u s :
  wp (serve_request trusted_proxies sha256hex conv key_le login_decode version docs insecure m q u)
    (fun _ s' => leaves (own_key sha256hex (hq_conn q)) (st_world s) (st_world s')) s.
Proof.
  set (K := own_key sha256hex (hq_conn q)).
  apply (wp_preserved (fun s' => leaves K (st_world s) (st_world s'))); [|by apply leaves_same].
  apply keeps_request with (issues := fun _ => True) (touches := K); try (by intros); try done.
  - intros now s1 w Hs Hl. eapply leaves_trans; [exact Hl|]. by eapply steps_leave.
  - intros ev now. apply preserves_zoomed. intros s1 fs1 Hs1. unfold run_state, recordAudit, on_audit.
    by destruct (AppendAudit _ _ _ _) as [[res d] fs2].
  - intros key now. apply preserves_zoomed. intros s1 fs1 Hs1. eapply leaves_trans; [exact Hs1|].
    apply leaves_same. unfold run_state. simpl. by destruct (allow key now _).
  - intros id ent now. apply preserves_zoomed. intros s1 fs1 Hs1. eapply leaves_trans; [exact Hs1|].
    apply leaves_same. unfold run_state. simpl. by destruct (session_put id ent now _).
  - intros tenant agent batch now s1 _ s2 fs1 Hs2. unfold run_state, on_ingest, zoom.
    by destruct (AcceptIngest _ _ _ _ _ _ _ _ _) as [[res d] fs2].
  - intros hash Hh. exact Hh.
Qed.
Lemma read_changes_nothing m q u s :
  readOnly (hq_conn q) = true ->
  wp (serve_request trusted_proxies sha256hex conv key_le login_decode version docs insecure m q u)
    (fun _ s' => same_tables s s') s.
Proof.
  intros Hr. apply wp_preserved; [|done]. apply keeps_read_request with (touches := any_touch); [..|done|done]; try done.
  intros now s1 w Hs (E1 & E2 & E3). destruct (same_tables_steps _ now s1 w Hs) as (?&?&?). split_and!; congruence.
Qed.
(** What the goroutines do when they run. *)
Lemma background_usage m i now s :
  wp (do_input trusted_proxies sha256hex conv key_le login_decode version docs insecure m (InBackground i now))
    (fun _ s' => st_ingest s' = st_ingest s /\ w_audit (st_world s') = w_audit (st_world s) /\
      match hb_touches (w_hub (st_world s)) !! i with
      | None => s' = s
      | Some hash => usage_only hash (w_auth (st_world s)) (w_auth (st_world s'))
      end) s.
Proof.
  apply wp_zoom. eapply wp_mono; [apply wp_run_touch|]. intros res w [_ Hw]. split; [done|].
  destruct (_ !! i) as [hash|]; [by destruct Hw as (_ & ? & ?)|]. subst w. split; [done|]. by destruct s.
Qed.

Section stranger.
Context (s : site) (r : request).
Context (hub_mode : hb_hubMode (w_hub (st_world s)) = true) (stranger : anonymous r).

Lemma shut_refused {A} e after : wp (A := hub_reply A) (ret (Build_hub_reply after (Err e))) (shut s) s.
Proof. apply wp_ret. split; [done|]. by do 2 eexists. Qed.
Lemma wp_stranger scope now (w : world) (Q : result error (result reply Principal) -> world -> Prop) :
  hb_hubMode (w_hub w) = true -> (forall e, Q (Ok (Err e)) w) -> wp (authPrincipal trusted_proxies sha256hex r scope now) Q w.
Proof.
  destruct stranger as [Hk Hc]. intros Hm HQ. unfold authPrincipal. apply wp_inspect. rewrite Hm, Hk, Hc. cbn [negb is_empty is_some andb].
  destruct (is_empty _); [|apply wp_ret, HQ]. cbv zeta. cbn [negb]. change (is_empty EmptyString) with true. cbv iota.
  apply wp_mbind. unfold lookupSession. rewrite Hc. apply wp_inspect, wp_ret, wp_ret, HQ.
Qed.
Lemma same_site : with_world (st_world s) s = s.
Proof. by destruct s. Qed.
Lemma wp_stranger_authorize {A} scope now (k : result reply Principal -> M site (hub_reply A)) :
  (forall e, wp (k (Err e)) (shut s) s) -> wp (mbind (authorize trusted_proxies sha256hex r scope now) k) (shut s) s.
Proof.
  intros Hk. apply wp_mbind, wp_zoom, wp_stranger; [done|]. intros e. rewrite same_site. apply Hk.
Qed.
Lemma wp_stranger_tenant {A} scope now (k : result reply string -> M site (hub_reply A)) :
  (forall e, wp (k (Err e)) (shut s) s) ->
  wp (mbind (on_world (authTenantScope trusted_proxies sha256hex r scope now)) k) (shut s) s.
Proof.
  intros Hk. apply wp_mbind, wp_zoom. unfold authTenantScope. apply wp_mbind, wp_stranger; [done|]. intros e.
  apply wp_ret. rewrite same_site. apply Hk.
Qed.

Lemma shut_for_tenant {A} now (k : string -> M site (hub_reply A)) :
  wp (for_tenant trusted_proxies sha256hex r now k) (shut s) s.
Proof.
  unfold for_tenant. destruct (negb _); [apply shut_refused|]. apply wp_stranger_tenant. intros e. apply shut_refused.
Qed.
Lemma shut_alerts source now : wp (handleAlerts trusted_proxies sha256hex r source now) (shut s) s.
Proof. apply wp_stranger_tenant. intros e. apply shut_refused. Qed.
Lemma shut_gauges ping now : wp (handlePrometheus trusted_proxies sha256hex r ping now) (shut s) s.
Proof.
  unfold handlePrometheus. destruct (negb _); [apply shut_refused|]. apply wp_inspect. rewrite hub_mode.
  apply wp_stranger_tenant. intros e. apply shut_refused.
Qed.
Lemma shut_audit {A} tenant now (k : string -> M site (hub_reply A)) :
  wp (for_audit trusted_proxies sha256hex r tenant now k) (shut s) s.
Proof.
  unfold for_audit. destruct (negb _); [apply shut_refused|]. apply wp_stranger_tenant. intros e. apply shut_refused.
Qed.
Lemma shut_admin {A} scope now (k : Principal -> M site (hub_reply A)) :
  wp (as_admin trusted_proxies sha256hex r scope now k) (shut s) s.
Proof. apply wp_stranger_authorize. intros e. apply shut_refused. Qed.
Lemma shut_upload legacy type body now : wp (receiveBatch trusted_proxies sha256hex r legacy type body now) (shut s) s.
Proof.
  unfold receiveBatch. destruct (negb _); [apply shut_refused|]. apply wp_stranger_authorize. intros e. apply shut_refused.
Qed.

(** What such a request may do at most. *)
Definition met (q : http_request) (res : result error (hub_reply document)) (s' : site) : Prop :=
  st_ingest s' = st_ingest s /\
  (w_auth (st_world s') = w_auth (st_world s) \/ hq_path q = "/api/enroll" /\ hr_Method (hq_conn q) = "POST") /\
  exists rp, res = Ok rp /\ forall d, hr_Result rp = Ok d -> public q d.
Lemma met_refused q after e s' : same_tables s s' -> wp (ret (Build_hub_reply after (Err e))) (met q) s'.
Proof. intros (E1 & E2 & _). apply wp_ret. split; [done|]. split; [by left|]. by eexists. Qed.
Lemma met_answer q d s' : same_tables s s' -> public q d -> wp (answer_with d) (met q) s'.
Proof.
  intros (E1 & E2 & _) Hd. apply wp_ret. split; [done|]. split; [by left|]. eexists. split; [done|]. by intros ? [= <-].
Qed.
Lemma shut_met {A} q (f : A -> document) (m : M site (hub_reply A)) : wp m (shut s) s -> wp (documented f m) (met q) s.
Proof.
  intros Hm. apply wp_mbind. eapply wp_mono; [exact Hm|]. intros res s' (Hs & rp & e & -> & He). unfold reply_map.
  rewrite He. by apply met_refused.
Qed.
Lemma met_health q now : wp (documented DocHealth (handleHealth version r now)) (met q) s.
Proof.
  unfold documented, handleHealth. apply wp_mbind. destruct (negb _); [by apply wp_ret, met_refused|].
  by apply wp_inspect, wp_ret, met_answer.
Qed.
Lemma met_ready q ping now : wp (documented DocReady (handleReady r ping now)) (met q) s.
Proof.
  unfold documented, handleReady, healthSnapshot. apply wp_mbind. destruct (negb _); [by apply wp_ret, met_refused|].
  apply wp_mbind, wp_inspect. destruct (_ && _); [apply wp_ret|cbv zeta; apply wp_mbind, wp_modify, wp_ret];
    match goal with |- wp (match ?x with _ => _ end) _ _ => destruct x end;
    (by apply wp_ret, met_refused) || (by apply wp_ret, met_answer).
Qed.
Lemma met_static q path : wp (documented DocStatic (handleStatic docs r path)) (met q) s.
Proof.
  unfold documented, handleStatic. apply wp_mbind. destruct (negb _); [by apply wp_ret, met_refused|].
  destruct (static_body _ _); [by apply wp_ret, met_answer|by apply wp_ret, met_refused].
Qed.

(** Whatever an answer is, the tables [P] speaks of are kept. *)
Lemma met_kept {A} q (f : A -> document) (m : M site (hub_reply A)) (same_auth : Prop) :
  answers m -> (forall a, public q (f a)) ->
  preserves (fun s' => st_ingest s' = st_ingest s /\ (same_auth -> w_auth (st_world s') = w_auth (st_world s))) m ->
  same_auth \/ hq_path q = "/api/enroll" /\ hr_Method (hq_conn q) = "POST" ->
  wp (documented f m) (met q) s.
Proof.
  intros Ha Hf Hm Hor. apply wp_mbind.
  pose proof (wp_preserved _ m s Hm (conj eq_refl (fun _ => eq_refl))) as Hw.
  eapply wp_mono; [exact (wp_answers _ _ _ Ha Hw)|].
  intros res s' (rp & -> & Hi & Hauth). apply wp_ret. split; [done|]. split; [destruct Hor; [left|right]; auto|].
  eexists. split; [done|]. intros d. unfold reply_map. simpl. destruct (hr_Result rp); [|done]. by intros [= <-].
Qed.
Lemma met_enroll q body rand now :
  hq_conn q = r -> hq_path q = "/api/enroll" ->
  wp (documented DocEnrolled (handleEnroll trusted_proxies sha256hex insecure r body rand now)) (met q) s.
Proof.
  intros Hq Hp. destruct (String.eqb (hr_Method r) "POST") eqn:Em.
  - apply String.eqb_eq in Em. apply (met_kept _ _ _ False); [|done| |right; by rewrite Hq].
    + apply (writes_answer trusted_proxies sha256hex key_le insecure r body rand None None EmptyString EmptyString now).
    + apply keeps_handleEnroll with (issues := fun _ => True) (touches := any_touch); try (intros; split; [tauto|done]); [|done].
      intros ev now'. apply preserves_zoomed. intros s1 fs1 [Hi _]. by split.
  - unfold handleEnroll. rewrite Em. by apply wp_mbind, wp_ret, met_refused.
Qed.
Lemma met_session q body hex now :
  hq_path q = "/api/session" ->
  wp (let* a := on_world (handleSession trusted_proxies sha256hex r body hex now) in answer_with (DocSession a)) (met q) s.
Proof.
  intros Hp. apply wp_mbind.
  assert (Ha : answers (on_world (handleSession trusted_proxies sha256hex r body hex now)))
    by apply answers_zoom, handleSession_answers.
  assert (Hk : preserves (fun s' => st_ingest s' = st_ingest s /\ w_auth (st_world s') = w_auth (st_world s))
                 (on_world (handleSession trusted_proxies sha256hex r body hex now))).
  { apply keeps_handleSession with (touches := any_touch); [..|done].
    - intros now' s1 w Hs (E1 & E2). destruct (same_tables_steps _ now' s1 w Hs) as (?&?&?). split; congruence.
    - intros ev now'. apply preserves_zoomed. intros s1 fs1 Hs1. unfold run_state, recordAudit, on_audit.
      by destruct (AppendAudit _ _ _ _) as [[res d] fs2].
    - intros key now'. apply preserves_zoomed. by intros s1 fs1 Hs1.
    - intros id ent now'. apply preserves_zoomed. by intros s1 fs1 Hs1. }
  pose proof (wp_preserved _ _ s Hk (conj eq_refl eq_refl)) as Hw. eapply wp_mono; [exact (wp_answers _ _ _ Ha Hw)|].
  intros res s' (a & -> & Hi & Hauth). apply wp_ret. split; [done|]. split; [by left|]. eexists. split; [done|].
  by intros d [= <-].
Qed.

Lemma met_serve e q u :
  hq_conn q = r -> (e = EpSession -> hq_path q = "/api/session") -> (e = EpEnroll -> hq_path q = "/api/enroll") ->
  wp (serve_at trusted_proxies sha256hex conv key_le login_decode version docs insecure e q u) (met q) s.
Proof.
  intros Hq Hses Henr. unfold serve_at. rewrite Hq. cbv zeta.
  destruct e; first [ by apply met_health | by apply met_ready | by apply met_static | by apply met_session, Hses
    | by apply met_enroll; auto | apply shut_met ];
    first [ by apply shut_for_tenant | by apply shut_gauges | by apply shut_upload | by apply shut_alerts
    | by apply shut_audit | by apply shut_admin | idtac ].
  - unfold handleAdminEnrollCodes. destruct (negb _); [apply shut_refused|apply shut_admin].
  - unfold handleAdminAgentRotate. destruct (negb _); [apply shut_refused|apply shut_admin].
Qed.
End stranger.

(** Sessions and enrollments are served at their paths only. *)
Lemma registered_paths hubMode alerting dashboard path e :
  matching path (registered hubMode alerting dashboard) = Some e ->
  (e = EpSession -> path = "/api/session"%string) /\ (e = EpEnroll -> path = "/api/enroll"%string).
Proof.
  unfold matching. intros Hm.
  assert (Hin : forall m, pattern path m = Some e -> (path, e) ∈ m).
  { induction m as [|[p e'] m IH]; simpl; [done|]. destruct (String.eqb_spec p path) as [->|]; [intros [= ->]; by left|].
    intros Hp. right. by apply IH. }
  destruct (pattern path _) as [e'|] eqn:Ep.
  - injection Hm as <-. apply Hin in Ep. clear -Ep. unfold registered in Ep.
    apply elem_of_app in Ep as [Ep|[Ep|[Ep|Ep]%elem_of_app]%elem_of_app].
    + repeat (apply elem_of_cons in Ep as [[= -> ->]|Ep]; [by split|]). by apply not_elem_of_nil in Ep.
    + destruct hubMode; repeat (apply elem_of_cons in Ep as [[= -> ->]|Ep]; [by split|]); by apply not_elem_of_nil in Ep.
    + destruct dashboard; repeat (apply elem_of_cons in Ep as [[= -> ->]|Ep]; [by split|]); by apply not_elem_of_nil in Ep.
    + destruct alerting; repeat (apply elem_of_cons in Ep as [[= -> ->]|Ep]; [by split|]); by apply not_elem_of_nil in Ep.
  - destruct hubMode, alerting, dashboard; vm_compute in Hm; simplify_eq; done.
Qed.
Lemma wp_stranger_request hubMode alerting dashboard q u s :
  hb_hubMode (w_hub (st_world s)) = true -> anonymous (hq_conn q) ->
  wp (serve_request trusted_proxies sha256hex conv key_le login_decode version docs insecure
        (registered hubMode alerting dashboard) q u) (met s q) s.
Proof.
  intros Hm Ha. unfold serve_request, answer_request, Handler.
  destruct (String.eqb _ _); [by apply met_health|].
  assert (Hrest : forall s', same_tables s s' -> hb_hubMode (w_hub (st_world s')) = true ->
    wp (ServeHTTP trusted_proxies sha256hex conv key_le login_decode version docs insecure
          (registered hubMode alerting dashboard) q u) (met s q) s').
  { intros s' (E1 & E2 & E3) Hm'. unfold ServeHTTP. cbv zeta.
    destruct (String.eqb_spec (cleanPath (hq_path q)) (hq_path q)) as [Hc|]; cbn [negb]; [|by apply met_answer].
    destruct (matching _ _) as [e|] eqn:Ee; [|by apply met_refused].
    apply registered_paths in Ee as [Hses Henr]. rewrite Hc in Hses, Henr.
    eapply wp_mono; [eapply met_serve; [exact Hm'|exact Ha|reflexivity|exact Hses|exact Henr]|].
    intros res s2 (F1 & F2 & F3). split; [congruence|]. split; [|done]. rewrite <- E2. exact F2. }
  apply wp_mbind. unfold limited. apply wp_inspect. destruct (allow _ _ _) as [ok l]. apply wp_mbind, wp_modify, wp_ret.
  destruct (negb ok); [by apply met_refused|]. apply wp_mbind.
  destruct (_ || _); [apply wp_modify|apply wp_ret]; by apply Hrest.
Qed.
End reach.

(** ** Properties *)

(** C2. A hub stays sound.  Open a server on a consistent database, with any
    settings and whatever fails, and let anything happen to it - requests to any
    endpoint, operations of the command line on the same tables, the hourly
    clean-up, with any failures: key hashes stay unique, a machine has at most
    one active token and every credential is typed; the revocation counter the
    hub knows is never ahead and every cached principal has a tenant; the trail
    holds valid events under distinct numbers; receipts stay unique and fresh;
    and the hub remembers at most 10001 cached keys, 4096 sessions (five for a
    credential), 10000 buckets in each limiter and 4096 viewers. *)
Theorem hub_stays_sound `{Unicode} `{Net} `{OriginParser} `{Dialect} `{HubJSON} `{AdminJSON} `{Collation}
    trusted_proxies sha256hex conv key_le `{!forall a b, Decision (key_le a b)} login_decode version docs insecure
    db settings keys pressure start fs m history :
  tables_ok db ->
  let s := run_site trusted_proxies sha256hex conv key_le login_decode version docs insecure m history
             (opened db settings keys pressure start fs) in
  sound s.
Proof. intros Hdb. by apply run_site_sound, opened_sound. Qed.


(** No two patterns are the same: the mux panics on a duplicate. *)
Example registrations_are_distinct : NoDup (map fst (registered true true true)).
Proof. vm_compute. repeat constructor; set_solver. Qed.

(** ** Concrete inputs *)

Module SampleSite.
Definition db : tables :=
  {| tb_ingest := empty_ingest; tb_auth := w_auth (st_world SampleAdmin.start); tb_audit := empty_audit |}.
Lemma db_ok : @tables_ok SampleHub.json db.
Proof.
  split; [apply run_auth_ok|apply SampleAdmin.start_tenanted|discriminate|repeat constructor|apply empty_inv].
Qed.
Definition pages : assets := {| as_html := "<html>"; as_js := "js"; as_chart := "chart" |}.
Definition no_query : read_query := {| rq_range := empty_str; rq_server := empty_str; rq_limit := empty_str; rq_cursor := empty_str |}.
Definition to (conn : request) (path body : string) : http_request :=
  {| hq_conn := conn; hq_path := path; hq_body := body; hq_cut := false; hq_read := no_query; hq_type := empty_str;
     hq_tenant := empty_str; hq_server := empty_str |}.
Definition around : surroundings :=
  {| su_now := sample_time; su_rand := Some "secret"; su_hex := Some "0011"; su_bytes := None; su_ping := Some (Ok tt);
     su_alerts := None |}.
Definition stranger (path : string) : http_request :=
  to {| hr_Method := "GET"; hr_TLS := true; hr_ForwardedProto := empty_str; hr_RemoteAddr := "10.0.0.9"; hr_Host := "hub";
        hr_Origin := empty_str; hr_QueryKey := empty_str; hr_XAPIKey := empty_str; hr_Cookie := None |} path empty_str.
(** An administrator creates a client, a machine uploads, a stranger looks at
    the dashboard. *)
Definition history : list (hub_input * faults) :=
  [(InRequest (to (SampleAdmin.ask "POST") "/api/admin/clients" "New") around, []);
   (InRequest (to SampleHub.post "/api/v1/ingest/batches" "{}") around, []);
   (InRequest (stranger "/") around, [])].
Definition serve (q : http_request) (s : site) : hub_reply document + error :=
  match run_result (@serve_request Sample.unicode Sample.net Sample.origins sqlite SampleHub.json SampleAdmin.json
    byte_collation empty_str Sample.sha wrap_u64 SampleAdmin.by_id SampleAdmin.by_id_dec (fun _ => NotARequest) "1.0" pages false
    (registered true true true) q around) s [] with Ok rp => inl rp | Err e => inr e end.
Definition start : site := opened db [] (Some (true, true, true)) false 0 [].
Definition after : site :=
  @run_site Sample.unicode Sample.net Sample.origins sqlite SampleHub.json SampleAdmin.json byte_collation empty_str Sample.sha
    wrap_u64 SampleAdmin.by_id SampleAdmin.by_id_dec (fun _ => NotARequest) "1.0" pages false (registered true true true)
    history start.
Definition status (a : hub_reply document + error) : option Z :=
  match a with
  | inl rp => Some (match hr_Result rp with Ok _ => 200 | Err (Reply code _) => code end)
  | inr _ => None
  end.
End SampleSite.

Lemma hub_stays_sound_witness :
  @sound SampleHub.json SampleSite.after /\ length (t_keys (w_auth (st_world SampleSite.after))) = 3%nat /\
  length (au_rows (w_audit (st_world SampleSite.after))) = 1%nat /\
  length (i_receipts (st_ingest SampleSite.after)) = length (ib_Events sample_batch) /\
  size (st_viewers SampleSite.after) = 1%nat.
Proof.
  split.
  - apply (@hub_stays_sound Sample.unicode Sample.net Sample.origins sqlite SampleHub.json SampleAdmin.json byte_collation
      empty_str Sample.sha wrap_u64 SampleAdmin.by_id SampleAdmin.by_id_dec (fun _ => NotARequest) "1.0" SampleSite.pages false
      SampleSite.db [] (Some (true, true, true)) false 0 [] (registered true true true) SampleSite.history), SampleSite.db_ok.
  - vm_compute. by split_and!.
Defined.

(** What a stranger is told: the dashboard, readiness and liveness, and
    nothing else. *)
Example strangers_are_told :
  map (fun path => SampleSite.status (SampleSite.serve (SampleSite.stranger path) SampleSite.start))
    ["/"; "/api/health"; "/api/ready"; "/api/metrics"; "/metrics"; "/api/admin/agents"; "/nowhere"]%string =
  map Some [200; 200; 200; 401; 401; 401; 404].
Proof. vm_compute. reflexivity. Qed.

(** An administrator's first request leaves a goroutine for its key; when it
    runs, the row says when the key was used. *)
Example reads_are_recorded_later :
  let run i s := run_state (@do_input Sample.unicode Sample.net Sample.origins sqlite SampleHub.json SampleAdmin.json
    byte_collation empty_str Sample.sha wrap_u64 SampleAdmin.by_id SampleAdmin.by_id_dec (fun _ => NotARequest) "1.0"
    SampleSite.pages false (registered true true true) i) s [] in
  let seen s := map k_last_seen_at (t_keys (w_auth (st_world s))) in
  let asked := run (InRequest (SampleSite.to (SampleAdmin.ask "GET") "/api/admin/agents" empty_str) SampleSite.around) SampleSite.start in
  let later := run (InBackground 0 (sample_time + minute)) asked in
  hb_touches (w_hub (st_world asked)) = [HashAPIKey Sample.sha (hr_XAPIKey (SampleAdmin.ask "GET"))] /\
  seen asked = seen SampleSite.start /\ seen later <> seen asked /\ hb_touches (w_hub (st_world later)) = [].
Proof. vm_compute. split_and!; [reflexivity|reflexivity|discriminate|reflexivity]. Qed.

