(* ===== verification/Fleet.v ===== *)
(** * An agent and the whole hub

    The laws [EndToEnd] asks of a hub, proved of the server of [Hub] with all
    its endpoints, the operator's commands on its tables and its clean-ups; and
    what follows for an observation on its way. *)

From S2P Require Import Alerting.
From S2P Require Export EndToEnd HubProofs.
Open Scope list_scope.
Open Scope Z_scope.

(** How a request of the agent comes in: its connection, what its handler
    finds around it, and whether the body breaks off. *)
Record way := { wy_conn : request; wy_around : surroundings; wy_cut : bool }.

Section fleet.
Context `{Unicode} `{Net} `{OriginParser} `{Dialect} `{HubJSON} `{AdminJSON} `{Collation}.
Context (trusted_proxies : string) (sha256hex : string -> string) (conv : Z -> Z).
Context (key_le : key_row -> key_row -> Prop) `{!forall a b, Decision (key_le a b)}.
Context (login_decode : string -> login_body) (version : string) (docs : assets) (insecure : bool).
Context (m : mux).
(** What the HTTP library makes of a URL (the path and the parameters), and the
    status and text of a document that is no acknowledgement. *)
Context (target : string -> http_request) (page : document -> Z * string).

Definition hub_request (w : way) (key url body : string) : http_request :=
  let t := target url in
  {| hq_conn := sent_with key (wy_conn w); hq_path := hq_path t; hq_body := body; hq_cut := wy_cut w; hq_read := hq_read t;
     hq_type := hq_type t; hq_tenant := hq_tenant t; hq_server := hq_server t |}.
Definition answer_of (d : document) : upload_answer :=
  match d with
  | DocAccepted outcomes => Acknowledged outcomes
  | _ => OtherDocument (page d).1 (page d).2
  end.
Notation serve := (serve_request trusted_proxies sha256hex conv key_le login_decode version docs insecure m).
(** No credential but the agent's gets this hash: a request draws other random
    bytes, a command registers another one. *)
Definition input_tame (hash : string) (i : hub_input) : Prop :=
  match i with
  | InRequest _ u => draws sha256hex (fun h => h <> hash) u
  | InOperation o => op_issues o <> Some hash
  | _ => True
  end.
#[export] Instance whole_hub : UploadHub := {|
  uh_other := hub_input;
  uh_way := way;
  uh_do := do_input trusted_proxies sha256hex conv key_le login_decode version docs insecure m;
  uh_serve w key url body :=
    let* rp := serve (hub_request w key url body) (wy_around w) in ret (reply_map answer_of rp);
  uh_tame := input_tame;
  uh_tame_way hash w := draws sha256hex (fun h => h <> hash) (wy_around w)
|}.

(** ** The key stays with its owner *)

Section bound.
Context (tenant server hash : string).
Notation bound := (fun s => bound_to tenant server hash (st_world s)).

Lemma op_keeps_bound o s fs :
  op_issues o <> Some hash -> bound s ->
  bound (with_world (with_auth (run_state (do_op o) (w_auth (st_world s)) fs) (st_world s)) s).
Proof.
  intros Ho Hb. apply bound_auth; [|by apply do_op_names; [|apply Hb]|done].
  exact (do_op_epoch (t_epoch (w_auth (st_world s))) o _ fs (Z.le_refl _)).
Qed.
Lemma hub_keeps_bound {A} (f : hub -> A * hub) :
  (forall h, hb_hubMode (f h).2 = hb_hubMode h /\ hb_epoch (f h).2 = hb_epoch h /\ hb_cache (f h).2 = hb_cache h) ->
  preserves bound (on_world (on_hub f)).
Proof.
  intros Hf. apply preserves_zoomed. intros s fs [B1 B2 B3 B4]. destruct (Hf (w_hub (st_world s))) as (E1 & E2 & E3).
  split; simpl; rewrite ?E1, ?E2, ?E3; done.
Qed.
Lemma record_keeps_bound ev now : preserves bound (on_world (recordAudit ev now)).
Proof.
  apply preserves_zoomed. intros s fs [B1 B2 B3 B4]. unfold run_state, recordAudit, on_audit.
  destruct (AppendAudit _ _ _ fs) as [[r d] fs']. by split.
Qed.
Lemma request_keeps_bound q u : draws sha256hex (fun h => h <> hash) u -> preserves bound (serve q u).
Proof.
  intros Hu. apply keeps_request with (issues := fun h => h <> hash) (touches := any_touch).
  - intros now s w Hs. exact (steps_bound tenant server hash _ now _ _ Hs).
  - done.
  - done.
  - done.
  - intros o s fs Hi. apply op_keeps_bound. intros E. by apply (Hi hash).
  - apply record_keeps_bound.
  - intros key now. apply hub_keeps_bound. intros h. by destruct (allow _ _ _).
  - intros id ent now. apply hub_keeps_bound. intros h. by destruct (session_put _ _ _ _).
  - intros. intros s1 fs Hs1. unfold run_state, on_ingest, zoom. by destruct (AcceptIngest _ _ _ _ _ _ _ _ fs) as [[r d] fs'].
  - done.
  - exact Hu.
Qed.
Lemma touch_keeps_bound i now : preserves bound (on_world (run_touch i now)).
Proof.
  apply preserves_zoomed. intros s fs Hs. unfold run_state, run_touch, inspect.
  destruct (_ !! i) as [h|]; [|by destruct s].
  pose proof (op_keeps_bound (OpTouch h now) s fs ltac:(done) Hs) as [B1 B2 B3 B4]. unfold run_state in *. simpl in *.
  unfold mbind, modify, ret, attempt, on_keys. simpl. destruct (TouchAPIKey h now _ fs) as [[r d] fs']. by split.
Qed.
Lemma input_keeps_bound i :
  input_tame hash i -> preserves bound (do_input trusted_proxies sha256hex conv key_le login_decode version docs insecure m i).
Proof.
  destruct i as [q u|o|ev now|now|now|i now]; simpl; intros Ht; unfold forget.
  - apply preserves_mbind; [by apply request_keeps_bound|intros; apply preserves_ret].
  - intros s fs Hs. pose proof (op_keeps_bound o s fs Ht Hs) as Hk. unfold run_state, on_store, on_world, on_keys, zoom in *.
    by destruct (do_op o _ fs) as [[r d] fs'].
  - apply record_keeps_bound.
  - intros s fs Hs. unfold run_state, on_ingest, zoom. by destruct (cleanupIngest now _ fs) as [[r d] fs'].
  - apply preserves_mbind; [|intros; apply preserves_ret]. apply wp_preserves. intros s Hs.
    apply wp_inspect, wp_mbind, wp_modify, wp_ret. exact Hs.
  - apply touch_keeps_bound.
Qed.
End bound.

(** ** What an acknowledgement says *)

Section acknowledged.
Context (tenant server key : string) (conn : request).
Notation bound := (fun s => bound_to tenant server (HashAPIKey sha256hex key) (st_world s)).
Notation conn_key := (sent_with key conn).

(** An acknowledgement names receipts the hub holds. *)
Definition receipted (res : result error (hub_reply document)) (s' : site) : Prop :=
  forall rp outcomes, res = Ok rp -> hr_Result rp = Ok (DocAccepted outcomes) -> receipts_for tenant server s' outcomes.

Lemma wp_anything {S A} (mm : M S A) s : wp mm (fun _ _ => True) s.
Proof. intros fs. by destruct (mm s fs) as [[r s'] fs']. Qed.
Lemma receipted_error after e s' : wp (ret (Build_hub_reply after (Err e))) receipted s'.
Proof. apply wp_ret. by intros rp outcomes [= <-]. Qed.
Lemma wp_other {A} (f : A -> document) (mm : M site (hub_reply A)) s :
  (forall a outcomes, f a <> DocAccepted outcomes) -> wp (documented f mm) receipted s.
Proof.
  intros Hf. apply wp_mbind. eapply wp_mono; [apply wp_anything|]. intros [rp|e] s' _; [apply wp_ret|done].
  intros rp' outcomes [= <-]. simpl. destruct (hr_Result rp) as [a|]; [|done]. intros [= E]. by apply Hf in E.
Qed.
Lemma wp_serve_at e q u s :
  hq_conn q = conn_key -> bound s ->
  wp (serve_at trusted_proxies sha256hex conv key_le login_decode version docs insecure e q u) receipted s.
Proof.
  intros Hq Hb. unfold serve_at. rewrite Hq. cbv zeta.
  assert (Hup : forall legacy type body, wp (documented DocAccepted
            (receiveBatch trusted_proxies sha256hex conn_key legacy type body (su_now u))) receipted s).
  { intros legacy type body. apply wp_mbind. eapply wp_mono; [by apply (wp_upload trusted_proxies sha256hex tenant server)|].
    intros res s' (rp & -> & Hrp). apply wp_ret. intros rp' outcomes [= <-]. simpl.
    destruct (hr_Result rp) as [os|]; [|done]. intros [= ->]. by apply Hrp. }
  destruct e; try (by apply wp_other); try apply Hup.
  apply wp_mbind. eapply wp_mono; [apply wp_anything|]. intros [a|e] s' _; [apply wp_ret|done]. by intros rp outcomes [= <-].
Qed.
Lemma wp_receipted q u s : hq_conn q = conn_key -> bound s -> wp (serve q u) receipted s.
Proof.
  intros Hq Hb. unfold serve_request, answer_request, Handler. destruct (String.eqb _ _); [by apply wp_other|].
  apply wp_mbind. eapply wp_mono; [apply wp_conjoin; [apply wp_limited|]|].
  { apply (worldly_bound tenant server (HashAPIKey sha256hex key) any_touch (su_now u)); [apply worldly_limited|exact Hb]. }
  intros ? s1 [(ok & -> & _) Hb1]. destruct (negb ok); [apply receipted_error|].
  assert (Hmux : forall s2, bound s2 -> wp (ServeHTTP trusted_proxies sha256hex conv key_le login_decode version docs insecure m q u) receipted s2).
  { intros s2 Hb2. unfold ServeHTTP. cbv zeta. destruct (negb _); [apply wp_ret; by intros rp outcomes [= <-]|].
    destruct (matching _ m) as [e|]; [by apply wp_serve_at|apply receipted_error]. }
  apply wp_mbind. destruct (_ || _); [apply wp_modify|apply wp_ret]; by apply Hmux.
Qed.
End acknowledged.

(** No page of the hub but an acknowledgement reads as one. *)
Context `{AgentJSON}.
Context (page_read : forall d, (forall outcomes, d <> DocAccepted outcomes) -> no_ack (page d).2).

Lemma confirmed_answer tenant server rp s' :
  receipted tenant server (Ok rp) s' -> confirmed_by tenant server (Ok (reply_map answer_of rp)) s'.
Proof.
  intros Hr. eexists. split; [done|]. unfold reply_map. simpl.
  destruct (hr_Result rp) as [d|] eqn:E; [|done]. simpl.
  destruct d; try (by apply page_read). exact (Hr rp outcomes eq_refl E).
Qed.
#[export] Instance whole_hub_laws tenant server : UploadHubLaws tenant server (HashAPIKey sha256hex).
Proof.
  split.
  - intros hash i s Hi Hb. apply (wp_preserved _ _ s (input_keeps_bound tenant server hash i Hi) Hb).
  - intros key w url body s Hw Hb. simpl. apply wp_mbind.
    set (q := hub_request w key url body).
    pose proof (wp_preserved _ _ s (request_keeps_bound tenant server _ q (wy_around w) Hw) Hb) as Hkeep.
    assert (Ha : answers (serve q (wy_around w))) by apply request_answers.
    pose proof (wp_receipted tenant server key (wy_conn w) q (wy_around w) s eq_refl Hb) as Hrec.
    eapply wp_mono; [apply wp_conjoin; [exact (wp_answers _ _ _ Ha Hkeep)|exact Hrec]|].
    intros res s' [(rp & -> & Hb') Hr]. apply wp_ret. split; [by apply confirmed_answer|exact Hb'].
Qed.

(** ** The whole path *)

Section path.
Context `{URLParser} `{SpoolJSONLaws} `{!AgentJSONLaws}.
Context (hubURL : string) (ack_text : list IngestOutcome -> string) (error_text : string -> string).
Context (clock : net -> Z) (http_ParseTime : string -> option Z) (reauth : option (M net unit)).
Context (tenant server : string).
Notation sending := (send hubURL ack_text error_text clock http_ParseTime reauth).

(** C1. Nothing an agent observed is lost on its way, as long as no write to
    its queue is cut in the middle.  Take a history of the agent's queue:
    appends, drains to the hub, rebindings, failures, restarts and shutdowns;
    over a network that loses requests and answers; at a hub of which anybody
    asks anything at every endpoint, on whose tables the operator works and
    whose ledger is cleaned up, as long as nobody else is given the agent's key.
    The history is to be [admissible]: every payload that is appended has a
    type, every segment name that [os.CreateTemp] picks is unused, and a write
    of a record that fails has written nothing of it ([clean_cut]).  Then an
    observation whose append reported success is on the agent's disk, in the
    queue or in quarantine, or the hub has committed its event under the agent's
    tenant and server.  Without the condition on the writes it does not hold: a
    write that stops in the middle of a record makes the queue unreadable for
    the observations beside it, [SpoolProofs.cut_write_poisons_segment]. *)
Theorem observations_arrive cancelled ops sp s script key e :
  (forall outcomes, ack_decode (ack_text outcomes) = Some {| ack_Status := "accepted"; ack_Outcomes := outcomes |}) ->
  (forall msg, no_ack (error_text msg)) ->
  honest_reauth reauth (wired tenant server (HashAPIKey sha256hex)) (committed tenant server) ->
  let w := {| n_site := s; n_script := script; n_key := key; n_log := [] |} in
  only_beside (wired tenant server (HashAPIKey sha256hex)) (stored_at (tenant := tenant) (server := server)) cancelled ->
  wired tenant server (HashAPIKey sha256hex) w -> spool_ok sp ->
  admissible cancelled sending send_one ops (sp, w) ->
  e ∈ accepted_entries cancelled sending send_one ops (sp, w) ->
  let p := run_spool cancelled sending send_one ops (sp, w) in
  on_hand p.1 e \/
  exists ev rc, event_of e = Ok ev /\ rc ∈ n_log p.2 /\
    rc_tenant rc = tenant /\ rc_agent rc = server /\ rc_event rc = ev_EventID ev.
Proof. intros Ha He Hr w. by apply (uploads_arrive (hash_of := HashAPIKey sha256hex) hubURL). Qed.
End path.
End fleet.

(** ** One observation over a bad network *)

Module SampleFleet.
(** A text for every number, and back. *)
Fixpoint pos_text (p : positive) : string :=
  match p with
  | xH => EmptyString
  | xO p' => String "0" (pos_text p')
  | xI p' => String "1" (pos_text p')
  end.
Fixpoint text_pos (s : string) : option positive :=
  match s with
  | EmptyString => Some xH
  | String c s' => match text_pos s' with
                   | Some p => if Ascii.eqb c "0" then Some (xO p) else if Ascii.eqb c "1" then Some (xI p) else None
                   | None => None
                   end
  end.
Lemma text_pos_text p : text_pos (pos_text p) = Some p.
Proof. induction p as [p IH|p IH|]; simpl; rewrite ?IH; reflexivity. Qed.
Definition ack_text (os : list IngestOutcome) : string :=
  pos_text (encode (map (fun o => (io_EventID o, io_Status o)) os)).
Definition ack_decode (s : string) : option ack :=
  match text_pos s with
  | Some p => match decode p with
              | Some l => Some {| ack_Status := "accepted";
                                  ack_Outcomes := map (fun x : string * string => {| io_EventID := x.1; io_Status := x.2 |}) l |}
              | None => None
              end
  | None => None
  end.
Lemma ack_read os : ack_decode (ack_text os) = Some {| ack_Status := "accepted"; ack_Outcomes := os |}.
Proof.
  unfold ack_decode, ack_text. rewrite text_pos_text, decode_encode. do 2 f_equal. rewrite map_map.
  induction os as [|[] os IH]; simpl; [reflexivity|]. by f_equal.
Qed.
(** The agent's only event is the hub's sample event. *)
Definition agent_json : AgentJSON :=
  {| event_marshal e := Some "1"; event_decode s := Some sample_event;
     metric_decode _ := None; process_decode _ := None;
     batch_marshal b := if bool_decide (map ev_EventID (ib_Events b) = ["e1"]) then Some "{}" else None;
     batch_unmarshal s := Some sample_batch; Agent.ack_decode := ack_decode;
     rfc3339nano _ := "t"; sha256_hex s := s; sha256_u64 _ := 0 |}.
Definition agent_laws : @AgentJSONLaws agent_json.
Proof.
  split. intros b text. simpl. case_bool_decide as Hb; [|discriminate]. intros [= <-].
  exists sample_batch. split; [reflexivity|]. by rewrite Hb.
Defined.
Definition conn : request :=
  {| hr_Method := "POST"; hr_TLS := true; hr_ForwardedProto := empty_str; hr_RemoteAddr := "10.0.0.1"; hr_Host := "hub";
     hr_Origin := empty_str; hr_QueryKey := empty_str; hr_XAPIKey := empty_str; hr_Cookie := None |}.
(** What the mux is asked, and the pages it answers with otherwise. *)
Definition target (url : string) : http_request := SampleSite.to conn (sdrop 11 url) empty_str.
Definition page (d : document) : Z * string := (200, "<html>"%string).
Definition agents_mux : mux := registered true false false.
#[export] Instance hub : UploadHub :=
  @whole_hub Sample.unicode Sample.net Sample.origins sqlite SampleHub.json SampleAdmin.json byte_collation empty_str Sample.sha
    wrap_u64 SampleAdmin.by_id SampleAdmin.by_id_dec (fun _ => NotARequest) "1.0" SampleSite.pages false agents_mux target page.
Definition at_hour (n : Z) : way :=
  {| wy_conn := conn; wy_cut := false;
     wy_around := {| su_now := sample_time + n * hour; su_rand := Some "other"; su_hex := None; su_bytes := None; su_ping := None;
                     su_alerts := None |} |}.
(** The first answer is lost; an administrator creates a client, a stranger
    looks around and old receipts are cleaned up before the second request. *)
Definition script : list beat :=
  [{| bt_before := []; bt_way := at_hour 0; bt_arrives := true; bt_answered := false; bt_whole := true |};
   {| bt_before := [InRequest (SampleSite.to (SampleAdmin.ask "POST") "/api/admin/clients" "New") SampleSite.around;
                    InRequest (SampleSite.stranger "/api/metrics") SampleSite.around; InCleanup (sample_time + hour)];
      bt_way := at_hour 1; bt_arrives := true; bt_answered := true; bt_whole := true |}].
Definition start : net := {| n_site := SampleAdmin.start; n_script := script; n_key := "wma_one"; n_log := [] |}.
Definition history : list (spool_op * faults) :=
  [(OpAppend "event" "1" (7 * second) "seg-1.ndjson" None, []); (OpDrainBatches 64, []); (OpRestart, []);
   (OpDrainBatches 64, [])].
Definition sending : list spoolEntry -> M (Spool * net) unit :=
  @send SampleAgent.any_url hub agent_json "https://hub" ack_text (fun _ => "!") (fun _ => 0) (fun _ => None) None.
Definition finish : Spool * net :=
  run_spool (ret tt) sending send_one history (SpoolProofs.Sample.empty, start).
Lemma others_differ u :
  su_rand u = Some "secret" \/ su_rand u = Some "other" -> su_bytes u = None ->
  draws Sample.sha (fun h => h <> HashAPIKey Sample.sha "wma_one") u.
Proof.
  intros Hr Hb. split; [|intros x Hx; congruence]. intros kind x Hx. unfold GenerateToken.
  destruct Hr as [Hr|Hr]; rewrite Hr in Hx; injection Hx as <-; repeat (destruct (String.eqb kind _)); vm_compute; discriminate.
Qed.
End SampleFleet.

Lemma observations_arrive_witness :
  pending SampleFleet.finish.1 = [] /\
  length (t_keys (w_auth (st_world (n_site SampleFleet.finish.2)))) = 3%nat /\
  (on_hand SampleFleet.finish.1 (SpoolProofs.Sample.entry "1") \/
   exists rc, rc ∈ n_log SampleFleet.finish.2 /\ rc_tenant rc = "t_a" /\ rc_agent rc = "a_1" /\ rc_event rc = "e1").
Proof.
  split; [vm_compute; reflexivity|]. split; [vm_compute; reflexivity|].
  destruct (@observations_arrive Sample.unicode Sample.net Sample.origins sqlite SampleHub.json SampleAdmin.json byte_collation
    empty_str Sample.sha wrap_u64 SampleAdmin.by_id SampleAdmin.by_id_dec (fun _ => NotARequest) "1.0" SampleSite.pages false
    SampleFleet.agents_mux SampleFleet.target SampleFleet.page SampleFleet.agent_json)
    with (H8 := SampleAgent.any_url) (H9 := SpoolProofs.Sample.json) (H10 := SpoolProofs.Sample.json_laws)
      (H11 := SampleFleet.agent_laws) (hubURL := "https://hub"%string) (ack_text := SampleFleet.ack_text)
      (error_text := fun _ : string => "!"%string) (clock := fun _ : @net SampleFleet.hub => 0)
      (http_ParseTime := fun _ : string => @None Z) (reauth := @None (M (@net SampleFleet.hub) unit))
      (tenant := "t_a"%string) (server := "a_1"%string)
      (cancelled := ret (S := Spool * @net SampleFleet.hub) tt) (ops := SampleFleet.history)
      (sp := SpoolProofs.Sample.empty) (s := SampleAdmin.start) (script := SampleFleet.script) (key := "wma_one"%string)
      (e := SpoolProofs.Sample.entry "1") as [?|(ev & rc & Hev & Hrc)].
  - intros d _ a. vm_compute. discriminate.
  - exact SampleFleet.ack_read.
  - intros msg a. vm_compute. discriminate.
  - intros again. discriminate.
  - intros p Hinv. apply wp_ret. split; [intros Hok; split; [exact Hok|reflexivity]|auto].
  - split.
    + split; [reflexivity|discriminate| |].
      * intros k Hk He. vm_compute in Hk. repeat (apply elem_of_cons in Hk as [->|Hk]; [first [by split|by vm_compute in He]|]).
        by apply not_elem_of_nil in Hk.
      * intros e He. vm_compute in He. discriminate He.
    + repeat constructor; first [by apply SampleFleet.others_differ; [left|] | by apply SampleFleet.others_differ; [right|] | idtac].
  - split; [constructor|constructor|constructor|]. intros name off. discriminate.
  - split; [|split; [exact I|split; [exact I|split; [exact I|exact I]]]].
    split; [discriminate|]. split; [|left; reflexivity]. split; [|split]; [apply not_elem_of_nil..|reflexivity].
  - vm_compute. left.
  - by left.
  - right. exists rc. injection Hev as <-. exact Hrc.
Defined.
