(* ===== verification/Dashboard.v ===== *)
(** * The assets of the dashboard ([dashboard/dashboard.go])

    The rewriting of the embedded page and its script before they are served:
    the script moves to a file of its own, its authentication part is replaced,
    its patches apply only if each finds its anchor exactly once, and external
    fonts, the chart library's address and inline handlers are taken out.  The
    two regular expressions are matchers, the embedded files parameters. *)

From S2P Require Export Hub.
Open Scope list_scope.
Open Scope Z_scope.

(** ** Searching and replacing in strings *)

(** [strings.Index] and [LastIndex]. *)
Fixpoint Index (s p : string) : option nat :=
  if String.prefix p s then Some O
  else match s with
       | EmptyString => None
       | String _ s => S <$> Index s p
       end.
Fixpoint LastIndex (s p : string) : option nat :=
  match s with
  | EmptyString => if String.prefix p s then Some O else None
  | String _ s' =>
      match LastIndex s' p with
      | Some i => Some (S i)
      | None => if String.prefix p s then Some O else None
      end
  end.

(** From left to right: where [step] matches it says what takes the place of
    the match and what is left.  The length of the string is enough fuel. *)
Fixpoint scan (fuel : nat) (step : string -> option (string * string)) (s : string) : string :=
  match fuel, s with
  | S fuel, String c s' =>
      match step s with
      | Some (new, rest) => new +:+ scan fuel step rest
      | None => String c (scan fuel step s')
      end
  | _, _ => EmptyString
  end.
(** The number of matches. *)
Fixpoint matches (fuel : nat) (step : string -> option (string * string)) (s : string) : Z :=
  match fuel, s with
  | S fuel, String _ s' =>
      match step s with
      | Some (_, rest) => 1 + matches fuel step rest
      | None => matches fuel step s'
      end
  | _, _ => 0
  end.
(** A literal that is not empty. *)
Definition literal (old new s : string) : option (string * string) :=
  if String.prefix old s then Some (new, sdrop (String.length old) s) else None.
Definition ReplaceAll (s old new : string) : string := scan (String.length s) (literal old new) s.
Definition Count (s p : string) : Z := matches (String.length s) (literal p EmptyString) s.
(** [strings.Replace(s, old, new, 1)] *)
Definition ReplaceOne (s old new : string) : string :=
  match Index s old with
  | Some i => stake i s +:+ new +:+ sdrop (i + String.length old) s
  | None => s
  end.

(** ** The two regular expressions *)

(** The class [\s] of the syntax. *)
Definition is_re_space (c : ascii) : bool := mem_char c (bytes [9; 10; 12; 13; 32]%N).
Fixpoint skip_spaces (s : string) : string :=
  match s with
  | String c s' => if is_re_space c then skip_spaces s' else s
  | EmptyString => EmptyString
  end.
Definition after_literal (p s : string) : option string :=
  if String.prefix p s then Some (sdrop (String.length p) s) else None.
Definition quote : ascii := chr 34.
(** All of [s] but its first and its last character. *)
Definition inner (s : string) : string := sdrop 1 (stake (String.length s - 1) s).
(** [\s*<link[^>]+https://fonts\.[^>]+>]: the tag ends at its first closing
    bracket, so the text before that has to contain the address inside. *)
Definition font_link (s : string) : option (string * string) :=
  match after_literal "<link" (skip_spaces s) with
  | None => None
  | Some t =>
      let '(tag, rest, closed) := Cut t ">" in
      if closed && Contains (inner tag) "https://fonts." then Some (EmptyString, rest) else None
  end.
(** [\s+on(?:click|change)=], and a value in double quotes. *)
Definition inline_handler (s : string) : option (string * string) :=
  let t := skip_spaces s in
  if String.eqb t s then None
  else match (match after_literal "onclick=" t with Some u => Some u | None => after_literal "onchange=" t end) with
  | Some (String q u) =>
      let '(_, rest, closed) := Cut u quote in
      if Ascii.eqb q quote && closed then Some (EmptyString, rest) else None
  | _ => None
  end.
Definition ReplaceAllString (re : string -> option (string * string)) (s : string) : string := scan (String.length s) re s.

(** ** The rewriting *)

Definition LF : string := bytes [10]%N.
Definition CRLF : string := bytes [13; 10]%N.
Definition script_tag : string := "<script src=" +:+ String quote EmptyString +:+ "/dashboard.js" +:+ String quote EmptyString +:+ "></script>".
Definition patches : list (string * string) :=
  [
   ("const serverMap = {};",
    "const serverMap = Object.create(null);");
   ("const lookup = {};",
    "const lookup = Object.create(null);");
   ("const latestPerServer = {};",
    "const latestPerServer = Object.create(null);");
   ("const byKey = {};",
    "const byKey = Object.create(null);");
   ("async function fetchServers() {",
    "async function fetchServers(requestID) {");
   ("const json = await resp.json();",
    "const json = await resp.json();
    if (requestID !== requestGeneration) return;");
   ("async function fetchData() {
  try {",
    "async function fetchData() {
  if (!sessionReady) return;
  invalidateRequests();
  const requestID = requestGeneration;
  activeController = new AbortController();
  try {");
   ("    fetchServers();",
    "    await fetchServers(requestID);
    if (requestID !== requestGeneration) return;");
   ("const mJson = await mResp.json();",
    "const mJson = await mResp.json();
    if (requestID !== requestGeneration) return;");
   ("const data = mJson.data || [];",
    "const data = (mJson.data || []).sort((a,b) => a.ts-b.ts);");
   ("const pJson = await pResp.json();",
    "const pJson = await pResp.json();
      if (requestID !== requestGeneration) return;");
   ("  } catch(e) {
    console.error(e);",
    "  } catch(e) {
    if (requestID !== requestGeneration || e.name === 'AbortError') return;
    console.error('Dashboard request failed');");
   ("function showNoData() {",
    "function showNoData() {
  clearDashboard();");
   ("const allTimestamps = [...new Set(data.map(d => d.ts))].sort((a, b) => a - b);",
    "const observed = [...new Set(data.map(d => d.ts))].sort((a, b) => a - b);
    const allTimestamps = [];
    observed.forEach((ts,i) => { if (i && ts-observed[i-1]>120) allTimestamps.push(observed[i-1]+1); allTimestamps.push(ts); });");
   ("document.getElementById('statusLabel').textContent = 'Live';",
    "const oldestLatest = Object.values(latestPerServer).reduce((oldest,p) => Math.min(oldest,p.ts), Infinity);
    const stale = Date.now()/1000-oldestLatest>120;
    document.getElementById('statusLabel').textContent = mJson.complete===false ? 'Result limit reached (incomplete)' : (stale ? 'Stale data (over 2 minutes)' : 'Recent samples');");
   ("document.getElementById('statusDot').style.background = 'var(--accent-green)';",
    "document.getElementById('statusDot').style.background = stale ? 'var(--accent-orange)' : 'var(--accent-green)';");
   ("fetchData();
setInterval(fetchData, 15000);",
    "bootstrapSession();
setInterval(() => { if (sessionReady) fetchData(); }, 15000);")]%string.
Definition anchor_changed (old : string) : error := EMsg ("dashboard: security patch anchor changed: " +:+ old).
Fixpoint apply_patches (l : list (string * string)) (js : string) : result error string :=
  match l with
  | [] => Ok js
  | (old, new) :: l =>
      if negb (Count js old =? 1) then Err (anchor_changed old) else apply_patches l (ReplaceOne js old new)
  end.
(** The page and its script, apart. *)
Definition split_script (html : string) : result error (string * string) :=
  let structure := Err (EMsg "dashboard: unexpected script structure") in
  match Index html "<script>", LastIndex html "</script>" with
  | Some start, Some finish =>
      if (finish <=? start)%nat || negb (Count html "<script>" =? 1) then structure
      else Ok (stake start html +:+ script_tag +:+ sdrop (finish + 9) html,
               sdrop (start + 8) (stake finish html))
  | _, _ => structure
  end.
(** The script with the authentication of [session.js]. *)
Definition with_session (js auth : string) : result error string :=
  let boundary := Err (EMsg "dashboard: missing legacy authentication boundary") in
  match Index js "const API_KEY_STORAGE =", Index js "async function exportCSV()" with
  | Some a, Some b => if (b <=? a)%nat then boundary else Ok (stake a js +:+ auth +:+ LF +:+ sdrop b js)
  | _, _ => boundary
  end.
Definition rewrite_page (html : string) : string :=
  let html := ReplaceAllString font_link html in
  let html := ReplaceAll html "https://cdn.jsdelivr.net/npm/chart.js@4.4.0/dist/chart.umd.min.js" "/chart.umd.min.js" in
  let html := ReplaceAllString inline_handler html in
  let html := ReplaceAll html "Enter the API key associated with your monitoring agents to view your servers."
    "Enter your dashboard read token. Agent tokens cannot sign in." in
  ReplaceAll html "Run <code>wmonitor.exe -show-key</code> on any of your monitored servers to retrieve your API key."
    "Ask your tenant administrator to issue a dashboard read token. Do not retrieve an agent credential.".
Definition unsafe (html js : string) : bool :=
  Contains js "getApiKey(" || Contains js "localStorage.setItem" ||
  Contains html "https://fonts." || Contains html "https://cdn.".
(** [raw] and [auth] are the embedded files, or the errors of reading them. *)
Definition browserAssets (raw auth : result error string) : result error (string * string) :=
  let? raw := raw in
  let? auth := auth in
  let? split := split_script (ReplaceAll raw CRLF LF) in
  let '(html, js) := split in
  let? js := with_session js auth in
  let? js := apply_patches patches js in
  let js := ReplaceAll js "spanGaps: true" "spanGaps: false" in
  let html := rewrite_page html in
  if unsafe html js then Err (EMsg "dashboard: unsafe legacy asset survived migration") else Ok (html, js).
(** [Register]: without all three documents there is no dashboard. *)
Definition Register (raw auth chart : result error string) : result error assets :=
  let? pages := browserAssets raw auth in
  let? chart := chart in
  Ok {| as_html := pages.1; as_js := pages.2; as_chart := chart |}.

(** ** Lemmas *)

(** A step that consumes something. *)
Definition consuming (step : string -> option (string * string)) : Prop :=
  forall s new rest, step s = Some (new, rest) -> (String.length rest < String.length s)%nat.
Lemma sdrop_length n s : String.length (sdrop n s) = (String.length s - n)%nat.
Proof. revert s. induction n as [|n IH]; intros [|c s]; simpl; [done..|apply IH]. Qed.
Lemma prefix_length p s : String.prefix p s = true -> (String.length p <= String.length s)%nat.
Proof.
  revert s. induction p as [|c p IH]; intros [|d s]; simpl; intros Hp; try lia; try done.
  destruct (ascii_dec c d); [|done]. apply IH in Hp. lia.
Qed.
Lemma literal_consuming old new : old <> EmptyString -> consuming (literal old new).
Proof.
  intros Ho s new' rest. unfold literal. destruct (String.prefix old s) eqn:Ep; [|done]. intros [= <- <-].
  apply prefix_length in Ep. rewrite sdrop_length. destruct old; simpl in *; [done|lia].
Qed.
Lemma scan_fuel step n s : consuming step -> (String.length s <= n)%nat -> scan n step s = scan (String.length s) step s.
Proof.
  intros Hc. assert (Hgen : forall k m s, (String.length s <= k)%nat -> (String.length s <= m)%nat -> scan k step s = scan m step s).
  { induction k as [|k IH]; intros [|m] [|c s']; simpl; try done; try lia. intros Hk Hm.
    destruct (step (String c s')) as [[new rest]|] eqn:E; [|f_equal; apply IH; lia].
    apply Hc in E. simpl in E. f_equal. apply IH; lia. }
  intros Hn. by apply Hgen.
Qed.
Lemma scan_step step n c s new rest :
  step (String c s) = Some (new, rest) -> scan (S n) step (String c s) = new +:+ scan n step rest.
Proof. simpl. by intros ->. Qed.
Lemma scan_skip step n c s : step (String c s) = None -> scan (S n) step (String c s) = String c (scan n step s).
Proof. simpl. by intros ->. Qed.
Lemma matches_nonneg step n s : 0 <= matches n step s.
Proof. revert s. induction n as [|n IH]; intros [|c s]; simpl; try done. destruct (step _) as [[? rest]|]; [specialize (IH rest); lia|apply IH]. Qed.

Lemma literal_spec old new s :
  literal old new s = if String.prefix old s then Some (new, sdrop (String.length old) s) else None.
Proof. done. Qed.
(** Without a match nothing changes; with one match replacing all is
    replacing the first. *)
Lemma no_match old new n s : matches n (literal old EmptyString) s = 0 -> (String.length s <= n)%nat -> scan n (literal old new) s = s.
Proof.
  revert s. induction n as [|n IH]; intros [|c s]; cbn [matches scan String.length]; try done; [lia|].
  rewrite !literal_spec. destruct (String.prefix old (String c s)).
  - intros Hm. pose proof (matches_nonneg (literal old EmptyString) n (sdrop (String.length old) (String c s))). lia.
  - intros Hm Hl. f_equal. apply IH; [done|lia].
Qed.
Lemma one_match old new s :
  old <> EmptyString -> Count s old = 1 -> ReplaceOne s old new = ReplaceAll s old new.
Proof.
  intros Ho. unfold Count, ReplaceAll, ReplaceOne. induction s as [|c s IH]; [done|].
  cbn [String.length scan matches Index]. rewrite !literal_spec. destruct (String.prefix old (String c s)) eqn:Ep.
  - intros Hm. cbn [stake Nat.add]. rewrite append_empty. f_equal. symmetry. apply no_match; [lia|].
    destruct old as [|d old]; [done|]. cbn [sdrop String.length]. rewrite sdrop_length. lia.
  - intros Hm. rewrite <- (IH Hm). by destruct (Index s old).
Qed.

(** *** Line endings *)

Fixpoint with_crlf (s : string) : string :=
  match s with
  | EmptyString => EmptyString
  | String c s => (if Ascii.eqb c (chr 10) then CRLF else String c EmptyString) +:+ with_crlf s
  end.
Definition no_cr (s : string) : Prop := string_forall (fun c => negb (Ascii.eqb c (chr 13))) s = true.
Lemma prefix_head a p c s : String.prefix (String a p) (String c s) = true -> a = c.
Proof. simpl. by destruct (ascii_dec a c). Qed.
Lemma crlf_prefix c s : c <> chr 13 -> String.prefix CRLF (String c s) = false.
Proof. intros Hne. apply not_true_iff_false. intros Hp%prefix_head. by destruct Hne. Qed.
Lemma crlf_normalised s : no_cr s -> ReplaceAll (with_crlf s) CRLF LF = s.
Proof.
  unfold no_cr, ReplaceAll. assert (Hc : consuming (literal CRLF LF)) by by apply literal_consuming.
  induction s as [|c s IH]; [done|]. cbn [with_crlf string_forall]. intros [Hne Hs]%andb_true_iff.
  specialize (IH Hs). destruct (Ascii.eqb_spec c (chr 10)) as [->|_].
  - change (CRLF +:+ with_crlf s) with (String (chr 13) (String (chr 10) (with_crlf s))). cbn [String.length].
    rewrite (scan_step _ _ _ _ LF (with_crlf s)) by by destruct (with_crlf s).
    rewrite scan_fuel by (done || lia). by rewrite IH.
  - change (String c EmptyString +:+ with_crlf s) with (String c (with_crlf s)). cbn [String.length].
    rewrite scan_skip; [by rewrite IH|].
    rewrite literal_spec, crlf_prefix; [done|]. by apply negb_true_iff, Ascii.eqb_neq in Hne.
Qed.

(** ** What is served *)

(** The rewriting does not depend on how a checkout ends the lines of the
    page, and what it yields holds no key in the page's storage and no address
    of another server's fonts or scripts. *)
Lemma assets_are_normalised raw auth : no_cr raw -> browserAssets (Ok (with_crlf raw)) auth = browserAssets (Ok raw) auth.
Proof.
  intros Hr. unfold browserAssets. cbn [result_bind]. rewrite (crlf_normalised raw Hr).
  assert (ReplaceAll raw CRLF LF = raw) as ->; [|done]. apply no_match; [|done]. revert Hr. clear. unfold no_cr.
  induction raw as [|c s IH]; [done|]. cbn [string_forall String.length matches]. intros [Hne Hs]%andb_true_iff.
  rewrite literal_spec, crlf_prefix; [by apply IH|]. by apply negb_true_iff, Ascii.eqb_neq in Hne.
Qed.
Lemma assets_are_safe raw auth html js :
  browserAssets raw auth = Ok (html, js) ->
  Contains js "getApiKey(" = false /\ Contains js "localStorage.setItem" = false /\
  Contains html "https://fonts." = false /\ Contains html "https://cdn." = false.
Proof.
  unfold browserAssets. intros (raw' & _ & Hr)%result_bind_ok. apply result_bind_ok in Hr as (auth' & _ & Hr).
  apply result_bind_ok in Hr as ([html0 js0] & _ & Hr). apply result_bind_ok in Hr as (js1 & _ & Hr).
  apply result_bind_ok in Hr as (js2 & _ & Hr). cbv zeta in Hr. destruct (unsafe _ _) eqn:Eu; [done|].
  injection Hr as <- <-. unfold unsafe in Eu. by bools.
Qed.
(** Each patch found its anchor exactly once when its turn came. *)
Lemma patches_apply l js js' :
  apply_patches l js = Ok js' ->
  (l = [] /\ js' = js) \/
  exists old new rest, l = (old, new) :: rest /\ Count js old = 1 /\ apply_patches rest (ReplaceOne js old new) = Ok js'.
Proof.
  destruct l as [|[old new] rest]; simpl; [intros [= ->]; by left|]. right.
  destruct (Z.eqb_spec (Count js old) 1); [|done]. by exists old, new, rest.
Qed.

Definition in_quotes (s : string) : string := String quote EmptyString +:+ s +:+ String quote EmptyString.
Example links_and_handlers_go :
  rewrite_page ("<head> <link href=" +:+ in_quotes "https://fonts.example/a" +:+ "><link rel=" +:+ in_quotes "icon" +:+
    "></head><b onclick=" +:+ in_quotes "go()" +:+ " id=" +:+ in_quotes "x" +:+ ">") =
  "<head><link rel=" +:+ in_quotes "icon" +:+ "></head><b id=" +:+ in_quotes "x" +:+ ">".
Proof. vm_compute. reflexivity. Qed.
Example page_is_split :
  split_script "<p><script>code</script></p>" = Ok ("<p>" +:+ script_tag +:+ "</p>", "code").
Proof. vm_compute. reflexivity. Qed.
Example drift_is_refused :
  apply_patches [("a", "b"); ("c", "d")]%string "ab" = Err (anchor_changed "c") /\
  apply_patches [("a", "b")]%string "aa" = Err (anchor_changed "a").
Proof. vm_compute. done. Qed.
