(* ===== verification/Notify.v ===== *)
(** * Where alerts go ([alerting/notify.go], [alerts_setup.go])

    The webhook and Slack notifiers over an HTTP client that is a parameter,
    and the evaluator the configuration asks for. *)

From S2P Require Export GoBase Rows Alerting.
Open Scope list_scope.
Open Scope Z_scope.

(** What [Client.Post] does: the transport's error, or a status. *)
Inductive post_result := TransportError (cause : string) | Answered (status : Z).
(** [json.Marshal] of an alert and of [{"text": ...}]; [None] is an error. *)
Class NotifyJSON := {
  nj_alert : Alert -> option string;
  nj_text : string -> option string
}.

Section notifiers.
Context `{Unicode} `{NotifyJSON}.
(** The HTTP client (URL, content type, body), and [strconv.Quote]. *)
Context (Post : string -> string -> string -> post_result) (quote : string -> string).

(** The text of the [url.Error] around a transport error. *)
Definition url_error (url cause : string) : string := "Post " +:+ quote url +:+ ": " +:+ cause.
(** The end of both [Send] methods: [None] is success. *)
Definition send_body (name url : string) (body : option string) : option string :=
  match body with
  | None => Some "json: unsupported value"
  | Some body =>
      match Post url "application/json" body with
      | TransportError cause => Some (name +:+ ": " +:+ url_error url cause)
      | Answered status => if 300 <=? status then Some (name +:+ " returned HTTP " +:+ Itoa status) else None
      end
  end.
Definition NewWebhookNotifier (url : string) : Notifier :=
  {| n_Name := "webhook"; n_Send := fun a => send_body "webhook" url (nj_alert a) |}.
Definition emoji (a : Alert) : string :=
  if a_Resolved a then ":white_check_mark:"
  else if String.eqb (a_Severity a) SeverityCritical then ":rotating_light:" else ":warning:".
Definition slack_text (a : Alert) : string :=
  emoji a +:+ " *" +:+ Title a +:+ "*" +:+ bytes [10]%N +:+ a_Message a.
Definition NewSlackNotifier (url : string) : Notifier :=
  {| n_Name := "slack"; n_Send := fun a => send_body "slack" url (nj_text (slack_text a)) |}.
(** What [fanOut] logs of its sends. *)
Definition failure_lines (sent : list (string * Alert * option string)) : list string :=
  omap (fun x => let '(name, _, r) := x in
    (fun err => "[alert] notifier " +:+ quote name +:+ " failed: " +:+ err) <$> r) sent.

(** ** The evaluator of the program *)

Record alert_flags := {
  flagAlerts : string;
  flagWriteDefaultAlerts : string;
  flagAlertWebhook : string;
  flagAlertSlack : string;
  flagNoAlerts : bool
}.
Definition or_getenv (v : string) (value : string) : string := if is_empty v then value else v.
Definition alertEnvDefaults (getenv : string -> string) (f : alert_flags) : alert_flags :=
  {| flagAlerts := or_getenv (flagAlerts f) (getenv "WMONITOR_ALERT_RULES");
     flagWriteDefaultAlerts := flagWriteDefaultAlerts f;
     flagAlertWebhook := or_getenv (flagAlertWebhook f) (getenv "WMONITOR_ALERT_WEBHOOK");
     flagAlertSlack := or_getenv (flagAlertSlack f) (getenv "WMONITOR_ALERT_SLACK");
     flagNoAlerts := flagNoAlerts f |}.
Definition configured_notifiers (f : alert_flags) : list Notifier :=
  (if is_empty (flagAlertWebhook f) then [] else [NewWebhookNotifier (flagAlertWebhook f)]) ++
  (if is_empty (flagAlertSlack f) then [] else [NewSlackNotifier (flagAlertSlack f)]).
(** [Err] ends the program; [None] is alerting switched off. *)
Definition buildEvaluator (f : alert_flags) (store : alert_store) (read : option string) (parse : string -> option (list Rule))
  : result load_error (option Evaluator) :=
  if flagNoAlerts f then Ok None
  else match LoadRules (flagAlerts f) read parse with
       | Err e => Err e
       | Ok rules => Ok (Some (New store rules (configured_notifiers f)))
       end.
End notifiers.

(** ** What the notifiers guarantee *)

Section facts.
Context `{Unicode} `{NotifyJSON} (Post : string -> string -> string -> post_result) (quote : string -> string).

(** A send succeeds exactly when the service answered below 300. *)
Lemma send_body_ok name url body :
  send_body Post quote name url body = None <-> exists b status, body = Some b /\ Post url "application/json" b = Answered status /\ status < 300.
Proof.
  unfold send_body. split.
  - destruct body as [b|]; [|done]. destruct (Post _ _ _) as [c|status] eqn:E; [done|]. destruct (Z.leb_spec 300 status); [done|].
    intros _. by exists b, status.
  - intros (b & status & -> & -> & Hs). by destruct (Z.leb_spec 300 status); [lia|].
Qed.
(** Alerting is either off or runs with usable rules and every configured
    destination, the log always first. *)
Lemma evaluator_as_configured f store read parse r :
  buildEvaluator Post quote f store read parse = Ok r ->
  (flagNoAlerts f = true /\ r = None) \/
  (flagNoAlerts f = false /\ exists e, r = Some e /\ e_rules e <> [] /\ Forall (fun x => Validate x = Ok tt) (e_rules e) /\
     map n_Name (e_notifiers e) = "log"%string :: (if is_empty (flagAlertWebhook f) then [] else ["webhook"%string]) ++
                                                (if is_empty (flagAlertSlack f) then [] else ["slack"%string])).
Proof.
  unfold buildEvaluator. destruct (flagNoAlerts f); [intros [= <-]; by left|].
  destruct (LoadRules _ _ _) as [rules|] eqn:E; [|done]. intros [= <-]. right. split; [done|].
  apply LoadRules_valid in E as [Hn Hv]. eexists. split; [done|]. split; [done|]. split; [done|].
  simpl. unfold configured_notifiers. by destruct (is_empty (flagAlertWebhook f)), (is_empty (flagAlertSlack f)).
Qed.
End facts.

(** ** A secret in the log *)

(** The address of an incoming webhook is a credential, which the program keeps
    out of service arguments and printed settings; but the error of a failed
    connection contains it, and [fanOut] logs the error. *)
Example failed_alert_logs_the_address :
  let url := "https://hooks.example/T0/B0/secret"%string in
  let down (url type body : string) := TransportError "connection refused" in
  let quote (s : string) := bytes [34]%N +:+ s +:+ bytes [34]%N in
  let json := {| nj_alert := fun _ => Some "{}"%string; nj_text := fun t => Some t |} in
  failure_lines quote (fanOut [@NewSlackNotifier {| uc_upper := id; uc_lower := id; uc_equal_fold := String.eqb |} json down quote url]
    {| a_Rule := "r"; a_ServerID := "s"; a_TenantID := "t"; a_Metric := "m"; a_Severity := SeverityCritical; a_State := StateFiring;
       a_Value := f_of_Z 0; a_Threshold := f_of_Z 0; a_Message := "m"; a_FiredAt := 0; a_Resolved := false |})
  = ["[alert] notifier " +:+ quote "slack" +:+ " failed: slack: Post " +:+ quote url +:+ ": connection refused"].
Proof. vm_compute. reflexivity. Qed.
