(* ===== verification/Main.v ===== *)
(** * The program ([main.go], [runtime.go], [alerts_setup.go])

    What a command line leads to: service control, a printed configuration, a
    report, administration, or a running program; and what the running program
    of each mode is made of.  The service manager and the operating system are
    parameters. *)

From S2P Require Export Notify Collector Retention Operator Startup AgentRun.
Open Scope list_scope.
Open Scope Z_scope.

(** ** The command line *)

(** Every flag of [main.go] and [alerts_setup.go]; the TTL and the uses of
    [admin_flags] are those of [settings]. *)
Record flags := {
  flagInstall : bool;
  flagUninstall : bool;
  flagStart : bool;
  flagStop : bool;
  flagShowKey : bool;
  flagPrintConfig : bool;
  flagConfig : string;
  fl_settings : settings;
  fl_alerts : alert_flags;
  fl_admin : admin_flags;
  fl_report : report_flags
}.
(** What the program finds around it: its arguments, the files, the user, the
    environment, whether it was built with credentials, and whether it runs in
    the foreground. *)
Record surroundings := {
  su_args : list string;
  su_files : files;
  su_euid : Z;
  su_env : environment;
  su_embedded : bool;
  su_interactive : bool
}.
Inductive control := Install (args : list string) | Uninstall | StartService | StopService.
(** What [main] does; the rest of a run is in the models of these parts. *)
Inductive command :=
| Control (c : control)
| ShowKeyNotice
| PrintConfig (text : list string)
| WriteDefaultAlerts (path : string)
| Administration (f : admin_flags) (s : settings) (env : environment)
| OneShot (r : report_flags) (s : settings) (env : environment)
| RunService (s : settings) (a : alert_flags) (env : environment)
| RunForeground (s : settings) (a : alert_flags) (env : environment)
| Fatal (message : string).

Definition serviceControlCount (f : flags) : nat :=
  length (List.filter (fun b : bool => b) [flagInstall f; flagUninstall f; flagStart f; flagStop f]).
(** [controlService]; what the service manager answers is not looked at. *)
Definition controlService (f : flags) (args : list string) : command :=
  if flagInstall f then
    if existsb (fun name => is_secret ("-" +:+ name)) (explicitFlags (fl_settings f))
    then Fatal "put service secrets in protected machine config, not installation arguments"
    else Control (Install (serviceSafeArgs args))
  else if flagUninstall f then Control Uninstall
  else if flagStart f then Control StartService
  else Control StopService.

Section main.
Context `{Unicode} `{URLParser} `{Net} `{DSNParser} `{HubParser} `{MapRange}.
Context (buildVersion buildCommit : string).

Definition maskDSN (fs : files) (euid : Z) (s : settings) (env : environment) : option string :=
  match resolveDSN fs euid s env with
  | None => None
  | Some r => Some (mask match r with Ok dsn => dsn | Err _ => EmptyString end)
  end.
Definition orNone (value : string) : string := if is_empty value then "(not set)" else value.
(** The lines; [None] is a protected file whose check does not end. *)
Definition printConfig (fs : files) (euid : Z) (s : settings) (a : alert_flags) (env : environment) : option (list string) :=
  match maskDSN fs euid s env with
  | None => None
  | Some dsn => Some
      ["version: " +:+ buildVersion +:+ " (" +:+ buildCommit +:+ ")"; "mode: " +:+ resolveMode s; "port: " +:+ flagPort s;
       "database: " +:+ flagDB s; "agent destination: " +:+ orNone (flagAgentHub s); "api key: " +:+ mask (resolveAPIKey s env);
       "enrollment code: " +:+ mask (resolveEnrollCode s env); "dsn: " +:+ dsn; "alert webhook: " +:+ mask (flagAlertWebhook a)]
  end.
Definition reportRequested (r : report_flags) : bool :=
  negb (is_empty (flagExportCSV r)) || negb (is_empty (flagExportTxt r)) || negb (is_empty (flagAssessmentReport r)).

(** After the configuration has been accepted. *)
Definition dispatch (f : flags) (w : surroundings) (s : settings) (a : alert_flags) (env : environment) : option command :=
  if flagShowKey f then Some ShowKeyNotice
  else if flagPrintConfig f then PrintConfig <$> printConfig (su_files w) (su_euid w) s a env
  else if flagInstall f then Some (controlService f (su_args w))
  else if negb (is_empty (flagWriteDefaultAlerts a)) then Some (WriteDefaultAlerts (flagWriteDefaultAlerts a))
  else if adminRequested (fl_admin f) then Some (Administration (fl_admin f) s env)
  else if reportRequested (fl_report f) then Some (OneShot (fl_report f) s env)
  else if su_interactive w then Some (RunForeground s a env)
  else Some (RunService s a env).
Definition main (f : flags) (w : surroundings) : option command :=
  if (1 <? serviceControlCount f)%nat then Some (Fatal "choose exactly one service-control action")
  else if flagStop f || flagStart f || flagUninstall f then Some (controlService f (su_args w))
  else match loadConfigEnv (su_files w) (su_euid w) (flagConfig f) (su_env w) with
  | None => None
  | Some (Err e, _) => Some (Fatal "configuration rejected")
  | Some (Ok _, env) =>
      let '(s, env) := applyEnvConfig (negb (su_interactive w) || flagInstall f) (fl_settings f) env in
      let a := alertEnvDefaults (Getenv env) (fl_alerts f) in
      match validateConfig (su_files w) (su_euid w) (su_embedded w) s env with
      | None => None
      | Some (Err e) => Some (Fatal "configuration rejected")
      | Some (Ok _) => dispatch f w s a env
      end
  end.
End main.

(** ** The parts of a running program *)

Definition configureUserTracker (s : settings) (t : Users.TCPUserTracker) : Users.TCPUserTracker :=
  let t := Users.SetAppPorts (parseAppPorts (flagAppPort s)) t in
  let t := match parseAppPorts (flagPort s) with
           | [port] => Users.SetExcludePorts [port] t
           | _ => t
           end in
  Users.SetWindow (flagUserWindow s) t.

(** An opened store: SQLite at a path, or Postgres. *)
Inductive opened := OpenedSQLite (path : string) | OpenedPostgres.
(** [openStore] on the outcomes of its calls. *)
Definition openStore (s : settings) (dsn dir : result error string) (sqlite : string -> result error unit)
    (postgres : string -> result error unit) : result error opened :=
  if String.eqb (flagDB s) "postgres" then
    let? dsn := dsn in
    match postgres dsn with
    | Err _ => Err (EMsg "PostgreSQL startup failed")
    | Ok _ => Ok OpenedPostgres
    end
  else if String.eqb (flagDB s) "sqlite" then
    let? dir := dir in
    let path := Join dir "wmonitor.db" in
    let? _ := sqlite path in Ok (OpenedSQLite path)
  else Err (EMsg "unsupported database backend").

(** The job over an opened store; both backends can prune. *)
Definition retention_job (o : opened) (budget : option Z) : Job :=
  let j := match o with OpenedSQLite path => SetDataPath path Retention.New | OpenedPostgres => Retention.New end in
  match budget with Some b => SetDiskBudget b j | None => j end.
(** What runs over the store, and how the parts are wired. *)
Record wiring := {
  wi_program : program;
  wi_hub : bool (* Hub mode *);
  wi_retention : option Job;
  wi_tracker : option Users.TCPUserTracker;
  wi_guarded : bool (* the collector writes through the capacity check *);
  wi_iface : string;
  wi_evaluator : option Evaluator
}.
Definition wants_report (s : settings) : bool :=
  is_empty (flagAgentHub s) && ((0 <? flagRunFor s) || negb (is_empty (flagExportFlt s))).
(** How [makeProgram] ends: an error, with the store closed again or never
    opened; the end of the process; or the program. *)
Inductive making := MakeFailed (e : error) (store_open : bool) | ProcessEnds (e : load_error) | MakeDone (w : wiring).

Section servers.
Context `{Unicode} `{NotifyJSON} (Post : string -> string -> string -> post_result) (quote : string -> string).

(** [makeProgram] without [-agent], on the outcomes of opening the store, of
    registering the dashboard and of reading the rules. *)
Definition make_server (s : settings) (a : alert_flags) (env : environment) (store : result error opened)
    (registered : result error unit) (query : alert_store) (read : option string) (parse : string -> option (list Rule)) : making :=
  match store with
  | Err e => MakeFailed e false
  | Ok o =>
      let job := retention_job o (positiveEnvInt env "WMONITOR_DISK_BUDGET_BYTES") in
      match registered with
      | Err e => MakeFailed e false
      | Ok _ =>
          let tracker := if flagHub s then None else Some (configureUserTracker s Users.NewTCPUserTracker) in
          match buildEvaluator Post quote a query read parse with
          | Err e => ProcessEnds e
          | Ok ev =>
              MakeDone {| wi_program := {| pg_workers := (if flagHub s then [] else [CollectorLoop]) ++
                                                     (if is_some ev then [EvaluatorLoop] else []) ++ [RetentionLoop];
                                       pg_server := true; pg_report := wants_report s |};
                      wi_hub := flagHub s; wi_retention := Some job; wi_tracker := tracker;
                      wi_guarded := negb (flagHub s); wi_iface := flagExternalIface s; wi_evaluator := ev |}
          end
      end
  end.
End servers.

(** *** Agent mode *)

(** The credential files and the network, and the machine's spools. *)
Record agent_world (N : Type) := { aw_boot : boot N; aw_host : agent_host }.
Arguments aw_boot {N}.
Arguments aw_host {N}.

Section agents.
Context `{Unicode} `{URLParser} `{CredentialJSON} `{EnrollJSON}.
Context {N : Type} (post : string -> string -> M N (option (Z * string))).
Context (euid : Z) (tokenPath platform version : string).
Context (wd : option string) (extraRoots : list string) (owned : string -> bool) (boot_time seed : option Z).

Definition on_boot {A : Type} (m : M (boot N) A) : M (agent_world N) A :=
  zoom aw_boot (fun b w => {| aw_boot := b; aw_host := aw_host w |}) m.
Definition on_host {A : Type} (m : M agent_host A) : M (agent_world N) A :=
  zoom aw_host (fun h w => {| aw_boot := aw_boot w; aw_host := h |}) m.
(** A method of an agent that is at hand. *)
Definition on_agent {S : Type} (m : M Agent unit) (a : Agent) : M S Agent := fun s fs =>
  let '(_, a', fs') := m a fs in (Ok a', s, fs').
(** [Close] of an agent that has not run gives up the lock it took; [before]
    are the locks held before it was made. *)
Definition abandon (before : gset string) (a : Agent) : M agent_host unit :=
  match ag_spool a with
  | None => ret tt
  | Some _ => modify (fun h => with_locks (ah_locks h ∖ (ah_locks h ∖ before)) h)
  end.
Definition agent_wiring (s : settings) : wiring :=
  {| wi_program := {| pg_workers := [CollectorLoop]; pg_server := false; pg_report := false |};
     wi_hub := false; wi_retention := None; wi_tracker := Some (configureUserTracker s Users.NewTCPUserTracker);
     wi_guarded := false; wi_iface := flagExternalIface s; wi_evaluator := None |}.
(** [makeProgram] with [-agent]; [serverID] is [None] where [resolveServerID]
    ends the process. *)
Definition make_agent (s : settings) (key code hostname : string) (serverID : option string) (override : string) (now : Z)
  : M (agent_world N) (Agent * wiring) :=
  let* token := on_boot (agentCredentials post euid tokenPath platform version (flagAgentHub s) key code hostname serverID now) in
  inspect (fun w =>
    let before := ah_locks (aw_host w) in
    let* a := on_host (AgentRun.New wd extraRoots owned boot_time seed override (flagAgentHub s) token) in
    let* bound := on_boot (bindAgentSpool euid tokenPath key) in
    let* a := match bound with
              | Some (tenant, server) => on_agent (BindIdentity tenant server) a
              | None => ret a
              end in
    match InitializationError a with
    | Some e => let* _ := on_host (abandon before a) in fail e
    | None =>
        match serverID with
        | None => fail (EMsg "agent identity unavailable")
        | Some _ => ret (a, agent_wiring s)
        end
    end).
End agents.

(** ** In the foreground *)

Inductive wake := Signalled | DeadlineReached | ServerFailed (e : error).
(** [runForeground]: [start] and [stop] are what [Start] and [Stop] return. *)
Definition runForeground (start : option error) (event : wake) (stop : option error) : option error :=
  match start with
  | Some e => Some e
  | None => match stop with
            | Some e => Some e
            | None => match event with ServerFailed e => Some e | _ => None end
            end
  end.
