(* ===== verification/MainProofs.v ===== *)
(** * What a command line can lead to (over Main.v)

    The configuration gates everything but stopping; printed settings show no
    secret; and what [makeProgram] returns is complete and owns what it uses. *)

From S2P Require Export Main StartupProofs AgentRunProofs CollectorProofs ConfigProofs.
Open Scope list_scope.
Open Scope Z_scope.

Section gate.
Context `{Unicode} `{URLParser} `{Net} `{DSNParser} `{HubParser} `{MapRange}.
Context (buildVersion buildCommit : string).

(** The settings and environment the program works with once its
    configuration was accepted. *)
Definition accepted (f : flags) (w : surroundings) (s : settings) (env : environment) : Prop :=
  exists loaded, loadConfigEnv (su_files w) (su_euid w) (flagConfig f) (su_env w) = Some (Ok tt, loaded) /\
    applyEnvConfig (negb (su_interactive w) || flagInstall f) (fl_settings f) loaded = (s, env) /\
    validateConfig (su_files w) (su_euid w) (su_embedded w) s env = Some (Ok tt).
(** One mode, a real port, and credentials that only travel to an encrypted or
    local destination. *)
Definition sound (w : surroundings) (s : settings) (env : environment) : Prop :=
  (exists port, ParseInt (flagPort s) = Some port /\ 1 <= port <= 65535) /\
  (flagHub s = true -> flagAgentHub s = EmptyString) /\ su_embedded w = false /\
  (flagAgentHub s <> EmptyString -> RequireHTTPSHub (flagAgentHub s) = None /\ bad_hub_origin (flagAgentHub s) = false) /\
  (flagDB s = "sqlite" \/ flagDB s = "postgres" /\
   (flagAgentHub s = EmptyString -> exists dsn main rest, resolveDSN (su_files w) (su_euid w) s env = Some (Ok dsn) /\
      pgx_ParseConfig dsn = Some (main, rest) /\
      Forall (fun d => local_destination d = true \/ verified_destination d = true) (main :: rest)))%string.

(** Whatever the secrets are, what is printed depends on their presence. *)
Definition public_view (fs : files) (euid : Z) (s : settings) (a : alert_flags) (env : environment) :=
  (flagPort s, flagDB s, flagAgentHub s, flagHub s,
   (is_empty (resolveAPIKey s env), is_empty (resolveEnrollCode s env), is_empty (flagAlertWebhook a)),
   is_empty <$> (match resolveDSN fs euid s env with
                 | Some (Ok dsn) => Some dsn
                 | Some (Err _) => Some EmptyString
                 | None => None
                 end)).
Lemma mask_empty v1 v2 : is_empty v1 = is_empty v2 -> mask v1 = mask v2.
Proof. unfold mask. by intros ->. Qed.
Lemma printed_is_public fs euid s a env fs2 euid2 s2 a2 env2 :
  public_view fs euid s a env = public_view fs2 euid2 s2 a2 env2 ->
  printConfig buildVersion buildCommit fs euid s a env = printConfig buildVersion buildCommit fs2 euid2 s2 a2 env2.
Proof.
  unfold public_view, printConfig, resolveMode. intros [= E1 E2 E3 E4 K1 K2 K3 E5].
  assert (maskDSN fs euid s env = maskDSN fs2 euid2 s2 env2) as ->.
  { unfold maskDSN. destruct (resolveDSN fs euid s env) as [[|]|], (resolveDSN fs2 euid2 s2 env2) as [[|]|]; simplify_eq/=; try done;
      f_equal; by apply mask_empty. }
  by rewrite E1, E2, E3, E4, (mask_empty _ _ K1), (mask_empty _ _ K2), (mask_empty _ _ K3).
Qed.

(** What is promised of each outcome. *)
Definition allowed (f : flags) (w : surroundings) (c : command) : Prop :=
  match c with
  | Fatal _ => True
  | Control Uninstall | Control StartService | Control StopService =>
      forall w2, main buildVersion buildCommit f w2 = Some c
  | Control (Install args) =>
      args = serviceSafeArgs (su_args w) /\ Forall (fun name => is_secret ("-" +:+ name) = false) (explicitFlags (fl_settings f)) /\
      exists s env, accepted f w s env /\ sound w s env
  | PrintConfig text =>
      exists s env, accepted f w s env /\ sound w s env /\
      forall f2 w2 s2 env2 text2, accepted f2 w2 s2 env2 -> main buildVersion buildCommit f2 w2 = Some (PrintConfig text2) ->
        public_view (su_files w) (su_euid w) s (alertEnvDefaults (Getenv env) (fl_alerts f)) env =
        public_view (su_files w2) (su_euid w2) s2 (alertEnvDefaults (Getenv env2) (fl_alerts f2)) env2 -> text2 = text
  | ShowKeyNotice | WriteDefaultAlerts _ => exists s env, accepted f w s env /\ sound w s env
  | Administration _ s env | OneShot _ s env => accepted f w s env /\ sound w s env
  | RunService s _ env => accepted f w s env /\ sound w s env /\ su_interactive w = false /\
      serviceControlCount f = 0%nat /\ adminRequested (fl_admin f) = false /\ reportRequested (fl_report f) = false
  | RunForeground s _ env => accepted f w s env /\ sound w s env /\ su_interactive w = true /\
      serviceControlCount f = 0%nat /\ adminRequested (fl_admin f) = false /\ reportRequested (fl_report f) = false
  end.

(** Past the guards of [main]. *)
Lemma main_configured f w c :
  main buildVersion buildCommit f w = Some c -> (exists message, c = Fatal message) \/
  ((flagStop f || flagStart f || flagUninstall f) = true /\ c = controlService f (su_args w)) \/
  ((flagStop f || flagStart f || flagUninstall f) = false /\ exists s env, accepted f w s env /\
     dispatch buildVersion buildCommit f w s (alertEnvDefaults (Getenv env) (fl_alerts f)) env = Some c).
Proof.
  unfold main. destruct (_ <? _)%nat; [intros [= <-]; left; by eexists|].
  destruct (flagStop f || flagStart f || flagUninstall f) eqn:Ec; [intros [= <-]; right; by left|].
  destruct (loadConfigEnv _ _ _ _) as [[[[]|e] loaded]|] eqn:El; [|intros [= <-]; left; by eexists|done].
  destruct (applyEnvConfig _ _ _) as [s env] eqn:Ea.
  destruct (validateConfig _ _ _ _ _) as [[[]|e]|] eqn:Ev; [|intros [= <-]; left; by eexists|done].
  intros Hd. right; right. split; [done|]. exists s, env. split; [|done]. by exists loaded.
Qed.
Lemma printing_configured f w s env text :
  accepted f w s env -> main buildVersion buildCommit f w = Some (PrintConfig text) ->
  printConfig buildVersion buildCommit (su_files w) (su_euid w) s (alertEnvDefaults (Getenv env) (fl_alerts f)) env = Some text.
Proof.
  intros (loaded & Hl & Ha & Hv) Hm. apply main_configured in Hm as [[? ?]|[[_ Hm]|(Hn & s' & env' & (loaded' & Hl' & Ha' & Hv') & Hd)]]; [done| |].
  { unfold controlService in Hm. by repeat case_match. }
  assert (loaded' = loaded) as -> by congruence. assert ((s', env') = (s, env)) as [= -> ->] by congruence.
  unfold dispatch in Hd. destruct (flagShowKey f); [done|]. destruct (flagPrintConfig f).
  - by destruct (printConfig _ _ _ _ _ _ _); simplify_eq/=.
  - destruct (flagInstall f) eqn:Ei; [|by repeat (case_match; try done)].
    unfold controlService in Hd. rewrite Ei in Hd. by repeat case_match.
Qed.

(** C18. The configuration gates the program.  Stopping, starting and removing
    the service depend on the command line alone, so they work when the
    configuration is broken.  Whatever else [main] does, other than ending with
    a message, it does with a configuration that was read and accepted: one
    mode, a valid port, no embedded credentials, and credentials that travel
    only to an encrypted or local hub and to a verified or local database.  The
    service is never installed with a flag that holds a secret.  What is printed of two
    configurations differs only where public settings differ or a secret is set
    in one of them only, and programs run only when nothing else was asked. *)
Theorem main_is_gated f w c :
  main buildVersion buildCommit f w = Some c -> allowed f w c.
Proof.
  intros Hm. pose proof Hm as Hm0.
  apply main_configured in Hm as [[m ->]|[[Hcontrol ->]|(Hn & s & env & Hacc & Hd)]]; [done| |].
  { unfold main in Hm0. destruct (1 <? serviceControlCount f)%nat eqn:Ecount; [by injection Hm0 as <-|].
    assert (flagInstall f = false) as Ei.
    { unfold serviceControlCount in Ecount. by destruct (flagInstall f), (flagUninstall f), (flagStart f), (flagStop f). }
    unfold controlService. rewrite Ei. destruct (flagUninstall f) eqn:Eu; [|destruct (flagStart f) eqn:Es]; intros w2; unfold main;
      rewrite Ecount, ?Eu, ?Es, Hcontrol; unfold controlService; by rewrite Ei, Eu, ?Es. }
  assert (Hsound : sound w s env) by (destruct Hacc as (? & _ & _ & Hv); exact (accepted_settings _ _ _ _ _ Hv)).
  unfold dispatch in Hd. destruct (flagShowKey f); [injection Hd as <-; by exists s, env|].
  destruct (flagPrintConfig f).
  { destruct (printConfig _ _ _ _ _ _ _) as [text|] eqn:Ep; [|done]. injection Hd as <-. exists s, env. split; [done|]. split; [done|].
    intros f2 w2 s2 env2 text2 Hacc2 Hm2 Hview. apply (printing_configured _ _ _ _ _ Hacc2) in Hm2.
    rewrite (printed_is_public _ _ _ _ _ _ _ _ _ _ Hview) in Ep. congruence. }
  destruct (flagInstall f) eqn:Ei.
  { injection Hd as <-. unfold controlService. rewrite Ei. destruct (existsb _ _) eqn:Ex; [done|]. split; [done|].
    split; [|by exists s, env]. apply Forall_forall. intros name Hin. apply not_true_iff_false. intros Hsec.
    apply not_true_iff_false in Ex. apply Ex, existsb_exists. exists name. split; [by apply list_elem_of_In|done]. }
  destruct (negb _); [injection Hd as <-; by exists s, env|]. destruct (adminRequested _) eqn:Ea; [by injection Hd as <-|].
  destruct (reportRequested _) eqn:Er; [by injection Hd as <-|].
  assert (Hz : serviceControlCount f = 0%nat) by (unfold serviceControlCount; rewrite Ei; by destruct (flagUninstall f), (flagStart f), (flagStop f)).
  by destruct (su_interactive w) eqn:Eint; injection Hd as <-.
Qed.
End gate.

(** ** The program that is made *)

Section servers.
Context `{Unicode} `{NotifyJSON} (Post : string -> string -> string -> post_result) (quote : string -> string).

(** A program that is made has what its mode needs and nothing else. *)
Definition fits (s : settings) (a : alert_flags) (env : environment) (w : wiring) : Prop :=
  pg_server (wi_program w) = true /\ wi_hub w = flagHub s /\
  (CollectorLoop ∈ pg_workers (wi_program w) <-> flagHub s = false) /\
  is_some (wi_tracker w) = negb (flagHub s) /\ (flagHub s = false -> wi_guarded w = true) /\
  RetentionLoop ∈ pg_workers (wi_program w) /\
  (exists job, wi_retention w = Some job /\
     forall budget, positiveEnvInt env "WMONITOR_DISK_BUDGET_BYTES" = Some budget -> diskBudgetBytes job = budget) /\
  (EvaluatorLoop ∈ pg_workers (wi_program w) <-> flagNoAlerts a = false) /\
  (forall e, wi_evaluator w = Some e -> e_rules e <> [] /\ Forall (fun x => Validate x = Ok tt) (e_rules e)).
Lemma make_server_fits s a env store registered query read parse w :
  make_server Post quote s a env store registered query read parse = MakeDone w -> is_ok store = true /\ fits s a env w.
Proof.
  unfold make_server. destruct store as [o|]; [|done]. destruct registered; [|done].
  destruct (buildEvaluator _ _ _ _ _ _) as [ev|] eqn:Eb; [|done]. intros [= <-]. split; [done|].
  apply evaluator_as_configured in Eb as [[Hn ->]|(Hn & e & -> & Hr & Hv & _)]; unfold fits; simpl; rewrite Hn.
  all: split_and!; try done; try (by destruct (flagHub s)).
  all: try (destruct (flagHub s); simpl; by rewrite !elem_of_cons, elem_of_nil; intuition discriminate).
  all: try (eexists; split; [done|]; intros budget Hb; unfold retention_job; rewrite Hb; by destruct o).
  all: try (intros e' [= <-]; by split).
Qed.
End servers.

Section agents.
Context `{Unicode} `{URLParser} `{CredentialJSON} `{EnrollJSON}.
Context {N : Type} (post : string -> string -> M N (option (Z * string))).
Context (euid : Z) (tokenPath platform version : string).
Context (wd : option string) (extraRoots : list string) (owned : string -> bool) (boot_time seed : option Z).

(** What binding does to an agent: its identity is that of before, and without
    an initialization error it had none before and is bound. *)
Definition rebound (a a' : Agent) : Prop :=
  agent_like a a' /\ ag_apiKey a' = ag_apiKey a /\ ag_hubURL a' = ag_hubURL a /\ ag_bootID a' = ag_bootID a /\
  (ag_initErr a' = None -> ag_initErr a = None /\ ag_bound a' = true).
Lemma BindIdentity_rebound tenant server a fs r a' fs' : BindIdentity tenant server a fs = (r, a', fs') -> rebound a a'.
Proof.
  intros Hb. split; [pose proof (BindIdentity_like tenant server a a fs (agent_like_refl a)) as Hl; unfold run_state in Hl; by rewrite Hb in Hl|].
  unfold BindIdentity, inspect in Hb. destruct (negb _ || _ || _) eqn:Eg; [by injection Hb as <- <- <-|].
  unfold mbind, attempt, on_queue in Hb. destruct (ag_spool a) as [sp|] eqn:Es; [|done].
  destruct (BindDestination _ _ _ sp fs) as [[[u|e] sp'] fs1]; unfold modify in Hb; injection Hb as <- <- <-; by split_and!.
Qed.

(** Taken by this agent alone. *)
Definition holds_lock (h h' : agent_host) : Prop :=
  exists dir, dir <> EmptyString /\ may_use wd extraRoots h dir /\ lock_path dir ∉ ah_locks h /\ ah_locks h' = {[lock_path dir]} ∪ ah_locks h.
(** The agent is ready, and runs a collector and nothing else. *)
Definition ready (s : settings) (key code : string) (serverID : option string) (w w' : agent_world N) (a : Agent) (wi : wiring) : Prop :=
  InitializationError a = None /\ ag_closed a = false /\ ag_hubURL a = CanonicalHubURL (flagAgentHub s) /\
  credential_source euid (flagAgentHub s) key code serverID (aw_boot w) (Ok (ag_apiKey a)) (aw_boot w') /\
  (exists sp, ag_spool a = Some sp /\ sp_closed sp = false) /\ holds_lock (aw_host w) (aw_host w') /\
  (ag_bound a = true -> exists c n, cf_file (bo_creds (aw_boot w')) = Some n /\ private euid n /\ cj_Unmarshal (nd_content n) = Some c) /\
  wi_program wi = {| pg_workers := [CollectorLoop]; pg_server := false; pg_report := false |} /\ wi_hub wi = false.
Definition agent_made (s : settings) (key code : string) (serverID : option string) (w : agent_world N)
    (r : result error (Agent * wiring)) (w' : agent_world N) : Prop :=
  match r with
  | Ok (a, wi) => ready s key code serverID w w' a wi
  | Err _ => serverID <> None -> ah_locks (aw_host w') = ah_locks (aw_host w)
  end.

Lemma wp_on_boot {A} (m : M (boot N) A) (Q : result error A -> agent_world N -> Prop) w :
  wp m (fun r b => Q r {| aw_boot := b; aw_host := aw_host w |}) (aw_boot w) -> wp (on_boot m) Q w.
Proof. intros Hm. apply wp_zoom. exact Hm. Qed.
Lemma wp_on_host {A} (m : M agent_host A) (Q : result error A -> agent_world N -> Prop) w :
  wp m (fun r h => Q r {| aw_boot := aw_boot w; aw_host := h |}) (aw_host w) -> wp (on_host m) Q w.
Proof. intros Hm. apply wp_zoom. exact Hm. Qed.
Lemma wp_on_agent {S} (m : M Agent unit) a (Q : result error Agent -> S -> Prop) s :
  (forall fs r a' fs', m a fs = (r, a', fs') -> Q (Ok a') s) -> wp (on_agent m a) Q s.
Proof. intros HQ fs. unfold on_agent. destruct (m a fs) as [[r a'] fs'] eqn:E. by eapply HQ. Qed.
Lemma wp_bindAgentSpool key (b : boot N) :
  wp (bindAgentSpool euid tokenPath key) (fun r b' => b' = b /\ exists o, r = Ok o /\
    (o <> None -> exists c n, cf_file (bo_creds b) = Some n /\ private euid n /\ cj_Unmarshal (nd_content n) = Some c)) b.
Proof.
  unfold bindAgentSpool. destruct (negb _); [apply wp_ret; split; [done|]; by exists None|].
  apply wp_try, wp_on_files. eapply wp_mono; [apply wp_Load|]. intros r cs [-> Hr].
  replace (Build_boot (bo_creds b) (bo_net b)) with b by (by destruct b).
  destruct r as [c|e]; apply wp_ret; (split; [done|]); eexists; (split; [done|]); [|done]. intros _.
  destruct Hr as (_ & n & Hr). by exists c, n.
Qed.

(** The end of [makeProgram], on the agent as it is after binding. *)
Lemma wp_finish_agent s key code serverID w b h a a2 token :
  credential_source euid (flagAgentHub s) key code serverID (aw_boot w) (Ok token) b ->
  started wd extraRoots boot_time seed (flagAgentHub s) token (aw_host w) (Ok a) h ->
  a2 = a \/ rebound a a2 /\ (exists c n, cf_file (bo_creds b) = Some n /\ private euid n /\ cj_Unmarshal (nd_content n) = Some c) ->
  wp (match InitializationError a2 with
      | Some e => let* _ := on_host (abandon (ah_locks (aw_host w)) a2) in fail e
      | None =>
          match serverID with
          | None => fail (EMsg "agent identity unavailable")
          | Some _ => ret (a2, agent_wiring s)
          end
      end) (agent_made s key code serverID w) {| aw_boot := b; aw_host := h |}.
Proof.
  intros Hcred (a' & [= <-] & Hc & Hb & Hk & Hu & Hs & Hi) Ha.
  assert (Hlike : agent_like a a2 /\ ag_apiKey a2 = token /\ ag_hubURL a2 = CanonicalHubURL (flagAgentHub s) /\
    (ag_initErr a2 = None -> ag_initErr a = None)).
  { destruct Ha as [->|[(Hl & E1 & E2 & _ & E3) _]]; [by split; [apply agent_like_refl|]|].
    split; [done|]. split; [congruence|]. split; [congruence|]. intros Hn. by destruct (E3 Hn). }
  destruct Hlike as ([Hl1 Hl2] & Hk2 & Hu2 & Hi2). unfold InitializationError. destruct (ag_initErr a2) as [e|] eqn:Ee.
  - apply wp_mbind, wp_on_host. unfold abandon. destruct (ag_spool a2) eqn:Es2.
    + apply wp_modify, wp_fail. intros _. simpl. destruct (ag_spool a) eqn:Es; [|by destruct Hl2].
      destruct Hs as (_ & dir & _ & _ & Hn & ->). set_solver.
    + apply wp_ret, wp_fail. intros _. simpl. destruct (ag_spool a); [done|]. by destruct Hs.
  - destruct serverID as [id|]; [|apply wp_fail; intros Hn; by destruct Hn]. apply wp_ret. specialize (Hi2 eq_refl). destruct (Hi Hi2) as (_ & Hsp & _).
    destruct (ag_spool a) as [sp|] eqn:Es; [|done]. destruct Hs as [Hopen Hlock].
    destruct (ag_spool a2) as [sp2|] eqn:Es2; [|done]. destruct Hl2 as [Hl2 _].
    split; [done|]. split; [congruence|]. split; [done|]. split; [by rewrite Hk2|]. split; [exists sp2; split; [done|congruence]|].
    split; [done|]. split; [|done]. intros Hbound. destruct Ha as [->|[_ Ha]]; [congruence|done].
Qed.
Lemma wp_make_agent s key code hostname serverID override now w :
  wp (make_agent post euid tokenPath platform version wd extraRoots owned boot_time seed s key code hostname serverID override now)
     (agent_made s key code serverID w) w.
Proof.
  unfold make_agent. apply wp_mbind, wp_on_boot. eapply wp_mono; [apply wp_agentCredentials|].
  intros [token|e] b1 Hcred; [|done]. apply wp_inspect. cbv zeta. apply wp_mbind, wp_on_host.
  eapply wp_mono; [apply wp_New|]. intros r h1 Hstart. pose proof Hstart as (a & -> & _).
  apply wp_mbind, wp_on_boot. eapply wp_mono; [apply wp_bindAgentSpool|].
  intros r b2 [-> (o & -> & Ho)]. simpl in Ho. apply wp_mbind. destruct o as [[tenant server]|].
  - apply wp_on_agent. intros fs r a2 fs' Hb. apply (wp_finish_agent s key code serverID w b1 h1 a a2 token); [done..|]. right. split; [by eapply BindIdentity_rebound|by apply Ho].
  - apply wp_ret. apply (wp_finish_agent s key code serverID w b1 h1 a a token); [done..|]. by left.
Qed.
End agents.

Section programs.
Context `{Unicode} `{URLParser} `{CredentialJSON} `{EnrollJSON} `{NotifyJSON}.
Context (Post : string -> string -> string -> post_result) (quote : string -> string).
Context {N : Type} (post : string -> string -> M N (option (Z * string))).
Context (euid : Z) (tokenPath platform version : string).
Context (wd : option string) (extraRoots : list string) (owned : string -> bool) (boot_time seed : option Z).

(** C34. A program is made complete or not at all.  Without [-agent], a program
    that is made has an open store, the server, the retention job with the
    configured budget, an evaluator exactly when alerting is on and then with
    usable rules, and a collector exactly when it is no hub, which writes
    through the capacity check.  With [-agent], whatever fails and whatever the
    network answers, the program that is made is an agent without an
    initialization error for the configured hub, with an open queue whose lock
    it alone holds, a credential from where it should come, and, when it is
    bound, a stored private credential it is bound to; it has no server, store
    or evaluator.  When no program is made the locks are as before. *)
Theorem programs_are_complete s a env store registered query read parse key code hostname serverID override now w fs :
  (forall wi, make_server Post quote s a env store registered query read parse = MakeDone wi -> is_ok store = true /\ fits s a env wi) /\
  (let '(r, w', _) := make_agent post euid tokenPath platform version wd extraRoots owned boot_time seed
                        s key code hostname serverID override now w fs in
   agent_made euid wd extraRoots s key code serverID w r w').
Proof.
  split; [intros wi; apply make_server_fits|]. revert fs.
  exact (wp_make_agent post euid tokenPath platform version wd extraRoots owned boot_time seed s key code hostname serverID override now w).
Qed.
End programs.

(** ** Concrete inputs *)

Module SampleMain.
#[export] Instance net : Net := {|
  IP := unit; net_ParseIP := fun _ => None; ip_equal := fun _ _ => true; ip_IsLoopback := fun _ => false;
  ip_IsUnspecified := fun _ => false; net_ParseCIDR := fun _ => None;
  net_SplitHostPort := fun _ => None |}.
#[export] Instance urls : URLParser := fun _ => Some {| u_Scheme := "https"; u_Host := "hub"; u_Hostname := "hub" |}.
#[export] Instance dsns : DSNParser := fun _ => None.
#[export] Instance hubs : HubParser := fun _ => Some {| ho_User := false; ho_RawQuery := EmptyString; ho_Fragment := EmptyString; ho_Path := EmptyString |}.
#[export] Instance order : MapRange := canonical_range.
#[export] Instance chars : Unicode := ascii_only.
Definition defaults (given : list string) : settings := {|
  flagPort := "8080"; flagAppPort := EmptyString; flagDB := "sqlite"; flagDSN := EmptyString; flagDSNFile := EmptyString;
  flagAgentHub := EmptyString; flagAPIKey := EmptyString; flagHub := false; flagExternalIface := EmptyString;
  flagSince := 720 * hour; flagTTL := 336 * hour; flagMaxUses := 25; flagEnrollCode := EmptyString;
  flagUserWindow := 60000000000; flagRunFor := 0; flagExportFlt := EmptyString; flagTenant := EmptyString; explicitFlags := given |}.
Definition flags_of (install stop : bool) (given : list string) : flags := {|
  flagInstall := install; flagUninstall := false; flagStart := false; flagStop := stop; flagShowKey := false;
  flagPrintConfig := false; flagConfig := EmptyString; fl_settings := defaults given;
  fl_alerts := {| flagAlerts := EmptyString; flagWriteDefaultAlerts := EmptyString; flagAlertWebhook := EmptyString;
                  flagAlertSlack := EmptyString; flagNoAlerts := false |};
  fl_admin := {| flagNewEnrollCode := EmptyString; flagNewAdminToken := false; flagListAgents := EmptyString;
                 flagRevokeAgent := EmptyString; flagMigrateOpaqueTenants := false; flagOpaqueBackupDir := EmptyString;
                 flagAddClient := EmptyString; flagListClients := false; flagRevokeClient := EmptyString;
                 flagImportClients := EmptyString; flagNewTTL := 336 * hour; flagNewMaxUses := 25 |};
  fl_report := {| flagExportCSV := EmptyString; flagExportTxt := EmptyString; flagAssessmentReport := EmptyString |} |}.
(** The file of the configuration sets hub mode; its directory may be open. *)
Definition around (open : bool) (args : list string) : surroundings := {|
  su_args := args; su_files := SampleConfig.machine open; su_euid := 0; su_env := ∅; su_embedded := false; su_interactive := true |}.
Definition run (f : flags) (w : surroundings) : option command := main "1.0" "abc" f w.
End SampleMain.
#[local] Existing Instances SampleMain.net SampleMain.urls SampleMain.dsns SampleMain.hubs SampleMain.order SampleMain.chars.

(** The directory of the configuration is open to its group: the hub does not
    start, but the service can be stopped. *)
Example broken_config_can_be_stopped :
  SampleMain.run (SampleMain.flags_of false false []) (SampleMain.around true []) = Some (Fatal "configuration rejected") /\
  SampleMain.run (SampleMain.flags_of false true []) (SampleMain.around true []) = Some (Control StopService).
Proof. vm_compute. done. Qed.
Example secret_flag_is_not_installed :
  SampleMain.run (SampleMain.flags_of true false ["api-key"]) (SampleMain.around false ["-install"; "-api-key"; "wmk_1"]) =
  Some (Fatal "put service secrets in protected machine config, not installation arguments").
Proof. vm_compute. done. Qed.
Lemma main_is_gated_witness :
  let f := SampleMain.flags_of true false [] in
  let w := SampleMain.around false ["-install"; "-hub"] in
  SampleMain.run f w = Some (Control (Install ["-hub"])) /\ exists s env, accepted f w s env /\ sound w s env.
Proof.
  intros f w. assert (Hrun : SampleMain.run f w = Some (Control (Install ["-hub"]))) by (vm_compute; reflexivity).
  split; [exact Hrun|]. destruct (main_is_gated "1.0" "abc" f w _ Hrun) as (_ & _ & Hacc). exact Hacc.
Defined.

(** An agent that enrolls at its first start and whose queue is free, and one
    whose queue another process owns. *)
Module SampleAgents.
#[export] Existing Instances SampleStartup.json SampleStartup.enroll_json.
#[export] Instance alert_json : NotifyJSON := {| nj_alert := fun _ => None; nj_text := fun _ => None |}.
Definition Post (url type body : string) : post_result := Answered 200.
Definition settings_of (hub : bool) : settings :=
  let s := SampleMain.defaults [] in
  {| flagPort := flagPort s; flagAppPort := flagAppPort s; flagDB := flagDB s; flagDSN := flagDSN s; flagDSNFile := flagDSNFile s;
     flagAgentHub := if hub then EmptyString else SampleStartup.hub; flagAPIKey := flagAPIKey s; flagHub := hub;
     flagExternalIface := flagExternalIface s; flagSince := flagSince s; flagTTL := flagTTL s; flagMaxUses := flagMaxUses s;
     flagEnrollCode := flagEnrollCode s; flagUserWindow := flagUserWindow s; flagRunFor := flagRunFor s;
     flagExportFlt := flagExportFlt s; flagTenant := flagTenant s; explicitFlags := [] |}.
Definition world (locks : gset string) : agent_world (list string) :=
  {| aw_boot := SampleStartup.empty;
     aw_host := {| ah_machine := {| mc_fs := ∅; mc_env := {["HOME" := "/home/ana"]} |}; ah_locks := locks; ah_disks := ∅ |} |}.
Definition start (locks : gset string) : result error (Agent * wiring) * agent_world (list string) :=
  (make_agent SampleStartup.post 0 SampleStartup.path "linux/amd64" "dev" None [] (fun _ => true) (Some 1000) (Some 7)
     (settings_of false) EmptyString "ABCD" "box" (Some "a_1") EmptyString 7 (world locks) []).1.
Definition lock : string := "/home/ana/.local/share/sysmon/spool/owner.lock".
End SampleAgents.
#[local] Existing Instances SampleAgents.alert_json SampleStartup.json SampleStartup.enroll_json.

Example taken_queue_is_refused :
  let r := SampleAgents.start {[ SampleAgents.lock ]} in is_ok r.1 = false /\ elements (ah_locks (aw_host r.2)) = [SampleAgents.lock].
Proof. vm_compute. split; reflexivity. Qed.
Lemma programs_are_complete_witness :
  let r := SampleAgents.start ∅ in
  elements (ah_locks (aw_host r.2)) = [SampleAgents.lock] /\
  exists a wi, r.1 = Ok (a, wi) /\ ag_bound a = true /\ ag_apiKey a = "wma_1" /\
    ready 0 None [] (SampleAgents.settings_of false) EmptyString "ABCD" (Some "a_1") (SampleAgents.world ∅) r.2 a wi.
Proof.
  intros r. split; [vm_compute; reflexivity|].
  pose proof (proj2 (programs_are_complete SampleAgents.Post id SampleStartup.post 0 SampleStartup.path "linux/amd64" "dev" None []
    (fun _ => true) (Some 1000) (Some 7) (SampleAgents.settings_of false)
    (fl_alerts (SampleMain.flags_of false false [])) ∅ (Err (EMsg "unused")) (Ok tt) {| q_all := None; q_tenant := fun _ _ => Ok [] |}
    None (fun _ => None) EmptyString "ABCD" "box" (Some "a_1") EmptyString 7 (SampleAgents.world ∅) [])) as Hmade.
  assert (Hrun : exists a wi fs', make_agent SampleStartup.post 0 SampleStartup.path "linux/amd64" "dev" None [] (fun _ => true)
    (Some 1000) (Some 7) (SampleAgents.settings_of false) EmptyString "ABCD" "box" (Some "a_1") EmptyString 7 (SampleAgents.world ∅) [] =
    (Ok (a, wi), r.2, fs') /\ r.1 = Ok (a, wi) /\ ag_bound a = true /\ ag_apiKey a = "wma_1")
    by (do 3 eexists; split_and!; vm_compute; reflexivity).
  destruct Hrun as (a & wi & fs' & Hrun & Hr & Hb & Hk). rewrite Hrun in Hmade. exists a, wi.
  split; [exact Hr|]. split; [exact Hb|]. split; [exact Hk|]. exact Hmade.
Defined.
